(* ===== verification/_CoqProject ===== *)
-Q . S2P
Prelude.v
PyValue.v
PyText.v
PyJson.v
PyUnicode.v
JsonText.v
PyFloat.v
PyFormat.v
Shlex.v
Sha256.v
PyPath.v
StateRoot.v
TraceLog.v
TraceExample.v
TraceMessages.v
TraceEvidence.v
TracePermissions.v
TraceOutcome.v
TraceBudgets.v
TraceWorkflow.v
TraceCompaction.v
TraceEvaluate.v
Schema.v
Outcome.v
Capabilities.v
Tools.v
Host.v
Contract.v
Builtin.v
LiteLLM.v
TaskProtocol.v
TaskRoot.v
BudgetWatcher.v
Trajectory.v
Invocation.v
Graphs.v
RunText.v
FoeArm.v
RunPlan.v
RunDocs.v
MeteringProxy.v
Pairing.v
NormalizeFoe.v
NormalizeCodex.v
CodexArm.v
RunOutcome.v
RunLaunch.v
Rescore.v
RunDocument.v
FoeBuild.v
Candidates.v
CodexRun.v
Conditions.v
ArmRun.v
RunAttempt.v
AttemptEffects.v
RunMain.v
Isolation.v
Grouping.v
Stats.v
Report.v
Mechanisms.v
Comparison.v
ReportText.v
Archive.v
