(* ===== verification/Prelude.v ===== *)
(** * A verification development for foe

    foe runs coding agents as _episodes_: a binary drives a model and appends
    every event to a log, a Python package hosts the binary, and Python
    programs audit and compare the runs.  This development models the Python
    side: the host package (src/python/foe), the auditor of episode logs
    (src/evals/trace_quality.py) and parts of the study that compares foe with
    another harness (src/evals/cross_harness).  Every definition is executable
    and translated from the source; exceptions are values of [res], mutated
    objects are records threaded through the steps, and what the code reads
    from the outside (files, processes, clocks, a model provider, the body of a
    host tool) is an argument.

    ** Layers

    _Values and text._  [Prelude] (this file): the result monad with the
    exceptions, loops, string and list operations, the tactics and hint
    databases.  [PyValue]: the values JSON decodes to, dictionaries in insertion
    order, equality and comparison as Python has them, [int], [float] and [bool]
    mixed.  [PyText]: [str], [repr] and [int] of a value, splitting, iteration,
    access by key.  [PyJson]: UTF-8 checking, the decoder with its error
    messages and the encoder.  [PyUnicode]: stripping, splitting into lines and
    encoding of non-ASCII text, and canonical JSON.  [JsonText]: the indented
    encoder, and that its text, like every text that renders a plain value,
    decodes to that value.  [PyFloat]: the operations on binary64 the report
    uses, rounding as IEEE 754 has it; [PyFormat]: the format specifications
    tables are written with.  [Shlex]: the shell's splitting, quoting
    and joining of words.  [PyPath]: the lexical part of paths, where a leading
    double slash is read as a single one.
    [Sha256]: the digest of archived bytes.  [RunText]: replacing in a text and
    normalising a path.

    _The auditor_, src/evals/trace_quality.py.  [TraceLog] is the [Evaluation]
    object and the report; [TraceMessages], [TraceEvidence], [TracePermissions],
    [TraceOutcome], [TraceBudgets], [TraceWorkflow] and [TraceCompaction] hold
    one [_check_...] function each, in a writer-like monad that records checks
    and can be cut short by an exception the source does not catch;
    [TraceEvaluate] reads the files and runs the checks in the order [evaluate]
    does.  Its theorems say what a report means: what is true of a log all of
    whose checks pass (calls settled, messages reproducible, budgets respected,
    spans of compactions following one another, permissions enforced), and that the report is
    valid exactly when all pass.  [TraceExample] holds the logs the witnesses
    run the whole auditor on.

    _The host package_, src/python/foe.  [Schema] (_schema.py) derives JSON
    schemas from annotations; [Outcome] (_outcome.py, _versions.py) decodes
    outcomes and events; [Capabilities] (_capabilities.py) confines file access
    and execution; [Tools] (_tools.py) specifies and invokes host tools, using
    [Schema] and [Capabilities]; [Contract] (_contract.py) constructs and
    serialises contracts of tools; [Builtin] (_builtin.py) prepares and gates
    the built-in documents; [Host] (_host.py) reads the binary's lines and
    answers them from concurrent tasks, with the interleavings as a step
    relation; [LiteLLM] (adapters/litellm.py) turns provider chunks into the
    chunks [Host] serves.  Its theorems say that schemas accept exactly the
    annotated values, that accepted paths lie below the grants by the same rule
    the auditor applies, that contracts are coherent, that what is written for a
    model request is one stream with one end under every interleaving, and that
    the gate re-fires the nearest model nodes.  The reader is modelled over the
    list of lines the binary wrote before it closed its output; that it does close
    it, and the blocking writes and waits of the process, are not modelled.

    _The comparison study_, src/evals/cross_harness, which runs foe and another
    harness on the same tasks.  [MeteringProxy] (metering_proxy.py) stands
    between a harness and the provider: usage extraction, budgets, the meter
    under interleaving handler threads (a step relation) and the relay.
    [BudgetWatcher] (codex_budget_watcher.py) sums the usage session files
    report, read incrementally, and stops a run over its limits.  [Trajectory]
    (trajectory.py) is the record both harnesses are reduced to, with its JSON
    form, its totals and the attribution of file writes to commands, and
    [Invocation] (the same file) tells a command that runs the suite from one
    that names it.  [Graphs] (contracts/graphs.py) builds the documents foe runs,
    one variant for each mechanism removed, and [Conditions] (conditions.py)
    computes from the documents and the logs whether a run was of the condition
    its arm declares and whether it entered the wait.  [StateRoot] (rescore.py)
    is the form in which records name paths of the state root.
    [NormalizeFoe] (normalize_foe.py) reduces the logs of an episode tree to a
    trajectory; [Pairing] is the loop its extractors share, in which records
    are opened under an id and closed by the first event of the id.
    [TaskProtocol] (tasks/protocol.py) is the task document, its file, the
    grade and the cell an attempt is scored into; [TaskRoot] (the same file) is
    the file tree a task directory becomes: a finite map from paths to files
    and folders, in a monad whose every system call may be made to fail, with
    [materialize], the hashes, [damage], [grade] and the controls.
    [NormalizeCodex] (normalize_codex.py) reduces the session files and the
    event stream of the other harness to a trajectory.  The runner (run.py) is
    over [TaskRoot]'s file system: [RunPlan] the arms, the ceilings, the tool
    roots and the schedule; [RunDocs] the document, the check script and the
    prompt an arm is given; [FoeArm] (arms/foe_arm.py) the document a run is
    started with and the outcome it printed; [CodexArm] and [CodexRun]
    (arms/codex_arm.py) the files of a Codex run, the copy of its credential
    from making to settling, and its outcome; [RunOutcome] the reduction of what
    an arm left and the faults of an attempt; [ArmRun], [RunAttempt] and
    [AttemptEffects] an attempt from the materialised task to the classified
    record, and what the process of an arm can see and change; [RunLaunch] the
    attempts that are pending, set aside, run and recorded; [RunDocument] the run
    document read key by key; [RunMain] the header of a run, its plan and [main].
    [FoeBuild] (foe_build.py) is the identity of the binary a run names and the
    record of how it was built.  [Rescore] (rescore.py) scores committed attempts
    again from rebuilt fixtures, and [Isolation] (gates/isolation.py) decides
    whether what the attempts of a run recorded shows that no canary reached a
    model.  The report (report.py)
    is six files over [Grouping], the insertion-ordered dictionaries of lists
    it groups attempts in: [Report] holds the records, the rates and costs of a
    group and the construction of a task; [Mechanisms] the ceilings, the
    verifier's firings and the row of an arm; [Stats] the exact tests; and
    [Comparison] the pairing of two arms, the sign test, the bootstrap and
    [build]; [ReportText] the Markdown of a report; and [Archive] the archived
    campaigns, read from three files that must agree, and their tables.

    _The benchmark campaigns_, src/evals/terminal_bench: [Candidates]
    (workflow_candidate.py, instruction_candidate.py, tool_candidate.py) holds the
    proposed changes, each sealed by a digest, and its theorem says that what is
    accepted is sealed and stays what it is.

    Of the study the theorems say that the documents are coherent graphs whose
    nodes may do no more than the document, that the conditions of the unverified
    and of the ablated arm hold of their own variant alone, that accounts are exact and budgets enforced
    under every interleaving, that reading by pieces is reading the whole, that
    the JSON form round-trips, that the normalised calls and agents are those
    of the logs, that a task survives its file, that an arm's root holds the
    workspace alone, that a failed materialisation leaves nothing behind, that
    damage names exactly the files whose digest is not that of the fixture or of
    what the grader installed, that the rates of a report account for every attempt, that a
    comparison pairs exactly the attempts both arms hold, that the tables of an
    archive account for its attempts, that a comparison counts wins although
    it compares quotients of floats, states exact binomial probabilities, and
    is returned whatever the random generator draws exactly when its pairs have
    constructions; and of the runner that the
    schedule is balanced, that the document run is the graph that was built and
    every root its nodes may execute can be read, that a document that loads is
    one the runner can run, that an arm is shown no grader, that every attempt
    is accounted for, that a credential is settled whatever fails and no copy of
    it is left, that the ceilings a person confirms are those of the attempts
    launched, that a run that is interrupted and resumed loses nothing and
    repeats nothing, that an attempt scored again gets the cell its own fixture
    gives it, and what a run reported isolated has shown: requests recorded, read
    whole and counted as far as the gate counts them, and no canary in any.

    ** Bounds

    Some loops of the source are not bounded by their input.  The recursive
    sum and the counting loop of [TraceBudgets] take a limit, because on logs
    whose parents form a cycle the source does not return
    ([subtree_cycle_diverges]); on forests the number of logs is enough
    ([subtree_walks_end]).  [Builtin.walk_fuel] bounds the walk over
    predecessors, which visits each node once; [refired_nearest] proves it
    enough.  [NormalizeCodex.walk] takes two rounds more than there are session
    files, which [threads_exact] proves enough, and [Conditions.contracts_from] a
    round for each node of the document as a value, which [contracts_exact] proves
    enough; the search of [RunLaunch] for a free name takes a
    round more than there are entries, which [set_aside_preserves] proves enough,
    and the episode directory of [RunAttempt] is sought to the depth of the file
    tree.  The JSON decoder takes the length of its input as fuel, since every
    step consumes a character, and so do the splitting of event streams in
    [MeteringProxy], the tokens of a command in [Trajectory] and the decoding
    with replacement, for the same reason.  Everything else recurses on its data.
    Integers are unbounded as in Python; floats are [spec_float]s of binary64.

    ** Not modelled

    The Rust crates (the runtime binary itself), process, pipe and terminal
    handling, asyncio beyond the interleaving of tasks at their suspension
    points, argument parsing and printing, and the benchmark drivers of
    src/evals that only launch containers and copy files.  Of the comparison
    study, the authoring of tasks (tasks/constructions.py, feature_removal.py and
    the patch writing of protocol.py), the gates other than isolation, the
    progress lines and closing summary of a run are left out; so are the rest of the Terminal-Bench harness,
    the configuration repair study and the cost and composition assessments
    beside it.  Admission is left out because the module cannot be imported: its
    pattern for test lines is no regular expression.  The random generator of
    the bootstrap, the reading of ISO timestamps, what git, the search path and
    the Codex binary print, and what a task's own scripts do are arguments; of a
    task directory, symbolic links are left out.  Strings are byte
    strings in UTF-8; where a source operation depends on Unicode tables
    (identifier letters, case folding) the model covers ASCII and says so. *)

From stdpp Require Import base list strings pretty gmap sorting.
From Stdlib Require Import ZArith Lia.

(** ** Results: Python exceptions as values *)

(** The exceptions the modelled code raises or lets through, with the text
    [str(exc)] has.  The last group is the package's own
    (src/python/foe/_errors.py).  [OutOfFuel] is not an exception: it says that
    a loop the source does not bound used up the steps the model gave it. *)
Inductive exn : Type :=
| TypeError (msg : string)
| ValueError (msg : string)
| KeyError (key : string)
| IndexError (msg : string)
| AttributeError (msg : string)
| OverflowError (msg : string)
| OSError (msg : string)
| RuntimeError (msg : string)
| ZeroDivisionError (msg : string)
| StopIteration
| RecursionError
| OutOfFuel
| ConfigError (msg : string)
| CapabilityError (msg : string)
| ProtocolError (msg : string)
| CompatibilityError (msg : string)
| BinaryError (msg : string).

Inductive res (A : Type) : Type :=
| Ok (a : A)
| Err (e : exn).
Arguments Ok {A} a.
Arguments Err {A} e.

#[export] Instance res_ret : MRet res := λ A a, Ok a.
#[export] Instance res_bind : MBind res := λ A B f m,
  match m with Ok a => f a | Err e => Err e end.
#[export] Instance res_fmap : FMap res := λ A B f m,
  match m with Ok a => Ok (f a) | Err e => Err e end.

Definition is_ok {A} (m : res A) : bool :=
  match m with Ok _ => true | Err _ => false end.

(** [raise_if c e]: a guard clause, [if c: raise e]. *)
Definition raise_if (c : bool) (e : exn) : res () :=
  if c then Err e else Ok ().

(** Short-circuiting [and] whose operands may raise. *)
Definition andM (a b : res bool) : res bool := x ← a; if (x : bool) then b else Ok false.

(** The message of the exception, [str(exc)]. *)
Definition exn_str (e : exn) : string :=
  match e with
  | TypeError m | ValueError m | IndexError m | AttributeError m
  | OverflowError m | OSError m | RuntimeError m | ConfigError m | CapabilityError m
  | ProtocolError m | CompatibilityError m | BinaryError m => m
  | ZeroDivisionError m => m
  | KeyError k => "'" +:+ k +:+ "'"
  | StopIteration => ""
  | RecursionError => "maximum recursion depth exceeded"
  | OutOfFuel => ""
  end.

(** ** Loops *)

(** A [for] loop whose body threads a state through a monad. *)
Fixpoint foldM {M : Type → Type} `{MRet M, MBind M} {A S : Type}
    (f : S → A → M S) (s : S) (l : list A) : M S :=
  match l with
  | [] => mret s
  | x :: l => s' ← f s x; foldM f s' l
  end.

(** [[f(x) for x in l]] where [f] may raise; a function of [f], so that a
    recursive definition can call itself through it. *)
Definition map_res {A B} (f : A → res B) : list A → res (list B) :=
  fix go l := match l with
  | [] => Ok []
  | x :: l => y ← f x; r ← go l; Ok (y :: r)
  end.

(** [enumerate(l)], counting from [i]. *)
Fixpoint enumerate_from {A} (i : nat) (l : list A) : list (nat * A) :=
  match l with
  | [] => []
  | x :: l => (i, x) :: enumerate_from (S i) l
  end.
Definition enumerate {A} (l : list A) : list (nat * A) := enumerate_from 0 l.

(** [s.join(l)]. *)
Fixpoint join (sep : string) (l : list string) : string :=
  match l with
  | [] => ""
  | [s] => s
  | s :: l => s +:+ sep +:+ join sep l
  end.

(** [sorted(l)] for strings: code-point order, which UTF-8 preserves. *)
Definition sorted_strings (l : list string) : list string := merge_sort String.le l.

(** [sorted(set(l))]. *)
Definition sorted_set (l : list string) : list string := sorted_strings (remove_dups l).

(** ** Strings *)

Definition nl : string := String (Ascii.ascii_of_nat 10) "".

Fixpoint str_take (n : nat) (s : string) : string :=
  match n, s with
  | S n, String c s => String c (str_take n s)
  | _, _ => ""
  end.
Fixpoint str_drop (n : nat) (s : string) : string :=
  match n, s with
  | 0, s => s
  | S n, String _ s => str_drop n s
  | S _, EmptyString => ""
  end.
(** [s.startswith(p)]. *)
Definition starts_with (p s : string) : bool := String.prefix p s.

Lemma str_app_cons c a b : String c a +:+ b = String c (a +:+ b).
Proof. done. Qed.
Lemma str_app_assoc (a b c : string) : (a +:+ b) +:+ c = a +:+ (b +:+ c).
Proof. induction a as [|x a IH]; [done|]. rewrite !str_app_cons. by f_equal. Qed.
Lemma str_app_nil_r (a : string) : a +:+ "" = a.
Proof. induction a as [|x a IH]; [done|]. rewrite str_app_cons. by f_equal. Qed.
Lemma length_str_app a b : String.length (a +:+ b) = String.length a + String.length b.
Proof. induction a as [|c a IH]; [done|]. rewrite str_app_cons. cbn [String.length]. by rewrite IH. Qed.

Lemma starts_with_app p t : starts_with p (p +:+ t) = true.
Proof.
  unfold starts_with. induction p as [|c p IH]; [by destruct t|]. rewrite str_app_cons. simpl.
  by destruct (Ascii.ascii_dec c c).
Qed.
Lemma starts_with_inv p s : starts_with p s = true → ∃ t, s = p +:+ t.
Proof.
  unfold starts_with. revert s. induction p as [|c p IH]; intros [|d s]; simpl; try done; eauto.
  destruct (Ascii.ascii_dec c d) as [->|]; [|done]. intros (t & ->)%IH. exists t. by rewrite str_app_cons.
Qed.

(** ** Tactics and hints *)

Create HintDb foe discriminated.
Create Rewrite HintDb foe_rw.

(** Take apart every [mbind] and [mret] hypothesis of the result monad. *)
Ltac res_inv :=
  repeat match goal with
  | H : Err _ = Ok _ |- _ => discriminate H
  | H : Ok _ = Err _ |- _ => discriminate H
  | H : Ok _ = Ok _ |- _ => injection H as H; try subst
  | H : Err _ = Err _ |- _ => injection H as H; try subst
  | H : mret _ = Ok _ |- _ => unfold mret, res_ret in H
  | H : (_ ≫= _) = Ok _ |- _ =>
      let E := fresh "E" in
      unfold mbind, res_bind in H at 1;
      lazymatch type of H with
      | match ?m with _ => _ end = _ => destruct m eqn:E; [|discriminate H]
      end
  | H : raise_if ?c _ = Ok _ |- _ =>
      let E := fresh "E" in unfold raise_if in H; destruct c eqn:E; [discriminate H|]
  end.

(** Case analysis on the innermost boolean or option test of the goal. *)
Ltac case_step :=
  match goal with
  | |- context [match ?x with _ => _ end] => lazymatch x with
      | context [match _ with _ => _ end] => fail
      | _ => destruct x eqn:?
      end
  end.

(** ** Generic lemmas *)

Lemma res_bind_ok {A B} (m : res A) (f : A → res B) b :
  m ≫= f = Ok b ↔ ∃ a, m = Ok a ∧ f a = Ok b.
Proof.
  destruct m as [a|e]; simpl.
  - split; [eauto|]. by intros (a' & [= ->] & H).
  - split; [done|]. by intros (a' & ? & _).
Qed.

Lemma raise_if_ok c e u : raise_if c e = Ok u ↔ c = false.
Proof. unfold raise_if. destruct c, u; split; congruence. Qed.

(** An invariant of a loop that returns, indexed by the items consumed. *)
Lemma foldM_ok_ind {A S} (f : S → A → res S) (I : list A → S → Prop) l s s' :
  I [] s →
  (∀ l1 x s1 s2, x ∈ l → I l1 s1 → f s1 x = Ok s2 → I (l1 ++ [x]) s2) →
  foldM f s l = Ok s' → I l s'.
Proof.
  intros H0 Hs. change l with ([] ++ l) at 2. revert H0.
  generalize (@nil A) at 1 2. revert s.
  assert (Hsub : ∀ x, x ∈ l → x ∈ l) by done. revert Hsub. generalize l at 1 3 4.
  intros l'. induction l' as [|x l' IH]; intros Hsub s pre H0; simpl.
  - intros [= <-]. by rewrite app_nil_r.
  - intros (s1 & E & H)%res_bind_ok. change (x :: l') with ([x] ++ l'). rewrite app_assoc.
    apply (IH (λ y Hy, Hsub y (list_elem_of_further _ _ _ Hy)) s1); [|done].
    eapply Hs; eauto using list_elem_of_here.
Qed.

Lemma map_res_Forall2 {A B} (f : A → res B) l r :
  map_res f l = Ok r ↔ Forall2 (λ x y, f x = Ok y) l r.
Proof.
  revert r. induction l as [|x l IH]; intros r; simpl.
  - split; [intros [= <-]; constructor|by inversion 1].
  - rewrite res_bind_ok. split.
    + intros (y & Hy & (r' & Hr & [= <-])%res_bind_ok). constructor; [done|]. by apply IH.
    + inversion 1; subst. eexists. split; [done|]. apply res_bind_ok. eexists. split; [by apply IH|done].
Qed.

Lemma enumerate_from_length {A} (l : list A) i : length (enumerate_from i l) = length l.
Proof. revert i. induction l; intros; simpl; auto. Qed.

Lemma enumerate_from_lookup {A} (l : list A) i k :
  enumerate_from i l !! k = (λ x, ((i + k)%nat, x)) <$> (l !! k).
Proof.
  revert i k. induction l as [|x l IH]; intros i [|k]; simpl; auto.
  - by rewrite Nat.add_0_r.
  - rewrite IH. by rewrite Nat.add_succ_r.
Qed.

Lemma enumerate_lookup {A} (l : list A) k : enumerate l !! k = (λ x, (k, x)) <$> (l !! k).
Proof. apply enumerate_from_lookup. Qed.

Lemma elem_of_enumerate {A} (l : list A) k x : (k, x) ∈ enumerate l ↔ l !! k = Some x.
Proof.
  rewrite list_elem_of_lookup. setoid_rewrite enumerate_lookup. split.
  - intros [i Hi]. destruct (l !! i) eqn:E; simplify_eq/=. done.
  - intros H. exists k. by rewrite H.
Qed.

(** A property of every position of a concrete list, by evaluation. *)
Lemma lookup_forallb {A} (f : nat → A → bool) l k x :
  forallb (λ kx, f kx.1 kx.2) (enumerate l) = true → l !! k = Some x → f k x = true.
Proof.
  rewrite forallb_forall. intros H Hx. apply (H (k, x)). apply list_elem_of_In. by apply elem_of_enumerate.
Qed.

Lemma enumerate_from_app {A} (l1 l2 : list A) i :
  enumerate_from i (l1 ++ l2) = enumerate_from i l1 ++ enumerate_from (i + length l1) l2.
Proof.
  revert i. induction l1 as [|x l1 IH]; intros i; simpl.
  - by rewrite Nat.add_0_r.
  - by rewrite IH, Nat.add_succ_r.
Qed.

Lemma mapM_res_ext {A B} (f g : A → res B) l :
  (∀ x, x ∈ l → f x = g x) → mapM f l = mapM g l.
Proof.
  induction l as [|x l IH]; intros H; simpl; [done|].
  rewrite (H x) by (rewrite elem_of_cons; auto).
  rewrite IH; [done|]. intros y Hy. apply H. rewrite elem_of_cons. auto.
Qed.

Lemma mapM_res_app {A B} (f : A → res B) l1 l2 :
  mapM f (l1 ++ l2) = (x ← mapM f l1; y ← mapM f l2; Ok (x ++ y)).
Proof.
  induction l1 as [|x l1 IH]; simpl.
  - by destruct (mapM f l2).
  - destruct (f x); simpl; [|done]. rewrite IH. destruct (mapM f l1); simpl; [|done].
    by destruct (mapM f l2).
Qed.

Lemma filter_none {A} (P : A → Prop) `{!∀ x, Decision (P x)} (l : list A) :
  (∀ x, x ∈ l → ¬ P x) → filter P l = [].
Proof.
  induction l as [|x l IH]; intros Hl; [done|].
  rewrite filter_cons_False by (apply Hl; rewrite elem_of_cons; auto).
  apply IH. intros y Hy. apply Hl. rewrite elem_of_cons. auto.
Qed.

Lemma filter_ext_elem {A} (P Q : A → Prop) `{!∀ x, Decision (P x), !∀ x, Decision (Q x)} (l : list A) :
  (∀ x, x ∈ l → P x ↔ Q x) → filter P l = filter Q l.
Proof.
  induction l as [|x l IH]; intros Hl; [done|].
  assert (filter P l = filter Q l) as E.
  { apply IH. intros y Hy. apply Hl. rewrite elem_of_cons. auto. }
  assert (P x ↔ Q x) by (apply Hl; rewrite elem_of_cons; auto).
  destruct (decide (P x)); [rewrite !filter_cons_True|rewrite !filter_cons_False];
    rewrite ?E; tauto.
Qed.

Lemma sorted_strings_perm l : sorted_strings l ≡ₚ l.
Proof. apply merge_sort_Permutation. Qed.

Lemma elem_of_sorted_strings x l : x ∈ sorted_strings l ↔ x ∈ l.
Proof. by rewrite sorted_strings_perm. Qed.

Lemma elem_of_sorted_set x l : x ∈ sorted_set l ↔ x ∈ l.
Proof. unfold sorted_set. by rewrite elem_of_sorted_strings, elem_of_remove_dups. Qed.

Lemma sorted_strings_sorted l : StronglySorted String.le (sorted_strings l).
Proof. apply StronglySorted_merge_sort; apply _. Qed.
Lemma sorted_strings_ext l m : l ≡ₚ m → sorted_strings l = sorted_strings m.
Proof.
  intros H. apply (StronglySorted_unique String.le); [apply sorted_strings_sorted..|]. by rewrite !sorted_strings_perm.
Qed.
(** A sorted set depends on its elements alone. *)
Lemma sorted_set_ext l m : (∀ x, x ∈ l ↔ x ∈ m) → sorted_set l = sorted_set m.
Proof.
  intros H. apply sorted_strings_ext, NoDup_Permutation; [apply NoDup_remove_dups..|]. intros x. by rewrite !elem_of_remove_dups.
Qed.
Lemma NoDup_sorted_set l : NoDup (sorted_set l).
Proof. unfold sorted_set. rewrite sorted_strings_perm. apply NoDup_remove_dups. Qed.
Lemma sorted_strings_nodup l : NoDup l → sorted_strings l = sorted_set l.
Proof.
  intros H. apply sorted_strings_ext, NoDup_Permutation; [done|apply NoDup_remove_dups|]. intros x. by rewrite elem_of_remove_dups.
Qed.

#[export] Hint Rewrite @enumerate_lookup @elem_of_enumerate elem_of_sorted_strings
  elem_of_sorted_set : foe_rw.
