(* ===== verification/PyValue.v ===== *)
(** * Python values

    The data every modelled module works on: what [json.loads] returns and
    what the modules build from it.  A [str] is its UTF-8 encoding; UTF-8
    keeps code-point order, prefixes and concatenation, and [py_len] counts
    code points.  An [int] is unbounded.  A [float] is an IEEE binary64
    ([SpecFloat] with precision 53 and maximal exponent 1024).  A [dict] with
    string keys is the list of its items in insertion order. *)

From stdpp Require Import base list sets strings pretty sorting.
From Stdlib Require Import ZArith Lia SpecFloat.
From S2P Require Import Prelude.

Inductive value : Type :=
| VNone
| VBool (b : bool)
| VInt (z : Z)
| VFloat (f : spec_float)
| VStr (s : string)
| VList (l : list value)
| VDict (d : list (string * value)).

Abbreviation dict := (list (string * value)).

(** ** Induction over nested values *)

Section value_ind.
Variable P : value → Prop.
Hypothesis HNone : P VNone.
Hypothesis HBool : ∀ b, P (VBool b).
Hypothesis HInt : ∀ z, P (VInt z).
Hypothesis HFloat : ∀ f, P (VFloat f).
Hypothesis HStr : ∀ s, P (VStr s).
Hypothesis HList : ∀ l, Forall P l → P (VList l).
Hypothesis HDict : ∀ d, Forall (λ kv, P kv.2) d → P (VDict d).

Fixpoint value_ind' (v : value) : P v :=
  match v with
  | VNone => HNone
  | VBool b => HBool b
  | VInt z => HInt z
  | VFloat f => HFloat f
  | VStr s => HStr s
  | VList l => HList l
      ((fix go l : Forall P l :=
          match l with
          | [] => Forall_nil_2 _
          | x :: l => Forall_cons_2 _ _ _ (value_ind' x) (go l)
          end) l)
  | VDict d => HDict d
      ((fix go d : Forall (λ kv, P kv.2) d :=
          match d with
          | [] => Forall_nil_2 _
          | kv :: d => Forall_cons_2 _ _ _ (value_ind' kv.2) (go d)
          end) d)
  end.
End value_ind.

(** ** Dictionaries *)

(** [d[k]] where [k in d], else nothing. *)
Fixpoint assoc {A} (d : list (string * A)) (k : string) : option A :=
  match d with
  | [] => None
  | (k', v) :: d => if String.eqb k' k then Some v else assoc d k
  end.

(** [d.get(k)] and [d.get(k, default)]. *)
Definition dget (d : dict) (k : string) : value := default VNone (assoc d k).
Definition dget_or (d : dict) (k : string) (v : value) : value := default v (assoc d k).

(** [k in d]. *)
Definition has_key {A} (d : list (string * A)) (k : string) : bool :=
  match assoc d k with Some _ => true | None => false end.

(** [d[k] = v]: an existing key keeps its place, a new one goes last. *)
Fixpoint dset {A} (d : list (string * A)) (k : string) (v : A) : list (string * A) :=
  match d with
  | [] => [(k, v)]
  | (k', v') :: d => if String.eqb k' k then (k', v) :: d else (k', v') :: dset d k v
  end.

(** [del d[k]], [d.pop(k, None)]. *)
Fixpoint dpop {A} (d : list (string * A)) (k : string) : list (string * A) :=
  match d with
  | [] => []
  | (k', v') :: d => if String.eqb k' k then d else (k', v') :: dpop d k
  end.

(** [{**d, **e}] and [d.update(e)]. *)
Definition dupdate {A} (d e : list (string * A)) : list (string * A) :=
  fold_left (λ d kv, dset d kv.1 kv.2) e d.

Definition keys {A} (d : list (string * A)) : list string := map fst d.

(** [sorted(d.items())]: by key, for a dictionary keys decide. *)
Definition sorted_items {A} (d : list (string * A)) : list (string * A) :=
  merge_sort (λ x y, String.le x.1 y.1) d.

(** ** Kinds: [isinstance] *)

(** [isinstance(v, int)], which accepts [bool]: [True] is 1. *)
Definition as_int (v : value) : option Z :=
  match v with
  | VInt z => Some z
  | VBool b => Some (if b then 1 else 0)%Z
  | _ => None
  end.
Definition as_str (v : value) : option string := match v with VStr s => Some s | _ => None end.
Definition as_list (v : value) : option (list value) := match v with VList l => Some l | _ => None end.
Definition as_dict (v : value) : option dict := match v with VDict d => Some d | _ => None end.
Definition is_int (v : value) : bool := match as_int v with Some _ => true | None => false end.
Definition is_str (v : value) : bool := match v with VStr _ => true | _ => false end.
Definition is_list (v : value) : bool := match v with VList _ => true | _ => false end.
Definition is_dict (v : value) : bool := match v with VDict _ => true | _ => false end.
Definition is_bool (v : value) : bool := match v with VBool _ => true | _ => false end.
Definition is_none (v : value) : bool := match v with VNone => true | _ => false end.

(** [v if isinstance(v, dict) else {}]. *)
Definition dict_or_empty (v : value) : dict := default [] (as_dict v).

Definition type_name (v : value) : string :=
  match v with
  | VNone => "NoneType" | VBool _ => "bool" | VInt _ => "int" | VFloat _ => "float"
  | VStr _ => "str" | VList _ => "list" | VDict _ => "dict"
  end.

(** [bool(v)]. *)
Definition truthy (v : value) : bool :=
  match v with
  | VNone => false
  | VBool b => b
  | VInt z => negb (z =? 0)%Z
  | VFloat (S754_zero _) => false
  | VFloat _ => true
  | VStr s => negb (String.eqb s "")
  | VList l => match l with [] => false | _ => true end
  | VDict d => match d with [] => false | _ => true end
  end.

(** [x or y]. *)
Definition py_or (x y : value) : value := if truthy x then x else y.

(** ** Numbers *)

(** A number is an integer or a float; [True] and [False] are integers. *)
Inductive num := NInt (z : Z) | NFloat (f : spec_float).
Definition as_num (v : value) : option num :=
  match v with
  | VInt z => Some (NInt z)
  | VBool b => Some (NInt (if b then 1 else 0)%Z)
  | VFloat f => Some (NFloat f)
  | _ => None
  end.

(** The comparison of an integer with [m * 2^e], without rounding. *)
Definition cmp_scaled (z m e : Z) : comparison :=
  if (0 <=? e)%Z then Z.compare z (m * 2 ^ e) else Z.compare (z * 2 ^ (- e)) m.

Definition cmp_int_float (z : Z) (f : spec_float) : option comparison :=
  match f with
  | S754_zero _ => Some (Z.compare z 0)
  | S754_infinity s => Some (if s then Gt else Lt)
  | S754_nan => None
  | S754_finite s m e => Some (cmp_scaled z (if s then Z.neg m else Z.pos m) e)
  end.

(** Exact comparison, [None] when one side is not a number. *)
Definition num_compare (x y : num) : option comparison :=
  match x, y with
  | NInt a, NInt b => Some (Z.compare a b)
  | NInt a, NFloat f => cmp_int_float a f
  | NFloat f, NInt b => CompOpp <$> cmp_int_float b f
  | NFloat f, NFloat g => SFcompare f g
  end.
Definition num_eqb (x y : num) : bool :=
  match num_compare x y with Some Eq => true | _ => false end.
Definition num_ltb (x y : num) : bool :=
  match num_compare x y with Some Lt => true | _ => false end.
Definition num_leb (x y : num) : bool :=
  match num_compare x y with Some Lt | Some Eq => true | _ => false end.

Definition is_nan (x : num) : bool :=
  match x with NFloat S754_nan => true | _ => false end.

(** ** Equality *)

(** Equality as a container tests it, identity or [==].  Decoding gives one
    object for every NaN of a document, so NaN equals itself here. *)
Fixpoint item_eq (a b : value) {struct a} : bool :=
  match a, b with
  | VNone, VNone => true
  | VStr s, VStr t => String.eqb s t
  | VList l, VList m =>
      (fix go (l m : list value) : bool :=
         match l, m with
         | [], [] => true
         | x :: l, y :: m => item_eq x y && go l m
         | _, _ => false
         end) l m
  | VDict d, VDict e =>
      Nat.eqb (length d) (length e) &&
      (fix go (d : dict) : bool :=
         match d with
         | [] => true
         | (k, x) :: d =>
             match assoc e k with Some y => item_eq x y | None => false end && go d
         end) d
  | _, _ =>
      match as_num a, as_num b with
      | Some x, Some y => num_eqb x y || (is_nan x && is_nan y)
      | _, _ => false
      end
  end.

(** [a == b]. *)
Definition py_eq (a b : value) : bool :=
  match a, b with
  | VFloat S754_nan, _ | _, VFloat S754_nan => false
  | _, _ => item_eq a b
  end.

(** [v == s] for a string [s], and [v in [s1, ...]]. *)
Definition is_string (s : string) (v : value) : bool :=
  match v with VStr t => String.eqb t s | _ => false end.
Definition elem_str (s : string) (l : list string) : bool := existsb (String.eqb s) l.
(** [set.add], on a set kept as a list in insertion order. *)
Definition set_add (x : string) (l : list string) : list string :=
  if elem_str x l then l else l ++ [x].

(** ** Hashing *)

Definition hashable (v : value) : bool :=
  match v with VList _ | VDict _ => false | _ => true end.
Definition unhashable (v : value) : exn :=
  TypeError ("unhashable type: '" +:+ type_name v +:+ "'").

(** [v in s] for a set or dict keyed by strings. *)
Definition in_set (v : value) (s : list string) : res bool :=
  if hashable v then Ok (match v with VStr t => elem_str t s | _ => false end)
  else Err (unhashable v).

(** A dictionary keyed by arbitrary hashable values, in insertion order. *)
Fixpoint vassoc {A} (d : list (value * A)) (k : value) : option A :=
  match d with
  | [] => None
  | (k', v) :: d => if item_eq k' k then Some v else vassoc d k
  end.
Fixpoint vset {A} (d : list (value * A)) (k : value) (v : A) : list (value * A) :=
  match d with
  | [] => [(k, v)]
  | (k', v') :: d => if item_eq k' k then (k', v) :: d else (k', v') :: vset d k v
  end.
Definition vget {A} (d : list (value * A)) (k : value) : res (option A) :=
  if hashable k then Ok (vassoc d k) else Err (unhashable k).

(** ** Sequences *)

(** [l[i]]: a negative index counts from the end. *)
Definition py_index {A} (l : list A) (i : Z) : res A :=
  let j := if (i <? 0)%Z then (i + Z.of_nat (length l))%Z else i in
  if (j <? 0)%Z then Err (IndexError "list index out of range")
  else match l !! Z.to_nat j with
       | Some x => Ok x
       | None => Err (IndexError "list index out of range")
       end.

(** The number of code points of a string. *)
Fixpoint py_len (s : string) : nat :=
  match s with
  | EmptyString => 0
  | String c s =>
      (if (let n := Ascii.nat_of_ascii c in (128 <=? n) && (n <? 192)) then 0 else 1) + py_len s
  end.

(** ** Well-formed values: the keys of every dictionary are distinct *)

Fixpoint wf_value (v : value) : bool :=
  match v with
  | VList l => forallb wf_value l
  | VDict d =>
      bool_decide (NoDup (map fst d)) &&
      (fix go (d : dict) : bool :=
         match d with [] => true | (_, x) :: d => wf_value x && go d end) d
  | _ => true
  end.

(** ** Lemmas *)

Section dict_lemmas.
Context {A : Type}.
Implicit Types (d : list (string * A)) (k : string) (v : A).

Lemma assoc_dset_eq d k v : assoc (dset d k v) k = Some v.
Proof.
  induction d as [|[k' v'] d IH]; simpl; [by rewrite String.eqb_refl|].
  destruct (String.eqb k' k) eqn:E; simpl; by rewrite E.
Qed.

Lemma assoc_dset_ne d k k' v : k ≠ k' → assoc (dset d k v) k' = assoc d k'.
Proof.
  intros Hne. induction d as [|[k2 v2] d IH]; simpl.
  - by destruct (String.eqb_spec k k').
  - destruct (String.eqb_spec k2 k) as [->|]; simpl; [|by rewrite IH].
    by destruct (String.eqb_spec k k').
Qed.

Lemma assoc_app d1 d2 k :
  assoc (d1 ++ d2) k = match assoc d1 k with Some v => Some v | None => assoc d2 k end.
Proof. induction d1 as [|[k1 v1] d1 IH]; simpl; [done|]. by destruct (String.eqb k1 k). Qed.

Lemma assoc_elem d k v : assoc d k = Some v → (k, v) ∈ d.
Proof.
  induction d as [|[k' v'] d IH]; simpl; [done|].
  destruct (String.eqb_spec k' k) as [->|]; intros H; simplify_eq; rewrite elem_of_cons; auto.
Qed.

Lemma elem_assoc d k v : NoDup (keys d) → (k, v) ∈ d → assoc d k = Some v.
Proof.
  unfold keys. induction d as [|[k' v'] d IH]; simpl; [by intros _ ?%elem_of_nil|].
  intros [Hk Hd]%NoDup_cons [Heq|Hin]%elem_of_cons; simplify_eq.
  - by rewrite String.eqb_refl.
  - destruct (String.eqb_spec k' k) as [->|]; [|by apply IH].
    destruct Hk. apply list_elem_of_fmap. by exists (k, v).
Qed.

Lemma has_key_assoc d k : has_key d k = true ↔ is_Some (assoc d k).
Proof. unfold has_key. destruct (assoc d k); split; eauto; [done|]. by intros []. Qed.

Lemma assoc_none d k : assoc d k = None ↔ k ∉ keys d.
Proof.
  unfold keys. induction d as [|[k' v'] d IH]; simpl; [set_solver|].
  destruct (String.eqb_spec k' k) as [->|]; rewrite elem_of_cons; naive_solver.
Qed.

Lemma has_key_elem d k : has_key d k = true ↔ k ∈ keys d.
Proof.
  rewrite has_key_assoc, <-not_eq_None_Some, assoc_none.
  split; [|tauto]. intros H. by destruct (decide (k ∈ keys d)).
Qed.

Lemma keys_dset_in d k v : k ∈ keys d → keys (dset d k v) = keys d.
Proof.
  unfold keys. induction d as [|[k' v'] d IH]; simpl; [by intros ?%elem_of_nil|].
  destruct (String.eqb_spec k' k) as [->|]; [done|].
  intros [->|]%elem_of_cons; [done|]. simpl. by rewrite IH.
Qed.

Lemma keys_dset_notin d k v : k ∉ keys d → keys (dset d k v) = keys d ++ [k].
Proof.
  unfold keys. induction d as [|[k' v'] d IH]; simpl; [done|].
  rewrite not_elem_of_cons. intros [? ?].
  destruct (String.eqb_spec k' k) as [->|]; [done|]. simpl. by rewrite IH.
Qed.

Lemma dset_notin d k v : k ∉ keys d → dset d k v = d ++ [(k, v)].
Proof.
  unfold keys. induction d as [|[k' v'] d IH]; simpl; [done|].
  rewrite not_elem_of_cons. intros [? ?].
  destruct (String.eqb_spec k' k) as [->|]; [done|]. by rewrite IH.
Qed.

Lemma dset_nodup d k v : NoDup (keys d) → NoDup (keys (dset d k v)).
Proof.
  intros Hd. destruct (decide (k ∈ keys d)).
  - by rewrite keys_dset_in.
  - rewrite keys_dset_notin by done. apply NoDup_app. split_and!; [done| |].
    + set_solver.
    + apply NoDup_singleton.
Qed.

Lemma dset_elem d k v kv : kv ∈ dset d k v → kv = (k, v) ∨ kv ∈ d.
Proof.
  induction d as [|[k' v'] d IH]; simpl; [set_solver|].
  destruct (String.eqb_spec k' k) as [->|]; set_solver.
Qed.

Lemma assoc_dpop_ne d k k' : k ≠ k' → assoc (dpop d k) k' = assoc d k'.
Proof.
  intros Hne. induction d as [|[k2 v2] d IH]; simpl; [done|].
  destruct (String.eqb_spec k2 k) as [->|]; simpl; [|by rewrite IH].
  by destruct (String.eqb_spec k k').
Qed.

Lemma dpop_sub d k kv : kv ∈ dpop d k → kv ∈ d.
Proof.
  induction d as [|[k' v'] d IH]; simpl; [done|].
  destruct (String.eqb k' k); set_solver.
Qed.

Lemma dpop_nodup d k : NoDup (keys d) → NoDup (keys (dpop d k)).
Proof.
  unfold keys. induction d as [|[k' v'] d IH]; simpl; [done|].
  intros [Hk Hd]%NoDup_cons. destruct (String.eqb k' k); [done|].
  simpl. apply NoDup_cons. split; [|by apply IH].
  intros ([k2 v2]&->&Hin)%list_elem_of_fmap. destruct Hk.
  apply list_elem_of_fmap. exists (k2, v2). eauto using dpop_sub.
Qed.

Lemma assoc_dpop_eq d k : NoDup (keys d) → assoc (dpop d k) k = None.
Proof.
  intros Hd. apply assoc_none. revert Hd.
  unfold keys. induction d as [|[k' v'] d IH]; simpl; [set_solver|].
  intros [Hk Hd]%NoDup_cons. destruct (String.eqb_spec k' k) as [->|]; [done|].
  simpl. rewrite not_elem_of_cons. naive_solver.
Qed.

Lemma sorted_items_perm d : sorted_items d ≡ₚ d.
Proof. apply merge_sort_Permutation. Qed.
End dict_lemmas.

Lemma dget_dset_ne d k k' v : k ≠ k' → dget (dset d k v) k' = dget d k'.
Proof. intros H. unfold dget. by rewrite assoc_dset_ne. Qed.
Lemma dget_dset_eq d k v : dget (dset d k v) k = v.
Proof. unfold dget. by rewrite assoc_dset_eq. Qed.

Lemma elem_str_spec s l : elem_str s l = true ↔ s ∈ l.
Proof.
  unfold elem_str. rewrite existsb_exists. split.
  - intros (x & Hx & ->%String.eqb_eq). by apply list_elem_of_In.
  - intros H. exists s. split; [by apply list_elem_of_In|]. apply String.eqb_refl.
Qed.

Lemma elem_str_false s l : elem_str s l = false ↔ s ∉ l.
Proof. rewrite <-elem_str_spec. by destruct (elem_str s l). Qed.

Lemma set_add_fresh x l : x ∉ l → set_add x l = l ++ [x].
Proof. intros H. unfold set_add. by rewrite (proj2 (elem_str_false x l) H). Qed.
Lemma elem_of_set_add x y l : x ∈ set_add y l ↔ x = y ∨ x ∈ l.
Proof.
  unfold set_add. destruct (elem_str y l) eqn:E.
  - apply elem_str_spec in E. naive_solver.
  - rewrite elem_of_app, list_elem_of_singleton. tauto.
Qed.
Lemma NoDup_set_add x l : NoDup l → NoDup (set_add x l).
Proof.
  intros H. unfold set_add. destruct (elem_str x l) eqn:E; [done|].
  apply elem_str_false in E. apply NoDup_app. split_and!; [done| |apply NoDup_singleton].
  intros y Hy ->%list_elem_of_singleton. done.
Qed.

Lemma elem_of_sorted_items {A} (kv : string * A) d : kv ∈ sorted_items d ↔ kv ∈ d.
Proof. unfold sorted_items. by rewrite merge_sort_Permutation. Qed.

Lemma is_string_spec s v : is_string s v = true ↔ v = VStr s.
Proof.
  destruct v; simpl; try (split; congruence).
  rewrite String.eqb_eq. split; congruence.
Qed.

Lemma py_index_nonneg {A} (l : list A) (i : nat) x :
  l !! i = Some x → py_index l (Z.of_nat i) = Ok x.
Proof.
  intros H. unfold py_index.
  destruct (Z.ltb_spec (Z.of_nat i) 0); [lia|].
  destruct (Z.ltb_spec (Z.of_nat i) 0); [lia|].
  by rewrite Nat2Z.id, H.
Qed.

Lemma num_compare_int a b : num_compare (NInt a) (NInt b) = Some (Z.compare a b).
Proof. done. Qed.

Lemma Z_eqb_compare_bool a b :
  match (a ?= b)%Z with Eq => true | _ => false end = (a =? b)%Z.
Proof. by destruct (Z.compare_spec a b), (Z.eqb_spec a b); lia. Qed.

(** An integer equals an integer exactly when the numbers are the same. *)
Lemma item_eq_int a b x : as_int a = Some x → item_eq a (VInt b) = (x =? b)%Z.
Proof.
  destruct a; simpl; intros; simplify_eq; unfold num_eqb; simpl;
    by rewrite orb_false_r, Z_eqb_compare_bool.
Qed.

Lemma py_eq_int a b : py_eq a (VInt b) = true → as_int a = Some b ∨ ∃ f, a = VFloat f.
Proof.
  destruct a as [|c|z|f|s|l|d]; simpl; try done; unfold num_eqb; simpl;
    rewrite ?orb_false_r, ?Z_eqb_compare_bool, ?Z.eqb_eq; [| |eauto]; intros ->; auto.
Qed.

Lemma in_set_ok v s : in_set v s = Ok true ↔ ∃ t, v = VStr t ∧ t ∈ s.
Proof.
  unfold in_set. destruct v as [| | | |t| |]; simpl; try (split; [done|by intros (? & ? & _)]).
  split.
  - intros [= H%elem_str_spec]. eauto.
  - intros (t' & [= <-] & ->%elem_str_spec). done.
Qed.

(** ** Integers compared with other numbers *)

Lemma cmp_scaled_inj a b m e : cmp_scaled a m e = Eq → cmp_scaled b m e = Eq → a = b.
Proof.
  unfold cmp_scaled. destruct (Z.leb_spec 0 e).
  - rewrite !Z.compare_eq_iff. lia.
  - rewrite !Z.compare_eq_iff. intros <- H2.
    apply Z.mul_reg_r in H2; [done|]. apply Z.pow_nonzero; lia.
Qed.

Lemma num_eqb_int_inj a b n : num_eqb (NInt a) n = true → num_eqb (NInt b) n = true → a = b.
Proof.
  unfold num_eqb. destruct n as [c|f]; simpl.
  - rewrite !Z_eqb_compare_bool, !Z.eqb_eq. congruence.
  - destruct f as [s|s| |s m e]; simpl; try done; try (by destruct s).
    + rewrite !Z_eqb_compare_bool, !Z.eqb_eq. congruence.
    + destruct (cmp_scaled a _ e) eqn:Ea; try done. destruct (cmp_scaled b _ e) eqn:Eb; try done.
      intros _ _. by eapply cmp_scaled_inj.
Qed.

Lemma item_eq_VInt_inj a b v : item_eq (VInt a) v = true → item_eq (VInt b) v = true → a = b.
Proof.
  destruct v; simpl; try done; rewrite ?orb_false_r; apply num_eqb_int_inj.
Qed.

Lemma as_int_item_eq v z w : as_int v = Some z → item_eq v w = item_eq (VInt z) w.
Proof. destruct v; simpl; intros; simplify_eq; by destruct w. Qed.

Lemma py_eq_as_int v z w : as_int v = Some z → py_eq v w = true → item_eq (VInt z) w = true.
Proof.
  intros Hv H. rewrite <-(as_int_item_eq v) by done.
  unfold py_eq in H. destruct v; simpl in Hv; try done; by destruct w as [| | |[]| | |].
Qed.

Lemma item_eq_number z w : item_eq (VInt z) w = true →
  ∃ n, as_num w = Some n ∧ num_eqb (NInt z) n = true.
Proof.
  destruct w; simpl; try done; rewrite ?orb_false_r; eauto.
Qed.

Lemma num_eqb_NInt_sym z n : num_eqb n (NInt z) = num_eqb (NInt z) n.
Proof.
  unfold num_eqb. destruct n as [a|f]; simpl.
  - rewrite !Z_eqb_compare_bool. apply Z.eqb_sym.
  - by destruct (cmp_int_float z f) as [[]|].
Qed.

(** A value equal to an integer is equal to another one only if they agree. *)
Lemma py_eq_int_r v z : py_eq v (VInt z) = true →
  ∃ n, as_num v = Some n ∧ num_eqb (NInt z) n = true.
Proof.
  intros H. assert (item_eq v (VInt z) = true) as Hi by (destruct v as [| | |[]| | |]; done).
  destruct v as [|b|y|f|s|l|d]; simpl in Hi; try done; rewrite ?orb_false_r in Hi;
    eexists; (split; [reflexivity|]); rewrite <-num_eqb_NInt_sym; try done.
  apply orb_true_iff in Hi as [Hi|Hi]; [done|]. by rewrite andb_false_r in Hi.
Qed.

(** Two integers equal to one value are equal. *)
Lemma py_eq_int_link x v a z :
  as_int x = Some a → py_eq x v = true → py_eq v (VInt z) = true → a = z.
Proof.
  intros Hx Hxv%(py_eq_as_int _ _ _ Hx) (n & Hn & Hz)%py_eq_int_r.
  apply item_eq_number in Hxv as (n' & Hn' & Ha). simplify_eq. by eapply num_eqb_int_inj.
Qed.
