(* ===== verification/PyText.v ===== *)
(** * Text of Python values

    [str], [repr], [int] and the split and slice operations the modelled code
    uses.  [float_repr] computes the shortest decimal that rounds to the
    binary64 value, the nearest one when several have that length, as CPython
    does.  Non-ASCII characters are kept as they are in a [repr]; CPython
    escapes the unprintable ones among them. *)

From Stdlib Require Import Ascii.
From stdpp Require Import base list strings pretty sorting.
From Stdlib Require Import ZArith Lia SpecFloat.
From S2P Require Import Prelude PyValue.

Definition Z_str (z : Z) : string := pretty z.
Definition nat_str (n : nat) : string := pretty n.

(** ** [float.__repr__] *)

(** [n / d < 10 ^ k] for positive [n], [d]. *)
Definition below_pow10 (n d k : Z) : bool :=
  if (0 <=? k)%Z then (n <? d * 10 ^ k)%Z else (n * 10 ^ (- k) <? d)%Z.

(** The least [k] near an estimate with [n / d < 10 ^ k]. *)
Fixpoint decimal_point (fuel : nat) (n d k : Z) : Z :=
  match fuel with
  | O => k
  | S fuel =>
      if below_pow10 n d k
      then if below_pow10 n d (k - 1) then decimal_point fuel n d (k - 1) else k
      else decimal_point fuel n d (k + 1)
  end.

(** Whether [c * 10 ^ p] rounds to the float [m * 2 ^ e]: it lies between the
    midpoints to the neighbours, which belong to the float with even [m].
    Below a power of two the neighbour is half as far. *)
Definition rounds_to (m e c p : Z) : bool :=
  let q := (e - 2)%Z in
  let lo := (4 * m - (if (m =? 2 ^ 52) && (-1074 <? e) then 1 else 2))%Z in
  let hi := (4 * m + 2)%Z in
  let scale2 x := (if 0 <=? q then x * 2 ^ q else x)%Z in
  let c' := (c * (if 0 <=? p then 10 ^ p else 1) * (if 0 <=? q then 1 else 2 ^ (- q)))%Z in
  let up x := (scale2 x * (if 0 <=? p then 1 else 10 ^ (- p)))%Z in
  if Z.even m then (up lo <=? c')%Z && (c' <=? up hi)%Z
  else (up lo <? c')%Z && (c' <? up hi)%Z.

(** The digits of [m * 2 ^ e] at length [n], of [n / d] with point [k]. *)
Definition digits_at (m e num den k : Z) (n : nat) : option Z :=
  let p := (k - Z.of_nat n)%Z in
  let '(a, b) := if (0 <=? p)%Z then (num, den * 10 ^ p)%Z else (num * 10 ^ (- p), den)%Z in
  let c := (a / b)%Z in
  let r := (a mod b)%Z in
  match rounds_to m e c p, rounds_to m e (c + 1) p with
  | true, true =>
      Some (match Z.compare (2 * r) b with
            | Lt => c | Gt => (c + 1)%Z | Eq => if Z.even c then c else (c + 1)%Z end)
  | true, false => Some c
  | false, true => Some (c + 1)%Z
  | false, false => None
  end.

Fixpoint shortest (fuel n : nat) (m e num den k : Z) : Z * nat :=
  match digits_at m e num den k n, fuel with
  | Some c, _ => (c, n)
  | None, O => (0%Z, n)
  | None, S fuel => shortest fuel (S n) m e num den k
  end.

Fixpoint zeros (n : nat) : string :=
  match n with O => "" | S n => String "0"%char (zeros n) end.

Definition exponent_str (x : Z) : string :=
  let a := Z_str (Z.abs x) in
  (if (x <? 0)%Z then "-" else "+") +:+ (if (Z.abs x <? 10)%Z then "0" else "") +:+ a.

(** Digits [ds] with the point after [k] of them, as [repr] lays them out. *)
Definition layout (ds : string) (k : Z) : string :=
  let n := Z.of_nat (String.length ds) in
  if ((-4 <? k) && (k <=? 16))%Z then
    if (k <=? 0)%Z then "0." +:+ zeros (Z.to_nat (- k)) +:+ ds
    else if (n <=? k)%Z then ds +:+ zeros (Z.to_nat (k - n)) +:+ ".0"
    else str_take (Z.to_nat k) ds +:+ "." +:+ str_drop (Z.to_nat k) ds
  else
    str_take 1 ds +:+ (if (1 <? n)%Z then "." +:+ str_drop 1 ds else "")
      +:+ "e" +:+ exponent_str (k - 1).

Definition float_repr (f : spec_float) : string :=
  match f with
  | S754_nan => "nan"
  | S754_infinity s => if s then "-inf" else "inf"
  | S754_zero s => if s then "-0.0" else "0.0"
  | S754_finite s mp e =>
      let m := Z.pos mp in
      let '(num, den) := if (0 <=? e)%Z then (m * 2 ^ e, 1)%Z else (m, 2 ^ (- e))%Z in
      let k := decimal_point 8 num den ((Z.log2 num - Z.log2 den) * 30103 / 100000 + 1) in
      let '(c, n) := shortest 17 1 m e num den k in
      (* ten to the [n] has one digit more and moves the point *)
      let '(c, k) := if (c =? 10 ^ Z.of_nat n)%Z then (1%Z, (k + 1)%Z) else (c, k) in
      (if s then "-" else "") +:+ layout (Z_str c) k
  end.

(** ** [str.__repr__] *)

Definition hex_digit (n : nat) : Ascii.ascii :=
  Ascii.ascii_of_nat (if n <? 10 then 48 + n else 87 + n).

Definition repr_char (quote c : Ascii.ascii) : string :=
  let n := Ascii.nat_of_ascii c in
  let esc c := String "\"%char (String c "") in
  if Ascii.eqb c quote || Ascii.eqb c "\"%char then esc c
  else if n =? 9 then esc "t"%char
  else if n =? 10 then esc "n"%char
  else if n =? 13 then esc "r"%char
  else if (n <? 32) || (n =? 127) then
    "\x" +:+ String (hex_digit (n / 16)) (String (hex_digit (n mod 16)) "")
  else String c "".

Fixpoint concat_map_string (f : Ascii.ascii → string) (s : string) : string :=
  match s with EmptyString => "" | String c s => f c +:+ concat_map_string f s end.

Fixpoint has_char (c : Ascii.ascii) (s : string) : bool :=
  match s with EmptyString => false | String d s => Ascii.eqb c d || has_char c s end.

Definition dquote : Ascii.ascii := Ascii.ascii_of_nat 34.
Definition str_repr (s : string) : string :=
  let quote := if has_char "'"%char s && negb (has_char dquote s) then dquote else "'"%char in
  String quote (concat_map_string (repr_char quote) s) +:+ String quote "".

(** ** [repr] and [str] of a value *)

Fixpoint py_repr (v : value) : string :=
  match v with
  | VNone => "None"
  | VBool b => if b then "True" else "False"
  | VInt z => Z_str z
  | VFloat f => float_repr f
  | VStr s => str_repr s
  | VList l =>
      "[" +:+ join ", " ((fix go l := match l with [] => [] | x :: l => py_repr x :: go l end) l)
      +:+ "]"
  | VDict d =>
      "{" +:+ join ", "
        ((fix go (d : dict) :=
            match d with [] => [] | (k, x) :: d => (str_repr k +:+ ": " +:+ py_repr x) :: go d end) d)
      +:+ "}"
  end.

Definition py_str (v : value) : string :=
  match v with VStr s => s | _ => py_repr v end.

(** ** [int] *)

Definition is_space (c : Ascii.ascii) : bool :=
  let n := Ascii.nat_of_ascii c in ((9 <=? n) && (n <=? 13)) || ((28 <=? n) && (n <=? 32)).
Fixpoint lstrip (s : string) : string :=
  match s with String c s' => if is_space c then lstrip s' else s | _ => s end.
Fixpoint str_rev_append (s acc : string) : string :=
  match s with EmptyString => acc | String c s => str_rev_append s (String c acc) end.
Definition str_rev (s : string) : string := str_rev_append s "".
Definition strip (s : string) : string := str_rev (lstrip (str_rev (lstrip s))).

Definition digit_of (c : Ascii.ascii) : option Z :=
  let n := Ascii.nat_of_ascii c in
  if (48 <=? n) && (n <=? 57) then Some (Z.of_nat n - 48)%Z else None.

(** Decimal digits, single underscores between them. *)
Fixpoint digits_value (acc : Z) (prev_digit : bool) (s : string) : option Z :=
  match s with
  | EmptyString => if prev_digit then Some acc else None
  | String c s =>
      match digit_of c with
      | Some d => digits_value (10 * acc + d) true s
      | None => if Ascii.eqb c "_"%char && prev_digit then digits_value acc false s else None
      end
  end.

Definition int_of_str (s : string) : option Z :=
  match strip s with
  | String "-"%char s => Z.opp <$> digits_value 0 false s
  | String "+"%char s => digits_value 0 false s
  | s => digits_value 0 false s
  end.

(** [int(v)]. *)
Definition py_int (v : value) : res Z :=
  match v with
  | VInt z => Ok z
  | VBool b => Ok (if b then 1 else 0)%Z
  | VFloat f =>
      match f with
      | S754_zero _ => Ok 0%Z
      | S754_finite s m e =>
          let a := (if 0 <=? e then Z.pos m * 2 ^ e else Z.pos m / 2 ^ (- e))%Z in
          Ok (if s then (- a)%Z else a)
      | S754_nan => Err (ValueError "cannot convert float NaN to integer")
      | S754_infinity _ => Err (OverflowError "cannot convert float infinity to integer")
      end
  | VStr s =>
      match int_of_str s with
      | Some z => Ok z
      | None => Err (ValueError ("invalid literal for int() with base 10: " +:+ str_repr s))
      end
  | _ => Err (TypeError ("int() argument must be a string, a bytes-like object or a real number, not '"
                           +:+ type_name v +:+ "'"))
  end.

(** [v + 1]. *)
Definition py_succ (v : value) : res value :=
  match v with
  | VInt z => Ok (VInt (z + 1))
  | VBool b => Ok (VInt (if b then 2 else 1))
  | VFloat f => Ok (VFloat (SFadd 53 1024 f (S754_finite false 4503599627370496 (-52))))
  | VStr _ => Err (TypeError "can only concatenate str (not 'int') to str")
  | VList _ => Err (TypeError "can only concatenate list (not 'int') to list")
  | _ => Err (TypeError ("unsupported operand type(s) for +: '" +:+ type_name v +:+ "' and 'int'"))
  end.

(** [x < y], [x > y] and [x <= y] where one side is an [int]: a TypeError
    unless both are numbers. *)
Definition py_compare (test : num → num → bool) (op : string) (x y : value) : res bool :=
  match as_num x, as_num y with
  | Some a, Some b => Ok (test a b)
  | _, _ => Err (TypeError ("'" +:+ op +:+ "' not supported between instances of '"
                              +:+ type_name x +:+ "' and '" +:+ type_name y +:+ "'"))
  end.
Definition py_lt : value → value → res bool := py_compare num_ltb "<".
Definition py_gt : value → value → res bool := py_compare (λ a b, num_ltb b a) ">".

(** ** [str.split] on a one-character separator *)

Fixpoint split_on (c : Ascii.ascii) (s : string) : list string :=
  match s with
  | EmptyString => [""]
  | String d s =>
      if Ascii.eqb d c then "" :: split_on c s
      else match split_on c s with
           | [] => [String d ""]
           | w :: ws => String d w :: ws
           end
  end.

(** [s.endswith(p)]. *)
Definition ends_with (p s : string) : bool := String.prefix (str_rev p) (str_rev s).

(** The one-character strings of a string: a byte 10xxxxxx continues the
    character before it. *)
Definition continues (c : ascii) : bool :=
  let n := nat_of_ascii c in (128 <=? n) && (n <? 192).
Fixpoint utf8_chars (s : string) : list string :=
  match s with
  | EmptyString => []
  | String c s =>
      match utf8_chars s with
      | String d w :: ws =>
          if continues d then String c (String d w) :: ws else String c "" :: String d w :: ws
      | ws => String c "" :: ws
      end
  end.

(** [w in s], of two texts. *)
Fixpoint occurs (w s : string) : bool :=
  starts_with w s || match s with String _ s => occurs w s | EmptyString => false end.

(** ** Iterating an arbitrary value: [for x in v] *)

Definition py_iter (v : value) : res (list value) :=
  match v with
  | VList l => Ok l
  | VDict d => Ok (map (λ kv, VStr kv.1) d)
  | VStr s => Ok (map VStr (utf8_chars s))
  | _ => Err (TypeError ("'" +:+ type_name v +:+ "' object is not iterable"))
  end.

(** ** [sorted(set(values))] *)

Definition num_le (x y : value) : Prop :=
  match as_num x, as_num y with Some a, Some b => num_leb a b = true | _, _ => False end.
#[export] Instance num_le_dec x y : Decision (num_le x y).
Proof. unfold num_le. destruct (as_num x), (as_num y); apply _. Defined.

(** [set(values)], the first of equal elements kept. *)
Definition set_of (l : list value) : list value :=
  fold_left (λ acc v, if existsb (item_eq v) acc then acc else acc ++ [v]) l [].

(** Sorting needs the elements to be comparable, unless there is at most one. *)
Definition sorted_unique (l : list value) : res (list value) :=
  match find (λ v, negb (hashable v)) l with
  | Some v => Err (unhashable v)
  | None =>
      match set_of l with
      | [] => Ok []
      | [v] => Ok [v]
      | u => if forallb is_str u then Ok (map VStr (sorted_set (omap as_str u)))
             else if forallb (λ v, match as_num v with Some _ => true | None => false end) u
             then Ok (merge_sort num_le u)
             else Err (TypeError "'<' not supported between instances of these types")
      end
  end.

(** [v if isinstance(v, list) else []]. *)
Definition list_or_empty (v : value) : list value := default [] (as_list v).

(** [(v or {}).items()] and the like: only a dictionary has items. *)
Definition py_items (v : value) : res dict :=
  match v with
  | VDict d => Ok d
  | _ => Err (AttributeError ("'" +:+ type_name v +:+ "' object has no attribute 'items'"))
  end.

(** [v.get]: only an object has it. *)
Definition as_mapping (v : value) : res dict :=
  match v with
  | VDict d => Ok d
  | _ => Err (AttributeError ("'" +:+ type_name v +:+ "' object has no attribute 'get'"))
  end.

(** [d[k]]. *)
Definition dict_index (d : dict) (k : string) : res value :=
  match assoc d k with Some v => Ok v | None => Err (KeyError k) end.

(** [v.get(k, d)]. *)
Definition get_or (v : value) (k : string) (d : value) : res value :=
  match v with
  | VDict m => Ok (dget_or m k d)
  | v => Err (AttributeError ("'" +:+ type_name v +:+ "' object has no attribute 'get'"))
  end.
Definition get (v : value) (k : string) : res value := get_or v k VNone.
(** [v[k]] for a string [k]. *)
Definition item (v : value) (k : string) : res value :=
  match v with
  | VDict m => dict_index m k
  | VList _ => Err (TypeError "list indices must be integers or slices, not str")
  | VStr _ => Err (TypeError "string indices must be integers, not 'str'")
  | v => Err (TypeError ("'" +:+ type_name v +:+ "' object is not subscriptable"))
  end.

(** [s.join(l)] on values: every one must be a string. *)
Definition py_join (sep : string) (l : list value) : res string :=
  match find (λ iv, negb (is_str iv.2)) (enumerate l) with
  | Some (i, v) => Err (TypeError ("sequence item " +:+ nat_str i +:+ ": expected str instance, "
                                     +:+ type_name v +:+ " found"))
  | None => Ok (join sep (omap as_str l))
  end.

(** One element of [dict(v)]: a pair.  Nothing reads a key that is not a
    string, so such a key is left out. *)
Definition dict_element (d : dict) (iv : nat * value) : res dict :=
  let '(i, v) := iv in
  match py_iter v with
  | Ok [VStr k; x] => Ok (dset d k x)
  | Ok [k; x] => if hashable k then Ok d else Err (unhashable k)
  | Ok l => Err (ValueError ("dictionary update sequence element #" +:+ nat_str i +:+ " has length "
                               +:+ nat_str (length l) +:+ "; 2 is required"))
  | Err _ => Err (TypeError ("cannot convert dictionary update sequence element #" +:+ nat_str i
                               +:+ " to a sequence"))
  end.
(** [dict(v)]. *)
Definition py_dict (v : value) : res dict :=
  match v with
  | VDict d => Ok d
  | _ => l ← py_iter v; foldM dict_element [] (enumerate l)
  end.

(** ** Lemmas *)

Lemma str_rev_append_app s acc : str_rev_append s acc = str_rev s +:+ acc.
Proof.
  unfold str_rev. revert acc. induction s as [|c s IH]; intros acc; simpl; [done|].
  rewrite IH, (IH (String c "")), str_app_assoc. done.
Qed.

Lemma sorted_set_nil l : sorted_set l = [] → l = [].
Proof.
  intros H. destruct l as [|x l]; [done|]. assert (x ∈ sorted_set (x :: l)) as Hx
    by (apply elem_of_sorted_set; left).
  rewrite H in Hx. by apply elem_of_nil in Hx.
Qed.

Lemma set_of_nil l : set_of l = [] → l = [].
Proof.
  unfold set_of. destruct l as [|v l]; [done|]. simpl.
  assert (∀ acc, acc ≠ [] → fold_left (λ acc v, if existsb (item_eq v) acc then acc else acc ++ [v]) l acc ≠ [])
    as H.
  { induction l as [|x l IH]; intros acc Ha; simpl; [done|]. apply IH. destruct (existsb _ acc); [done|].
    by destruct acc. }
  intros Hn. by destruct (H [v]).
Qed.

Lemma sorted_unique_nil l : sorted_unique l = Ok [] → l = [].
Proof.
  unfold sorted_unique. destruct (find _ l); [done|].
  destruct (set_of l) as [|v [|w u]] eqn:E; [intros _; by apply set_of_nil|done|].
  destruct (forallb is_str (v :: w :: u)) eqn:Es.
  - intros [= H%map_eq_nil]. exfalso. simpl in Es. destruct v; try done.
    apply sorted_set_nil in H. simpl in H. discriminate H.
  - intros H. match type of H with (if ?b then _ else _) = _ => destruct b end; [|discriminate H].
    injection H as H.
    pose proof (merge_sort_Permutation num_le (v :: w :: u)) as Hp. rewrite H in Hp.
    by apply Permutation_nil_cons in Hp.
Qed.
