(* ===== verification/PyJson.v ===== *)
(** * JSON, UTF-8 and SHA-256

    [json.loads], [json.dumps(..., ensure_ascii=False)], [bytes.decode] and
    [hashlib.sha256] as the modelled code calls them.  The decoder follows the
    C scanner of CPython 3.12: the same values (the last of two equal keys
    wins, numbers with a fraction or exponent are floats, [NaN] and
    [Infinity] are constants) and the same error texts and positions. *)

From Stdlib Require Import Ascii.
From stdpp Require Import base list strings pretty.
From Stdlib Require Import ZArith Lia SpecFloat.
From S2P Require Import Prelude PyValue PyText.

(** ** UTF-8 *)

Definition byte_in (lo hi : nat) (c : ascii) : bool :=
  let n := nat_of_ascii c in (lo <=? n) && (n <=? hi).

(** What the bytes after a lead byte may be: the range of the second one and
    how many follow.  [pass] admits encoded surrogates
    ([errors="surrogatepass"]). *)
Definition utf8_lead (pass : bool) (a : ascii) : option (nat * nat * nat) :=
  if byte_in 0 127 a then Some (0, 0, 0)
  else if byte_in 194 223 a then Some (128, 191, 1)
  else if byte_in 224 224 a then Some (160, 191, 2)
  else if byte_in 237 237 a && negb pass then Some (128, 159, 2)
  else if byte_in 225 239 a then Some (128, 191, 2)
  else if byte_in 240 240 a then Some (144, 191, 3)
  else if byte_in 241 243 a then Some (128, 191, 3)
  else if byte_in 244 244 a then Some (128, 143, 3)
  else None.

(** How many of the [n] continuation bytes are there, and whether the text
    ends before one is missing. *)
Fixpoint utf8_follow (lo hi n : nat) (s : string) : nat * bool :=
  match n, s with
  | O, _ => (0, true)
  | S _, EmptyString => (0, true)
  | S n, String b s =>
      if byte_in lo hi b then let '(k, e) := utf8_follow 128 191 n s in (S k, e) else (0, false)
  end.

(** The first fault: its position, its length, its byte and the reason. *)
Fixpoint utf8_scan (pass : bool) (fuel pos : nat) (s : string)
    : option (nat * nat * ascii * string) :=
  match fuel, s with
  | S fuel, String a r =>
      match utf8_lead pass a with
      | None => Some (pos, 1, a, "invalid start byte")
      | Some (lo, hi, n) =>
          let '(k, at_end) := utf8_follow lo hi n r in
          if k =? n then utf8_scan pass fuel (pos + S n) (str_drop n r)
          else Some (pos, S k, a, if at_end then "unexpected end of data"
                                  else "invalid continuation byte")
      end
  | _, _ => None
  end.
Definition utf8_fault (pass : bool) (s : string) : option (nat * nat * ascii * string) :=
  utf8_scan pass (String.length s) 0 s.
Definition utf8_valid (pass : bool) (s : string) : bool :=
  match utf8_fault pass s with None => true | Some _ => false end.

(** [str(UnicodeDecodeError)]. *)
Definition decode_fault_str (f : nat * nat * ascii * string) : string :=
  let '(pos, n, a, reason) := f in
  let x := nat_of_ascii a in
  "'utf-8' codec can't decode " +:+
  (if n =? 1 then "byte 0x" +:+ String (hex_digit (x / 16)) (String (hex_digit (x mod 16)) "")
                    +:+ " in position " +:+ nat_str pos
   else "bytes in position " +:+ nat_str pos +:+ "-" +:+ nat_str (pos + n - 1))
  +:+ ": " +:+ reason.

Definition byte (n : N) : ascii := ascii_of_N n.

(** The UTF-8 encoding of a code point. *)
Definition utf8_encode (n : N) : string :=
  (if n <? 128 then String (byte n) ""
   else if n <? 2048 then
     String (byte (192 + n / 64)) (String (byte (128 + n mod 64)) "")
   else if n <? 65536 then
     String (byte (224 + n / 4096)) (String (byte (128 + (n / 64) mod 64))
       (String (byte (128 + n mod 64)) ""))
   else
     String (byte (240 + n / 262144)) (String (byte (128 + (n / 4096) mod 64))
       (String (byte (128 + (n / 64) mod 64)) (String (byte (128 + n mod 64)) ""))))%N.

(** ** Decoding *)

(** A failure: a text with the suffix of the document it points at, or what
    [parse_constant] raised. *)
Inductive scan_error := At (msg rest : string) | Raised (msg : string).
Definition scan (A : Type) : Type := sum (A * string) scan_error.
Definition fail_at {A} (msg rest : string) : scan A := inr (At msg rest).

Definition is_ws (c : ascii) : bool :=
  existsb (Nat.eqb (nat_of_ascii c)) [32; 9; 10; 13]%nat.
Fixpoint skip_ws (s : string) : string :=
  match s with String c s' => if is_ws c then skip_ws s' else s | _ => s end.

Definition hex_value (c : ascii) : option N :=
  let n := N_of_ascii c in
  (if (48 <=? n) && (n <=? 57) then Some (n - 48)
   else if (97 <=? n) && (n <=? 102) then Some (n - 87)
   else if (65 <=? n) && (n <=? 70) then Some (n - 55)
   else None)%N.

Definition hex4 (s : string) : option N :=
  match s with
  | String a (String b (String c (String d _))) =>
      a ← hex_value a; b ← hex_value b; c ← hex_value c; d ← hex_value d;
      Some (((a * 16 + b) * 16 + c) * 16 + d)%N
  | _ => None
  end.

Definition simple_escape (c : ascii) : option ascii :=
  match nat_of_ascii c with
  | 34 => Some c | 92 => Some c | 47 => Some c
  | 98 => Some (byte 8) | 102 => Some (byte 12) | 110 => Some (byte 10)
  | 114 => Some (byte 13) | 116 => Some (byte 9)
  | _ => None
  end%nat.

Definition in_range (lo hi n : N) : bool := ((lo <=? n) && (n <=? hi))%N.

(** The body of a string literal whose opening quote starts [begin]. *)
Fixpoint scan_string (fuel : nat) (begin : string) (acc : string) (s : string) : scan string :=
  let unterminated := fail_at "Unterminated string starting at" begin in
  match fuel, s with
  | S fuel, String c s' =>
      if Ascii.eqb c dquote then inl (str_rev acc, s')
      else if Ascii.eqb c "\"%char then
        match s' with
        | EmptyString => unterminated
        | String "u"%char s'' =>
            (* four digits and at least one character after them *)
            match hex4 s'', Nat.ltb 4 (String.length s'') with
            | Some c1, true =>
                let rest := str_drop 4 s'' in
                let single := scan_string fuel begin (str_rev_append (utf8_encode c1) acc) rest in
                match rest with
                | String "\"%char (String "u"%char rest') =>
                    if in_range 55296 56319 c1 && Nat.ltb 4 (String.length rest') then
                      match hex4 rest' with
                      | None => fail_at "Invalid \uXXXX escape" (str_drop 1 rest)
                      | Some c2 =>
                          if in_range 56320 57343 c2 then
                            scan_string fuel begin
                              (str_rev_append (utf8_encode (65536 + (c1 - 55296) * 1024 + (c2 - 56320))) acc)
                              (str_drop 4 rest')
                          else single
                      end
                    else single
                | _ => single
                end
            | _, _ => fail_at "Invalid \uXXXX escape" s'
            end
        | String e s'' =>
            match simple_escape e with
            | Some c => scan_string fuel begin (String c acc) s''
            | None => fail_at "Invalid \escape" s
            end
        end
      else if byte_in 0 31 c then fail_at "Invalid control character at" s
      else scan_string fuel begin (String c acc) s'
  | _, _ => unterminated
  end.

(** The leading decimal digits: their value, their number and what follows. *)
Fixpoint scan_digits (acc : Z) (n : nat) (s : string) : Z * nat * string :=
  match s with
  | String c s' =>
      match digit_of c with
      | Some d => scan_digits (10 * acc + d) (S n) s'
      | None => (acc, n, s)
      end
  | _ => (acc, n, s)
  end.

(** The binary64 nearest to [m * 10 ^ e]. *)
Definition decimal_to_float (neg : bool) (m e : Z) : spec_float :=
  match m with
  | Z.pos p =>
      if (0 <=? e)%Z then
        let f := binary_normalize 53 1024 (m * 10 ^ e) 0 false in
        if neg then SFopp f else f
      else
        let '(q, x, l) := SFdiv_core_binary 53 1024 m 0 (10 ^ (- e)) 0 in
        binary_round_aux 53 1024 neg q x l
  | _ => S754_zero neg
  end.

Definition scan_number (s : string) : scan value :=
  let '(neg, s1) := match s with String "-"%char s1 => (true, s1) | _ => (false, s) end in
  let '(m, n, s2) := scan_digits 0 0 s1 in
  let leading_zero := match s1 with String "0"%char _ => true | _ => false end in
  if Nat.eqb n 0 then fail_at "Expecting value" s
  else
    let '(m, s2) := if leading_zero then (0%Z, str_drop 1 s1) else (m, s2) in
    let '(m1, frac, s3) :=
      match s2 with
      | String "."%char r =>
          let '(m', k, r') := scan_digits m 0 r in if Nat.eqb k 0 then (m, O, s2) else (m', k, r')
      | _ => (m, O, s2)
      end in
    let exponent (r : string) : option (Z * string) :=
      let '(eneg, r1) := match r with
                         | String "-"%char r1 => (true, r1)
                         | String "+"%char r1 => (false, r1)
                         | _ => (false, r) end in
      let '(x, k, r2) := scan_digits 0 0 r1 in
      if Nat.eqb k 0 then None else Some ((if eneg then - x else x)%Z, r2) in
    let exp := match s3 with
               | String "e"%char r | String "E"%char r => exponent r
               | _ => None end in
    match exp, frac with
    | None, O => inl (VInt (if neg then - m else m), s3)
    | None, _ => inl (VFloat (decimal_to_float neg m1 (- Z.of_nat frac)), s3)
    | Some (x, s4), _ => inl (VFloat (decimal_to_float neg m1 (x - Z.of_nat frac)), s4)
    end.

Section decoder.
(** [parse_constant]: what [NaN], [Infinity] and [-Infinity] become. *)
Variable constant : string → spec_float → sum value string.

Definition scan_constant (name : string) (f : spec_float) (s : string) : scan value :=
  match constant name f with
  | inl v => inl (v, str_drop (String.length name) s)
  | inr msg => inr (Raised msg)
  end.

(** [scan_once] and the loops of arrays and objects; [fuel] bounds nesting
    plus length, so the length of the document is enough. *)
Fixpoint scan_once (fuel : nat) (s : string) : scan value :=
  match fuel with
  | O => fail_at "Expecting value" s
  | S fuel =>
      match s with
      | EmptyString => fail_at "Expecting value" s
      | String c r =>
          if Ascii.eqb c dquote then
            match scan_string (S (String.length r)) s "" r with
            | inl (t, r) => inl (VStr t, r)
            | inr e => inr e
            end
          else if Ascii.eqb c "{"%char then
            match skip_ws r with
            | String "}"%char r => inl (VDict [], r)
            | r => scan_members fuel [] r
            end
          else if Ascii.eqb c "["%char then
            match skip_ws r with
            | String "]"%char r => inl (VList [], r)
            | r => scan_items fuel [] r
            end
          else if String.prefix "null" s then inl (VNone, str_drop 4 s)
          else if String.prefix "true" s then inl (VBool true, str_drop 4 s)
          else if String.prefix "false" s then inl (VBool false, str_drop 5 s)
          else if String.prefix "NaN" s then scan_constant "NaN" S754_nan s
          else if String.prefix "Infinity" s then
            scan_constant "Infinity" (S754_infinity false) s
          else if String.prefix "-Infinity" s then
            scan_constant "-Infinity" (S754_infinity true) s
          else scan_number s
      end
  end
with scan_items (fuel : nat) (acc : list value) (s : string) : scan value :=
  match fuel with
  | O => fail_at "Expecting value" s
  | S fuel =>
      match scan_once fuel s with
      | inr e => inr e
      | inl (v, r) =>
          match skip_ws r with
          | String "]"%char r => inl (VList (rev (v :: acc)), r)
          | String ","%char r => scan_items fuel (v :: acc) (skip_ws r)
          | r => fail_at "Expecting ',' delimiter" r
          end
      end
  end
with scan_members (fuel : nat) (acc : dict) (s : string) : scan value :=
  match fuel with
  | O => fail_at "Expecting value" s
  | S fuel =>
      match s with
      | String c r =>
          if Ascii.eqb c dquote then
            match scan_string (S (String.length r)) s "" r with
            | inr e => inr e
            | inl (k, r) =>
                match skip_ws r with
                | String ":"%char r =>
                    match scan_once fuel (skip_ws r) with
                    | inr e => inr e
                    | inl (v, r) =>
                        match skip_ws r with
                        | String "}"%char r => inl (VDict (dset acc k v), r)
                        | String ","%char r => scan_members fuel (dset acc k v) (skip_ws r)
                        | r => fail_at "Expecting ',' delimiter" r
                        end
                    end
                | r => fail_at "Expecting ':' delimiter" r
                end
            end
          else fail_at "Expecting property name enclosed in double quotes" s
      | _ => fail_at "Expecting property name enclosed in double quotes" s
      end
  end.

(** [json.loads] on decoded text: the value, or the message and the place. *)
Definition loads_text (s : string) : sum value scan_error :=
  match scan_once (S (2 * String.length s)) (skip_ws s) with
  | inr e => inr e
  | inl (v, r) =>
      match skip_ws r with
      | EmptyString => inl v
      | r => inr (At "Extra data" r)
      end
  end.
End decoder.

Definition accept_constant (_ : string) (f : spec_float) : sum value string := inl (VFloat f).
(** [parse_constant] of [_check_artifact]. *)
Definition reject_constant (name : string) (_ : spec_float) : sum value string :=
  inr ("JSON constant " +:+ name +:+ " is invalid").

(** [str(JSONDecodeError)]: the text with line, column and character. *)
Definition newline : ascii := byte 10.
Fixpoint count_newlines (s : string) : nat :=
  match s with EmptyString => 0 | String c s => (if Ascii.eqb c newline then 1 else 0) + count_newlines s end.
Definition last_line (s : string) : string := default "" (last (split_on newline s)).
Definition decode_error_str (doc msg rest : string) : string :=
  let before := str_take (String.length doc - String.length rest) doc in
  msg +:+ ": line " +:+ nat_str (S (count_newlines before))
      +:+ " column " +:+ nat_str (S (py_len (last_line before)))
      +:+ " (char " +:+ nat_str (py_len before) +:+ ")".

(** The byte order mark of UTF-8. *)
Definition bom : string := utf8_encode 65279.

(** [json.loads(bytes)] for UTF-8 input: a byte order mark is dropped and the
    bytes are decoded first. *)
Inductive load_error :=
| Undecodable (text : string)
| NotJson (msg text : string).
Definition load_error_str (e : load_error) : string :=
  match e with Undecodable t | NotJson _ t => t end.
Definition load_text_result (raw : string) (r : sum value scan_error) : sum value load_error :=
  match r with
  | inl v => inl v
  | inr (At msg rest) => inr (NotJson msg (decode_error_str raw msg rest))
  | inr (Raised msg) => inr (NotJson msg msg)
  end.
Definition loads_bytes (constant : string → spec_float → sum value string) (raw : string)
    : sum value load_error :=
  let raw := if starts_with bom raw then str_drop 3 raw else raw in
  match utf8_fault true raw with
  | Some f => inr (Undecodable (decode_fault_str f))
  | None => load_text_result raw (loads_text constant raw)
  end.
(** [json.loads(str)]: a byte order mark is refused. *)
Definition loads_str (s : string) : sum value load_error :=
  load_text_result s
    (if starts_with bom s then inr (At "Unexpected UTF-8 BOM (decode using utf-8-sig)" s)
     else loads_text accept_constant s).

(** [bytes.decode("utf-8", errors="replace")]: each fault becomes one
    replacement character. *)
Fixpoint decode_replace_loop (fuel : nat) (s : string) : string :=
  match fuel, utf8_fault false s with
  | S fuel, Some (pos, n, _, _) =>
      str_take pos s +:+ utf8_encode 65533 +:+ decode_replace_loop fuel (str_drop (pos + n) s)
  | _, _ => s
  end.
Definition decode_replace (s : string) : string := decode_replace_loop (String.length s) s.

(** [line.strip()] on bytes is empty. *)
Definition is_byte_space (c : ascii) : bool := byte_in 9 13 c || byte_in 32 32 c.
Fixpoint blank (s : string) : bool :=
  match s with EmptyString => true | String c s => is_byte_space c && blank s end.

(** ** Encoding *)

Definition json_escape (c : ascii) : string :=
  let esc d := String "\"%char (String d "") in
  match nat_of_ascii c with
  | 34 => esc c | 92 => esc c
  | 8 => esc "b"%char | 12 => esc "f"%char | 10 => esc "n"%char
  | 13 => esc "r"%char | 9 => esc "t"%char
  | n => if n <? 32 then "\u00" +:+ String (hex_digit (n / 16)) (String (hex_digit (n mod 16)) "")
         else String c ""
  end%nat.
Definition json_string (s : string) : string :=
  String dquote (concat_map_string json_escape s) +:+ String dquote "".

Definition json_float (f : spec_float) : string :=
  match f with
  | S754_nan => "NaN"
  | S754_infinity s => if s then "-Infinity" else "Infinity"
  | f => float_repr f
  end.

(** [json.dumps(v, ensure_ascii=False, separators=(item_sep, key_sep))]. *)
Section encoder.
Variables item_sep key_sep : string.
Fixpoint dumps (v : value) : string :=
  match v with
  | VNone => "null"
  | VBool b => if b then "true" else "false"
  | VInt z => Z_str z
  | VFloat f => json_float f
  | VStr s => json_string s
  | VList l =>
      "[" +:+ join item_sep
        ((fix go l := match l with [] => [] | x :: l => dumps x :: go l end) l) +:+ "]"
  | VDict d =>
      "{" +:+ join item_sep
        ((fix go (d : dict) :=
            match d with
            | [] => []
            | (k, x) :: d => (json_string k +:+ key_sep +:+ dumps x) :: go d
            end) d) +:+ "}"
  end.
End encoder.
Definition dumps_compact : value → string := dumps "," ":".
Definition dumps_default : value → string := dumps ", " ": ".
