(* ===== verification/PyUnicode.v ===== *)
(** * Unicode text

    White space, [strip] and [splitlines] of a [str] with its characters beyond
    ASCII, on the UTF-8 bytes of the text. *)

From Stdlib Require Import Ascii.
From stdpp Require Import base list strings pretty sorting.
From Stdlib Require Import ZArith Lia.
From S2P Require Import Prelude PyValue PyText PyJson.

Definition concat_strings (cs : list string) : string := join "" cs.

(** The white space and the line ends of [str] beyond ASCII. *)
Definition wide_spaces : list string := map utf8_encode
  [133; 160; 5760; 8192; 8193; 8194; 8195; 8196; 8197; 8198; 8199; 8200; 8201; 8202; 8232; 8233; 8239; 8287; 12288]%N.
Definition wide_line_ends : list string := map utf8_encode [133; 8232; 8233]%N.
Definition space_char (c : string) : bool :=
  match c with String a EmptyString => is_space a | _ => elem_str c wide_spaces end.
Definition line_end (c : string) : bool :=
  match c with
  | String a EmptyString => let n := nat_of_ascii a in ((10 <=? n) && (n <=? 13)) || ((28 <=? n) && (n <=? 30))
  | _ => elem_str c wide_line_ends
  end.

Fixpoint drop_spaces (cs : list string) : list string :=
  match cs with c :: r => if space_char c then drop_spaces r else cs | [] => [] end.
(** [s.lstrip()], [s.strip()] and [s.splitlines()] of a [str]. *)
Definition str_lstrip (s : string) : string := concat_strings (drop_spaces (utf8_chars s)).
Definition str_strip (s : string) : string :=
  concat_strings (reverse (drop_spaces (reverse (drop_spaces (utf8_chars s))))).
Fixpoint lines_from (line : list string) (cs : list string) : list string :=
  match cs with
  | [] => match line with [] => [] | _ => [concat_strings (reverse line)] end
  | c :: rest =>
      if line_end c then
        concat_strings (reverse line) ::
        match c, rest with
        | String "013"%char EmptyString, String "010"%char EmptyString :: rest' => lines_from [] rest'
        | _, _ => lines_from [] rest
        end
      else lines_from (c :: line) rest
  end.
Definition str_splitlines (s : string) : list string := lines_from [] (utf8_chars s).

(** [s.split()]: the runs of characters that are no white space. *)
Fixpoint words_from (word : list string) (cs : list string) : list string :=
  match cs with
  | [] => match word with [] => [] | _ => [concat_strings (reverse word)] end
  | c :: cs => if space_char c then match word with [] => words_from [] cs | _ => concat_strings (reverse word) :: words_from [] cs end
               else words_from (c :: word) cs
  end.
Definition split_words (s : string) : list string := words_from [] (utf8_chars s).

(** Text mode turns every line end of the file into a line feed. *)
Fixpoint universal_newlines (s : string) : string :=
  match s with
  | String "013"%char (String "010"%char s) => String newline (universal_newlines s)
  | String "013"%char s => String newline (universal_newlines s)
  | String c s => String c (universal_newlines s)
  | EmptyString => ""
  end.
(** [path.read_text(encoding="utf-8")], given the bytes or the error of reading them. *)
Definition read_text (file : res string) : res string :=
  bytes ← file;
  match utf8_fault false bytes with
  | Some f => Err (ValueError (decode_fault_str f))
  | None => Ok (universal_newlines bytes)
  end.

(** ** Encoding *)

(** A character an [str] can hold and UTF-8 cannot encode. *)
Definition surrogate (c : string) : bool :=
  match c with String a (String b _) => byte_in 237 237 a && byte_in 160 191 b | _ => false end.
Fixpoint take_while {A} (f : A → bool) (l : list A) : list A :=
  match l with x :: l => if f x then x :: take_while f l else [] | [] => [] end.
Definition hex2 (n : nat) : string := String (hex_digit (n / 16)) (String (hex_digit (n mod 16)) "").
(** The escape of a surrogate, whose code point is [0xd000] and twelve bits. *)
Definition surrogate_escape (c : string) : string :=
  match c with
  | String _ (String b (String d _)) =>
      let n := (nat_of_ascii b mod 64) * 64 + nat_of_ascii d mod 64 in "\ud" +:+ String (hex_digit (n / 256)) (hex2 (n mod 256))
  | _ => ""
  end.
(** [s.encode("utf-8")]. *)
Definition encode_utf8 (s : string) : res string :=
  let cs := utf8_chars s in
  let before := length (take_while (λ c, negb (surrogate c)) cs) in
  match take_while surrogate (drop before cs) with
  | [] => Ok s
  | [c] => Err (ValueError ("'utf-8' codec can't encode character '" +:+ surrogate_escape c +:+ "' in position "
                            +:+ nat_str before +:+ ": surrogates not allowed"))
  | l => Err (ValueError ("'utf-8' codec can't encode characters in position " +:+ nat_str before +:+ "-"
                          +:+ nat_str (before + length l - 1) +:+ ": surrogates not allowed"))
  end.

(** ** Canonical JSON *)

(** The items of every object in the order of their keys, as [sort_keys=True]
    writes them. *)
Fixpoint sort_keys (v : value) : value :=
  match v with
  | VList l => VList (map sort_keys l)
  | VDict d => VDict (sorted_items (map (λ kv, (kv.1, sort_keys kv.2)) d))
  | v => v
  end.
(** [json.dumps(v, sort_keys=True, separators=(",", ":"), ensure_ascii=False)]. *)
Definition canonical_json (v : value) : string := dumps_compact (sort_keys v).

(** Two values that differ in the order of object items only. *)
Inductive same_items : value → value → Prop :=
| same_leaf v : same_items v v
| same_list l m : Forall2 same_items l m → same_items (VList l) (VList m)
| same_dict d e f :
    Forall2 (λ x y, x.1 = y.1 ∧ same_items x.2 y.2) d f → f ≡ₚ e → NoDup (keys d) → same_items (VDict d) (VDict e).

Lemma sorted_items_unique {A} (d e : list (string * A)) :
  d ≡ₚ e → NoDup (keys d) → sorted_items d = sorted_items e.
Proof.
  intros Hp Hn. unfold sorted_items.
  assert (Hs : ∀ l : list (string * A), StronglySorted (λ x y, String.le x.1 y.1) (merge_sort (λ x y, String.le x.1 y.1) l)).
  { intros l. apply StronglySorted_merge_sort; [intros x y z ??; by etrans|intros x y; apply (total String.le)]. }
  assert (Hperm : merge_sort (λ x y, String.le x.1 y.1) d ≡ₚ merge_sort (λ x y, String.le x.1 y.1) e)
    by (by rewrite !merge_sort_Permutation).
  assert (Hn' : NoDup (keys (merge_sort (λ x y, String.le x.1 y.1) d))) by (unfold keys; by rewrite merge_sort_Permutation).
  generalize (Hs d), (Hs e). revert Hperm Hn'. clear.
  generalize (merge_sort (λ x y : string * A, String.le x.1 y.1) d), (merge_sort (λ x y : string * A, String.le x.1 y.1) e).
  intros l. induction l as [|[k v] l IH]; intros m Hp Hn Hl Hm.
  { by apply Permutation_nil_l in Hp. }
  destruct m as [|[k' v'] m]; [by apply Permutation_nil_r in Hp|].
  apply StronglySorted_cons in Hl as [Hx Hl]. apply StronglySorted_cons in Hm as [Hy Hm].
  assert (k = k') as ->.
  { apply (anti_symm String.le).
    - assert ((k', v') ∈ (k, v) :: l) as [[= -> ->]|Hin]%elem_of_cons by (rewrite Hp; apply list_elem_of_here); [done|].
      rewrite list.Forall_forall in Hx. apply (Hx _ Hin).
    - assert ((k, v) ∈ (k', v') :: m) as [[= -> ->]|Hin]%elem_of_cons by (rewrite <-Hp; apply list_elem_of_here); [done|].
      rewrite list.Forall_forall in Hy. apply (Hy _ Hin). }
  assert (v = v') as ->.
  { assert ((k', v') ∈ (k', v) :: l) as [[= ->]|Hin]%elem_of_cons by (rewrite Hp; apply list_elem_of_here); [done|].
    apply NoDup_cons in Hn as [Hn _]. destruct Hn. by apply (list_elem_of_fmap_2 fst) in Hin. }
  f_equal. apply IH; [by apply Permutation_cons_inv in Hp|by apply NoDup_cons in Hn as [_ ?]|done|done].
Qed.

Lemma sort_keys_same v w : same_items v w → sort_keys v = sort_keys w.
Proof.
  revert w. induction v as [| | | | |l IH|d IH] using value_ind'; intros w H; inversion H; subst; try done; cbn [sort_keys].
  - f_equal. match goal with H : Forall2 _ l _ |- _ => revert IH; induction H as [|x y l m Hxy Hlm IHl] end; intros IH; [done|].
    apply Forall_cons in IH as [Hx IH]. cbn. f_equal; [by apply Hx|]. apply IHl; [by apply same_list|done].
  - f_equal. match goal with Hf : Forall2 _ d ?f, Hp : ?f ≡ₚ ?e |- _ =>
      transitivity (sorted_items (map (λ kv, (kv.1, sort_keys kv.2)) f)); [f_equal; clear Hp|] end.
    + match goal with H : Forall2 _ d _ |- _ => revert IH; clear -H; induction H as [|x y d f [Hk Hv] Hdf IHd] end; intros IH; [done|].
      apply Forall_cons in IH as [Hx IH]. cbn. f_equal; [f_equal; [done|by apply Hx]|by apply IHd].
    + apply sorted_items_unique; [by apply fmap_Permutation|].
      match goal with Hf : Forall2 _ d ?f, Hn : NoDup (keys d) |- _ =>
        assert (keys (map (λ kv, (kv.1, sort_keys kv.2)) f) = keys d) as ->; [|done]; clear -Hf;
        induction Hf as [|x y d f [Hk _] _ IHd]; [done|]; cbn; f_equal; [done|exact IHd] end.
Qed.

(** ** Characters and lines *)

(** The characters of a text up to a character that starts one. *)
Definition starts_char (y : string) : bool := match y with String d _ => negb (continues d) | EmptyString => true end.
Lemma utf8_chars_cons c s : starts_char s = true → utf8_chars (String c s) = String c "" :: utf8_chars s.
Proof.
  intros H. cbn [utf8_chars]. destruct s as [|d s]; [done|]. cbn [starts_char] in H. apply negb_true_iff in H.
  assert (∃ e w, utf8_chars (String d s) = String d e :: w) as (e & w & ->); [|by rewrite H].
  cbn [utf8_chars]. destruct (utf8_chars s) as [|[|x w] ws]; try by eexists _, _. destruct (continues x); by eexists _, _.
Qed.
Lemma chars_nonempty c s : ∃ e w, utf8_chars (String c s) = String c e :: w.
Proof.
  cbn [utf8_chars]. destruct (utf8_chars s) as [|[|x w] ws]; try by eexists _, _. destruct (continues x); by eexists _, _.
Qed.
Lemma utf8_chars_app a b : starts_char b = true → utf8_chars (a +:+ b) = utf8_chars a ++ utf8_chars b.
Proof.
  intros Hb. induction a as [|c a IH]; [done|]. rewrite str_app_cons. destruct a as [|d a].
  - change ("" +:+ b) with b. by rewrite utf8_chars_cons.
  - assert (Hc : ∀ t, utf8_chars (String c (String d t)) = match utf8_chars (String d t) with
      | String x w :: ws => if continues x then String c (String x w) :: ws else String c "" :: String x w :: ws
      | ws => String c "" :: ws end) by done.
    rewrite str_app_cons in IH |- *. rewrite !Hc, IH. destruct (chars_nonempty d a) as (e & w & Hw). rewrite Hw.
    cbn [app]. destruct (continues d); reflexivity.
Qed.

(** A text without line ends after a line feed is a line. *)
Lemma lines_from_lf acc rest : lines_from acc (nl :: rest) = concat_strings (reverse acc) :: lines_from [] rest.
Proof. done. Qed.
Lemma lines_split A rest : ∀ acc, ∃ ls, lines_from acc (A ++ nl :: rest) = ls ++ lines_from [] rest.
Proof.
  remember (length A) as n eqn:Hn. revert A Hn. induction (lt_wf n) as [n _ IH]. intros A Hn acc.
  assert (Hgo : ∀ c A', A = c :: A' → ∃ ls, lines_from acc (c :: A' ++ nl :: rest) = ls ++ lines_from [] rest).
  { intros c A' ->. cbn [lines_from]. destruct (line_end c).
    - assert (Hcr : ∃ ls, lines_from [] (A' ++ nl :: rest) = ls ++ lines_from [] rest) by (eapply (IH (length A')); [subst n; cbn; lia|done]).
      assert (Hlf : ∀ A2, A' = nl :: A2 → ∃ ls, lines_from [] (A2 ++ nl :: rest) = ls ++ lines_from [] rest).
      { intros A2 ->. eapply (IH (length A2)); [subst n; cbn; lia|done]. }
      set (first := concat_strings (reverse acc)).
      assert (Hcase : ∀ m, (m = lines_from [] (A' ++ nl :: rest) ∨ (∃ r, A' ++ nl :: rest = nl :: r ∧ m = lines_from [] r)) →
        ∃ ls, first :: m = ls ++ lines_from [] rest).
      { intros m [->|(r & Hr & ->)]; [destruct Hcr as [ls ->]; by exists (first :: ls)|].
        destruct A' as [|x A2]; [injection Hr as <-; by exists [first]|]. injection Hr as -> <-.
        destruct (Hlf A2 eq_refl) as [ls ->]. by exists (first :: ls). }
      apply Hcase. destruct c as [|a c]; [by left|]. destruct (ascii_dec a "013") as [->|Hne].
      + destruct c as [|? ?]; [|by left]. destruct (A' ++ nl :: rest) as [|y r]; [by left|]. destruct y as [|b y]; [by left|].
        destruct (ascii_dec b "010") as [->|Hne].
        * destruct y as [|? ?]; [right; by exists r|by left].
        * left. by destruct b as [[] [] [] [] [] [] [] []].
      + left. by destruct a as [[] [] [] [] [] [] [] []].
    - eapply (IH (length A')); [subst n; cbn; lia|done]. }
  destruct A as [|c A]; [|by eapply Hgo]. exists [concat_strings (reverse acc)]. cbn [app]. by rewrite lines_from_lf.
Qed.
Lemma lines_one acc B : Forall (λ c, line_end c = false) B → lines_from acc (B ++ [nl]) = [concat_strings (reverse acc ++ B)].
Proof.
  intros HB. revert acc. induction HB as [|c B Hc _ IH]; intros acc; [cbn [app]; by rewrite lines_from_lf, app_nil_r|].
  cbn [app lines_from]. rewrite Hc, IH. f_equal. by rewrite reverse_cons, <-app_assoc.
Qed.
(** A text that is one line: it begins a character and holds no line end. *)
Definition one_line (s : string) : Prop := starts_char s = true ∧ Forall (λ c, line_end c = false) (utf8_chars s).
