(* ===== verification/JsonText.v ===== *)
(** * Indented JSON text, and reading back what was written

    [json.dumps] with [indent=2] and ASCII escapes, as the files of
    src/evals/cross_harness are written, and the proof that [json.loads] gives
    back what either encoder wrote.  The proof goes through [renders], which
    says what texts denote a value whatever the white space and the escapes. *)

From Stdlib Require Import Ascii.
From stdpp Require Import base list strings pretty.
From Stdlib Require Import ZArith Lia SpecFloat.
From S2P Require Import Prelude PyValue PyText PyJson PyUnicode.

(** ** Characters *)

(** The code point of one encoded character. *)
Definition char_point (c : string) : N :=
  let at_ (a : ascii) (k : N) := (N_of_ascii a mod 2 ^ k)%N in
  match c with
  | String a (String b EmptyString) => (at_ a 5 * 64 + at_ b 6)%N
  | String a (String b (String d EmptyString)) => ((at_ a 4 * 64 + at_ b 6) * 64 + at_ d 6)%N
  | String a (String b (String d (String e EmptyString))) => (((at_ a 3 * 64 + at_ b 6) * 64 + at_ d 6) * 64 + at_ e 6)%N
  | String a _ => N_of_ascii a
  | EmptyString => 0%N
  end.

Definition hex_of (n : N) : ascii := hex_digit (N.to_nat n).
(** ['\\u{0:04x}'.format(n)]. *)
Definition unicode_escape (n : N) : string :=
  ("\u" +:+ String (hex_of (n / 4096)) (String (hex_of ((n / 256) mod 16))
     (String (hex_of ((n / 16) mod 16)) (String (hex_of (n mod 16)) ""))))%N.

(** [py_encode_basestring_ascii]: what is not a space to a tilde is escaped,
    beyond sixteen bits as two surrogates. *)
Definition ascii_escape (c : string) : string :=
  let n := char_point c in
  let esc d := String "\"%char (String d "") in
  (if n =? 34 then esc dquote else if n =? 92 then esc "\"%char
   else if n =? 8 then esc "b"%char else if n =? 12 then esc "f"%char else if n =? 10 then esc "n"%char
   else if n =? 13 then esc "r"%char else if n =? 9 then esc "t"%char
   else if (32 <=? n) && (n <=? 126) then c
   else if n <? 65536 then unicode_escape n
   else unicode_escape (55296 + (n - 65536) / 1024) +:+ unicode_escape (56320 + (n - 65536) mod 1024))%N.
Definition ascii_string (s : string) : string :=
  String dquote (concat_strings (map ascii_escape (utf8_chars s))) +:+ String dquote "".

Fixpoint spaces (n : nat) : string := match n with O => "" | S n => String " "%char (spaces n) end.
Definition line_indent (level : nat) : string := nl +:+ spaces (2 * level).

(** [json.dumps(v, indent=2)], [level] deep. *)
Fixpoint indented (level : nat) (v : value) : string :=
  match v with
  | VNone => "null"
  | VBool b => if b then "true" else "false"
  | VInt z => Z_str z
  | VFloat f => json_float f
  | VStr s => ascii_string s
  | VList l =>
      match l with
      | [] => "[]"
      | _ => "[" +:+ line_indent (S level)
             +:+ join ("," +:+ line_indent (S level)) (map (indented (S level)) l)
             +:+ line_indent level +:+ "]"
      end
  | VDict d =>
      match d with
      | [] => "{}"
      | _ => "{" +:+ line_indent (S level)
             +:+ join ("," +:+ line_indent (S level)) (map (λ kv, ascii_string kv.1 +:+ ": " +:+ indented (S level) kv.2) d)
             +:+ line_indent level +:+ "}"
      end
  end.
Definition dumps_indented : value → string := indented 0.

(** A text of Unicode characters, none of them a surrogate. *)
Definition scalar (n : N) : bool := ((n <? 55296) || (57344 <=? n) && (n <? 1114112))%N.
Definition is_text (s : string) : bool :=
  forallb (λ c, scalar (char_point c) && String.eqb (utf8_encode (char_point c)) c) (utf8_chars s).

(** Values whose JSON text reads back as they are: no floats, distinct keys, and
    text that the encoder can write. *)
Section plain.
Context (text : string → bool).
Fixpoint plain (v : value) : bool :=
  match v with
  | VFloat _ => false
  | VStr s => text s
  | VList l => forallb plain l
  | VDict d => bool_decide (NoDup (keys d)) && forallb (λ kv, text kv.1 && plain kv.2) d
  | _ => true
  end.
End plain.

(** ** The texts of a value *)

Definition unescaped (c : ascii) : bool := negb (Ascii.eqb c dquote || Ascii.eqb c "\"%char || byte_in 0 31 c).

(** [chars_of s t]: [t], between quotes, is the text of [s]. *)
Inductive chars_of : string → string → Prop :=
| chars_nil : chars_of "" ""
| chars_raw c s t : unescaped c = true → chars_of s t → chars_of (String c s) (String c t)
| chars_simple e c s t : simple_escape e = Some c → chars_of s t → chars_of (String c s) (String "\"%char (String e t))
| chars_unicode h n s t :
    String.length h = 4 → hex4 h = Some n → in_range 55296 57343 n = false →
    chars_of s t → chars_of (utf8_encode n +:+ s) ("\u" +:+ h +:+ t)
| chars_pair h h' n n' s t :
    String.length h = 4 → hex4 h = Some n → in_range 55296 56319 n = true →
    String.length h' = 4 → hex4 h' = Some n' → in_range 56320 57343 n' = true →
    chars_of s t →
    chars_of (utf8_encode (65536 + (n - 55296) * 1024 + (n' - 56320)) +:+ s) ("\u" +:+ h +:+ "\u" +:+ h' +:+ t).
Definition string_of (s t : string) : Prop := ∃ u, chars_of s u ∧ t = String dquote (u +:+ String dquote "").

Fixpoint white (s : string) : bool := match s with String c s => is_ws c && white s | EmptyString => true end.

(** [renders v t]: [t] is a JSON text of [v]. *)
Inductive renders : value → string → Prop :=
| renders_none : renders VNone "null"
| renders_true : renders (VBool true) "true"
| renders_false : renders (VBool false) "false"
| renders_int z : renders (VInt z) (Z_str z)
| renders_string s t : string_of s t → renders (VStr s) t
| renders_empty_list w : white w = true → renders (VList []) ("[" +:+ w +:+ "]")
| renders_list l w t : white w = true → renders_items l t → renders (VList l) ("[" +:+ w +:+ t)
| renders_empty_dict w : white w = true → renders (VDict []) ("{" +:+ w +:+ "}")
| renders_dict d w t : white w = true → NoDup (keys d) → renders_members d t → renders (VDict d) ("{" +:+ w +:+ t)
with renders_items : list value → string → Prop :=
| items_last v t w : renders v t → white w = true → renders_items [v] (t +:+ w +:+ "]")
| items_more v l t w w' u :
    renders v t → white w = true → white w' = true → renders_items l u →
    renders_items (v :: l) (t +:+ w +:+ "," +:+ w' +:+ u)
with renders_members : dict → string → Prop :=
| members_last k v q w1 w2 t w :
    string_of k q → white w1 = true → white w2 = true → renders v t → white w = true →
    renders_members [(k, v)] (q +:+ w1 +:+ ":" +:+ w2 +:+ t +:+ w +:+ "}")
| members_more k v d q w1 w2 t w w' u :
    string_of k q → white w1 = true → white w2 = true → renders v t → white w = true → white w' = true →
    renders_members d u →
    renders_members ((k, v) :: d) (q +:+ w1 +:+ ":" +:+ w2 +:+ t +:+ w +:+ "," +:+ w' +:+ u).

Scheme renders_mind := Minimality for renders Sort Prop
  with items_mind := Minimality for renders_items Sort Prop
  with members_mind := Minimality for renders_members Sort Prop.
Combined Scheme renders_mutind from renders_mind, items_mind, members_mind.

(** ** Reading a string *)

Lemma str_app_nil_l s : "" +:+ s = s.
Proof. done. Qed.
Lemma str_rev_cons c s : str_rev (String c s) = str_rev s +:+ String c "".
Proof. exact (str_rev_append_app s (String c "")). Qed.
Lemma str_rev_app a b : str_rev (a +:+ b) = str_rev b +:+ str_rev a.
Proof.
  induction a as [|c a IH]; [symmetry; apply str_app_nil_r|]. rewrite str_app_cons, !str_rev_cons, IH. apply str_app_assoc.
Qed.
Lemma str_rev_involutive s : str_rev (str_rev s) = s.
Proof. induction s as [|c s IH]; [done|]. by rewrite str_rev_cons, str_rev_app, IH. Qed.
Lemma str_drop_length a b : str_drop (String.length a) (a +:+ b) = b.
Proof. induction a as [|c a IH]; [done|]. rewrite str_app_cons. exact IH. Qed.
Lemma hex4_app h s : String.length h = 4 → hex4 (h +:+ s) = hex4 h.
Proof. intros H. do 4 (destruct h as [|? h]; [done|]). by destruct h. Qed.

Lemma simple_escape_not_u e c : simple_escape e = Some c → e ≠ "u"%char.
Proof. by intros H ->. Qed.

Lemma scan_raw f b acc c s : unescaped c = true → scan_string (S f) b acc (String c s) = scan_string f b (String c acc) s.
Proof.
  unfold unescaped. intros Hc%negb_true_iff. apply orb_false_iff in Hc as [Hc H3]. apply orb_false_iff in Hc as [H1 H2].
  cbn [scan_string]. by rewrite H1, H2, H3.
Qed.

Lemma scan_simple f b acc e c s :
  simple_escape e = Some c → scan_string (S f) b acc (String "\"%char (String e s)) = scan_string f b (String c acc) s.
Proof.
  intros H. destruct e as [b0 b1 b2 b3 b4 b5 b6 b7].
  destruct b0, b1, b2, b3, b4, b5, b6, b7; try discriminate H; injection H as <-; reflexivity.
Qed.

Ltac bits a := destruct a as [[] [] [] [] [] [] [] []].
(** An escape of four digits, given what follows it. *)
Definition after_unicode (f : nat) (b acc : string) (c1 : N) (rest : string) : scan string :=
  let single := scan_string f b (str_rev_append (utf8_encode c1) acc) rest in
  match rest with
  | String "\"%char (String "u"%char rest') =>
      if in_range 55296 56319 c1 && Nat.ltb 4 (String.length rest') then
        match hex4 rest' with
        | None => fail_at "Invalid \uXXXX escape" (str_drop 1 rest)
        | Some c2 =>
            if in_range 56320 57343 c2 then
              scan_string f b (str_rev_append (utf8_encode (65536 + (c1 - 55296) * 1024 + (c2 - 56320))) acc) (str_drop 4 rest')
            else single
        end
      else single
  | _ => single
  end.
Lemma scan_u f b acc h n rest :
  String.length h = 4 → hex4 h = Some n → rest ≠ "" →
  scan_string (S f) b acc (String "\"%char (String "u"%char (h +:+ rest))) = after_unicode f b acc n rest.
Proof.
  intros Hl Hh Hr.
  transitivity (match hex4 (h +:+ rest), Nat.ltb 4 (String.length (h +:+ rest)) with
    | Some c1, true => after_unicode f b acc c1 (str_drop 4 (h +:+ rest))
    | _, _ => fail_at "Invalid \uXXXX escape" (String "u"%char (h +:+ rest)) end); [reflexivity|].
  rewrite hex4_app, Hh by done.
  assert (Nat.ltb 4 (String.length (h +:+ rest)) = true) as ->.
  { apply Nat.ltb_lt. rewrite length_str_app, Hl. destruct rest; [done|]. cbn. lia. }
  by rewrite <-Hl, str_drop_length.
Qed.

Lemma after_unicode_single f b acc n rest :
  in_range 55296 57343 n = false → after_unicode f b acc n rest = scan_string f b (str_rev_append (utf8_encode n) acc) rest.
Proof.
  intros Hn. assert (Hn' : in_range 55296 56319 n = false).
  { clear -Hn. unfold in_range in *. destruct (55296 <=? n)%N eqn:E; [|done]. cbn in *. apply N.leb_gt in Hn. apply N.leb_gt. lia. }
  unfold after_unicode. rewrite Hn'. clear.
  destruct rest as [|[b0 b1 b2 b3 b4 b5 b6 b7] [|[c0 c1 c2 c3 c4 c5 c6 c7] r]]; [done| |];
  repeat match goal with |- context [match ?x with true => _ | false => _ end] => is_var x; destruct x; try done end.
Qed.

Lemma after_unicode_pair f b acc n h' n' rest :
  in_range 55296 56319 n = true → String.length h' = 4 → hex4 h' = Some n' → in_range 56320 57343 n' = true → rest ≠ "" →
  after_unicode f b acc n (String "\"%char (String "u"%char (h' +:+ rest))) =
  scan_string f b (str_rev_append (utf8_encode (65536 + (n - 55296) * 1024 + (n' - 56320))) acc) rest.
Proof.
  intros Hn Hl Hh Hn' Hr. unfold after_unicode. rewrite Hn, hex4_app, Hh, Hn' by done.
  assert (Nat.ltb 4 (String.length (h' +:+ rest)) = true) as ->.
  { apply Nat.ltb_lt. rewrite length_str_app, Hl. destruct rest; [done|]. cbn. lia. }
  cbn [andb]. by rewrite <-Hl, str_drop_length.
Qed.

Lemma scan_chars s t begin : chars_of s t →
  ∀ fuel acc rest, String.length t < fuel →
  scan_string fuel begin acc (t +:+ String dquote rest) = inl (str_rev acc +:+ s, rest).
Proof.
  assert (Hne : ∀ t rest, t +:+ String dquote rest ≠ "") by (by intros []).
  assert (Hacc : ∀ acc u s, str_rev (str_rev_append u acc) +:+ s = str_rev acc +:+ u +:+ s).
  { intros acc u s'. by rewrite str_rev_append_app, str_rev_app, str_rev_involutive, str_app_assoc. }
  induction 1 as [|c s t Hc _ IH|e c s t He _ IH|h n s t Hh Hn Hs _ IH|h h' n n' s t Hh Hn Hs Hh' Hn' Hs' _ IH];
    intros [|fuel] acc rest Hf; try (cbn in Hf; lia).
  - cbn. by rewrite str_app_nil_r.
  - rewrite str_app_cons, scan_raw by done. cbn in Hf. rewrite IH by lia. by rewrite str_rev_cons, str_app_assoc.
  - rewrite !str_app_cons, (scan_simple _ _ _ _ c) by done. cbn in Hf. rewrite IH by lia.
    by rewrite str_rev_cons, str_app_assoc.
  - rewrite ?str_app_assoc, ?str_app_cons, ?str_app_nil_l in *. rewrite (scan_u _ _ _ _ n) by first [apply Hne|assumption|discriminate].
    rewrite after_unicode_single by done. cbn [String.length] in Hf. rewrite length_str_app in Hf. rewrite IH by lia.
    by rewrite Hacc.
  - rewrite ?str_app_assoc, ?str_app_cons, ?str_app_nil_l in *. rewrite (scan_u _ _ _ _ n) by first [apply Hne|assumption|discriminate].
    rewrite (after_unicode_pair _ _ _ _ _ n') by first [apply Hne|assumption]. cbn [String.length] in Hf. rewrite !length_str_app in Hf.
    cbn [String.length] in Hf. rewrite length_str_app in Hf. rewrite IH by lia. by rewrite Hacc.
Qed.

(** ** Reading a number *)

(** What may follow a value. *)
Definition ends_value (s : string) : bool :=
  match s with
  | EmptyString => true
  | String c _ => is_ws c || Ascii.eqb c ","%char || Ascii.eqb c "]"%char || Ascii.eqb c "}"%char
  end.

Lemma digit_of_char d : (d < 10)%N → digit_of (pretty_N_char d) = Some (Z.of_N d).
Proof.
  intros H. assert (d = 0 ∨ d = 1 ∨ d = 2 ∨ d = 3 ∨ d = 4 ∨ d = 5 ∨ d = 6 ∨ d = 7 ∨ d = 8 ∨ d = 9)%N as Hd by lia.
  by destruct Hd as [->|[->|[->|[->|[->|[->|[->|[->|[->| ->]]]]]]]]].
Qed.

Lemma scan_pretty x : ∀ s, ∃ k, (k = 0 ↔ x = 0%N) ∧
  ∀ acc n, scan_digits acc n (pretty_N_go x s) = scan_digits (acc * 10 ^ Z.of_nat k + Z.of_N x) (n + k) s.
Proof.
  induction (N.lt_wf_0 x) as [x _ IH]; intros s.
  destruct (decide (x = 0%N)) as [->|Hx].
  { exists 0. split; [done|]. intros acc n. rewrite pretty_N_go_0. f_equal; lia. }
  rewrite pretty_N_go_step by lia.
  destruct (IH (x `div` 10)%N ltac:(apply N.div_lt; lia) (String (pretty_N_char (x `mod` 10)) s)) as (k & _ & Hk).
  exists (S k). split; [lia|]. intros acc n. rewrite Hk. cbn [scan_digits].
  rewrite digit_of_char by (apply N.mod_lt; lia). f_equal; [|lia].
  rewrite Nat2Z.inj_succ, Z.pow_succ_r by lia.
  pose proof (N.div_mod x 10 ltac:(done)). nia.
Qed.

Lemma pretty_first x s : (0 < x)%N →
  ∃ d t, pretty_N_go x s = String (pretty_N_char d) t ∧ (0 < d < 10)%N.
Proof.
  revert s. induction (N.lt_wf_0 x) as [x _ IH]; intros s Hx. rewrite pretty_N_go_step by done.
  destruct (decide (x < 10)%N) as [Hlt|Hge].
  - rewrite N.div_small, pretty_N_go_0, N.mod_small by done. eauto.
  - apply IH; [by apply N.div_lt|]. apply N.div_str_pos. lia.
Qed.

Lemma pretty_go_app x s t : pretty_N_go x s +:+ t = pretty_N_go x (s +:+ t).
Proof.
  revert s. induction (N.lt_wf_0 x) as [x _ IH]; intros s.
  destruct (decide (x = 0%N)) as [->|Hx]; [by rewrite !pretty_N_go_0|].
  rewrite !(pretty_N_go_step x) by lia. rewrite IH by (apply N.div_lt; lia). done.
Qed.

Lemma scan_ends acc n s : ends_value s = true → scan_digits acc n s = (acc, n, s).
Proof.
  destruct s as [|c s]; [done|]. cbn. intros H. assert (digit_of c = None) as ->; [|done].
  revert H. by bits c.
Qed.

Lemma scan_digits_pos p rest : ends_value rest = true →
  ∃ k, scan_digits 0 0 (pretty_N_go (N.pos p) rest) = (Z.pos p, S k, rest).
Proof.
  intros H. destruct (scan_pretty (N.pos p) rest) as (k & Hk0 & Hk). destruct k as [|k]; [by destruct Hk0 as [Hk0 _]; discriminate Hk0|].
  exists k. by rewrite Hk, scan_ends.
Qed.

(** The digits of a number that ends there, with what is left. *)
Definition number_end (neg : bool) (m : Z) (rest : string) : scan value :=
    let '(m1, frac, s3) :=
      match rest with
      | String "."%char r => let '(m', k, r') := scan_digits m 0 r in if Nat.eqb k 0 then (m, O, rest) else (m', k, r')
      | _ => (m, O, rest)
      end in
    let exponent (r : string) : option (Z * string) :=
      let '(eneg, r1) := match r with
                         | String "-"%char r1 => (true, r1)
                         | String "+"%char r1 => (false, r1)
                         | _ => (false, r) end in
      let '(x, k, r2) := scan_digits 0 0 r1 in
      if Nat.eqb k 0 then None else Some ((if eneg then - x else x)%Z, r2) in
    let exp := match s3 with
               | String "e"%char r | String "E"%char r => exponent r
               | _ => None end in
    match exp, frac with
    | None, O => inl (VInt (if neg then - m else m), s3)
    | None, _ => inl (VFloat (decimal_to_float neg m1 (- Z.of_nat frac)), s3)
    | Some (x, s4), _ => inl (VFloat (decimal_to_float neg m1 (x - Z.of_nat frac)), s4)
    end.
Lemma number_end_int neg m rest :
  ends_value rest = true → number_end neg m rest = inl (VInt (if neg then - m else m)%Z, rest).
Proof. destruct rest as [|c rest]; [done|]. cbn [ends_value]. intros H. revert H. bits c; intros H; (discriminate H || reflexivity). Qed.

Lemma scan_number_eq s :
  scan_number s =
    let '(neg, s1) := match s with String "-"%char s1 => (true, s1) | _ => (false, s) end in
    let '(m, n, s2) := scan_digits 0 0 s1 in
    let leading_zero := match s1 with String "0"%char _ => true | _ => false end in
    if Nat.eqb n 0 then fail_at "Expecting value" s
    else let '(m, s2) := if leading_zero then (0%Z, str_drop 1 s1) else (m, s2) in number_end neg m s2.
Proof. reflexivity. Qed.

Lemma Z_str_pos p : Z_str (Z.pos p) = pretty_N_go (N.pos p) "".
Proof. done. Qed.
Lemma Z_str_neg p : Z_str (Z.neg p) = String "-"%char (pretty_N_go (N.pos p) "").
Proof. done. Qed.

Lemma scan_int z rest : ends_value rest = true → scan_number (Z_str z +:+ rest) = inl (VInt z, rest).
Proof.
  intros H. rewrite scan_number_eq. destruct z as [|p|p].
  - change (Z_str 0 +:+ rest) with (String "0"%char rest). cbv iota.
    change (scan_digits 0 0 (String "0"%char rest)) with (scan_digits 0 1 rest). rewrite scan_ends by done.
    exact (number_end_int false 0 rest H).
  - rewrite Z_str_pos, pretty_go_app. destruct (scan_digits_pos p rest H) as [k Hk].
    destruct (pretty_first (N.pos p) rest eq_refl) as (d & t & Hd & Hr). rewrite str_app_nil_l, Hd in *.
    assert (d = 1 ∨ d = 2 ∨ d = 3 ∨ d = 4 ∨ d = 5 ∨ d = 6 ∨ d = 7 ∨ d = 8 ∨ d = 9)%N as Hc by lia.
    repeat (destruct Hc as [->|Hc]); [..|subst d]; cbv [pretty_N_char] in *; cbv iota; rewrite Hk; exact (number_end_int false (Z.pos p) rest H).
  - rewrite Z_str_neg, str_app_cons, pretty_go_app. destruct (scan_digits_pos p rest H) as [k Hk].
    destruct (pretty_first (N.pos p) rest eq_refl) as (d & t & Hd & Hr). rewrite str_app_nil_l, Hd in *.
    assert (d = 1 ∨ d = 2 ∨ d = 3 ∨ d = 4 ∨ d = 5 ∨ d = 6 ∨ d = 7 ∨ d = 8 ∨ d = 9)%N as Hc by lia.
    repeat (destruct Hc as [->|Hc]); [..|subst d]; cbv [pretty_N_char] in *; cbv iota; rewrite Hk; exact (number_end_int true (Z.pos p) rest H).
Qed.

(** ** Reading a value *)

Lemma skip_white w s : white w = true → skip_ws (w +:+ s) = skip_ws s.
Proof.
  induction w as [|c w IH]; [done|]. cbn [white]. intros [Hc Hw]%andb_true_iff.
  rewrite str_app_cons. cbn [skip_ws]. rewrite Hc. by apply IH.
Qed.
Lemma ends_white w c s : white w = true → ends_value (String c s) = true → ends_value (w +:+ String c s) = true.
Proof. destruct w as [|d w]; [done|]. rewrite str_app_cons. cbn [white ends_value]. by intros [-> _]%andb_true_iff _. Qed.

(** A text that begins a value: not with white space or a closing bracket. *)
Definition starts_value (s : string) : Prop :=
  ∃ c t, s = String c t ∧ is_ws c = false ∧ c ≠ "]"%char ∧ c ≠ "}"%char ∧ byte_in 0 127 c = true.
Lemma skip_starts s rest : starts_value s → skip_ws (s +:+ rest) = s +:+ rest.
Proof. intros (c & t & -> & Hc & _). rewrite str_app_cons. cbn [skip_ws]. by rewrite Hc. Qed.
Lemma starts_app s t : starts_value s → starts_value (s +:+ t).
Proof. intros (c & u & -> & H). rewrite str_app_cons. red. eauto. Qed.

Lemma Z_str_shape z rest : ∃ c t, Z_str z +:+ rest = String c t ∧
  (is_Some (digit_of c) ∨ c = "-"%char ∧ ∃ d u, t = String d u ∧ is_Some (digit_of d)).
Proof.
  assert (Hp : ∀ p s, ∃ c t, pretty_N_go (N.pos p) s = String c t ∧ is_Some (digit_of c)).
  { intros p s. destruct (pretty_first (N.pos p) s eq_refl) as (d & t & -> & Hd). eexists _, _. split; [done|].
    rewrite digit_of_char by lia. by eexists. }
  destruct z as [|p|p].
  - exists "0"%char, rest. split; [done|]. left. by eexists.
  - rewrite Z_str_pos, pretty_go_app. destruct (Hp p rest) as (c & t & E & Hc). rewrite str_app_nil_l, E. eauto.
  - rewrite Z_str_neg, str_app_cons, pretty_go_app. destruct (Hp p rest) as (c & t & E & Hc). rewrite str_app_nil_l, E. eauto 10.
Qed.

Lemma string_starts s t : string_of s t → starts_value t.
Proof. intros (u & _ & ->). by eexists dquote, _. Qed.
Lemma renders_starts :
  (∀ v t, renders v t → starts_value t) ∧ (∀ l t, renders_items l t → starts_value t) ∧
  (∀ d t, renders_members d t → starts_value t).
Proof.
  apply renders_mutind; intros; try (by eexists _, _); try (by apply starts_app; eauto using string_starts); [|by eapply string_starts].
  destruct (Z_str_shape z "") as (c & t & E & Hc). rewrite str_app_nil_r in E. rewrite E. eexists c, t.
  split; [done|]. destruct Hc as [[d Hd]|[-> _]]; [|done]. revert Hd. by bits c.
Qed.

Definition value_starts {v t} : renders v t → starts_value t := proj1 renders_starts v t.
Definition items_start {l t} : renders_items l t → starts_value t := proj1 (proj2 renders_starts) l t.
Definition members_start {d t} : renders_members d t → starts_value t := proj2 (proj2 renders_starts) d t.

Section read.
Variable constant : string → spec_float → sum value string.

Lemma read_number f c s :
  (is_Some (digit_of c) ∨ c = "-"%char ∧ ∃ d u, s = String d u ∧ is_Some (digit_of d)) →
  scan_once constant (S f) (String c s) = scan_number (String c s).
Proof.
  intros [[z Hz]|[-> (d & u & -> & z & Hz)]].
  - revert Hz. bits c; intros Hz; (discriminate Hz || reflexivity).
  - revert Hz. bits d; intros Hz; (discriminate Hz || reflexivity).
Qed.

Lemma read_string f s t rest : string_of s t → scan_once constant (S f) (t +:+ rest) = inl (VStr s, rest).
Proof.
  intros (u & Hu & ->). rewrite str_app_cons, str_app_assoc. cbn [scan_once].
  change (Ascii.eqb dquote dquote) with true. cbv iota. rewrite str_app_cons, str_app_nil_l.
  rewrite (scan_chars s u) by (done || rewrite length_str_app; lia). done.
Qed.

Lemma read_list f s :
  scan_once constant (S f) (String "["%char s) =
    match skip_ws s with String "]"%char r => inl (VList [], r) | r => scan_items constant f [] r end.
Proof. reflexivity. Qed.
Lemma read_dict f s :
  scan_once constant (S f) (String "{"%char s) =
    match skip_ws s with String "}"%char r => inl (VDict [], r) | r => scan_members constant f [] r end.
Proof. reflexivity. Qed.
Lemma not_bracket {A} (x : string → A) (y : string → A) c t :
  c ≠ "]"%char → match String c t with String "]"%char r => x r | r => y r end = y (String c t).
Proof. by bits c. Qed.
Lemma not_brace {A} (x : string → A) (y : string → A) c t :
  c ≠ "}"%char → match String c t with String "}"%char r => x r | r => y r end = y (String c t).
Proof. by bits c. Qed.

(** A nonempty list or object, given what its items read as. *)
Lemma read_items f w t r : white w = true → starts_value t →
  scan_items constant f [] t = r → scan_once constant (S f) ("[" +:+ w +:+ t) = r.
Proof.
  intros Hw Ht <-. rewrite str_app_cons, str_app_nil_l, read_list, skip_white by done.
  replace (skip_ws t) with t by (rewrite <-(str_app_nil_r t); symmetry; by apply skip_starts).
  destruct Ht as (c & u & -> & _ & Hc & _). exact (not_bracket (λ r, inl (VList [], r)) (scan_items constant f []) c u Hc).
Qed.
Lemma read_members f w t r : white w = true → starts_value t →
  scan_members constant f [] t = r → scan_once constant (S f) ("{" +:+ w +:+ t) = r.
Proof.
  intros Hw Ht <-. rewrite str_app_cons, str_app_nil_l, read_dict, skip_white by done.
  replace (skip_ws t) with t by (rewrite <-(str_app_nil_r t); symmetry; by apply skip_starts).
  destruct Ht as (c & u & -> & _ & _ & Hc & _). exact (not_brace (λ r, inl (VDict [], r)) (scan_members constant f []) c u Hc).
Qed.

(** One item, given what it reads as. *)
Lemma read_last f acc v t w rest : white w = true →
  scan_once constant f (t +:+ w +:+ String "]"%char rest) = inl (v, w +:+ String "]"%char rest) →
  scan_items constant (S f) acc ((t +:+ w +:+ "]") +:+ rest) = inl (VList (rev acc ++ [v]), rest).
Proof.
  intros Hw H. rewrite !str_app_assoc, str_app_cons, str_app_nil_l. cbn [scan_items]. rewrite H, skip_white by done. done.
Qed.
Lemma read_more f acc v t w w' u rest r : white w = true → white w' = true → starts_value u →
  scan_once constant f (t +:+ w +:+ String ","%char (w' +:+ u +:+ rest)) = inl (v, w +:+ String ","%char (w' +:+ u +:+ rest)) →
  scan_items constant f (v :: acc) (u +:+ rest) = r →
  scan_items constant (S f) acc ((t +:+ w +:+ "," +:+ w' +:+ u) +:+ rest) = r.
Proof.
  intros Hw Hw' Hu H <-. rewrite !str_app_assoc, str_app_cons, str_app_nil_l. cbn [scan_items].
  rewrite H, skip_white by done.
  transitivity (scan_items constant f (v :: acc) (skip_ws (w' +:+ u +:+ rest))); [done|].
  by rewrite skip_white, skip_starts.
Qed.

(** The key of one member, given what its value reads as. *)
Definition after_member (f : nat) (acc : dict) (k : string) (m : scan value) : scan value :=
  match m with
  | inr e => inr e
  | inl (v, r) =>
      match skip_ws r with
      | String "}"%char r => inl (VDict (dset acc k v), r)
      | String ","%char r => scan_members constant f (dset acc k v) (skip_ws r)
      | r => fail_at "Expecting ',' delimiter" r
      end
  end.
Lemma read_member f acc k q w1 w2 t : string_of k q → white w1 = true → white w2 = true → starts_value t →
  scan_members constant (S f) acc (q +:+ w1 +:+ ":" +:+ w2 +:+ t) = after_member f acc k (scan_once constant f t).
Proof.
  intros (u & Hu & ->) H1 H2 Ht.
  rewrite str_app_cons, str_app_assoc, str_app_cons, str_app_nil_l, (str_app_cons ":"), str_app_nil_l. cbn [scan_members].
  change (Ascii.eqb dquote dquote) with true. cbv iota.
  rewrite (scan_chars k u) by (done || rewrite length_str_app; lia). rewrite skip_white by done.
  transitivity (after_member f acc k (scan_once constant f (skip_ws (w2 +:+ t)))); [done|].
  rewrite skip_white by done.
  by replace (skip_ws t) with t by (rewrite <-(str_app_nil_r t); symmetry; by apply skip_starts).
Qed.

(** The decoder finds the value its text renders, and stops at its end. *)
Lemma scan_renders :
  (∀ v t, renders v t → ∀ f rest, ends_value rest = true → 2 * String.length t < f →
     scan_once constant f (t +:+ rest) = inl (v, rest)) ∧
  (∀ l t, renders_items l t → ∀ f acc rest, 2 * String.length t < f →
     scan_items constant f acc (t +:+ rest) = inl (VList (rev acc ++ l), rest)) ∧
  (∀ d t, renders_members d t → ∀ f acc rest, NoDup (keys acc ++ keys d) → 2 * String.length t < f →
     scan_members constant f acc (t +:+ rest) = inl (VDict (acc ++ d), rest)).
Proof.
  apply renders_mutind.
  - intros [|f] rest _ H; [lia|]. by destruct rest.
  - intros [|f] rest _ H; [lia|]. by destruct rest.
  - intros [|f] rest _ H; [lia|]. by destruct rest.
  - intros z [|f] rest Hr H; [lia|]. destruct (Z_str_shape z rest) as (c & t & E & Hc).
    rewrite <-(scan_int z rest Hr), E. by apply read_number.
  - intros s t Hs [|f] rest _ H; [lia|]. by apply read_string.
  - intros w Hw [|f] rest _ H; [lia|]. rewrite !str_app_assoc, str_app_cons, str_app_nil_l, read_list, skip_white by done. done.
  - intros l w t Hw Hl IH [|f] rest _ H; [lia|]. rewrite !str_app_assoc. rewrite !length_str_app in H. cbn in H.
    apply read_items; [done|by apply starts_app, (items_start Hl)|]. rewrite IH by lia. done.
  - intros w Hw [|f] rest _ H; [lia|]. rewrite !str_app_assoc, str_app_cons, str_app_nil_l, read_dict, skip_white by done. done.
  - intros d w t Hw Hn Hd IH [|f] rest _ H; [lia|]. rewrite !str_app_assoc. rewrite !length_str_app in H. cbn in H.
    apply read_members; [done|by apply starts_app, (members_start Hd)|]. by rewrite IH by (done || lia).
  - intros v t w Hv IH Hw [|f] acc rest H; [lia|]. rewrite !length_str_app in H. cbn in H.
    apply read_last; [done|]. apply IH; [by apply ends_white|lia].
  - intros v l t w w' u Hv IH Hw Hw' Hl IHl [|f] acc rest H; [lia|]. rewrite !length_str_app in H. cbn in H.
    apply (read_more _ _ v); [done|done|exact (items_start Hl)|apply IH; [by apply ends_white|lia]|].
    rewrite IHl by lia. cbn. by rewrite <-app_assoc.
  - intros k v q w1 w2 t w Hk H1 H2 Hv IH Hw [|f] acc rest Hn H; [lia|]. rewrite !length_str_app in H. cbn in H.
    rewrite !str_app_assoc. rewrite (read_member _ _ k) by (done || apply starts_app; exact (value_starts Hv)).
    rewrite str_app_cons, str_app_nil_l, IH by (lia || by apply ends_white). cbn [after_member].
    rewrite skip_white by done. transitivity (inl (VDict (dset acc k v), rest) : scan value); [done|].
    rewrite dset_notin; [done|]. apply NoDup_app in Hn as (_ & Hn & _). intros Hin. apply (Hn k Hin). apply list_elem_of_here.
  - intros k v d q w1 w2 t w w' u Hk H1 H2 Hv IH Hw Hw' Hd IHd [|f] acc rest Hn H; [lia|]. rewrite !length_str_app in H. cbn in H.
    rewrite !str_app_assoc. rewrite (read_member _ _ k) by (done || apply starts_app; exact (value_starts Hv)).
    rewrite str_app_cons, str_app_nil_l, IH by (lia || by apply ends_white). cbn [after_member].
    rewrite skip_white by done.
    transitivity (scan_members constant f (dset acc k v) (skip_ws (w' +:+ u +:+ rest))); [done|].
    rewrite skip_white, skip_starts by (done || exact (members_start Hd)).
    assert (Hk' : k ∉ keys acc).
    { apply NoDup_app in Hn as (_ & Hn & _). intros Hin. apply (Hn k Hin). apply list_elem_of_here. }
    rewrite dset_notin by done. rewrite IHd; [by rewrite <-app_assoc| |lia].
    unfold keys in *. rewrite map_app, <-app_assoc. exact Hn.
Qed.

(** Reading back: whatever the white space around it, a text of [v] is [v]. *)
Theorem loads_renders v t w w' :
  renders v t → white w = true → white w' = true → loads_text constant (w +:+ t +:+ w') = inl v.
Proof.
  intros Hv Hw Hw'. unfold loads_text. rewrite skip_white by done.
  rewrite skip_starts by exact (value_starts Hv).
  assert (He : ends_value w' = true) by (destruct w' as [|c w']; [done|]; cbn in *; by apply andb_true_iff in Hw' as [-> _]).
  rewrite (proj1 scan_renders v t Hv) by (done || rewrite !length_str_app; lia).
  rewrite <-(str_app_nil_r w'), skip_white by done. done.
Qed.
End read.

Corollary loads_str_renders v t w w' :
  renders v t → white w = true → white w' = true → loads_str (w +:+ t +:+ w') = inl v.
Proof.
  intros Hv Hw Hw'. unfold loads_str. rewrite (loads_renders _ v) by done.
  assert (∃ c u, w +:+ t +:+ w' = String c u ∧ byte_in 0 127 c = true) as (c & u & -> & Hc).
  { destruct w as [|c w].
    - rewrite str_app_nil_l. destruct (value_starts Hv) as (c & u & -> & _ & _ & _ & Hc). rewrite str_app_cons. eauto.
    - cbn in Hw. apply andb_true_iff in Hw as [Hc _]. rewrite str_app_cons. eexists _, _. split; [done|].
      revert Hc. by bits c. }
  assert (starts_with bom (String c u) = false) as ->; [|done].
  revert Hc. by bits c.
Qed.

(** ** What the encoders write *)

Lemma hex_value_digit n : n < 16 → hex_value (hex_digit n) = Some (N.of_nat n).
Proof. intros H. do 16 (destruct n as [|n]; [done|]). lia. Qed.

Lemma raw_chars s : chars_of s (concat_map_string json_escape s).
Proof.
  induction s as [|c s IH]; [constructor|]. cbn [concat_map_string].
  assert (json_escape c = String c "" ∧ unescaped c = true ∨
    (∃ e, json_escape c = String "\"%char (String e "") ∧ simple_escape e = Some c) ∨
    (∃ h n, json_escape c = "\u" +:+ h ∧ String.length h = 4 ∧ hex4 h = Some n ∧ in_range 55296 57343 n = false ∧
       utf8_encode n = String c "")) as H.
  { bits c; first [left; split; reflexivity|right; left; eexists; split; reflexivity
      |right; right; eexists (String _ (String _ (String _ (String _ "")))), _; split_and!; reflexivity]. }
  destruct H as [[-> H]|[(e & -> & H)|(h & n & -> & H1 & H2 & H3 & H4)]].
  - by apply chars_raw.
  - by apply chars_simple.
  - rewrite str_app_assoc. change (String c s) with (String c "" +:+ s). rewrite <-H4. by apply chars_unicode.
Qed.
Lemma json_string_of s : string_of s (json_string s).
Proof. eexists. split; [apply raw_chars|done]. Qed.

Lemma items_join l ts w w' : Forall2 renders l ts → l ≠ [] → white w = true → white w' = true →
  renders_items l (join ("," +:+ w) ts +:+ w' +:+ "]").
Proof.
  intros H. induction H as [|v t l ts Hv Hl IH]; [done|]. intros _ Hw Hw'.
  destruct Hl as [|v' t' l ts Hv' Hl]; [by apply items_last|]. cbn [join]. rewrite !str_app_assoc.
  apply (items_more v (v' :: l) t "" w); [done..|]. by apply IH.
Qed.
Lemma members_join (d : dict) ts w1 w w' :
  Forall2 (λ kv t, ∃ q u, string_of kv.1 q ∧ renders kv.2 u ∧ t = q +:+ ":" +:+ w1 +:+ u) d ts →
  d ≠ [] → white w1 = true → white w = true → white w' = true →
  renders_members d (join ("," +:+ w) ts +:+ w' +:+ "}").
Proof.
  intros H. induction H as [|[k v] t d ts (q & u & Hk & Hv & ->) Hd IH]; [done|]. intros _ H1 Hw Hw'.
  destruct Hd as [|kv' t' d ts Hv' Hd]; cbn [join].
  - rewrite !str_app_assoc. by apply (members_last k v q "" w1).
  - rewrite !str_app_assoc. apply (members_more k v _ q "" w1 u "" w); [done..|]. by apply IH.
Qed.

(** The values of a list and of an object, taken one by one. *)
Lemma forallb_Forall {A} (f : A → bool) l : forallb f l = true → Forall (λ x, f x = true) l.
Proof. rewrite forallb_forall, list.Forall_forall. intros H x Hx. by apply H, list_elem_of_In. Qed.
Lemma plain_list text l : plain text (VList l) = true → Forall (λ v, plain text v = true) l.
Proof. apply forallb_Forall. Qed.
Lemma plain_object text d :
  plain text (VDict d) = true → NoDup (keys d) ∧ Forall (λ kv, text kv.1 = true ∧ plain text kv.2 = true) d.
Proof.
  cbn [plain]. intros [Hn H]%andb_true_iff. apply bool_decide_eq_true in Hn. split; [done|].
  apply forallb_Forall in H. eapply Forall_impl; [exact H|]. intros kv. apply andb_true_iff.
Qed.

Lemma white_spaces n : white (spaces n) = true.
Proof. by induction n. Qed.
Lemma white_indent n : white (line_indent n) = true.
Proof. exact (white_spaces (2 * n)). Qed.

Lemma dumps_dict sep ksep (d : dict) :
  dumps sep ksep (VDict d) = "{" +:+ join sep (map (λ kv, json_string kv.1 +:+ ksep +:+ dumps sep ksep kv.2) d) +:+ "}".
Proof. cbn [dumps]. do 3 f_equal. induction d as [|[k x] d IH]; [done|]. cbn [map fst snd]. by f_equal. Qed.

(** Reading back what either encoder wrote, at one value. *)
Definition renders_by (ok : string → bool) (enc : value → string) (v : value) : Prop := plain ok v = true → renders v (enc v).
Lemma renders_all ok enc l :
  Forall (renders_by ok enc) l → Forall (λ v, plain ok v = true) l → Forall2 renders l (map enc l).
Proof.
  intros IH Hp. induction l as [|y l IHl]; [constructor|].
  apply Forall_cons in Hp as [Hy Hp]. apply Forall_cons in IH as [IHy IH]. constructor; [by apply IHy|by apply IHl].
Qed.
Lemma renders_all_members ok enc q (d : dict) w :
  (∀ s, ok s = true → string_of s (q s)) →
  Forall (λ kv, renders_by ok enc kv.2) d → Forall (λ kv, ok kv.1 = true ∧ plain ok kv.2 = true) d →
  Forall2 (λ kv t, ∃ k u, string_of kv.1 k ∧ renders kv.2 u ∧ t = k +:+ ":" +:+ w +:+ u) d
    (map (λ kv, q kv.1 +:+ ":" +:+ w +:+ enc kv.2) d).
Proof.
  intros Hq IH Hp. induction d as [|[k x] d IHd]; [constructor|].
  apply Forall_cons in Hp as [[Hk Hx] Hp]. apply Forall_cons in IH as [IHx IH]. constructor; [|by apply IHd].
  exists (q k), (enc x). split_and!; [by apply Hq|by apply IHx|done].
Qed.

(** [json.dumps(..., ensure_ascii=False)] with these separators. *)
Lemma dumps_renders w w' v : white w = true → white w' = true → plain (λ _, true) v = true →
  renders v (dumps ("," +:+ w) (":" +:+ w') v).
Proof.
  intros Hw Hw'. induction v as [|b|z|f|s|l IH|d IH] using value_ind'; intros Hp; try done.
  - constructor.
  - destruct b; constructor.
  - constructor.
  - constructor. apply json_string_of.
  - destruct l as [|x l]; [by apply (renders_empty_list "")|]. apply plain_list in Hp.
    apply (renders_list _ ""); [done|].
    apply (items_join _ (map (dumps ("," +:+ w) (":" +:+ w')) (x :: l)) w ""); [|done..].
    by apply (renders_all (λ _, true)).
  - destruct d as [|x d]; [by apply (renders_empty_dict "")|]. apply plain_object in Hp as [Hn Hp].
    rewrite dumps_dict. apply (renders_dict _ ""); [done|done|].
    apply (members_join _ _ w' w ""); [|done..]. by apply (renders_all_members (λ _, true)); [intros; apply json_string_of| |].
Qed.

(** *** Characters beyond ASCII *)

Lemma concat_cons c cs : concat_strings (c :: cs) = c +:+ concat_strings cs.
Proof. destruct cs; [symmetry; apply str_app_nil_r|done]. Qed.

Lemma concat_utf8_chars s : concat_strings (utf8_chars s) = s.
Proof.
  induction s as [|c s IH]; [done|]. cbn [utf8_chars].
  destruct (utf8_chars s) as [|[|d w] ws].
  - by rewrite <-IH.
  - by rewrite concat_cons, IH.
  - destruct (continues d); rewrite !concat_cons in *; rewrite str_app_cons, IH; done.
Qed.

Lemma hex_four a b c d : (a < 16 → b < 16 → c < 16 → d < 16 →
  hex4 (String (hex_of a) (String (hex_of b) (String (hex_of c) (String (hex_of d) "")))) =
  Some (((a * 16 + b) * 16 + c) * 16 + d))%N.
Proof.
  intros Ha Hb Hc Hd. cbn [hex4]. unfold hex_of. rewrite !hex_value_digit by lia. rewrite !N2Nat.id. done.
Qed.
Lemma unicode_escape_digits n : (n < 65536)%N →
  ∃ h, unicode_escape n = "\u" +:+ h ∧ String.length h = 4 ∧ hex4 h = Some n.
Proof.
  intros H. eexists. split; [reflexivity|]. split; [done|].
  rewrite hex_four; [|apply N.Div0.div_lt_upper_bound; lia|by apply N.mod_lt..]. f_equal.
  pose proof (N.div_mod n 16 ltac:(done)). pose proof (N.div_mod (n / 16) 16 ltac:(done)).
  pose proof (N.div_mod (n / 256) 16 ltac:(done)).
  rewrite N.Div0.div_div in *. change (16 * 16)%N with 256%N in *. change (256 * 16)%N with 4096%N in *. lia.
Qed.

Lemma printable_unescaped a :
  (32 <= N_of_ascii a)%N → N_of_ascii a ≠ 34%N → N_of_ascii a ≠ 92%N → unescaped a = true.
Proof. bits a; cbn; intros; first [done|lia]. Qed.

Lemma escape_chars c s t :
  scalar (char_point c) = true → utf8_encode (char_point c) = c → chars_of s t → chars_of (c +:+ s) (ascii_escape c +:+ t).
Proof.
  intros Hs Hc Ht. unfold ascii_escape. set (n := char_point c) in *. clearbody n. subst c.
  repeat match goal with |- context [if (n =? ?k)%N then _ else _] =>
    destruct (N.eqb_spec n k) as [->|]; [apply (chars_simple _ _ s t); [reflexivity|exact Ht]|] end.
  destruct ((32 <=? n) && (n <=? 126))%N eqn:Hp.
  { apply andb_true_iff in Hp as [H1%N.leb_le H2%N.leb_le]. unfold utf8_encode. rewrite (proj2 (N.ltb_lt n 128)) by lia.
    apply (chars_raw _ s t); [|done]. apply printable_unescaped; unfold byte; rewrite N_ascii_embedding by lia; lia. }
  unfold scalar in Hs. apply orb_true_iff in Hs. destruct (n <? 65536)%N eqn:Hb.
  - apply N.ltb_lt in Hb. destruct (unicode_escape_digits n Hb) as (h & -> & Hl & Hh). rewrite str_app_assoc.
    apply chars_unicode; [done|done| |done]. unfold in_range. apply andb_false_iff. rewrite N.leb_gt, N.leb_gt.
    destruct Hs as [Hs|Hs]; [apply N.ltb_lt in Hs; lia|]. apply andb_true_iff in Hs as [Hs%N.leb_le _]. lia.
  - apply N.ltb_ge in Hb. destruct Hs as [Hs|[_ Hs]%andb_true_iff]; apply N.ltb_lt in Hs; [lia|].
    pose proof (N.div_mod (n - 65536) 1024 ltac:(done)). pose proof (N.mod_lt (n - 65536) 1024 ltac:(done)).
    assert ((n - 65536) / 1024 < 1024)%N by (apply N.Div0.div_lt_upper_bound; lia).
    generalize dependent ((n - 65536) mod 1024)%N. generalize dependent ((n - 65536) / 1024)%N. intros q Hq r Hqr Hr.
    destruct (unicode_escape_digits (55296 + q)) as (h & -> & Hl & Hh); [lia|].
    destruct (unicode_escape_digits (56320 + r)) as (h' & -> & Hl' & Hh'); [lia|].
    rewrite !str_app_assoc. assert (n = 65536 + (55296 + q - 55296) * 1024 + (56320 + r - 56320))%N as -> by lia.
    apply chars_pair; try done; unfold in_range; apply andb_true_iff; rewrite !N.leb_le; lia.
Qed.

Lemma ascii_string_of s : is_text s = true → string_of s (ascii_string s).
Proof.
  intros Hs. eexists. split; [|done]. rewrite <-(concat_utf8_chars s) at 1. unfold is_text in Hs.
  apply forallb_Forall in Hs. induction Hs as [|c cs [Hc Hn]%andb_true_iff _ IH]; [constructor|]. cbn [map].
  rewrite !concat_cons. apply escape_chars; [done|by apply String.eqb_eq|done].
Qed.

(** [json.dumps(..., indent=2)]. *)
Lemma indented_renders v : ∀ level, plain is_text v = true → renders v (indented level v).
Proof.
  induction v as [|b|z|f|s|l IH|d IH] using value_ind'; intros level Hp; try done.
  - constructor.
  - destruct b; constructor.
  - constructor.
  - constructor. by apply ascii_string_of.
  - destruct l as [|x l]; [by apply (renders_empty_list "")|]. apply plain_list in Hp.
    apply renders_list; [apply white_indent|]. apply items_join; [|done|apply white_indent..].
    apply (renders_all is_text); [|done]. eapply Forall_impl; [exact IH|]. intros y Hy. exact (Hy (S level)).
  - destruct d as [|x d]; [by apply (renders_empty_dict "")|]. apply plain_object in Hp as [Hn Hp].
    apply renders_dict; [apply white_indent|done|].
    apply (members_join _ _ " "); [|done|done|apply white_indent..].
    apply (renders_all_members is_text _ _ _ " "); [apply ascii_string_of| |done].
    eapply Forall_impl; [exact IH|]. intros y Hy. exact (Hy (S level)).
Qed.

(** What [json.dumps(v, indent=2)] writes, a line end after it or not, reads back. *)
Theorem loads_indented v w : plain is_text v = true → white w = true → loads_str (dumps_indented v +:+ w) = inl v.
Proof. intros Hv Hw. apply (loads_str_renders v _ "" w); [by apply indented_renders|done..]. Qed.
Theorem loads_dumps w w' v :
  white w = true → white w' = true → plain (λ _, true) v = true → loads_str (dumps ("," +:+ w) (":" +:+ w') v) = inl v.
Proof.
  intros Hw Hw' Hv. rewrite <-(str_app_nil_r (dumps _ _ v)).
  apply (loads_str_renders v _ "" ""); [by apply dumps_renders|done..].
Qed.

(** ** The bytes of an indented document *)

(** Printable ASCII and line feeds: what every encoding has in common. *)
Definition clean_char (c : ascii) : bool := Ascii.eqb c newline || byte_in 32 126 c.
Fixpoint clean (s : string) : bool := match s with String c s => clean_char c && clean s | EmptyString => true end.

Lemma clean_app a b : clean (a +:+ b) = clean a && clean b.
Proof. induction a as [|c a IH]; [done|]. rewrite str_app_cons. cbn [clean]. by rewrite IH, andb_assoc. Qed.
Lemma clean_join sep l : clean sep = true → Forall (λ s, clean s = true) l → clean (join sep l) = true.
Proof.
  intros Hsep. induction 1 as [|x l Hx Hl IH]; [done|]. destruct Hl; [done|]. cbn [join] in *. by rewrite !clean_app, Hx, Hsep.
Qed.
Lemma clean_spaces n : clean (spaces n) = true.
Proof. by induction n. Qed.
Lemma clean_indent n : clean (line_indent n) = true.
Proof. exact (clean_spaces (2 * n)). Qed.

Lemma clean_pretty x : ∀ s, clean (pretty_N_go x s) = clean s.
Proof.
  induction (N.lt_wf_0 x) as [x _ IH]; intros s. destruct (decide (x = 0%N)) as [->|Hx]; [by rewrite pretty_N_go_0|].
  rewrite pretty_N_go_step, IH by (apply N.div_lt || idtac; lia). cbn [clean].
  assert (clean_char (pretty_N_char (x `mod` 10)) = true) as ->; [|done].
  unfold pretty_N_char. by repeat case_match.
Qed.
Lemma clean_int z : clean (Z_str z) = true.
Proof. destruct z as [|p|p]; [done|by rewrite Z_str_pos, clean_pretty|]. rewrite Z_str_neg. cbn [clean]. by rewrite clean_pretty. Qed.

Lemma clean_hex n : (n < 16)%N → clean_char (hex_of n) = true.
Proof.
  intros H. unfold hex_of. assert (Hn : (N.to_nat n < 16)%nat) by lia. revert Hn. generalize (N.to_nat n) as k. clear. intros k Hk.
  do 16 (destruct k as [|k]; [done|]). lia.
Qed.
Lemma clean_unicode n : (n < 65536)%N → clean (unicode_escape n) = true.
Proof.
  intros H. unfold unicode_escape. rewrite clean_app. cbn [clean].
  rewrite !clean_hex; [done|by apply N.mod_lt..|]. apply N.Div0.div_lt_upper_bound. lia.
Qed.
Lemma clean_escape c : scalar (char_point c) = true → utf8_encode (char_point c) = c → clean (ascii_escape c) = true.
Proof.
  intros Hs Hc. unfold ascii_escape. set (n := char_point c) in *. clearbody n. subst c.
  repeat match goal with |- context [if (n =? ?k)%N then _ else _] => destruct (N.eqb_spec n k) as [->|]; [done|] end.
  destruct ((32 <=? n) && (n <=? 126))%N eqn:Hp.
  { apply andb_true_iff in Hp as [H1%N.leb_le H2%N.leb_le]. unfold utf8_encode. rewrite (proj2 (N.ltb_lt n 128)) by lia.
    cbn [clean]. assert (clean_char (byte n) = true) as ->; [|done]. unfold clean_char, byte_in, byte.
    rewrite <-(N_ascii_embedding n) in H1, H2 by lia. revert H1 H2. generalize (ascii_of_N n) as a. intros a.
    bits a; cbn; intros; first [done|lia]. }
  destruct (n <? 65536)%N eqn:Hb; [by apply clean_unicode, N.ltb_lt|].
  apply N.ltb_ge in Hb. unfold scalar in Hs. apply orb_true_iff in Hs as [Hs|[_ Hs]%andb_true_iff]; apply N.ltb_lt in Hs; [lia|].
  rewrite clean_app, !clean_unicode; [done| |].
  - pose proof (N.mod_lt (n - 65536) 1024 ltac:(done)). lia.
  - assert ((n - 65536) / 1024 < 1024)%N by (apply N.Div0.div_lt_upper_bound; lia). lia.
Qed.
Lemma clean_string s : is_text s = true → clean (ascii_string s) = true.
Proof.
  intros Hs. unfold ascii_string. rewrite clean_app. cbn [clean]. unfold concat_strings.
  assert (clean (join "" (map ascii_escape (utf8_chars s))) = true) as ->; [|done].
  apply clean_join; [done|]. apply Forall_map. unfold is_text in Hs. apply forallb_Forall in Hs.
  eapply Forall_impl; [exact Hs|]. intros c [Hc Hn]%andb_true_iff. apply clean_escape; [done|by apply String.eqb_eq].
Qed.
Lemma clean_indented v : ∀ level, plain is_text v = true → clean (indented level v) = true.
Proof.
  induction v as [|b|z|f|s|l IH|d IH] using value_ind'; intros level Hp; try done.
  - by destruct b.
  - apply clean_int.
  - by apply clean_string.
  - destruct l as [|x l]; [done|]. apply plain_list in Hp. cbn [indented]. rewrite !clean_app, !clean_indent.
    rewrite clean_join; [done|by rewrite clean_app, clean_indent|]. apply Forall_map.
    eapply Forall_impl; [apply Forall_and; split; [exact IH|exact Hp]|]. intros y [Hy Hy']. by apply Hy.
  - destruct d as [|x d]; [done|]. apply plain_object in Hp as [_ Hp]. cbn [indented]. rewrite !clean_app, !clean_indent.
    rewrite clean_join; [done|by rewrite clean_app, clean_indent|]. apply Forall_map.
    eapply Forall_impl; [apply Forall_and; split; [exact IH|exact Hp]|]. intros kv (Hy & Hk & Hv).
    cbn. rewrite !clean_app, clean_string by done. cbn. by apply Hy.
Qed.

Lemma clean_valid s : clean s = true → utf8_fault false s = None.
Proof.
  unfold utf8_fault. assert (H : ∀ fuel pos, clean s = true → utf8_scan false fuel pos s = None); [|by apply H].
  induction s as [|c s IH]; intros [|fuel] pos; try done. cbn [clean]. intros [Hc Hs]%andb_true_iff.
  cbn [utf8_scan]. assert (utf8_lead false c = Some (0, 0, 0)) as -> by (revert Hc; by bits c).
  cbn. by apply IH.
Qed.
Lemma clean_newlines s : clean s = true → universal_newlines s = s.
Proof.
  induction s as [|c s IH]; [done|]. cbn [clean]. intros [Hc Hs]%andb_true_iff.
  assert (universal_newlines (String c s) = String c (universal_newlines s)) as ->; [|by rewrite IH].
  revert Hc. bits c; intros Hc; first [done|discriminate Hc].
Qed.

(** A file that holds an indented document reads back. *)
Corollary read_indented v : plain is_text v = true → read_text (Ok (dumps_indented v +:+ nl)) = Ok (dumps_indented v +:+ nl).
Proof.
  intros Hv. assert (Hc : clean (dumps_indented v +:+ nl) = true) by (rewrite clean_app; unfold dumps_indented; by rewrite clean_indented).
  unfold read_text. cbn [mbind res_bind]. rewrite clean_valid by done. by rewrite clean_newlines.
Qed.

(** Printable ASCII is text. *)
Lemma clean_text s : clean s = true → is_text s = true ∧ ∀ c, head (utf8_chars s) = Some c → ∃ a, c = String a "".
Proof.
  induction s as [|a s IH]; [done|]. cbn [clean]. intros [Ha Hs]%andb_true_iff. destruct (IH Hs) as [Ht Hh].
  assert (utf8_chars (String a s) = String a "" :: utf8_chars s) as E.
  { cbn [utf8_chars]. destruct (utf8_chars s) as [|[|d w] ws] eqn:Es; [done|done|].
    assert (continues d = false) as ->; [|done].
    destruct s as [|b s]; [done|]. cbn [clean] in Hs. apply andb_true_iff in Hs as [Hb _].
    assert (b = d) as <-; [|revert Hb; by bits b].
    pose proof (concat_utf8_chars (String b s)) as Hc. rewrite Es, concat_cons, str_app_cons in Hc. by injection Hc. }
  unfold is_text in *. rewrite E. cbn [forallb head]. split; [|intros c [= <-]; eauto].
  apply andb_true_iff. split; [|done]. revert Ha. by bits a.
Qed.
