(* ===== verification/PyFloat.v ===== *)
(** * Arithmetic of floats

    The operations on Python floats the modelled code uses, on the standard
    library's [SpecFloat]: [int / int] rounded once, [float(n)], sums from left
    to right as CPython 3.11 has them, means and medians.  Integers below [2^53]
    are floats exactly and add without rounding. *)

From stdpp Require Import base list strings sorting.
From Stdlib Require Import ZArith Lia SpecFloat.
From S2P Require Import Prelude.

Definition prec : Z := 53.
Definition emax : Z := 1024.
(** [float(n)] and [n / d] for a positive [d]. *)
Definition int_float (n : Z) : spec_float := binary_normalize prec emax n 0 false.
Definition int_ratio (n d : Z) : spec_float :=
  if (n =? 0)%Z then S754_zero false
  else let '(q, e, l) := SFdiv_core_binary prec emax (Z.abs n) 0 d 0 in binary_round_aux prec emax (n <? 0)%Z q e l.
Definition float_add : spec_float → spec_float → spec_float := SFadd prec emax.
Definition float_sub : spec_float → spec_float → spec_float := SFsub prec emax.
Definition float_mul : spec_float → spec_float → spec_float := SFmul prec emax.
Definition float_div : spec_float → spec_float → spec_float := SFdiv prec emax.
(** [sum(l)] of floats: the sum starts from the integer zero. *)
Definition float_sum (l : list spec_float) : spec_float := fold_left float_add l (S754_zero false).
Definition float_zero (f : spec_float) : bool := SFeqb f (S754_zero false).
Definition float_positive (f : spec_float) : bool := SFltb (S754_zero false) f.
Definition float_negative (f : spec_float) : bool := SFltb f (S754_zero false).

(** [float(n)] and [n / d], for a positive [d], as the interpreter gives them. *)
Definition float_of (n : Z) : res spec_float :=
  match int_float n with S754_infinity _ => Err (OverflowError "int too large to convert to float") | f => Ok f end.
Definition int_div (n d : Z) : res spec_float :=
  match int_ratio n d with S754_infinity _ => Err (OverflowError "integer division result too large for a float") | f => Ok f end.

(** [sorted(l)], for floats that are numbers. *)
Definition float_le (x y : spec_float) : Prop := SFleb x y = true.
#[export] Instance float_le_dec x y : Decision (float_le x y) := decide (_ = true).
Definition sorted_floats (l : list spec_float) : list spec_float := merge_sort float_le l.
(** [max(l)]: the first of the greatest. *)
Definition float_max (l : list spec_float) : option spec_float :=
  match l with [] => None | x :: l => Some (fold_left (λ m y, if SFltb m y then y else m) l x) end.

Definition mean (l : list spec_float) : option spec_float :=
  match l with [] => None | _ => Some (float_div (float_sum l) (int_float (Z.of_nat (length l)))) end.
Definition median (l : list spec_float) : option spec_float :=
  let ordered := sorted_floats l in
  let middle := length ordered / 2 in
  match l with
  | [] => None
  | _ => if Nat.odd (length ordered) then ordered !! middle
         else a ← ordered !! (middle - 1); b ← ordered !! middle; Some (float_div (float_add a b) (int_float 2))
  end.

(** ** Integers as floats *)

#[local] Open Scope Z_scope.

Lemma digits_log2 p : Zpos (digits2_pos p) = Z.log2 (Zpos p) + 1.
Proof.
  induction p as [p IH|p IH|]; cbn [digits2_pos]; [| |done]; rewrite Pos2Z.inj_succ, IH.
  - rewrite (Pos2Z.inj_xI p), Z.log2_succ_double; lia.
  - rewrite (Pos2Z.inj_xO p), Z.log2_double; lia.
Qed.
Lemma iter_xO d m : Zpos (Pos.iter xO m d) = Zpos m * 2 ^ Zpos d.
Proof.
  induction d as [|d IH] using Pos.peano_ind; [cbn; lia|].
  rewrite Pos.iter_succ, (Pos2Z.inj_xO (Pos.iter xO m d)), IH, Pos2Z.inj_succ, Z.pow_succ_r by lia. lia.
Qed.
Lemma shl_align_spec m e e' : let r := shl_align m e e' in
  Zpos (fst r) = Zpos m * 2 ^ Z.max 0 (e - e') ∧ snd r = Z.min e e'.
Proof.
  unfold shl_align. destruct (e' - e) as [|d|d] eqn:E; cbn.
  - rewrite Z.max_l by lia. cbn. lia.
  - rewrite Z.max_l by lia. cbn. lia.
  - rewrite iter_xO, Z.max_r by lia. split; [f_equal; f_equal; lia|lia].
Qed.

(** Shifting right drops trailing zeros without loss. *)
Lemma shr_1_double m : shr_1 {| shr_m := Zpos m~0; shr_r := false; shr_s := false |} = {| shr_m := Zpos m; shr_r := false; shr_s := false |}.
Proof. reflexivity. Qed.
Lemma shr_zeros m d : 
  iter_pos shr_1 d {| shr_m := Zpos (Pos.iter xO m d); shr_r := false; shr_s := false |} = {| shr_m := Zpos m; shr_r := false; shr_s := false |}.
Proof.
  assert (Hi : ∀ A (f : A → A) p x, iter_pos f p x = Pos.iter f x p).
  { intros A f p. induction p as [p IH|p IH|]; intros x; cbn [iter_pos Pos.iter]; rewrite ?IH; try done.
    f_equal. by rewrite <-Pos.iter_swap, <-Pos.iter_swap. }
  rewrite Hi. revert m. induction d as [|d IH] using Pos.peano_ind; intros m; [done|].
  rewrite (Pos.iter_succ _ _ xO), Pos.iter_succ_r, shr_1_double. apply IH.
Qed.

(** A mantissa of 53 bits is kept. *)
Lemma round_aux_exact s m e : Z.log2 (Zpos m) = 52 → -1074 <= e <= 971 → binary_round_aux prec emax s (Zpos m) e loc_Exact = S754_finite s m e.
Proof.
  intros Hm He. assert (Hd : fexp prec emax (Zdigits2 (Zpos m) + e) - e = 0).
  { unfold Zdigits2. rewrite digits_log2, Hm. unfold fexp, emin, prec, emax. lia. }
  unfold binary_round_aux, shr_fexp. rewrite Hd. cbn [shr shr_record_of_loc shr_m loc_of_shr_record round_nearest_even].
  rewrite Hd. cbn [shr shr_m shr_record_of_loc]. replace (e <=? emax - prec) with true; [done|]. symmetry. apply Z.leb_le. unfold emax, prec. lia.
Qed.

(** The float of [m * 2^e], for [m] below [2^53]: 53 bits of mantissa. *)
Definition scaled (s : bool) (m e : Z) : spec_float := S754_finite s (Z.to_pos (m * 2 ^ (52 - Z.log2 m))) (e - (52 - Z.log2 m)).
Lemma scaled_log2 m : 0 < m < 2 ^ 53 → 0 <= 52 - Z.log2 m ∧ 0 < m * 2 ^ (52 - Z.log2 m) ∧ Z.log2 (m * 2 ^ (52 - Z.log2 m)) = 52.
Proof.
  intros Hm. assert (Hl : Z.log2 m < 53) by (apply Z.log2_lt_pow2; lia). split; [lia|].
  pose proof (Z.pow_pos_nonneg 2 (52 - Z.log2 m) ltac:(lia) ltac:(lia)). split; [nia|]. rewrite Z.log2_mul_pow2; lia.
Qed.
Lemma round_scaled s m p n e : 0 < m < 2 ^ 53 → Zpos p = m * 2 ^ n → 0 <= n → -1000 <= e <= 900 →
  binary_round prec emax s p (e - n) = scaled s m e.
Proof.
  intros Hm Hp Hn He. destruct (scaled_log2 m Hm) as (Hk & Hpos & Hlog). pose proof (Z.log2_nonneg m) as Hl.
  remember (52 - Z.log2 m) as k eqn:Ek in *.
  assert (Hf : fexp prec emax (Zpos (digits2_pos p) + (e - n)) = e - k).
  { rewrite digits_log2, Hp, Z.log2_mul_pow2 by lia. unfold fexp, emin, prec, emax. lia. }
  unfold binary_round. rewrite Hf. unfold scaled. rewrite <-Ek. destruct (decide (n <= k)) as [Hle|Hle].
  - pose proof (shl_align_spec p (e - n) (e - k)) as [H1 H2]. destruct (shl_align p (e - n) (e - k)) as [mz ez]. cbn [fst snd] in *.
    rewrite H2, Z.min_r by lia. assert (Hz : Zpos mz = m * 2 ^ k).
    { rewrite H1, Hp, Z.max_r by lia. rewrite <-Z.mul_assoc, <-Z.pow_add_r by lia. do 2 f_equal. lia. }
    rewrite <-Hz. rewrite round_aux_exact; [|by rewrite Hz|lia]. done.
  - assert (Hs : shl_align p (e - n) (e - k) = (p, e - n)).
    { unfold shl_align. destruct (e - k - (e - n)) eqn:E; [done|done|lia]. }
    rewrite Hs. assert (Hq : p = Pos.iter xO (Z.to_pos (m * 2 ^ k)) (Z.to_pos (n - k))).
    { apply Pos2Z.inj. rewrite iter_xO, !Z2Pos.id by lia. rewrite Hp, <-Z.mul_assoc, <-Z.pow_add_r by lia. do 2 f_equal. lia. }
    unfold binary_round_aux, shr_fexp. assert (Hd : fexp prec emax (Zdigits2 (Zpos p) + (e - n)) - (e - n) = Zpos (Z.to_pos (n - k))).
    { unfold Zdigits2. rewrite Hf, Z2Pos.id by lia. lia. }
    rewrite Hd. cbn [shr shr_record_of_loc]. rewrite Hq, shr_zeros. cbn [shr_m loc_of_shr_record round_nearest_even].
    replace (e - n + Zpos (Z.to_pos (n - k))) with (e - k) by lia.
    assert (Hd' : fexp prec emax (Zdigits2 (Zpos (Z.to_pos (m * 2 ^ k))) + (e - k)) - (e - k) = 0).
    { unfold Zdigits2. rewrite digits_log2, Z2Pos.id by lia. rewrite Hlog. unfold fexp, emin, prec, emax. lia. }
    rewrite Hd'. cbn [shr shr_m]. replace (e - k <=? emax - prec) with true; [done|]. symmetry. apply Z.leb_le. unfold emax, prec. lia.
Qed.
Lemma normalize_scaled z n : Z.abs z < 2 ^ 53 → 0 <= n → binary_normalize prec emax (z * 2 ^ n) (- n) false = int_float z.
Proof.
  intros Hz Hn. pose proof (Z.pow_pos_nonneg 2 n ltac:(lia) Hn) as Hp. unfold int_float.
  assert (Hr : ∀ s p q m, 0 < m < 2 ^ 53 → Zpos p = m * 2 ^ n → Zpos q = m → binary_round prec emax s p (- n) = binary_round prec emax s q 0).
  { intros s p q m Hm H1 H2. transitivity (scaled s m 0); [exact (round_scaled s m p n 0 Hm H1 Hn ltac:(lia))|symmetry].
    refine (round_scaled s m q 0 0 Hm _ ltac:(lia) ltac:(lia)). by rewrite Z.pow_0_r, Z.mul_1_r. }
  destruct z as [|z|z]; [done| |]; cbn [binary_normalize].
  - destruct (Zpos z * 2 ^ n) as [|p|p] eqn:E; [lia| |lia]. cbn [binary_normalize]. apply (Hr false p z (Zpos z)); lia.
  - destruct (Zneg z * 2 ^ n) as [|p|p] eqn:E; [lia|lia|]. cbn [binary_normalize]. apply (Hr true p z (Zpos z)); lia.
Qed.

Lemma int_float_spec z : z ≠ 0 → Z.abs z < 2 ^ 53 → int_float z = scaled (z <? 0) (Z.abs z) 0.
Proof.
  intros H0 Hz. unfold int_float. destruct z as [|z|z]; [done| |]; cbn [binary_normalize].
  - refine (round_scaled false (Zpos z) z 0 0 _ _ _ _); rewrite ?Z.pow_0_r; lia.
  - refine (round_scaled true (Zpos z) z 0 0 _ _ _ _); rewrite ?Z.pow_0_r; lia.
Qed.

(** Small integers add as integers. *)
Lemma add_int_float a b : Z.abs a < 2 ^ 53 → Z.abs b < 2 ^ 53 → Z.abs (a + b) < 2 ^ 53 →
  float_add (int_float a) (int_float b) = int_float (a + b).
Proof.
  intros Ha Hb Hab. destruct (decide (a = 0)) as [->|Ha0].
  { change (int_float 0) with (S754_zero false). rewrite Z.add_0_l. unfold float_add, SFadd.
    destruct (decide (b = 0)) as [->|Hb0]; [done|]. by rewrite int_float_spec. }
  destruct (decide (b = 0)) as [->|Hb0].
  { change (int_float 0) with (S754_zero false). rewrite Z.add_0_r. rewrite (int_float_spec a) by done. done. }
  rewrite (int_float_spec a), (int_float_spec b) by done. unfold float_add, scaled, SFadd.
  destruct (scaled_log2 (Z.abs a) ltac:(lia)) as (Hka & Hpa & _). destruct (scaled_log2 (Z.abs b) ltac:(lia)) as (Hkb & Hpb & _).
  set (ka := 52 - Z.log2 (Z.abs a)) in *. set (kb := 52 - Z.log2 (Z.abs b)) in *. set (K := Z.max ka kb).
  replace (Z.min (0 - ka) (0 - kb)) with (- K) by lia.
  assert (Hs : ∀ m k, 0 <= k <= K → 0 < m * 2 ^ k → Zpos (fst (shl_align (Z.to_pos (m * 2 ^ k)) (0 - k) (- K))) = m * 2 ^ K).
  { intros m k Hk Hm. destruct (shl_align_spec (Z.to_pos (m * 2 ^ k)) (0 - k) (- K)) as [H1 _]. rewrite H1, Z2Pos.id by done.
    rewrite <-Z.mul_assoc, <-Z.pow_add_r by lia. do 2 f_equal. lia. }
  rewrite !Hs by lia. rewrite <-(normalize_scaled (a + b) K) by lia. f_equal. unfold cond_Zopp.
  destruct (Z.ltb_spec a 0), (Z.ltb_spec b 0); lia.
Qed.
Lemma int_float_sum l : Forall (λ z, Z.abs z <= 1) l → Z.of_nat (length l) < 2 ^ 53 →
  float_sum (map int_float l) = int_float (fold_left Z.add l 0).
Proof.
  intros Hl Hn. unfold float_sum. change (S754_zero false) with (int_float 0).
  assert (H : ∀ acc, Z.abs acc + Z.of_nat (length l) < 2 ^ 53 → fold_left float_add (map int_float l) (int_float acc) = int_float (fold_left Z.add l acc)).
  { clear Hn. induction Hl as [|z l Hz Hl IH]; intros acc Hacc; [done|]. cbn [map fold_left length] in *.
    rewrite add_int_float by lia. apply IH. lia. }
  apply H. cbn. lia.
Qed.

(** The sign of a small integer. *)
Lemma int_float_positive z : Z.abs z < 2 ^ 53 → float_positive (int_float z) = (0 <? z).
Proof.
  intros Hz. destruct (decide (z = 0)) as [->|H0]; [done|]. rewrite int_float_spec by done. unfold scaled, float_positive, SFltb, SFcompare.
  destruct (Z.ltb_spec z 0), (Z.ltb_spec 0 z); try lia; done.
Qed.

(** *** Quotients of small integers *)

Lemma shr_1_positive m l : 1 <= Z.log2 m → shr_m (shr_1 (shr_record_of_loc m l)) = m / 2.
Proof.
  intros Hm. assert (0 < m) by (destruct (Z.le_gt_cases m 0); [rewrite Z.log2_nonpos in Hm; lia|done]).
  rewrite <-Z.div2_div. destruct l as [|[]], m as [|[p|p|]|p]; cbn in *; try lia; done.
Qed.
Lemma round_up_log2 m l : 0 < m → Z.log2 m <= Z.log2 (round_nearest_even m l) <= Z.log2 m + 1 ∧ 0 < round_nearest_even m l.
Proof.
  intros Hm. assert (H : round_nearest_even m l = m ∨ round_nearest_even m l = m + 1) by (unfold round_nearest_even; repeat case_match; auto).
  destruct H as [-> | ->]; [lia|]. pose proof (Z.log2_succ_le m). pose proof (Z.log2_le_mono m (m + 1) ltac:(lia)). rewrite Z.add_1_r in *. lia.
Qed.
(** Shifting to 53 bits keeps a mantissa of 53 or 54. *)
Lemma shr_fexp_near m e l : 52 <= Z.log2 m <= 53 → -1000 <= e <= 900 →
  ∃ r e', shr_fexp prec emax m e l = (r, e') ∧ 0 < shr_m r ∧ Z.log2 (shr_m r) = 52 ∧ e <= e' <= e + 1.
Proof.
  intros Hm He. assert (Hpos : 0 < m) by (destruct (Z.le_gt_cases m 0); [rewrite Z.log2_nonpos in Hm; lia|done]).
  assert (Hd : fexp prec emax (Zdigits2 m + e) - e = Z.log2 m - 52).
  { destruct m as [|p|p]; [lia| |lia]. unfold Zdigits2. rewrite digits_log2. unfold fexp, emin, prec, emax. lia. }
  unfold shr_fexp. rewrite Hd. assert (Hc : Z.log2 m = 52 ∨ Z.log2 m = 53) by lia. destruct Hc as [Hc|Hc]; rewrite Hc.
  - eexists _, _. split; [done|]. assert (shr_m (shr_record_of_loc m l) = m) as -> by (by destruct l as [|[]]). lia.
  - exists (shr_1 (shr_record_of_loc m l)), (e + 1). split; [done|]. rewrite shr_1_positive by lia.
    assert (Hl : Z.log2 (m / 2) = 52).
    { rewrite <-Z.div2_div, Z.div2_spec, Z.log2_shiftr by lia. lia. }
    split; [|lia]. assert (2 <= m) by (destruct (Z.le_gt_cases 2 m); [done|]; assert (m = 1) by lia; subst; done).
    pose proof (Z.div_le_lower_bound m 2 1 ltac:(lia) ltac:(lia)). lia.
Qed.
Lemma round_aux_finite s m e l : 52 <= Z.log2 m <= 53 → -900 <= e <= 800 →
  ∃ p e', binary_round_aux prec emax s m e l = S754_finite s p e'.
Proof.
  intros Hm He. unfold binary_round_aux. destruct (shr_fexp_near m e l Hm ltac:(lia)) as (r & e1 & -> & Hr & Hr2 & He1).
  destruct (round_up_log2 (shr_m r) (loc_of_shr_record r) Hr) as [H1 H2].
  destruct (shr_fexp_near (round_nearest_even (shr_m r) (loc_of_shr_record r)) e1 loc_Exact) as (r2 & e2 & -> & Hr' & _ & He2); [rewrite Hr2 in H1; exact H1|lia|].
  destruct (shr_m r2) as [|p|p]; [lia| |lia]. replace (e2 <=? emax - prec) with true; [by eauto|]. symmetry. apply Z.leb_le. unfold emax, prec. lia.
Qed.
Lemma div_int_float a n : a ≠ 0 → Z.abs a < 2 ^ 53 → 0 < n < 2 ^ 53 →
  ∃ p e, float_div (int_float a) (int_float n) = S754_finite (a <? 0) p e.
Proof.
  intros Ha0 Ha Hn. rewrite (int_float_spec a), (int_float_spec n) by lia. unfold float_div, scaled, SFdiv.
  destruct (scaled_log2 (Z.abs a) ltac:(lia)) as (Hka & Hpa & Hla). destruct (scaled_log2 (Z.abs n) ltac:(lia)) as (Hkn & Hpn & Hln).
  pose proof (Z.log2_nonneg (Z.abs a)). pose proof (Z.log2_nonneg (Z.abs n)).
  set (ma := Z.abs a * 2 ^ (52 - Z.log2 (Z.abs a))) in *. set (mn := Z.abs n * 2 ^ (52 - Z.log2 (Z.abs n))) in *.
  set (ea := 0 - (52 - Z.log2 (Z.abs a))) in *. set (en := 0 - (52 - Z.log2 (Z.abs n))) in *.
  replace (n <? 0) with false by (symmetry; apply Z.ltb_ge; lia). rewrite xorb_false_r.
  unfold SFdiv_core_binary, Zdigits2. rewrite !digits_log2, !Z2Pos.id, Hla, Hln by lia.
  assert (-52 <= ea <= 0) by lia. assert (-52 <= en <= 0) by lia.
  replace (Z.min (fexp prec emax (52 + 1 + ea - (52 + 1 + en))) (ea - en)) with (ea - en - 53) by (unfold fexp, emin, prec, emax; lia).
  replace (ea - en - (ea - en - 53)) with 53 by lia. cbn [Z.sub].
  rewrite Z.shiftl_mul_pow2 by lia. pose proof (Z_div_mod (ma * 2 ^ 53) mn ltac:(lia)) as Hdiv.
  destruct (Z.div_eucl (ma * 2 ^ 53) mn) as [q r]. destruct Hdiv as [Hq Hr].
  pose proof (Z.log2_spec ma Hpa) as Hsa. pose proof (Z.log2_spec mn Hpn) as Hsn. rewrite Hla in Hsa. rewrite Hln in Hsn.
  change (Z.succ 52) with 53 in *. change (2 ^ 52) with 4503599627370496 in *. change (2 ^ 53) with 9007199254740992 in *.
  assert (Hlow : 4503599627370496 <= q) by nia. assert (Hhigh : q < 2 * 9007199254740992) by nia.
  eapply (round_aux_finite (a <? 0) q); [|lia]. split.
  - apply (Z.log2_le_mono 4503599627370496 q) in Hlow. exact Hlow.
  - assert (Z.log2 q < 54); [apply Z.log2_lt_pow2; lia|lia].
Qed.
(** The sign of a quotient is the sign of its numerator. *)
Lemma div_int_float_sign a n : Z.abs a < 2 ^ 53 → 0 < n < 2 ^ 53 → let q := float_div (int_float a) (int_float n) in
  float_positive q = (0 <? a) ∧ float_negative q = (a <? 0) ∧ float_zero q = (a =? 0).
Proof.
  intros Ha Hn. destruct (decide (a = 0)) as [->|Ha0].
  - rewrite (int_float_spec n) by lia. by replace (n <? 0) with false by lia.
  - destruct (div_int_float a n Ha0 Ha Hn) as (p & e & ->). unfold float_positive, float_negative, float_zero, SFltb, SFeqb, SFcompare.
    destruct (Z.ltb_spec a 0), (Z.ltb_spec 0 a), (Z.eqb_spec a 0); try lia; done.
Qed.
(** A multiple divided by its factor. *)
Lemma div_self_float n : 0 < n < 2 ^ 53 → float_div (int_float n) (int_float n) = int_float 1.
Proof.
  intros Hn. rewrite (int_float_spec n) by lia. destruct (scaled_log2 (Z.abs n) ltac:(lia)) as (Hk & Hp & Hl).
  pose proof (Z.log2_nonneg (Z.abs n)). unfold float_div, scaled, SFdiv.
  set (m := Z.abs n * 2 ^ (52 - Z.log2 (Z.abs n))) in *. set (e := 0 - (52 - Z.log2 (Z.abs n))) in *. assert (-52 <= e <= 0) by lia.
  rewrite xorb_nilpotent. unfold SFdiv_core_binary, Zdigits2. rewrite !digits_log2, !Z2Pos.id, Hl by lia.
  replace (Z.min (fexp prec emax (52 + 1 + e - (52 + 1 + e))) (e - e)) with (-53) by (rewrite !Z.sub_diag; reflexivity).
  rewrite Z.sub_diag. cbn [Z.sub]. rewrite Z.shiftl_mul_pow2 by lia. change (0 - -53) with 53.
  pose proof (Z_div_mod (m * 2 ^ 53) m ltac:(lia)) as Hd. destruct (Z.div_eucl (m * 2 ^ 53) m) as [q r]. destruct Hd as [Hq Hr].
  assert (q = 2 ^ 53) as -> by nia. assert (r = 0) as -> by nia.
  assert (new_location m 0 = loc_Exact) as ->; [|reflexivity].
  unfold new_location, new_location_even, new_location_odd. by destruct (Z.even m).
Qed.
(** Minus one, nothing or one, as many times as it is divided by. *)
Lemma div_units a n : a = -n ∨ a = 0 ∨ a = n → 0 < n < 2 ^ 53 → float_div (int_float a) (int_float n) = int_float (Z.sgn a).
Proof.
  intros [->|[->| ->]] Hn.
  - pose proof (div_self_float n Hn) as H. rewrite (int_float_spec (-n)), (int_float_spec n) in * by lia.
    replace (- n <? 0) with true by lia. replace (n <? 0) with false in * by lia. rewrite Z.abs_opp in *.
    replace (Z.sgn (- n)) with (-1) by (destruct n; cbn; lia). unfold float_div, scaled, SFdiv in *. cbn [xorb] in *.
    change (int_float 1) with (S754_finite false 4503599627370496 (-52)) in H. change (int_float (-1)) with (S754_finite true 4503599627370496 (-52)).
    destruct (SFdiv_core_binary _ _ _ _ _ _) as [[q e] l]. unfold binary_round_aux in *. destruct (shr_fexp _ _ q e l) as [r e'].
    destruct (shr_fexp _ _ (round_nearest_even _ _) e' loc_Exact) as [r' e'']. destruct (shr_m r'); [done| |done].
    destruct (e'' <=? emax - prec); [|done]. injection H as -> ->. done.
  - rewrite (int_float_spec n) by lia. by replace (n <? 0) with false by lia.
  - rewrite div_self_float by done. replace (Z.sgn n) with 1 by (destruct n; cbn; lia). done.
Qed.
