(* ===== verification/PyFormat.v ===== *)
(** * Formatting of numbers

    The format specifications of Python's f-strings that the tables use: widths,
    thousands, and [.Nf] with its variants, where a float is written to the
    nearest decimal of its exact value, halves to the even digit. *)

From Stdlib Require Import Ascii.
From stdpp Require Import base list strings pretty.
From Stdlib Require Import ZArith Lia SpecFloat.
From S2P Require Import Prelude PyValue PyText PyFloat.

(** ** Widths and thousands *)

(** [f"{s:>w}"], [f"{s:<w}"] and [f"{n:,}"]. *)
Fixpoint spaces (n : nat) : string := match n with 0 => "" | S n => String " " (spaces n) end.
Definition right_in (w : nat) (s : string) : string := spaces (w - String.length s) +:+ s.
Definition left_in (w : nat) (s : string) : string := s +:+ spaces (w - String.length s).
Fixpoint in_threes (digits : list ascii) : list ascii :=
  match digits with
  | a :: b :: c :: rest => match rest with [] => digits | _ => a :: b :: c :: ","%char :: in_threes rest end
  | _ => digits
  end.
Definition magnitude (z : Z) : string :=
  String.string_of_list_ascii (reverse (in_threes (reverse (String.list_ascii_of_string (Z_str (Z.abs z)))))).
Definition thousands (z : Z) : string := (if (z <? 0)%Z then "-" else "") +:+ magnitude z.

(** ** Fixed decimals *)

(** [n / d] to the nearest integer, for a positive [d]. *)
Definition half_even (n d : Z) : Z :=
  let q := (n / d)%Z in let twice := (2 * (n mod d))%Z in
  if (twice <? d)%Z then q else if (d <? twice)%Z then (q + 1)%Z else if Z.even q then q else (q + 1)%Z.
(** [m * 2 ^ e] in units of the last of [digits] decimals. *)
Definition in_decimals (digits : nat) (m e : Z) : Z :=
  let p := (10 ^ Z.of_nat digits)%Z in if (0 <=? e)%Z then (m * 2 ^ e * p)%Z else half_even (m * p) (2 ^ (- e)).
Fixpoint leading_zeros (n : nat) : string := match n with 0 => "" | S n => String "0" (leading_zeros n) end.
Definition zero_padded (w : nat) (s : string) : string := leading_zeros (w - String.length s) +:+ s.
(** [n] units of the last of [digits] decimals; [show] writes the whole part. *)
Definition decimals (show : Z → string) (digits : nat) (n : Z) : string :=
  let p := (10 ^ Z.of_nat digits)%Z in
  match digits with O => show n | _ => show (n / p)%Z +:+ "." +:+ zero_padded digits (Z_str (n mod p)) end.
(** The sign and the rest of a formatted float; a negative zero keeps its sign. *)
Definition formatted (plus : string) (show : Z → string) (digits : nat) (f : spec_float) : string :=
  let sign (s : bool) := if s then "-" else plus in
  match f with
  | S754_zero s => sign s +:+ decimals show digits 0
  | S754_finite s m e => sign s +:+ decimals show digits (in_decimals digits (Zpos m) e)
  | S754_infinity s => sign s +:+ "inf"
  | S754_nan => plus +:+ "nan"
  end.
(** [f"{f:.Nf}"], [f"{f:,.Nf}"] and [f"{f:+.Nf}"]. *)
Definition fixed : nat → spec_float → string := formatted "" Z_str.
Definition grouped_fixed : nat → spec_float → string := formatted "" magnitude.
Definition signed_fixed : nat → spec_float → string := formatted "+" Z_str.
(** [f"{n:,.Nf}"] of an integer, which is made a float first. *)
Definition grouped_int (digits : nat) (n : Z) : res string := f ← float_of n; Ok (grouped_fixed digits f).

(** ** Quotients *)

(** [n / d] of integers. *)
Definition true_div (n d : Z) : res spec_float :=
  if (d =? 0)%Z then Err (ZeroDivisionError "division by zero")
  else if (d <? 0)%Z then f ← int_div n (- d); Ok (SFopp f) else int_div n d.
(** [x / y]. *)
Definition as_float (x : num) : res spec_float := match x with NInt n => float_of n | NFloat f => Ok f end.
Definition quotient (x y : num) : res spec_float :=
  match x, y with
  | NInt n, NInt d => true_div n d
  | _, _ => a ← as_float x; b ← as_float y; if float_zero b then Err (ZeroDivisionError "float division by zero") else Ok (float_div a b)
  end.

(** ** The decimals are the nearest *)

Lemma half_even_nearest n d : (0 < d)%Z →
  (Z.abs (2 * (half_even n d * d - n)) <= d)%Z ∧ (Z.abs (2 * (half_even n d * d - n)) = d → Z.even (half_even n d) = true)%Z.
Proof.
  intros Hd. unfold half_even. pose proof (Z.div_mod n d ltac:(lia)) as E. pose proof (Z.mod_pos_bound n d Hd) as B.
  destruct (2 * (n mod d) <? d)%Z eqn:E1; [apply Z.ltb_lt in E1; split; lia|]. apply Z.ltb_ge in E1.
  destruct (d <? 2 * (n mod d))%Z eqn:E2; [apply Z.ltb_lt in E2; split; nia|]. apply Z.ltb_ge in E2.
  destruct (Z.even (n / d)) eqn:E3; split; try nia; [done|].
  intros _. rewrite Z.even_add, E3. done.
Qed.
(** A finite float is written as a whole number of units of the last decimal: the
    number nearest to its exact value, and of two as near the even one. *)
Lemma decimals_nearest digits m e :
  let n := in_decimals digits m e in
  if (0 <=? e)%Z then n = (m * 2 ^ e * 10 ^ Z.of_nat digits)%Z
  else (Z.abs (2 * (n * 2 ^ (- e) - m * 10 ^ Z.of_nat digits)) <= 2 ^ (- e))%Z
       ∧ (Z.abs (2 * (n * 2 ^ (- e) - m * 10 ^ Z.of_nat digits)) = 2 ^ (- e) → Z.even n = true)%Z.
Proof.
  intros n. subst n. unfold in_decimals. destruct (0 <=? e)%Z eqn:E; [done|]. apply Z.leb_gt in E.
  apply half_even_nearest. apply Z.pow_pos_nonneg; lia.
Qed.

Example thousands_grouped : map thousands [0; 7; 999; 1000; 1234567; -45000]%Z = ["0"; "7"; "999"; "1,000"; "1,234,567"; "-45,000"].
Proof. vm_compute. reflexivity. Qed.
Example decimals_shown :
  (fixed 2 (int_ratio 1 8), fixed 2 (int_ratio 3 8), fixed 0 (int_ratio 5 2), fixed 4 (int_ratio 7 32), signed_fixed 2 (int_ratio (-1) 1000),
   signed_fixed 2 (int_ratio 0 7), grouped_fixed 1 (int_ratio 12345678 10), fixed 2 (int_ratio 1 10), fixed 3 (int_ratio 12999 1000))
  = ("0.12", "0.38", "2", "0.2188", "-0.00", "+0.00", "1,234,567.8", "0.10", "12.999").
Proof. vm_compute. reflexivity. Qed.
