(* ===== verification/Shlex.v ===== *)
(** * The shell's words

    [shlex.quote], [shlex.join] and [shlex.split] of the standard library, as
    src/evals/cross_harness uses them: POSIX quoting, with comments. *)

From Stdlib Require Import Ascii.
From stdpp Require Import base list strings.
From Stdlib Require Import Lia.
From S2P Require Import Prelude PyValue PyText PyJson.

(** ** Quoting *)

(** [shlex.quote] and [shlex.join]. *)
Definition safe_char (c : ascii) : bool :=
  byte_in 48 57 c || byte_in 65 90 c || byte_in 97 122 c || existsb (Ascii.eqb c) ["_"; "@"; "%"; "+"; "="; ":"; ","; "."; "/"; "-"]%char.
Fixpoint all_chars (f : ascii → bool) (s : string) : bool :=
  match s with String c s => f c && all_chars f s | EmptyString => true end.
Definition quote_char (c : ascii) : string :=
  if Ascii.eqb c "'"%char then "'" +:+ String dquote "'" +:+ String dquote "'" else String c "".
Definition shell_quote (s : string) : string :=
  if String.eqb s "" then "''" else if all_chars safe_char s then s else "'" +:+ concat_map_string quote_char s +:+ "'".
Definition shell_join (l : list string) : string := join " " (map shell_quote l).

(** ** Splitting *)

(** [self.state] of the lexer, with [escapedstate]: between words, in a word,
    in quotes, after a backslash, in a comment. *)
Inductive lex_state : Type := Between | InWord | InQuote (q : ascii) | AfterEscape (in_quotes : bool) | InComment.
Definition lex_space (c : ascii) : bool := existsb (Ascii.eqb c) [" "; "009"; "010"; "013"]%char.
Definition lex_quote (c : ascii) : bool := Ascii.eqb c "'"%char || Ascii.eqb c dquote.
(** A word is given out unless it is empty and held no quotes. *)
Definition emit (token : string) (quoted : bool) (l : list string) : list string :=
  if String.eqb token "" && negb quoted then l else token :: l.
(** The words of the rest of a text, given the word so far and whether it held quotes. *)
Fixpoint lex (st : lex_state) (token : string) (quoted : bool) (s : string) : res (list string) :=
  match s with
  | EmptyString =>
      match st with
      | Between | InComment => Ok []
      | InWord => Ok (emit token quoted [])
      | InQuote _ => Err (ValueError "No closing quotation")
      | AfterEscape _ => Err (ValueError "No escaped character")
      end
  | String c s =>
      match st with
      | Between =>
          if lex_space c then lex Between "" false s
          else if Ascii.eqb c "#"%char then lex InComment "" false s
          else if Ascii.eqb c "\"%char then lex (AfterEscape false) "" false s
          else if lex_quote c then lex (InQuote c) "" false s
          else lex InWord (String c "") false s
      | InComment => lex (if Ascii.eqb c newline then Between else InComment) "" false s
      | InWord =>
          if lex_space c then l ← lex Between "" false s; Ok (emit token quoted l)
          else if Ascii.eqb c "#"%char then l ← lex InComment "" false s; Ok (emit token quoted l)
          else if lex_quote c then lex (InQuote c) token quoted s
          else if Ascii.eqb c "\"%char then lex (AfterEscape false) token quoted s
          else lex InWord (token +:+ String c "") quoted s
      | InQuote q =>
          if Ascii.eqb c q then lex InWord token true s
          else if Ascii.eqb c "\"%char && Ascii.eqb q dquote then lex (AfterEscape true) token true s
          else lex (InQuote q) (token +:+ String c "") true s
      | AfterEscape in_quotes =>
          let kept := if in_quotes && negb (Ascii.eqb c "\"%char) && negb (Ascii.eqb c dquote) then "\" else "" in
          lex (if in_quotes then InQuote dquote else InWord) (token +:+ kept +:+ String c "") quoted s
      end
  end.
(** [shlex.split(s, comments=True)]. *)
Definition shell_split (s : string) : res (list string) := lex Between "" false s.

Example split_quirks :
  shell_split "a 'b c'd \e # f" = Ok ["a"; "b cd"; "e"] ∧ shell_split "a#b" = Ok ["a"] ∧ shell_split "'' x" = Ok [""; "x"] ∧
  shell_split "it's" = Err (ValueError "No closing quotation") ∧ shell_split "a\" = Err (ValueError "No escaped character").
Proof. repeat split; vm_compute; reflexivity. Qed.

(** ** Quoting and splitting *)

Lemma safe_plain c : safe_char c = true → lex_space c = false ∧ Ascii.eqb c "#"%char = false ∧ lex_quote c = false ∧ Ascii.eqb c "\"%char = false.
Proof. intros H. destruct c as [[] [] [] [] [] [] [] []]; vm_compute in H; try discriminate H; by vm_compute. Qed.
Lemma lex_word w t r : all_chars safe_char w = true → lex InWord t false (w +:+ r) = lex InWord (t +:+ w) false r.
Proof.
  revert t. induction w as [|c w IH]; intros t H; [by rewrite str_app_nil_r|]. cbn [all_chars] in H. apply andb_true_iff in H as [Hc Hw].
  rewrite str_app_cons. cbn [lex]. apply safe_plain in Hc as (-> & -> & -> & ->). rewrite IH by done.
  by rewrite str_app_assoc, str_app_cons.
Qed.
Lemma lex_quoted w t r : lex (InQuote "'"%char) t true (concat_map_string quote_char w +:+ "'" +:+ r) = lex InWord (t +:+ w) true r.
Proof.
  revert t. induction w as [|c w IH]; intros t; [by rewrite str_app_nil_r|].
  change (concat_map_string quote_char (String c w)) with (quote_char c +:+ concat_map_string quote_char w). rewrite str_app_assoc. unfold quote_char at 1.
  destruct (Ascii.eqb_spec c "'"%char) as [->|Hne].
  - change (lex (InQuote "'"%char) (t +:+ "'") true (concat_map_string quote_char w +:+ "'" +:+ r) = lex InWord (t +:+ String "'" w) true r).
    rewrite IH. by rewrite str_app_assoc, str_app_cons.
  - rewrite str_app_cons. cbn [lex]. rewrite (proj2 (Ascii.eqb_neq _ _) Hne). change (Ascii.eqb "'"%char dquote) with false. rewrite andb_false_r.
    change ("" +:+ concat_map_string quote_char w +:+ "'" +:+ r) with (concat_map_string quote_char w +:+ "'" +:+ r).
    rewrite IH. by rewrite str_app_assoc, str_app_cons.
Qed.
(** A quote was opened: the word held quotes. *)
Lemma lex_opened q t b b' s : lex (InQuote q) t b s = lex (InQuote q) t b' s.
Proof. by destruct s. Qed.
Lemma emit_word w q l : (w = "" → q = true) → emit w q l = w :: l.
Proof. intros H. unfold emit. destruct (String.eqb_spec w "") as [->|]; [|done]. by rewrite H. Qed.
(** Reading a quoted word, whatever follows it. *)
Lemma lex_quote_word w : ∃ q, (w = "" → q = true) ∧ ∀ r, lex Between "" false (shell_quote w +:+ r) = lex InWord w q r.
Proof.
  unfold shell_quote. destruct (String.eqb_spec w "") as [->|Hne]; [by exists true|]. destruct (all_chars safe_char w) eqn:Hs.
  - exists false. split; [done|]. intros r. destruct w as [|c w]; [done|]. cbn [all_chars] in Hs. apply andb_true_iff in Hs as [Hc Hw].
    rewrite str_app_cons. cbn [lex]. apply safe_plain in Hc as (-> & -> & -> & ->). by rewrite (lex_word w (String c "") r Hw).
  - exists true. split; [done|]. intros r. change (lex InWord w true r) with (lex InWord ("" +:+ w) true r). rewrite <-(lex_quoted w "" r).
    rewrite !str_app_assoc. change (lex (InQuote "'"%char) "" false (concat_map_string quote_char w +:+ "'" +:+ r) = lex (InQuote "'"%char) "" true (concat_map_string quote_char w +:+ "'" +:+ r)).
    apply lex_opened.
Qed.
(** The first word is that of the text up to a blank, if the text reads at all. *)
Lemma lex_first w r : shell_split (shell_quote w +:+ " " +:+ r) = (l ← shell_split r; Ok (w :: l)).
Proof.
  unfold shell_split. destruct (lex_quote_word w) as (q & Hq & E). rewrite E. change (" " +:+ r) with (String " " r). cbn [lex].
  change (lex_space " ") with true. cbv iota. destruct (lex Between "" false r) as [l|]; [|done]. cbn. by rewrite emit_word.
Qed.

Lemma split_join_words l : shell_split (shell_join l) = Ok l.
Proof.
  unfold shell_join. induction l as [|w l IH]; [done|]. destruct l as [|v l].
  - unfold shell_split. destruct (lex_quote_word w) as (q & Hq & E). specialize (E ""). rewrite str_app_nil_r in E.
    change (join " " (map shell_quote [w])) with (shell_quote w). rewrite E. cbn. by rewrite emit_word.
  - change (join " " (map shell_quote (w :: v :: l))) with (shell_quote w +:+ " " +:+ join " " (map shell_quote (v :: l))).
    by rewrite lex_first, IH.
Qed.

(** Splitting what joining wrote gives the words back, whatever
    characters they hold, empty words included, so that two vectors are never
    written alike. *)
Theorem shell_words_round_trip l : shell_split (shell_join l) = Ok l ∧ ∀ m, shell_join l = shell_join m → l = m.
Proof.
  split; [apply split_join_words|]. intros m E. apply (f_equal shell_split) in E. rewrite !split_join_words in E. by injection E.
Qed.
