(* ===== verification/Sha256.v ===== *)
(** * SHA-256

    [hashlib.sha256(content).hexdigest()] by FIPS 180-4, on 32-bit words held
    in [N] with the wrap-around written out.  Property files use only
    [sha256_hex]. *)

From Stdlib Require Import Ascii.
From stdpp Require Import base list strings.
From Stdlib Require Import NArith.
From S2P Require Import Prelude PyValue PyText.

Local Open Scope N_scope.

Definition w32 (x : N) : N := x mod 4294967296.
Definition rotr (n x : N) : N := N.lor (N.shiftr x n) (w32 (N.shiftl x (32 - n))).
Definition bnot (x : N) : N := N.lxor x 4294967295.

Definition round_constants : list N :=
  [1116352408;1899447441;3049323471;3921009573;961987163;1508970993;2453635748;2870763221;
   3624381080;310598401;607225278;1426881987;1925078388;2162078206;2614888103;3248222580;
   3835390401;4022224774;264347078;604807628;770255983;1249150122;1555081692;1996064986;
   2554220882;2821834349;2952996808;3210313671;3336571891;3584528711;113926993;338241895;
   666307205;773529912;1294757372;1396182291;1695183700;1986661051;2177026350;2456956037;
   2730485921;2820302411;3259730800;3345764771;3516065817;3600352804;4094571909;275423344;
   430227734;506948616;659060556;883997877;958139571;1322822218;1537002063;1747873779;
   1955562222;2024104815;2227730452;2361852424;2428436474;2756734187;3204031479;3329325298].

Definition initial_hash : list N :=
  [1779033703;3144134277;1013904242;2773480762;1359893119;2600822924;528734635;1541459225].

Fixpoint bytes_of (s : string) : list N :=
  match s with EmptyString => [] | String c s => N_of_ascii c :: bytes_of s end.

Fixpoint be_bytes (n : nat) (x : N) : list N :=
  match n with O => [] | S n => be_bytes n (x / 256) ++ [x mod 256] end.

Definition padded (msg : list N) : list N :=
  let len := N.of_nat (length msg) in
  let k := (119 - len mod 64) mod 64 in
  msg ++ [128] ++ repeat 0 (N.to_nat k) ++ be_bytes 8 (8 * len).

Fixpoint words (bs : list N) : list N :=
  match bs with
  | a :: b :: c :: d :: bs => (((a * 256 + b) * 256 + c) * 256 + d) :: words bs
  | _ => []
  end.

(** The message schedule, latest word first. *)
Fixpoint schedule (n : nat) (w : list N) : list N :=
  match n with
  | O => w
  | S n =>
      let at_ i := nth i w 0 in
      let s0 x := N.lxor (N.lxor (rotr 7 x) (rotr 18 x)) (N.shiftr x 3) in
      let s1 x := N.lxor (N.lxor (rotr 17 x) (rotr 19 x)) (N.shiftr x 10) in
      schedule n (w32 (s1 (at_ 1%nat) + at_ 6%nat + s0 (at_ 14%nat) + at_ 15%nat) :: w)
  end.

Definition step (st : list N) (kw : N * N) : list N :=
  match st with
  | [a; b; c; d; e; f; g; h] =>
      let s1 := N.lxor (N.lxor (rotr 6 e) (rotr 11 e)) (rotr 25 e) in
      let ch := N.lxor (N.land e f) (N.land (bnot e) g) in
      let t1 := h + s1 + ch + kw.1 + kw.2 in
      let s0 := N.lxor (N.lxor (rotr 2 a) (rotr 13 a)) (rotr 22 a) in
      let maj := N.lxor (N.lxor (N.land a b) (N.land a c)) (N.land b c) in
      [w32 (t1 + s0 + maj); a; b; c; w32 (d + t1); e; f; g]
  | _ => st
  end.

Definition compress (h : list N) (block : list N) : list N :=
  let w := rev (schedule 48 (rev block)) in
  zip_with (λ x y, w32 (x + y)) h (fold_left step (combine round_constants w) h).

Fixpoint blocks (fuel : nat) (h ws : list N) : list N :=
  match fuel, ws with
  | S fuel, _ :: _ => blocks fuel (compress h (firstn 16 ws)) (skipn 16 ws)
  | _, _ => h
  end.

Definition hex_byte (n : N) : string :=
  String (hex_digit (N.to_nat (n / 16))) (String (hex_digit (N.to_nat (n mod 16))) "").

Definition sha256_hex (content : string) : string :=
  let ws := words (padded (bytes_of content)) in
  String.concat "" (map hex_byte (flat_map (be_bytes 4) (blocks (length ws) initial_hash ws))).
