(* ===== verification/PyPath.v ===== *)
(** * POSIX paths

    The lexical part of [os.path] and [pathlib] that the modelled code uses.
    What a path names, and so what [os.path.realpath] returns, belongs to the
    operating system and is a parameter of the modules that ask it. *)

From Stdlib Require Import Ascii.
From stdpp Require Import base list sets strings.
From S2P Require Import Prelude PyValue PyText.

Definition slash : ascii := "/"%char.

(** [os.path.isabs], [Path.is_absolute]. *)
Definition isabs (p : string) : bool := starts_with "/" p.

(** The components of a path: empty ones and [.] are dropped. *)
Definition path_parts (p : string) : list string :=
  filter (λ c, negb (String.eqb c "" || String.eqb c ".") = true) (split_on slash p).

(** [Path(p).name]. *)
Definition path_name (p : string) : string := default "" (last (path_parts p)).

(** The directory part of a path that names a file. *)
Definition parent (p : string) : string := join "/" (removelast (split_on slash p)).

(** The absolute path of some components. *)
Definition absolute (parts : list string) : string := "/" +:+ join "/" parts.

(** [str(Path(p))] of a relative or absolute path. *)
Definition path_str (p : string) : string :=
  if isabs p then absolute (path_parts p)
  else match path_parts p with [] => "." | parts => join "/" parts end.

(** [Path(root) / Path(p)]: an absolute [p] replaces the root. *)
Definition path_join (root p : string) : string :=
  if isabs p then path_str p else path_str (root +:+ "/" +:+ p).

Fixpoint common_prefix (l m : list string) : list string :=
  match l, m with
  | x :: l, y :: m => if String.eqb x y then x :: common_prefix l m else []
  | _, _ => []
  end.

(** [os.path.commonpath([a, b])] of two absolute paths. *)
Definition commonpath (a b : string) : string := absolute (common_prefix (path_parts a) (path_parts b)).

(** [path.is_relative_to(root)]. *)
Definition is_relative_to (path root : string) : bool :=
  bool_decide (path_parts root `prefix_of` path_parts path).

(** A component of a normalised path. *)
Definition good_part (c : string) : Prop := c ≠ "" ∧ c ≠ "." ∧ has_char slash c = false.

(** An absolute path without empty or [.] components and without a trailing
    slash, as [os.path.realpath] returns it. *)
Definition normal (p : string) : Prop := ∃ parts, p = absolute parts ∧ Forall good_part parts.

(** Paths compare component by component. *)
Fixpoint parts_leb (a b : list string) : bool :=
  match a, b with
  | [], _ => true
  | _ :: _, [] => false
  | x :: a, y :: b => if String.eqb x y then parts_leb a b else String.leb x y
  end.
Definition path_le (a b : string) : Prop := parts_leb (split_on slash a) (split_on slash b) = true.
#[export] Instance path_le_dec a b : Decision (path_le a b) := decide (_ = true).

(** ** Lemmas *)

Lemma split_on_no_sep c s : has_char c s = false → split_on c s = [s].
Proof.
  induction s as [|d s IH]; simpl; [done|]. intros [Hd Hs]%orb_false_iff.
  rewrite Ascii.eqb_sym, Hd, (IH Hs). done.
Qed.

Lemma split_on_app c s t :
  has_char c s = false → split_on c (s +:+ String c t) = s :: split_on c t.
Proof.
  induction s as [|d s IH]; simpl.
  - by rewrite Ascii.eqb_refl.
  - intros [Hd Hs]%orb_false_iff. rewrite Ascii.eqb_sym, Hd. by rewrite (IH Hs).
Qed.

Lemma split_join parts :
  parts ≠ [] → Forall (λ c, has_char slash c = false) parts →
  split_on slash (join "/" parts) = parts.
Proof.
  induction parts as [|x [|y parts] IH]; intros Hne Hall; [done| |].
  - apply Forall_cons in Hall as [Hx _]. exact (split_on_no_sep slash x Hx).
  - apply Forall_cons in Hall as [Hx Hall]. 
    change (split_on slash (x +:+ String slash (join "/" (y :: parts))) = x :: y :: parts).
    rewrite split_on_app by done. f_equal. by apply IH.
Qed.

Lemma filter_good parts :
  Forall good_part parts →
  filter (λ c, negb (String.eqb c "" || String.eqb c ".") = true) parts = parts.
Proof.
  intros Hg. induction Hg as [|x l (H1 & H2 & _) _ IH]; [done|].
  rewrite filter_cons_True, IH; [done|].
  destruct (String.eqb_spec x ""), (String.eqb_spec x "."); done.
Qed.

Lemma path_parts_absolute parts : Forall good_part parts → path_parts (absolute parts) = parts.
Proof.
  intros Hg. unfold path_parts, absolute. 
  change (split_on slash ("/" +:+ join "/" parts)) with ("" :: split_on slash (join "/" parts)).
  rewrite filter_cons_False by done.
  destruct (decide (parts = [])) as [->|Hne]; [done|].
  rewrite split_join; [by apply filter_good|done|].
  eapply Forall_impl; [exact Hg|]. by intros c (_ & _ & ?).
Qed.

Lemma absolute_inj p q : Forall good_part p → Forall good_part q → absolute p = absolute q → p = q.
Proof. intros Hp Hq H. by rewrite <-(path_parts_absolute p Hp), H, path_parts_absolute. Qed.

Lemma common_prefix_prefix l m : common_prefix l m = m ↔ m `prefix_of` l.
Proof.
  revert m. induction l as [|x l IH]; intros [|y m]; simpl.
  - split; [intros _; apply prefix_nil|done].
  - split; [done|]. by intros ?%prefix_nil_inv.
  - split; [intros _; apply prefix_nil|done].
  - destruct (String.eqb_spec x y) as [->|Hne].
    + split.
      * intros [= H]. apply prefix_cons. by apply IH.
      * intros H%prefix_cons_inv_2. f_equal. by apply IH.
    + split; [done|]. by intros H%prefix_cons_inv_1.
Qed.

(** The prefix rule: a path is below a root when the root's components begin
    its own. *)
Lemma commonpath_root p root :
  normal p → normal root →
  commonpath p root = root ↔ path_parts root `prefix_of` path_parts p.
Proof.
  intros (pp & -> & Hp) (rp & -> & Hr). unfold commonpath.
  rewrite !path_parts_absolute, <-common_prefix_prefix by done. split; [|by intros ->].
  apply absolute_inj; [|done].
  clear Hr. revert rp. induction Hp as [|x l Hx Hl IH]; intros [|y rp]; simpl; try constructor.
  destruct (String.eqb x y); by constructor.
Qed.

(** ** A file system without links

    [os.path.realpath] where no component is a link and no path climbs with
    [..]: the instance of the parameter [realpath] the witnesses use. *)
Definition linkless_realpath (p : string) : string := absolute (path_parts p).

Lemma split_on_parts c s : Forall (λ x, has_char c x = false) (split_on c s).
Proof.
  induction s as [|d s IH]; simpl; [by repeat constructor|].
  destruct (Ascii.eqb_spec d c) as [->|Hne]; [by constructor|].
  assert (Hd : Ascii.eqb c d = false) by (apply Ascii.eqb_neq; congruence).
  destruct (split_on c s) as [|x l]; [by constructor; simpl; rewrite ?Hd|].
  apply Forall_cons in IH as [Hx Hl]. constructor; [|done]. simpl. by rewrite Hx, Hd.
Qed.

Lemma path_parts_good p : Forall good_part (path_parts p).
Proof.
  unfold path_parts. apply Forall_forall. intros c Hc. apply list_elem_of_filter in Hc as [H Hin].
  pose proof (proj1 (Forall_forall _ _) (split_on_parts slash p) c Hin) as Hs.
  destruct (String.eqb_spec c ""), (String.eqb_spec c "."); done.
Qed.
Lemma linkless_normal p : normal (linkless_realpath p).
Proof. exists (path_parts p). split; [done|]. apply path_parts_good. Qed.

(** ** The parts of a joined path *)

Lemma split_on_ne c s : split_on c s ≠ [].
Proof. destruct s as [|d s]; [done|]. cbn. destruct (Ascii.eqb d c); [done|]. by destruct (split_on c s). Qed.
Lemma split_on_cut c s t : split_on c (s +:+ String c t) = split_on c s ++ split_on c t.
Proof.
  induction s as [|d s IH].
  { change (split_on c (String c t) = "" :: split_on c t). cbn [split_on]. by rewrite Ascii.eqb_refl. }
  rewrite str_app_cons. cbn [split_on]. rewrite IH.
  destruct (Ascii.eqb d c); [done|]. pose proof (split_on_ne c s). by destruct (split_on c s).
Qed.
Lemma path_parts_cut a b : path_parts (a +:+ "/" +:+ b) = path_parts a ++ path_parts b.
Proof. unfold path_parts. change ("/" +:+ b) with (String slash b). by rewrite split_on_cut, filter_app. Qed.
Lemma isabs_app a b : isabs a = true → isabs (a +:+ b) = true.
Proof. unfold isabs. intros [t ->]%starts_with_inv. rewrite str_app_assoc. apply starts_with_app. Qed.
Lemma path_str_parts p : isabs p = true → path_parts (path_str p) = path_parts p ∧ isabs (path_str p) = true.
Proof. intros H. unfold path_str. rewrite H. split; [apply path_parts_absolute, path_parts_good|apply starts_with_app]. Qed.
Lemma path_join_parts root p : isabs root = true → isabs p = false → path_parts (path_join root p) = path_parts root ++ path_parts p.
Proof. intros Hr Hp. unfold path_join. rewrite Hp, (proj1 (path_str_parts _ (isabs_app _ _ Hr))). apply path_parts_cut. Qed.
