(* ===== verification/StateRoot.v ===== *)
(** * Where recorded paths lie

    The path functions of src/evals/cross_harness/rescore.py: a record names
    its files under the runner's state root, in the home of the host that ran
    it, and is read under a copy of that root. *)

From Stdlib Require Import Ascii.
From stdpp Require Import base list strings.
From Stdlib Require Import Lia.
From S2P Require Import Prelude PyValue PyText JsonText PyPath.

Definition RECORDED_STATE_ROOT : string := "~/.local/state/foe/cross-harness".
Definition STATE_ROOT_UNDER_HOME : string := "/" +:+ str_drop 2 RECORDED_STATE_ROOT.

Definition expand_home (path home : string) : string :=
  if String.eqb path "~" || starts_with "~/" path then path_join home (str_drop 2 path) else path_str path.
(** [s.partition(sep)]: what follows the first occurrence. *)
Fixpoint cut_at (sep s : string) : option string :=
  if starts_with sep s then Some (str_drop (String.length sep) s)
  else match s with String _ s => cut_at sep s | EmptyString => None end.
Definition under_state_root (recorded state_root home : string) : string :=
  if String.eqb recorded RECORDED_STATE_ROOT then state_root
  else if starts_with (RECORDED_STATE_ROOT +:+ "/") recorded then
    path_join state_root (str_drop (String.length RECORDED_STATE_ROOT + 1) recorded)
  else
    match (if isabs recorded then cut_at STATE_ROOT_UNDER_HOME recorded else None) with
    | Some rest =>
        if String.eqb rest "" then state_root
        else if starts_with "/" rest then path_join state_root (str_drop 1 rest)
        else expand_home recorded home
    | None => expand_home recorded home
    end.
(** [path.relative_to(root)], if it lies there. *)
Definition relative_to (path root : string) : option (list string) :=
  if Bool.eqb (isabs path) (isabs root) && is_relative_to path root then Some (drop (length (path_parts root)) (path_parts path)) else None.
Definition recorded_form (path state_root : string) : string :=
  match relative_to path state_root with
  | None => path_str path
  | Some [] => RECORDED_STATE_ROOT
  | Some rest => RECORDED_STATE_ROOT +:+ "/" +:+ join "/" rest
  end.

(** ** The recorded form is found again *)

Lemma drop_separator a b : str_drop (String.length a + 1) (a +:+ "/" +:+ b) = b.
Proof. induction a as [|c a IH]; [done|]. rewrite str_app_cons. exact IH. Qed.
Lemma prefix_cut p a : starts_with p a = true → ∀ b, starts_with p (a +:+ b) = true.
Proof. intros [t ->]%starts_with_inv b. rewrite str_app_assoc. apply starts_with_app. Qed.
(** A prefix of a sum ends in the first part or reaches into the second. *)
Lemma prefix_split p a b : starts_with p (a +:+ b) = true →
  starts_with p a = true ∨ ∃ k, k < String.length p ∧ String.length a = k ∧ starts_with (str_drop k p) b = true.
Proof.
  revert p. induction a as [|c a IH]; intros p H.
  - destruct p as [|d p]; [by left|]. right. exists 0. split_and!; [cbn; lia|done|exact H].
  - destruct p as [|d p]; [by left|]. rewrite str_app_cons in H. unfold starts_with in *. cbn in *.
    destruct (Ascii.ascii_dec d c) as [->|]; [|done]. apply IH in H as [H|(k & Hk & Hl & H)]; [by left|].
    right. exists (S k). split_and!; [lia|lia|done].
Qed.
(** No proper end of the text is one of its beginnings. *)
Definition borderless (s : string) : bool :=
  forallb (λ k, negb (starts_with (str_drop k s) s)) (seq 1 (String.length s - 1)).
Lemma drop_length k s : String.length (str_drop k s) = String.length s - k.
Proof. revert k. induction s as [|c s IH]; intros [|k]; cbn; try done. Qed.
Lemma prefix_shorter p a b : String.length p ≤ String.length a → starts_with p (a +:+ b) = true → starts_with p a = true.
Proof. intros Hl [H|(k & Hk & Hlen & _)]%prefix_split; [done|]. lia. Qed.
Lemma cut_at_first sep h r : sep ≠ "" → borderless sep = true → occurs sep h = false → cut_at sep (h +:+ sep +:+ r) = Some r.
Proof.
  intros Hne Hb. induction h as [|c h IH]; intros Ho.
  - change ("" +:+ sep +:+ r) with (sep +:+ r). destruct sep as [|d sep]; [done|]. rewrite str_app_cons. cbn [cut_at].
    rewrite <-str_app_cons, starts_with_app, str_drop_length. done.
  - cbn [occurs] in Ho. apply orb_false_iff in Ho as [Hp Ho]. rewrite str_app_cons. cbn [cut_at]. rewrite <-str_app_cons.
    destruct (starts_with sep (String c h +:+ sep +:+ r)) eqn:E; [|by apply IH]. exfalso.
    apply prefix_split in E as [E|(k & Hk & Hl & E)]; [congruence|].
    unfold borderless in Hb. rewrite forallb_forall in Hb. specialize (Hb k). cbn in Hl.
    rewrite in_seq in Hb. apply prefix_shorter in E; [|rewrite drop_length; lia]. rewrite E in Hb. discriminate Hb. lia.
Qed.

(** The join of a root and the parts below it. *)
Lemma join_below root rest : isabs root = true → Forall good_part rest → rest ≠ [] →
  path_join root (join "/" rest) = absolute (path_parts root ++ rest).
Proof.
  intros Hr Hg Hne.
  assert (Hj : path_parts (join "/" rest) = rest).
  { unfold path_parts. rewrite split_join; [by apply filter_good|done|]. eapply Forall_impl; [exact Hg|]. by intros c (_ & _ & ?). }
  assert (Hn : isabs (join "/" rest) = false).
  { destruct rest as [|x rest]; [done|]. apply Forall_cons in Hg as [(H1 & _ & H3) _]. destruct x as [|c x]; [done|].
    cbn in H3. apply orb_false_iff in H3 as [H3 _]. apply not_true_iff_false. intros [t E]%starts_with_inv.
    assert (c = "/"%char) as -> by (by destruct rest; injection E). by vm_compute in H3. }
  unfold path_join. rewrite Hn. unfold path_str. rewrite isabs_app by done. by rewrite path_parts_cut, Hj.
Qed.
Lemma relative_abs p root rest : isabs root = true → relative_to p root = Some rest →
  isabs p = true ∧ path_parts p = path_parts root ++ rest ∧ Forall good_part rest.
Proof.
  intros Hr. unfold relative_to. rewrite Hr. destruct (isabs p); [|done]. cbn [Bool.eqb andb].
  destruct (is_relative_to p root) eqn:E; [|done]. intros [= <-]. apply bool_decide_eq_true in E as [k E]. split; [done|].
  pose proof (path_parts_good p) as Hg. rewrite E in Hg |- *. rewrite drop_app_length. split; [done|]. by apply Forall_app in Hg as [_ Hg].
Qed.

(** What a record names is found under any copy of the state root: a
    path below the root, written in the recorded form, is the path itself again;
    the same place under another copy is what both its recorded form and its
    absolute form in any home directory that does not hold the suffix name. *)
Theorem recorded_paths_found root home p rest : isabs root = true → path_str root = root → relative_to p root = Some rest →
  under_state_root (recorded_form p root) root home = path_str p ∧
  ∀ root' host, isabs root' = true → path_str root' = root' → starts_with "/" host = true → occurs STATE_ROOT_UNDER_HOME host = false →
    let there := absolute (path_parts root' ++ rest) in
    under_state_root (recorded_form p root) root' home = there ∧
    under_state_root (host +:+ STATE_ROOT_UNDER_HOME +:+ match rest with [] => "" | _ => "/" +:+ join "/" rest end) root' home = there.
Proof.
  intros Hr Hs Hp. destruct (relative_abs p root rest Hr Hp) as (Ha & Hpp & Hg).
  assert (Hrec : ∀ q, isabs q = true → path_str q = q → under_state_root (recorded_form p root) q home = absolute (path_parts q ++ rest)).
  { intros q Hq Hqs. unfold recorded_form. rewrite Hp. destruct rest as [|x l].
    - unfold under_state_root. rewrite String.eqb_refl, app_nil_r. rewrite <-Hqs at 1. unfold path_str. by rewrite Hq.
    - unfold under_state_root. destruct (String.eqb_spec (RECORDED_STATE_ROOT +:+ "/" +:+ join "/" (x :: l)) RECORDED_STATE_ROOT) as [E|_].
      { apply (f_equal String.length) in E. rewrite !length_str_app in E. cbn in E. lia. }
      rewrite <-(str_app_assoc RECORDED_STATE_ROOT "/"), starts_with_app, str_app_assoc, drop_separator. by apply join_below. }
  assert (Hpath : path_str p = absolute (path_parts root ++ rest)) by (unfold path_str; by rewrite Ha, Hpp).
  split; [by rewrite Hpath; apply Hrec|]. intros root' host Hr' Hs' Hh Ho. cbv zeta. split; [by apply Hrec|].
  set (tail := match rest with [] => "" | _ => _ end).
  assert (Hd : host = "/" +:+ str_drop 1 host).
  { apply starts_with_inv in Hh as [t ->]. done. }
  unfold under_state_root. destruct (String.eqb_spec (host +:+ STATE_ROOT_UNDER_HOME +:+ tail) RECORDED_STATE_ROOT) as [E|_].
  { rewrite Hd in E. discriminate E. }
  destruct (starts_with (RECORDED_STATE_ROOT +:+ "/") (host +:+ STATE_ROOT_UNDER_HOME +:+ tail)) eqn:E.
  { rewrite Hd in E. vm_compute in E. discriminate E. }
  assert (isabs (host +:+ STATE_ROOT_UNDER_HOME +:+ tail) = true) as -> by (apply isabs_app; exact Hh).
  rewrite cut_at_first by (try exact Ho; vm_compute; done). subst tail. destruct rest as [|x l].
  - cbn. rewrite app_nil_r. rewrite <-Hs' at 1. unfold path_str. by rewrite Hr'.
  - change (String.eqb ("/" +:+ join "/" (x :: l)) "") with false. rewrite starts_with_app.
    change (str_drop 1 ("/" +:+ join "/" (x :: l))) with (join "/" (x :: l)). by apply join_below.
Qed.
Lemma recorded_paths_found_witness :
  recorded_form "/copy/records/a.json" "/copy" = "~/.local/state/foe/cross-harness/records/a.json" ∧
  under_state_root "/home/b/.local/state/foe/cross-harness/records/a.json" "/else" "/home/c" = "/else/records/a.json".
Proof.
  split; [reflexivity|].
  destruct (recorded_paths_found "/copy" "/home/c" "/copy/records/a.json" ["records"; "a.json"]) as [_ H]; [vm_compute; reflexivity..|].
  apply (H "/else" "/home/b"); vm_compute; reflexivity.
Defined.
