(* ===== verification/TraceLog.v ===== *)
(** * Episode logs and the evaluation they are checked into

    The log, the accumulator and the report of src/evals/trace_quality.py.
    A checker of that module calls [evaluation.check] and bumps observation
    counters while it walks a log, and never reads the accumulator back; it
    may also raise.  It is modelled as a computation in [Ev], which returns
    its value with the calls it made in order, and [apply_effect] is what
    each call does to the [Evaluation]. *)

From stdpp Require Import base list sets strings pretty sorting.
From Stdlib Require Import ZArith Lia.
From S2P Require Import Prelude PyValue PyText.

Inductive dimension : Type :=
| declared_permissions
| reconstructable_evidence
| typed_outcomes
| hierarchical_budgets
| workflow_provenance
| compaction_continuity.

#[export] Instance dimension_eq_dec : EqDecision dimension.
Proof. solve_decision. Defined.

Definition DIMENSIONS : list dimension :=
  [declared_permissions; reconstructable_evidence; typed_outcomes;
   hierarchical_budgets; workflow_provenance; compaction_continuity].

Definition dimension_name (d : dimension) : string :=
  match d with
  | declared_permissions => "declared_permissions"
  | reconstructable_evidence => "reconstructable_evidence"
  | typed_outcomes => "typed_outcomes"
  | hierarchical_budgets => "hierarchical_budgets"
  | workflow_provenance => "workflow_provenance"
  | compaction_continuity => "compaction_continuity"
  end.

Definition BLOCKED_CODES : list string :=
  ["looping-tool-call"; "looping-reasoning"; "goal-unreachable"; "ambiguous-task";
   "missing-capability"; "verification-unsatisfiable"; "child-blocked";
   "recovery-exhausted"; "recovery-failed"].

Definition EXHAUSTED_LIMITS : list string :=
  ["model_calls"; "input_tokens"; "output_tokens"; "context_window"; "seconds";
   "depth"; "episodes"; "concurrency"].

Definition abi_key (v : value) : string :=
  match v with VInt _ => py_str v | _ => "invalid" end.

(** [str.isdigit] on ASCII text. *)
Fixpoint all_digits (s : string) : bool :=
  match s with
  | EmptyString => true
  | String c s => match digit_of c with Some _ => true | None => false end && all_digits s
  end.
Definition isdigit (s : string) : bool := negb (String.eqb s "") && all_digits s.

Definition abi_order (name : string) : nat * Z * string :=
  if isdigit name then (0, default 0%Z (int_of_str name), "") else (1, 0%Z, name).

(** Tuples compare lexicographically. *)
Definition abi_leb (a b : string) : bool :=
  let '(i, m, s) := abi_order a in
  let '(j, n, t) := abi_order b in
  (i <? j) || ((i =? j) && ((m <? n)%Z || ((m =? n)%Z && String.leb s t))).

Definition abi_le (x y : string * nat) : Prop := abi_leb x.1 y.1 = true.
#[export] Instance abi_le_dec x y : Decision (abi_le x y) := decide (abi_leb x.1 y.1 = true).

(** ** The log *)

Record EpisodeLog : Type := {
  path : string;
  events : list dict;
  parse_error : option string;
}.

Definition event_type (event : dict) : string :=
  match dget event "type" with VStr s => s | _ => "" end.

Definition event_data (event : dict) : dict := dict_or_empty (dget event "data").

Definition start (log : EpisodeLog) : dict :=
  match events log with
  | event :: _ =>
      if is_string "episode/start" (dget event "type") then dict_or_empty (dget event "data")
      else []
  | [] => []
  end.

Definition episode_id (log : EpisodeLog) : string :=
  match dget (start log) "id" with VStr s => s | _ => path log end.

Definition contract (log : EpisodeLog) : dict := dict_or_empty (dget (start log) "contract").

(** ** The accumulator *)

Record stat : Type := {
  checks : nat;
  passed : nat;
  applicable_episodes : list string;
}.
Definition new_stat : stat := {| checks := 0; passed := 0; applicable_episodes := [] |}.

Record Observations : Type := {
  episodes : nat;
  sandbox_modes : list (string * nat);
  landlock_abis : list (string * nat);
  kernel_sandbox_episodes : nat;
  denied_capability_calls : nat;
  child_episodes : nat;
  workflow_episodes : nat;
  successful_compactions : nat;
}.

Record Evaluation : Type := {
  stats : dimension → stat;
  violations : list dict;
  observations : Observations;
}.

(** [Evaluation.__init__], with [observations["episodes"]] as [evaluate] sets it. *)
Definition new_evaluation (n : nat) : Evaluation := {|
  stats := λ _, new_stat;
  violations := [];
  observations := {|
    episodes := n; sandbox_modes := []; landlock_abis := []; kernel_sandbox_episodes := 0;
    denied_capability_calls := 0; child_episodes := 0; workflow_episodes := 0;
    successful_compactions := 0 |} |}.

(** One call of [evaluation.check]. *)
Record check_call : Type := {
  ck_dimension : dimension;
  ck_condition : bool;
  ck_message : string;
  ck_episode : string;
  ck_seq : value;
}.

Definition violation_of (c : check_call) : dict :=
  [("dimension", VStr (dimension_name (ck_dimension c))); ("episode", VStr (ck_episode c));
   ("message", VStr (ck_message c))]
  ++ (if is_none (ck_seq c) then [] else [("seq", ck_seq c)]).

Definition run_check (e : Evaluation) (c : check_call) : Evaluation :=
  let st := stats e (ck_dimension c) in
  let st' := {| checks := S (checks st);
                passed := (if ck_condition c then S (passed st) else passed st);
                applicable_episodes := set_add (ck_episode c) (applicable_episodes st) |} in
  {| stats := λ d, if decide (d = ck_dimension c) then st' else stats e d;
     violations := if ck_condition c then violations e else violations e ++ [violation_of c];
     observations := observations e |}.

(** The counters a checker bumps. *)
Inductive observation : Type :=
| SandboxMode (mode : string)
| LandlockAbi (abi : string)
| KernelSandbox
| DeniedCall
| ChildEpisode
| WorkflowEpisode
| SuccessfulCompaction.

Definition bump (d : list (string * nat)) (k : string) : list (string * nat) :=
  dset d k (S (default 0 (assoc d k))).

Definition observe (o : Observations) (ob : observation) : Observations :=
  let 'Build_Observations n ms abis k dn ch wf sc := o in
  match ob with
  | SandboxMode m => Build_Observations n (bump ms m) abis k dn ch wf sc
  | LandlockAbi a => Build_Observations n ms (bump abis a) k dn ch wf sc
  | KernelSandbox => Build_Observations n ms abis (S k) dn ch wf sc
  | DeniedCall => Build_Observations n ms abis k (S dn) ch wf sc
  | ChildEpisode => Build_Observations n ms abis k dn (S ch) wf sc
  | WorkflowEpisode => Build_Observations n ms abis k dn ch (S wf) sc
  | SuccessfulCompaction => Build_Observations n ms abis k dn ch wf (S sc)
  end.

Inductive effect : Type :=
| Checked (c : check_call)
| Observed (o : observation).

Definition apply_effect (e : Evaluation) (f : effect) : Evaluation :=
  match f with
  | Checked c => run_check e c
  | Observed o =>
      {| stats := stats e; violations := violations e; observations := observe (observations e) o |}
  end.
Definition apply_effects (e : Evaluation) (w : list effect) : Evaluation :=
  fold_left apply_effect w e.

(** ** The report *)

Definition counts_value (d : list (string * nat)) : value :=
  VDict (map (λ kv, (kv.1, VInt (Z.of_nat kv.2))) d).
Definition nat_value (n : nat) : value := VInt (Z.of_nat n).

Definition metric_value (st : stat) : value :=
  VDict [("covered_episodes", nat_value (length (applicable_episodes st)));
         ("assertions", nat_value (checks st));
         ("passed_assertions", nat_value (passed st));
         ("conformant", match checks st with
                        | O => VNone
                        | _ => VBool (passed st =? checks st)
                        end)].

Definition report (e : Evaluation) : dict :=
  let o := observations e in
  [("schema_version", VInt 2);
   ("valid", VBool (match violations e with [] => true | _ => false end));
   ("metrics", VDict (map (λ d, (dimension_name d, metric_value (stats e d))) DIMENSIONS));
   ("observations", VDict
     [("episodes", nat_value (episodes o));
      ("sandbox_modes", counts_value (sorted_items (sandbox_modes o)));
      ("landlock_abis", counts_value
         (merge_sort abi_le (landlock_abis o)));
      ("kernel_sandbox_episodes", nat_value (kernel_sandbox_episodes o));
      ("denied_capability_calls", nat_value (denied_capability_calls o));
      ("child_episodes", nat_value (child_episodes o));
      ("workflow_episodes", nat_value (workflow_episodes o));
      ("successful_compactions", nat_value (successful_compactions o))]);
   ("violations", VList (map VDict (violations e)))].

(** ** Computations that check *)

Definition Ev (A : Type) : Type := res (A * list effect).
#[export] Instance Ev_ret : MRet Ev := λ A a, Ok (a, []).
#[export] Instance Ev_bind : MBind Ev := λ A B f m,
  match m with
  | Ok (a, w) => match f a with Ok (b, w') => Ok (b, w ++ w') | Err e => Err e end
  | Err e => Err e
  end.

Definition lift {A} (m : res A) : Ev A :=
  match m with Ok a => Ok (a, []) | Err e => Err e end.

(** [evaluation.check(dimension, condition, message, log, seq)]. *)
Definition check (d : dimension) (c : bool) (msg : string) (log : EpisodeLog) (seq : value) : Ev () :=
  Ok ((), [Checked {| ck_dimension := d; ck_condition := c; ck_message := msg;
                      ck_episode := episode_id log; ck_seq := seq |}]).
Definition note (o : observation) : Ev () := Ok ((), [Observed o]).
Definition idx (i : nat) : value := VInt (Z.of_nat i).

(** Every check the effects record holds. *)
Definition holds (f : effect) : bool :=
  match f with Checked c => ck_condition c | Observed _ => true end.
Definition all_hold (w : list effect) : bool := forallb holds w.

(** A computation that returns and whose checks all hold. *)
Definition passes {A} (m : Ev A) : Prop := ∃ a w, m = Ok (a, w) ∧ all_hold w = true.

(** ** Lemmas on computations *)

Lemma Ev_bind_ok {A B} (m : Ev A) (f : A → Ev B) b w :
  m ≫= f = Ok (b, w) ↔ ∃ a w1 w2, m = Ok (a, w1) ∧ f a = Ok (b, w2) ∧ w = w1 ++ w2.
Proof.
  unfold mbind, Ev_bind. split.
  - destruct m as [[a w1]|]; [|done]. destruct (f a) as [[b' w2]|] eqn:E; [|done].
    intros [= <- <-]. eauto 8.
  - by intros (a & w1 & w2 & -> & -> & ->).
Qed.

Lemma all_hold_app w1 w2 : all_hold (w1 ++ w2) = all_hold w1 && all_hold w2.
Proof. apply forallb_app. Qed.

(** [returns m a]: [m] returns [a] and all its checks hold. *)
Definition returns {A} (m : Ev A) (a : A) : Prop := ∃ w, m = Ok (a, w) ∧ all_hold w = true.

Lemma passes_returns {A} (m : Ev A) : passes m ↔ ∃ a, returns m a.
Proof. unfold passes, returns. naive_solver. Qed.

(** Passing, by evaluation. *)
Lemma passes_computed {A} (m : Ev A) :
  match m with Ok (_, w) => all_hold w | Err _ => false end = true → passes m.
Proof. unfold passes. destruct m as [[a w]|]; eauto. done. Qed.
Ltac passes_by_evaluation := apply passes_computed; vm_compute; reflexivity.

Lemma returns_ret {A} (a b : A) : returns (mret a) b ↔ b = a.
Proof. unfold returns, mret, Ev_ret. split; [naive_solver|]. intros ->. eauto. Qed.

Lemma returns_bind {A B} (m : Ev A) (f : A → Ev B) b :
  returns (m ≫= f) b ↔ ∃ a, returns m a ∧ returns (f a) b.
Proof.
  unfold returns. setoid_rewrite Ev_bind_ok. split.
  - intros (w & (a & w1 & w2 & Hm & Hf & ->) & Hw).
    rewrite all_hold_app in Hw. apply andb_true_iff in Hw as [? ?]. eauto 8.
  - intros (a & (w1 & Hm & H1) & (w2 & Hf & H2)). exists (w1 ++ w2). split; [eauto 8|].
    by rewrite all_hold_app, H1, H2.
Qed.

Lemma returns_check d c msg log seq u : returns (check d c msg log seq) u ↔ c = true.
Proof.
  unfold returns, check. destruct u. split.
  - intros (w & [= <-] & H). simpl in H. by rewrite andb_true_r in H.
  - intros ->. eexists. split; [done|]. done.
Qed.

Lemma returns_note o u : returns (note o) u ↔ True.
Proof. unfold returns, note. destruct u. split; [done|]. intros _. eauto. Qed.

Lemma returns_lift {A} (m : res A) a : returns (lift m) a ↔ m = Ok a.
Proof. unfold returns, lift. destruct m; naive_solver. Qed.

Lemma returns_foldM_cons {A S} (f : S → A → Ev S) s x l s' :
  returns (foldM f s (x :: l)) s' ↔ ∃ t, returns (f s x) t ∧ returns (foldM f t l) s'.
Proof. simpl. apply returns_bind. Qed.

#[export] Hint Rewrite @returns_ret @returns_bind returns_check returns_note @returns_lift
  @returns_foldM_cons : foe_rw.

(** Reduce [returns] of a straight-line computation to its conditions. *)
Ltac ev_simpl := repeat (progress autorewrite with foe_rw in * ||
  match goal with
  | H : ∃ _, _ |- _ => destruct H
  | H : _ ∧ _ |- _ => destruct H
  | H : True |- _ => clear H
  end); simplify_eq/=.

(** An invariant of a loop whose checks all hold. *)
Lemma returns_foldM_ind {A S} (I : list A → S → Prop) (f : S → A → Ev S) l0 s0 l s' :
  I l0 s0 →
  (∀ pre x s t, I pre s → x ∈ l → returns (f s x) t → I (pre ++ [x]) t) →
  returns (foldM f s0 l) s' → I (l0 ++ l) s'.
Proof.
  revert l0 s0. induction l as [|x l IH]; intros l0 s0 H0 Hstep Hret.
  - apply returns_ret in Hret as ->. by rewrite app_nil_r.
  - apply returns_foldM_cons in Hret as (t & Hx & Hl).
    replace (l0 ++ x :: l) with ((l0 ++ [x]) ++ l) by (by rewrite <-app_assoc).
    apply (IH (l0 ++ [x]) t); [|set_solver|done].
    apply (Hstep l0 x s0 t); [done|set_solver|done].
Qed.

(** The state each iteration of a successful loop ran in. *)
Lemma returns_foldM_split {A S} (f : S → A → Ev S) s l1 l2 s' :
  returns (foldM f s (l1 ++ l2)) s' ↔
  ∃ t, returns (foldM f s l1) t ∧ returns (foldM f t l2) s'.
Proof.
  revert s. induction l1 as [|x l1 IH]; intros s; simpl.
  - setoid_rewrite returns_ret. naive_solver.
  - rewrite !returns_bind. setoid_rewrite IH. setoid_rewrite returns_bind. naive_solver.
Qed.

(** A loop without state passes when every iteration does. *)
Lemma returns_foldM_unit {A} (f : () → A → Ev ()) l :
  returns (foldM f () l) () ↔ ∀ x, x ∈ l → returns (f () x) ().
Proof.
  induction l as [|x l IH].
  - simpl. rewrite returns_ret. split; [intros _ x Hx; by apply elem_of_nil in Hx|done].
  - rewrite returns_foldM_cons. split.
    + intros ([] & Hx & Hl) y [->|Hy]%elem_of_cons; [done|]. by apply IH.
    + intros Hall. exists (). split; [apply Hall; set_solver|]. apply IH. set_solver.
Qed.

(** The invariant of a loop over [enumerate l], with the position of the
    element in hand. *)
Lemma returns_enumerate_ind {A S} (I : list (nat * A) → S → Prop) (f : S → nat * A → Ev S) l s0 s' :
  I [] s0 →
  (∀ i x s t, l !! i = Some x → I (enumerate (take i l)) s → returns (f s (i, x)) t →
     I (enumerate (take i l) ++ [(i, x)]) t) →
  returns (foldM f s0 (enumerate l)) s' → I (enumerate l) s'.
Proof.
  intros H0 Hstep. unfold enumerate in *.
  assert (∀ k s, k ≤ length l → I (enumerate_from 0 (take k l)) s →
    returns (foldM f s (enumerate_from k (drop k l))) s' → I (enumerate_from 0 l) s') as Hgen.
  { intros k. remember (length l - k) as n eqn:Hn. revert k Hn.
    induction n as [|n IH]; intros k Hn s Hk HI Hret.
    - rewrite drop_ge in Hret by lia. simpl in Hret. apply returns_ret in Hret as ->.
      by rewrite take_ge in HI by lia.
    - destruct (lookup_lt_is_Some_2 l k) as [x Hx]; [lia|].
      rewrite (drop_S l x k Hx) in Hret. cbn [enumerate_from] in Hret.
      apply returns_foldM_cons in Hret as (t & Hx' & Hret).
      apply (IH (Datatypes.S k) ltac:(lia) t); [lia| |done].
      rewrite (take_S_r l k x Hx), enumerate_from_app. simpl.
      rewrite length_take, Nat.min_l by lia. by apply (Hstep k x s t). }
  intros Hret. apply (Hgen 0 s0); [lia|done|]. by rewrite drop_0.
Qed.

(** The check of a position holds when the loop over positions passes. *)
Lemma returns_enumerate_at {A S} (f : S → nat * A → Ev S) l s0 s' i x :
  returns (foldM f s0 (enumerate l)) s' → l !! i = Some x →
  ∃ s t, returns (foldM f s0 (enumerate (take i l))) s ∧ returns (f s (i, x)) t.
Proof.
  intros Hret Hi. unfold enumerate in *.
  rewrite <-(take_drop_middle l i x Hi), enumerate_from_app in Hret. simpl in Hret.
  rewrite length_take, Nat.min_l in Hret by (apply lookup_lt_Some in Hi; lia).
  apply returns_foldM_split in Hret as (s & H1 & H2).
  apply returns_foldM_cons in H2 as (t & H2 & _). eauto.
Qed.
