(* ===== verification/TraceExample.v ===== *)
(** * An example set of logs

    A parent episode and the child it spawns, as the logs of one run: a read, a
    workflow firing with a branch and a recovery, a reserved and released child,
    and a compaction.  The witnesses of the trace checker's theorems are about
    these logs. *)

From stdpp Require Import base list strings.
From Stdlib Require Import ZArith.
From S2P Require Import Prelude PyValue PyText TraceLog.

Definition example_event (i : nat) (kind : string) (data : dict) : dict :=
  [("seq", VInt (Z.of_nat i)); ("time", VInt 0); ("type", VStr kind); ("data", VDict data)].
(** Events numbered by their positions. *)
Definition numbered (l : list (string * dict)) : list dict :=
  map (λ ie, example_event ie.1 ie.2.1 ie.2.2) (enumerate l).

Definition strings (l : list string) : value := VList (map VStr l).
Definition text_of (s : string) : value := VDict [("type", VStr "text"); ("text", VStr s)].
Definition user_of (s : string) : value := VDict [("role", VStr "user"); ("content", VList [text_of s])].

Definition example_task : string := "Summarise the notes".
Definition example_workflow : dict :=
  [("nodes", VDict [("plan", VDict [("max_fires", VInt 2);
                                    ("branches", VDict [("go", strings ["build"])])]);
                    ("build", VDict [])])].
Definition example_contract : dict :=
  [("grants", VDict [("read", strings ["/work"]); ("write", strings ["/work/out"]);
                     ("spawn", strings ["worker"])]);
   ("budget", VDict [("model_calls", VInt 20); ("max_concurrent", VInt 1); ("max_episodes", VInt 3)]);
   ("context", VDict [("compact", VBool true)]);
   ("done_when", VDict [("returns", VDict [("type", VStr "string")])]);
   ("workflow", VDict example_workflow)].
Definition example_sandbox : dict := [("mode", VStr "required"); ("landlock_abi", VInt 4)].

Definition call_of (id name path : string) : value :=
  VDict [("id", VStr id); ("name", VStr name); ("args", VDict [("path", VStr path)])].
Definition assistant_of (text : string) (calls : list value) : value :=
  VDict [("role", VStr "assistant"); ("text", VStr text); ("tool_calls", VList calls)].
Definition tool_of (id name rendered : string) : value :=
  VDict [("role", VStr "tool"); ("call_id", VStr id); ("name", VStr name); ("rendered", VStr rendered);
         ("is_error", VBool false)].

Definition request_event (id : string) (consumed : list Z) (messages : list value) : string * dict :=
  ("model/request", [("request_id", VStr id); ("header_seq", VInt 2);
                     ("consumed", VList (map VInt consumed)); ("messages", VList messages)]).
Definition answer_event (id text : string) (calls : list value) : string * dict :=
  ("assistant/message", [("request_id", VStr id); ("text", VStr text); ("tool_calls", VList calls);
                         ("usage", VDict [("input", VInt 100); ("output", VInt 10)])]).
Definition done_with (v : value) : dict := [("kind", VStr "completed"); ("value", v)].

Definition example_covered : dict := [("first_seq", VInt 1); ("last_seq", VInt 6)].
Definition example_state : dict :=
  [("covered", VDict example_covered); ("task", VStr example_task);
   ("done_when", VStr "a call to `return` with a value conforming to its schema");
   ("files", VDict [("read", strings ["notes.txt"]); ("written", VList []); ("edited", VList [])])].

(** The text a continuation opens with. *)
Definition example_continuation : string := join nl
  ["## Continuation state"; "";
   "covered: seq 1 to 6";
   "done_when: a call to `return` with a value conforming to its schema";
   "outstanding_findings: (none)";
   "files_read:"; "- notes.txt";
   "files_written: (none)";
   "files_edited: (none)";
   "children: (none)";
   "budget_remaining: model_calls unlimited, input_tokens unlimited, output_tokens unlimited, seconds unlimited";
   ""; "## Summary"; "";
   "Notes were read."].

Definition example_events : list dict := numbered
  [("episode/start", [("id", VStr "ep-1"); ("task", VStr example_task);
                      ("contract", VDict example_contract); ("sandbox", VDict example_sandbox)]);
   ("inbox/item", [("content", VList [text_of example_task])]);
   ("request/header", [("model", VDict [("provider", VStr "scripted")])]);
   request_event "r1" [1%Z] [user_of example_task];
   answer_event "r1" "" [call_of "c1" "read" "notes.txt"; call_of "c2" "read" "/etc/passwd"];
   ("tool/result", [("call_id", VStr "c1"); ("name", VStr "read"); ("rendered", VStr "some notes");
                    ("is_error", VBool false)]);
   ("tool/result", [("call_id", VStr "c2"); ("name", VStr "read"); ("rendered", VStr "outside the grant");
                    ("is_error", VBool true)]);
   ("workflow/node-start", [("node", VStr "plan"); ("fire", VInt 1); ("inputs", VList [VInt 1]);
                            ("child_id", VStr "ep-2")]);
   ("budget/reserve", [("child_id", VStr "ep-2"); ("reserved", VDict [("model_calls", VInt 5)])]);
   ("spawn/start", [("child_id", VStr "ep-2")]);
   ("spawn/end", [("child_id", VStr "ep-2"); ("outcome", VDict (done_with (VStr "three notes")))]);
   ("budget/release", [("child_id", VStr "ep-2"); ("spent", VDict [("model_calls", VInt 1)])]);
   ("workflow/node-end", [("node", VStr "plan"); ("fire", VInt 1)]);
   ("workflow/branch", [("node", VStr "plan"); ("fire", VInt 1); ("label", VStr "go");
                        ("successors", strings ["build"])]);
   ("workflow/recovery", [("action", VStr "retry")]);
   ("workflow/node-start", [("node", VStr "build"); ("fire", VInt 1); ("inputs", VList [VInt 12])]);
   ("workflow/node-end", [("node", VStr "build"); ("fire", VInt 1)]);
   request_event "r2" []
     [user_of example_task;
      assistant_of "" [call_of "c1" "read" "notes.txt"; call_of "c2" "read" "/etc/passwd"];
      tool_of "c1" "read" "some notes";
      VDict [("role", VStr "tool"); ("call_id", VStr "c2"); ("name", VStr "read");
             ("rendered", VStr "outside the grant"); ("is_error", VBool true)]];
   answer_event "r2" "The notes are read." [];
   ("compaction/start", [("covered", VDict example_covered)]);
   request_event "cmp_1" [] [];
   answer_event "cmp_1" "Notes were read." [];
   ("compaction/summary", [("summary", VStr "Notes were read."); ("summary_request_seq", VInt 20);
                           ("first_kept_seq", VInt 7); ("state", VDict example_state)]);
   ("compaction/end", [("ok", VBool true)]);
   request_event "r3" [] [user_of example_task; user_of example_continuation;
      assistant_of "The notes are read." []];
   answer_event "r3" "done" [];
   ("episode/end", [("outcome", VDict (done_with (VStr "done")))])].

Definition example_parent : EpisodeLog :=
  {| path := "/logs/ep-1.jsonl"; events := example_events; parse_error := None |}.

Definition example_child : EpisodeLog := {|
  path := "/logs/ep-2.jsonl";
  events := numbered
    [("episode/start", [("id", VStr "ep-2"); ("parent_id", VStr "ep-1"); ("task", VStr "Count the notes");
                        ("contract", VDict [("grants", VDict [("read", strings ["/work"])])]);
                        ("sandbox", VDict example_sandbox)]);
     ("inbox/item", [("content", VList [text_of "Count the notes"])]);
     ("request/header", [("model", VDict [("provider", VStr "scripted")])]);
     request_event "r1" [1%Z] [user_of "Count the notes"];
     answer_event "r1" "three notes" [];
     ("episode/end", [("outcome", VDict (done_with (VStr "three notes")))])];
  parse_error := None |}.

Definition example_logs : list EpisodeLog := [example_parent; example_child].
