(* ===== verification/TraceMessages.v ===== *)
(** * Rebuilding a request from the log

    [_messages_for_request] and [_render_continuation] of
    src/evals/trace_quality.py: the message list a model request must carry,
    derived from the events before it, and the text a compaction leaves in
    place of what it covered. *)

From stdpp Require Import base list sets strings pretty.
From Stdlib Require Import ZArith Lia.
From S2P Require Import Prelude PyValue PyText TraceLog TraceExample.


(** ** The continuation text *)

Section render.
(** [list_value]: a bullet per item. *)
Definition list_value (items : value) : string :=
  match items with
  | VList (x :: l) => String.concat "" (map (λ item, nl +:+ "- " +:+ py_str item) (x :: l))
  | _ => " (none)"
  end.

Definition child_line (child : dict) : string :=
  let outcome := dict_or_empty (dget_or child "outcome" (VDict [])) in
  let detail := dget_or outcome "code" (dget_or outcome "limit" (VStr "")) in
  let suffix := if truthy detail then " " +:+ py_str detail else "" in
  py_str (dget_or child "id" (VStr "")) +:+ " (" +:+ py_str (dget_or child "contract" (VStr ""))
    +:+ "): " +:+ py_str (dget_or outcome "kind" (VStr "")) +:+ suffix.

Definition child_lines (children : value) : list value :=
  match children with
  | VList l => map (λ d, VStr (child_line d)) (omap as_dict l)
  | _ => []
  end.

(** [amount]: a limit, or [unlimited]. *)
Definition amount (budget : dict) (name : string) : string :=
  let v := dget budget name in if is_int v then py_str v else "unlimited".

Definition render_continuation (summary : dict) : string :=
  let state := dict_or_empty (dget_or summary "state" (VDict [])) in
  let covered := dict_or_empty (dget_or state "covered" (VDict [])) in
  let files := dict_or_empty (dget_or state "files" (VDict [])) in
  let budget := dict_or_empty (dget_or state "budget_remaining" (VDict [])) in
  let children := child_lines (dget_or state "children" (VList [])) in
  let text d k := py_str (dget_or d k (VStr "")) in
  "## Continuation state" +:+ nl +:+ nl +:+
  join nl
    ["covered: seq " +:+ text covered "first_seq" +:+ " to " +:+ text covered "last_seq";
     "done_when: " +:+ text state "done_when";
     "outstanding_findings:" +:+ list_value (dget state "outstanding_findings");
     "files_read:" +:+ list_value (dget files "read");
     "files_written:" +:+ list_value (dget files "written");
     "files_edited:" +:+ list_value (dget files "edited");
     "children:" +:+ list_value (VList children);
     "budget_remaining: model_calls " +:+ amount budget "model_calls"
       +:+ ", input_tokens " +:+ amount budget "input_tokens"
       +:+ ", output_tokens " +:+ amount budget "output_tokens"
       +:+ ", seconds " +:+ amount budget "seconds"]
  +:+ nl +:+ nl +:+ "## Summary" +:+ nl +:+ nl +:+ text summary "summary".
End render.

(** ** The messages *)

(** A dictionary keyed by integers. *)
Fixpoint zassoc {A} (d : list (Z * A)) (k : Z) : option A :=
  match d with [] => None | (k', v) :: d => if (k' =? k)%Z then Some v else zassoc d k end.

Definition text_block (v : value) : value := VDict [("type", VStr "text"); ("text", v)].
Definition user_message (content : list value) : value :=
  VDict [("role", VStr "user"); ("content", VList content)].

(** A compaction's own request is not part of the conversation. *)
Definition is_compaction_id (s : string) : bool := starts_with "cmp_" s.
Definition conversation_id (v : value) : bool :=
  match v with VStr s => negb (is_compaction_id s) | _ => false end.

(** The latest [compaction/summary] among the events. *)
Fixpoint latest_summary (l : list dict) : option dict :=
  match l with
  | [] => None
  | e :: l =>
      match latest_summary l with
      | Some s => Some s
      | None => if String.eqb (event_type e) "compaction/summary" then Some (event_data e) else None
      end
  end.

Definition inner_call_id (e : dict) : option string :=
  if String.eqb (event_type e) "tool/inner-call" then as_str (dget (event_data e) "call_id") else None.

(** The content an [inbox/item] event offers under its [seq]. *)
Definition inbox_entry (e : dict) : option (Z * list value) :=
  if String.eqb (event_type e) "inbox/item" then
    match as_int (dget e "seq"), dget (event_data e) "content" with
    | Some seq, VList content => Some (seq, content)
    | _, _ => None
    end
  else None.

(** Later entries of one [seq] replace earlier ones, so they come first. *)
Definition inbox_of (l : list dict) : list (Z * list value) := rev (omap inbox_entry l).

Definition consumed_content (inbox : list (Z * list value)) (consumed : value) : list value :=
  match consumed with
  | VList l =>
      flat_map (λ v, match as_int v with Some seq => default [] (zassoc inbox seq) | None => [] end) l
  | _ => []
  end.

(** [add_consumed]: one user message, unless nothing was consumed. *)
Definition add_consumed (inbox : list (Z * list value)) (consumed : value) : list value :=
  match consumed_content inbox consumed with [] => [] | content => [user_message content] end.

Definition assistant_entry (data : dict) : value :=
  VDict ([("role", VStr "assistant"); ("text", dget_or data "text" (VStr ""));
          ("tool_calls", dget_or data "tool_calls" (VList []))]
         ++ match dget data "thinking" with
            | VList (x :: l) => [("thinking", VList (x :: l))]
            | _ => []
            end).

Definition tool_entry (data : dict) : value :=
  VDict [("role", VStr "tool"); ("call_id", dget_or data "call_id" (VStr ""));
         ("name", dget_or data "name" (VStr "")); ("rendered", dget_or data "rendered" (VStr ""));
         ("is_error", dget_or data "is_error" (VBool false))].

(** What one event contributes. *)
Definition event_messages (inbox : list (Z * list value)) (inner : list string) (e : dict)
    : res (list value) :=
  let kind := event_type e in
  let data := event_data e in
  if String.eqb kind "model/request" then
    Ok (if conversation_id (dget_or data "request_id" (VStr ""))
        then add_consumed inbox (dget data "consumed") else [])
  else if String.eqb kind "assistant/message" then
    Ok (if conversation_id (dget_or data "request_id" (VStr ""))
        then [assistant_entry data] else [])
  else if String.eqb kind "tool/result" then
    b ← in_set (dget data "call_id") inner;
    Ok (if (b : bool) then [] else [tool_entry data])
  else Ok [].

Definition in_window (from_seq index : Z) (e : dict) : bool :=
  match as_int (dget e "seq") with
  | Some seq => (from_seq <=? seq)%Z && (seq <? index)%Z
  | None => false
  end.

(** The messages a summary stands for, and the first event it leaves out. *)
Definition summary_messages (summary : option dict) : list value * Z :=
  match summary with
  | None => ([], 0%Z)
  | Some summary =>
      let task := match dget_or summary "state" (VDict []) with
                  | VDict state => dget_or state "task" (VStr "")
                  | _ => VStr "" end in
      ([user_message [text_block task];
        user_message [text_block (VStr (render_continuation summary))]],
       default 0%Z (as_int (dget_or summary "first_kept_seq" (VInt 0))))
  end.

Definition messages_for_request (log : EpisodeLog) (request_index : nat) : res value :=
  event ← py_index (events log) (Z.of_nat request_index);
  let request := event_data event in
  let compaction := match dget_or request "request_id" (VStr "") with
                    | VStr s => is_compaction_id s | _ => false end in
  if compaction then Ok (dget_or request "messages" (VList []))
  else
    let before := take request_index (events log) in
    let '(opening, from_seq) := summary_messages (latest_summary before) in
    let inner := omap inner_call_id before in
    let inbox := inbox_of (events log) in
    body ← mapM (event_messages inbox inner)
             (filter (λ e, in_window from_seq (Z.of_nat request_index) e = true) (events log));
    Ok (VList (opening ++ concat body ++ add_consumed inbox (dget request "consumed"))).

(** ** Lemmas *)

(** Event [k] carries the integer [k] as its [seq]. *)
Definition contiguous (l : list dict) : Prop :=
  ∀ k e, l !! k = Some e → as_int (dget e "seq") = Some (Z.of_nat k).

Lemma zassoc_app {A} (d1 d2 : list (Z * A)) k :
  zassoc (d1 ++ d2) k = match zassoc d1 k with Some v => Some v | None => zassoc d2 k end.
Proof. induction d1 as [|[k1 v1] d1 IH]; simpl; [done|]. by destruct (k1 =? k)%Z. Qed.

Lemma inbox_entry_seq e s c : inbox_entry e = Some (s, c) → as_int (dget e "seq") = Some s.
Proof. unfold inbox_entry. intros. repeat case_match; simplify_eq. done. Qed.

Lemma inbox_outside l lo k :
  (∀ i e, l !! i = Some e → as_int (dget e "seq") = Some (lo + Z.of_nat i)%Z) →
  (k < lo ∨ lo + Z.of_nat (length l) ≤ k)%Z → zassoc (inbox_of l) k = None.
Proof.
  unfold inbox_of. revert lo. induction l as [|e l IH]; intros lo Hseq Hk; [done|].
  assert (zassoc (rev (omap inbox_entry l)) k = None) as Hrest.
  { apply (IH (lo + 1)%Z); [|simpl in Hk; lia].
    intros i x Hi. rewrite (Hseq (S i) x) by done. f_equal. lia. }
  csimpl. destruct (inbox_entry e) as [[s c]|] eqn:E; [|done].
  cbn [rev]. rewrite zassoc_app, Hrest. simpl.
  apply inbox_entry_seq in E. rewrite (Hseq 0 e) in E by done. simplify_eq.
  destruct (Z.eqb_spec (lo + Z.of_nat 0) k); [simpl in *; lia|done].
Qed.

(** The inbox of a contiguous log, at one of the first [n] positions, is the
    inbox of the first [n] events. *)
Lemma inbox_take l n k :
  contiguous l → (k < Z.of_nat n)%Z → zassoc (inbox_of l) k = zassoc (inbox_of (take n l)) k.
Proof.
  intros Hc Hk. unfold inbox_of at 1. rewrite <-(take_drop n l) at 1.
  rewrite omap_app, rev_app_distr, zassoc_app.
  enough (zassoc (rev (omap inbox_entry (drop n l))) k = None) as -> by done.
  apply (inbox_outside (drop n l) (Z.of_nat n)); [|left; lia].
  intros i e. rewrite lookup_drop. intros He. rewrite (Hc _ _ He). f_equal. lia.
Qed.

Lemma window_take l from i :
  contiguous l →
  filter (λ e, in_window from (Z.of_nat i) e = true) l
  = filter (λ e, in_window from (Z.of_nat i) e = true) (take i l).
Proof.
  intros Hc. rewrite <-(take_drop i l) at 1. rewrite filter_app.
  replace (filter _ (drop i l)) with (@nil dict); [by rewrite app_nil_r|].
  symmetry. apply filter_none. intros e [k He]%list_elem_of_lookup.
  rewrite lookup_drop in He. unfold in_window. rewrite (Hc _ _ He).
  destruct (Z.ltb_spec (Z.of_nat (i + k)) (Z.of_nat i)); [lia|].
  by rewrite andb_false_r.
Qed.

(** Every sequence number the value lists is below [bound]. *)
Definition consumed_below (bound : Z) (consumed : value) : Prop :=
  match consumed with
  | VList l => ∀ v s, v ∈ l → as_int v = Some s → (s < bound)%Z
  | _ => True
  end.

Lemma consumed_content_ext bound inbox1 inbox2 v :
  consumed_below bound v →
  (∀ k, (k < bound)%Z → zassoc inbox1 k = zassoc inbox2 k) →
  consumed_content inbox1 v = consumed_content inbox2 v.
Proof.
  intros Hb Hin. destruct v as [| | | | |l|]; try done. simpl in *.
  induction l as [|x l IH]; simpl; [done|]. rewrite IH by set_solver. f_equal.
  destruct (as_int x) as [s|] eqn:E; [|done]. by rewrite Hin by (eapply Hb; [|done]; set_solver).
Qed.

Lemma event_messages_ext bound inbox1 inbox2 inner e :
  consumed_below bound (dget (event_data e) "consumed") →
  (∀ k, (k < bound)%Z → zassoc inbox1 k = zassoc inbox2 k) →
  event_messages inbox1 inner e = event_messages inbox2 inner e.
Proof.
  intros Hb Hin. unfold event_messages, add_consumed.
  by rewrite (consumed_content_ext bound inbox1 inbox2) by done.
Qed.

(** ** Replay *)

(** Every event consumes sequence numbers below its own position. *)
Definition consumes_earlier (l : list dict) : Prop :=
  ∀ k e, l !! k = Some e → consumed_below (Z.of_nat k) (dget (event_data e) "consumed").

Lemma consumed_below_mono a b v : (a ≤ b)%Z → consumed_below a v → consumed_below b v.
Proof. intros Hab Ha. destruct v; try done. simpl in *. intros x s Hx Hs. specialize (Ha x s Hx Hs). lia. Qed.

Lemma consumes_earlier_elem l n e :
  consumes_earlier l → e ∈ take n l → consumed_below (Z.of_nat n) (dget (event_data e) "consumed").
Proof.
  intros Hl (k & Hk & ?)%elem_of_take. apply (consumed_below_mono (Z.of_nat k)); [lia|]. by apply Hl.
Qed.

Definition request_of (e : dict) : bool :=
  conversation_id (dget_or (event_data e) "request_id" (VStr "")).

(** A request that carries its messages itself. *)
Definition compaction_request (e : dict) : bool :=
  match dget_or (event_data e) "request_id" (VStr "") with VStr s => is_compaction_id s | _ => false end.
Lemma request_of_not_compaction e : request_of e = true → compaction_request e = false.
Proof.
  unfold request_of, compaction_request. destruct (dget_or _ _ _); try done. apply negb_true_iff.
Qed.

(** The three parts of the rebuilt messages: what a summary stands for, what
    the events of the window add, and what the request itself consumes.  Only
    the events up to the request occur. *)
Lemma messages_for_request_eq log i request :
  events log !! i = Some request → compaction_request request = false →
  contiguous (events log) → consumes_earlier (take (S i) (events log)) →
  messages_for_request log i =
    (let before := take i (events log) in
     let inbox := inbox_of (take (S i) (events log)) in
     let s := summary_messages (latest_summary before) in
     body ← mapM (event_messages inbox (omap inner_call_id before))
              (filter (λ e, in_window s.2 (Z.of_nat i) e = true) before);
     Ok (VList (s.1 ++ concat body ++ add_consumed inbox (dget (event_data request) "consumed")))).
Proof.
  intros Hi Hid Hc Hcons. unfold messages_for_request, compaction_request in *.
  rewrite (py_index_nonneg _ _ _ Hi). cbn [mbind res_bind].
  assert (∀ e, e ∈ take (S i) (events log) →
    consumed_below (Z.of_nat (S i)) (dget (event_data e) "consumed")) as Hb.
  { intros e He. apply (consumes_earlier_elem (take (S i) (events log))); [done|].
    by rewrite take_take, Nat.min_id. }
  rewrite Hid.
  destruct (summary_messages _) as [opening from] eqn:Es. cbn [fst snd].
  rewrite window_take by done. unfold add_consumed.
  rewrite (consumed_content_ext _ _ (inbox_of (take (S i) (events log))) _ (Hb request ltac:(
    apply elem_of_take; eauto with lia)) (λ k, inbox_take _ _ k Hc)).
  erewrite mapM_res_ext; [done|]. intros e [_ He]%list_elem_of_filter.
  apply (event_messages_ext (Z.of_nat (S i))); [|intros; by apply inbox_take].
  apply Hb. apply elem_of_take in He as (k & ? & ?). apply elem_of_take. eauto with lia.
Qed.

(** Claim C18. Replay: for logs whose events carry their positions as [seq], the
    messages of a request are determined by the events up to and including it.
    Two such logs that agree up to position [i], and in which no event up to
    there consumes an inbox item recorded at or after its own position, rebuild the
    same messages (or the same error) for it, whatever either records
    afterwards.  The last condition is needed: [later_inbox_read]. *)
Theorem messages_determined_by_prefix log1 log2 i :
  contiguous (events log1) → contiguous (events log2) →
  take (S i) (events log1) = take (S i) (events log2) →
  consumes_earlier (take (S i) (events log1)) →
  messages_for_request log1 i = messages_for_request log2 i.
Proof.
  intros Hc1 Hc2 Heq Hcons. assert (events log1 !! i = events log2 !! i) as Hi2.
  { by rewrite <-(lookup_take_lt (events log1) (S i)), Heq, lookup_take_lt by lia. }
  destruct (events log1 !! i) as [request|] eqn:Hi.
  - destruct (compaction_request request) eqn:Hid.
    { unfold messages_for_request. rewrite (py_index_nonneg _ _ _ Hi), (py_index_nonneg _ _ _ (eq_sym Hi2)).
      cbn [mbind res_bind]. unfold compaction_request in Hid. by rewrite Hid. }
    rewrite (messages_for_request_eq log1 i request), (messages_for_request_eq log2 i request);
      try done; [|by rewrite <-Heq].
    assert (take i (events log1) = take i (events log2)) as Hb.
    { apply (f_equal (take i)) in Heq. rewrite !take_take in Heq.
      by replace (i `min` S i) with i in Heq by lia. }
    by rewrite Heq, Hb.
  - symmetry in Hi2. apply lookup_ge_None in Hi, Hi2. rewrite !take_ge in Heq by lia.
    unfold messages_for_request. by rewrite Heq.
Qed.

Lemma latest_summary_app l1 l2 :
  (∀ e, e ∈ l2 → event_type e ≠ "compaction/summary") →
  latest_summary (l1 ++ l2) = latest_summary l1.
Proof.
  intros H2. assert (latest_summary l2 = None) as Hn.
  { clear l1. induction l2 as [|e l2 IH]; [done|]. simpl. rewrite IH by set_solver.
    destruct (String.eqb_spec (event_type e) "compaction/summary") as [E|]; [|done].
    by destruct (H2 e); [set_solver|]. }
  induction l1 as [|e l1 IH]; [done|]. simpl. by rewrite IH.
Qed.

Lemma in_set_app v l1 l2 :
  (∀ c, c ∈ l2 → v ≠ VStr c) → in_set v (l1 ++ l2) = in_set v l1.
Proof.
  intros H2. unfold in_set. destruct (hashable v); [|done]. f_equal. destruct v; try done.
  unfold elem_str. rewrite existsb_app.
  enough (existsb (String.eqb s) l2 = false) as -> by by rewrite orb_false_r.
  apply elem_str_false. intros Hs. by apply (H2 _ Hs).
Qed.

(** Between positions [i] and [j] nothing rewrites what came before: no
    summary is recorded, and no inner call claims a result already recorded. *)
Record quiet (l : list dict) (i j : nat) : Prop := {
  quiet_summary : ∀ e, e ∈ drop i (take j l) → event_type e ≠ "compaction/summary";
  quiet_inner : ∀ e c e', e ∈ drop i (take j l) → inner_call_id e = Some c →
    e' ∈ take i l → event_type e' = "tool/result" → dget (event_data e') "call_id" ≠ VStr c;
}.

Lemma event_messages_inner inbox l1 l2 e :
  (∀ c, c ∈ l2 → event_type e = "tool/result" → dget (event_data e) "call_id" ≠ VStr c) →
  event_messages inbox (l1 ++ l2) e = event_messages inbox l1 e.
Proof.
  intros H. unfold event_messages.
  destruct (String.eqb (event_type e) "model/request"); [done|].
  destruct (String.eqb (event_type e) "assistant/message"); [done|].
  destruct (String.eqb_spec (event_type e) "tool/result"); [|done].
  rewrite in_set_app; [done|]. eauto.
Qed.

Lemma event_messages_request inbox inner e :
  event_type e = "model/request" → request_of e = true →
  event_messages inbox inner e = Ok (add_consumed inbox (dget (event_data e) "consumed")).
Proof. unfold event_messages, request_of. intros -> ->. done. Qed.

Lemma window_extend l from (i j : nat) :
  contiguous l → i ≤ j →
  filter (λ e, in_window from (Z.of_nat j) e = true) (take i l)
  = filter (λ e, in_window from (Z.of_nat i) e = true) (take i l).
Proof.
  intros Hc Hij. apply filter_ext_elem. intros e (k & Hk & ?)%elem_of_take.
  unfold in_window. rewrite (Hc _ _ Hk).
  destruct (Z.ltb_spec (Z.of_nat k) (Z.of_nat j)), (Z.ltb_spec (Z.of_nat k) (Z.of_nat i)); lia || done.
Qed.

(** The conversation only grows: when nothing between two requests
    rewrites history, the messages rebuilt for the earlier request are a
    prefix of those rebuilt for the later one, which is what keeps request
    prefixes stable for a provider's cache. *)
Theorem messages_prefix_stable log (i j : nat) ri rj mi mj :
  i < j → contiguous (events log) → consumes_earlier (events log) →
  events log !! i = Some ri → event_type ri = "model/request" → request_of ri = true →
  events log !! j = Some rj → request_of rj = true →
  quiet (events log) i j →
  ((summary_messages (latest_summary (take i (events log)))).2 ≤ Z.of_nat i)%Z →
  messages_for_request log i = Ok (VList mi) →
  messages_for_request log j = Ok (VList mj) →
  mi `prefix_of` mj.
Proof.
  intros Hij Hc Hcons Hri Hti Hidi Hrj Hidj [Hsum Hinner] Hfrom.
  assert (∀ n, consumes_earlier (take n (events log))) as Hcn.
  { intros n k e [Hk _]%lookup_take_Some. by apply Hcons. }
  rewrite (messages_for_request_eq log i ri), (messages_for_request_eq log j rj) by (done || by apply request_of_not_compaction).
  set (l := events log) in *. cbv zeta.
  assert (take j l = take i l ++ drop i (take j l)) as Hsplit.
  { rewrite <-(take_drop i (take j l)) at 1. by rewrite take_take, Nat.min_l by lia. }
  assert (∃ mid, drop i (take j l) = ri :: mid) as [mid Hmid].
  { exists (drop (S i) (take j l)). apply drop_S. rewrite lookup_take_lt; [done|lia]. }
  assert (latest_summary (take j l) = latest_summary (take i l)) as ->.
  { rewrite Hsplit. by apply latest_summary_app. }
  set (s := summary_messages (latest_summary (take i l))) in *.
  rewrite Hsplit, omap_app, filter_app, (window_extend l s.2 i j) by (done || lia).
  rewrite mapM_res_app.
  rewrite (mapM_res_ext
    (event_messages (inbox_of (take (S j) l)) (omap inner_call_id (take i l) ++ _))
    (event_messages (inbox_of (take (S i) l)) (omap inner_call_id (take i l)))
    (filter _ (take i l))).
  2: { intros e [_ He]%list_elem_of_filter. rewrite event_messages_inner.
       - apply (event_messages_ext (Z.of_nat (S i))).
         + apply (consumed_below_mono (Z.of_nat i)); [lia|]. by apply (consumes_earlier_elem l).
         + intros k Hk. rewrite <-!inbox_take by (done || lia). done.
       - intros c (e2 & He2 & Hc2)%list_elem_of_omap Ht. by apply (Hinner e2 c e). }
  destruct (mapM _ _) as [body|] eqn:Ebody; [|done]. cbn [mbind res_bind].
  intros [= <-]. rewrite Hmid, filter_cons_True.
  2: { unfold in_window. rewrite (Hc _ _ Hri).
       destruct (Z.leb_spec s.2 (Z.of_nat i)); [|lia].
       destruct (Z.ltb_spec (Z.of_nat i) (Z.of_nat j)); [done|lia]. }
  cbn [mapM]. rewrite event_messages_request by done. cbn [mbind res_bind].
  destruct (mapM _ (filter _ mid)) as [rest|]; [|done].
  intros [= <-]. rewrite concat_app. simpl. rewrite <-!(assoc_L (++)).
  apply prefix_app, prefix_app.
  assert (consumed_below (Z.of_nat (S i)) (dget (event_data ri) "consumed")) as Hb.
  { apply (consumed_below_mono (Z.of_nat i)); [lia|]. by apply Hcons. }
  unfold add_consumed.
  rewrite (consumed_content_ext _ (inbox_of (take (S j) l)) (inbox_of (take (S i) l)) _ Hb).
  - apply prefix_app_r. done.
  - intros k Hk. rewrite <-!inbox_take by (done || lia). done.
Qed.

(** ** The claims at a concrete log *)

Lemma contiguous_computed l :
  forallb (λ ke, bool_decide (as_int (dget ke.2 "seq") = Some (Z.of_nat ke.1))) (enumerate l) = true →
  contiguous l.
Proof.
  intros H k e He. apply (lookup_forallb (λ k e, bool_decide (as_int (dget e "seq") = Some (Z.of_nat k)))
    _ _ _ H) in He. by apply bool_decide_eq_true in He.
Qed.

Definition consumed_belowb (bound : Z) (consumed : value) : bool :=
  match consumed with
  | VList l => forallb (λ v, match as_int v with Some s => (s <? bound)%Z | None => true end) l
  | _ => true
  end.

Lemma consumes_earlier_computed l :
  forallb (λ ke, consumed_belowb (Z.of_nat ke.1) (dget (event_data ke.2) "consumed")) (enumerate l) = true →
  consumes_earlier l.
Proof.
  intros H k e He. apply (lookup_forallb (λ k e, consumed_belowb (Z.of_nat k) (dget (event_data e) "consumed"))
    _ _ _ H) in He.
  destruct (dget (event_data e) "consumed") as [| | | | |vs|]; try done. simpl in *.
  intros v s Hv Hs. rewrite forallb_forall in He. apply list_elem_of_In, He in Hv. rewrite Hs in Hv. lia.
Qed.

Lemma quiet_computed l i j :
  forallb (λ e, negb (String.eqb (event_type e) "compaction/summary")
                && match inner_call_id e with None => true | Some _ => false end) (drop i (take j l)) = true →
  quiet l i j.
Proof.
  rewrite forallb_forall. intros H. split.
  - intros e He%list_elem_of_In%H Ht. by rewrite Ht in He.
  - intros e c e' He%list_elem_of_In%H Hc. by rewrite Hc, andb_false_r in He.
Qed.

(** The example log as it stood when its second request was made. *)
Definition example_prefix : EpisodeLog :=
  {| path := "/logs/copy.jsonl"; events := take 18 example_events; parse_error := None |}.

Lemma messages_determined_by_prefix_witness :
  messages_for_request example_parent 17 = messages_for_request example_prefix 17.
Proof.
  apply (messages_determined_by_prefix example_parent example_prefix 17);
    [apply contiguous_computed; vm_compute; reflexivity
    |apply contiguous_computed; vm_compute; reflexivity
    |vm_compute; reflexivity
    |apply consumes_earlier_computed; vm_compute; reflexivity].
Defined.

(** The inbox is read from the whole log: a request that consumes an item
    recorded after it is rebuilt from that later item. *)
Definition early_request (later : string) : EpisodeLog := {|
  path := "/logs/ep-4.jsonl";
  events := numbered
    [("episode/start", [("id", VStr "ep-4")]); request_event "r1" [2%Z] []; ("inbox/item", [("content", VList [text_of later])])];
  parse_error := None |}.
Example later_inbox_read :
  messages_for_request (early_request "one") 1 = Ok (VList [user_of "one"]) ∧
  messages_for_request (early_request "two") 1 = Ok (VList [user_of "two"]) ∧
  take 2 (events (early_request "one")) = take 2 (events (early_request "two")).
Proof. repeat split; vm_compute; reflexivity. Qed.

Lemma messages_prefix_stable_witness :
  ∃ mi mj, messages_for_request example_parent 3 = Ok (VList mi) ∧
    messages_for_request example_parent 17 = Ok (VList mj) ∧ length mi = 1 ∧ length mj = 4 ∧ mi `prefix_of` mj.
Proof.
  eexists. eexists. split; [vm_compute; reflexivity|]. split; [vm_compute; reflexivity|].
  split; [reflexivity|]. split; [reflexivity|].
  apply (messages_prefix_stable example_parent 3 17
           (default [] (example_events !! 3)) (default [] (example_events !! 17)));
    [lia|apply contiguous_computed; vm_compute; reflexivity
    |apply consumes_earlier_computed; vm_compute; reflexivity
    |vm_compute; reflexivity|vm_compute; reflexivity|vm_compute; reflexivity|vm_compute; reflexivity
    |vm_compute; reflexivity|apply quiet_computed; vm_compute; reflexivity|vm_compute; discriminate
    |vm_compute; reflexivity|vm_compute; reflexivity].
Defined.
