(* ===== verification/TraceEvidence.v ===== *)
(** * Reconstructable evidence

    [_check_artifact], [_check_team_messages] and [_check_evidence] of
    src/evals/trace_quality.py: the envelope of every event, the retained
    files, the message queue, and the pairing of requests, tool calls and
    results. *)

From Stdlib Require Import Ascii.
From stdpp Require Import base list sets strings pretty.
From Stdlib Require Import ZArith Lia.
From S2P Require Import Prelude PyValue PyText PyJson Sha256 PyPath TraceLog TraceExample TraceMessages.

Definition Evidence := reconstructable_evidence.

(** ** Retained files *)

(** What a path of the log directory names. *)
Inductive file_entry : Type :=
| Absent
| Symlink
| Directory
| Regular (content : string)
| Unreadable (error : string).

(** [path.parent / "spill" / name]. *)
Definition spill_path (log : EpisodeLog) (name : string) : string :=
  parent (path log) +:+ "/spill/" +:+ name.

Definition is_hex (c : ascii) : bool := byte_in 48 57 c || byte_in 97 102 c.
Fixpoint all_hex (s : string) : bool :=
  match s with EmptyString => true | String c s => is_hex c && all_hex s end.

(** [type(v) is bool], [type(v) is int]. *)
Definition exact_int (v : value) : option Z := match v with VInt z => Some z | _ => None end.

Section artifacts.
(** The file system under the log directory. *)
Variable fs : string → file_entry.

(** The locator's own rules. *)
Definition rendering_rules (name : string) (digest : value) : res () :=
  match digest with
  | VStr d =>
      raise_if (negb (py_len d =? 71) || negb (starts_with "sha256:" d))
        (ValueError "rendering digest must be SHA-256");;
      let hex := str_drop 7 d in
      raise_if (negb (String.eqb name ("renderings/" +:+ hex +:+ ".txt")) || negb (all_hex hex))
        (ValueError "rendering file must be derived from its digest")
  | _ => Err (ValueError "rendering digest must be SHA-256")
  end.

Definition canonical_rules (name : string) (locator data : dict) : res () :=
  raise_if (negb (String.eqb (path_name name) name) || String.eqb name "." || String.eqb name ".."
            || negb (is_string name (dget locator "spill"))
            || negb (is_bool (dget locator "is_error"))
            || negb (py_eq (dget locator "is_error") (dget data "is_error")))
    (ValueError "canonical locator requires a single-component file and matching is_error").

Definition content_rules (rendering : bool) (locator : dict) (count : Z) (content : string) : res () :=
  raise_if (negb (Z.of_nat (String.length content) =? count)%Z)
    (ValueError "archive byte length differs");;
  raise_if (has_key locator "digest"
            && negb (is_string ("sha256:" +:+ sha256_hex content) (dget locator "digest")))
    (ValueError "archive digest differs");;
  if rendering then
    match utf8_fault false content with
    | None => Ok ()
    | Some f => Err (ValueError (decode_fault_str f))
    end
  else
    match loads_bytes reject_constant content with
    | inl _ => Ok ()
    | inr e => Err (ValueError (load_error_str e))
    end.

(** The body of the [try] block. *)
Definition artifact (log : EpisodeLog) (data : dict) (rendering : bool) : res () :=
  match (if rendering then VDict data else dget data "value") with
  | VDict locator =>
      match (if rendering then dget locator "file" else dget data "spill") with
      | VStr name =>
          raise_if (String.eqb name "") (ValueError "file must be a non-empty string");;
          (if rendering then rendering_rules name (dget locator "digest")
           else canonical_rules name locator data);;
          match exact_int (dget locator "bytes") with
          | Some count =>
              raise_if (count <? 0)%Z (ValueError "bytes must be an unsigned integer");;
              match fs (spill_path log name) with
              | Regular content => content_rules rendering locator count content
              | Unreadable e => Err (OSError e)
              | _ => Err (ValueError "archive must be a regular file")
              end
          | None => Err (ValueError "bytes must be an unsigned integer")
          end
      | _ => Err (ValueError "file must be a non-empty string")
      end
  | _ => Err (ValueError "locator must be an object")
  end.

Definition check_artifact (log : EpisodeLog) (index : nat) (data : dict) (rendering : bool) : Ev () :=
  if negb rendering && is_none (dget data "spill") then mret ()
  else
    let label := if rendering then "tool/rendering-archive: " else "tool/result spill: " in
    match artifact log data rendering with
    | Ok _ => check Evidence true (label +:+ "content matches locator") log (idx index)
    | Err e => check Evidence false (label +:+ exn_str e) log (idx index)
    end.
End artifacts.

(** ** Team messages *)

Record team : Type := {
  queued : list (string * dict);
  received : list string;
}.

(** [isinstance(message_id, str) and bool(message_id)]. *)
Definition valid_id (v : value) : option string :=
  match v with VStr s => if String.eqb s "" then None else Some s | _ => None end.

Definition team_step (log : EpisodeLog) (st : team) (ie : nat * dict) : Ev team :=
  let '(index, event) := ie in
  let kind := event_type event in
  let data := event_data event in
  let id := valid_id (dget data "message_id") in
  if String.eqb kind "team/message" then
    check Evidence (match id with Some m => negb (has_key (queued st) m) | None => false end)
      "team/message.message_id must be present and unique" log (idx index);;
    mret (match id with
          | Some m => {| queued := dset (queued st) m data; received := received st |}
          | None => st end)
  else if String.eqb kind "team/delivered" then
    check Evidence
      (match m ← id; assoc (queued st) m with
       | Some source => py_eq (dget source "to") (dget data "to")
       | None => false end)
      "team/delivered must name an earlier message and its recipient" log (idx index);;
    mret st
  else if String.eqb kind "inbox/item" && is_string "peer" (dget data "source") then
    check Evidence (match id with Some m => negb (elem_str m (received st)) | None => false end)
      "peer inbox message_id must be present and recorded once" log (idx index);;
    mret (match id with
          | Some m => {| queued := queued st; received := set_add m (received st) |}
          | None => st end)
  else mret st.

Definition check_team_messages (log : EpisodeLog) : Ev () :=
  foldM (team_step log) {| queued := []; received := [] |} (enumerate (events log));;
  mret ().

(** ** The envelope *)

Definition envelope_step (log : EpisodeLog) (_ : ()) (ie : nat * dict) : Ev () :=
  let '(index, event) := ie in
  check Evidence (py_eq (dget event "seq") (idx index))
    "seq is not contiguous from zero" log (idx index);;
  check Evidence
    (is_int (dget event "time") && is_str (dget event "type") && is_dict (dget event "data"))
    "the event envelope does not contain integer time, string type, and object data"
    log (idx index).

Definition events_of (kind : string) (l : list dict) : list dict :=
  filter (λ e, String.eqb (event_type e) kind = true) l.
Definition type_at (l : list dict) (i : nat) : string :=
  match l !! i with Some e => event_type e | None => "" end.

Definition check_bracket (log : EpisodeLog) : Ev () :=
  let l := events log in
  check Evidence ((length (events_of "episode/start" l) =? 1) && String.eqb (type_at l 0) "episode/start")
    "exactly one episode/start must appear first" log (VInt 0);;
  check Evidence
    ((length (events_of "episode/end" l) =? 1) && String.eqb (type_at l (length l - 1)) "episode/end")
    "exactly one episode/end must appear last" log (VInt (Z.of_nat (length l) - 1)).

(** ** Requests, calls and results *)

Record evidence : Type := {
  latest_header : option nat;
  inbox_consumed : list Z;
  requests : list (string * nat);
  calls : list (string * (nat * string));
  model_issued_calls : list string;
  inner_indices : list (string * list Z);
  results : list (string * list (nat * dict));
}.
Definition no_evidence : evidence := {|
  latest_header := None; inbox_consumed := []; requests := []; calls := [];
  model_issued_calls := []; inner_indices := []; results := [] |}.

Definition set_latest_header i (st : evidence) : evidence :=
  {| latest_header := Some i; inbox_consumed := inbox_consumed st; requests := requests st;
     calls := calls st; model_issued_calls := model_issued_calls st;
     inner_indices := inner_indices st; results := results st |}.
Definition set_consumed c (st : evidence) : evidence :=
  {| latest_header := latest_header st; inbox_consumed := c; requests := requests st;
     calls := calls st; model_issued_calls := model_issued_calls st;
     inner_indices := inner_indices st; results := results st |}.
Definition set_requests r (st : evidence) : evidence :=
  {| latest_header := latest_header st; inbox_consumed := inbox_consumed st; requests := r;
     calls := calls st; model_issued_calls := model_issued_calls st;
     inner_indices := inner_indices st; results := results st |}.
Definition set_calls c m (st : evidence) : evidence :=
  {| latest_header := latest_header st; inbox_consumed := inbox_consumed st; requests := requests st;
     calls := c; model_issued_calls := m;
     inner_indices := inner_indices st; results := results st |}.
Definition set_inner i (st : evidence) : evidence :=
  {| latest_header := latest_header st; inbox_consumed := inbox_consumed st; requests := requests st;
     calls := calls st; model_issued_calls := model_issued_calls st;
     inner_indices := i; results := results st |}.
Definition set_results r (st : evidence) : evidence :=
  {| latest_header := latest_header st; inbox_consumed := inbox_consumed st; requests := requests st;
     calls := calls st; model_issued_calls := model_issued_calls st;
     inner_indices := inner_indices st; results := r |}.

(** The loop over [consumed]: whether every entry so far names an earlier,
    unconsumed inbox item, and what has been consumed. *)
Definition consume_step (l : list dict) (index : nat) (st : bool * list Z) (v : value)
    : res (bool * list Z) :=
  let '(valid, seen) := st in
  match as_int v with
  | None => Ok (false, seen)
  | Some seq =>
      valid' ←
        (if valid && (seq <? Z.of_nat index)%Z && negb (existsb (Z.eqb seq) seen)
         then e ← py_index l seq; Ok (String.eqb (event_type e) "inbox/item")
         else Ok false);
      Ok (valid' : bool, if existsb (Z.eqb seq) seen then seen else seq :: seen)
  end.

Definition names_request (st : evidence) (index : nat) (v : value) : bool :=
  match v with
  | VStr r => match assoc (requests st) r with Some i => i <? index | None => false end
  | _ => false
  end.

(** [calls[id] = (index, name); model_issued_calls.add(id)]. *)
Definition add_call (index : nat) (id name : string) (st : evidence) : evidence :=
  set_calls (dset (calls st) id (index, name)) (set_add id (model_issued_calls st)) st.

Definition model_request_step (log : EpisodeLog) (st : evidence) (index : nat) (data : dict) : Ev evidence :=
  let request_id := dget data "request_id" in
  check Evidence
    (match request_id with VStr r => negb (has_key (requests st) r) | _ => false end)
    "request_id is absent or repeated" log (idx index);;
  let st := match request_id with VStr r => set_requests (dset (requests st) r index) st | _ => st end in
  check Evidence
    (py_eq (dget data "header_seq") (match latest_header st with Some h => idx h | None => VNone end))
    "header_seq does not name the request/header in effect" log (idx index);;
  '(valid, seen) ← lift (match dget_or data "consumed" (VList []) with
                         | VList l => foldM (consume_step (events log) index) (true, inbox_consumed st) l
                         | _ => Ok (false, inbox_consumed st) end);
  check Evidence valid "consumed must name earlier, previously unconsumed inbox items" log (idx index);;
  (if conversation_id request_id then
     expected ← lift (messages_for_request log index);
     check Evidence (py_eq (dget data "messages") expected)
       "model/request.messages cannot be reconstructed from earlier events" log (idx index)
   else mret ());;
  mret (set_consumed seen st).

Definition tool_call_step (log : EpisodeLog) (index : nat) (st : evidence) (call : value) : Ev evidence :=
  match call with
  | VDict call =>
      let id := dget call "id" in
      let name := dget call "name" in
      check Evidence
        (match id, name with VStr c, VStr _ => negb (has_key (calls st) c) | _, _ => false end)
        "a tool call id is absent or repeated" log (idx index);;
      mret (match id, name with VStr c, VStr n => add_call index c n st | _, _ => st end)
  | _ => mret st
  end.

Definition assistant_step (log : EpisodeLog) (st : evidence) (index : nat) (data : dict) : Ev evidence :=
  check Evidence (names_request st index (dget data "request_id"))
    "assistant/message does not name an earlier model/request" log (idx index);;
  match dget_or data "tool_calls" (VList []) with
  | VList l => foldM (tool_call_step log index) st l
  | _ => mret st
  end.

(** [inner_indices.setdefault(outer, [])], and the index appended to it. *)
Definition indices_of (st : evidence) (outer : value) : list Z :=
  match outer with VStr o => default [] (assoc (inner_indices st) o) | _ => [] end.
Definition push_index (st : evidence) (outer : value) (inner_index : option Z) : evidence :=
  match outer with
  | VStr o => set_inner (dset (inner_indices st) o (indices_of st outer ++ option_list inner_index)) st
  | _ => st
  end.

Definition inner_call_step (log : EpisodeLog) (st : evidence) (index : nat) (data : dict) : Ev evidence :=
  let outer := dget data "outer_call_id" in
  let id := dget data "call_id" in
  let name := dget data "name" in
  let inner_index := as_int (dget data "index") in
  check Evidence
    (match outer with
     | VStr o => elem_str o (model_issued_calls st) && negb (has_key (results st) o)
     | _ => false end)
    "tool/inner-call.outer_call_id must name one unsettled model-issued call" log (idx index);;
  let valid_call := match id, name with VStr c, VStr _ => negb (has_key (calls st) c) | _, _ => false end in
  check Evidence valid_call "tool/inner-call must have a unique call_id and a string name" log (idx index);;
  check Evidence
    (match inner_index with
     | Some i => (i =? Z.of_nat (length (indices_of st outer)))%Z | None => false end)
    "tool/inner-call.index must count from zero within its outer call" log (idx index);;
  let st := push_index st outer inner_index in
  mret (match valid_call, id, name with
        | true, VStr c, VStr n => set_calls (dset (calls st) c (index, n)) (model_issued_calls st) st
        | _, _, _ => st end).

Definition result_step (st : evidence) (index : nat) (data : dict) : evidence :=
  match dget data "call_id" with
  | VStr c =>
      set_results (dset (results st) c (default [] (assoc (results st) c) ++ [(index, data)])) st
  | _ => st
  end.

Section evidence.
Variable fs : string → file_entry.

Definition archive_step (log : EpisodeLog) (index : nat) (data : dict) : Ev () :=
  check_artifact fs log index data true;;
  let following := default [] (events log !! S index) in
  let result := event_data following in
  check Evidence
    (String.eqb (event_type following) "tool/result"
     && py_eq (dget result "step") (dget data "step")
     && py_eq (dget result "call_id") (dget data "call_id"))
    "tool/rendering-archive must immediately precede its matching tool/result" log (idx index).

Definition evidence_step (log : EpisodeLog) (st : evidence) (ie : nat * dict) : Ev evidence :=
  let '(index, event) := ie in
  let kind := event_type event in
  let data := event_data event in
  if String.eqb kind "request/header" then mret (set_latest_header index st)
  else if String.eqb kind "model/request" then model_request_step log st index data
  else if String.eqb kind "assistant/message" then assistant_step log st index data
  else if String.eqb kind "tool/inner-call" then inner_call_step log st index data
  else if String.eqb kind "assistant/chunk" then
    check Evidence (names_request st index (dget data "request_id"))
      "assistant/chunk does not name an earlier model/request" log (idx index);;
    mret st
  else if String.eqb kind "tool/rendering-archive" then archive_step log index data;; mret st
  else if String.eqb kind "tool/result" then
    check_artifact fs log index data false;; mret (result_step st index data)
  else mret st.

(** Every call has one later result of its name, every result one call. *)
Definition settle_call (log : EpisodeLog) (st : evidence) (_ : ()) (c : string * (nat * string)) : Ev () :=
  let '(id, (call_seq, name)) := c in
  check Evidence
    (match default [] (assoc (results st) id) with
     | [(result_seq, result)] => (call_seq <? result_seq) && is_string name (dget result "name")
     | _ => false end)
    ("tool call " +:+ id +:+ " does not have one later result with the same name") log (idx call_seq).

Definition settle_result (log : EpisodeLog) (st : evidence) (_ : ()) (r : string * list (nat * dict)) : Ev () :=
  let '(id, matched) := r in
  check Evidence (has_key (calls st) id && (length matched =? 1))
    ("tool result " +:+ id +:+ " does not settle one earlier call") log
    (match matched with (i, _) :: _ => idx i | [] => VNone end).

Definition check_evidence (log : EpisodeLog) : Ev () :=
  check Evidence (match parse_error log with None => true | Some _ => false end)
    (match parse_error log with
     | Some e => if String.eqb e "" then "log parses" else e
     | None => "log parses" end) log VNone;;
  match parse_error log, events log with
  | Some _, _ => mret ()
  | None, [] => check Evidence false "the log is empty" log VNone
  | None, _ :: _ =>
      check Evidence true "the log is empty" log VNone;;
      check_team_messages log;;
      foldM (envelope_step log) () (enumerate (events log));;
      check_bracket log;;
      st ← foldM (evidence_step log) no_evidence (enumerate (events log));
      foldM (settle_call log st) () (calls st);;
      foldM (settle_result log st) () (results st)
  end.
End evidence.

(** ** Lemmas: the envelope *)

Lemma filter_unique {A} (P : A → Prop) `{!∀ x, Decision (P x)} (l : list A) (i j : nat) x y :
  length (filter P l) = 1 → l !! i = Some x → P x → l !! j = Some y → P y → i = j.
Proof.
  intros Hlen. revert l i j x y Hlen.
  assert (∀ (l : list A) (i j : nat) x y,
    length (filter P l) = 1 → i < j → l !! i = Some x → P x → l !! j = Some y → P y → False) as Hlt.
  { intros l i j x y Hlen Hij Hi Hx Hj Hy.
    rewrite <-(take_drop (S i) l), filter_app, length_app in Hlen.
    assert (x ∈ filter P (take (S i) l)) as H1.
    { apply list_elem_of_filter. split; [done|]. apply elem_of_take. eauto with lia. }
    assert (y ∈ filter P (drop (S i) l)) as H2.
    { apply list_elem_of_filter. split; [done|]. apply list_elem_of_lookup.
      exists (j - S i). rewrite lookup_drop. by replace (S i + (j - S i)) with j by lia. }
    destruct (filter P (take (S i) l)); [by apply elem_of_nil in H1|].
    destruct (filter P (drop (S i) l)); [by apply elem_of_nil in H2|].
    simpl in Hlen. lia. }
  intros l i j x y Hlen Hi Hx Hj Hy.
  destruct (lt_eq_lt_dec i j) as [[Hij|Hij]|Hij]; [|done|]; exfalso; eauto.
Qed.

Lemma type_at_spec l i k : k ≠ "" → type_at l i = k ↔ ∃ e, l !! i = Some e ∧ event_type e = k.
Proof. intros Hk. unfold type_at. destruct (l !! i) as [e|]; naive_solver. Qed.

(** One event of a kind, at a known place: that kind is that place. *)
Lemma kind_at_place l kind p :
  kind ≠ "" → length (events_of kind l) = 1 → type_at l p = kind →
  ∀ i e, l !! i = Some e → event_type e = kind ↔ i = p.
Proof.
  intros Hk Hlen (e0 & Hp & H0)%type_at_spec i e Hi; [|done]. split.
  - intros He. eapply (filter_unique _ l i p e e0 Hlen); [done| |done|]; simpl.
    + by rewrite He, String.eqb_refl.
    + by rewrite H0, String.eqb_refl.
  - intros ->. simplify_eq. done.
Qed.

(** The parts of a passing evidence check. *)
Lemma check_evidence_parts fs log u :
  returns (check_evidence fs log) u →
  parse_error log = None ∧ events log ≠ [] ∧
  returns (check_team_messages log) () ∧
  returns (foldM (envelope_step log) () (enumerate (events log))) () ∧
  returns (check_bracket log) () ∧
  ∃ st, returns (foldM (evidence_step fs log) no_evidence (enumerate (events log))) st ∧
    returns (foldM (settle_call log st) () (calls st)) () ∧
    returns (foldM (settle_result log st) () (results st)) ().
Proof.
  unfold check_evidence. rewrite returns_bind. intros ([] & Hp%returns_check & H).
  destruct (parse_error log); [done|]. destruct (events log); [by apply returns_check in H|].
  destruct u.
  apply returns_bind in H as ([] & _ & H). apply returns_bind in H as ([] & Ht & H).
  apply returns_bind in H as ([] & He & H). apply returns_bind in H as ([] & Hb & H).
  apply returns_bind in H as (st & Hs & ([] & ? & ?)%returns_bind). eauto 12.
Qed.

(** A log whose evidence checks pass is a well-formed episode: event
    [i] carries [i] as its [seq] with an integer time, a string type and an
    object of data, the first event is the only [episode/start] and the last
    one the only [episode/end]. *)
Theorem evidence_envelope fs log :
  passes (check_evidence fs log) →
  events log ≠ [] ∧
  (∀ i e, events log !! i = Some e →
     py_eq (dget e "seq") (idx i) = true ∧ is_int (dget e "time") = true ∧
     is_str (dget e "type") = true ∧ is_dict (dget e "data") = true ∧
     (event_type e = "episode/start" ↔ i = 0) ∧
     (event_type e = "episode/end" ↔ i = length (events log) - 1)).
Proof.
  intros (u & H)%passes_returns.
  apply check_evidence_parts in H as (_ & Hne & _ & Henv & Hbr & _).
  unfold check_bracket in Hbr.
  apply returns_bind in Hbr as ([] & H1%returns_check & H2%returns_check).
  apply andb_true_iff in H1 as [Hs1%Nat.eqb_eq Hs2%String.eqb_eq].
  apply andb_true_iff in H2 as [He1%Nat.eqb_eq He2%String.eqb_eq].
  split; [done|]. intros i e Hi.
  apply returns_foldM_unit with (x := (i, e)) in Henv; [|by apply elem_of_enumerate].
  unfold envelope_step in Henv.
  apply returns_bind in Henv as ([] & Hseq%returns_check & Ht%returns_check).
  rewrite !andb_true_iff in Ht. destruct Ht as [[? ?] ?]. split_and!; try done.
  - by apply (kind_at_place (events log) "episode/start" 0).
  - by apply (kind_at_place (events log) "episode/end" (length (events log) - 1)).
Qed.

(** ** Lemmas: calls and results *)

(** The calls an event issues, [(id, name)] each. *)
Definition issued_call (v : value) : option (string * string) :=
  match v with
  | VDict call =>
      match dget call "id", dget call "name" with VStr c, VStr n => Some (c, n) | _, _ => None end
  | _ => None
  end.
Definition issued (e : dict) : list (string * string) :=
  if String.eqb (event_type e) "assistant/message" then
    match dget_or (event_data e) "tool_calls" (VList []) with VList l => omap issued_call l | _ => [] end
  else if String.eqb (event_type e) "tool/inner-call" then
    match dget (event_data e) "call_id", dget (event_data e) "name" with
    | VStr c, VStr n => [(c, n)] | _, _ => [] end
  else [].
Definition tag (i : nat) (cn : string * string) : string * (nat * string) := (cn.1, (i, cn.2)).

(** The call a result event answers. *)
Definition answered (e : dict) : option string :=
  if String.eqb (event_type e) "tool/result" then as_str (dget (event_data e) "call_id") else None.

Lemma calls_append (d : list (string * (nat * string))) k v :
  has_key d k = false → NoDup (keys d) →
  dset d k v = d ++ [(k, v)] ∧ NoDup (keys (dset d k v)).
Proof.
  intros Hk Hd. split; [|by apply dset_nodup].
  apply dset_notin. rewrite <-has_key_elem. by rewrite Hk.
Qed.

Lemma tool_call_step_calls log i st v st' :
  returns (tool_call_step log i st v) st' → NoDup (keys (calls st)) →
  calls st' = calls st ++ map (tag i) (option_list (issued_call v)) ∧
  NoDup (keys (calls st')) ∧ results st' = results st.
Proof.
  intros H Hd. unfold tool_call_step, issued_call in *.
  destruct v as [| | | | | |call]; try (apply returns_ret in H as ->; simpl; by rewrite app_nil_r).
  apply returns_bind in H as ([] & Hc%returns_check & ->%returns_ret).
  destruct (dget call "id") as [| | | |c| |]; try done.
  destruct (dget call "name") as [| | | |n| |]; try done.
  apply negb_true_iff in Hc. by destruct (calls_append (calls st) c (i, n) Hc Hd).
Qed.

Lemma tool_calls_calls log i l st st' :
  returns (foldM (tool_call_step log i) st l) st' → NoDup (keys (calls st)) →
  calls st' = calls st ++ map (tag i) (omap issued_call l) ∧
  NoDup (keys (calls st')) ∧ results st' = results st.
Proof.
  revert st. induction l as [|v l IH]; intros st H Hd.
  - apply returns_ret in H as ->. simpl. by rewrite app_nil_r.
  - apply returns_foldM_cons in H as (t & (Ht & Hdt & Hrt)%tool_call_step_calls & H); [|done].
    apply IH in H as (Hc & Hd' & Hr); [|done]. split_and!; [|done|congruence].
    rewrite Hc, Ht, <-(assoc_L (++)), <-map_app. csimpl. by destruct (issued_call v).
Qed.

Ltac ev_break := repeat match goal with
  | H : returns (_ ≫= _) _ |- _ => apply returns_bind in H as (? & ? & ?)
  | H : returns (check _ _ _ _ _) ?u |- _ => apply returns_check in H
  | H : returns (mret _) _ |- _ => apply returns_ret in H
  | H : returns (lift _) _ |- _ => apply returns_lift in H
  end.

Lemma push_index_calls st o i : calls (push_index st o i) = calls st.
Proof. by destruct o. Qed.
Lemma push_index_results st o i : results (push_index st o i) = results st.
Proof. by destruct o. Qed.

(** What a step leaves of the calls and the results. *)
Lemma evidence_step_effect fs log st i e st' :
  returns (evidence_step fs log st (i, e)) st' → NoDup (keys (calls st)) →
  calls st' = calls st ++ map (tag i) (issued e) ∧ NoDup (keys (calls st')) ∧
  results st' = match answered e with
                | Some c => dset (results st) c
                    (default [] (assoc (results st) c) ++ [(i, event_data e)])
                | None => results st end.
Proof.
  intros H Hd. unfold evidence_step, issued, answered in *.
  repeat match type of H with
  | returns (if String.eqb ?k ?s then _ else _) _ =>
      destruct (String.eqb_spec k s) as [->|]; cbn [String.eqb Ascii.eqb Bool.eqb]
  end.
  - ev_break. subst. simpl. by rewrite app_nil_r.
  - unfold model_request_step in H. ev_break. destruct x1 as [valid seen]. ev_break. subst.
    destruct (dget (event_data e) "request_id"); simpl; by rewrite app_nil_r.
  - unfold assistant_step in H. ev_break.
    destruct (dget_or (event_data e) "tool_calls" (VList [])) as [| | | | |l|];
      try (apply returns_ret in H0 as ->; simpl; by rewrite app_nil_r).
    by apply tool_calls_calls in H0.
  - unfold inner_call_step in H. ev_break. subst.
    rewrite <-(push_index_calls st (dget (event_data e) "outer_call_id")
                 (as_int (dget (event_data e) "index"))) in H0, Hd |- *.
    rewrite <-(push_index_results st (dget (event_data e) "outer_call_id")
                 (as_int (dget (event_data e) "index"))).
    set (st1 := push_index _ _ _) in *.
    destruct (dget (event_data e) "call_id") as [| | | |ci| |]; try done.
    destruct (dget (event_data e) "name") as [| | | |nm| |]; try done.
    rewrite H0. apply negb_true_iff in H0. destruct (calls_append (calls st1) ci (i, nm) H0 Hd) as [Ha Hb].
    split_and!; [exact Ha|exact Hb|done].
  - ev_break. subst. simpl. by rewrite app_nil_r.
  - ev_break. subst. simpl. by rewrite app_nil_r.
  - destruct (String.eqb_spec (event_type e) "tool/result") as [Ht|Ht].
    + ev_break. subst. unfold result_step.
      destruct (dget (event_data e) "call_id"); simpl; by rewrite app_nil_r.
    + ev_break. subst. simpl. by rewrite app_nil_r.
Qed.

(** After the loop: the calls in the order they were issued, under ids of
    their own, and for each id the results that name it. *)
Record collected (pre : list (nat * dict)) (st : evidence) : Prop := {
  collected_calls : calls st = flat_map (λ ie, map (tag ie.1) (issued ie.2)) pre;
  collected_nodup : NoDup (keys (calls st));
  collected_results : ∀ id,
    default [] (assoc (results st) id)
    = map (λ ie, (ie.1, event_data ie.2)) (filter (λ ie, answered ie.2 = Some id) pre);
  collected_answers : ∀ id, (∃ ie, ie ∈ pre ∧ answered ie.2 = Some id) → has_key (results st) id = true;
}.

Lemma collected_all fs log st :
  returns (foldM (evidence_step fs log) no_evidence (enumerate (events log))) st →
  collected (enumerate (events log)) st.
Proof.
  apply returns_enumerate_ind.
  { split; [done|constructor|done|]. intros id (ie & Hie & _). by apply elem_of_nil in Hie. }
  intros i e s t _ [Hcalls Hnd Hres Hans] Hstep.
  apply evidence_step_effect in Hstep as (Hc & Hn & Hr); [|done].
  split; [|done|..].
  - rewrite Hc, Hcalls, flat_map_app. simpl. by rewrite app_nil_r.
  - intros id. rewrite filter_app, map_app, <-Hres, Hr. destruct (answered e) as [c|] eqn:Ea.
    + destruct (decide (c = id)) as [->|Hne].
      * by rewrite assoc_dset_eq, filter_cons_True, filter_nil by done.
      * rewrite assoc_dset_ne by done. rewrite (filter_none _ [(i, e)]).
        -- by rewrite app_nil_r.
        -- intros ie ->%list_elem_of_singleton. simpl. congruence.
    + rewrite (filter_none _ [(i, e)]); [by rewrite app_nil_r|].
      intros ie ->%list_elem_of_singleton. simpl. congruence.
  - intros id (ie & [Hie|Hie%list_elem_of_singleton]%elem_of_app & Ha).
    + assert (has_key (results s) id = true) as H by eauto. rewrite Hr.
      destruct (answered e) as [c|]; [|done]. apply has_key_assoc in H as [v Hv].
      apply has_key_assoc. destruct (decide (c = id)) as [->|].
      * rewrite assoc_dset_eq. eauto.
      * rewrite assoc_dset_ne by done. eauto.
    + subst. simpl in Ha. rewrite Hr, Ha. apply has_key_assoc. rewrite assoc_dset_eq. eauto.
Qed.

(** Claim C2. Nothing is left unsettled: in a log whose evidence checks pass,
    every tool call id is issued once, every issued call is answered by exactly
    one [tool/result], later and under the same name, and every result answers
    a call issued before it. *)
Theorem calls_settled fs log :
  passes (check_evidence fs log) →
  NoDup (flat_map (λ e, map fst (issued e)) (events log)) ∧
  (∀ i e id name, events log !! i = Some e → (id, name) ∈ issued e →
     ∃ j r, i < j ∧ events log !! j = Some r ∧ answered r = Some id ∧
       dget (event_data r) "name" = VStr name ∧
       ∀ j' r', events log !! j' = Some r' → answered r' = Some id → j' = j) ∧
  (∀ j r id, events log !! j = Some r → answered r = Some id →
     ∃ i e name, i < j ∧ events log !! i = Some e ∧ (id, name) ∈ issued e).
Proof.
  intros (u & H)%passes_returns.
  apply check_evidence_parts in H as (_ & _ & _ & _ & _ & st & Hloop & Hcalls & Hresults).
  destruct (collected_all _ _ _ Hloop) as [Hc Hnd Hr Ha].
  assert (∀ i e id name, events log !! i = Some e → (id, name) ∈ issued e →
     ∃ j r, i < j ∧ events log !! j = Some r ∧ answered r = Some id ∧
       dget (event_data r) "name" = VStr name ∧
       ∀ j' r', events log !! j' = Some r' → answered r' = Some id → j' = j) as Hsettle.
  { intros i e id name Hi Hid.
    assert ((id, (i, name)) ∈ calls st) as Hin.
    { rewrite Hc. apply list_elem_of_In, in_flat_map. exists (i, e). split.
      - by apply list_elem_of_In, elem_of_enumerate.
      - apply list_elem_of_In, list_elem_of_fmap. by exists (id, name). }
    rewrite returns_foldM_unit in Hcalls. specialize (Hcalls _ Hin). simpl in Hcalls.
    apply returns_check in Hcalls. rewrite Hr in Hcalls.
    destruct (filter _ _) as [|[j r] [|]] eqn:Ef; try done. simpl in Hcalls.
    apply andb_true_iff in Hcalls as [Hlt%Nat.ltb_lt Hname%is_string_spec].
    assert ((j, r) ∈ filter (λ ie, answered ie.2 = Some id) (enumerate (events log))) as Hj.
    { rewrite Ef. by apply list_elem_of_singleton. }
    apply list_elem_of_filter in Hj as [Hj1 Hj2%elem_of_enumerate].
    exists j, r. split_and!; try done. intros j' r' Hj' Hr'.
    assert ((j', r') ∈ [(j, r)]) as [= -> ->]%list_elem_of_singleton; [|done].
    rewrite <-Ef. apply list_elem_of_filter. split; [done|]. by apply elem_of_enumerate. }
  split_and!; [|done|].
  - replace (flat_map _ (events log)) with (keys (calls st)); [done|].
    rewrite Hc. unfold keys, enumerate. generalize 0. clear.
    induction (events log) as [|e l IH]; intros n; [done|]. simpl.
    rewrite map_app, IH. f_equal. rewrite map_map. by apply map_ext.
  - intros j r id Hj Hans. rewrite returns_foldM_unit in Hresults.
    assert (has_key (results st) id = true) as Hk.
    { apply Ha. exists (j, r). split; [by apply elem_of_enumerate|done]. }
    apply has_key_assoc in Hk as [v Hv]. specialize (Hresults (id, v) (assoc_elem _ _ _ Hv)).
    simpl in Hresults. apply returns_check, andb_true_iff in Hresults as [Hkey _].
    apply has_key_assoc in Hkey as [[i name] Hi%assoc_elem].
    rewrite Hc in Hi. apply list_elem_of_In, in_flat_map in Hi as ([i' e] & Hie & Hi).
    apply list_elem_of_In, elem_of_enumerate in Hie.
    apply list_elem_of_In, list_elem_of_fmap in Hi as ([id' n'] & [= -> -> ->] & Hin).
    exists i', e, n'. split_and!; try done.
    destruct (Hsettle i' e id' n' Hie Hin) as (j2 & r2 & Hlt & _ & _ & _ & Huniq).
    by rewrite (Huniq j r Hj Hans).
Qed.

(** ** Lemmas: requests and the inbox *)

(** The sequence numbers a request consumes. *)
Definition consumed_seqs (e : dict) : list Z :=
  if String.eqb (event_type e) "model/request" then
    match dget_or (event_data e) "consumed" (VList []) with VList l => omap as_int l | _ => [] end
  else [].

Definition request_id_of (e : dict) : option string :=
  if String.eqb (event_type e) "model/request" then as_str (dget (event_data e) "request_id") else None.

(** The position of the last [request/header]. *)
Definition header_in_effect (pre : list (nat * dict)) : option nat :=
  fst <$> last (filter (λ ie, event_type ie.2 = "request/header") pre).

(** [seq] names an inbox item below [index], the way Python indexes. *)
Definition names_inbox (l : list dict) (index : nat) (seq : Z) : Prop :=
  (seq < Z.of_nat index)%Z ∧ ∃ r, py_index l seq = Ok r ∧ event_type r = "inbox/item".

Lemma consume_invalid l i vs seen r seen' :
  foldM (consume_step l i) (false, seen) vs = Ok (r, seen') → r = false.
Proof.
  revert seen. induction vs as [|v vs IH]; intros seen; simpl; [by intros [= <- _]|].
  destruct (as_int v); simpl; apply IH.
Qed.

Lemma existsb_Z_spec s l : existsb (Z.eqb s) l = false ↔ s ∉ l.
Proof.
  rewrite <-not_true_iff_false, existsb_exists. setoid_rewrite Z.eqb_eq.
  setoid_rewrite <-list_elem_of_In. naive_solver.
Qed.

Lemma consume_valid l i vs seen seen' :
  foldM (consume_step l i) (true, seen) vs = Ok (true, seen') → NoDup seen →
  Forall (λ v, ∃ s, as_int v = Some s ∧ names_inbox l i s) vs ∧
  seen' = rev (omap as_int vs) ++ seen ∧ NoDup seen'.
Proof.
  revert seen. induction vs as [|v vs IH]; intros seen H Hnd.
  { simpl in H. injection H as <-. done. }
  simpl in H. destruct (as_int v) as [s|] eqn:Ev.
  2: { simpl in H. by apply consume_invalid in H. }
  destruct (Z.ltb_spec s (Z.of_nat i)); simpl in H; [|by apply consume_invalid in H].
  destruct (existsb (Z.eqb s) seen) eqn:Es; simpl in H; [by apply consume_invalid in H|].
  destruct (py_index l s) as [r|] eqn:Er; simpl in H; [|done].
  destruct (String.eqb_spec (event_type r) "inbox/item"); [|by apply consume_invalid in H].
  apply existsb_Z_spec in Es.
  apply IH in H as (Hall & -> & Hnd'); [|by constructor].
  split_and!.
  - constructor; [|done]. exists s. split; [done|]. split; [done|]. eauto.
  - csimpl. rewrite Ev. simpl. by rewrite <-(assoc_L (++)).
  - done.
Qed.

(** What the loop knows of requests, headers and the inbox. *)
Record requested (pre : list (nat * dict)) (st : evidence) : Prop := {
  requested_header : latest_header st = header_in_effect pre;
  requested_ids : ∀ r i, assoc (requests st) r = Some i ↔ ∃ e, (i, e) ∈ pre ∧ request_id_of e = Some r;
  requested_consumed : inbox_consumed st = rev (flat_map (λ ie, consumed_seqs ie.2) pre);
  requested_once : NoDup (inbox_consumed st);
}.

(** The part of the state a step other than a request or a header keeps. *)
Definition same_requests (st st' : evidence) : Prop :=
  latest_header st' = latest_header st ∧ requests st' = requests st ∧
  inbox_consumed st' = inbox_consumed st.

Lemma tool_calls_same log i l st st' :
  returns (foldM (tool_call_step log i) st l) st' → same_requests st st'.
Proof.
  apply (returns_foldM_ind (λ _ s, same_requests st s) _ []); [done|].
  intros pre v s t (H1 & H2 & H3) _ Hs. unfold tool_call_step in Hs.
  destruct v; ev_break; subst; try done. by repeat case_match.
Qed.

Lemma evidence_step_other fs log st i e st' :
  returns (evidence_step fs log st (i, e)) st' →
  event_type e ≠ "request/header" → event_type e ≠ "model/request" → same_requests st st'.
Proof.
  intros H Hh Hm. unfold evidence_step in H.
  destruct (String.eqb_spec (event_type e) "request/header"); [done|].
  destruct (String.eqb_spec (event_type e) "model/request"); [done|].
  repeat match type of H with
  | returns (if ?b then _ else _) _ => destruct b
  end; ev_break; subst; try done.
  - unfold assistant_step in H. ev_break.
    destruct (dget_or _ _ _); ev_break; subst; try done. by eapply tool_calls_same.
  - unfold inner_call_step, push_index in H. ev_break. subst. by repeat case_match.
  - unfold result_step. by repeat case_match.
Qed.

(** The checks of one request, in terms of the state before it. *)
Lemma model_request_inv log st i data st' :
  returns (model_request_step log st i data) st' → NoDup (inbox_consumed st) →
  ∃ r vs, dget data "request_id" = VStr r ∧ has_key (requests st) r = false ∧
    py_eq (dget data "header_seq")
      (match latest_header st with Some h => idx h | None => VNone end) = true ∧
    dget_or data "consumed" (VList []) = VList vs ∧
    Forall (λ v, ∃ s, as_int v = Some s ∧ names_inbox (events log) i s) vs ∧
    (conversation_id (VStr r) = true → ∃ m, messages_for_request log i = Ok m ∧
       py_eq (dget data "messages") m = true) ∧
    NoDup (inbox_consumed st') ∧ inbox_consumed st' = rev (omap as_int vs) ++ inbox_consumed st ∧
    requests st' = dset (requests st) r i ∧ latest_header st' = latest_header st.
Proof.
  intros H Hnd. unfold model_request_step in H. ev_break.
  destruct (dget data "request_id") as [| | | |r| |] eqn:Er; try done.
  apply negb_true_iff in H. destruct x1 as [valid seen]. ev_break. subst.
  destruct (dget_or data "consumed" (VList [])) as [| | | | |vs|] eqn:Ec; try done.
  match goal with Hf : foldM _ _ _ = Ok _ |- _ =>
    apply consume_valid in Hf as (Hall & -> & Hnd'); [|by destruct (dget data "request_id")] end.
  exists r, vs. split_and!; try done.
  intros Hconv. destruct (conversation_id (VStr r)); [|done]. ev_break. eauto.
Qed.

Lemma header_in_effect_snoc pre i e :
  header_in_effect (pre ++ [(i, e)]) =
  if decide (event_type e = "request/header") then Some i else header_in_effect pre.
Proof.
  unfold header_in_effect. rewrite filter_app. case_decide.
  - rewrite filter_cons_True, filter_nil by done. by rewrite last_snoc.
  - rewrite filter_cons_False, filter_nil by done. by rewrite app_nil_r.
Qed.

Lemma requested_all fs log i st :
  returns (foldM (evidence_step fs log) no_evidence (enumerate (take i (events log)))) st →
  requested (enumerate (take i (events log))) st.
Proof.
  apply returns_enumerate_ind.
  { split; simpl; [done| |done|constructor]. intros r k. split; [done|].
    intros (e & He & _). by apply elem_of_nil in He. }
  intros k e s t _ [Hh Hids Hcs Hnd] Hstep.
  assert (event_type e ≠ "model/request" → consumed_seqs e = [] ∧ request_id_of e = None) as Hno.
  { intros Hne. unfold consumed_seqs, request_id_of.
    destruct (String.eqb_spec (event_type e) "model/request"); done. }
  destruct (decide (event_type e = "model/request")) as [Hm|Hm];
    [|destruct (decide (event_type e = "request/header")) as [Hr|Hr]].
  - unfold evidence_step in Hstep. rewrite Hm in Hstep. cbn [String.eqb Ascii.eqb Bool.eqb] in Hstep.
    apply model_request_inv in Hstep as (r & vs & Hr & Hk & _ & Hvs & _ & _ & Hnd' & Hc' & Hr' & Hl'); [|done].
    assert (request_id_of e = Some r) as Hre.
    { unfold request_id_of. by rewrite Hm, Hr. }
    split; [| | |done].
    + rewrite Hl', Hh, header_in_effect_snoc. by rewrite decide_False by congruence.
    + intros r' k'. rewrite Hr'. setoid_rewrite elem_of_app. setoid_rewrite list_elem_of_singleton.
      destruct (decide (r = r')) as [<-|Hne].
      * rewrite assoc_dset_eq. split; [intros [= <-]; eauto|].
        intros (e' & [Hin|[= -> ->]] & He'); [|done].
        assert (assoc (requests s) r = Some k') as Hk' by (apply Hids; eauto).
        unfold has_key in Hk. by rewrite Hk' in Hk.
      * rewrite assoc_dset_ne, Hids by done. split; [naive_solver|].
        intros (e' & [Hin|[= -> ->]] & He'); [eauto|congruence].
    + assert (consumed_seqs e = omap as_int vs) as Hce.
      { unfold consumed_seqs. by rewrite Hm, Hvs. }
      rewrite Hc', Hcs, flat_map_app, rev_app_distr. simpl. by rewrite app_nil_r, Hce.
  - unfold evidence_step in Hstep. rewrite Hr in Hstep. cbn [String.eqb Ascii.eqb Bool.eqb] in Hstep.
    apply returns_ret in Hstep as ->. destruct (Hno Hm) as [Hn1 Hn2]. split; [| | |done].
    + rewrite header_in_effect_snoc. by rewrite decide_True by done.
    + intros r k'. simpl. rewrite Hids. setoid_rewrite elem_of_app.
      setoid_rewrite list_elem_of_singleton. naive_solver.
    + simpl. rewrite Hcs, flat_map_app. simpl. by rewrite Hn1, !app_nil_r.
  - apply evidence_step_other in Hstep as (Hl' & Hr' & Hc'); [|done|done].
    destruct (Hno Hm) as [Hn1 Hn2]. split.
    + rewrite Hl', Hh, header_in_effect_snoc. by rewrite decide_False by done.
    + intros r k'. rewrite Hr', Hids. setoid_rewrite elem_of_app.
      setoid_rewrite list_elem_of_singleton. naive_solver.
    + rewrite Hc', Hcs, flat_map_app. simpl. by rewrite Hn1, !app_nil_r.
    + by rewrite Hc'.
Qed.

(** The state in front of the request at [i], and what its checks said. *)
Lemma request_checked fs log i e :
  passes (check_evidence fs log) → events log !! i = Some e → event_type e = "model/request" →
  ∃ st st', requested (enumerate (take i (events log))) st ∧
    returns (model_request_step log st i (event_data e)) st'.
Proof.
  intros (u & H)%passes_returns Hi Hm.
  apply check_evidence_parts in H as (_ & _ & _ & _ & _ & st & Hloop & _).
  destruct (returns_enumerate_at _ _ _ _ _ _ Hloop Hi) as (s & t & H1 & H2).
  exists s, t. split; [by eapply requested_all|].
  unfold evidence_step in H2. by rewrite Hm in H2.
Qed.

(** Claim C19. Every model request of a log whose evidence checks pass is
    reproducible: its id is a string no other request uses, it names the
    [request/header] in effect where it stands, and, unless a compaction made
    it, its messages equal the ones rebuilt from the log. *)
Theorem requests_reproducible fs log i e :
  passes (check_evidence fs log) →
  events log !! i = Some e → event_type e = "model/request" →
  ∃ r, dget (event_data e) "request_id" = VStr r ∧
    (∀ j e', events log !! j = Some e' → request_id_of e' = Some r → j = i) ∧
    py_eq (dget (event_data e) "header_seq")
      (match header_in_effect (enumerate (take i (events log))) with
       | Some h => idx h | None => VNone end) = true ∧
    (conversation_id (VStr r) = true → ∃ m, messages_for_request log i = Ok m ∧
       py_eq (dget (event_data e) "messages") m = true).
Proof.
  intros Hp Hi Hm.
  destruct (request_checked fs log i e Hp Hi Hm) as (st & st' & Hst & Hreq).
  apply model_request_inv in Hreq
    as (r & vs & Hr & Hk & Hh & _ & _ & Hmsg & _); [|by apply (requested_once _ _ Hst)].
  exists r. split_and!; [done| |by rewrite <-(requested_header _ _ Hst)|done].
  intros j e' Hj Hr'.
  assert (request_id_of e = Some r) as Hre by (unfold request_id_of; by rewrite Hm, Hr).
  assert (∀ i j e e', events log !! i = Some e → events log !! j = Some e' →
    request_id_of e = Some r → request_id_of e' = Some r → ¬ i < j) as Hlt.
  { clear -Hp. intros i j e e' Hi Hj Hr Hr' Hij.
    assert (event_type e' = "model/request") as Hm'.
    { unfold request_id_of in Hr'. by destruct (String.eqb_spec (event_type e') "model/request"). }
    destruct (request_checked fs log j e' Hp Hj Hm') as (st & st' & Hst & Hreq).
    apply model_request_inv in Hreq
      as (r2 & vs & Hr2 & Hk & _); [|by apply (requested_once _ _ Hst)].
    unfold request_id_of in Hr'. rewrite Hm', Hr2 in Hr'. simpl in Hr'. simplify_eq.
    assert (assoc (requests st) r = Some i) as Ha.
    { apply (requested_ids _ _ Hst). exists e. split; [|done]. apply elem_of_enumerate.
      apply lookup_take_Some. done. }
    unfold has_key in Hk. by rewrite Ha in Hk. }
  pose proof (Hlt i j e e' Hi Hj Hre Hr'). pose proof (Hlt j i e' e Hj Hi Hr' Hre). lia.
Qed.

(** The inbox is consumed at most once: over a log whose evidence
    checks pass no sequence number is consumed twice, and each one consumed
    is an integer below the request that consumes it and indexes an
    [inbox/item]. *)
Theorem inbox_consumed_once fs log :
  passes (check_evidence fs log) →
  NoDup (flat_map consumed_seqs (events log)) ∧
  (∀ i e, events log !! i = Some e → event_type e = "model/request" →
     ∃ vs, dget_or (event_data e) "consumed" (VList []) = VList vs ∧
       Forall (λ v, ∃ s, as_int v = Some s ∧ names_inbox (events log) i s) vs).
Proof.
  intros Hp. split.
  - destruct (proj1 (passes_returns _) Hp) as (u & H).
    apply check_evidence_parts in H as (_ & _ & _ & _ & _ & st & Hloop & _).
    assert (requested (enumerate (events log)) st) as [_ _ Hc Hnd].
    { rewrite <-(firstn_all (events log)). apply (requested_all fs log). by rewrite firstn_all. }
    rewrite Hc in Hnd.
    replace (flat_map consumed_seqs (events log))
      with (flat_map (λ ie, consumed_seqs ie.2) (enumerate (events log))).
    + by rewrite <-Permutation_rev in Hnd.
    + unfold enumerate. generalize 0. clear. induction (events log) as [|e l IH]; intros n; [done|].
      simpl. by rewrite IH.
  - intros i e Hi Hm. destruct (request_checked fs log i e Hp Hi Hm) as (st & st' & Hst & Hreq).
    apply model_request_inv in Hreq as (r & vs & _ & _ & _ & Hvs & Hall & _);
      [|by apply (requested_once _ _ Hst)]. eauto.
Qed.

(** ** The claims at a concrete log *)

Lemma evidence_envelope_witness :
  passes (check_evidence (λ _, Absent) example_parent) ∧
  ∀ i e, events example_parent !! i = Some e → (event_type e = "episode/start" ↔ i = 0).
Proof.
  assert (H : passes (check_evidence (λ _, Absent) example_parent)) by passes_by_evaluation.
  split; [exact H|]. intros i e He. destruct (evidence_envelope _ _ H) as [_ Hall].
  by destruct (Hall i e He) as (_ & _ & _ & _ & Hs & _).
Defined.

Lemma calls_settled_witness :
  passes (check_evidence (λ _, Absent) example_parent) ∧
  ∀ i e, events example_parent !! i = Some e → ("c1", "read") ∈ issued e →
    ∃ j r, i < j ∧ events example_parent !! j = Some r ∧ answered r = Some "c1".
Proof.
  assert (H : passes (check_evidence (λ _, Absent) example_parent)) by passes_by_evaluation.
  split; [exact H|]. intros i e He Hin. destruct (calls_settled _ _ H) as (_ & Hall & _).
  destruct (Hall i e _ _ He Hin) as (j & r & ? & ? & ? & _). eauto.
Defined.

Lemma requests_reproducible_witness :
  passes (check_evidence (λ _, Absent) example_parent) ∧
  ∃ m, messages_for_request example_parent 24 = Ok m ∧
    py_eq (dget (event_data (default [] (example_events !! 24))) "messages") m = true.
Proof.
  assert (H : passes (check_evidence (λ _, Absent) example_parent)) by passes_by_evaluation.
  split; [exact H|].
  destruct (requests_reproducible _ _ 24 (default [] (example_events !! 24)) H) as (r & Hr & _ & _ & Hm);
    [vm_compute; reflexivity|vm_compute; reflexivity|].
  vm_compute in Hr. injection Hr as <-. by apply Hm.
Defined.

Lemma inbox_consumed_once_witness :
  passes (check_evidence (λ _, Absent) example_parent) ∧
  flat_map consumed_seqs (events example_parent) = [1%Z] ∧
  NoDup (flat_map consumed_seqs (events example_parent)).
Proof.
  assert (H : passes (check_evidence (λ _, Absent) example_parent)) by passes_by_evaluation.
  split; [exact H|]. split; [vm_compute; reflexivity|]. by destruct (inbox_consumed_once _ _ H) as [Hn _].
Defined.
