(* ===== verification/TracePermissions.v ===== *)
(** * Declared permissions

    [_check_permissions] of src/evals/trace_quality.py: the declared grants
    and sandbox mode are well formed, and every recorded [read] or [edit] of a
    path outside its grant ended in an error.  [realpath] is the operating
    system's: what a path resolves to. *)

From stdpp Require Import base list sets strings pretty.
From Stdlib Require Import ZArith Lia.
From S2P Require Import Prelude PyValue PyText PyPath TraceLog TraceExample TraceMessages TraceEvidence.

Definition Permissions := declared_permissions.

Definition abs_str (v : value) : bool := match v with VStr s => isabs s | _ => false end.

(** ** The declared grants *)

Definition check_grants (log : EpisodeLog) : Ev dict :=
  let declared := dget (contract log) "grants" in
  check Permissions (is_dict declared) "contract.grants is absent" log (VInt 0);;
  let grants := dict_or_empty declared in
  check Permissions
    (match dget grants "read" with VList (x :: l) => forallb abs_str (x :: l) | _ => false end)
    "grants.read must contain absolute paths" log (VInt 0);;
  check Permissions
    (match dget_or grants "write" (VList []) with
     | VList l => forallb is_str l && forallb abs_str l | _ => false end)
    "grants.write has invalid entries" log (VInt 0);;
  check Permissions
    (match dget_or grants "spawn" (VList []) with VList l => forallb is_str l | _ => false end)
    "grants.spawn has invalid entries" log (VInt 0);;
  check Permissions
    (match dget_or (contract log) "tool_defs" (VDict []) with
     | VDict defs =>
         forallb (λ kv, match kv.2 with VDict d => abs_str (dget d "exec") | _ => false end) defs
     | _ => false end)
    "every configured executable must have an absolute path" log (VInt 0);;
  mret grants.

(** ** The sandbox *)

(** [isinstance(abi, int) and test(abi)]. *)
Definition int_test (test : Z → bool) (v : value) : bool :=
  match as_int v with Some z => test z | None => false end.

Definition check_sandbox (log : EpisodeLog) : Ev () :=
  let sandbox := dict_or_empty (dget (start log) "sandbox") in
  let mode := dget sandbox "mode" in
  let abi := dget sandbox "landlock_abi" in
  known ← lift (in_set mode ["off"; "best-effort"; "required"]);
  check Permissions known "episode/start.sandbox.mode is invalid" log (VInt 0);;
  check Permissions (int_test (Z.leb 0) abi)
    "episode/start.sandbox.landlock_abi is invalid" log (VInt 0);;
  check Permissions (negb (is_string "off" mode) || py_eq abi (VInt 0))
    "sandbox mode off must record Landlock ABI 0" log (VInt 0);;
  check Permissions (negb (is_string "required" mode) || int_test (Z.ltb 0) abi)
    "sandbox mode required must record an enforced Landlock ABI" log (VInt 0);;
  note (SandboxMode (py_str mode));;
  note (LandlockAbi (abi_key abi));;
  if int_test (Z.ltb 0) abi then note KernelSandbox else mret ().

(** ** Calls outside the grants *)

Section permissions.
Variable realpath : string → string.

(** [text] is [root] itself or below it, for one of [roots]; entries that are
    not strings are skipped. *)
Definition below_any (text : string) (roots : list value) : bool :=
  existsb (λ root, match root with
                   | VStr r => String.eqb (commonpath text (realpath r)) (realpath r)
                   | _ => false end) roots.

(** [Path(path)], or [Path(roots[0]) / path] when [path] is relative. *)
Definition candidate_path (root0 : value) (path : string) : res string :=
  if isabs path then Ok (path_str path)
  else match root0 with
       | VStr r => Ok (path_join r path)
       | v => Err (TypeError ("argument should be a str or an os.PathLike object where "
                             +:+ "__fspath__ returns a str, not '" +:+ type_name v +:+ "'"))
       end.

Definition granted (path : string) (roots : value) : res bool :=
  match roots with
  | VList (root0 :: rest) =>
      candidate ← candidate_path root0 path;
      Ok (below_any (realpath candidate) (root0 :: rest))
  | _ => Ok false
  end.

(** [{data.get("call_id"): data}] over the results: the last one wins. *)
Definition result_map (l : list dict) : res (list (value * dict)) :=
  foldM (λ d e, let data := event_data e in
                let id := dget data "call_id" in
                if hashable id then Ok (vset d id data) else Err (unhashable id))
    [] (events_of "tool/result" l).

Definition is_true (v : value) : bool := match v with VBool b => b | _ => false end.

Definition permission_call (log : EpisodeLog) (read : value) (grants : dict)
    (results : list (value * dict)) (event : dict) (_ : ()) (call : value) : Ev () :=
  match call with
  | VDict call =>
      known ← lift (in_set (dget call "name") ["read"; "edit"]);
      if negb known then mret ()
      else
        match dget (dict_or_empty (dget_or call "args" (VDict []))) "path" with
        | VStr path =>
            let is_read := is_string "read" (dget call "name") in
            let roots := if is_read then read else dget_or grants "write" (VList []) in
            ok ← lift (granted path roots);
            if (ok : bool) then mret ()
            else
              found ← lift (vget results (dget call "id"));
              let denied := is_true (dget (default [] found) "is_error") in
              check Permissions denied
                (py_str (dget call "name") +:+ " reached a path outside its declared grant")
                log (dget event "seq");;
              if denied then note DeniedCall else mret ()
        | _ => mret ()
        end
  | _ => mret ()
  end.

Definition check_permissions (log : EpisodeLog) : Ev () :=
  grants ← check_grants log;
  check_sandbox log;;
  results ← lift (result_map (events log));
  foldM (λ _ event,
           calls ← lift (py_iter (dget_or (event_data event) "tool_calls" (VList [])));
           foldM (permission_call log (dget grants "read") grants results event) () calls)
    () (events_of "assistant/message" (events log)).

(** ** What a passing check guarantees *)

(** The operating system resolves a path to a normal one. *)
Hypothesis realpath_normal : ∀ p, normal (realpath p).

(** [path], as a call of a granted tool names it, resolves below a root. *)
Definition below_root (path : string) (roots : list value) : Prop :=
  ∃ r0 l r, roots = VStr r0 :: l ∧ VStr r ∈ roots ∧
    path_parts (realpath r) `prefix_of` path_parts (realpath (path_join r0 path)).

Lemma granted_below path roots :
  Forall (λ v, abs_str v = true) roots → granted path (VList roots) = Ok true →
  below_root path roots.
Proof.
  intros Hall H. destruct roots as [|root0 l]; [done|].
  pose proof Hall as [H0 _]%Forall_cons. destruct root0 as [| | | |r0| |]; try done.
  unfold granted in H. exists r0, l.
  assert (candidate_path (VStr r0) path = Ok (path_join r0 path)) as Hj
    by (unfold candidate_path, path_join; by destruct (isabs path)).
  rewrite Hj in H. cbn [mbind res_bind] in H.
  assert (below_any (realpath (path_join r0 path)) (VStr r0 :: l) = true) as Hb by congruence.
  apply existsb_exists in Hb as (v & Hv%list_elem_of_In & He).
  destruct v as [| | | |r| |]; try done. apply String.eqb_eq in He.
  exists r. split_and!; [done|done|]. by apply commonpath_root.
Qed.

Lemma check_grants_inv log grants :
  returns (check_grants log) grants →
  dget (contract log) "grants" = VDict grants ∧
  (∃ x l, dget grants "read" = VList (x :: l) ∧ Forall (λ v, abs_str v = true) (x :: l)) ∧
  (∃ l, dget_or grants "write" (VList []) = VList l ∧ Forall (λ v, abs_str v = true) l).
Proof.
  unfold check_grants. intros H. ev_break. subst.
  destruct (dget (contract log) "grants") as [| | | | | |d]; try done.
  change (dict_or_empty (VDict d)) with d in *.
  split_and!; [done|..].
  - destruct (dget d "read") as [| | | | |[|y0 l]|]; try done.
    exists y0, l. split; [done|]. apply Forall_forall. intros v Hv%list_elem_of_In.
    by eapply forallb_forall in Hv.
  - destruct (dget_or d "write" (VList [])) as [| | | | |l|]; try done.
    exists l. split; [done|]. match goal with Hw : forallb _ _ && _ = true |- _ =>
      apply andb_true_iff in Hw as [_ Hw] end.
    apply Forall_forall. intros v Hv%list_elem_of_In. by eapply forallb_forall in Hv.
Qed.

(** Claim C8. The declared grant is the reach: in a log whose permission
    checks pass, a [read] (or [edit]) the model issued either resolves below
    a declared read (or write) root, component by component, or is recorded
    as an error. *)
Theorem permissions_enforced log event call calls path name key :
  passes (check_permissions log) →
  event ∈ events_of "assistant/message" (events log) →
  py_iter (dget_or (event_data event) "tool_calls" (VList [])) = Ok calls →
  VDict call ∈ calls →
  dget call "name" = VStr name → (name, key) ∈ [("read", "read"); ("edit", "write")] →
  dget (dict_or_empty (dget_or call "args" (VDict []))) "path" = VStr path →
  (∃ grants roots, dget (contract log) "grants" = VDict grants ∧
     dget_or grants key (VList []) = VList roots ∧ below_root path roots) ∨
  (∃ results result, result_map (events log) = Ok results ∧
     vassoc results (dget call "id") = Some result ∧ dget result "is_error" = VBool true).
Proof.
  intros (u & H)%passes_returns Hev Hiter Hcall Hname Hkey Hpath. destruct u.
  unfold check_permissions in H.
  apply returns_bind in H as (grants & Hg & H).
  apply returns_bind in H as ([] & _ & H).
  apply returns_bind in H as (results & Hres%returns_lift & H).
  apply check_grants_inv in Hg as (Hgrants & (x & rl & Hread & Hrabs) & (wl & Hwrite & Hwabs)).
  rewrite returns_foldM_unit in H. specialize (H _ Hev). cbv beta in H. rewrite Hiter in H.
  apply returns_bind in H as (calls' & [= <-]%returns_lift & H).
  rewrite returns_foldM_unit in H. specialize (H _ Hcall).
  unfold permission_call in H. rewrite Hname, Hpath in H.
  apply returns_bind in H as (known & Hk%returns_lift & H).
  assert (known = true) as ->.
  { unfold in_set in Hk. simpl in Hk. injection Hk as <-.
    rewrite !elem_of_cons in Hkey. destruct Hkey as [[= -> ->]|[[= -> ->]|Hk]]; try done.
    by apply elem_of_nil in Hk. }
  cbn [negb] in H. apply returns_bind in H as (ok & Hok%returns_lift & H).
  assert (∃ roots, dget_or grants key (VList []) = VList roots ∧
    Forall (λ v, abs_str v = true) roots ∧
    (if is_string "read" (VStr name) then dget grants "read" else dget_or grants "write" (VList []))
    = VList roots) as (roots & Hroots & Habs & Heq).
  { rewrite !elem_of_cons in Hkey. destruct Hkey as [[= -> ->]|[[= -> ->]|Hk']].
    - exists (x :: rl). split_and!; try done. unfold dget_or, dget in *.
      destruct (assoc grants "read"); [done|]. by simpl in Hread.
    - exists wl. done.
    - by apply elem_of_nil in Hk'. }
  rewrite Heq in Hok. destruct ok.
  - left. exists grants, roots. split_and!; [done|done|]. by apply granted_below.
  - right. apply returns_bind in H as (found & Hf%returns_lift & H).
    apply returns_bind in H as ([] & Hd%returns_check & _).
    unfold vget in Hf. destruct (hashable (dget call "id")); [|done]. injection Hf as <-.
    destruct (vassoc results (dget call "id")) as [result|] eqn:Er; [|done].
    exists results, result. split_and!; [done|done|].
    simpl in Hd. unfold is_true in Hd. destruct (dget result "is_error"); try done. by subst.
Qed.
End permissions.

(** ** The claim at a concrete log: a file system without links *)

Lemma permissions_enforced_witness :
  passes (check_permissions linkless_realpath example_parent) ∧
  ((∃ grants roots, dget (contract example_parent) "grants" = VDict grants ∧
      dget_or grants "read" (VList []) = VList roots ∧ below_root linkless_realpath "/etc/passwd" roots) ∨
   (∃ results result, result_map (events example_parent) = Ok results ∧
      vassoc results (VStr "c2") = Some result ∧ dget result "is_error" = VBool true)).
Proof.
  assert (H : passes (check_permissions linkless_realpath example_parent)) by passes_by_evaluation.
  split; [exact H|].
  apply (permissions_enforced linkless_realpath linkless_normal example_parent
           (default [] (example_events !! 4)) (dict_or_empty (call_of "c2" "read" "/etc/passwd"))
           [call_of "c1" "read" "notes.txt"; call_of "c2" "read" "/etc/passwd"] "/etc/passwd" "read" "read" H);
    [left|reflexivity|right; left|reflexivity|left|reflexivity].
Defined.
