(* ===== verification/TraceOutcome.v ===== *)
(** * Typed outcomes

    [_schema_findings] and [_check_outcome] of src/evals/trace_quality.py: an
    episode ends in exactly one outcome, of one of four closed variants, and a
    completed value matches the schema the contract declared for it. *)

From stdpp Require Import base list sets strings pretty.
From Stdlib Require Import ZArith Lia.
From S2P Require Import Prelude PyValue PyText TraceLog TraceExample TraceMessages TraceEvidence.

Definition Outcomes := typed_outcomes.

(** ** The schema checker *)

(** [type_checks]: the test a [type] names, if it names one. *)
Definition type_checks (expected : string) : option (value → bool) :=
  if String.eqb expected "object" then Some is_dict
  else if String.eqb expected "array" then Some is_list
  else if String.eqb expected "string" then Some is_str
  else if String.eqb expected "integer" then Some (λ v, is_int v && negb (is_bool v))
  else if String.eqb expected "number" then
    Some (λ v, (is_int v || match v with VFloat _ => true | _ => false end) && negb (is_bool v))
  else if String.eqb expected "boolean" then Some is_bool
  else if String.eqb expected "null" then Some is_none
  else None.

(** [f(d[k])] when [k in d]. *)
Definition with_key {A} (k : string) (f : value → A) (none : A) : dict → A :=
  fix go d := match d with
  | [] => none
  | (k', v) :: d => if String.eqb k' k then f v else go d
  end.

Definition type_fault (expected : value) (v : value) : option string :=
  match expected with
  | VStr t => match type_checks t with
              | Some test => if test v then None else Some t
              | None => None end
  | _ => None
  end.

Definition enum_findings (s : dict) (v : value) (location : string) : list string :=
  match dget s "enum" with
  | VList l => if existsb (item_eq v) l then [] else [location +:+ " is outside its enum"]
  | _ => []
  end.

Definition required_findings (s d : dict) (location : string) : list string :=
  match dget_or s "required" (VList []) with
  | VList l => flat_map (λ key, match key with
      | VStr k => if has_key d k then [] else [location +:+ "." +:+ k +:+ " is required"]
      | _ => [] end) l
  | _ => []
  end.

Definition indexed (location : string) (i : nat) : string :=
  location +:+ "[" +:+ nat_str i +:+ "]".

Fixpoint schema_findings (schema : value) (v : value) (location : string) {struct schema} : list string :=
  match schema with
  | VDict s =>
      match type_fault (dget s "type") v with
      | Some expected => [location +:+ " must have type " +:+ expected]
      | None =>
          enum_findings s v location ++
          match v with
          | VDict d =>
              required_findings s d location ++
              with_key "properties" (λ ps, match ps with
                | VDict props => flat_map (λ kc, match assoc d kc.1 with
                    | Some x => schema_findings kc.2 x (location +:+ "." +:+ kc.1)
                    | None => [] end) props
                | _ => [] end) [] s
          | VList l =>
              with_key "items" (λ c,
                flat_map (λ ix, schema_findings c ix.2 (indexed location ix.1)) (enumerate l)) [] s
          | _ => []
          end
      end
  | _ => [location +:+ " has a non-object schema"]
  end.

(** ** The outcome check *)

Definition episode_ends (log : EpisodeLog) : list dict := events_of "episode/end" (events log).

(** The test of the variant [kind] names. *)
Definition closed_variant (outcome : dict) : res bool :=
  let kind := dget outcome "kind" in
  if is_string "completed" kind then Ok (has_key outcome "value")
  else if is_string "blocked" kind then
    andM (in_set (dget outcome "code") BLOCKED_CODES) (Ok (is_str (dget outcome "message")))
  else if is_string "exhausted" kind then in_set (dget outcome "limit") EXHAUSTED_LIMITS
  else if is_string "failed" kind then Ok (is_str (dget outcome "error"))
  else Ok false.

(** [done_when.get("returns")] when [done_when] is an object. *)
Definition returns_schema (log : EpisodeLog) : value :=
  match dget_or (contract log) "done_when" (VDict []) with
  | VDict d => dget d "returns"
  | _ => VNone
  end.

Definition check_outcome (log : EpisodeLog) : Ev () :=
  check Outcomes (length (episode_ends log) =? 1) "the episode has no unique outcome" log VNone;;
  match episode_ends log with
  | [event] =>
      let outcome := dget (event_data event) "outcome" in
      check Outcomes (is_dict outcome) "episode/end.outcome is not an object" log VNone;;
      match outcome with
      | VDict outcome =>
          valid ← lift (closed_variant outcome);
          check Outcomes valid "the outcome does not match its closed variant" log VNone;;
          if negb (is_none (returns_schema log)) && is_string "completed" (dget outcome "kind") then
            let findings := schema_findings (returns_schema log) (dget outcome "value") "value" in
            check Outcomes (match findings with [] => true | _ => false end)
              ("completed value violates done_when.returns: " +:+ join "; " findings)
              log (dget event "seq")
          else mret ()
      | _ => mret ()
      end
  | _ => mret ()
  end.

(** ** Specification: values that conform to a schema *)

(** The JSON Schema types a value has. *)
Definition json_types (v : value) : list string :=
  match v with
  | VNone => ["null"]
  | VBool _ => ["boolean"]
  | VInt _ => ["integer"; "number"]
  | VFloat _ => ["number"]
  | VStr _ => ["string"]
  | VList _ => ["array"]
  | VDict _ => ["object"]
  end.
Definition JSON_TYPES : list string :=
  ["object"; "array"; "string"; "integer"; "number"; "boolean"; "null"].

Inductive conforms : value → value → Prop :=
| conforms_object s v :
    (∀ t, dget s "type" = VStr t → t ∈ JSON_TYPES → t ∈ json_types v) →
    (∀ l, dget s "enum" = VList l → ∃ x, x ∈ l ∧ item_eq v x = true) →
    (∀ d l k, v = VDict d → dget s "required" = VList l → VStr k ∈ l → k ∈ keys d) →
    (∀ d props k c x, v = VDict d → dget s "properties" = VDict props →
       (k, c) ∈ props → assoc d k = Some x → conforms c x) →
    (∀ l c x, v = VList l → assoc s "items" = Some c → x ∈ l → conforms c x) →
    conforms (VDict s) v.

(** ** Lemmas *)

Lemma with_key_assoc {A} k (f : value → A) none d :
  with_key k f none d = match assoc d k with Some v => f v | None => none end.
Proof. induction d as [|[k' v] d IH]; simpl; [done|]. by destruct (String.eqb k' k). Qed.

Lemma flat_map_nil {A B} (f : A → list B) l : flat_map f l = [] ↔ ∀ x, x ∈ l → f x = [].
Proof.
  induction l as [|x l IH]; simpl.
  - split; [intros _ x ?%elem_of_nil; done|done].
  - rewrite app_nil, IH. split.
    + intros [Hx Hl] y [->|Hy]%elem_of_cons; auto.
    + intros H. split; [apply H; set_solver|]. intros y Hy. apply H. set_solver.
Qed.

Lemma type_fault_none s v :
  type_fault (dget s "type") v = None ↔
  ∀ t, dget s "type" = VStr t → t ∈ JSON_TYPES → t ∈ json_types v.
Proof.
  destruct (dget s "type") as [| | | |t| |]; simpl; try (split; [by intros _ ? [=]|done]).
  assert ((∀ t', VStr t = VStr t' → t' ∈ JSON_TYPES → t' ∈ json_types v) ↔
          (t ∈ JSON_TYPES → t ∈ json_types v)) as -> by naive_solver.
  unfold type_checks, JSON_TYPES.
  repeat match goal with |- context [if String.eqb t ?x then _ else _] =>
    destruct (String.eqb_spec t x) as [->|?];
      [rewrite <-!elem_str_spec; destruct v; simpl; intuition congruence|]
  end.
  split; [|done]. intros _. rewrite !elem_of_cons, elem_of_nil. naive_solver.
Qed.

Lemma enum_findings_nil s v location :
  enum_findings s v location = [] ↔
  ∀ l, dget s "enum" = VList l → ∃ x, x ∈ l ∧ item_eq v x = true.
Proof.
  unfold enum_findings. destruct (dget s "enum") as [| | | | |l|]; try (split; [by intros _ ? [=]|done]).
  destruct (existsb (item_eq v) l) eqn:E.
  - apply existsb_exists in E as (x & ?%list_elem_of_In & ?). naive_solver.
  - split; [done|]. intros H. destruct (H l eq_refl) as (x & ?%list_elem_of_In & Hx).
    exfalso. rewrite <-not_true_iff_false in E. apply E. apply existsb_exists. eauto.
Qed.

Lemma required_findings_nil s d location :
  required_findings s d location = [] ↔
  ∀ l k, dget s "required" = VList l → VStr k ∈ l → k ∈ keys d.
Proof.
  unfold required_findings, dget_or, dget.
  destruct (assoc s "required") as [[| | | | |l|]|]; simpl; try (split; [by intros _ ? ? [=]|done]).
  rewrite flat_map_nil. split.
  - intros H l' k [= <-] Hk. specialize (H _ Hk). simpl in H. apply has_key_elem.
    by destruct (has_key d k).
  - intros H [| | | |k| |] Hk; try done. by rewrite (proj2 (has_key_elem d k) (H l k eq_refl Hk)).
Qed.

Lemma enumerate_snd {A} (l : list A) (P : A → Prop) :
  (∀ i x, (i, x) ∈ enumerate l → P x) ↔ (∀ x, x ∈ l → P x).
Proof.
  setoid_rewrite elem_of_enumerate. setoid_rewrite list_elem_of_lookup. naive_solver.
Qed.

(** ** What the checks guarantee *)

Definition exact (schema : value) : Prop :=
  ∀ v location, schema_findings schema v location = [] ↔ conforms schema v.

(** One level: exactness of the declared properties and of the item schema
    gives exactness of the object schema. *)
Lemma exact_object s :
  (∀ props, dget s "properties" = VDict props → ∀ kc, kc ∈ props → exact kc.2) →
  (∀ c, assoc s "items" = Some c → exact c) →
  exact (VDict s).
Proof.
  intros Hprops Hitems v location. simpl.
  destruct (type_fault (dget s "type") v) as [t|] eqn:Et.
  { split; [done|]. inversion 1 as [? ? Ht]; subst.
    apply type_fault_none in Ht. by rewrite Ht in Et. }
  rewrite type_fault_none in Et. rewrite app_nil, enum_findings_nil.
  destruct v as [| | | | |l|d];
    try (split; [intros [? _]; constructor; try done; naive_solver
                |inversion 1; subst; done]).
  - rewrite with_key_assoc. destruct (assoc s "items") as [c|] eqn:Ec.
    2:{ split; [intros [? _]; constructor; try done; naive_solver|]. inversion 1; subst. done. }
    rewrite flat_map_nil. split.
    + intros [He Hi]. constructor; try done. intros l' c' x [= <-] Hc' Hx.
      simplify_eq. apply list_elem_of_lookup in Hx as [i Hi'].
      apply (Hitems _ eq_refl x (indexed location i)). apply (Hi (i, x)). by apply elem_of_enumerate.
    + inversion 1 as [? ? ? He ? ? Hall]; subst. split; [done|]. intros [i x] Hx%elem_of_enumerate.
      apply (Hitems _ eq_refl). simpl. apply (Hall l c x); [done|done|]. by eapply list_elem_of_lookup_2.
  - rewrite with_key_assoc, app_nil, required_findings_nil.
    assert ((match assoc s "properties" with
      | Some (VDict props) => flat_map (λ kc, match assoc d kc.1 with
          | Some x => schema_findings kc.2 x (location +:+ "." +:+ kc.1) | None => [] end) props
      | _ => [] end = []) ↔
      (∀ props k c x, dget s "properties" = VDict props → (k, c) ∈ props →
         assoc d k = Some x → conforms c x)) as Hp.
    { unfold dget in *. destruct (assoc s "properties") as [[| | | | | |props]|];
        try (split; [by intros _ ? ? ? ? [=]|done]).
      rewrite flat_map_nil. split.
      - intros H props' k c x [= <-] Hk Hx. specialize (H _ Hk). simpl in H. rewrite Hx in H.
        by apply (Hprops _ eq_refl _ Hk) in H.
      - intros H [k c] Hk. simpl. destruct (assoc d k) as [x|] eqn:Hx; [|done].
        apply (Hprops _ eq_refl _ Hk). by apply (H _ _ _ _ eq_refl Hk). }
    split.
    + intros (He & Hr & Hps). constructor; try done; [naive_solver|].
      intros d' props k c x [= <-]. apply Hp. destruct (assoc s "properties") as [[]|]; exact Hps.
    + inversion 1 as [? ? ? He Hr Hps]; subst. split_and!; [done|naive_solver|].
      enough (match assoc s "properties" with
        | Some (VDict props) => flat_map (λ kc, match assoc d kc.1 with
            | Some x => schema_findings kc.2 x (location +:+ "." +:+ kc.1) | None => [] end) props
        | _ => [] end = []) as Hn by (destruct (assoc s "properties") as [[]|]; exact Hn).
      apply Hp. intros props k c x. by apply Hps.
Qed.

Lemma exact_schema schema : exact schema.
Proof.
  assert (exact schema ∧ ∀ d, schema = VDict d → ∀ kc, kc ∈ d → exact kc.2) as [H _]; [|done].
  induction schema as [| | | | |l IH|s IH] using value_ind';
    try (split; [intros w ?; split; [done|by inversion 1]|done]).
  rewrite Forall_forall in IH.
  assert (∀ k c, assoc s k = Some c → exact c ∧ ∀ d, c = VDict d → ∀ kc, kc ∈ d → exact kc.2) as Hk.
  { intros k c Hk%assoc_elem. by apply (IH (k, c)). }
  split; [|intros d [= <-] kc Hkc; by apply IH].
  apply exact_object; [|intros c Hc; by apply (Hk "items")].
  intros props Hp kc Hkc. unfold dget in Hp.
  destruct (assoc s "properties") as [c|] eqn:Ec; [|done]. simpl in Hp. subst c.
  by apply (proj2 (Hk _ _ Ec) props).
Qed.

(** The schema checker is exact: it finds nothing precisely when the
    value conforms to the schema (type, enum, required keys, and, recursively,
    the declared properties and the items of an array), whatever the location
    the findings are reported at. *)
Theorem schema_findings_exact schema v location :
  schema_findings schema v location = [] ↔ conforms schema v.
Proof. apply exact_schema. Qed.

(** The four closed variants an outcome has, and what each carries. *)
Inductive closed_outcome : dict → Prop :=
| closed_completed o v :
    dget o "kind" = VStr "completed" → assoc o "value" = Some v → closed_outcome o
| closed_blocked o code message :
    dget o "kind" = VStr "blocked" → dget o "code" = VStr code → code ∈ BLOCKED_CODES →
    dget o "message" = VStr message → closed_outcome o
| closed_exhausted o limit :
    dget o "kind" = VStr "exhausted" → dget o "limit" = VStr limit → limit ∈ EXHAUSTED_LIMITS →
    closed_outcome o
| closed_failed o error :
    dget o "kind" = VStr "failed" → dget o "error" = VStr error → closed_outcome o.

Lemma closed_variant_spec o : closed_variant o = Ok true ↔ closed_outcome o.
Proof.
  unfold closed_variant. split.
  - intros H. destruct (dget o "kind") as [| | | |k| |] eqn:Ek; try done. simpl in H.
    destruct (String.eqb_spec k "completed") as [->|].
    { injection H as H. apply has_key_assoc in H as [v Hv]. by econstructor. }
    destruct (String.eqb_spec k "blocked") as [->|].
    { unfold andM in H. apply res_bind_ok in H as ([] & Hc & H); [|done].
      apply in_set_ok in Hc as (c & ? & ?). destruct (dget o "message") eqn:?; try done.
      by eapply closed_blocked. }
    destruct (String.eqb_spec k "exhausted") as [->|].
    { apply in_set_ok in H as (c & ? & ?). by eapply closed_exhausted. }
    destruct (String.eqb_spec k "failed") as [->|]; [|done].
    destruct (dget o "error") eqn:?; try done. by eapply closed_failed.
  - destruct 1 as [o v Hk Hv|o c m Hk Hc Hin Hm|o l Hk Hl Hin|o e Hk He]; rewrite Hk; simpl.
    + unfold has_key. by rewrite Hv.
    + rewrite (proj2 (in_set_ok (dget o "code") BLOCKED_CODES)) by eauto. by rewrite Hm.
    + apply in_set_ok. eauto.
    + by rewrite He.
Qed.

(** The typed-outcome checks pass exactly when the log has one
    [episode/end], its outcome is a closed variant, and a completed value
    conforms to the schema [done_when.returns] declares, when it declares
    one. *)
Theorem outcome_typed log :
  passes (check_outcome log) ↔
  ∃ event outcome,
    episode_ends log = [event] ∧ dget (event_data event) "outcome" = VDict outcome ∧
    closed_outcome outcome ∧
    (returns_schema log ≠ VNone → dget outcome "kind" = VStr "completed" →
     conforms (returns_schema log) (dget outcome "value")).
Proof.
  rewrite passes_returns. unfold check_outcome. split.
  - intros ([] & H). apply returns_bind in H as ([] & Hl%returns_check%Nat.eqb_eq & H).
    destruct (episode_ends log) as [|event [|]]; try done. exists event.
    apply returns_bind in H as ([] & Ho%returns_check & H).
    destruct (dget (event_data event) "outcome") as [| | | | | |o]; try done.
    apply returns_bind in H as (valid & Hv%returns_lift & H).
    apply returns_bind in H as ([] & ->%returns_check & H).
    exists o. split_and!; [done|done|by apply closed_variant_spec|].
    intros Hr Hk. rewrite Hk in H. rewrite andb_true_r in H.
    destruct (is_none (returns_schema log)) eqn:En; [by destruct (returns_schema log)|].
    apply returns_check in H.
    destruct (schema_findings _ _ _) eqn:Ef; [|done]. by apply exact_schema in Ef.
  - intros (event & o & -> & -> & Hc%closed_variant_spec & Hr). exists ().
    rewrite Hc. rewrite !returns_bind. setoid_rewrite returns_check. exists (). split; [done|].
    rewrite returns_bind. setoid_rewrite returns_check. exists (). split; [done|].
    rewrite returns_bind. setoid_rewrite returns_lift. exists true. split; [done|].
    rewrite returns_bind. setoid_rewrite returns_check. exists (). split; [done|].
    destruct (is_string "completed" (dget o "kind")) eqn:Ek; [|by rewrite andb_false_r; apply returns_ret].
    destruct (is_none (returns_schema log)) eqn:En; [by apply returns_ret|].
    apply returns_check. apply is_string_spec in Ek.
    by rewrite (proj2 (exact_schema _ _ _) (Hr ltac:(by destruct (returns_schema log)) Ek)).
Qed.

(** ** Finding: [cancelled]

    docs/log-format.md lists [cancelled] among the closed codes of [blocked],
    and the checker's table lacks it: no log of a cancelled episode passes. *)
Lemma cancelled_outcome_rejected log event outcome :
  episode_ends log = [event] → dget (event_data event) "outcome" = VDict outcome →
  dget outcome "kind" = VStr "blocked" → dget outcome "code" = VStr "cancelled" →
  ¬ passes (check_outcome log).
Proof.
  intros He Ho Hk Hc (a & Hp)%passes_returns. unfold check_outcome in Hp. rewrite He in Hp.
  apply returns_bind in Hp as ([] & _ & Hp). cbv zeta in Hp. rewrite Ho in Hp.
  apply returns_bind in Hp as ([] & _ & Hp). apply returns_bind in Hp as (valid & Hv%returns_lift & Hp).
  apply returns_bind in Hp as ([] & ->%returns_check & _).
  unfold closed_variant in Hv. rewrite Hk, Hc in Hv. vm_compute in Hv. discriminate Hv.
Qed.
