(* ===== verification/TraceBudgets.v ===== *)
(** * Hierarchical budgets

    [_subtree_spend], [_output_allowance_is_enforced] and [_check_budgets] of
    src/evals/trace_quality.py: a parent reserves budget for each child before
    it starts, the child releases what it spent, and the recorded numbers agree
    with the child's own log.

    [limit] is the interpreter's recursion limit and [fuel] the number of
    iterations the model gives the loop that counts a subtree, which the source
    leaves unbounded. *)

From stdpp Require Import base list sets strings pretty.
From Stdlib Require Import ZArith Lia.
From S2P Require Import Prelude PyValue PyText TraceLog TraceExample TraceMessages TraceEvidence.

Definition Budgets := hierarchical_budgets.

(** ** Spend *)

Inductive counter : Type := model_calls | input_tokens | output_tokens.
Definition names : list counter := [model_calls; input_tokens; output_tokens].
Definition counter_name (c : counter) : string :=
  match c with
  | model_calls => "model_calls" | input_tokens => "input_tokens" | output_tokens => "output_tokens"
  end.
#[export] Instance counter_eq_dec : EqDecision counter.
Proof. solve_decision. Defined.

Record spend : Type := { calls_spent : Z; input_spent : Z; output_spent : Z }.
Definition no_spend : spend := {| calls_spent := 0; input_spent := 0; output_spent := 0 |}.
Definition amount (s : spend) (c : counter) : Z :=
  match c with
  | model_calls => calls_spent s | input_tokens => input_spent s | output_tokens => output_spent s
  end.
Definition spend_add (s t : spend) : spend :=
  {| calls_spent := calls_spent s + calls_spent t;
     input_spent := input_spent s + input_spent t;
     output_spent := output_spent s + output_spent t |}%Z.
(** [spent[name] += z]. *)
Definition add_amount (s : spend) (c : counter) (z : Z) : spend :=
  spend_add s match c with
    | model_calls => {| calls_spent := z; input_spent := 0; output_spent := 0 |}
    | input_tokens => {| calls_spent := 0; input_spent := z; output_spent := 0 |}
    | output_tokens => {| calls_spent := 0; input_spent := 0; output_spent := z |}
    end.

Definition int_or_zero (v : value) : Z := default 0%Z (as_int v).

(** The tokens an [assistant/message] reports. *)
Definition usage_spend (data : dict) : spend :=
  match dget_or data "usage" (VDict []) with
  | VDict usage => {| calls_spent := 0; input_spent := int_or_zero (dget usage "input");
                      output_spent := int_or_zero (dget usage "output") |}
  | _ => no_spend
  end.

(** What one event of a log adds to the episode's own spend. *)
Definition event_spend (e : dict) : spend :=
  if String.eqb (event_type e) "model/request" then
    {| calls_spent := 1; input_spent := 0; output_spent := 0 |}
  else if String.eqb (event_type e) "assistant/message" then usage_spend (event_data e)
  else no_spend.
Definition own_spend (l : list dict) : spend :=
  fold_left (λ s e, spend_add s (event_spend e)) l no_spend.

(** ** The tree of logs *)

Definition child_index : Type := list (string * list EpisodeLog).
(** [children_by_parent.get(id, [])]. *)
Definition children_of (d : child_index) (id : string) : list EpisodeLog := default [] (assoc d id).

Fixpoint subtree_spend (limit : nat) (d : child_index) (log : EpisodeLog) : res spend :=
  match limit with
  | O => Err RecursionError
  | S limit =>
      foldM (λ s child, t ← subtree_spend limit d child; Ok (spend_add s t))
        (own_spend (events log)) (children_of d (episode_id log))
  end.

(** The [while stack] loop; the head of [stack] is what [pop] takes. *)
Fixpoint subtree_loop (fuel : nat) (d : child_index) (stack : list EpisodeLog) (count : nat) : res nat :=
  match stack with
  | [] => Ok count
  | child :: stack =>
      match fuel with
      | O => Err OutOfFuel
      | S fuel => subtree_loop fuel d (rev (children_of d (episode_id child)) ++ stack) (S count)
      end
  end.
Definition subtree_count (fuel : nat) (d : child_index) (log : EpisodeLog) : res nat :=
  subtree_loop fuel d (rev (children_of d (episode_id log))) 1.

Definition output_allowance_is_enforced (log : EpisodeLog) : bool :=
  forallb (λ e, negb (String.eqb (event_type e) "request/header" &&
      match dget (event_data e) "model" with
      | VDict model => is_string "openai-codex" (dget model "provider")
      | _ => false end)) (events log).

Definition index_step (d : child_index) (log : EpisodeLog) : Ev child_index :=
  match dget (start log) "parent_id" with
  | VStr p => note ChildEpisode;; mret (dset d p (children_of d p ++ [log]))
  | _ => mret d
  end.
Definition children_by_parent (logs : list EpisodeLog) : Ev child_index := foldM index_step [] logs.

(** [{log.episode_id: log for log in logs if log.start}]. *)
Definition by_id (logs : list EpisodeLog) : list (string * EpisodeLog) :=
  fold_left (λ d log, match start log with [] => d | _ => dset d (episode_id log) log end) logs [].

(** ** The steps of one episode *)

Definition reservation : Type := counter → option Z.

Record budget_state : Type := {
  own_spent : spend;
  child_spent : spend;
  active : list (string * reservation);
  running : list string;
  seen_children : list string;
}.
Definition start_budget : budget_state :=
  {| own_spent := no_spend; child_spent := no_spend; active := []; running := []; seen_children := [] |}.

Definition normalized (reserved : dict) : reservation := λ c, as_int (dget reserved (counter_name c)).
Definition active_total (a : list (string * reservation)) (c : counter) : Z :=
  fold_right (λ cr s, default 0 (cr.2 c) + s)%Z 0%Z a.

Definition charge (s : spend) (st : budget_state) : budget_state :=
  {| own_spent := spend_add (own_spent st) s; child_spent := child_spent st; active := active st;
     running := running st; seen_children := seen_children st |}.

Section steps.
Variables (limit fuel : nat) (ids : list (string * EpisodeLog)) (d : child_index).
Variables (log : EpisodeLog) (budget : dict).

Definition check_fits (st : budget_state) (index : nat) (_ : ()) (c : counter) : Ev () :=
  match as_int (dget budget (counter_name c)) with
  | Some total =>
      check Budgets
        (amount (own_spent st) c + amount (child_spent st) c + active_total (active st) c <=? total)%Z
        ("the active child reservations exceed budget." +:+ counter_name c) log (idx index)
  | None => mret ()
  end.

Definition reserve_step (st : budget_state) (index : nat) (data : dict) : Ev budget_state :=
  let target := match dget data "child_id", dget data "reserved" with
    | VStr c, VDict r => if has_key (active st) c then None else Some (c, r)
    | _, _ => None end in
  check Budgets (match target with Some _ => true | None => false end)
    "budget/reserve must name one child with an object reservation" log (idx index);;
  match target with
  | Some (c, r) =>
      let st' := {| own_spent := own_spent st; child_spent := child_spent st;
                    active := dset (active st) c (normalized r);
                    running := running st; seen_children := seen_children st |} in
      foldM (check_fits st' index) () names;; mret st'
  | None => mret st
  end.

Definition spawn_start_step (st : budget_state) (index : nat) (data : dict) : Ev budget_state :=
  let child_id := dget data "child_id" in
  check Budgets
    (match child_id with
     | VStr c => has_key (active st) c && negb (elem_str c (running st)) | _ => false end)
    "spawn/start has no matching active reservation" log (idx index);;
  let st' := match child_id with
    | VStr c => {| own_spent := own_spent st; child_spent := child_spent st; active := active st;
                   running := set_add c (running st); seen_children := set_add c (seen_children st) |}
    | _ => st end in
  check Budgets
    (match as_int (dget_or budget "max_concurrent" (VInt 4)) with
     | Some cap => (Z.of_nat (length (running st')) <=? cap)%Z | None => true end)
    "running children exceed budget.max_concurrent" log (idx index);;
  mret st'.

Definition child_outcome (child : EpisodeLog) : value :=
  match last (events_of "episode/end" (events child)) with
  | Some e => dget (event_data e) "outcome"
  | None => VNone
  end.

Definition spawn_end_step (st : budget_state) (index : nat) (data : dict) : Ev budget_state :=
  let child_id := dget data "child_id" in
  check Budgets (match child_id with VStr c => elem_str c (running st) | _ => false end)
    "spawn/end has no matching running child" log (idx index);;
  match child_id with
  | VStr c =>
      check Budgets
        (match assoc ids c with
         | Some child => is_string (episode_id log) (dget (start child) "parent_id")
         | None => false end)
        "spawned child log is absent or names a different parent" log (idx index);;
      (match assoc ids c with
       | Some child => check Budgets (py_eq (dget data "outcome") (child_outcome child))
                         "spawn/end outcome differs from the child log" log (idx index)
       | None => mret () end);;
      mret {| own_spent := own_spent st; child_spent := child_spent st; active := active st;
              running := filter (λ x, x ≠ c) (running st); seen_children := seen_children st |}
  | _ => mret st
  end.

Definition bounded (child : option EpisodeLog) (c : counter) : bool :=
  match c with
  | input_tokens => false
  | output_tokens => match child with Some l => output_allowance_is_enforced l | None => true end
  | model_calls => true
  end.

Definition release_counter (child : option EpisodeLog) (measured : option spend)
    (reserved : reservation) (spent : dict) (index : nat) (acc : spend) (c : counter) : Ev spend :=
  match as_int (dget spent (counter_name c)) with
  | Some v =>
      (if bounded child c then
         check Budgets (v <=? default v (reserved c))%Z
           ("released child spend exceeds its " +:+ counter_name c +:+ " reservation") log (idx index)
       else mret ());;
      (match measured with
       | Some m => check Budgets (v =? amount m c)%Z
           ("released " +:+ counter_name c +:+ " spend differs from the child log") log (idx index)
       | None => mret () end);;
      mret (add_amount acc c v)
  | None => mret acc
  end.

Definition release_step (st : budget_state) (index : nat) (data : dict) : Ev budget_state :=
  let target := match dget data "child_id", dget data "spent" with
    | VStr c, VDict s => r ← assoc (active st) c; Some (c, s, r)
    | _, _ => None end in
  check Budgets (match target with Some _ => true | None => false end)
    "budget/release has no matching reservation" log (idx index);;
  match target with
  | Some (c, spent, reserved) =>
      let child := assoc ids c in
      measured ← match child with
        | Some l => s ← lift (subtree_spend limit d l); mret (Some s)
        | None => mret None end;
      child_spent' ← foldM (release_counter child measured reserved spent index) (child_spent st) names;
      mret {| own_spent := own_spent st; child_spent := child_spent'; active := dpop (active st) c;
              running := running st; seen_children := seen_children st |}
  | None => mret st
  end.

Definition budget_step (st : budget_state) (ie : nat * dict) : Ev budget_state :=
  let '(index, event) := ie in
  let kind := event_type event in
  let data := event_data event in
  if String.eqb kind "model/request" || String.eqb kind "assistant/message" then
    mret (charge (event_spend event) st)
  else if String.eqb kind "budget/reserve" then reserve_step st index data
  else if String.eqb kind "spawn/start" then spawn_start_step st index data
  else if String.eqb kind "spawn/end" then spawn_end_step st index data
  else if String.eqb kind "budget/release" then release_step st index data
  else mret st.

Definition same_set (a b : list string) : bool :=
  forallb (λ x, elem_str x b) a && forallb (λ x, elem_str x a) b.

Definition check_settled (st : budget_state) : Ev () :=
  check Budgets (match active st with [] => true | _ => false end)
    "a child reservation was not released" log VNone;;
  check Budgets (match running st with [] => true | _ => false end)
    "a child did not settle" log VNone;;
  check Budgets (same_set (seen_children st) (map episode_id (children_of d (episode_id log))))
    "the child log set differs from the spawn trace" log VNone;;
  match as_int (dget_or budget "max_episodes" (VInt 8)) with
  | Some cap =>
      count ← lift (subtree_count fuel d log);
      check Budgets (Z.of_nat count <=? cap)%Z
        "the episode tree exceeds budget.max_episodes" log VNone
  | None => mret ()
  end.

Definition budget_loop : Ev budget_state := foldM budget_step start_budget (enumerate (events log)).
End steps.

Definition has_budget_events (log : EpisodeLog) : bool :=
  existsb (λ e, elem_str (event_type e) ["budget/reserve"; "budget/release"; "spawn/start"; "spawn/end"])
    (events log).

Definition check_budget (limit fuel : nat) (ids : list (string * EpisodeLog)) (d : child_index)
    (_ : ()) (log : EpisodeLog) : Ev () :=
  let has_children := match children_of d (episode_id log) with [] => false | _ => true end in
  if negb (has_budget_events log) && negb has_children then mret ()
  else
    let declared := dget (contract log) "budget" in
    check Budgets (is_dict declared) "contract.budget is absent" log (VInt 0);;
    let budget := dict_or_empty declared in
    st ← budget_loop limit ids d log budget;
    check_settled fuel d log budget st.

Definition check_budgets (limit fuel : nat) (logs : list EpisodeLog) : Ev () :=
  d ← children_by_parent logs;
  foldM (check_budget limit fuel (by_id logs) d) () logs.

(** ** Specification: what is open after a prefix of a log *)

(** The things [opens] opened that no later event [closes]. *)
Fixpoint pending {A} (opens : dict → option (string * A)) (closes : dict → option string)
    (l : list dict) : list (string * A) :=
  match l with
  | [] => []
  | e :: l =>
      match opens e with
      | Some (c, a) =>
          if existsb (λ e', match closes e' with Some c' => String.eqb c' c | None => false end) l
          then pending opens closes l
          else (c, a) :: pending opens closes l
      | None => pending opens closes l
      end
  end.

Definition names_child (kind : string) (e : dict) : option string :=
  if String.eqb (event_type e) kind then as_str (dget (event_data e) "child_id") else None.
Definition reserves (e : dict) : option (string * reservation) :=
  c ← names_child "budget/reserve" e;
  Some (c, normalized (dict_or_empty (dget (event_data e) "reserved"))).
Definition starts (e : dict) : option (string * ()) := c ← names_child "spawn/start" e; Some (c, ()).

(** The reservations still held, and the children still running. *)
Definition outstanding (l : list dict) : list (string * reservation) :=
  pending reserves (names_child "budget/release") l.
Definition unsettled (l : list dict) : list string :=
  keys (pending starts (names_child "spawn/end") l).

(** The spend the releases of a log name. *)
Definition release_amount (e : dict) (c : counter) : Z :=
  if String.eqb (event_type e) "budget/release"
  then int_or_zero (dget (dict_or_empty (dget (event_data e) "spent")) (counter_name c))
  else 0%Z.
Definition total_of {A} (f : A → Z) (l : list A) : Z := fold_right (λ x s, (f x + s)%Z) 0%Z l.

(** ** Lemmas *)

Lemma total_of_app {A} (f : A → Z) l1 l2 : (total_of f (l1 ++ l2) = total_of f l1 + total_of f l2)%Z.
Proof. induction l1 as [|x l1 IH]; simpl; [done|]. rewrite IH. lia. Qed.

Lemma amount_add s t c : (amount (spend_add s t) c = amount s c + amount t c)%Z.
Proof. by destruct c. Qed.
Lemma amount_add_amount s c z c' :
  (amount (add_amount s c z) c' = amount s c' + (if decide (c = c') then z else 0))%Z.
Proof. destruct c, c'; case_decide; simpl; (congruence || lia). Qed.
Lemma spend_ext s t : (∀ c, amount s c = amount t c) → s = t.
Proof.
  intros H. destruct s, t. f_equal;
    [exact (H model_calls)|exact (H input_tokens)|exact (H output_tokens)].
Qed.
Lemma spend_add_0_l s : spend_add no_spend s = s.
Proof. apply spend_ext. intros c. rewrite amount_add. by destruct c. Qed.
Lemma spend_add_assoc s t u : spend_add s (spend_add t u) = spend_add (spend_add s t) u.
Proof. apply spend_ext. intros c. rewrite !amount_add. lia. Qed.

Lemma own_spend_amount l c : amount (own_spend l) c = total_of (λ e, amount (event_spend e) c) l.
Proof.
  unfold own_spend. assert (∀ s, amount (fold_left (λ s e, spend_add s (event_spend e)) l s) c
    = amount s c + total_of (λ e, amount (event_spend e) c) l)%Z as ->.
  { induction l as [|e l IH]; intros s; simpl; [lia|]. rewrite IH, amount_add. lia. }
  by destruct c.
Qed.

Lemma active_total_of a c : active_total a c = total_of (λ cr, default 0%Z (cr.2 c)) a.
Proof. done. Qed.

Section pending.
Context {A : Type} (opens : dict → option (string * A)) (closes : dict → option string).
Local Abbreviation pending := (pending opens closes).

(** An event that closes [c] removes it, one that opens [c] adds it last. *)
Lemma pending_snoc l e :
  pending (l ++ [e]) =
    (match closes e with Some c => filter (λ x, x.1 ≠ c) (pending l) | None => pending l end)
    ++ (match opens e with Some x => [x] | None => [] end).
Proof.
  induction l as [|e' l IH]; simpl.
  { destruct (opens e) as [[]|], (closes e); done. }
  destruct (opens e') as [[c a]|]; [|done].
  rewrite existsb_app. simpl. rewrite orb_false_r, IH.
  destruct (existsb _ l) eqn:El; simpl; [done|].
  destruct (closes e) as [c'|]; simpl; [|done].
  destruct (String.eqb_spec c' c) as [->|Hne].
  - by rewrite filter_cons_False by (simpl; naive_solver).
  - by rewrite filter_cons_True by (simpl; naive_solver).
Qed.
End pending.

Lemma dpop_filter {A} (d : list (string * A)) k :
  NoDup (keys d) → dpop d k = filter (λ x, x.1 ≠ k) d.
Proof.
  unfold keys. induction d as [|[k' v] d IH]; simpl; [done|]. intros [Hk Hd]%NoDup_cons.
  destruct (String.eqb_spec k' k) as [->|Hne].
  - rewrite filter_cons_False by (simpl; naive_solver). symmetry. clear IH Hd.
    induction d as [|[k2 v2] d IH]; [done|]. rewrite filter_cons_True.
    + rewrite IH; [done|]. simpl in Hk. set_solver.
    + simpl in *. set_solver.
  - rewrite filter_cons_True by (simpl; naive_solver). by rewrite IH.
Qed.

Lemma keys_filter {A} (d : list (string * A)) k :
  keys (filter (λ x, x.1 ≠ k) d) = filter (λ x, x ≠ k) (keys d).
Proof.
  unfold keys. induction d as [|[k' v] d IH]; [done|]. simpl.
  destruct (decide (k' = k)) as [->|Hne].
  - rewrite !filter_cons_False by (simpl; naive_solver). done.
  - rewrite !filter_cons_True by (simpl; naive_solver). simpl. by rewrite IH.
Qed.


(** ** The state of the loop is what the prefix says *)

Record budget_inv (es : list dict) (st : budget_state) : Prop := {
  inv_own : ∀ c, amount (own_spent st) c = amount (own_spend es) c;
  inv_child : ∀ c, amount (child_spent st) c = total_of (λ e, release_amount e c) es;
  inv_active : active st = outstanding es;
  inv_nodup : NoDup (keys (active st));
  inv_running : running st = unsettled es;
  inv_seen : ∀ x, x ∈ seen_children st ↔ ∃ e, e ∈ es ∧ names_child "spawn/start" e = Some x;
}.

Lemma start_budget_inv : budget_inv [] start_budget.
Proof.
  constructor; try done; [by intros []|by apply NoDup_nil|]. intros x. simpl.
  split; [by intros ?%elem_of_nil|by intros (? & ?%elem_of_nil & _)].
Qed.

Lemma own_spend_snoc es e c :
  amount (own_spend (es ++ [e])) c = (amount (own_spend es) c + amount (event_spend e) c)%Z.
Proof. rewrite !own_spend_amount, total_of_app. simpl. lia. Qed.

Lemma seen_snoc es e x :
  (∃ e', e' ∈ es ++ [e] ∧ names_child "spawn/start" e' = Some x) ↔
  (∃ e', e' ∈ es ∧ names_child "spawn/start" e' = Some x) ∨ names_child "spawn/start" e = Some x.
Proof. setoid_rewrite elem_of_app. setoid_rewrite list_elem_of_singleton. naive_solver. Qed.

(** The event's kind decides what each part of the specification sees. *)
Ltac kind_simpl Ht :=
  rewrite ?own_spend_snoc, ?total_of_app, ?amount_add; unfold outstanding, unsettled;
  rewrite ?pending_snoc; rewrite ?seen_snoc;
  unfold event_spend, release_amount, reserves, starts, names_child; simpl; rewrite ?Ht; simpl;
  rewrite ?app_nil_r.

(** An event of a kind that touches no child only charges the episode. *)
Lemma charge_inv es st e :
  (∀ k, k ∈ ["budget/reserve"; "spawn/start"; "spawn/end"; "budget/release"] → event_type e ≠ k) →
  budget_inv es st → budget_inv (es ++ [e]) (charge (event_spend e) st).
Proof.
  intros Hk [Ho Hc Ha Hd Hr Hs].
  assert (∀ k, k ∈ ["budget/reserve"; "spawn/start"; "spawn/end"; "budget/release"] →
    (event_type e =? k)%string = false) as Hf by (intros k Hin; apply String.eqb_neq; auto).
  assert (∀ k, k ∈ ["budget/reserve"; "spawn/start"; "spawn/end"; "budget/release"] →
    names_child k e = None) as Hn by (intros k Hin; unfold names_child; by rewrite (Hf k Hin)).
  constructor; simpl; [| |by unfold outstanding; rewrite pending_snoc; unfold reserves;
      rewrite !Hn by set_solver; simpl; rewrite app_nil_r
    |done|by unfold unsettled; rewrite pending_snoc; unfold starts;
      rewrite !Hn by set_solver; simpl; rewrite app_nil_r|].
  - intros c. rewrite own_spend_snoc, amount_add, Ho. done.
  - intros c. rewrite total_of_app, Hc. unfold release_amount at 2. simpl.
    unfold release_amount. rewrite (Hf "budget/release") by set_solver. lia.
  - intros x. rewrite seen_snoc, Hs, (Hn "spawn/start") by set_solver. naive_solver.
Qed.

Section budget_lemmas.
Context (limit fuel : nat) (ids : list (string * EpisodeLog)) (d : child_index).
Context (log : EpisodeLog) (budget : dict).

Lemma reserve_step_inv es st i e st' :
  event_type e = "budget/reserve" → returns (reserve_step log budget st i (event_data e)) st' →
  budget_inv es st →
  budget_inv (es ++ [e]) st' ∧
  ∀ c total, as_int (dget budget (counter_name c)) = Some total →
    (amount (own_spent st') c + amount (child_spent st') c + active_total (active st') c <= total)%Z.
Proof.
  intros Ht H [Ho Hc Ha Hd Hr Hs]. unfold reserve_step in H. ev_break.
  destruct (dget (event_data e) "child_id") as [| | | |c0| |] eqn:Ec; try done.
  destruct (dget (event_data e) "reserved") as [| | | | | |r] eqn:Er; try done.
  destruct (has_key (active st) c0) eqn:Ek; try done. ev_break. subst st'. split.
  - assert (c0 ∉ keys (active st)) as Hn.
    { rewrite <-has_key_elem. by rewrite Ek. }
    constructor; simpl; [| | |by apply dset_nodup| |].
    + intros c. kind_simpl Ht. rewrite Ho. destruct c; simpl; lia.
    + intros c. rewrite total_of_app, <-Hc. kind_simpl Ht. lia.
    + kind_simpl Ht. rewrite Ec, Er. simpl. rewrite dset_notin by done. by rewrite Ha.
    + by kind_simpl Ht.
    + intros x2. kind_simpl Ht. rewrite Hs. naive_solver.
  - intros c total Htot. destruct x0. rewrite returns_foldM_unit in H0.
    assert (c ∈ names) as Hc' by (destruct c; unfold names; set_solver).
    specialize (H0 c Hc'). unfold check_fits in H0. rewrite Htot in H0.
    apply returns_check in H0. by apply Z.leb_le in H0.
Qed.

Lemma spawn_start_step_inv es st i e st' :
  event_type e = "spawn/start" → returns (spawn_start_step log budget st i (event_data e)) st' →
  budget_inv es st →
  budget_inv (es ++ [e]) st' ∧
  (∃ c, names_child "spawn/start" e = Some c ∧ c ∈ keys (outstanding es) ∧ c ∉ unsettled es) ∧
  ∀ cap, as_int (dget_or budget "max_concurrent" (VInt 4)) = Some cap →
    (Z.of_nat (length (running st')) <= cap)%Z.
Proof.
  intros Ht H [Ho Hc Ha Hd Hr Hs]. unfold spawn_start_step in H. ev_break.
  destruct (dget (event_data e) "child_id") as [| | | |c0| |] eqn:Ec; try done.
  apply andb_true_iff in H as [Hk%has_key_elem Hf%negb_true_iff%elem_str_false]. subst st'.
  split_and!.
  - constructor; simpl; [| |by kind_simpl Ht|done| |].
    + intros c. kind_simpl Ht. rewrite Ho. destruct c; simpl; lia.
    + intros c. rewrite total_of_app, <-Hc. kind_simpl Ht. lia.
    + rewrite set_add_fresh by done. kind_simpl Ht. rewrite Ec. simpl.
      unfold keys. rewrite map_app. simpl. by rewrite Hr.
    + intros x2. kind_simpl Ht. rewrite Ec. simpl. rewrite <-Hs. unfold set_add.
      destruct (elem_str c0 (seen_children st)) eqn:E2.
      * apply elem_str_spec in E2. naive_solver.
      * rewrite elem_of_app, list_elem_of_singleton. naive_solver.
  - exists c0. unfold names_child. rewrite Ht, Ec. simpl. by rewrite <-Ha, <-Hr.
  - intros cap Hcap. rewrite Hcap in H0. by apply Z.leb_le in H0.
Qed.

Lemma spawn_end_step_inv es st i e st' :
  event_type e = "spawn/end" → returns (spawn_end_step ids log st i (event_data e)) st' →
  budget_inv es st →
  budget_inv (es ++ [e]) st' ∧
  ∃ c child, names_child "spawn/end" e = Some c ∧ c ∈ unsettled es ∧ assoc ids c = Some child ∧
    dget (start child) "parent_id" = VStr (episode_id log) ∧
    py_eq (dget (event_data e) "outcome") (child_outcome child) = true.
Proof.
  intros Ht H [Ho Hc Ha Hd Hr Hs]. unfold spawn_end_step in H. ev_break.
  destruct (dget (event_data e) "child_id") as [| | | |c0| |] eqn:Ec; try done.
  apply elem_str_spec in H. ev_break. destruct (assoc ids c0) as [child|] eqn:El; try done. ev_break.
  subst st'. split.
  - constructor; simpl; [| |by kind_simpl Ht|done| |].
    + intros c. kind_simpl Ht. rewrite Ho. destruct c; simpl; lia.
    + intros c. rewrite total_of_app, <-Hc. kind_simpl Ht. lia.
    + kind_simpl Ht. rewrite Ec. simpl. by rewrite keys_filter, Hr.
    + intros x2. kind_simpl Ht. rewrite Hs. naive_solver.
  - exists c0, child. unfold names_child. rewrite Ht, Ec. simpl. rewrite <-Hr.
    split_and!; try done. by apply is_string_spec.
Qed.

Lemma release_counter_ret child measured reserved spent i acc c acc' :
  returns (release_counter log child measured reserved spent i acc c) acc' →
  (∀ k, amount acc' k = amount acc k +
     (if decide (c = k) then int_or_zero (dget spent (counter_name c)) else 0))%Z ∧
  ∀ v, as_int (dget spent (counter_name c)) = Some v →
    (∀ m, measured = Some m → v = amount m c) ∧
    (∀ z, bounded child c = true → reserved c = Some z → (v <= z)%Z).
Proof.
  unfold release_counter, int_or_zero. intros H.
  destruct (as_int (dget spent (counter_name c))) as [v|]; simpl.
  - ev_break. subst acc'. split; [intros k; apply amount_add_amount|].
    intros v' [= <-]. split.
    + intros m ->. apply returns_check in H0. by apply Z.eqb_eq in H0.
    + intros z Hb Hz. rewrite Hb in H. apply returns_check in H. rewrite Hz in H.
      by apply Z.leb_le in H.
  - apply returns_ret in H as ->. split; [|done]. intros k. case_decide; lia.
Qed.

(** A release names a reservation still held, and its numbers are those of
    the child's subtree. *)
Definition released_right (es : list dict) (e : dict) : Prop :=
  ∃ c spent r, names_child "budget/release" e = Some c ∧
    dget (event_data e) "spent" = VDict spent ∧ (c, r) ∈ outstanding es ∧
    (∀ v m, as_int (dget spent "model_calls") = Some v → r model_calls = Some m → (v <= m)%Z) ∧
    ∀ child, assoc ids c = Some child → ∃ s, subtree_spend limit d child = Ok s ∧
      ∀ k v, as_int (dget spent (counter_name k)) = Some v → v = amount s k.

Lemma release_step_inv es st i e st' :
  event_type e = "budget/release" →
  returns (release_step limit ids d log st i (event_data e)) st' →
  budget_inv es st → budget_inv (es ++ [e]) st' ∧ released_right es e.
Proof.
  intros Ht H [Ho Hc Ha Hd Hr Hs]. unfold release_step in H.
  apply returns_bind in H as (u & Hck%returns_check & H).
  destruct (dget (event_data e) "child_id") as [| | | |c0| |] eqn:Ec; try done.
  destruct (dget (event_data e) "spent") as [| | | | | |spent] eqn:Es; try done.
  destruct (assoc (active st) c0) as [r|] eqn:Er; [|done]. cbn [mbind option_bind] in H.
  apply returns_bind in H as (measured & Hm & H). unfold names in H.
  apply returns_bind in H as (acc & Hacc & Hst%returns_ret). subst st'.
  rewrite !returns_foldM_cons in Hacc. destruct Hacc as (a1 & Hacc1 & Hacc).
  rewrite !returns_foldM_cons in Hacc. destruct Hacc as (a2 & Hacc2 & Hacc).
  rewrite !returns_foldM_cons in Hacc. destruct Hacc as (a3 & Hacc3 & ->%returns_ret).
  apply release_counter_ret in Hacc1 as [Hs1 Hv1], Hacc2 as [Hs2 Hv2], Hacc3 as [Hs3 Hv3].
  assert (c0 ∈ keys (active st)) as Hin by (rewrite <-has_key_elem, has_key_assoc; eauto).
  split.
  - constructor; simpl; [| | |by apply dpop_nodup|by kind_simpl Ht|].
    + intros c. kind_simpl Ht. rewrite Ho. destruct c; simpl; lia.
    + intros c. rewrite total_of_app, <-Hc, Hs3, Hs2, Hs1. kind_simpl Ht. rewrite Es. change (dict_or_empty (VDict spent)) with spent.
      destruct c; simpl; lia.
    + kind_simpl Ht. rewrite Ec. simpl. by rewrite dpop_filter, Ha.
    + intros x2. kind_simpl Ht. rewrite Hs. naive_solver.
  - exists c0, spent, r. unfold names_child. rewrite Ht, Ec. split_and!; [done|done| | |].
    + rewrite <-Ha. by apply assoc_elem.
    + intros v m Hv Hm'. by apply (proj2 (Hv1 v Hv) m).
    + intros child Hchild. rewrite Hchild in Hm.
      apply returns_bind in Hm as (s & Hs'%returns_lift & ->%returns_ret). exists s. split; [done|].
      intros k v Hv. destruct k; [apply (proj1 (Hv1 v Hv))|apply (proj1 (Hv2 v Hv))
        |apply (proj1 (Hv3 v Hv))]; done.
Qed.

(** One step: the invariant, and what the step checked. *)
Lemma budget_step_inv es st i e st' :
  returns (budget_step limit ids d log budget st (i, e)) st' → budget_inv es st →
  budget_inv (es ++ [e]) st' ∧
  (event_type e = "budget/reserve" → ∀ c total, as_int (dget budget (counter_name c)) = Some total →
    (amount (own_spent st') c + amount (child_spent st') c + active_total (active st') c <= total)%Z) ∧
  (event_type e = "spawn/start" → (∃ c, names_child "spawn/start" e = Some c ∧
     c ∈ keys (outstanding es) ∧ c ∉ unsettled es) ∧
     ∀ cap, as_int (dget_or budget "max_concurrent" (VInt 4)) = Some cap →
       (Z.of_nat (length (running st')) <= cap)%Z) ∧
  (event_type e = "spawn/end" → ∃ c child, names_child "spawn/end" e = Some c ∧ c ∈ unsettled es ∧
     assoc ids c = Some child ∧ dget (start child) "parent_id" = VStr (episode_id log) ∧
     py_eq (dget (event_data e) "outcome") (child_outcome child) = true) ∧
  (event_type e = "budget/release" → released_right es e).
Proof.
  intros H Hinv. unfold budget_step in H.
  destruct (String.eqb (event_type e) "model/request" || String.eqb (event_type e) "assistant/message")
    eqn:Ek.
  { apply returns_ret in H as ->. apply orb_true_iff in Ek as [Ek|Ek]; apply String.eqb_eq in Ek;
      rewrite Ek; (split; [apply charge_inv; [rewrite Ek; set_solver|done]|done]). }
  apply orb_false_iff in Ek as [Ek1 Ek2].
  destruct (String.eqb_spec (event_type e) "budget/reserve") as [Ht|H1].
  { destruct (reserve_step_inv es st i e st' Ht H Hinv) as [Hi Hf]. rewrite Ht. done. }
  destruct (String.eqb_spec (event_type e) "spawn/start") as [Ht|H2].
  { destruct (spawn_start_step_inv es st i e st' Ht H Hinv) as (Hi & Hc & Hcap). rewrite Ht. done. }
  destruct (String.eqb_spec (event_type e) "spawn/end") as [Ht|H3].
  { destruct (spawn_end_step_inv es st i e st' Ht H Hinv) as (Hi & Hc). rewrite Ht. done. }
  destruct (String.eqb_spec (event_type e) "budget/release") as [Ht|H4].
  { destruct (release_step_inv es st i e st' Ht H Hinv) as (Hi & Hc). rewrite Ht. done. }
  apply returns_ret in H as ->. split; [|done].
  assert (charge (event_spend e) st = st) as <-.
  { unfold event_spend. rewrite Ek1, Ek2. destruct st as [o ch a r s]. unfold charge. simpl. f_equal.
    apply spend_ext. intros c. rewrite amount_add. by destruct c; simpl; rewrite Z.add_0_r. }
  apply charge_inv; [|done]. intros k. rewrite !elem_of_cons, elem_of_nil. naive_solver.
Qed.
End budget_lemmas.

(** ** From the log set to one step *)

(** The children index as a function of the logs. *)
Definition tree (logs : list EpisodeLog) : child_index :=
  fold_left (λ d log, match dget (start log) "parent_id" with
                      | VStr p => dset d p (children_of d p ++ [log])
                      | _ => d end) logs [].
Definition has_parent (p : string) (log : EpisodeLog) : Prop := dget (start log) "parent_id" = VStr p.
#[export] Instance has_parent_dec p log : Decision (has_parent p log).
Proof.
  destruct (is_string p (dget (start log) "parent_id")) eqn:E;
    [left|right]; unfold has_parent; rewrite <-is_string_spec; by rewrite E.
Defined.

Lemma children_by_parent_tree logs d : returns (children_by_parent logs) d → d = tree logs.
Proof.
  unfold children_by_parent, tree. generalize (@nil (string * list EpisodeLog)).
  induction logs as [|log logs IH]; intros d0 H; [by apply returns_ret in H|].
  apply returns_foldM_cons in H as (d1 & H1 & H). apply IH in H as ->. simpl. f_equal.
  unfold index_step in H1. destruct (dget (start log) "parent_id"); ev_break; by subst.
Qed.

(** The children of an episode are the logs that name it as their parent. *)
Lemma children_of_tree logs p : children_of (tree logs) p = filter (has_parent p) logs.
Proof.
  unfold tree. assert (∀ d, children_of (fold_left (λ d log, match dget (start log) "parent_id" with
      | VStr q => dset d q (children_of d q ++ [log]) | _ => d end) logs d) p
    = children_of d p ++ filter (has_parent p) logs) as ->; [|done].
  induction logs as [|log logs IH]; intros d; [by rewrite app_nil_r|]. simpl. rewrite IH.
  destruct (decide (has_parent p log)) as [Hp|Hp].
  - rewrite (filter_cons_True (has_parent p)) by done. rewrite Hp. unfold children_of at 1.
    rewrite assoc_dset_eq. simpl. by rewrite <-app_assoc.
  - rewrite (filter_cons_False (has_parent p)) by done. f_equal.
    unfold has_parent in Hp. destruct (dget (start log) "parent_id") as [| | | |q| |]; try done.
    unfold children_of. rewrite assoc_dset_ne by naive_solver. done.
Qed.

Definition participates (logs : list EpisodeLog) (log : EpisodeLog) : Prop :=
  has_budget_events log = true ∨ ∃ child, child ∈ logs ∧ has_parent (episode_id log) child.

Lemma check_budgets_log limit fuel logs log :
  passes (check_budgets limit fuel logs) → log ∈ logs → participates logs log →
  ∃ budget st, dget (contract log) "budget" = VDict budget ∧
    returns (budget_loop limit (by_id logs) (tree logs) log budget) st ∧
    returns (check_settled fuel (tree logs) log budget st) ().
Proof.
  intros ([] & H)%passes_returns Hin Hp. apply returns_bind in H as (d & ->%children_by_parent_tree & H).
  rewrite returns_foldM_unit in H. specialize (H log Hin). unfold check_budget in H.
  assert (negb (has_budget_events log) &&
    negb (match children_of (tree logs) (episode_id log) with [] => false | _ => true end) = false) as Hf.
  { destruct Hp as [->|(child & Hc & Hpar)]; [done|]. apply andb_false_iff. right.
    rewrite children_of_tree. destruct (filter _ logs) eqn:E; [|done].
    assert (child ∈ filter (has_parent (episode_id log)) logs) as Hx
      by (apply list_elem_of_filter; done). rewrite E in Hx. by apply elem_of_nil in Hx. }
  rewrite Hf in H. apply returns_bind in H as ([] & Hb%returns_check & H).
  apply returns_bind in H as (st & Hst & H).
  destruct (dget (contract log) "budget") as [| | | | | |budget]; try done. eauto.
Qed.

Lemma budget_events_participate logs log i e :
  events log !! i = Some e →
  event_type e ∈ ["budget/reserve"; "budget/release"; "spawn/start"; "spawn/end"] →
  participates logs log.
Proof.
  intros Hi He. left. apply existsb_exists. exists e.
  split; [by eapply list_elem_of_In, list_elem_of_lookup_2|by apply elem_str_spec].
Qed.

Lemma budget_loop_inv limit ids d log budget es l i s st :
  budget_inv es s → returns (foldM (budget_step limit ids d log budget) s (enumerate_from i l)) st →
  budget_inv (es ++ l) st.
Proof.
  revert es i s. induction l as [|e l IH]; intros es i s Hs H.
  - apply returns_ret in H as ->. by rewrite app_nil_r.
  - apply returns_foldM_cons in H as (t & Ht & H).
    replace (es ++ e :: l) with ((es ++ [e]) ++ l) by (by rewrite <-app_assoc).
    eapply IH; [|exact H]. by eapply budget_step_inv.
Qed.

(** The state around the step of event [i]. *)
Lemma budget_loop_at limit ids d log budget st i e :
  returns (budget_loop limit ids d log budget) st → events log !! i = Some e →
  ∃ s t, budget_inv (take i (events log)) s ∧ budget_inv (take (S i) (events log)) t ∧
    returns (budget_step limit ids d log budget s (i, e)) t.
Proof.
  intros H Hi. destruct (returns_enumerate_at _ _ _ _ _ _ H Hi) as (s & t & Hs & Ht).
  assert (budget_inv (take i (events log)) s) as Hinv
    by (by eapply (budget_loop_inv _ _ _ _ _ []), Hs; apply start_budget_inv).
  exists s, t. split_and!; [done| |done]. rewrite (take_S_r _ _ _ Hi). by eapply budget_step_inv.
Qed.

(** ** What the budget checks guarantee *)

(** Claim C5. No reservation overcommits a parent: in logs whose budget checks
    pass, right after each [budget/reserve] and for each counter the contract
    bounds, the episode's own spend, the spend its released children reported
    and every reservation still held add up to at most the budget. *)
Theorem reservations_fit limit fuel logs log budget i e c total :
  passes (check_budgets limit fuel logs) → log ∈ logs →
  dget (contract log) "budget" = VDict budget →
  events log !! i = Some e → event_type e = "budget/reserve" →
  as_int (dget budget (counter_name c)) = Some total →
  let es := take (S i) (events log) in
  (amount (own_spend es) c + total_of (λ e, release_amount e c) es
   + active_total (outstanding es) c <= total)%Z.
Proof.
  intros Hpass Hlog Hb Hi Ht Htot es.
  destruct (check_budgets_log _ _ _ _ Hpass Hlog) as (budget' & st & Hb' & Hst & _).
  { eapply budget_events_participate; [done|]. rewrite Ht. set_solver. }
  rewrite Hb in Hb'. injection Hb' as <-. destruct (budget_loop_at _ _ _ _ _ _ _ _ Hst Hi) as (s & t & Hs & Hinv & Hstep).
  apply budget_step_inv with (es := take i (events log)) in Hstep as (_ & Hfit & _); [|done].
  specialize (Hfit Ht c total Htot). destruct Hinv as [Ho Hc Ha _ _ _].
  subst es. by rewrite <-Ho, <-Hc, <-Ha.
Qed.

(** Every [budget/release] is honest: it names a reservation still
    held, the model calls it reports are within that reservation, and, when
    the child's log is in the set, each number it reports is what summing the
    child's whole subtree gives. *)
Theorem releases_measured limit fuel logs log i e :
  passes (check_budgets limit fuel logs) → log ∈ logs →
  events log !! i = Some e → event_type e = "budget/release" →
  released_right limit (by_id logs) (tree logs) (take i (events log)) e.
Proof.
  intros Hpass Hlog Hi Ht.
  destruct (check_budgets_log _ _ _ _ Hpass Hlog) as (budget & st & _ & Hst & _).
  { eapply budget_events_participate; [done|]. rewrite Ht. set_solver. }
  destruct (budget_loop_at _ _ _ _ _ _ _ _ Hst Hi) as (s & t & Hs & _ & Hstep).
  apply budget_step_inv with (es := take i (events log)) in Hstep; [|done]. tauto.
Qed.

(** Children are spawned under control: a [spawn/start] names a child
    that holds a reservation and is not running, never more than
    [max_concurrent] children run, and a [spawn/end] names a running child
    whose log is in the set, names this episode as its parent and records the
    same outcome. *)
Theorem spawns_controlled limit fuel logs log i e :
  passes (check_budgets limit fuel logs) → log ∈ logs → events log !! i = Some e →
  (event_type e = "spawn/start" →
   (∃ c, names_child "spawn/start" e = Some c ∧
      c ∈ keys (outstanding (take i (events log))) ∧ c ∉ unsettled (take i (events log))) ∧
   ∀ budget cap, dget (contract log) "budget" = VDict budget →
     as_int (dget_or budget "max_concurrent" (VInt 4)) = Some cap →
     (Z.of_nat (length (unsettled (take (S i) (events log)))) <= cap)%Z) ∧
  (event_type e = "spawn/end" →
   ∃ c child, names_child "spawn/end" e = Some c ∧ c ∈ unsettled (take i (events log)) ∧
     assoc (by_id logs) c = Some child ∧ has_parent (episode_id log) child ∧
     py_eq (dget (event_data e) "outcome") (child_outcome child) = true).
Proof.
  intros Hpass Hlog Hi.
  assert (event_type e ∈ ["spawn/start"; "spawn/end"] → ∃ budget s t,
    dget (contract log) "budget" = VDict budget ∧ budget_inv (take i (events log)) s ∧
    budget_inv (take (S i) (events log)) t ∧
    returns (budget_step limit (by_id logs) (tree logs) log budget s (i, e)) t) as Hgo.
  { intros Ht. destruct (check_budgets_log _ _ _ _ Hpass Hlog) as (budget & st & Hb & Hst & _).
    { eapply budget_events_participate; [done|]. set_solver. }
    destruct (budget_loop_at _ _ _ _ _ _ _ _ Hst Hi) as (s & t & ? & ? & ?). eauto 8. }
  split; intros Ht; (destruct Hgo as (budget & s & t & Hb & Hs & Hinv & Hstep); [set_solver|]);
    apply budget_step_inv with (es := take i (events log)) in Hstep
      as (_ & _ & Hstart & Hend & _); try done.
  - destruct (Hstart Ht) as [Hc Hcap]. split; [done|]. intros budget' cap Hb' Hcap'.
    rewrite Hb in Hb'. injection Hb' as <-.
    rewrite <-(inv_running _ _ Hinv). by apply Hcap.
  - by apply Hend.
Qed.

Lemma same_set_spec a b : same_set a b = true ↔ ∀ x, x ∈ a ↔ x ∈ b.
Proof.
  unfold same_set. rewrite andb_true_iff, !forallb_forall.
  setoid_rewrite <-list_elem_of_In. setoid_rewrite elem_str_spec. naive_solver.
Qed.

(** Nothing is left open: when the budget checks pass, every
    reservation of a participating episode has been released, every child it
    started has ended, the children it started are exactly the logs that name
    it as their parent, and the episodes of its subtree fit [max_episodes]. *)
Theorem budgets_settled limit fuel logs log :
  passes (check_budgets limit fuel logs) → log ∈ logs → participates logs log →
  outstanding (events log) = [] ∧ unsettled (events log) = [] ∧
  (∀ x, (∃ e, e ∈ events log ∧ names_child "spawn/start" e = Some x) ↔
        ∃ child, child ∈ logs ∧ has_parent (episode_id log) child ∧ episode_id child = x) ∧
  ∀ budget cap, dget (contract log) "budget" = VDict budget →
    as_int (dget_or budget "max_episodes" (VInt 8)) = Some cap →
    ∃ n, subtree_count fuel (tree logs) log = Ok n ∧ (Z.of_nat n <= cap)%Z.
Proof.
  intros Hpass Hlog Hp.
  destruct (check_budgets_log _ _ _ _ Hpass Hlog Hp) as (budget & st & Hb & Hst & H).
  apply (budget_loop_inv _ _ _ _ _ [] _ _ _ _ start_budget_inv) in Hst as [_ _ Ha _ Hr Hs].
  simpl in *. unfold check_settled in H.
  apply returns_bind in H as ([] & H1%returns_check & H).
  apply returns_bind in H as ([] & H2%returns_check & H).
  apply returns_bind in H as ([] & H3%returns_check & H). split_and!.
  - rewrite <-Ha. by destruct (active st).
  - rewrite <-Hr. by destruct (running st).
  - intros x. rewrite <-Hs. rewrite same_set_spec in H3. rewrite H3, list_elem_of_fmap.
    setoid_rewrite children_of_tree. setoid_rewrite list_elem_of_filter. naive_solver.
  - intros budget' cap Hb' Hcap.
    rewrite Hb in Hb'. injection Hb' as <-. rewrite Hcap in H.
    apply returns_bind in H as (n & Hn%returns_lift & Hle%returns_check%Z.leb_le). eauto.
Qed.

(** ** The tree recursion *)

(** [descendants d log l]: [l] lists the episode and everything below it, in
    the order the recursion visits them. *)
Inductive descendants (d : child_index) : EpisodeLog → list EpisodeLog → Prop :=
| descendants_node log l :
    descendants_all d (children_of d (episode_id log)) l → descendants d log (log :: l)
with descendants_all (d : child_index) : list EpisodeLog → list EpisodeLog → Prop :=
| descendants_nil : descendants_all d [] []
| descendants_cons log logs l l' :
    descendants d log l → descendants_all d logs l' → descendants_all d (log :: logs) (l ++ l').

(** [rank] decreases from a parent to its children: the logs form a forest. *)
Definition ranked (d : child_index) (rank : string → nat) : Prop :=
  ∀ p child, child ∈ children_of d p → rank (episode_id child) < rank p.

Definition spend_total (l : list EpisodeLog) : spend :=
  fold_right (λ log s, spend_add (own_spend (events log)) s) no_spend l.

Lemma spend_total_app l1 l2 : spend_total (l1 ++ l2) = spend_add (spend_total l1) (spend_total l2).
Proof.
  induction l1 as [|x l1 IH]; simpl; [by rewrite spend_add_0_l|].
  by rewrite IH, spend_add_assoc.
Qed.

Lemma spend_add_0_r s : spend_add s no_spend = s.
Proof. apply spend_ext. intros c. rewrite amount_add. destruct c; simpl; lia. Qed.

Lemma descendants_all_app d l1 l2 r1 r2 :
  descendants_all d l1 r1 → descendants_all d l2 r2 → descendants_all d (l1 ++ l2) (r1 ++ r2).
Proof.
  induction 1; intros H2; simpl; [done|]. rewrite <-app_assoc. constructor; auto.
Qed.

Lemma descendants_all_rev d l r : descendants_all d l r →
  ∃ r', descendants_all d (rev l) r' ∧ length r' = length r.
Proof.
  induction 1 as [|log logs l r Hlog Hlogs (r' & Hr' & Hlen)]; simpl.
  - exists []. split; [constructor|done].
  - exists (r' ++ (l ++ [])). split.
    + apply descendants_all_app; [done|]. constructor; [done|constructor].
    + rewrite !length_app. simpl. lia.
Qed.

(** The loop takes one iteration for each log below its stack. *)
Lemma subtree_loop_count d fuel stack r count :
  descendants_all d stack r → length r ≤ fuel →
  subtree_loop fuel d stack count = Ok (count + length r).
Proof.
  revert stack r count. induction fuel as [|fuel IH]; intros stack r count Hr Hfuel.
  - inversion Hr as [|log logs l l' Hlog Hlogs]; subst; simpl; [by rewrite Nat.add_0_r|].
    inversion Hlog; subst. simpl in Hfuel. lia.
  - inversion Hr as [|log logs l l' Hlog Hlogs]; subst; simpl; [by rewrite Nat.add_0_r|].
    inversion Hlog as [? lc Hc]; subst. destruct (descendants_all_rev _ _ _ Hc) as (rc & Hrc & Hlen).
    rewrite (IH _ (rc ++ l')).
    + f_equal. simpl. rewrite !length_app, Hlen. lia.
    + by apply descendants_all_app.
    + simpl in Hfuel. rewrite !length_app in *. lia.
Qed.

Lemma subtree_spend_below d rank n :
  ranked d rank → ∀ log, rank (episode_id log) < n → ∃ l, descendants d log l ∧
    ∀ limit, n ≤ limit → subtree_spend limit d log = Ok (spend_total l).
Proof.
  intros Hrank. induction n as [|n IH]; intros log Hlog; [lia|].
  assert (∀ logs s, (∀ child, child ∈ logs → rank (episode_id child) < rank (episode_id log)) →
    ∃ l, descendants_all d logs l ∧ ∀ limit, n ≤ limit →
      foldM (λ s child, t ← subtree_spend limit d child; Ok (spend_add s t)) s logs
      = Ok (spend_add s (spend_total l))) as Hall.
  { intros logs. induction logs as [|child logs IHl]; intros s Hlogs; simpl.
    - exists []. split; [constructor|]. intros limit _. by rewrite spend_add_0_r.
    - destruct (IH child) as (lc & Hc & Hsc).
      { specialize (Hlogs child ltac:(set_solver)). lia. }
      destruct (IHl (spend_add s (spend_total lc))) as (l & Hl & Hs); [set_solver|].
      exists (lc ++ l). split; [by constructor|]. intros limit Hlim. rewrite Hsc by done. simpl.
      rewrite Hs by done. by rewrite spend_total_app, spend_add_assoc. }
  destruct (Hall (children_of d (episode_id log)) (own_spend (events log))) as (l & Hl & Hs);
    [intros child; apply Hrank|].
  exists (log :: l). split; [by constructor|]. intros [|limit] Hlim; [lia|]. apply Hs. lia.
Qed.

(** Every descendant is one of the logs. *)
Fixpoint descendants_logs logs log l (H : descendants (tree logs) log l) {struct H} :
  ∀ child, child ∈ l → child = log ∨ child ∈ logs
with descendants_all_logs logs l0 l (H : descendants_all (tree logs) l0 l) {struct H} :
  (∀ x, x ∈ l0 → x ∈ logs) → ∀ child, child ∈ l → child ∈ logs.
Proof.
  - destruct H as [log lc Hc]. intros child [->|Hin]%elem_of_cons; [by left|]. right.
    eapply (descendants_all_logs logs _ lc Hc); [|done]. intros x. rewrite children_of_tree. by intros [_ Hx]%list_elem_of_filter.
  - destruct H as [|log l1 l2 l3 H1 H2]; intros Hl child Hin; [by apply elem_of_nil in Hin|].
    apply elem_of_app in Hin as [Hin|Hin].
    + destruct (descendants_logs _ _ _ H1 _ Hin) as [->|]; [apply Hl; by left|done].
    + eapply (descendants_all_logs _ _ _ H2); [|done]. intros x Hx. apply Hl. by right.
Qed.

(** Claim C29. On logs whose index of children, the one the checks build, is a forest both
    walks of a subtree end: there is one list of the episode's descendants such that the recursion returns
    exactly the sum of their own spend, once the recursion limit exceeds the
    depth, and the [while] loop returns their number, after as many iterations
    as there are descendants.  On a cycle neither ends
    ([subtree_cycle_diverges]). *)
Theorem subtree_walks_end logs rank log d :
  returns (children_by_parent logs) d → ranked d rank →
  ∃ l, descendants d log l ∧
    (∀ child, child ∈ l → child = log ∨ child ∈ logs) ∧
    (∀ limit, rank (episode_id log) < limit → subtree_spend limit d log = Ok (spend_total l)) ∧
    (∀ fuel, length l ≤ S fuel → subtree_count fuel d log = Ok (length l)).
Proof.
  intros Hd Hrank. destruct (subtree_spend_below _ _ (S (rank (episode_id log))) Hrank log) as (l & Hl & Hs);
    [lia|].
  exists l. split_and!; [done| |intros limit Hlim; apply Hs; lia|].
  { apply children_by_parent_tree in Hd as ->. by apply descendants_logs. }
  intros fuel Hfuel. inversion Hl as [? lc Hc]; subst. destruct (descendants_all_rev _ _ _ Hc) as (r & Hr & Hlen).
  unfold subtree_count. rewrite (subtree_loop_count _ _ _ r); [|done|simpl in Hfuel; lia].
  simpl. by rewrite Hlen.
Qed.

Lemma elem_of_rev {A} (x : A) l : x ∈ rev l ↔ x ∈ l.
Proof. by rewrite !list_elem_of_In, <-in_rev. Qed.

Lemma subtree_loop_stuck d log fuel stack count :
  log ∈ children_of d (episode_id log) → log ∈ stack →
  subtree_loop fuel d stack count = Err OutOfFuel.
Proof.
  intros Hcycle. revert stack count. induction fuel as [|fuel IH]; intros [|x stack] count Hin; simpl;
    try (by apply elem_of_nil in Hin); [done|].
  apply IH. rewrite elem_of_app, elem_of_rev.
  apply elem_of_cons in Hin as [->|Hin]; auto.
Qed.

(** The walks do not guard against a cycle: a log that names itself as
    its parent makes the [while] loop run past every bound on its iterations,
    and the recursion past every recursion limit. *)
Theorem subtree_cycle_diverges logs log :
  log ∈ logs → has_parent (episode_id log) log →
  (∀ fuel, subtree_count fuel (tree logs) log = Err OutOfFuel) ∧
  (∀ limit s, subtree_spend limit (tree logs) log ≠ Ok s).
Proof.
  intros Hin Hself.
  assert (log ∈ children_of (tree logs) (episode_id log)) as Hc
    by (rewrite children_of_tree; by apply list_elem_of_filter).
  split.
  - intros fuel. apply (subtree_loop_stuck _ log); [done|].
    by apply elem_of_rev.
  - induction limit as [|limit IH]; intros s; simpl; [done|].
    apply list_elem_of_split in Hc as (l1 & l2 & Hl). rewrite Hl.
    generalize (own_spend (events log)). clear Hl. induction l1 as [|x l1 IHl]; intros s0; simpl.
    + destruct (subtree_spend limit (tree logs) log) eqn:E; [by destruct (IH a)|done].
    + destruct (subtree_spend limit (tree logs) x); [apply IHl|done].
Qed.

(** ** The claims at concrete logs *)

Lemma example_budgets_pass : passes (check_budgets 10 10 example_logs).
Proof. passes_by_evaluation. Qed.

Lemma reservations_fit_witness :
  let es := take 9 example_events in
  (amount (own_spend es) model_calls + total_of (λ e, release_amount e model_calls) es
   + active_total (outstanding es) model_calls <= 20)%Z.
Proof.
  apply (reservations_fit 10 10 example_logs example_parent
           [("model_calls", VInt 20); ("max_concurrent", VInt 1); ("max_episodes", VInt 3)] 8
           (default [] (example_events !! 8)) model_calls 20);
    [exact example_budgets_pass|left|reflexivity|reflexivity|reflexivity|reflexivity].
Defined.

Lemma releases_measured_witness :
  released_right 10 (by_id example_logs) (tree example_logs) (take 11 example_events)
    (default [] (example_events !! 11)).
Proof.
  apply (releases_measured 10 10 example_logs example_parent 11);
    [exact example_budgets_pass|left|reflexivity|reflexivity].
Defined.

Lemma spawns_controlled_witness :
  "ep-2" ∈ unsettled (take 10 example_events) ∧ assoc (by_id example_logs) "ep-2" = Some example_child ∧
  has_parent "ep-1" example_child.
Proof.
  destruct (spawns_controlled 10 10 example_logs example_parent 10 (default [] (example_events !! 10)))
    as [_ H]; [exact example_budgets_pass|left|reflexivity|].
  destruct (H eq_refl) as (c & child & Hc & Hin & Hchild & Hp & _).
  vm_compute in Hc. injection Hc as <-. split; [exact Hin|]. split; [reflexivity|reflexivity].
Defined.

Lemma budgets_settled_witness :
  outstanding example_events = [] ∧ unsettled example_events = [] ∧
  ∃ n, subtree_count 10 (tree example_logs) example_parent = Ok n ∧ (Z.of_nat n <= 3)%Z.
Proof.
  destruct (budgets_settled 10 10 example_logs example_parent example_budgets_pass (list_elem_of_here _ _)
              (or_introl eq_refl)) as (Ho & Hu & _ & Hn).
  split; [exact Ho|]. split; [exact Hu|].
  apply (Hn [("model_calls", VInt 20); ("max_concurrent", VInt 1); ("max_episodes", VInt 3)]); reflexivity.
Defined.

Definition example_rank (id : string) : nat := if String.eqb id "ep-1" then 1 else 0.

Lemma example_ranked : ranked (tree example_logs) example_rank.
Proof.
  intros p child. rewrite children_of_tree. intros [Hp [->|[->|[]%elem_of_nil]%elem_of_cons]%elem_of_cons]%list_elem_of_filter.
  - discriminate Hp.
  - unfold has_parent in Hp. vm_compute in Hp. injection Hp as <-. vm_compute. lia.
Qed.

Lemma subtree_walks_end_witness :
  returns (children_by_parent example_logs) (tree example_logs) ∧
  ∃ l, descendants (tree example_logs) example_parent l ∧
    subtree_spend 2 (tree example_logs) example_parent = Ok (spend_total l) ∧
    (length l ≤ 3 → subtree_count 2 (tree example_logs) example_parent = Ok (length l)).
Proof.
  assert (Hd : returns (children_by_parent example_logs) (tree example_logs)).
  { assert (Hp : passes (children_by_parent example_logs)) by passes_by_evaluation.
    apply passes_returns in Hp as [d Hd]. pose proof (children_by_parent_tree _ _ Hd) as E. rewrite E in Hd. exact Hd. }
  split; [exact Hd|].
  destruct (subtree_walks_end example_logs example_rank example_parent (tree example_logs) Hd example_ranked)
    as (l & Hl & _ & Hs & Hc).
  exists l. split; [exact Hl|]. split; [apply Hs; vm_compute; lia|]. apply Hc.
Defined.
