(* ===== verification/TraceWorkflow.v ===== *)
(** * Workflow provenance

    [_check_workflow] of src/evals/trace_quality.py: the firings a log records
    are those of declared nodes, each settles once, and branches and recoveries
    are the declared ones. *)

From stdpp Require Import base list sets strings pretty.
From Stdlib Require Import ZArith Lia.
From S2P Require Import Prelude PyValue PyText TraceLog TraceExample TraceMessages TraceEvidence.

Definition Workflow := workflow_provenance.

(** A firing, [(node, fire)]. *)
Abbreviation firing := (string * Z)%type.

Record workflow_state : Type := {
  starts : list (firing * nat);
  ends : list firing;
  fires : list (string * Z);
}.
Definition no_firings : workflow_state := {| starts := []; ends := []; fires := [] |}.

(** The stored key a looked-up [(node, fire)] equals. *)
Definition names_firing (k : firing) (data : dict) : bool :=
  is_string k.1 (dget data "node") && item_eq (VInt k.2) (dget data "fire").

(** The lookup hashes both parts of the key first. *)
Definition find_firing (l : list firing) (data : dict) : res (option firing) :=
  if negb (hashable (dget data "node")) then Err (unhashable (dget data "node"))
  else if negb (hashable (dget data "fire")) then Err (unhashable (dget data "fire"))
  else Ok (find (λ k, names_firing k data) l).

Definition fire_key (data : dict) : option firing :=
  match dget data "node", as_int (dget data "fire") with
  | VStr n, Some z => Some (n, z)
  | _, _ => None
  end.

Definition declared_nodes (log : EpisodeLog) : dict :=
  dict_or_empty (dget_or (dict_or_empty (dget (contract log) "workflow")) "nodes" (VDict [])).

Section steps.
Variables (log : EpisodeLog) (nodes : dict).

Definition producers : list string := ["inbox/item"; "workflow/node-end"; "workflow/recovery"].

Definition input_step (index : nat) (valid : bool) (v : value) : res bool :=
  if valid then
    match as_int v with
    | Some seq =>
        if (seq <? Z.of_nat index)%Z
        then e ← py_index (events log) seq; Ok (elem_str (event_type e) producers)
        else Ok false
    | None => Ok false
    end
  else Ok false.

Definition inputs_valid (index : nat) (inputs : value) : res bool :=
  match inputs with VList l => foldM (input_step index) true l | _ => Ok false end.

(** [any(spawn/start of child_id)]. *)
Definition spawned (child_id : value) : bool :=
  existsb (λ e, py_eq (dget (event_data e) "child_id") child_id)
    (events_of "spawn/start" (events log)).

Definition node_start_step (st : workflow_state) (index : nat) (data : dict) : Ev workflow_state :=
  let target := match fire_key data with
    | Some (n, z) =>
        if has_key nodes n && negb (bool_decide ((n, z) ∈ (starts st).*1)) then Some (n, z) else None
    | None => None end in
  check Workflow (match target with Some _ => true | None => false end)
    "workflow/node-start does not name a declared, unique firing" log (idx index);;
  let st' := match target with
    | Some (n, z) =>
        {| starts := starts st ++ [((n, z), index)]; ends := ends st;
           fires := dset (fires st) n (Z.max (default 0%Z (assoc (fires st) n)) z) |}
    | None => st end in
  valid ← lift (inputs_valid index (dget_or data "inputs" (VList [])));
  check Workflow valid
    "workflow firing inputs do not name earlier producer events" log (idx index);;
  (if is_none (dget data "child_id") then mret ()
   else check Workflow (spawned (dget data "child_id"))
          "a model-node firing does not name a spawned child" log (idx index));;
  mret st'.

Definition started_before (st : workflow_state) (k : firing) (index : nat) : bool :=
  existsb (λ ki, bool_decide (ki.1 = k) && (ki.2 <? index)) (starts st).

Definition node_end_step (st : workflow_state) (index : nat) (data : dict) : Ev workflow_state :=
  found ← lift (find_firing (starts st).*1 data);
  check Workflow
    (match found with
     | Some k => started_before st k index && negb (bool_decide (k ∈ ends st))
     | None => false end)
    "workflow/node-end does not match one earlier firing" log (idx index);;
  mret match found with
    | Some k => {| starts := starts st;
                   ends := if bool_decide (k ∈ ends st) then ends st else ends st ++ [k];
                   fires := fires st |}
    | None => st end.

(** [branches.get(label)] of the node's declaration. *)
Definition declared_branch (data : dict) : res value :=
  let declaration := match dget data "node" with
    | VStr n => dget_or nodes n (VDict []) | _ => VDict [] end in
  match (match declaration with VDict d => dget_or d "branches" (VDict []) | _ => VDict [] end) with
  | VDict branches =>
      if hashable (dget data "label")
      then Ok match dget data "label" with VStr s => dget branches s | _ => VNone end
      else Err (unhashable (dget data "label"))
  | _ => Ok VNone
  end.

Definition branch_step (st : workflow_state) (index : nat) (data : dict) : Ev () :=
  expected ← lift (declared_branch data);
  found ← lift (find_firing (ends st) data);
  check Workflow
    (match found with
     | Some _ => is_list expected && py_eq (dget data "successors") expected
     | None => false end)
    "workflow/branch differs from the declared choice" log (idx index).

Definition RECOVERY_ACTIONS : list string := ["retry"; "amend"; "skip"; "abort"].

Definition recovery_step (index : nat) (data : dict) : Ev () :=
  known ← lift (in_set (dget data "action") RECOVERY_ACTIONS);
  check Workflow known "workflow/recovery action is outside the closed action set" log (idx index).

Definition workflow_step (st : workflow_state) (ie : nat * dict) : Ev workflow_state :=
  let '(index, event) := ie in
  let kind := event_type event in
  let data := event_data event in
  if String.eqb kind "workflow/node-start" then node_start_step st index data
  else if String.eqb kind "workflow/node-end" then node_end_step st index data
  else if String.eqb kind "workflow/branch" then branch_step st index data;; mret st
  else if String.eqb kind "workflow/recovery" then recovery_step index data;; mret st
  else mret st.

(** [declaration.get("max_fires", 1)]. *)
Definition max_fires (n : string) : value :=
  match dget_or nodes n (VDict []) with VDict d => dget_or d "max_fires" (VInt 1) | _ => VInt 1 end.

Definition cap_step (_ : ()) (nm : string * Z) : Ev () :=
  check Workflow (match as_int (max_fires nm.1) with Some cap => (nm.2 <=? cap)%Z | None => true end)
    ("workflow node " +:+ nm.1 +:+ " exceeds max_fires") log VNone.
End steps.

Definition has_workflow_events (log : EpisodeLog) : bool :=
  existsb (λ e, starts_with "workflow/" (event_type e)) (events log).

Definition check_workflow (log : EpisodeLog) : Ev () :=
  let workflow := dget (contract log) "workflow" in
  if negb (is_dict workflow) && negb (has_workflow_events log) then mret ()
  else
    note WorkflowEpisode;;
    check Workflow (is_dict workflow) "workflow events lack a declared graph" log (VInt 0);;
    let nodes := declared_nodes log in
    st ← foldM (workflow_step log nodes) no_firings (enumerate (events log));
    check Workflow (forallb (λ k, bool_decide (k ∈ ends st)) (starts st).*1)
      "workflow firings do not all settle" log VNone;;
    foldM (cap_step log nodes) () (fires st).

(** ** A lookup finds at most one stored firing *)

Lemma names_firing_inj k1 k2 data :
  names_firing k1 data = true → names_firing k2 data = true → k1 = k2.
Proof.
  unfold names_firing. rewrite !andb_true_iff, !is_string_spec.
  destruct k1 as [n1 z1], k2 as [n2 z2]; cbn [fst snd]. intros [H1 E1] [H2 E2]. f_equal; [congruence|].
  by eapply item_eq_VInt_inj.
Qed.

Lemma fire_key_names data k : fire_key data = Some k → names_firing k data = true.
Proof.
  unfold fire_key, names_firing. destruct (dget data "node"); try done.
  destruct (dget data "fire") as [|b|z| | | |]; simpl; intros; simplify_eq/=;
    rewrite String.eqb_refl; unfold num_eqb; simpl; by rewrite Z.compare_refl.
Qed.

Lemma find_firing_some l data k :
  find_firing l data = Ok (Some k) → k ∈ l ∧ names_firing k data = true.
Proof.
  unfold find_firing. do 2 (destruct (negb _); [done|]). intros [= Hf]. apply find_some in Hf as [? ?].
  by rewrite list_elem_of_In.
Qed.

(** ** The state of the loop is what the prefix says *)

(** The firings a prefix of the log starts, with the position of each. *)
Definition starts_firing (e : dict) : option firing :=
  if String.eqb (event_type e) "workflow/node-start" then fire_key (event_data e) else None.
Definition settles (e : dict) (k : firing) : Prop :=
  event_type e = "workflow/node-end" ∧ names_firing k (event_data e) = true.
Definition started (l : list (nat * dict)) : list (firing * nat) :=
  omap (λ ie, k ← starts_firing ie.2; Some (k, ie.1)) l.

Record workflow_inv (nodes : dict) (pre : list (nat * dict)) (st : workflow_state) : Prop := {
  wf_starts : starts st = started pre;
  wf_unique : NoDup (starts st).*1;
  wf_declared : ∀ i e, (i, e) ∈ pre → event_type e = "workflow/node-start" →
    ∃ k, fire_key (event_data e) = Some k ∧ k.1 ∈ keys nodes;
  wf_ends : ∀ k, k ∈ ends st → ∃ j e, (j, e) ∈ pre ∧ settles e k;
  wf_settles : ∀ j e, (j, e) ∈ pre → event_type e = "workflow/node-end" →
    ∃ k i, settles e k ∧ k ∈ ends st ∧ (k, i) ∈ starts st ∧ i < j;
  wf_once : ∀ i j e e' k, (i, e) ∈ pre → (j, e') ∈ pre → settles e k → settles e' k → i = j;
  wf_fires : ∀ k, k ∈ (starts st).*1 → ∃ m, assoc (fires st) k.1 = Some m ∧ (k.2 <= m)%Z;
}.

Lemma started_snoc pre i e :
  started (pre ++ [(i, e)]) =
    started pre ++ match starts_firing e with Some k => [(k, i)] | None => [] end.
Proof. unfold started. rewrite omap_app. simpl. by destruct (starts_firing e). Qed.

Lemma no_firings_inv nodes : workflow_inv nodes [] no_firings.
Proof.
  constructor; simpl; try done; try (intros; exfalso; by eapply elem_of_nil).
  apply NoDup_nil_2.
Qed.

(** An event that neither starts nor settles a firing changes nothing. *)
Lemma workflow_inv_other nodes pre st i e :
  event_type e ≠ "workflow/node-start" → event_type e ≠ "workflow/node-end" →
  workflow_inv nodes pre st → workflow_inv nodes (pre ++ [(i, e)]) st.
Proof.
  intros Hs He [Hst Hu Hd Hen Hse Ho Hf].
  assert (∀ k, ¬ settles e k) as Hn by (intros k [? _]; done).
  constructor; try done.
  - rewrite started_snoc, Hst. unfold starts_firing.
    apply String.eqb_neq in Hs. rewrite Hs. by rewrite app_nil_r.
  - intros i' e' [|[= -> ->]%list_elem_of_singleton]%elem_of_app; [by apply (Hd i')|done].
  - intros k (j & e' & ? & ?)%Hen. exists j, e'. rewrite elem_of_app. auto.
  - intros j e' [|[= -> ->]%list_elem_of_singleton]%elem_of_app; [by apply Hse|done].
  - intros i1 i2 e1 e2 k [H1|[= -> ->]%list_elem_of_singleton]%elem_of_app
      [H2|[= -> ->]%list_elem_of_singleton]%elem_of_app; intros Hx Hy;
        [by apply (Ho _ _ e1 e2 k)|by destruct (Hn _ Hy)|by destruct (Hn _ Hx)|done].
Qed.

Section workflow_lemmas.
Context (log : EpisodeLog) (nodes : dict).

Lemma node_start_inv pre st i e st' :
  event_type e = "workflow/node-start" →
  returns (node_start_step log nodes st i (event_data e)) st' →
  workflow_inv nodes pre st →
  workflow_inv nodes (pre ++ [(i, e)]) st' ∧
  inputs_valid log i (dget_or (event_data e) "inputs" (VList [])) = Ok true ∧
  (dget (event_data e) "child_id" ≠ VNone → spawned log (dget (event_data e) "child_id") = true).
Proof.
  intros Ht H [Hst Hu Hd Hen Hse Ho Hf]. unfold node_start_step in H.
  apply returns_bind in H as ([] & Hk%returns_check & H).
  destruct (fire_key (event_data e)) as [[n z]|] eqn:Ek; [|done].
  destruct (has_key nodes n) eqn:En; [|done]. apply has_key_elem in En.
  destruct (bool_decide ((n, z) ∈ (starts st).*1)) eqn:Ein; [done|]. cbn [andb negb] in H.
  apply bool_decide_eq_false in Ein. clear Hk.
  apply returns_bind in H as (v & Hv%returns_lift & H).
  apply returns_bind in H as ([] & ->%returns_check & H).
  apply returns_bind in H as ([] & Hc & ->%returns_ret). split_and!; [|done|].
  2:{ intros Hne. destruct (dget (event_data e) "child_id"); simpl in Hc; try done;
        by apply returns_check in Hc. }
  assert (∀ k, ¬ settles e k) as Hn by (intros k [He _]; by rewrite Ht in He).
  constructor; simpl.
  - rewrite started_snoc, Hst. unfold starts_firing. by rewrite Ht, Ek.
  - rewrite fmap_app. simpl. apply NoDup_app. split_and!; [done| |apply NoDup_singleton].
    intros k Hk ->%list_elem_of_singleton. done.
  - intros i' e' [|[= -> ->]%list_elem_of_singleton]%elem_of_app; [by apply (Hd i')|].
    intros _. exists (n, z). done.
  - intros k (j & e' & ? & ?)%Hen. exists j, e'. rewrite elem_of_app. auto.
  - intros j e' [Hin|[= -> ->]%list_elem_of_singleton]%elem_of_app Hty.
    + destruct (Hse j e' Hin Hty) as (k & i' & ? & ? & ? & ?). exists k, i'.
      rewrite elem_of_app. auto.
    + by rewrite Ht in Hty.
  - intros i1 i2 e1 e2 k [H1|[= -> ->]%list_elem_of_singleton]%elem_of_app
      [H2|[= -> ->]%list_elem_of_singleton]%elem_of_app; intros Hx Hy;
      [by apply (Ho _ _ e1 e2 k)|by destruct (Hn _ Hy)|by destruct (Hn _ Hx)|done].
  - intros k. rewrite fmap_app, elem_of_app. simpl. intros [Hk| ->%list_elem_of_singleton].
    + destruct (Hf k Hk) as (m & Hm & Hle). destruct (decide (n = k.1)) as [->|Hne].
      * rewrite assoc_dset_eq. eexists. split; [done|]. rewrite Hm. simpl. lia.
      * rewrite assoc_dset_ne by done. eauto.
    + simpl. rewrite assoc_dset_eq. eexists. split; [done|]. lia.
Qed.

Lemma node_end_inv pre st i e st' :
  event_type e = "workflow/node-end" →
  returns (node_end_step log st i (event_data e)) st' →
  workflow_inv nodes pre st → workflow_inv nodes (pre ++ [(i, e)]) st'.
Proof.
  intros Ht H [Hst Hu Hd Hen Hse Ho Hf]. unfold node_end_step in H.
  apply returns_bind in H as (found & Hfound%returns_lift & H).
  apply returns_bind in H as ([] & Hk%returns_check & ->%returns_ret).
  destruct found as [k|]; [|done]. apply find_firing_some in Hfound as [Hin Hnames].
  apply andb_true_iff in Hk as [Hb Hnew]. apply negb_true_iff in Hnew. rewrite Hnew.
  apply bool_decide_eq_false in Hnew.
  unfold started_before in Hb. apply existsb_exists in Hb as ([k' i0] & Hki%list_elem_of_In & Hb).
  simpl in Hb. apply andb_true_iff in Hb as [->%bool_decide_eq_true Hlt%Nat.ltb_lt].
  assert (settles e k) as Hset by done.
  assert (∀ k', settles e k' → k' = k) as Hinj by (intros k' [_ Hk']; by eapply names_firing_inj).
  constructor; simpl; try done.
  - rewrite started_snoc, Hst. unfold starts_firing. rewrite Ht. simpl. by rewrite app_nil_r.
  - intros i' e' [|[= -> ->]%list_elem_of_singleton]%elem_of_app; [by apply (Hd i')|].
    by rewrite Ht.
  - intros k' [(j & e' & ? & ?)%Hen| ->%list_elem_of_singleton]%elem_of_app.
    + exists j, e'. rewrite elem_of_app. auto.
    + exists i, e. rewrite elem_of_app, list_elem_of_singleton. auto.
  - intros j e' [Hj|[= -> ->]%list_elem_of_singleton]%elem_of_app Hty.
    + destruct (Hse j e' Hj Hty) as (k' & i' & ? & ? & ? & ?). exists k', i'.
      rewrite elem_of_app. auto.
    + exists k, i0. rewrite elem_of_app, list_elem_of_singleton. auto.
  - assert (∀ i1 e1 k1, (i1, e1) ∈ pre → settles e1 k1 → k1 ≠ k) as Hfresh.
    { intros i1 e1 k1 Hi1 Hs1 ->. destruct (Hse i1 e1 Hi1 (proj1 Hs1)) as (k2 & _ & Hs2 & Hk2 & _).
      assert (k2 = k) as -> by (eapply names_firing_inj; [apply Hs2|apply Hs1]). done. }
    intros i1 i2 e1 e2 k1 [H1|[= -> ->]%list_elem_of_singleton]%elem_of_app
      [H2|[= -> ->]%list_elem_of_singleton]%elem_of_app; intros Hs1 Hs2;
      [by apply (Ho _ _ e1 e2 k1)|destruct (Hfresh _ _ _ H1 Hs1); auto
      |destruct (Hfresh _ _ _ H2 Hs2); auto|done].
Qed.

Definition branch_declared (e : dict) : Prop :=
  ∃ expected, declared_branch nodes (event_data e) = Ok (VList expected) ∧
    py_eq (dget (event_data e) "successors") (VList expected) = true.

(** One step: the invariant, and what the step checked. *)
Lemma workflow_step_inv pre st i e st' :
  returns (workflow_step log nodes st (i, e)) st' → workflow_inv nodes pre st →
  workflow_inv nodes (pre ++ [(i, e)]) st' ∧
  (event_type e = "workflow/node-start" →
     inputs_valid log i (dget_or (event_data e) "inputs" (VList [])) = Ok true ∧
     (dget (event_data e) "child_id" ≠ VNone → spawned log (dget (event_data e) "child_id") = true)) ∧
  (event_type e = "workflow/branch" → branch_declared e ∧
     ∃ k, k ∈ ends st ∧ names_firing k (event_data e) = true) ∧
  (event_type e = "workflow/recovery" →
     ∃ a, dget (event_data e) "action" = VStr a ∧ a ∈ RECOVERY_ACTIONS).
Proof.
  intros H Hinv. unfold workflow_step in H.
  destruct (String.eqb_spec (event_type e) "workflow/node-start") as [Ht|H1].
  { destruct (node_start_inv pre st i e st' Ht H Hinv) as (? & ? & ?). rewrite Ht. done. }
  destruct (String.eqb_spec (event_type e) "workflow/node-end") as [Ht|H2].
  { pose proof (node_end_inv pre st i e st' Ht H Hinv). rewrite Ht. done. }
  destruct (String.eqb_spec (event_type e) "workflow/branch") as [Ht|H3].
  { apply returns_bind in H as ([] & Hb & ->%returns_ret).
    split; [by apply workflow_inv_other|]. rewrite Ht. split_and!; try done. intros _.
    unfold branch_step in Hb. apply returns_bind in Hb as (x & Hx%returns_lift & Hb).
    apply returns_bind in Hb as (k & Hk%returns_lift & Hb%returns_check).
    destruct k as [k|]; [|done]. apply find_firing_some in Hk as [? ?]. split; [|eauto].
    destruct x; try done. eexists. split; [done|]. by rewrite andb_true_iff in Hb; destruct Hb. }
  destruct (String.eqb_spec (event_type e) "workflow/recovery") as [Ht|H4].
  { apply returns_bind in H as ([] & Hb & ->%returns_ret).
    split; [by apply workflow_inv_other|]. rewrite Ht. split_and!; try done. intros _.
    unfold recovery_step in Hb. apply returns_bind in Hb as (known & Hx%returns_lift & ->%returns_check).
    by apply in_set_ok in Hx. }
  apply returns_ret in H as ->. split; [by apply workflow_inv_other|done].
Qed.
End workflow_lemmas.

(** The loop keeps the invariant over any prefix. *)
Lemma workflow_loop_inv log nodes l st :
  returns (foldM (workflow_step log nodes) no_firings (enumerate l)) st →
  workflow_inv nodes (enumerate l) st.
Proof.
  apply (returns_enumerate_ind (workflow_inv nodes)); [apply no_firings_inv|].
  intros i x s t Hi Hs Ht. by eapply workflow_step_inv.
Qed.

(** A log the workflow check does not skip, passing. *)
Lemma check_workflow_loop log :
  passes (check_workflow log) → has_workflow_events log = true →
  ∃ workflow st, dget (contract log) "workflow" = VDict workflow ∧
    returns (foldM (workflow_step log (declared_nodes log)) no_firings (enumerate (events log))) st ∧
    (∀ k, k ∈ (starts st).*1 → k ∈ ends st) ∧
    ∀ n m, (n, m) ∈ fires st → ∀ cap, as_int (max_fires (declared_nodes log) n) = Some cap → (m <= cap)%Z.
Proof.
  intros ([] & H)%passes_returns Hev. unfold check_workflow in H.
  rewrite Hev, andb_false_r in H. apply returns_bind in H as ([] & _ & H).
  apply returns_bind in H as ([] & Hd%returns_check & H).
  apply returns_bind in H as (st & Hst & H).
  apply returns_bind in H as ([] & Hall%returns_check & H).
  destruct (dget (contract log) "workflow") as [| | | | | |w]; try done.
  exists w, st. split_and!; [done|done| |].
  - intros k Hk%list_elem_of_In. rewrite forallb_forall in Hall.
    specialize (Hall k Hk). by apply bool_decide_eq_true in Hall.
  - intros n m Hnm cap Hcap. rewrite returns_foldM_unit in H. specialize (H (n, m) Hnm).
    unfold cap_step in H. cbn [fst snd] in H. rewrite Hcap in H. apply returns_check in H.
    by apply Z.leb_le in H.
Qed.

Lemma workflow_event log i e :
  events log !! i = Some e → starts_with "workflow/" (event_type e) = true →
  has_workflow_events log = true.
Proof.
  intros Hi He. apply existsb_exists. exists e. split; [|done].
  by eapply list_elem_of_In, list_elem_of_lookup_2.
Qed.

(** ** What the workflow checks guarantee *)

(** Firings settle: in a log whose workflow checks pass, every
    [workflow/node-start] names a declared node with an integer firing no other
    start has, within the node's [max_fires], and exactly one later
    [workflow/node-end] settles it. *)
Theorem firings_settle log i e :
  passes (check_workflow log) →
  events log !! i = Some e → event_type e = "workflow/node-start" →
  ∃ node fire, fire_key (event_data e) = Some (node, fire) ∧
    node ∈ keys (declared_nodes log) ∧
    (∀ cap, as_int (max_fires (declared_nodes log) node) = Some cap → (fire <= cap)%Z) ∧
    (∀ j e', events log !! j = Some e' → starts_firing e' = Some (node, fire) → j = i) ∧
    ∃ j e', i < j ∧ events log !! j = Some e' ∧ settles e' (node, fire) ∧
      ∀ j' e'', events log !! j' = Some e'' → settles e'' (node, fire) → j' = j.
Proof.
  intros Hpass Hi Ht.
  destruct (check_workflow_loop log Hpass) as (w & st & Hw & Hst & Hends & Hcaps).
  { eapply workflow_event; [done|]. by rewrite Ht. }
  apply workflow_loop_inv in Hst as [Hs Hu Hd Hen Hse Ho Hf].
  setoid_rewrite elem_of_enumerate in Hd. setoid_rewrite elem_of_enumerate in Hen.
  setoid_rewrite elem_of_enumerate in Hse. setoid_rewrite elem_of_enumerate in Ho.
  destruct (Hd i e Hi Ht) as ([n z] & Hk & Hn).
  assert (∀ j e', events log !! j = Some e' → starts_firing e' = Some (n, z) → ((n, z), j) ∈ starts st)
    as Hstart.
  { intros j e' Hj Hj'. rewrite Hs. unfold started. apply list_elem_of_omap.
    exists (j, e'). split; [by apply elem_of_enumerate|]. simpl. by rewrite Hj'. }
  assert (starts_firing e = Some (n, z)) as He by (unfold starts_firing; by rewrite Ht).
  assert (∀ a b, ((n, z), a) ∈ starts st → ((n, z), b) ∈ starts st → a = b) as Hinj.
  { intros a b Ha Hb. apply list_elem_of_lookup in Ha as [p Ha], Hb as [q Hb].
    assert (p = q) as ->; [|congruence].
    apply (NoDup_lookup (starts st).*1 p q (n, z)); [done| |]; rewrite list_lookup_fmap.
    - by rewrite Ha.
    - by rewrite Hb. }
  pose proof (Hstart i e Hi He) as Hin.
  assert ((n, z) ∈ (starts st).*1) as Hkey by (apply list_elem_of_fmap; by exists ((n, z), i)).
  exists n, z. split_and!; [done|done| |intros j e' Hj Hj'; by apply Hinj; eauto|].
  - intros cap Hcap. destruct (Hf _ Hkey) as (m & Hm & Hle). simpl in *.
    apply assoc_elem in Hm. specialize (Hcaps _ _ Hm cap Hcap). lia.
  - destruct (Hen _ (Hends _ Hkey)) as (j & e' & Hj & Hset).
    destruct (Hse j e' Hj (proj1 Hset)) as (k' & i' & Hset' & _ & Hki & Hlt).
    assert (k' = (n, z)) as -> by (eapply names_firing_inj; [apply Hset'|apply Hset]).
    exists j, e'. rewrite (Hinj i i' Hin Hki). split_and!; try done.
    intros j' e'' Hj' Hset''. by apply (Ho _ _ e'' e' (n, z)).
Qed.

(** A value the position [i] of the log may consume: an earlier producer. *)
Definition earlier_producer (log : EpisodeLog) (i : nat) (v : value) : Prop :=
  ∃ seq e, as_int v = Some seq ∧ (seq < Z.of_nat i)%Z ∧ py_index (events log) seq = Ok e ∧
    event_type e ∈ producers.

Lemma input_step_true log i b v :
  input_step log i b v = Ok true → b = true ∧ earlier_producer log i v.
Proof.
  unfold input_step. destruct b; [|done]. destruct (as_int v) as [seq|] eqn:Ev; [|done].
  destruct (Z.ltb_spec seq (Z.of_nat i)); [|done].
  intros (e & He & Hp)%res_bind_ok. split; [done|]. exists seq, e. split_and!; try done.
  apply elem_str_spec. congruence.
Qed.

Lemma inputs_valid_all log i l b :
  foldM (input_step log i) b l = Ok true → b = true ∧ ∀ v, v ∈ l → earlier_producer log i v.
Proof.
  revert b. induction l as [|v l IH]; intros b H; simpl in H.
  - injection H as ->. split; [done|]. by intros v ?%elem_of_nil.
  - apply res_bind_ok in H as (b' & Hb & [-> Hl]%IH). apply input_step_true in Hb as [-> Hv].
    split; [done|]. intros u [->|Hu]%elem_of_cons; auto.
Qed.

(** Provenance: in a log whose workflow checks pass, the inputs of a
    firing are earlier producer events and the child it names was spawned; a
    branch follows the end of its firing and takes exactly the successors
    declared for its label; a recovery is one of the four closed actions. *)
Theorem workflow_choices_declared log i e :
  passes (check_workflow log) → events log !! i = Some e →
  (event_type e = "workflow/node-start" →
     (∃ l, dget_or (event_data e) "inputs" (VList []) = VList l ∧
        ∀ v, v ∈ l → earlier_producer log i v) ∧
     (dget (event_data e) "child_id" ≠ VNone → ∃ s, s ∈ events log ∧
        event_type s = "spawn/start" ∧
        py_eq (dget (event_data s) "child_id") (dget (event_data e) "child_id") = true)) ∧
  (event_type e = "workflow/branch" → branch_declared (declared_nodes log) e ∧
     ∃ k j e', names_firing k (event_data e) = true ∧ j < i ∧ events log !! j = Some e' ∧ settles e' k) ∧
  (event_type e = "workflow/recovery" →
     ∃ a, dget (event_data e) "action" = VStr a ∧ a ∈ RECOVERY_ACTIONS).
Proof.
  intros Hpass Hi.
  assert (starts_with "workflow/" (event_type e) = true → ∃ s t,
    workflow_inv (declared_nodes log) (enumerate (take i (events log))) s ∧
    returns (workflow_step log (declared_nodes log) s (i, e)) t) as Hgo.
  { intros He. destruct (check_workflow_loop log Hpass) as (w & st & _ & Hst & _).
    { by eapply workflow_event. }
    destruct (returns_enumerate_at _ _ _ _ _ _ Hst Hi) as (s & t & Hs & Ht).
    apply workflow_loop_inv in Hs. eauto. }
  split_and!; intros Ht; (destruct Hgo as (s & t & Hinv & Hstep); [by rewrite Ht|]);
    destruct (workflow_step_inv _ _ _ _ _ _ _ Hstep Hinv) as (_ & Hstart & Hbranch & Hrec).
  - destruct (Hstart Ht) as [Hin Hchild]. split.
    + unfold inputs_valid in Hin. destruct (dget_or _ _ _) as [| | | | |l|]; try done.
      exists l. split; [done|]. by eapply inputs_valid_all.
    + intros Hne. specialize (Hchild Hne). apply existsb_exists in Hchild as (s' & Hs' & Heq).
      apply list_elem_of_In, list_elem_of_filter in Hs' as [Hty%String.eqb_eq Hs']. eauto.
  - destruct (Hbranch Ht) as (Hb & k & Hk & Hn). split; [done|].
    destruct (wf_ends _ _ _ Hinv k Hk) as (j & e' & Hj%elem_of_enumerate & Hset).
    apply lookup_take_Some in Hj as [Hj Hlt]. by exists k, j, e'.
  - by apply Hrec.
Qed.

(** ** The claims at a concrete log *)

Lemma firings_settle_witness :
  passes (check_workflow example_parent) ∧
  ∃ j e', 7 < j ∧ example_events !! j = Some e' ∧ settles e' ("plan", 1%Z).
Proof.
  assert (H : passes (check_workflow example_parent)) by passes_by_evaluation. split; [exact H|].
  destruct (firings_settle example_parent 7 (default [] (example_events !! 7)) H)
    as (node & fire & Hk & _ & _ & _ & j & e' & Hj & He & Hs & _); [reflexivity|reflexivity|].
  vm_compute in Hk. injection Hk as <- <-. eauto.
Defined.

Lemma workflow_choices_declared_witness :
  passes (check_workflow example_parent) ∧
  branch_declared (declared_nodes example_parent) (default [] (example_events !! 13)).
Proof.
  assert (H : passes (check_workflow example_parent)) by passes_by_evaluation. split; [exact H|].
  destruct (workflow_choices_declared example_parent 13 (default [] (example_events !! 13)) H)
    as (_ & Hb & _); [reflexivity|].
  by apply Hb.
Defined.
