(* ===== verification/TraceCompaction.v ===== *)
(** * Compaction continuity

    [_done_when_line], [_compacted_files] and [_check_compaction] of
    src/evals/trace_quality.py: each successful compaction takes up where the
    one before stopped, and the state it carries over is what the log says. *)

From stdpp Require Import base list sets strings pretty sorting.
From Stdlib Require Import ZArith Lia SpecFloat.
From S2P Require Import Prelude PyValue PyText TraceLog TraceExample TraceMessages TraceEvidence.

Definition Compaction := compaction_continuity.

Definition done_when_line (contract : dict) : string :=
  let done_when := dict_or_empty (dget contract "done_when") in
  let finish := if is_dict (dget done_when "returns")
    then "a call to `return` with a value conforming to its schema"
    else "a turn with no tool calls" in
  match dget done_when "verify" with
  | VStr verify => finish +:+ ", then `" +:+ verify +:+ "` reports no findings"
  | _ => finish
  end.

(** ** The files a span touched *)

(** [{call_id of the results in error}]. *)
Definition failed_calls (l : list dict) : res (list value) :=
  foldM (λ s e, let id := dget (event_data e) "call_id" in
                if hashable id then Ok (if existsb (item_eq id) s then s else s ++ [id])
                else Err (unhashable id))
    [] (filter (λ e, match dget (event_data e) "is_error" with VBool b => b | _ => false end = true)
          (events_of "tool/result" l)).

Definition file_target (name : value) : res (option string) :=
  if negb (hashable name) then Err (unhashable name)
  else Ok match name with
          | VStr s => assoc [("read", "read"); ("write", "written"); ("edit", "edited")] s
          | _ => None end.

(** The list one call adds its path to. *)
Definition call_use (failed : list value) (call : value) : res (option (string * string)) :=
  match call with
  | VDict call =>
      if negb (hashable (dget call "id")) then Err (unhashable (dget call "id"))
      else if existsb (item_eq (dget call "id")) failed then Ok None
      else
        target ← file_target (dget call "name");
        Ok match target, dget (dict_or_empty (dget_or call "args" (VDict []))) "path" with
           | Some t, VStr p => Some (t, p)
           | _, _ => None
           end
  | _ => Ok None
  end.

(** [isinstance(seq, int)] and neither [seq < first] nor [seq > last]. *)
Definition in_span (first last : value) (e : dict) : res bool :=
  match as_int (dget e "seq") with
  | Some _ =>
      below ← py_lt (dget e "seq") first;
      if (below : bool) then Ok false
      else above ← py_gt (dget e "seq") last; Ok (negb above)
  | None => Ok false
  end.

Definition event_uses (failed : list value) (first last : value) (e : dict)
    : res (list (string * string)) :=
  inside ← in_span first last e;
  if (inside : bool) && String.eqb (event_type e) "assistant/message" then
    match dget_or (event_data e) "tool_calls" (VList []) with
    | VList calls => uses ← mapM (call_use failed) calls; Ok (omap id uses)
    | _ => Ok []
    end
  else Ok [].

Definition span_uses (l : list dict) (covered : dict) : res (list (string * string)) :=
  failed ← failed_calls l;
  uses ← mapM (event_uses failed (dget_or covered "first_seq" (VInt 0))
                 (dget_or covered "last_seq" (VInt (-1)))) l;
  Ok (concat uses).

Definition FILE_LISTS : list string := ["read"; "written"; "edited"].

(** [values[name]] before sorting: what was carried, then what the span adds. *)
Definition file_values (carried : dict) (uses : list (string * string)) (name : string) : list value :=
  list_or_empty (dget carried name)
  ++ map (λ tp, VStr tp.2) (filter (λ tp, tp.1 = name) uses).

Definition compacted_files (log : EpisodeLog) (covered carried : dict) : res dict :=
  uses ← span_uses (events log) covered;
  mapM (λ name, l ← sorted_unique (file_values carried uses name); Ok (name, VList l)) FILE_LISTS.

(** ** One compaction *)

Definition starts_of (l : list dict) : list nat :=
  omap (λ ie, if String.eqb (event_type ie.2) "compaction/start" then Some ie.1 else None) (enumerate l).

(** [log.events[start_index:next_start]] for the start at [position]. *)
Definition span_of (l : list dict) (starts : list nat) (position start_index : nat) : list dict :=
  let next := default (length l) (starts !! S position) in
  take (next - start_index) (drop start_index l).

Definition event_at (l : list dict) (i : nat) : dict := default [] (l !! i).

(** The request [summary_request_seq] names, or [{}]. *)
Definition summary_request (log : EpisodeLog) (v : value) : res dict :=
  match as_int v with
  | Some z => if (z <? Z.of_nat (length (events log)))%Z then py_index (events log) z else Ok []
  | None => Ok []
  end.

Section compaction.
Variable log : EpisodeLog.

(** The checks of one successful compaction, given the summary before it. *)
Definition check_state (previous : option dict) (start_index : nat) (summary_event : dict) : Ev dict :=
  let summary := event_data summary_event in
  let seq := dget summary_event "seq" in
  let state := dict_or_empty (dget_or summary "state" (VDict [])) in
  let covered := dict_or_empty
    (dget_or (event_data (event_at (events log) start_index)) "covered" (VDict [])) in
  let expected_first := match previous with
    | Some p => dget_or p "first_kept_seq" (VInt 1) | None => VInt 1 end in
  check Compaction (py_eq (dget covered "first_seq") expected_first)
    "a compaction re-reads or skips the prior covered boundary" log (idx start_index);;
  check Compaction (py_eq (dget state "covered") (VDict covered))
    "typed continuation state has a different covered span" log seq;;
  check Compaction (py_eq (dget state "task") (dget (start log) "task"))
    "typed continuation state does not preserve the task verbatim" log seq;;
  check Compaction (is_string (done_when_line (contract log)) (dget state "done_when"))
    "typed continuation state does not preserve the completion condition" log seq;;
  next ← lift (py_succ (dget_or covered "last_seq" (VInt (-2))));
  check Compaction (py_eq (dget summary "first_kept_seq") next)
    "first_kept_seq is not the first event after the covered span" log seq;;
  mret covered.

(** The recorded request and the one answer the summary is taken from. *)
Definition check_request (span : list dict) (start_index : nat) (summary_event : dict) : Ev () :=
  let summary := event_data summary_event in
  let seq := dget summary_event "seq" in
  let request_seq := dget summary "summary_request_seq" in
  request ← lift (summary_request log request_seq);
  let request_id := dget (event_data request) "request_id" in
  named ← lift
    (if String.eqb (event_type request) "model/request"
        && match request_id with VStr r => starts_with "cmp_" r | _ => false end
     then andM (py_lt (idx start_index) request_seq)
               (py_lt request_seq (dget_or summary_event "seq" (VInt (-1))))
     else Ok false);
  check Compaction named
    "summary_request_seq does not name the recorded summarization request" log seq;;
  let answers := filter (λ e, py_eq (dget (event_data e) "request_id") request_id = true)
                   (events_of "assistant/message" span) in
  check Compaction
    (match answers with
     | [a] => py_eq (dget (event_data a) "text") (dget summary "summary") | _ => false end)
    "compaction summary differs from its recorded assistant response" log seq.

Definition carried_files (previous : option dict) : dict :=
  match previous with
  | Some p => match dget_or p "state" (VDict []) with
              | VDict s => dict_or_empty (dget_or s "files" (VDict [])) | _ => [] end
  | None => []
  end.

Definition check_files (previous : option dict) (covered : dict) (summary_event : dict) : Ev () :=
  let state := dict_or_empty (dget_or (event_data summary_event) "state" (VDict [])) in
  expected ← lift (compacted_files log covered (carried_files previous));
  check Compaction (py_eq (dget state "files") (VDict expected))
    "typed continuation file lists differ from successful tool calls" log
    (dget summary_event "seq").

Definition compaction_step (starts : list nat) (previous : option dict) (ps : nat * nat)
    : Ev (option dict) :=
  let '(position, start_index) := ps in
  let span := span_of (events log) starts position start_index in
  let summaries := events_of "compaction/summary" span in
  let ends := events_of "compaction/end" span in
  check Compaction (length ends =? 1) "compaction/start has no unique end" log (idx start_index);;
  match ends with
  | [end_event] =>
      let ok := match dget (event_data end_event) "ok" with VBool b => b | _ => false end in
      check Compaction (length summaries =? (if ok then 1 else 0))
        "compaction summary presence differs from compaction/end.ok" log (idx start_index);;
      match ok, summaries with
      | true, [summary_event] =>
          note SuccessfulCompaction;;
          covered ← check_state previous start_index summary_event;
          check_request span start_index summary_event;;
          check_files previous covered summary_event;;
          mret (Some (event_data summary_event))
      | _, _ => mret previous
      end
  | _ => mret previous
  end.

Definition compact_enabled : bool :=
  match dget_or (contract log) "context" (VDict []) with
  | VDict c => match dget c "compact" with VBool b => b | _ => false end
  | _ => false
  end.

Definition check_compaction : Ev () :=
  if existsb (λ e, starts_with "compaction/" (event_type e)) (events log) then
    check Compaction compact_enabled
      "compaction events appear while context.compact is disabled" log (VInt 0);;
    let starts := starts_of (events log) in
    foldM (compaction_step starts) None (enumerate starts);;
    mret ()
  else mret ().
End compaction.

(** ** Specification: the successful compactions of a log *)

(** The summary event of a start whose span has one end, in [ok], and one
    summary. *)
Definition success_at (l : list dict) (starts : list nat) (ps : nat * nat) : option (nat * dict) :=
  let span := span_of l starts ps.1 ps.2 in
  match events_of "compaction/end" span, events_of "compaction/summary" span with
  | [e], [s] => match dget (event_data e) "ok" with VBool true => Some (ps.2, s) | _ => None end
  | _, _ => None
  end.
Definition successes (l : list dict) : list (nat * dict) :=
  omap (success_at l (starts_of l)) (enumerate (starts_of l)).

(** The span a compaction starting at [i] covers. *)
Definition covered_at (l : list dict) (i : nat) : dict :=
  dict_or_empty (dget_or (event_data (event_at l i)) "covered" (VDict [])).
Definition covered_span (l : list dict) (i : nat) : option (Z * Z) :=
  a ← as_int (dget (covered_at l i) "first_seq");
  b ← as_int (dget (covered_at l i) "last_seq"); Some (a, b).

(** Each span takes up at the event after the last one of the span before, the
    first of them at [first]. *)
Inductive chained : Z → list (Z * Z) → Prop :=
| chained_nil first : chained first []
| chained_cons first last spans : chained (last + 1) spans → chained first ((first, last) :: spans).

(** A span that does not end before the event preceding its first; the checks do
    not ask for it (see [inverted_spans_accepted]). *)
Definition forward (s : Z * Z) : Prop := (s.1 <= s.2 + 1)%Z.
Definition in_pair (k : Z) (s : Z * Z) : Prop := (s.1 <= k <= s.2)%Z.

(** The last event of the last span; the one before [first] if there is none. *)
Definition chain_end (first : Z) (spans : list (Z * Z)) : Z :=
  match last spans with Some s => s.2 | None => (first - 1)%Z end.

(** The spans partition the events [first] to [final]: no event is left out and
    none is covered twice. *)
Definition tiles (first final : Z) (spans : list (Z * Z)) : Prop :=
  (∀ k, (first <= k <= final)%Z ↔ ∃ s, s ∈ spans ∧ in_pair k s) ∧
  (∀ k i j s t, spans !! i = Some s → spans !! j = Some t → in_pair k s → in_pair k t → i = j).

(** ** Lemmas *)

(** ** Integer links between compactions *)

(** [n] is where the next compaction starts. *)
Definition next_first (previous : option dict) (n : Z) : Prop :=
  match previous with
  | None => n = 1%Z
  | Some p => py_eq (dget p "first_kept_seq") (VInt n) = true
  end.

Definition success_spans (l : list dict) (s : list (nat * dict)) : list (Z * Z) :=
  omap (λ x, covered_span l x.1) s.

Lemma py_succ_int v z : as_int v = Some z → py_succ v = Ok (VInt (z + 1)).
Proof. destruct v as [|[]| | | | |]; simpl; intros; by simplify_eq. Qed.

Lemma check_state_next log previous i s covered a b n :
  returns (check_state log previous i s) covered →
  covered_span (events log) i = Some (a, b) → next_first previous n →
  a = n ∧ next_first (Some (event_data s)) (b + 1) ∧ covered = covered_at (events log) i.
Proof.
  intros H Hspan Hn. unfold check_state in H. fold (covered_at (events log) i) in H.
  apply returns_bind in H as ([] & Hfirst%returns_check & H).
  apply returns_bind in H as ([] & _ & H). apply returns_bind in H as ([] & _ & H).
  apply returns_bind in H as ([] & _ & H).
  apply returns_bind in H as (next & Hnext%returns_lift & H).
  apply returns_bind in H as ([] & Hkept%returns_check & ->%returns_ret).
  unfold covered_span in Hspan.
  destruct (as_int (dget (covered_at (events log) i) "first_seq")) as [a'|] eqn:Ea; [|done].
  destruct (as_int (dget (covered_at (events log) i) "last_seq")) as [b'|] eqn:Eb; [|done].
  simplify_eq/=.
  assert (dget_or (covered_at (events log) i) "last_seq" (VInt (-2))
          = dget (covered_at (events log) i) "last_seq") as Hl.
  { unfold dget_or, dget in *. by destruct (assoc _ "last_seq"). }
  rewrite Hl, (py_succ_int _ b) in Hnext by done. injection Hnext as <-. split_and!; [|done|done].
  destruct previous as [p|]; simpl in Hn.
  - assert (dget_or p "first_kept_seq" (VInt 1) = dget p "first_kept_seq") as Hp.
    { unfold dget_or, dget in *. by destruct (assoc p "first_kept_seq"). }
    rewrite Hp in Hfirst. by eapply py_eq_int_link.
  - subst n. apply py_eq_as_int with (z := a) in Hfirst; [|done].
    simpl in Hfirst. rewrite orb_false_r in Hfirst. unfold num_eqb in Hfirst. simpl in Hfirst.
    by rewrite Z_eqb_compare_bool, Z.eqb_eq in Hfirst.
Qed.

(** A step either keeps the previous summary or is a success that passed. *)
Lemma compaction_step_success log starts previous ps next :
  returns (compaction_step log starts previous ps) next →
  match success_at (events log) starts ps with
  | None => next = previous
  | Some (i, s) => i = ps.2 ∧ next = Some (event_data s) ∧
      ∃ covered, returns (check_state log previous i s) covered ∧
        returns (check_request log (span_of (events log) starts ps.1 ps.2) i s) () ∧
        returns (check_files log previous covered s) ()
  end.
Proof.
  destruct ps as [p i]. unfold compaction_step, success_at. cbn [fst snd]. intros H.
  apply returns_bind in H as ([] & Hends%returns_check & H).
  destruct (events_of "compaction/end" _) as [|e [|]]; try done.
  apply returns_bind in H as ([] & Hsum%returns_check & H).
  destruct (dget (event_data e) "ok") as [|[]| | | | |];
    try (destruct (events_of "compaction/summary" _) as [|? [|]]; by apply returns_ret in H).
  destruct (events_of "compaction/summary" _) as [|s [|]]; try done.
  apply returns_bind in H as ([] & _ & H).
  apply returns_bind in H as (covered & Hc & H).
  apply returns_bind in H as ([] & Hr & H).
  apply returns_bind in H as ([] & Hf & ->%returns_ret). split_and!; [done|done|]. eauto.
Qed.

Lemma check_compaction_loop log :
  passes (check_compaction log) →
  (∃ e, e ∈ events log ∧ event_type e = "compaction/start") →
  compact_enabled log = true ∧ ∃ r,
    returns (foldM (compaction_step log (starts_of (events log))) None
      (enumerate (starts_of (events log)))) r.
Proof.
  intros ([] & H)%passes_returns (e & He & Ht). unfold check_compaction in H.
  assert (existsb (λ e, starts_with "compaction/" (event_type e)) (events log) = true) as Hx.
  { apply existsb_exists. exists e. split; [by apply list_elem_of_In|]. by rewrite Ht. }
  rewrite Hx in H. apply returns_bind in H as ([] & Hc%returns_check & H).
  apply returns_bind in H as (r & Hr & _). eauto.
Qed.

Lemma compactions_chained_from log starts ps previous n r :
  returns (foldM (compaction_step log starts) previous ps) r → next_first previous n →
  (∀ i s, (i, s) ∈ omap (success_at (events log) starts) ps → is_Some (covered_span (events log) i)) →
  chained n (success_spans (events log) (omap (success_at (events log) starts) ps)).
Proof.
  revert previous n. induction ps as [|p ps IH]; intros previous n H Hn Hints; csimpl; [constructor|].
  apply returns_foldM_cons in H as (next & Hp & H). apply compaction_step_success in Hp.
  csimpl in Hints. destruct (success_at (events log) starts p) as [[i s]|].
  - destruct Hp as (-> & -> & covered & Hst & _ & _).
    destruct (Hints p.2 s) as [[a b] Hab]; [set_solver|].
    destruct (check_state_next _ _ _ _ _ _ _ _ Hst Hab Hn) as (-> & Hnext & _).
    unfold success_spans. csimpl. rewrite Hab. constructor. apply (IH _ _ H Hnext). set_solver.
  - subst next. by apply (IH previous).
Qed.

Lemma compactions_chained log :
  passes (check_compaction log) →
  (∀ i s, (i, s) ∈ successes (events log) → is_Some (covered_span (events log) i)) →
  chained 1 (success_spans (events log) (successes (events log))).
Proof.
  intros H Hints.
  destruct (starts_of (events log)) as [|i starts] eqn:Es.
  { unfold successes. rewrite Es. constructor. }
  destruct (check_compaction_loop log H) as (_ & r & Hr).
  { assert (i ∈ starts_of (events log)) as Hi by (rewrite Es; set_solver).
    unfold starts_of in Hi. apply list_elem_of_omap in Hi as ([j e] & Hin & He).
    simpl in He. destruct (String.eqb_spec (event_type e) "compaction/start"); [|done].
    exists e. split; [|done]. by eapply list_elem_of_lookup_2, elem_of_enumerate. }
  by eapply compactions_chained_from.
Qed.

(** ** A chain of forward spans is a partition *)

Lemma chain_end_cons first s spans : chain_end first (s :: spans) = chain_end (s.2 + 1) spans.
Proof.
  unfold chain_end. rewrite last_cons. destruct (last spans) as [t|]; [done|]. simpl. lia.
Qed.

Lemma chained_bounds first spans :
  chained first spans → Forall forward spans →
  (first - 1 <= chain_end first spans)%Z ∧
  ∀ s, s ∈ spans → (first <= s.1)%Z ∧ (s.2 <= chain_end first spans)%Z.
Proof.
  induction 1 as [first|first final spans Hc IH]; intros Hf.
  { split; [unfold chain_end; simpl; lia|set_solver]. }
  apply Forall_cons in Hf as [Hs Hf]. destruct (IH Hf) as [Hlo Hin].
  rewrite chain_end_cons. unfold forward in Hs. simpl in *. split; [lia|].
  intros s [->|Hs']%elem_of_cons; simpl; [lia|]. specialize (Hin _ Hs'). lia.
Qed.

Lemma chained_covers first spans k :
  chained first spans → Forall forward spans →
  (first <= k <= chain_end first spans)%Z ↔ ∃ s, s ∈ spans ∧ in_pair k s.
Proof.
  intros Hc Hf. split.
  - revert Hf. induction Hc as [first|first final spans Hc IH]; intros Hf Hk.
    { unfold chain_end in Hk. simpl in Hk. lia. }
    apply Forall_cons in Hf as [_ Hf]. rewrite chain_end_cons in Hk. simpl in Hk.
    destruct (decide (k <= final)%Z).
    + exists (first, final). unfold in_pair. simpl. split; [left|lia].
    + destruct (IH Hf) as (s & Hs & Hk'); [lia|]. exists s. split; [by right|done].
  - intros (s & Hs & Hk). destruct (chained_bounds _ _ Hc Hf) as [_ Hb].
    specialize (Hb _ Hs). unfold in_pair in Hk. lia.
Qed.

Lemma chained_once first spans k i j s t :
  chained first spans → Forall forward spans →
  spans !! i = Some s → spans !! j = Some t → in_pair k s → in_pair k t → i = j.
Proof.
  intros Hc. revert i j. induction Hc as [first|first final spans Hc IH]; intros i j Hf; [done|].
  apply Forall_cons in Hf as [_ Hf]. destruct (chained_bounds _ _ Hc Hf) as [_ Hb].
  assert (∀ n u, spans !! n = Some u → in_pair k u → ¬ in_pair k (first, final)) as Hno.
  { intros n u Hn%list_elem_of_lookup_2 Hu Hx. specialize (Hb _ Hn). unfold in_pair in *. simpl in *. lia. }
  destruct i as [|i], j as [|j]; simpl; intros Hi Hj Hs Ht; simplify_eq.
  - done.
  - by destruct (Hno _ _ Hj Ht).
  - by destruct (Hno _ _ Hi Hs).
  - f_equal. by apply (IH i j Hf Hi Hj).
Qed.

Lemma chained_tiles first spans :
  chained first spans → Forall forward spans → tiles first (chain_end first spans) spans.
Proof.
  intros Hc Hf. split; [intros k; by apply chained_covers|].
  intros k i j s t. by apply (chained_once first).
Qed.

(** Claim C6. Compactions tile the log.  In a log whose compaction checks pass, and
    in which each successful compaction records the two ends of its covered span
    as integers, the first covered span starts at event 1 and each later one at
    the event after the one before it ended.  If moreover no recorded span is
    inverted (ends before the event preceding its first), then each event from 1
    to the last one covered lies in exactly one span and no other event in any.
    The checks themselves do not refuse an inverted span:
    [inverted_spans_accepted]. *)
Theorem compactions_tile log :
  passes (check_compaction log) →
  (∀ i s, (i, s) ∈ successes (events log) → is_Some (covered_span (events log) i)) →
  let spans := success_spans (events log) (successes (events log)) in
  chained 1 spans ∧ (Forall forward spans → tiles 1 (chain_end 1 spans) spans).
Proof.
  intros H Hints spans. assert (chained 1 spans) as Hc by by apply compactions_chained.
  split; [done|]. by apply chained_tiles.
Qed.

(** A compaction preserves what the episode is about: the state of
    each successful one carries the covered span, the task and the completion
    condition verbatim, and its summary is the text the one recorded answer to
    its own [cmp_] request gave. *)
Theorem compactions_faithful log i s :
  passes (check_compaction log) → (i, s) ∈ successes (events log) →
  let state := dict_or_empty (dget_or (event_data s) "state" (VDict [])) in
  compact_enabled log = true ∧
  py_eq (dget state "covered") (VDict (covered_at (events log) i)) = true ∧
  py_eq (dget state "task") (dget (start log) "task") = true ∧
  dget state "done_when" = VStr (done_when_line (contract log)) ∧
  ∃ request r answer,
    summary_request log (dget (event_data s) "summary_request_seq") = Ok request ∧
    event_type request = "model/request" ∧
    dget (event_data request) "request_id" = VStr r ∧ is_compaction_id r = true ∧
    answer ∈ events_of "assistant/message" (events log) ∧
    py_eq (dget (event_data answer) "request_id") (VStr r) = true ∧
    py_eq (dget (event_data answer) "text") (dget (event_data s) "summary") = true.
Proof.
  intros H Hin state. unfold successes in Hin.
  apply list_elem_of_omap in Hin as ([p j] & Hp & Hs).
  destruct (check_compaction_loop log H) as (Hc & r & Hr).
  { apply elem_of_enumerate, list_elem_of_lookup_2 in Hp.
    unfold starts_of in Hp. apply list_elem_of_omap in Hp as ([k e] & Hin & He).
    simpl in He. destruct (String.eqb_spec (event_type e) "compaction/start"); [|done].
    exists e. split; [|done]. by eapply list_elem_of_lookup_2, elem_of_enumerate. }
  apply list_elem_of_split in Hp as (l1 & l2 & Hl). rewrite Hl in Hr.
  apply returns_foldM_split in Hr as (prev & _ & Hr). apply returns_foldM_cons in Hr as (next & Hstep & _).
  apply compaction_step_success in Hstep. rewrite Hs in Hstep. cbn [fst snd] in Hstep.
  destruct Hstep as (-> & _ & covered & Hst & Hreq & _).
  unfold check_state in Hst. fold state (covered_at (events log) j) in Hst.
  apply returns_bind in Hst as ([] & _ & Hst).
  apply returns_bind in Hst as ([] & Hcov%returns_check & Hst).
  apply returns_bind in Hst as ([] & Htask%returns_check & Hst).
  apply returns_bind in Hst as ([] & Hdone%returns_check%is_string_spec & _).
  split_and!; try done. unfold check_request in Hreq.
  apply returns_bind in Hreq as (request & Hq%returns_lift & Hreq).
  apply returns_bind in Hreq as (named & Hn%returns_lift & Hreq).
  apply returns_bind in Hreq as ([] & ->%returns_check & Hans%returns_check).
  destruct (String.eqb_spec (event_type request) "model/request") as [Ht|]; [|done].
  destruct (dget (event_data request) "request_id") as [| | | |rid| |] eqn:Er; try done.
  destruct (starts_with "cmp_" rid) eqn:Ecmp; [|done].
  destruct (filter _ _) as [|a [|]] eqn:Ef; try done.
  assert (a ∈ [a]) as Ha by set_solver. rewrite <-Ef in Ha.
  apply list_elem_of_filter in Ha as [Hid Ha].
  exists request, rid, a. split_and!; try done. unfold events_of in *.
  apply list_elem_of_filter in Ha as [Hty Ha]. apply list_elem_of_filter. split; [done|].
  unfold span_of in Ha. apply elem_of_take in Ha as (q & Hq' & _).
  rewrite lookup_drop in Hq'. by eapply list_elem_of_lookup_2.
Qed.

(** ** The claims at a concrete log *)

Lemma compactions_tile_witness :
  passes (check_compaction example_parent) ∧
  success_spans example_events (successes example_events) = [(1, 6)%Z] ∧
  tiles 1 6 [(1, 6)%Z].
Proof.
  assert (H : passes (check_compaction example_parent)) by passes_by_evaluation.
  split; [exact H|]. split; [reflexivity|].
  assert (Hsp : success_spans example_events (successes example_events) = [(1, 6)%Z]) by reflexivity.
  destruct (compactions_tile example_parent H) as [_ Ht].
  - intros i s Hin.
    assert (Hs : successes example_events = [(19, default [] (example_events !! 22))]) by reflexivity.
    change (events example_parent) with example_events in Hin. rewrite Hs in Hin.
    apply list_elem_of_singleton in Hin. injection Hin as -> ->. vm_compute. eauto.
  - change (events example_parent) with example_events in Ht. rewrite Hsp in Ht. apply Ht.
    constructor; [unfold forward; simpl; lia|constructor].
Defined.

(** The events of a compaction that starts at position [at_] and covers [first]
    to [final]. *)
Definition compaction_events (id : string) (at_ first final : Z) : list (string * dict) :=
  let covered := [("first_seq", VInt first); ("last_seq", VInt final)] in
  [("compaction/start", [("covered", VDict covered)]);
   request_event id [] [];
   answer_event id "Notes." [];
   ("compaction/summary", [("summary", VStr "Notes."); ("summary_request_seq", VInt (at_ + 1));
     ("first_kept_seq", VInt (final + 1));
     ("state", VDict [("covered", VDict covered); ("task", VStr example_task);
       ("done_when", VStr "a call to `return` with a value conforming to its schema");
       ("files", VDict [("read", VList []); ("written", VList []); ("edited", VList [])])])]);
   ("compaction/end", [("ok", VBool true)])].
Definition inverted_log : EpisodeLog := {|
  path := "/logs/ep-3.jsonl";
  events := numbered
    ([("episode/start", [("id", VStr "ep-3"); ("task", VStr example_task);
                         ("contract", VDict example_contract); ("sandbox", VDict example_sandbox)])]
     ++ compaction_events "cmp_1" 1 1 6 ++ compaction_events "cmp_2" 6 7 2
     ++ compaction_events "cmp_3" 11 3 9);
  parse_error := None |}.

(** The compaction checks never compare the two ends of a span: a log whose
    second compaction covers the inverted span 7 to 2, and whose third then
    covers events 3 to 6 again, passes them. *)
Example inverted_spans_accepted :
  passes (check_compaction inverted_log) ∧
  success_spans (events inverted_log) (successes (events inverted_log))
    = [(1, 6); (7, 2); (3, 9)]%Z.
Proof. split; [passes_by_evaluation|reflexivity]. Qed.

Lemma compactions_faithful_witness :
  passes (check_compaction example_parent) ∧ compact_enabled example_parent = true ∧
  ∃ request, summary_request example_parent (VInt 20) = Ok request ∧ event_type request = "model/request".
Proof.
  assert (H : passes (check_compaction example_parent)) by passes_by_evaluation. split; [exact H|].
  destruct (compactions_faithful example_parent 19 (default [] (example_events !! 22)) H)
    as (Hc & _ & _ & _ & request & r & a & Hr & Ht & _).
  - assert (Hs : successes example_events = [(19, default [] (example_events !! 22))]) by reflexivity.
    change (events example_parent) with example_events. rewrite Hs. left.
  - split; [exact Hc|]. exists request. split; [exact Hr|exact Ht].
Defined.
