(* ===== verification/TraceEvaluate.v ===== *)
(** * Reading and evaluating a set of logs

    [_read_log], [_discover] and [evaluate] of src/evals/trace_quality.py: from
    the paths of a command line to the report.  What a path names and holds
    belongs to the operating system and is a parameter. *)

From Stdlib Require Import Ascii.
From stdpp Require Import base list sets strings pretty sorting.
From Stdlib Require Import ZArith Lia.
From S2P Require Import Prelude PyValue PyText PyJson PyPath TraceLog TraceExample TraceMessages TraceEvidence.
From S2P Require Import TracePermissions TraceOutcome TraceBudgets TraceWorkflow TraceCompaction.

(** ** Lines *)

Definition cr : ascii := byte 13.

(** [raw.splitlines()] on bytes: a line ends at a line feed, a carriage return
    or both; the text after the last end is a line unless it is empty. *)
Fixpoint split_lines (line : string) (s : string) : list string :=
  match s with
  | EmptyString => if String.eqb line "" then [] else [str_rev line]
  | String c r =>
      if Ascii.eqb c newline then str_rev line :: split_lines "" r
      else if Ascii.eqb c cr then
        match r with
        | String d r' => if Ascii.eqb d newline then str_rev line :: split_lines "" r'
                         else str_rev line :: split_lines "" r
        | EmptyString => [str_rev line]
        end
      else split_lines (String c line) r
  end.
Definition splitlines (s : string) : list string := split_lines "" s.

(** ** One log *)

Definition line_error (number : nat) (msg : string) : string :=
  "line " +:+ nat_str number +:+ ": " +:+ msg.

(** The loop over the lines.  [UnicodeDecodeError] is a [ValueError] that is not
    a [JSONDecodeError]: it leaves the function. *)
Fixpoint read_lines (p : string) (number : nat) (events : list dict) (lines : list string)
    : res EpisodeLog :=
  match lines with
  | [] => Ok {| path := p; events := events; parse_error := None |}
  | line :: lines =>
      if blank line then read_lines p (S number) events lines
      else
        match loads_bytes accept_constant line with
        | inr (NotJson msg _) =>
            Ok {| path := p; events := events; parse_error := Some (line_error number msg) |}
        | inr (Undecodable text) => Err (ValueError text)
        | inl (VDict event) => read_lines p (S number) (events ++ [event]) lines
        | inl _ => Ok {| path := p; events := events;
                         parse_error := Some (line_error number "the event is not an object") |}
        end
  end.

(** [raw] is what [read_bytes] returned, or the text of its [OSError]. *)
Definition read_log (p : string) (raw : string + string) : res EpisodeLog :=
  match raw with
  | inr error => Ok {| path := p; events := []; parse_error := Some error |}
  | inl raw =>
      if negb (String.eqb raw "") && negb (ends_with nl raw)
      then Ok {| path := p; events := []; parse_error := Some "the final JSON line has no line feed" |}
      else read_lines p 1 [] (splitlines raw)
  end.

(** ** Discovery *)

Inductive path_kind : Type := File | Dir | Other.


Section discovery.
Variable realpath : string → string.
Variable kind : string → path_kind.
Variable rglob : string → list string.
Variable read_bytes : string → string + string.

Definition discovered (supplied : string) : list string :=
  let p := realpath supplied in
  match kind p with
  | File => [p]
  | Dir =>
      let direct := path_join p "episode.jsonl" in
      (match kind direct with File => [direct] | _ => [] end) ++ rglob p
  | Other => [p]
  end.

Definition discover (paths : list string) : res (list EpisodeLog) :=
  mapM (λ p, read_log p (read_bytes p))
    (merge_sort path_le (remove_dups (flat_map discovered paths))).
End discovery.

(** ** Evaluation *)

Section evaluation.
Variable realpath : string → string.
Variable fs : string → file_entry.
Variables (limit fuel : nat).

Definition evaluate_log (_ : ()) (log : EpisodeLog) : Ev () :=
  check_evidence fs log;;
  match events log with
  | [] => mret ()
  | _ =>
      check_permissions realpath log;;
      check_outcome log;;
      check_workflow log;;
      check_compaction log
  end.

Definition missing : EpisodeLog := {| path := "<input>"; events := []; parse_error := None |}.

(** The checks of [evaluate], in order. *)
Definition evaluate_checks (logs : list EpisodeLog) : Ev () :=
  match logs with
  | [] => check Evidence false "no episode.jsonl files were found" missing VNone
  | _ => foldM evaluate_log () logs;; check_budgets limit fuel logs
  end.

Definition evaluate (logs : list EpisodeLog) : res dict :=
  match evaluate_checks logs with
  | Ok (_, w) => Ok (report (apply_effects (new_evaluation (length logs)) w))
  | Err e => Err e
  end.
End evaluation.

(** ** Lemmas: the accumulator *)

Definition in_dimension (d : dimension) (f : effect) : bool :=
  match f with Checked c => bool_decide (ck_dimension c = d) | Observed _ => false end.
Definition checks_of (d : dimension) (w : list effect) : list effect :=
  filter (λ f, in_dimension d f = true) w.
Definition failed_checks (w : list effect) : list check_call :=
  omap (λ f, match f with Checked c => if ck_condition c then None else Some c | _ => None end) w.

Lemma apply_effects_violations e w :
  violations (apply_effects e w) = violations e ++ map violation_of (failed_checks w).
Proof.
  unfold apply_effects. revert e. induction w as [|f w IH]; intros e; simpl; [by rewrite app_nil_r|].
  rewrite IH. destruct f as [c|o]; csimpl; [|done]. destruct (ck_condition c); [done|].
  simpl. by rewrite <-app_assoc.
Qed.

Lemma apply_effects_checks e w d :
  checks (stats (apply_effects e w) d) = checks (stats e d) + length (checks_of d w).
Proof.
  unfold apply_effects, checks_of. revert e. induction w as [|f w IH]; intros e; [simpl; lia|].
  simpl. rewrite IH. rewrite (filter_cons (λ f, in_dimension d f = true)).
  destruct f as [c|o]; simpl; [|done].
  destruct (decide (d = ck_dimension c)) as [->|Hne].
  - rewrite bool_decide_eq_true_2 by done. simpl. lia.
  - rewrite bool_decide_eq_false_2 by done. simpl. lia.
Qed.

Lemma apply_effects_passed e w d :
  passed (stats (apply_effects e w) d)
  = passed (stats e d) + length (filter (λ f, holds f = true) (checks_of d w)).
Proof.
  unfold apply_effects, checks_of. revert e. induction w as [|f w IH]; intros e; [simpl; lia|].
  simpl. rewrite IH. rewrite (filter_cons (λ f, in_dimension d f = true)).
  destruct f as [c|o]; simpl; [|done].
  destruct (decide (d = ck_dimension c)) as [->|Hne].
  - rewrite bool_decide_eq_true_2 by done. simpl.
    rewrite (filter_cons (λ f, holds f = true)). simpl. destruct (ck_condition c); simpl; lia.
  - rewrite bool_decide_eq_false_2 by done. simpl. lia.
Qed.

Lemma failed_checks_nil w : failed_checks w = [] ↔ all_hold w = true.
Proof.
  induction w as [|f w IH]; csimpl; [done|]. destruct f as [c|o]; simpl; [|done].
  by destruct (ck_condition c).
Qed.

Lemma filter_all {A} (P : A → Prop) `{!∀ x, Decision (P x)} l :
  length (filter P l) = length l ↔ ∀ x, x ∈ l → P x.
Proof.
  induction l as [|x l IH]; simpl.
  - split; [by intros _ ? ?%elem_of_nil|done].
  - rewrite filter_cons. destruct (decide (P x)); simpl.
    + destruct IH as [IH1 IH2]. split.
      * intros Hl y Hy. apply elem_of_cons in Hy as [->|Hy]; [done|]. apply IH1; [lia|done].
      * intros Hl. f_equal. apply IH2. intros y Hy. apply Hl. set_solver.
    + pose proof (length_filter P l). split; [lia|]. intros Hl. destruct n. apply Hl. set_solver.
Qed.

(** ** What the report says *)

(** The report is an exact account of the checks made: it is valid
    precisely when every check held, it lists one violation per failed check in
    the order they failed, and a dimension's [conformant] is null when nothing
    in it was checked and otherwise whether all its checks held. *)
Theorem report_exact n w :
  let e := apply_effects (new_evaluation n) w in
  (dget (report e) "valid" = VBool true ↔ all_hold w = true) ∧
  dget (report e) "violations" = VList (map (λ c, VDict (violation_of c)) (failed_checks w)) ∧
  ∀ d, ∃ m, metric_value (stats e d) = VDict m ∧
    (dget m "conformant" = VNone ↔ checks_of d w = []) ∧
    (dget m "conformant" = VBool true ↔ checks_of d w ≠ [] ∧ ∀ f, f ∈ checks_of d w → holds f = true).
Proof.
  intros e. split_and!.
  - rewrite <-failed_checks_nil. unfold report, dget. simpl.
    unfold e. rewrite apply_effects_violations. simpl.
    destruct (failed_checks w); simpl; split; congruence.
  - unfold report, dget. simpl. unfold e. rewrite apply_effects_violations. simpl. by rewrite map_map.
  - intros d. eexists. split; [reflexivity|]. unfold dget. simpl.
    unfold e. rewrite apply_effects_checks, apply_effects_passed. simpl.
    pose proof (filter_all (λ f, holds f = true) (checks_of d w)) as Hall.
    destruct (checks_of d w) as [|f l] eqn:El; cbn [length].
    + split; [done|]. split; [done|]. by intros [? _].
    + cbn [length] in Hall. split; [done|]. rewrite <-Hall. split.
      * intros [= H%Nat.eqb_eq]. done.
      * intros [_ ->]. by rewrite Nat.eqb_refl.
Qed.

Lemma passes_ret {A} (a : A) : passes (mret a : Ev A).
Proof. apply passes_returns. exists a. by apply returns_ret. Qed.

(** Claim C1. A valid report is a proof: [evaluate] reports [valid] precisely
    when there was a log and, in every log, the evidence, permission, outcome,
    workflow and compaction checks pass, and the budget checks pass across the
    set.  (An empty log fails its evidence check.) *)
Theorem valid_report_means_all_pass realpath fs limit fuel logs r :
  evaluate realpath fs limit fuel logs = Ok r →
  dget r "valid" = VBool true ↔
  logs ≠ [] ∧
  (∀ log, log ∈ logs →
     passes (check_evidence fs log) ∧ passes (check_permissions realpath log) ∧
     passes (check_outcome log) ∧ passes (check_workflow log) ∧ passes (check_compaction log)) ∧
  passes (check_budgets limit fuel logs).
Proof.
  intros H. unfold evaluate in H.
  destruct (evaluate_checks realpath fs limit fuel logs) as [[[] w]|] eqn:E; [|done].
  injection H as <-.
  assert (dget (report (apply_effects (new_evaluation (length logs)) w)) "valid" = VBool true
    ↔ all_hold w = true) as ->.
  { rewrite <-failed_checks_nil. unfold report, dget. simpl.
    rewrite apply_effects_violations. simpl. destruct (failed_checks w); simpl; split; congruence. }
  assert (all_hold w = true ↔ returns (evaluate_checks realpath fs limit fuel logs) ()) as ->.
  { unfold returns. rewrite E. split; [eauto|]. by intros (w' & [= <-] & ?). }
  clear E w. destruct logs as [|log0 logs0] eqn:El.
  { simpl. rewrite returns_check. naive_solver. }
  rewrite <-El. assert (logs ≠ []) as Hne by (by rewrite El). clear log0 logs0 El.
  assert (evaluate_checks realpath fs limit fuel logs =
    (foldM (evaluate_log realpath fs) () logs;; check_budgets limit fuel logs)) as -> by (by destruct logs).
  assert (∀ m : Ev (), passes m ↔ returns m ()) as Hp
    by (intros m; rewrite passes_returns; split; [by intros [[] ?]|eauto]).
  rewrite returns_bind. setoid_rewrite Hp. split.
  - intros ([] & Hl & Hb). split_and!; [done| |done]. intros log Hin.
    rewrite returns_foldM_unit in Hl. specialize (Hl log Hin). unfold evaluate_log in Hl.
    apply returns_bind in Hl as ([] & He & Hl). split; [done|].
    apply check_evidence_parts in He as (_ & Hev & _).
    destruct (events log); [done|].
    apply returns_bind in Hl as ([] & H1 & Hl). apply returns_bind in Hl as ([] & H2 & Hl).
    apply returns_bind in Hl as ([] & H3 & H4). done.
  - intros (_ & Hl & Hb). exists (). split; [|done]. rewrite returns_foldM_unit. intros log Hin.
    destruct (Hl log Hin) as (H0 & H1 & H2 & H3 & H4). unfold evaluate_log.
    apply returns_bind. exists (). split; [done|].
    destruct (events log); [by apply returns_ret|].
    repeat (apply returns_bind; exists (); split; [done|]). done.
Qed.

(** ** Reading back what was written *)

(** A line a log may hold: a JSON object without line ends. *)
Definition log_line (line : string) (event : dict) : Prop :=
  has_char newline line = false ∧ has_char cr line = false ∧ blank line = false ∧
  loads_bytes accept_constant line = inl (VDict event).

Lemma split_lines_line line acc rest :
  has_char newline line = false → has_char cr line = false →
  split_lines acc (line +:+ nl +:+ rest) = (str_rev acc +:+ line) :: splitlines rest.
Proof.
  revert acc. induction line as [|c line IH]; intros acc; cbn [has_char].
  - intros _ _. by rewrite str_app_nil_r.
  - intros [Hc1 Hl1]%orb_false_iff [Hc2 Hl2]%orb_false_iff.
    rewrite str_app_cons. cbn [split_lines].
    rewrite (Ascii.eqb_sym c), Hc1, (Ascii.eqb_sym c), Hc2, IH by done.
    unfold str_rev at 1. cbn [str_rev_append]. by rewrite str_rev_append_app, str_app_assoc.
Qed.

Definition written (lines : list string) : string :=
  foldr (λ line rest, line +:+ nl +:+ rest) "" lines.

Lemma splitlines_written lines :
  Forall (λ l, has_char newline l = false ∧ has_char cr l = false) lines →
  splitlines (written lines) = lines.
Proof.
  induction 1 as [|line lines [H1 H2] _ IH]; [done|]. simpl written.
  unfold splitlines at 1. rewrite split_lines_line by done. by rewrite IH.
Qed.

Lemma read_lines_events p n pre lines evs :
  Forall2 log_line lines evs →
  read_lines p n pre lines = Ok {| path := p; events := pre ++ evs; parse_error := None |}.
Proof.
  intros Hl. revert n pre. induction Hl as [|line e lines evs (_ & _ & Hb & Hj) _ IH]; intros n pre; simpl.
  - by rewrite app_nil_r.
  - rewrite Hb, Hj, IH. by rewrite <-app_assoc.
Qed.

Lemma str_rev_append_assoc s t acc :
  str_rev_append (s +:+ t) acc = str_rev_append t (str_rev_append s acc).
Proof. revert acc. induction s as [|c s IH]; intros acc; simpl; [done|]. apply IH. Qed.

Lemma written_ends lines : lines ≠ [] → ends_with nl (written lines) = true.
Proof.
  intros Hne. unfold ends_with. change (str_rev nl) with nl.
  assert (∀ acc, ∃ r, str_rev_append (written lines) acc = nl +:+ r) as Hr.
  { destruct (exists_last Hne) as (l & x & ->). clear Hne. unfold written. rewrite foldr_app.
    induction l as [|y l IH]; intros acc; cbn [foldr]; rewrite !str_rev_append_assoc;
      [by eexists|apply IH]. }
  destruct (Hr "") as (r & Hw). unfold str_rev. rewrite Hw. by destruct r.
Qed.

(** Reading gives back what was written: a file of line-feed
    terminated lines, each one JSON object without line ends, reads as the log
    of exactly those objects, in order and without a parse error. *)
Theorem read_log_written p lines evs :
  Forall2 log_line lines evs →
  read_log p (inl (written lines)) = Ok {| path := p; events := evs; parse_error := None |}.
Proof.
  intros Hl. unfold read_log. destruct (decide (lines = [])) as [->|Hne].
  { inversion Hl; subst. done. }
  rewrite written_ends by done. rewrite andb_false_r, splitlines_written.
  - by rewrite (read_lines_events p 1 [] lines evs).
  - apply Forall_forall. intros line Hin. apply list_elem_of_lookup in Hin as [i Hi].
    destruct (Forall2_lookup_l _ _ _ _ _ Hl Hi) as (e & _ & ? & ? & _). done.
Qed.

(** ** The claims at concrete logs *)

Lemma valid_report_means_all_pass_witness :
  ∃ r, evaluate linkless_realpath (λ _, Absent) 10 10 example_logs = Ok r ∧ dget r "valid" = VBool true ∧
    ∀ log, log ∈ example_logs → passes (check_evidence (λ _, Absent) log).
Proof.
  destruct (evaluate linkless_realpath (λ _, Absent) 10 10 example_logs) as [r|e] eqn:E.
  2:{ vm_compute in E. discriminate E. }
  assert (Hv : dget r "valid" = VBool true).
  { vm_compute in E. injection E as <-. reflexivity. }
  exists r. split; [reflexivity|]. split; [exact Hv|]. intros log Hlog.
  apply (valid_report_means_all_pass _ _ _ _ _ _ E) in Hv as (_ & Hall & _). by apply (Hall log).
Defined.

Lemma read_log_written_witness :
  read_log "/logs/a.jsonl" (inl ("{}" +:+ nl +:+ "{ }" +:+ nl))
  = Ok {| path := "/logs/a.jsonl"; events := [[]; []]; parse_error := None |}.
Proof.
  apply (read_log_written "/logs/a.jsonl" ["{}"; "{ }"] [[]; []]).
  repeat constructor.
Defined.
