(* ===== verification/Schema.v ===== *)
(** * Schemas from annotations

    src/python/foe/_schema.py: [schema_for], [_object_schema], [params_schema]
    and [to_jsonable].  An annotation is the finite tree the module walks; a
    class that refers to itself has no such tree (the module recurses without
    end on it) and is outside the model. *)

From Stdlib Require Import Ascii.
From stdpp Require Import base list sets strings pretty.
From Stdlib Require Import ZArith Lia.
From S2P Require Import Prelude PyValue PyText TraceOutcome.

(** ** First lines *)

(** The line ends of [str.splitlines] among ASCII characters. *)
Definition is_line_end (c : ascii) : bool :=
  let n := nat_of_ascii c in ((10 <=? n) && (n <=? 13)) || ((28 <=? n) && (n <=? 30)).
Fixpoint up_to_line_end (s : string) : string :=
  match s with
  | EmptyString => ""
  | String c s => if is_line_end c then "" else String c (up_to_line_end s)
  end.
(** [s.splitlines()[0]]. *)
Definition first_line (s : string) : res string :=
  match s with
  | EmptyString => Err (IndexError "list index out of range")
  | s => Ok (up_to_line_end s)
  end.
(** [s or None]. *)
Definition or_none (s : string) : option string := if String.eqb s "" then None else Some s.

(** ** Annotations *)

Record class_info : Type := { class_name : string; class_doc : option string }.

Inductive annotation : Type :=
| AAny | AStr | ABool | AInt | AFloat | ANone
| ABareList | ABareDict
| AUnion (members : list annotation)
| ALiteral (args : list value)
| AListOf (args : list annotation)
| ADictOf (args : list annotation)
| AAnnotated (arg : annotation)
| ATypedDict (cls : class_info) (hints : list (string * annotation)) (required : list string)
| ADataclass (cls : class_info) (fields : list (string * annotation)) (required : list string)
| AOther (repr : string).

Definition is_str_annotation (a : annotation) : bool := match a with AStr => true | _ => false end.

Definition own_docstring (cls : class_info) : res (option string) :=
  match class_doc cls with
  | None => Ok None
  | Some doc =>
      if String.eqb doc "" then Ok None
      else
        line ← first_line (strip doc);
        let first := strip line in
        Ok (if starts_with (class_name cls +:+ "(") first then None else or_none first)
  end.

(** ** Derivation *)

Definition typed (t : string) : value := VDict [("type", VStr t)].

(** The rest of [_object_schema], once the description and the schemas of the
    hints are known. *)
Definition object_schema (description : option string) (properties : list (string * value))
    (required : list string) : value :=
  let ordered_required := filter (λ n, elem_str n required = true) (keys properties) in
  VDict
    ([("type", VStr "object")]
     ++ match description with Some d => [("description", VStr d)] | None => [] end
     ++ [("properties", VDict properties)]
     ++ match ordered_required with [] => [] | l => [("required", VList (map VStr l))] end
     ++ [("additionalProperties", VBool false)]).

Section schema.
(** [repr(annotation)]. *)
Variable annotation_repr : annotation → string.

Fixpoint schema_for (a : annotation) : res value :=
  match a with
  | AAny => Ok (VDict [])
  | AStr => Ok (typed "string")
  | ABool => Ok (typed "boolean")
  | AInt => Ok (typed "integer")
  | AFloat => Ok (typed "number")
  | ANone => Ok (typed "null")
  | ABareList => Ok (typed "array")
  | ABareDict => Ok (typed "object")
  | AUnion args =>
      members ← map_res schema_for args;
      Ok (VDict [("anyOf", VList members)])
  | ALiteral args => Ok (VDict [("enum", VList args)])
  | AListOf args =>
      match args with
      | [] => Err (IndexError "tuple index out of range")
      | arg :: _ => s ← schema_for arg; Ok (VDict [("type", VStr "array"); ("items", s)])
      end
  | ADictOf args =>
      match args with
      | [] => Ok (typed "object")
      | key :: rest =>
          raise_if (negb (is_str_annotation key))
            (TypeError ("unsupported annotation " +:+ annotation_repr a +:+ ": dict keys must be str"));;
          match rest with
          | [] => Err (IndexError "tuple index out of range")
          | arg :: _ =>
              s ← schema_for arg;
              Ok (VDict [("type", VStr "object"); ("additionalProperties", s)])
          end
      end
  | AAnnotated arg => schema_for arg
  | ATypedDict cls hints required | ADataclass cls hints required =>
      description ← own_docstring cls;
      properties ← map_res (λ h, s ← schema_for h.2; Ok (h.1, s)) hints;
      Ok (object_schema description properties required)
  | AOther repr => Err (TypeError ("unsupported annotation " +:+ repr))
  end.

(** ** Function parameters *)

Inductive param_kind : Type := Plain | VarPositional | VarKeyword.
Record param : Type := { param_name : string; kind : param_kind; has_default : bool }.
Record function : Type := {
  fn_name : string;
  fn_hints : list (string * annotation);
  fn_params : list param;
}.

Definition param_step (fn : function) (skip : list string)
    (st : list (string * value) * list string) (p : param)
    : res (list (string * value) * list string) :=
  let '(properties, required) := st in
  if elem_str (param_name p) skip then Ok st
  else
    raise_if (match kind p with Plain => false | _ => true end)
      (TypeError (fn_name fn +:+ ": parameter *" +:+ param_name p +:+ " is not supported on a tool"));;
    match assoc (fn_hints fn) (param_name p) with
    | None => Err (TypeError (fn_name fn +:+ ": parameter " +:+ str_repr (param_name p)
                                +:+ " has no annotation"))
    | Some hint =>
        s ← schema_for hint;
        Ok (dset properties (param_name p) s,
            if has_default p then required else required ++ [param_name p])
    end.

Definition params_schema (fn : function) (skip : list string) : res dict :=
  '(properties, required) ← foldM (param_step fn skip) ([], []) (fn_params fn);
  Ok ([("type", VStr "object"); ("properties", VDict properties)]
      ++ match required with [] => [] | l => [("required", VList (map VStr l))] end
      ++ [("additionalProperties", VBool false)]).
End schema.

(** ** Return values *)

Inductive seq_kind : Type := KList | KTuple | KSet | KFrozenset.

(** A Python object as [to_jsonable] tells them apart; a set or a dict comes in
    its iteration order. *)
Inductive pyobj : Type :=
| PDataclass (fields : list (string * pyobj))
| PPath (p : string)
| PSeq (k : seq_kind) (l : list pyobj)
| PDict (d : list (value * pyobj))
| POther (v : value).

Fixpoint to_jsonable (x : pyobj) : pyobj :=
  match x with
  | PDataclass fields =>
      PDict (map (λ kv, (VStr kv.1, kv.2))
        (fold_left (λ acc kv, dset acc kv.1 kv.2) (map (λ f, (f.1, to_jsonable f.2)) fields) []))
  | PPath p => POther (VStr p)
  | PSeq _ l => PSeq KList (map to_jsonable l)
  | PDict d =>
      PDict (map (λ kv, (VStr kv.1, kv.2))
        (fold_left (λ acc kv, dset acc kv.1 kv.2) (map (λ kv, (py_str kv.1, to_jsonable kv.2)) d) []))
  | POther v => POther v
  end.

(** ** Specification: the values of an annotated type *)

Fixpoint well_formed (a : annotation) : bool :=
  match a with
  | AUnion l | AListOf l | ADictOf l => forallb well_formed l
  | AAnnotated a => well_formed a
  | ATypedDict _ hints required | ADataclass _ hints required =>
      bool_decide (NoDup (keys hints)) && forallb (λ n, elem_str n (keys hints)) required
      && forallb (λ h, well_formed h.2) hints
  | _ => true
  end.

(** The JSON values of an annotated type. *)
Fixpoint inhabits (a : annotation) (v : value) : bool :=
  match a with
  | AAny => true
  | AStr => is_str v
  | ABool => is_bool v
  | AInt => match v with VInt _ => true | _ => false end
  | AFloat => match v with VInt _ | VFloat _ => true | _ => false end
  | ANone => is_none v
  | ABareList => is_list v
  | ABareDict => is_dict v
  | AUnion members => existsb (λ m, inhabits m v) members
  | ALiteral args => existsb (item_eq v) args
  | AListOf args =>
      match args with
      | [] => false
      | arg :: _ => match v with VList l => forallb (inhabits arg) l | _ => false end
      end
  | ADictOf args =>
      match args with
      | [] => is_dict v
      | _ :: arg :: _ => match v with VDict d => forallb (λ kv, inhabits arg kv.2) d | _ => false end
      | _ => false
      end
  | AAnnotated arg => inhabits arg v
  | ATypedDict _ hints required | ADataclass _ hints required =>
      match v with
      | VDict d =>
          forallb (λ kv, elem_str kv.1 (keys hints)) d && forallb (has_key d) required
          && forallb (λ h, match assoc d h.1 with Some x => inhabits h.2 x | None => true end) hints
      | _ => false
      end
  | AOther _ => false
  end.

(** JSON Schema validation, for the keywords the module writes. *)
Definition type_allows (t : value) (v : value) : bool :=
  match t with VStr t => elem_str t (json_types v) | _ => true end.

Fixpoint validate (schema v : value) : bool :=
  match schema with
  | VBool b => b
  | VDict s =>
      with_key "type" (λ t, type_allows t v) true s &&
      with_key "enum" (λ e, match e with VList l => existsb (item_eq v) l | _ => true end) true s &&
      with_key "anyOf" (λ m, match m with
        | VList ms => existsb (λ c, validate c v) ms | _ => true end) true s &&
      match v with
      | VList l => with_key "items" (λ c, forallb (validate c) l) true s
      | VDict d =>
          with_key "required" (λ r, match r with
            | VList l => forallb (λ k, match k with VStr k => has_key d k | _ => true end) l
            | _ => true end) true s &&
          with_key "properties" (λ ps, match ps with
            | VDict props => forallb (λ kc, match assoc d kc.1 with
                | Some x => validate kc.2 x | None => true end) props
            | _ => true end) true s &&
          with_key "additionalProperties" (λ c,
            forallb (λ kx, has_key (dict_or_empty (dget s "properties")) kx.1 || validate c kx.2) d)
            true s
      | _ => true
      end
  | _ => false
  end.

(** Induction over nested annotations. *)
Section annotation_ind.
Variable P : annotation → Prop.
Hypothesis Hbase : ∀ a, match a with
  | AUnion _ | AListOf _ | ADictOf _ | AAnnotated _ | ATypedDict _ _ _ | ADataclass _ _ _ => True
  | _ => P a end.
Hypothesis HUnion : ∀ l, Forall P l → P (AUnion l).
Hypothesis HListOf : ∀ l, Forall P l → P (AListOf l).
Hypothesis HDictOf : ∀ l, Forall P l → P (ADictOf l).
Hypothesis HAnnotated : ∀ a, P a → P (AAnnotated a).
Hypothesis HTyped : ∀ c h r, Forall (λ x, P x.2) h → P (ATypedDict c h r).
Hypothesis HData : ∀ c h r, Forall (λ x, P x.2) h → P (ADataclass c h r).

Fixpoint annotation_ind' (a : annotation) : P a :=
  let all := fix go (l : list annotation) : Forall P l :=
    match l with [] => Forall_nil_2 _ | x :: l => Forall_cons_2 _ _ _ (annotation_ind' x) (go l) end in
  let hints := fix go (l : list (string * annotation)) : Forall (λ x, P x.2) l :=
    match l with [] => Forall_nil_2 _ | x :: l => Forall_cons_2 _ _ _ (annotation_ind' x.2) (go l) end in
  match a as b return P b with
  | AUnion l => HUnion l (all l)
  | AListOf l => HListOf l (all l)
  | ADictOf l => HDictOf l (all l)
  | AAnnotated a => HAnnotated a (annotation_ind' a)
  | ATypedDict c h r => HTyped c h r (hints h)
  | ADataclass c h r => HData c h r (hints h)
  | AAny => Hbase AAny | AStr => Hbase AStr | ABool => Hbase ABool | AInt => Hbase AInt
  | AFloat => Hbase AFloat | ANone => Hbase ANone | ABareList => Hbase ABareList
  | ABareDict => Hbase ABareDict | ALiteral l => Hbase (ALiteral l) | AOther r => Hbase (AOther r)
  end.
End annotation_ind.

(** ** Lemmas *)

Definition derives (repr : annotation → string) (a : annotation) : Prop :=
  ∀ s, well_formed a = true → schema_for repr a = Ok s → ∀ v, validate s v = inhabits a v.

Lemma validate_typed t v : validate (typed t) v = elem_str t (json_types v).
Proof. simpl. rewrite !andb_true_r. destruct v; simpl; by rewrite ?andb_true_r. Qed.

Lemma forallb_has_key_str (d : dict) l :
  forallb (λ k, match k with VStr k => has_key d k | _ => true end) (map VStr l) = forallb (has_key d) l.
Proof. induction l as [|k l IH]; simpl; [done|]. by rewrite IH. Qed.

Lemma forallb_ext_elem {A} (f g : A → bool) l :
  (∀ x, x ∈ l → f x = g x) → forallb f l = forallb g l.
Proof.
  induction l as [|x l IH]; intros H; simpl; [done|].
  rewrite H by set_solver. rewrite IH; [done|]. set_solver.
Qed.

Lemma existsb_ext_elem {A} (f g : A → bool) l :
  (∀ x, x ∈ l → f x = g x) → existsb f l = existsb g l.
Proof.
  induction l as [|x l IH]; intros H; simpl; [done|].
  rewrite H by set_solver. rewrite IH; [done|]. set_solver.
Qed.

(** The object schema says what its properties and required names say. *)
Lemma validate_object desc props required v :
  validate (object_schema desc props required) v =
  match v with
  | VDict d =>
      forallb (has_key d) (filter (λ n, elem_str n required = true) (keys props))
      && forallb (λ kc, match assoc d kc.1 with Some x => validate kc.2 x | None => true end) props
      && forallb (λ kx, has_key props kx.1) d
  | _ => false
  end.
Proof.
  unfold object_schema.
  assert (∀ d : dict, forallb (λ kx, has_key props kx.1 || validate (VBool false) kx.2) d
    = forallb (λ kx, has_key props kx.1) d) as Hadd.
  { intros d. apply forallb_ext_elem. intros kx _. apply orb_false_r. }
  destruct desc as [desc|]; destruct (filter _ (keys props)) as [|n ns] eqn:E;
    destruct v as [| | | | |l|d]; try done; cbn -[forallb dict_or_empty];
    change (dict_or_empty (dget _ "properties")) with props; rewrite Hadd; try done;
    rewrite <-(forallb_has_key_str d (n :: ns)); cbn -[forallb]; by rewrite <-andb_assoc.
Qed.

Lemma required_all (d : dict) names required :
  forallb (λ n, elem_str n names) required = true →
  forallb (has_key d) (filter (λ n, elem_str n required = true) names) = forallb (has_key d) required.
Proof.
  intros Hsub. rewrite forallb_forall in Hsub. apply eq_true_iff_eq. rewrite !forallb_forall.
  setoid_rewrite <-list_elem_of_In in Hsub. setoid_rewrite <-list_elem_of_In.
  setoid_rewrite list_elem_of_filter. setoid_rewrite elem_str_spec. setoid_rewrite elem_str_spec in Hsub.
  naive_solver.
Qed.

Lemma derives_hints repr hints props (d : dict) :
  Forall (λ h, derives repr h.2) hints → forallb (λ h, well_formed h.2) hints = true →
  Forall2 (λ h p, (s ← schema_for repr h.2; Ok (h.1, s)) = Ok p) hints props →
  keys props = keys hints ∧
  forallb (λ kc, match assoc d kc.1 with Some x => validate kc.2 x | None => true end) props
  = forallb (λ h, match assoc d h.1 with Some x => inhabits h.2 x | None => true end) hints.
Proof.
  intros Hall Hwf Hprops. unfold keys. induction Hprops as [|h p hints props Hp _ IH]; [done|].
  apply Forall_cons in Hall as [Hh Hall]. simpl in Hwf. apply andb_true_iff in Hwf as [Hw Hwf].
  destruct (IH Hall Hwf) as [Hk Hf]. apply res_bind_ok in Hp as (s & Hs & [= <-]). simpl.
  split; [by rewrite Hk|]. rewrite Hf. f_equal.
  destruct (assoc d h.1); [|done]. by apply Hh.
Qed.

Lemma derives_object repr hints props desc required v :
  Forall (λ h, derives repr h.2) hints → forallb (λ h, well_formed h.2) hints = true →
  forallb (λ n, elem_str n (keys hints)) required = true →
  map_res (λ h, s ← schema_for repr h.2; Ok (h.1, s)) hints = Ok props →
  validate (object_schema desc props required) v =
  match v with
  | VDict d =>
      forallb (λ kv, elem_str kv.1 (keys hints)) d && forallb (has_key d) required
      && forallb (λ h, match assoc d h.1 with Some x => inhabits h.2 x | None => true end) hints
  | _ => false
  end.
Proof.
  intros Hall Hwf Hreq Hprops%map_res_Forall2. rewrite validate_object.
  destruct v as [| | | | | |d]; try done.
  destruct (derives_hints repr hints props d Hall Hwf Hprops) as [Hk ->].
  rewrite required_all by (by rewrite Hk).
  assert (forallb (λ kx, has_key props kx.1) d = forallb (λ kv, elem_str kv.1 (keys hints)) d) as ->.
  { apply forallb_ext_elem. intros kx _. rewrite <-Hk. apply eq_true_iff_eq.
    by rewrite has_key_elem, elem_str_spec. }
  destruct (forallb (has_key d) required), (forallb (λ kv, elem_str kv.1 (keys hints)) d); simpl;
    by rewrite ?andb_true_r, ?andb_false_r.
Qed.

(** Claim C7. The derived schema is the type: for an annotation the module
    supports, the schema it derives accepts a JSON value exactly when the value
    is one of the annotated type (required fields present, no field beyond the
    declared ones, members recursively). *)
Theorem schema_for_exact repr a s v :
  well_formed a = true → schema_for repr a = Ok s → validate s v = inhabits a v.
Proof.
  intros Hwf Hs. revert s Hwf Hs v. change (derives repr a).
  apply (annotation_ind' (derives repr)); clear a;
    [intros a; destruct a; try exact I|intros l IH|intros l IH|intros l IH|intros a IH
    |intros c h r IH|intros c h r IH]; intros s Hwf Hs v.
  1-8: injection Hs as <-; rewrite ?validate_typed; by destruct v.
  - injection Hs as <-. simpl. by destruct v; rewrite ?andb_true_r.
  - done.
  - simpl in Hs. apply res_bind_ok in Hs as (ms & Hms%map_res_Forall2 & [= <-]).
    assert (existsb (λ c, validate c v) ms = existsb (λ m, inhabits m v) l) as He.
    { simpl in Hwf. revert IH Hwf. induction Hms as [|x y l ms Hx _ IHl]; intros IH Hwf; [done|].
      apply Forall_cons in IH as [Hd IH]. simpl in Hwf. apply andb_true_iff in Hwf as [Hw Hwf].
      simpl. by rewrite (Hd y Hw Hx v), IHl. }
    simpl. rewrite He. by destruct v; rewrite ?andb_true_r.
  - simpl in Hs. destruct l as [|arg l]; [done|]. apply res_bind_ok in Hs as (c & Hc & [= <-]).
    apply Forall_cons in IH as [Hd _]. simpl in Hwf. apply andb_true_iff in Hwf as [Hw _].
    destruct v as [| | | | |xs|]; try done. simpl. apply forallb_ext_elem. intros x _. by apply Hd.
  - simpl in Hs. destruct l as [|key l]; [injection Hs as <-; rewrite validate_typed; by destruct v|].
    destruct (is_str_annotation key); [|done]. simpl in Hs. destruct l as [|arg l]; [done|].
    apply res_bind_ok in Hs as (c & Hc & [= <-]).
    apply Forall_cons in IH as [_ [Hd _]%Forall_cons]. simpl in Hwf.
    apply andb_true_iff in Hwf as [_ [Hw _]%andb_true_iff].
    destruct v as [| | | | | |d]; try done. simpl. apply forallb_ext_elem. intros x _. by apply Hd.
  - by apply IH.
  - simpl in Hs. apply res_bind_ok in Hs as (desc & _ & Hs).
    apply res_bind_ok in Hs as (props & Hprops & [= <-]).
    simpl in Hwf. apply andb_true_iff in Hwf as [[_ Hr]%andb_true_iff Hwf].
    rewrite (derives_object repr h) by done. by destruct v.
  - simpl in Hs. apply res_bind_ok in Hs as (desc & _ & Hs).
    apply res_bind_ok in Hs as (props & Hprops & [= <-]).
    simpl in Hwf. apply andb_true_iff in Hwf as [[_ Hr]%andb_true_iff Hwf].
    rewrite (derives_object repr h) by done. by destruct v.
Qed.

(** ** Plain data *)

(** JSON-compatible data as a Python object: lists, dictionaries with distinct
    string keys, and what passes through. *)
Definition str_keys (d : list (value * pyobj)) : list string :=
  map (λ kv, default "" (as_str kv.1)) d.
Fixpoint plain (x : pyobj) : bool :=
  match x with
  | POther _ => true
  | PSeq KList l => forallb plain l
  | PDict d => forallb (λ kv, is_str kv.1) d && bool_decide (NoDup (str_keys d))
               && forallb (λ kv, plain kv.2) d
  | _ => false
  end.

Section pyobj_ind.
Variable P : pyobj → Prop.
Hypothesis HData : ∀ f, Forall (λ x, P x.2) f → P (PDataclass f).
Hypothesis HPath : ∀ p, P (PPath p).
Hypothesis HSeq : ∀ k l, Forall P l → P (PSeq k l).
Hypothesis HDict : ∀ d, Forall (λ x, P x.2) d → P (PDict d).
Hypothesis HOther : ∀ v, P (POther v).

Fixpoint pyobj_ind' (x : pyobj) : P x :=
  match x with
  | PDataclass f => HData f
      ((fix go l : Forall (λ x, P x.2) l :=
          match l with [] => Forall_nil_2 _ | y :: l => Forall_cons_2 _ _ _ (pyobj_ind' y.2) (go l) end) f)
  | PPath p => HPath p
  | PSeq k l => HSeq k l
      ((fix go l : Forall P l :=
          match l with [] => Forall_nil_2 _ | y :: l => Forall_cons_2 _ _ _ (pyobj_ind' y) (go l) end) l)
  | PDict d => HDict d
      ((fix go l : Forall (λ x, P x.2) l :=
          match l with [] => Forall_nil_2 _ | y :: l => Forall_cons_2 _ _ _ (pyobj_ind' y.2) (go l) end) d)
  | POther v => HOther v
  end.
End pyobj_ind.

(** The dictionary a comprehension builds from its pairs. *)
Definition dict_of {A} (l : list (string * A)) : list (string * A) :=
  fold_left (λ acc kv, dset acc kv.1 kv.2) l [].

Lemma dict_of_inv {A} (P : A → Prop) (l : list (string * A)) :
  Forall (λ kv, P kv.2) l → NoDup (keys (dict_of l)) ∧ Forall (λ kv, P kv.2) (dict_of l).
Proof.
  unfold dict_of. assert (∀ acc : list (string * A), NoDup (keys acc) → Forall (λ kv, P kv.2) acc →
    Forall (λ kv, P kv.2) l →
    NoDup (keys (fold_left (λ acc kv, dset acc kv.1 kv.2) l acc)) ∧
    Forall (λ kv, P kv.2) (fold_left (λ acc kv, dset acc kv.1 kv.2) l acc)) as Hgen.
  { induction l as [|[k v] l IH]; intros acc Hn Ha Hl; [done|]. simpl.
    apply Forall_cons in Hl as [Hv Hl]. apply IH; [by apply dset_nodup| |done].
    apply Forall_forall. intros kv [->|Hkv]%dset_elem; [done|].
    rewrite Forall_forall in Ha. by apply Ha. }
  intros Hl. apply Hgen; [apply NoDup_nil_2|done|done].
Qed.

Lemma dict_of_nodup {A} (l : list (string * A)) : NoDup (keys l) → dict_of l = l.
Proof.
  unfold dict_of. assert (∀ acc : list (string * A), NoDup (keys (acc ++ l)) →
    fold_left (λ acc kv, dset acc kv.1 kv.2) l acc = acc ++ l) as Hgen.
  { induction l as [|[k v] l IH]; intros acc Hn; simpl; [by rewrite app_nil_r|].
    rewrite dset_notin.
    - rewrite IH; rewrite <-app_assoc; done.
    - unfold keys in *. rewrite map_app in Hn. apply NoDup_app in Hn as (_ & Hd & _).
      intros Hk. apply (Hd k Hk). simpl. set_solver. }
  intros Hn. by apply Hgen.
Qed.

Lemma str_keys_VStr (l : list (string * pyobj)) :
  str_keys (map (λ kv, (VStr kv.1, kv.2)) l) = keys l.
Proof. unfold str_keys. by rewrite map_map. Qed.

Lemma plain_dict l :
  Forall (λ kv, plain kv.2 = true) l →
  plain (PDict (map (λ kv, (VStr kv.1, kv.2)) (dict_of l))) = true.
Proof.
  intros Hl. destruct (dict_of_inv (λ x, plain x = true) l Hl) as [Hn Ha]. simpl. rewrite bool_decide_eq_true_2 by (by rewrite str_keys_VStr).
  rewrite andb_true_r. apply andb_true_iff. rewrite !forallb_forall. rewrite Forall_forall in Ha.
  split; intros kv ([k x] & <- & Hk)%in_map_iff; [done|]. by apply (Ha (k, x)), list_elem_of_In.
Qed.

Lemma to_jsonable_is_plain x : plain (to_jsonable x) = true.
Proof.
  induction x as [f IH|p|k l IH|d IH|v] using pyobj_ind'; simpl to_jsonable; try done.
  - apply plain_dict. by apply Forall_map.
  - simpl. apply forallb_forall. intros y (x & <- & Hx)%in_map_iff. rewrite Forall_forall in IH.
    by apply IH, list_elem_of_In.
  - apply plain_dict. by apply Forall_map.
Qed.

Lemma plain_to_jsonable x : plain x = true → to_jsonable x = x.
Proof.
  induction x as [f IH|p|k l IH|d IH|v] using pyobj_ind'; intros Hp; simpl in Hp; try done.
  - destruct k; try done. simpl. f_equal. induction l as [|y l IHl]; [done|].
    simpl in *. apply andb_true_iff in Hp as [Hy Hp]. apply Forall_cons in IH as [H1 H2].
    rewrite (H1 Hy). f_equal. by apply IHl.
  - apply andb_true_iff in Hp as [[Hs Hn%bool_decide_eq_true]%andb_true_iff Hv].
    simpl. f_equal.
    assert (map (λ kv, (py_str kv.1, to_jsonable kv.2)) d
            = map (λ kv, (default "" (as_str kv.1), kv.2)) d) as ->.
    { clear Hn. induction d as [|[k y] d IHd]; [done|]. simpl in *.
      apply andb_true_iff in Hs as [Hk Hs]. apply andb_true_iff in Hv as [Hy Hv].
      apply Forall_cons in IH as [H1 H2]. simpl in H1. rewrite (H1 Hy), (IHd H2 Hs Hv).
      by destruct k. }
    assert (map (λ kv, (VStr kv.1, kv.2)) (map (λ kv, (default "" (as_str kv.1), kv.2)) d) = d) as Hd.
    { rewrite map_map. clear Hn IH Hv. induction d as [|[k y] d IHd]; [done|]. simpl in *.
      apply andb_true_iff in Hs as [Hk Hs]. rewrite (IHd Hs). by destruct k. }
    fold (dict_of (map (λ kv, (default "" (as_str kv.1), kv.2)) d)).
    rewrite dict_of_nodup; [done|]. unfold keys. by rewrite map_map.
Qed.

(** What a host tool returns becomes JSON: the conversion leaves no
    dataclass, path, tuple, set or non-string key at any depth, and converting
    what is already plain data changes nothing. *)
Theorem to_jsonable_normalises x :
  plain (to_jsonable x) = true ∧ (plain x = true → to_jsonable x = x) ∧
  to_jsonable (to_jsonable x) = to_jsonable x.
Proof.
  split_and!; [apply to_jsonable_is_plain|apply plain_to_jsonable|].
  apply plain_to_jsonable, to_jsonable_is_plain.
Qed.

(** ** The claim at a concrete annotation *)

(** [{"name": str, "tags": NotRequired[list[str]]}], a class without a docstring. *)
Definition example_annotation : annotation :=
  ATypedDict {| class_name := "Note"; class_doc := None |}
    [("name", AStr); ("tags", AListOf [AStr])] ["name"].

Lemma schema_for_exact_witness :
  ∃ s, schema_for (λ _, "Note") example_annotation = Ok s ∧
    validate s (VDict [("name", VStr "a"); ("tags", VList [VStr "b"])]) = true ∧
    validate s (VDict [("tags", VList [])]) = false.
Proof.
  eexists. split; [vm_compute; reflexivity|].
  split; (etransitivity; [apply (schema_for_exact (λ _, "Note") example_annotation); vm_compute; reflexivity
                         |vm_compute; reflexivity]).
Defined.
