(* ===== verification/Outcome.v ===== *)
(** * Outcomes, events and versions

    src/python/foe/_outcome.py and src/python/foe/_versions.py: the outcome of
    an episode, the event envelope, and the versions a binary and the package
    must agree on. *)

From Stdlib Require Import Ascii.
From stdpp Require Import base list sets strings pretty.
From Stdlib Require Import ZArith Lia.
From S2P Require Import Prelude PyValue PyText TraceLog TraceOutcome.

(** ** Outcomes *)

Inductive outcome : Type :=
| Completed (v : value)
| Blocked (code message : string)
| Exhausted (limit : string)
| Failed (error : string).

Definition outcome_from_json (data : dict) : res outcome :=
  let kind := dget data "kind" in
  if is_string "completed" kind then Ok (Completed (dget data "value"))
  else if is_string "blocked" kind then
    code ← dict_index data "code";
    Ok (Blocked (py_str code) (py_str (dget_or data "message" (VStr ""))))
  else if is_string "exhausted" kind then
    limit ← dict_index data "limit"; Ok (Exhausted (py_str limit))
  else if is_string "failed" kind then Ok (Failed (py_str (dget_or data "error" (VStr ""))))
  else Err (ValueError ("episode/end: unknown outcome kind " +:+ py_repr kind)).

(** ** Events *)

Record Runtime : Type := { runtime_version : string; runtime_build : string }.

Record Event : Type := {
  seq : Z;
  time : Z;
  type : string;
  data : dict;
  ev_episode_id : option string;
  version : option Z;
}.

Definition Event_from_json (obj : value) : res Event :=
  obj ← as_mapping obj;
  s ← (dict_index obj "seq" ≫= py_int);
  t ← (dict_index obj "time" ≫= py_int);
  ty ← dict_index obj "type";
  d ← py_dict (py_or (dget obj "data") (VDict []));
  v ← match dget obj "version" with VNone => Ok None | v => z ← py_int v; Ok (Some z) end;
  Ok {| seq := s; time := t; type := py_str ty; data := d;
        ev_episode_id := match dget obj "episode_id" with VNone => None | v => Some (py_str v) end;
        version := v |}.

(** ** Versions *)

Definition CONFIG_VERSION : Z := 4.
Definition LOG_FORMAT_VERSION : Z := 3.
Definition UNSTATED_LOG_FORMAT_VERSION : Z := 3.
Definition PROTOCOL_VERSION : string := "0.2".

Definition protocol_agrees (version : string) : bool :=
  let wanted := split_on "."%char PROTOCOL_VERSION in
  bool_decide (take (length wanted) (split_on "."%char version) = wanted).

(** ** What the log format says an outcome is *)

(** The [outcome] object of an [episode/end], docs/log-format.md. *)
Definition outcome_json (o : outcome) : dict :=
  match o with
  | Completed v => [("kind", VStr "completed"); ("value", v)]
  | Blocked c m => [("kind", VStr "blocked"); ("code", VStr c); ("message", VStr m)]
  | Exhausted l => [("kind", VStr "exhausted"); ("limit", VStr l)]
  | Failed e => [("kind", VStr "failed"); ("error", VStr e)]
  end.

(** The event envelope: the fields of an event as the runtime writes them. *)
Definition event_json (e : Event) : dict :=
  [("seq", VInt (seq e)); ("time", VInt (time e)); ("type", VStr (type e)); ("data", VDict (data e))]
  ++ match ev_episode_id e with Some i => [("episode_id", VStr i)] | None => [] end
  ++ match version e with Some v => [("version", VInt v)] | None => [] end.

(** Outcomes and events survive the wire: parsing the JSON of an
    outcome gives the outcome back, and parsing an event's envelope gives the
    event back, absent tags and versions included. *)
Theorem wire_round_trip o e :
  outcome_from_json (outcome_json o) = Ok o ∧ Event_from_json (VDict (event_json e)) = Ok e.
Proof.
  split; [by destruct o|]. destruct e as [s t ty d i v]. unfold Event_from_json, event_json. simpl.
  assert (py_dict (py_or (VDict d) (VDict [])) = Ok d) as Hd by (by destruct d).
  destruct i as [i|], v as [v|]; cbn -[py_dict py_or]; rewrite Hd; done.
Qed.

(** The SDK reads every outcome the trace checker accepts: an outcome
    of one of the closed variants parses, to the variant of its kind, with the
    code, limit or error it states. *)
Theorem closed_outcomes_parse d :
  closed_outcome d →
  ∃ o, outcome_from_json d = Ok o ∧
    match o with
    | Completed v => dget d "kind" = VStr "completed" ∧ dget d "value" = v
    | Blocked c m => dget d "kind" = VStr "blocked" ∧ dget d "code" = VStr c ∧ c ∈ BLOCKED_CODES ∧
                     dget d "message" = VStr m
    | Exhausted l => dget d "kind" = VStr "exhausted" ∧ dget d "limit" = VStr l ∧ l ∈ EXHAUSTED_LIMITS
    | Failed e => dget d "kind" = VStr "failed" ∧ dget d "error" = VStr e
    end.
Proof.
  assert (∀ d k s, dget d k = VStr s → assoc d k = Some (VStr s)) as Hassoc.
  { unfold dget. intros d' k s H. destruct (assoc d' k); simpl in H; congruence. }
  destruct 1 as [o v Hk Hv|o c m Hk Hc Hin Hm|o l Hk Hl Hin|o e Hk He];
    unfold outcome_from_json; rewrite Hk; cbn -[py_str dget assoc].
  - eexists. split; [reflexivity|]. done.
  - unfold dict_index, dget_or. rewrite (Hassoc _ _ _ Hc), (Hassoc _ _ _ Hm). simpl.
    eexists. split; [reflexivity|]. done.
  - unfold dict_index. rewrite (Hassoc _ _ _ Hl). simpl. eexists. split; [reflexivity|]. done.
  - unfold dget_or. rewrite (Hassoc _ _ _ He). simpl. eexists. split; [reflexivity|]. done.
Qed.

Lemma join_split c s : join (String c "") (split_on c s) = s.
Proof.
  induction s as [|d s IH]; [done|]. cbn [split_on].
  destruct (Ascii.eqb_spec d c) as [->|Hne].
  - assert (split_on c s ≠ []) as Hn.
    { destruct s as [|e s']; [done|]. simpl. destruct (Ascii.eqb e c); [done|]. by destruct (split_on c s'). }
    destruct (split_on c s) as [|w ws]; [done|]. simpl in *. by rewrite IH.
  - destruct (split_on c s) as [|w ws] eqn:E.
    + simpl in IH. by subst s.
    + destruct ws; simpl in *; by rewrite <-IH.
Qed.

(** A binary speaks the package's protocol exactly when its version
    is 0.2 or extends it by a further dotted field: 0.2.7 agrees, 0.20 and 0.3
    do not. *)
Theorem protocol_agrees_prefix v :
  protocol_agrees v = true ↔ v = "0.2" ∨ starts_with "0.2." v = true.
Proof.
  unfold protocol_agrees. rewrite bool_decide_eq_true. change (split_on "."%char PROTOCOL_VERSION) with ["0"; "2"].
  split.
  - intros H. rewrite <-(join_split "."%char v).
    destruct (split_on "."%char v) as [|a [|b rest]]; try done. simpl in H. injection H as -> ->.
    destruct rest as [|c rest]; [by left|right].
    exact (starts_with_app "0.2." (join "." (c :: rest))).
  - by intros [->|(t & ->)%starts_with_inv].
Qed.

(** ** The claim at a concrete outcome *)

Lemma closed_outcomes_parse_witness :
  ∃ o, outcome_from_json [("kind", VStr "exhausted"); ("limit", VStr "seconds")] = Ok o ∧
    match o with Exhausted l => l = "seconds" | _ => False end.
Proof.
  destruct (closed_outcomes_parse [("kind", VStr "exhausted"); ("limit", VStr "seconds")]) as (o & Ho & Hd).
  - apply (closed_exhausted _ "seconds"); [reflexivity|reflexivity|]. apply elem_str_spec. reflexivity.
  - exists o. split; [exact Ho|]. vm_compute in Ho. injection Ho as <-. destruct Hd as (_ & Hl & _). reflexivity.
Defined.
