(* ===== verification/Capabilities.v ===== *)
(** * Capability handles

    src/python/foe/_capabilities.py: reads, writes and executions bounded to
    granted roots.  What a path resolves to, whether an operating-system call
    fails, and what a process produces are parameters. *)

From stdpp Require Import base list sets strings pretty gmap sorting.
From Stdlib Require Import ZArith Lia.
From S2P Require Import Prelude PyValue PyText PyPath TracePermissions.

(** The files of the system: what each path holds. *)
Abbreviation files := (gmap string string).

Section capabilities.
(** [os.path.realpath]. *)
Variable realpath : string → string.

Definition canonical (path : string) : string := realpath path.

Definition within (path : string) (roots : list string) : bool :=
  existsb (λ root, String.eqb path root || is_relative_to path root) roots.

(** [ReadFS(roots).roots] and [WriteFS(roots).roots]. *)
Definition fs_roots (roots : list string) : list string := map canonical roots.

(** [resolve] of [ReadFS] and [WriteFS]. *)
Definition resolve (roots : list string) (path : string) : res string :=
  let c := canonical path in
  raise_if (negb (within c (fs_roots roots))) (CapabilityError (c +:+ ": outside every granted root"));;
  Ok c.

(** ** Files *)

(** [read_bytes]; [None] is a path that names no file. *)
Definition read_bytes (fs : files) (roots : list string) (path : string) : res string :=
  c ← resolve roots path;
  match fs !! c with
  | Some content => Ok content
  | None => Err (OSError ("[Errno 2] No such file or directory: " +:+ str_repr c))
  end.

(** How the system answers the calls of one [write_bytes]: [None] is success.
    A failing write has stored some prefix. *)
Record faults : Type := {
  mkstemp_fault : option string;
  write_fault : option (string * nat);
  replace_fault : option string;
  unlink_fault : option string;
}.

(** The name [mkstemp] chooses: one that does not exist, beside the target. *)
Variable mkstemp : files → string → string.

(** The [except] clause: remove the staged file and raise again. *)
Definition unstage (f : faults) (fs : files) (staged error : string) : res () * files :=
  match fs !! staged with
  | None => (Err (OSError error), fs)
  | Some _ =>
      match unlink_fault f with
      | Some e => (Err (OSError e), fs)
      | None => (Err (OSError error), delete staged fs)
      end
  end.

Definition write_bytes (f : faults) (fs : files) (roots : list string) (path content : string)
    : res () * files :=
  match resolve roots path with
  | Err e => (Err e, fs)
  | Ok target =>
      match mkstemp_fault f with
      | Some e => (Err (OSError e), fs)
      | None =>
          let staged := mkstemp fs target in
          match write_fault f with
          | Some (e, n) => unstage f (<[staged := str_take n content]> fs) staged e
          | None =>
              let fs' := <[staged := content]> fs in
              match replace_fault f with
              | Some e => unstage f fs' staged e
              | None => (Ok (), <[target := content]> (delete staged fs'))
              end
          end
      end
  end.

(** ** Processes *)

Inductive completed : Type :=
| Finished (code : Z) (stdout stderr : string)
| TimedOut (stdout stderr : option string).

Record ExecResult : Type := {
  exit_code : option Z;
  out : string;
  err : string;
  timed_out : bool;
  duration_ms : Z;
}.

Definition executables (declared : list string) : list string := map canonical declared.

Definition exec_resolve (declared : list string) (command : string) : res string :=
  let c := canonical command in
  raise_if (negb (elem_str c (executables declared))) (CapabilityError (c +:+ ": not a declared executable"));;
  Ok c.

(** What [subprocess.run] is asked to start: a vector, never a shell. *)
Record invocation : Type := {
  argv : list string;
  cwd : option string;
  env : list (string * string);
  input : string;
  timeout_ms : Z;
}.

(** [subprocess.run] and the milliseconds it took. *)
Variable subprocess_run : invocation → res completed * Z.

Definition exec_run (declared : list string) (command : string) (args : list string)
    (cwd : option string) (env : option (list (string * string))) (timeout : Z)
    (stdin : option string) : res ExecResult :=
  path ← exec_resolve declared command;
  let '(result, elapsed) := subprocess_run
    {| argv := path :: args; cwd := cwd; env := default [] env; input := default "" stdin;
       timeout_ms := timeout |} in
  c ← result;
  Ok match c with
     | Finished code o e =>
         {| exit_code := Some code; out := o; err := e; timed_out := false; duration_ms := elapsed |}
     | TimedOut o e =>
         {| exit_code := None; out := default "" o; err := default "" e; timed_out := true;
            duration_ms := elapsed |}
     end.

(** ** What the handles guarantee *)

Hypothesis realpath_normal : ∀ p, normal (realpath p).

Lemma normal_parts_inj p q : normal p → normal q → path_parts p = path_parts q → p = q.
Proof.
  intros (pp & -> & Hp) (qp & -> & Hq). by rewrite !path_parts_absolute by done; intros ->.
Qed.

Lemma within_spec c roots :
  within c roots = true ↔ ∃ root, root ∈ roots ∧ path_parts root `prefix_of` path_parts c.
Proof.
  unfold within, is_relative_to. rewrite existsb_exists. setoid_rewrite <-list_elem_of_In.
  setoid_rewrite orb_true_iff. setoid_rewrite String.eqb_eq. setoid_rewrite bool_decide_eq_true.
  naive_solver.
Qed.

(** Claim C20. The handle and the trace checker enforce one rule: [resolve]
    returns the canonical path exactly when it lies, component by component,
    below the canonical form of a root, which is what [_check_permissions]
    tests with [commonpath]; otherwise it raises [CapabilityError]. *)
Theorem resolve_exact roots path :
  (resolve roots path = Ok (realpath path) ↔
     ∃ root, root ∈ roots ∧ path_parts (realpath root) `prefix_of` path_parts (realpath path)) ∧
  (resolve roots path = Ok (realpath path) ↔
     below_any realpath (realpath path) (map VStr roots) = true) ∧
  (∀ c, resolve roots path = Ok c → c = realpath path) ∧
  (∀ e, resolve roots path = Err e →
     e = CapabilityError (realpath path +:+ ": outside every granted root")).
Proof.
  assert (resolve roots path = Ok (realpath path) ↔
     ∃ root, root ∈ roots ∧ path_parts (realpath root) `prefix_of` path_parts (realpath path)) as H1.
  { unfold resolve. change (canonical path) with (realpath path).
    assert (within (realpath path) (fs_roots roots) = true ↔ ∃ root, root ∈ roots ∧
      path_parts (realpath root) `prefix_of` path_parts (realpath path)) as <-.
    { rewrite within_spec. unfold fs_roots, canonical. setoid_rewrite list_elem_of_fmap. naive_solver. }
    destruct (within _ _); simpl; naive_solver. }
  split_and!; [done| | |].
  - rewrite H1. unfold below_any. rewrite existsb_exists. split.
    + intros (root & Hr & Hp). exists (VStr root). split.
      * apply list_elem_of_In, list_elem_of_fmap. eauto.
      * apply String.eqb_eq. by apply commonpath_root.
    + intros (v & (root & <- & Hr)%in_map_iff & Heq%String.eqb_eq). exists root.
      split; [by apply list_elem_of_In|]. by apply commonpath_root.
  - unfold resolve. intros c. destruct (negb _); [done|]. by intros [= <-].
  - unfold resolve. intros e. destruct (negb _); [|done]. by intros [= <-].
Qed.

(** [mkstemp] creates a file that did not exist. *)
Hypothesis mkstemp_fresh : ∀ fs target, fs !! mkstemp fs target = None.

Lemma unstage_restores f fs staged part error :
  fs !! staged = None → unlink_fault f = None →
  unstage f (<[staged := part]> fs) staged error = (Err (OSError error), fs).
Proof.
  intros Hf Hu. unfold unstage. rewrite lookup_insert_eq, Hu. by rewrite delete_insert_id.
Qed.

(** Claim C21. [write_bytes] is atomic: on success the target holds exactly
    the new content and nothing else changed, also when the target existed; on
    any failure the target is as it was, and, unless the removal of the staged
    file itself fails, so is every other file. *)
Theorem write_bytes_atomic f fs roots path content :
  let target := realpath path in
  let '(r, fs') := write_bytes f fs roots path content in
  match r with
  | Ok _ => within target (fs_roots roots) = true ∧ fs' = <[target := content]> fs
  | Err _ =>
      (unlink_fault f = None → fs' = fs) ∧
      (fs !! target ≠ None → fs' !! target = fs !! target) ∧
      (∀ p, p ≠ mkstemp fs target → fs' !! p = fs !! p)
  end.
Proof.
  intros target. unfold write_bytes, resolve. fold target. change (canonical path) with target.
  destruct (within target (fs_roots roots)) eqn:Ew; simpl; [|done].
  destruct (mkstemp_fault f); [done|]. set (staged := mkstemp fs target).
  assert (∀ part error, match unstage f (<[staged := part]> fs) staged error with
    | (r, fs') => match r with
      | Ok _ => True ∧ fs' = <[target := content]> fs
      | Err _ => (unlink_fault f = None → fs' = fs) ∧
          (fs !! target ≠ None → fs' !! target = fs !! target) ∧
          (∀ p, p ≠ staged → fs' !! p = fs !! p) end end) as Hun.
  { intros part error. pose proof (mkstemp_fresh fs target) as Hfresh. fold staged in Hfresh.
    unfold unstage. rewrite lookup_insert_eq. destruct (unlink_fault f) as [e|].
    - split_and!; [done| |intros p Hp; by rewrite lookup_insert_ne].
      intros Ht. rewrite lookup_insert_ne; [done|]. congruence.
    - rewrite delete_insert_id by done. done. }
  destruct (write_fault f) as [[e n]|].
  { specialize (Hun (str_take n content) e). by destruct (unstage _ _ _ _) as [[] ?]; naive_solver. }
  destruct (replace_fault f) as [e|].
  { specialize (Hun content e). by destruct (unstage _ _ _ _) as [[] ?]; naive_solver. }
  split; [done|]. by rewrite delete_insert_id by apply mkstemp_fresh.
Qed.

End capabilities.

(** Execution reaches only declared programs: what [run] returns
    depends on the system only through one process, whose program is the
    canonical form of the command and of a declared executable, whose arguments
    are the given vector unchanged and whose environment is the given one with
    nothing inherited; a result says it timed out exactly when it has no exit
    code. *)
Theorem exec_run_bounded realpath run1 run2 declared command args cwd0 env0 timeout stdin :
  (∀ i, argv i = realpath command :: args → realpath command ∈ map realpath declared →
     env i = default [] env0 → cwd i = cwd0 → input i = default "" stdin → run1 i = run2 i) →
  exec_run realpath run1 declared command args cwd0 env0 timeout stdin
    = exec_run realpath run2 declared command args cwd0 env0 timeout stdin ∧
  (realpath command ∉ map realpath declared →
     exec_run realpath run1 declared command args cwd0 env0 timeout stdin
     = Err (CapabilityError (realpath command +:+ ": not a declared executable"))) ∧
  ∀ r, exec_run realpath run1 declared command args cwd0 env0 timeout stdin = Ok r →
    (timed_out r = true ↔ exit_code r = None).
Proof.
  intros Hagree. unfold exec_run, exec_resolve, executables, canonical.
  destruct (elem_str (realpath command) (map realpath declared)) eqn:Ed; simpl.
  - apply elem_str_spec in Ed. rewrite (Hagree {| argv := realpath command :: args; cwd := cwd0; env := default [] env0;
      input := default "" stdin; timeout_ms := timeout |}) by done.
    destruct (run2 _) as [result ms]. split_and!; [done|done|].
    intros r (c & _ & Hr)%res_bind_ok. destruct c; injection Hr as <-; done.
  - split_and!; done.
Qed.

(** ** The claims on a file system without links *)

Lemma resolve_exact_witness :
  resolve linkless_realpath ["/work"] "/work/./notes.txt" = Ok "/work/notes.txt" ∧
  resolve linkless_realpath ["/work"] "/workshop/notes.txt" ≠ Ok "/workshop/notes.txt".
Proof.
  split.
  - change (resolve linkless_realpath ["/work"] "/work/./notes.txt" = Ok (linkless_realpath "/work/./notes.txt")).
    apply (proj1 (resolve_exact linkless_realpath linkless_normal ["/work"] "/work/./notes.txt")).
    exists "/work". split; [left|]. exists ["notes.txt"]. reflexivity.
  - intros H. change "/workshop/notes.txt" with (linkless_realpath "/workshop/notes.txt") in H at 2.
    apply (proj1 (resolve_exact linkless_realpath linkless_normal ["/work"] "/workshop/notes.txt")) in H.
    destruct H as (root & Hroot & k & Hk). apply list_elem_of_singleton in Hroot as ->.
    vm_compute in Hk. discriminate Hk.
Defined.

(** [mkstemp] by choosing a name outside the file system. *)
Definition fresh_name (fs : files) (target : string) : string := fresh (dom fs).
Lemma fresh_name_fresh fs target : fs !! fresh_name fs target = None.
Proof. apply not_elem_of_dom. apply is_fresh. Qed.

Lemma write_bytes_atomic_witness :
  let f := {| mkstemp_fault := None; write_fault := Some ("disk full", 2); replace_fault := None;
              unlink_fault := None |} in
  let fs := {[ "/work/a" := "old" ]} in
  (write_bytes linkless_realpath fresh_name f fs ["/work"] "/work/a" "new").2 = fs.
Proof.
  intros f fs.
  pose proof (write_bytes_atomic linkless_realpath fresh_name fresh_name_fresh f fs ["/work"] "/work/a" "new") as H.
  cbv zeta in H. destruct (write_bytes linkless_realpath fresh_name f fs ["/work"] "/work/a" "new") as [r fs'] eqn:E.
  destruct r as [u|e].
  - exfalso. revert E. unfold write_bytes, unstage. simpl. rewrite lookup_insert_eq. discriminate.
  - destruct H as [H _]. apply H. reflexivity.
Defined.

Lemma exec_run_bounded_witness :
  let run1 i := (Ok (Finished 0 (join " " (argv i)) ""), 5%Z) in
  let run2 i := (match argv i with
                 | [p; a] => if String.eqb p "/bin/grep" then Ok (Finished 0 (join " " (argv i)) "") else Err (OSError "gone")
                 | _ => Err (OSError "gone") end, 5%Z) in
  exec_run linkless_realpath run1 ["/bin/grep"] "/bin//grep" ["a"] None None 1000 None
  = exec_run linkless_realpath run2 ["/bin/grep"] "/bin//grep" ["a"] None None 1000 None.
Proof.
  intros run1 run2.
  apply (exec_run_bounded linkless_realpath run1 run2 ["/bin/grep"] "/bin//grep" ["a"] None None 1000 None).
  intros i Hi _ _ _ _. unfold run1, run2. rewrite Hi. reflexivity.
Defined.
