(* ===== verification/Tools.v ===== *)
(** * Host tools

    src/python/foe/_tools.py: the specification the package derives from a
    Python function, and the invocation of the function for one call.  The
    body of the function and its renderer are parameters of [invoke]. *)

From stdpp Require Import base list sets strings pretty.
From Stdlib Require Import ZArith Lia.
From S2P Require Import Prelude PyValue PyText Schema.

(** ** Effects *)

Inductive effect : Type := pure | reads | writes | execs.
Inductive capability : Type := ReadFS | WriteFS | Exec.

Definition effect_name (e : effect) : string :=
  match e with pure => "pure" | reads => "reads" | writes => "writes" | execs => "execs" end.
Definition EFFECT_RANK (e : effect) : nat :=
  match e with pure => 0 | reads => 1 | writes => 2 | execs => 3 end.
Definition CAPABILITY_EFFECT (c : capability) : effect :=
  match c with ReadFS => reads | WriteFS => writes | Exec => execs end.

(** [hint in _CAPABILITY_EFFECT]: the annotation is one of the handle classes. *)
Definition capability_of (a : annotation) : option capability :=
  match a with
  | AOther r =>
      if String.eqb r "<class 'foe._capabilities.ReadFS'>" then Some ReadFS
      else if String.eqb r "<class 'foe._capabilities.WriteFS'>" then Some WriteFS
      else if String.eqb r "<class 'foe._capabilities.Exec'>" then Some Exec
      else None
  | _ => None
  end.

(** ** Specifications *)

Record ToolSpec : Type := {
  spec_name : string;
  description : string;
  instruction : option string;
  params : dict;
  spec_effect : effect;
}.

Definition ToolSpec_to_dict (s : ToolSpec) : dict :=
  [("description", VStr (description s))]
  ++ match instruction s with Some i => [("instruction", VStr i)] | None => [] end
  ++ [("params", VDict (params s)); ("effect", VStr (effect_name (spec_effect s)))].

Record HostTool : Type := {
  spec : ToolSpec;
  capability_params : list (string * capability);
}.
Definition tool_name (t : HostTool) : string := spec_name (spec t).

(** [inspect.getdoc(fn)] is given with the function. *)
Definition first_doc_line (doc : option string) : res (option string) :=
  match doc with
  | None => Ok None
  | Some d => if String.eqb d "" then Ok None
              else line ← first_line (strip d); Ok (or_none (strip line))
  end.

Definition capabilities_of (hints : list (string * annotation)) : list (string * capability) :=
  omap (λ h, if String.eqb h.1 "return" then None
             else c ← capability_of h.2; Some (h.1, c)) hints.

(** One turn of the loop over the handles. *)
Definition strengthen (e : effect) (pc : string * capability) : effect :=
  if EFFECT_RANK e <? EFFECT_RANK (CAPABILITY_EFFECT pc.2) then CAPABILITY_EFFECT pc.2 else e.
Definition effect_of (caps : list (string * capability)) : effect := fold_left strengthen caps pure.

(** [HostTool.__init__]; [name or fn.__name__] treats an empty name as none. *)
Definition make_tool (annotation_repr : annotation → string) (fn : function) (doc : option string)
    (name description instruction : option string) : res HostTool :=
  let caps := capabilities_of (fn_hints fn) in
  resolved ← match description with Some d => Ok (Some d) | None => first_doc_line doc end;
  match resolved with
  | Some d =>
      raise_if (String.eqb d "")
        (TypeError (fn_name fn +:+ ": a tool needs a docstring or an explicit description"));;
      schema ← params_schema annotation_repr fn (keys caps);
      Ok {| spec := {| spec_name := match name with
                                    | Some n => if String.eqb n "" then fn_name fn else n
                                    | None => fn_name fn end;
                       description := d; instruction := instruction; params := schema;
                       spec_effect := effect_of caps |};
            capability_params := caps |}
  | None => Err (TypeError (fn_name fn +:+ ": a tool needs a docstring or an explicit description"))
  end.

(** ** Invocation *)

Record ToolResult : Type := {
  result_value : pyobj;
  rendered : option string;
  is_error : bool;
}.

(** The grants a call's handles are built from, as the document states them. *)
Record Capabilities : Type := {
  read_roots : list value;
  write_roots : list value;
  executables : list value;
}.

(** [os.fspath(v)]. *)
Definition fspath (v : value) : res string :=
  match v with
  | VStr s => Ok s
  | v => Err (TypeError ("expected str, bytes or os.PathLike object, not " +:+ type_name v))
  end.

(** One keyword argument: what the model sent, or a handle. *)
Inductive argument : Type :=
| Arg (v : value)
| ReadHandle (roots : list string)
| WriteHandle (roots : list string)
| ExecHandle (executables : list string).

(** How the call of the function ended. *)
Inductive call_end : Type :=
| ReturnedResult (r : ToolResult)
| ReturnedObject (x : pyobj)
| Raised (exception message : string)
| CallCancelled.

(** How [invoke] ends: with a result, with an exception of its own, or
    cancelled. *)
Inductive invoke_end : Type :=
| Invoked (r : ToolResult)
| Escaped (e : exn)
| InvokeCancelled.

Section invoke.
Variable realpath : string → string.
Variable call : list (string * argument) → call_end.
(** The registered renderer, which may raise. *)
Variable render : option (pyobj → res string).

(** [tuple(_canonical(r) for r in roots)]. *)
Definition canonical_all (roots : list value) : res (list string) :=
  map_res (λ r, p ← fspath r; Ok (realpath p)) roots.

Definition handle (caps : Capabilities) (c : capability) : res argument :=
  match c with
  | ReadFS => l ← canonical_all (read_roots caps); Ok (ReadHandle l)
  | WriteFS => l ← canonical_all (write_roots caps); Ok (WriteHandle l)
  | Exec => l ← canonical_all (executables caps); Ok (ExecHandle l)
  end.

Definition kwargs (t : HostTool) (args : dict) (caps : Capabilities) : res (list (string * argument)) :=
  foldM (λ acc pc, h ← handle caps pc.2; Ok (dset acc pc.1 h))
    (map (λ kv, (kv.1, Arg kv.2)) args) (capability_params t).

Definition error_result (message : string) : ToolResult :=
  {| result_value := PDict [(VStr "error", POther (VStr message))];
     rendered := Some message; is_error := true |}.

(** The end of the call, rendered. *)
Definition answer (c : call_end) : invoke_end :=
  match c with
  | CallCancelled => InvokeCancelled
  | Raised exception message => Invoked (error_result (exception +:+ ": " +:+ message))
  | ReturnedResult r => Invoked r
  | ReturnedObject x =>
      let v := to_jsonable x in
      match render with
      | None => Invoked {| result_value := v; rendered := None; is_error := false |}
      | Some f =>
          match f v with
          | Ok text => Invoked {| result_value := v; rendered := Some text; is_error := false |}
          | Err e => Escaped e
          end
      end
  end.

Definition invoke (t : HostTool) (args : dict) (caps : Capabilities) : invoke_end :=
  match kwargs t args caps with
  | Err e => Escaped e
  | Ok k => answer (call k)
  end.
End invoke.

(** ** Lemmas *)

Lemma strengthen_ranks e p c :
  EFFECT_RANK e ≤ EFFECT_RANK (strengthen e (p, c)) ∧
  EFFECT_RANK (CAPABILITY_EFFECT c) ≤ EFFECT_RANK (strengthen e (p, c)) ∧
  (strengthen e (p, c) = e ∨ strengthen e (p, c) = CAPABILITY_EFFECT c).
Proof.
  unfold strengthen. cbn [snd].
  destruct (Nat.ltb_spec (EFFECT_RANK e) (EFFECT_RANK (CAPABILITY_EFFECT c))); auto with lia.
Qed.

Lemma effect_fold (caps : list (string * capability)) e0 :
  EFFECT_RANK e0 ≤ EFFECT_RANK (fold_left strengthen caps e0) ∧
  (∀ p c, (p, c) ∈ caps → EFFECT_RANK (CAPABILITY_EFFECT c) ≤ EFFECT_RANK (fold_left strengthen caps e0)) ∧
  (fold_left strengthen caps e0 = e0 ∨
   ∃ p c, (p, c) ∈ caps ∧ CAPABILITY_EFFECT c = fold_left strengthen caps e0).
Proof.
  revert e0. induction caps as [|[p c] caps IH]; intros e0; cbn [fold_left].
  - split_and!; [lia|by intros ? ? ?%elem_of_nil|by left].
  - destruct (IH (strengthen e0 (p, c))) as (H1 & H2 & H3).
    destruct (strengthen_ranks e0 p c) as (Ha & Hb & Hc). split_and!; [lia| |].
    + intros p' c' [[= -> ->]|Hin]%elem_of_cons; [lia|by eapply H2].
    + destruct H3 as [->|(p' & c' & Hin & He)]; [|right; exists p', c'; rewrite elem_of_cons; auto].
      destruct Hc as [->| ->]; [by left|]. right. exists p, c. rewrite elem_of_cons. auto.
Qed.

(** A tool's effect is the strongest of the handles it asks for: no
    handle has a higher rank, and the effect is pure or that of one of them. *)
Theorem tool_effect_strongest repr fn doc name desc instr t :
  make_tool repr fn doc name desc instr = Ok t →
  capability_params t = capabilities_of (fn_hints fn) ∧
  (∀ p c, (p, c) ∈ capability_params t →
     EFFECT_RANK (CAPABILITY_EFFECT c) ≤ EFFECT_RANK (spec_effect (spec t))) ∧
  (spec_effect (spec t) = pure ∨
   ∃ p c, (p, c) ∈ capability_params t ∧ CAPABILITY_EFFECT c = spec_effect (spec t)).
Proof.
  unfold make_tool. intros (r & _ & H)%res_bind_ok. destruct r as [d|]; [|done].
  apply res_bind_ok in H as ([] & _ & H). apply res_bind_ok in H as (s & _ & [= <-]). simpl.
  destruct (effect_fold (capabilities_of (fn_hints fn)) pure) as (_ & H2 & H3).
  split_and!; [done|exact H2|exact H3].
Qed.

Lemma param_step_inv repr fn skip ps st st' :
  foldM (param_step repr fn skip) st ps = Ok st' → NoDup (keys st.1 ++ map param_name ps) →
  keys st'.1 = keys st.1 ++ filter (λ n, elem_str n skip = false) (map param_name ps) ∧
  st'.2 = st.2 ++ map param_name (filter (λ p, elem_str (param_name p) skip = false ∧ has_default p = false) ps) ∧
  (∀ k s, assoc st'.1 k = Some s → assoc st.1 k = Some s ∨
     ∃ a, assoc (fn_hints fn) k = Some a ∧ schema_for repr a = Ok s).
Proof.
  revert st. induction ps as [|p ps IH]; intros [props req] H Hn.
  - injection H as <-. simpl. rewrite !app_nil_r. auto.
  - simpl in H. apply res_bind_ok in H as (st1 & H1 & H). unfold param_step in H1.
    simpl map in Hn |- *. destruct (elem_str (param_name p) skip) eqn:Ek.
    + injection H1 as <-. rewrite !filter_cons_False by (rewrite Ek; intros [??] || intros ?; done).
      apply IH; [done|]. simpl in *.
      apply NoDup_app in Hn as (Ha & Hd & [_ Hb]%NoDup_cons). apply NoDup_app. split_and!; [done| |done].
      intros x Hx Hx'. apply (Hd x Hx). set_solver.
    + apply res_bind_ok in H1 as ([] & _ & H1).
      destruct (assoc (fn_hints fn) (param_name p)) as [a|] eqn:Ea; [|done].
      apply res_bind_ok in H1 as (s & Hs & [= <-]).
      assert (param_name p ∉ keys props) as Hf.
      { apply NoDup_app in Hn as (_ & Hd & _). intros Hx. apply (Hd _ Hx). simpl. set_solver. }
      destruct (IH _ H) as (Hk & Hr & Hl).
      { simpl. rewrite keys_dset_notin by done. by rewrite <-app_assoc. }
      simpl in Hk, Hr, Hl. rewrite Hk, Hr, keys_dset_notin, filter_cons_True by done.
      split_and!.
      * simpl. by rewrite <-app_assoc.
      * simpl. destruct (has_default p) eqn:Ed.
        -- by rewrite filter_cons_False by (rewrite Ed; naive_solver).
        -- rewrite filter_cons_True by done. simpl. by rewrite <-app_assoc.
      * intros k s' Hk'. destruct (Hl k s' Hk') as [Hin|?]; [|auto].
        destruct (decide (param_name p = k)) as [<-|Hne].
        -- rewrite assoc_dset_eq in Hin. injection Hin as <-. eauto.
        -- rewrite assoc_dset_ne in Hin by done. auto.
Qed.

(** The model sees exactly the arguments it must supply: the
    parameters schema of a tool declares the function's parameters without the
    capability handles, in order, each under the schema of its annotation,
    requires exactly those without a default, and admits no other key. *)
Theorem tool_params_exact repr fn doc name desc instr t :
  make_tool repr fn doc name desc instr = Ok t → NoDup (map param_name (fn_params fn)) →
  let handles := keys (capabilities_of (fn_hints fn)) in
  let required := map param_name
    (filter (λ p, elem_str (param_name p) handles = false ∧ has_default p = false) (fn_params fn)) in
  ∃ props,
    params (spec t) =
      [("type", VStr "object"); ("properties", VDict props)]
      ++ match required with [] => [] | l => [("required", VList (map VStr l))] end
      ++ [("additionalProperties", VBool false)] ∧
    keys props = filter (λ n, elem_str n handles = false) (map param_name (fn_params fn)) ∧
    ∀ k s, assoc props k = Some s → ∃ a, assoc (fn_hints fn) k = Some a ∧ schema_for repr a = Ok s.
Proof.
  intros H Hn handles required. unfold make_tool in H. apply res_bind_ok in H as (r & _ & H).
  destruct r as [d|]; [|done].
  apply res_bind_ok in H as ([] & _ & H). apply res_bind_ok in H as (s & Hs & [= <-]).
  unfold params_schema in Hs. apply res_bind_ok in Hs as ([props req] & Hp & [= <-]).
  apply param_step_inv in Hp as (Hk & Hr & Hl); [|done].
  exists props. simpl in *. subst req. split_and!; [done|done|].
  intros k s Hk'. destruct (Hl k s Hk') as [Hx|?]; [done|done].
Qed.

(** A failing tool is an answer: whatever the function raises becomes
    an error result that carries the exception's type and text, and a value it
    returns is answered as plain data, not as an error.  What is not covered is
    the building of the handles and the renderer: [invoke] raises exactly when
    one of those does. *)
Theorem invoke_answers realpath call render t args caps :
  let r := invoke realpath call render t args caps in
  (∀ k exception message, kwargs realpath t args caps = Ok k → call k = Raised exception message →
     r = Invoked (error_result (exception +:+ ": " +:+ message))) ∧
  (∀ k x res, kwargs realpath t args caps = Ok k → call k = ReturnedObject x → r = Invoked res →
     result_value res = to_jsonable x ∧ plain (result_value res) = true ∧ is_error res = false) ∧
  (∀ e, r = Escaped e ↔ kwargs realpath t args caps = Err e ∨
     ∃ k x f, kwargs realpath t args caps = Ok k ∧ call k = ReturnedObject x ∧
       render = Some f ∧ f (to_jsonable x) = Err e).
Proof.
  intros r. unfold r, invoke, answer. destruct (kwargs realpath t args caps) as [k|e0]; simpl.
  2:{ split_and!; [done|done|]. intros e. naive_solver. }
  split_and!.
  - by intros ? ? ? [= <-] ->.
  - intros ? x res [= <-] -> Hres. assert (result_value res = to_jsonable x ∧ is_error res = false) as [Hv He].
    { destruct render as [f|]; [destruct (f _)|]; by simplify_eq. }
    split_and!; [done| |done]. rewrite Hv. apply to_jsonable_is_plain.
  - intros e. destruct (call k) as [r0|x|ex m|] eqn:Ec.
    2:{ split.
        - destruct render as [f|]; [|done]. destruct (f (to_jsonable x)) eqn:Ef; [done|].
          intros [= <-]. right. by exists k, x, f.
        - intros [?|(k' & x' & f' & [= <-] & Hc & -> & Hf)]; [done|].
          rewrite Ec in Hc. injection Hc as <-. by rewrite Hf. }
    all: split; [done|intros [?|(? & ? & ? & ? & ? & _)]; congruence].
Qed.

(** ** The claims at a concrete tool *)

Definition example_function : function := {|
  fn_name := "count";
  fn_hints := [("path", AStr); ("limit", AInt); ("fs", AOther "<class 'foe._capabilities.ReadFS'>")];
  fn_params := [{| param_name := "path"; kind := Plain; has_default := false |};
                {| param_name := "limit"; kind := Plain; has_default := true |};
                {| param_name := "fs"; kind := Plain; has_default := false |}];
|}.

Lemma tool_effect_strongest_witness :
  ∃ t, make_tool (λ _, "") example_function (Some "Count the lines.") None None None = Ok t ∧
    (spec_effect (spec t) = pure ∨
     ∃ p c, (p, c) ∈ capability_params t ∧ CAPABILITY_EFFECT c = spec_effect (spec t)).
Proof.
  eexists. split; [vm_compute; reflexivity|].
  apply (tool_effect_strongest (λ _, "") example_function (Some "Count the lines.") None None None).
  vm_compute. reflexivity.
Defined.

Lemma tool_params_exact_witness :
  ∃ t props, make_tool (λ _, "") example_function (Some "Count the lines.") None None None = Ok t ∧
    params (spec t) = [("type", VStr "object"); ("properties", VDict props);
                       ("required", VList [VStr "path"]); ("additionalProperties", VBool false)] ∧
    keys props = ["path"; "limit"].
Proof.
  eexists.
  destruct (tool_params_exact (λ _, "") example_function (Some "Count the lines.") None None None)
    with (t := match make_tool (λ _, "") example_function (Some "Count the lines.") None None None with
               | Ok t => t | Err _ => {| spec := {| spec_name := ""; description := ""; instruction := None;
                                                    params := []; spec_effect := pure |};
                                         capability_params := [] |} end)
    as (props & Hp & Hk & _); [vm_compute; reflexivity| |].
  - apply (bool_decide_unpack _). vm_compute. exact I.
  - exists props. split; [vm_compute; reflexivity|]. split; [exact Hp|exact Hk].
Defined.
