(* ===== verification/Host.v ===== *)
(** * The host side of the protocol

    src/python/foe/_host.py: the checks [start_config] makes before it launches
    the binary, the reader of the binary's events, and the tasks that answer
    model requests and tool calls.  The process, the pipes and the event loop
    are not modelled: the lines the binary writes are the input, the lines the
    host writes are the output, and what the model backend and the tools
    produce are parameters.  Tasks run interleaved with the reader: the last
    part is a step relation. *)

From Stdlib Require Import Ascii.
From stdpp Require Import base list sets strings pretty.
From Stdlib Require Import ZArith Lia.
From S2P Require Import Prelude PyValue PyText PyJson PyPath TraceOutcome Schema Outcome Tools.

(** ** The contract tree *)

Fixpoint lstrip_dots (s : string) : string :=
  match s with String "."%char s' => lstrip_dots s' | _ => s end.
(** [prefix.rstrip(".")]. *)
Definition rstrip_dots (s : string) : string := str_rev (lstrip_dots (str_rev s)).

(** Results under keys, in the order of the keys: the first failure wins. *)
Definition in_key_order {A} (l : list (string * res (list A))) : res (list A) :=
  r ← map_res (λ kr, kr.2) (sorted_items l); Ok (concat r).

(** [(d.get(key) or {}).items()] through [f]. *)
Definition each_item {A} (key : string) (f : string → value → res (list A)) (doc : dict) : res (list A) :=
  with_key key (λ v,
    if truthy v then
      match v with
      | VDict items => in_key_order (map (λ kv, (kv.1, f kv.1 kv.2)) items)
      | _ => Err (AttributeError ("'" +:+ type_name v +:+ "' object has no attribute 'items'"))
      end
    else Ok []) (Ok []) doc.

Fixpoint contract_tree (v : value) (prefix : string) (workflow : bool) {struct v}
    : res (list (string * dict)) :=
  match v with
  | VDict doc =>
      if workflow then
        each_item "nodes" (λ key node,
          match node with
          | VDict n =>
              let child kind := with_key kind (λ c, match c with
                | VDict _ => contract_tree c (prefix +:+ "nodes." +:+ key +:+ "." +:+ kind +:+ ".")
                               (String.eqb kind "workflow")
                | _ => Ok [] end) (Ok []) n in
              m ← child "model"; w ← child "workflow"; Ok (m ++ w)
          | _ => Ok []
          end) doc
      else
        children ← each_item "child_contracts" (λ key child,
          contract_tree child (prefix +:+ "child_contracts." +:+ key +:+ ".") false) doc;
        below ← with_key "workflow" (λ c, match c with
          | VDict _ => contract_tree c (prefix +:+ "workflow.") true | _ => Ok [] end) (Ok []) doc;
        Ok ((rstrip_dots prefix, doc) :: children ++ below)
  | _ => Err (AttributeError ("'" +:+ type_name v +:+ "' object has no attribute 'get'"))
  end.

(** [_load_config]: a document, or the path and the text of a file. *)
Definition load_config (config : dict + string * string) : res dict :=
  match config with
  | inl d => Ok d
  | inr (path, text) =>
      match loads_text accept_constant text with
      | inl (VDict d) => Ok d
      | inl _ => Err (ValueError (path +:+ ": the configuration document must be a JSON object"))
      | inr (At msg rest) => Err (ValueError (decode_error_str text msg rest))
      | inr (PyJson.Raised msg) => Err (ValueError msg)
      end
  end.

(** ** Pairing *)

Definition pairing_error (first : Event) : res (option string) :=
  if negb (String.eqb (type first) "episode/start") then
    Ok (Some ("protocol: the first line is " +:+ str_repr (type first)
              +:+ ", and docs/protocol.md makes it episode/start"))
  else
    let stated := default UNSTATED_LOG_FORMAT_VERSION (version first) in
    if negb (stated =? LOG_FORMAT_VERSION)%Z then
      Ok (Some ("log format: the binary writes version " +:+ Z_str stated
                +:+ " and this package reads version " +:+ Z_str LOG_FORMAT_VERSION))
    else
      runtime ← as_mapping (py_or (dget (data first) "runtime") (VDict []));
      let v := py_str (dget_or runtime "version" (VStr "")) in
      Ok (if protocol_agrees v then None
          else Some ("protocol: the binary states runtime version " +:+ str_repr v
                     +:+ " and this package speaks the protocol of runtime " +:+ PROTOCOL_VERSION)).

(** ** Starting *)

Record start_options : Type := {
  viewer : string;
  has_backend : bool;
  implementations : list string;
}.

(** [{name for _, child in contracts for name in child.get("host_tools") or {}}]. *)
Definition declared_host_tools (contracts : list (string * dict)) : res (list value) :=
  foldM (λ acc nc,
    l ← py_iter (py_or (dget nc.2 "host_tools") (VDict []));
    foldM (λ acc v, if hashable v then Ok (acc ++ [v]) else Err (unhashable v)) acc l) [] contracts.

(** The checks of [start_config]: the document and the names the host serves. *)
Definition check_start (doc : dict) (o : start_options) : res () :=
  raise_if (negb (elem_str (viewer o) ["off"; "serve"]))
    (ValueError ("viewer is 'off' or 'serve', not " +:+ str_repr (viewer o)
                 +:+ ": a library call opens no browser"));;
  raise_if (negb (has_key doc "task")) (ValueError "config: `task` is required");;
  let host_calls_the_model := negb (has_key doc "model") in
  raise_if (host_calls_the_model && negb (has_backend o))
    (ValueError ("config: a document with no `model` block leaves the model to this host, "
                 +:+ "which needs a model backend"));;
  raise_if (negb host_calls_the_model && has_backend o)
    (ValueError ("config: a document with a `model` block directs foe to call the configured endpoint, "
                 +:+ "which takes no model backend"));;
  contracts ← contract_tree (VDict doc) "" false;
  let nested := if host_calls_the_model
    then map fst (filter (λ nc, negb (String.eqb nc.1 "") && has_key nc.2 "model" = true) contracts)
    else [] in
  raise_if (match nested with [] => false | _ => true end)
    (ValueError ("model: " +:+ join ", " nested +:+ " declares a `model` block while the document leaves the "
                 +:+ "model to this host; one owner must serve model calls throughout the contract tree"));;
  declared ← declared_host_tools contracts;
  missing ← sorted_unique
    (filter (λ v, match v with VStr s => negb (elem_str s (implementations o)) | _ => true end = true) declared);
  match missing with
  | [] => Ok ()
  | _ => names ← py_join ", " missing;
         Err (ValueError ("host_tools: no implementation was supplied for " +:+ names))
  end.

(** The command line of the launch. *)
Definition launch_argv (binary config_path log_parent : string) (answers_fd events_fd : Z) (viewer : string)
    : list string :=
  [binary; "--config"; config_path; "--log-dir"; log_parent;
   "--protocol-fds"; Z_str answers_fd +:+ "," +:+ Z_str events_fd; "--viewer"; viewer].

(** ** The handle *)

Record handle : Type := {
  headers : list ((option string * Z) * dict);
  spawned : list Event;
  outcome_known : option outcome;
  pairing : option string;
  start_known : bool;
  handle_id : option string;
  log_dir : option string;
  runtime : option Runtime;
  delivered : list Event;
  cancels : nat;
}.
Definition new_handle : handle := {|
  headers := []; spawned := []; outcome_known := None; pairing := None; start_known := false;
  handle_id := None; log_dir := None; runtime := None; delivered := []; cancels := 0 |}.

Definition set_header k d (h : handle) : handle :=
  {| headers := (k, d) :: headers h; spawned := spawned h; outcome_known := outcome_known h;
     pairing := pairing h; start_known := start_known h; handle_id := handle_id h;
     log_dir := log_dir h; runtime := runtime h; delivered := delivered h; cancels := cancels h |}.
Definition add_spawned e (h : handle) : handle :=
  {| headers := headers h; spawned := spawned h ++ [e]; outcome_known := outcome_known h;
     pairing := pairing h; start_known := start_known h; handle_id := handle_id h;
     log_dir := log_dir h; runtime := runtime h; delivered := delivered h; cancels := cancels h |}.
Definition set_outcome o (h : handle) : handle :=
  {| headers := headers h; spawned := spawned h; outcome_known := Some o;
     pairing := pairing h; start_known := start_known h; handle_id := handle_id h;
     log_dir := log_dir h; runtime := runtime h; delivered := delivered h; cancels := cancels h |}.
Definition set_pairing p (h : handle) : handle :=
  {| headers := headers h; spawned := spawned h; outcome_known := outcome_known h;
     pairing := p; start_known := start_known h; handle_id := handle_id h;
     log_dir := log_dir h; runtime := runtime h; delivered := delivered h; cancels := cancels h |}.
Definition set_started i l r (h : handle) : handle :=
  {| headers := headers h; spawned := spawned h; outcome_known := outcome_known h;
     pairing := pairing h; start_known := true; handle_id := Some i;
     log_dir := Some l; runtime := Some r; delivered := delivered h; cancels := cancels h |}.
Definition deliver e (h : handle) : handle :=
  {| headers := headers h; spawned := spawned h; outcome_known := outcome_known h;
     pairing := pairing h; start_known := start_known h; handle_id := handle_id h;
     log_dir := log_dir h; runtime := runtime h; delivered := delivered h ++ [e]; cancels := cancels h |}.
(** A [cancel] line written by the reader. *)
Definition add_cancel (h : handle) : handle :=
  {| headers := headers h; spawned := spawned h; outcome_known := outcome_known h;
     pairing := pairing h; start_known := start_known h; handle_id := handle_id h;
     log_dir := log_dir h; runtime := runtime h; delivered := delivered h; cancels := S (cancels h) |}.

Definition is_root (tag : option string) : bool := match tag with None => true | Some _ => false end.

Definition tag_eqb (a b : option string * Z) : bool :=
  bool_decide (a.1 = b.1) && (a.2 =? b.2)%Z.
Definition header_of (h : handle) (k : option string * Z) : option dict :=
  snd <$> find (λ kd, tag_eqb kd.1 k) (headers h).

Section reader.
Variable log_parent : string.
(** Whether the host supplies the model backend. *)
Variable backend : bool.

Definition dispatch (h : handle) (e : Event) : res (handle * bool) :=
  let tag := ev_episode_id e in
  if String.eqb (type e) "episode/start" && is_root tag then
    let id := py_str (dget (data e) "id") in
    runtime ← as_mapping (py_or (dget (data e) "runtime") (VDict []));
    Ok (set_started id (path_join log_parent id)
          {| runtime_version := py_str (dget_or runtime "version" (VStr ""));
             runtime_build := py_str (dget_or runtime "build" (VStr "")) |} h, false)
  else if String.eqb (type e) "request/header" then Ok (set_header (tag, seq e) (data e) h, false)
  else if String.eqb (type e) "model/request" && backend then Ok (add_spawned e h, false)
  else if String.eqb (type e) "host/tool-call" then Ok (add_spawned e h, false)
  else if String.eqb (type e) "episode/end" && is_root tag then
    d ← as_mapping (py_or (dget (data e) "outcome") (VDict []));
    o ← outcome_from_json d;
    Ok (set_outcome o h, true)
  else Ok (h, false).

(** The exceptions the reader catches around the decoding of a line. *)
Definition caught (e : exn) : bool :=
  match e with ValueError _ | KeyError _ | TypeError _ | ConfigError _ => true | _ => false end.

Definition decode_line (raw : string) : res Event :=
  match loads_bytes accept_constant raw with
  | inl v => Event_from_json v
  | inr e => Err (ValueError (load_error_str e))
  end.

(** One turn of the loop; the flag says the loop ends. *)
Definition read_line (number : nat) (h : handle) (raw : string) : res (handle * bool) :=
  match decode_line raw with
  | Err e =>
      if caught e then
        Ok (add_cancel (set_outcome (Failed ("protocol: line " +:+ nat_str number
                          +:+ " from foe is not a log event: " +:+ exn_str e)) h), true)
      else Err e
  | Ok e =>
      problem ← if number =? 1 then pairing_error e else Ok None;
      let h := if number =? 1 then set_pairing problem h else h in
      match problem with
      | Some p => Ok (add_cancel (set_outcome (Failed p) h), true)
      | None => dispatch (deliver e h) e
      end
  end.

(** The loop over the lines the binary wrote before it closed the pipe.  An
    exception that leaves the loop keeps the state it left. *)
Fixpoint read_loop (number : nat) (h : handle) (lines : list string) : handle * option exn :=
  match lines with
  | [] => (h, None)
  | raw :: lines =>
      match read_line number h raw with
      | Err e => (h, Some e)
      | Ok (h', true) => (h', None)
      | Ok (h', false) => read_loop (S number) h' lines
      end
  end.

(** [_shutdown], once the process has exited with [code]. *)
Definition shutdown (h : handle) (code : Z) : handle :=
  let h := match outcome_known h with
    | Some _ => h
    | None => set_outcome (Failed ("foe exited with code " +:+ Z_str code +:+ " before episode/end")) h
    end in
  {| headers := headers h; spawned := spawned h; outcome_known := outcome_known h;
     pairing := pairing h; start_known := true; handle_id := handle_id h;
     log_dir := log_dir h; runtime := runtime h; delivered := delivered h; cancels := cancels h |}.

(** The reader task: its final state and the exception it ends with. *)
Definition reader (lines : list string) (code : Z) : handle * option exn :=
  let '(h, e) := read_loop 1 new_handle lines in (shutdown h code, e).

(** [wait]: the reader's exception, or the outcome. *)
Definition wait (lines : list string) (code : Z) : res outcome :=
  match reader lines code with
  | (_, Some e) => Err e
  | (h, None) => match outcome_known h with
                 | Some o => Ok o
                 | None => Err (AttributeError "AssertionError")
                 end
  end.
End reader.

(** ** Answers *)

(** What a model backend yields: chunks, then an end or an exception. *)
Record backend_run : Type := { chunks : list dict; failure : option (string * string) }.

(** The envelope of a line, tagged with the child episode it answers. *)
Definition envelope (request_id : string) (tag : option string) (chunk : dict) : dict :=
  [("type", VStr "model/chunk"); ("request_id", VStr request_id)]
  ++ match tag with Some t => [("episode_id", VStr t)] | None => [] end
  ++ [("chunk", VDict chunk)].

Definition error_chunk (message : string) : dict :=
  [("kind", VStr "error"); ("message", VStr message); ("retryable", VBool false)].

Definition is_terminal (chunk : dict) : bool :=
  is_string "done" (dget chunk "kind") || is_string "error" (dget chunk "kind").

(** The chunks written for a run: a chunk after the terminal one is refused,
    and a run without one gets an error chunk. *)
Fixpoint served_chunks (terminal : bool) (l : list dict) (failure : option (string * string)) : list dict :=
  match l with
  | [] =>
      if terminal then []
      else match failure with
           | Some (t, m) => [error_chunk (t +:+ ": " +:+ m)]
           | None => [error_chunk "model backend ended without a done or error chunk"]
           end
  | c :: l => if terminal then [] else c :: served_chunks (is_terminal c) l failure
  end.

(** [min(caps)] over the caps that are integers; the first of equal ones. *)
Definition smaller (best v : value) : value :=
  match as_int best, as_int v with
  | Some a, Some b => if (b <? a)%Z then v else best
  | _, _ => best
  end.
Definition min_cap (caps : list value) : value :=
  match filter (λ v, is_int v = true) caps with
  | [] => VNone
  | c :: l => fold_left smaller l c
  end.

(** The request a backend receives. *)
Definition request_body (request_id : string) (header data : dict) (cap : value) : res dict :=
  tools ← py_iter (py_or (dget header "tools") (VList []));
  messages ← py_iter (py_or (dget data "messages") (VList []));
  Ok [("request_id", VStr request_id); ("system", dget_or header "system" (VStr ""));
      ("tools", VList tools); ("messages", VList messages);
      ("max_output_tokens", min_cap [cap; dget data "max_output_tokens"])].

Section answers.
Variable model_backend : dict → backend_run.
Variable max_output_tokens : value.
Variable tools : list (string * HostTool).
(** One invocation of a registered tool. *)
Variable invoke_tool : HostTool → dict → Tools.Capabilities → invoke_end.
Variable config : dict.

Definition serve_model (h : handle) (e : Event) : res (list dict) :=
  rid ← dict_index (data e) "request_id";
  let request_id := py_str rid in
  let tag := ev_episode_id e in
  hs ← dict_index (data e) "header_seq";
  n ← py_int hs;
  match header_of h (tag, n) with
  | None =>
      Ok [envelope request_id tag (error_chunk ("model/request " +:+ request_id +:+ ": request/header "
            +:+ py_str hs +:+ " was never received"))]
  | Some header =>
      body ← request_body request_id header (data e) max_output_tokens;
      let run := model_backend body in
      Ok (map (envelope request_id tag) (served_chunks false (chunks run) (failure run)))
  end.

(** The grants of the document, as the handles of a call receive them. *)
Definition host_capabilities : res Tools.Capabilities :=
  grants ← as_mapping (py_or (dget config "grants") (VDict []));
  defs ← py_items (py_or (dget config "tool_defs") (VDict []));
  r ← py_iter (py_or (dget grants "read") (VList []));
  w ← py_iter (py_or (dget grants "write") (VList []));
  x ← mapM (λ kd, match kd.2 with
                  | VDict d => dict_index d "exec"
                  | v => Err (TypeError ("'" +:+ type_name v +:+ "' object is not subscriptable")) end) defs;
  Ok {| read_roots := r; write_roots := w; executables := x |}.

(** A key as [json.dumps] writes it. *)
Definition json_key (k : value) : string :=
  match k with
  | VBool b => if b then "true" else "false"
  | VNone => "null"
  | k => py_str k
  end.
(** The value of a result as JSON: what [json.dumps] cannot encode raises. *)
Fixpoint plain_value (x : pyobj) : res value :=
  match x with
  | POther v => Ok v
  | PSeq (KList | KTuple) l => vs ← map_res plain_value l; Ok (VList vs)
  | PDict d => kvs ← map_res (λ kv, v ← plain_value kv.2; Ok (json_key kv.1, v)) d; Ok (VDict kvs)
  | _ => Err (TypeError "Object is not JSON serializable")
  end.

Definition tool_answer (call_id : string) (tag : option string) (r : ToolResult) (v : value) : dict :=
  [("type", VStr "tool/result"); ("call_id", VStr call_id)]
  ++ match tag with Some t => [("episode_id", VStr t)] | None => [] end
  ++ [("value", v)]
  ++ match rendered r with Some s => [("rendered", VStr s)] | None => [] end
  ++ [("is_error", VBool (is_error r))].

(** The line that answers a call; [None] when the task was cancelled. *)
Definition serve_tool (e : Event) : res (option dict) :=
  cid ← dict_index (data e) "call_id";
  nm ← dict_index (data e) "name";
  let name := py_str nm in
  let args := py_or (dget (data e) "args") (VDict []) in
  match assoc tools name with
  | None =>
      let message := "host tool " +:+ str_repr name +:+ " is not registered" in
      let r := error_result message in
      v ← plain_value (result_value r);
      Ok (Some (tool_answer (py_str cid) (ev_episode_id e) r v))
  | Some t =>
      caps ← host_capabilities;
      a ← py_dict args;
      match invoke_tool t a caps with
      | Invoked r => v ← plain_value (result_value r);
                     Ok (Some (tool_answer (py_str cid) (ev_episode_id e) r v))
      | Escaped ex => Err ex
      | InvokeCancelled => Ok None
      end
  end.

(** The lines a spawned task writes, in order. *)
Definition task_lines (h : handle) (e : Event) : res (list dict) :=
  if String.eqb (type e) "model/request" then serve_model h e
  else a ← serve_tool e; Ok (match a with Some l => [l] | None => [] end).
End answers.

(** ** What the person outside writes *)

Definition steer_line (text : string) : dict :=
  [("type", VStr "inbox/item"); ("source", VStr "parent");
   ("content", VList [VDict [("type", VStr "text"); ("text", VStr text)]]);
   ("from", VNone); ("message_id", VNone)].
Definition cancel_line : dict := [("type", VStr "cancel")].

(** One protocol line, as [_write] encodes it. *)
Definition encode_line (obj : dict) : string := dumps_compact (VDict obj) +:+ nl.

(** ** The viewer *)

(** The URL of [foe view --serve], from its first line. *)
Definition viewer_url (line : string) (code : Z) : res string :=
  let first := strip line in
  if String.eqb first "" then
    Err (BinaryError ("foe view --serve exited with code " +:+ Z_str code +:+ " before printing a URL"))
  else if starts_with "{" first then
    let bad := Err (BinaryError ("foe view --serve printed an object without a url: " +:+ first)) in
    match loads_text accept_constant first with
    | inr _ => bad
    | inl (VDict d) => match assoc d "url" with Some u => Ok (py_str u) | None => bad end
    | inl _ => bad
    end
  else Ok first.

(** ** Tasks and the reader, interleaved *)

(** A spawned task: not started, writing the rest of its lines, or ended. *)
Inductive task : Type :=
| Waiting (e : Event)
| Writing (e : Event) (lines : list dict)
| Ended (e : Event).

Record running : Type := {
  hdl : handle;
  number : nat;
  unread : list string;
  stopped : bool;
  tasks : list task;
  (** The lines written, each with the task that wrote it. *)
  output : list (nat * dict);
}.

Section interleaving.
Variable log_parent : string.
Variable backend : bool.
Variable lines_of : handle → Event → res (list dict).

Definition launch (lines : list string) : running :=
  {| hdl := new_handle; number := 1; unread := lines; stopped := false; tasks := []; output := [] |}.

(** The tasks a step of the reader spawned. *)
Definition new_tasks (h h' : handle) : list task := map Waiting (drop (length (spawned h)) (spawned h')).

Definition set_task (i : nat) (t : task) (r : running) : running :=
  {| hdl := hdl r; number := number r; unread := unread r; stopped := stopped r;
     tasks := <[i := t]> (tasks r); output := output r |}.
Definition write_line (i : nat) (l : dict) (r : running) : running :=
  {| hdl := hdl r; number := number r; unread := unread r; stopped := stopped r;
     tasks := tasks r; output := output r ++ [(i, l)] |}.

Inductive step : running → running → Prop :=
| step_read r raw rest h' b :
    stopped r = false → unread r = raw :: rest →
    read_line log_parent backend (number r) (hdl r) raw = Ok (h', b) →
    step r {| hdl := h'; number := S (number r); unread := rest; stopped := b;
              tasks := tasks r ++ new_tasks (hdl r) h'; output := output r |}
| step_escape r raw rest ex :
    stopped r = false → unread r = raw :: rest →
    read_line log_parent backend (number r) (hdl r) raw = Err ex →
    step r {| hdl := hdl r; number := number r; unread := rest; stopped := true;
              tasks := tasks r; output := output r |}
| step_start r i e ls :
    tasks r !! i = Some (Waiting e) → lines_of (hdl r) e = Ok ls →
    step r (set_task i (Writing e ls) r)
| step_fail r i e ex :
    tasks r !! i = Some (Waiting e) → lines_of (hdl r) e = Err ex →
    step r (set_task i (Ended e) r)
| step_write r i e l ls :
    tasks r !! i = Some (Writing e (l :: ls)) →
    step r (write_line i l (set_task i (Writing e ls) r))
| step_cancel r i e ls :
    stopped r = true → tasks r !! i = Some (Writing e ls) →
    step r (set_task i (Ended e) r).

Inductive reachable (lines : list string) : running → Prop :=
| reach_launch : reachable lines (launch lines)
| reach_step r r' : reachable lines r → step r r' → reachable lines r'.
End interleaving.

(** The lines task [i] wrote. *)
Definition written_by (i : nat) (out : list (nat * dict)) : list dict :=
  map snd (filter (λ x, x.1 = i) out).

Definition task_event (t : task) : Event :=
  match t with Waiting e | Writing e _ | Ended e => e end.

(** What holds of each task: its lines, written and to come, are those one look
    at the handle determined. *)
Definition task_right (lines_of : handle → Event → res (list dict)) (t : task) (wrote : list dict) : Prop :=
  match t with
  | Waiting _ => wrote = []
  | Writing e ls => ∃ h, lines_of h e = Ok (wrote ++ ls)
  | Ended e => wrote = [] ∨ ∃ h ls, lines_of h e = Ok (wrote ++ ls)
  end.

Record tasks_inv (lines_of : handle → Event → res (list dict)) (r : running) : Prop := {
  inv_tasks : ∀ i t, tasks r !! i = Some t → task_right lines_of t (written_by i (output r));
  inv_output : ∀ i l, (i, l) ∈ output r → i < length (tasks r);
}.

Lemma written_by_app i out1 out2 :
  written_by i (out1 ++ out2) = written_by i out1 ++ written_by i out2.
Proof. unfold written_by. by rewrite filter_app, map_app. Qed.

Lemma written_by_none i out : (∀ l, (i, l) ∉ out) → written_by i out = [].
Proof.
  intros H. unfold written_by. rewrite filter_none; [done|].
  intros [j l] Hin Hj. simpl in Hj. subst j. by apply (H l).
Qed.

Lemma inv_set_task lines_of i t r :
  tasks_inv lines_of r → i < length (tasks r) →
  task_right lines_of t (written_by i (output r)) → tasks_inv lines_of (set_task i t r).
Proof.
  intros [Ht Ho] Hi Hr. constructor; simpl.
  - intros j u [(-> & -> & _)|[_ Hj]]%list_lookup_insert_Some; [done|by apply Ht].
  - intros j l Hj. rewrite length_insert. by eapply Ho.
Qed.

Lemma tasks_inv_step log_parent backend lines_of r r' :
  tasks_inv lines_of r → step log_parent backend lines_of r r' → tasks_inv lines_of r'.
Proof.
  intros Hinv Hstep. pose proof Hinv as [Ht Ho].
  destruct Hstep as [r raw rest h' b _ _ _|r raw rest ex _ _ _|r i e ls Hi Hl|r i e ex Hi Hl
    |r i e l ls Hi|r i e ls _ Hi].
  - constructor; simpl.
    + intros j t [Hj|[Hlen Hj]]%lookup_app_Some; [by apply Ht|].
      unfold new_tasks in Hj. apply list_elem_of_lookup_2, list_elem_of_fmap in Hj as (e & -> & _).
      simpl. apply written_by_none. intros l Hin. apply Ho in Hin. lia.
    + intros j l Hj. rewrite length_app. apply Ho in Hj. lia.
  - by constructor.
  - pose proof (Ht _ _ Hi) as Hr. simpl in Hr.
    apply inv_set_task; [done|by eapply lookup_lt_Some|]. simpl. exists (hdl r). by rewrite Hr.
  - pose proof (Ht _ _ Hi) as Hr. simpl in Hr.
    apply inv_set_task; [done|by eapply lookup_lt_Some|]. simpl. by left.
  - destruct (Ht _ _ Hi) as (h & Hh). assert (i < length (tasks r)) as Hlt by (by eapply lookup_lt_Some).
    constructor; simpl.
    + intros j t. rewrite written_by_app. intros [(-> & <- & _)|[Hne Hj]]%list_lookup_insert_Some.
      * exists h. unfold written_by at 2. rewrite filter_cons_True by done. simpl.
        by rewrite <-app_assoc.
      * assert (written_by j [(i, l)] = []) as ->
          by (unfold written_by; by rewrite filter_cons_False by (simpl; congruence)).
        rewrite app_nil_r. by apply Ht.
    + intros j l' [Hj|[= -> ->]%list_elem_of_singleton]%elem_of_app; rewrite length_insert; [by eapply Ho|done].
  - destruct (Ht _ _ Hi) as (h & Hh).
    apply inv_set_task; [done|by eapply lookup_lt_Some|]. simpl. right. eauto.
Qed.

Lemma reachable_inv log_parent backend lines_of lines r :
  reachable log_parent backend lines_of lines r → tasks_inv lines_of r.
Proof.
  induction 1 as [|r r' _ IH Hstep]; [|by eapply tasks_inv_step].
  constructor; simpl; [done|]. intros i l Hin. by apply elem_of_nil in Hin.
Qed.

(** ** The stream of one request *)

(** A well-formed response: chunks of one request under one tag, of which
    exactly the last one is [done] or [error]. *)
Definition response_stream (request_id : string) (tag : option string) (l : list dict) : Prop :=
  ∃ cs c, l = map (envelope request_id tag) (cs ++ [c]) ∧
    Forall (λ c, is_terminal c = false) cs ∧ is_terminal c = true.

Lemma served_chunks_stream l failure :
  ∃ cs c, served_chunks false l failure = cs ++ [c] ∧
    Forall (λ c, is_terminal c = false) cs ∧ is_terminal c = true.
Proof.
  induction l as [|c l (cs & c' & IH & Hcs & Hc')]; simpl.
  - destruct failure as [[t m]|]; eexists [], _; by repeat split.
  - destruct (is_terminal c) eqn:Ec.
    + exists [], c. destruct l; done.
    + rewrite IH. exists (c :: cs), c'. split_and!; [done|by constructor|done].
Qed.

Lemma serve_model_stream mb cap h e ls :
  serve_model mb cap h e = Ok ls →
  ∃ rid, dict_index (data e) "request_id" = Ok rid ∧ response_stream (py_str rid) (ev_episode_id e) ls.
Proof.
  unfold serve_model. intros (rid & Hr & H)%res_bind_ok. exists rid. split; [done|].
  apply res_bind_ok in H as (hs & _ & H). apply res_bind_ok in H as (n & _ & H).
  destruct (header_of h _) as [header|].
  - apply res_bind_ok in H as (body & _ & [= <-]).
    destruct (served_chunks_stream (chunks (mb body)) (failure (mb body))) as (cs & c & -> & ? & ?).
    by exists cs, c.
  - injection H as <-. by eexists [], _.
Qed.

(** Claim C3. Every model request is answered by one well-formed stream: however
    reader and tasks interleave, what the host has written for a request is the
    beginning of a stream of chunks under its id and tag in which exactly the
    last chunk is [done] or [error], and when the task has written all it had,
    it is the whole stream.  So a backend that fails, stops early or goes on
    after its end still yields one terminal chunk and nothing after it. *)
Theorem model_answers_well_formed log_parent backend mb cap tools invoke_tool config lines r i t :
  reachable log_parent backend (task_lines mb cap tools invoke_tool config) lines r →
  tasks r !! i = Some t → type (task_event t) = "model/request" →
  written_by i (output r) = [] ∨
  ∃ rid whole, dict_index (data (task_event t)) "request_id" = Ok rid ∧
    response_stream (py_str rid) (ev_episode_id (task_event t)) whole ∧
    written_by i (output r) `prefix_of` whole ∧
    (t = Writing (task_event t) [] → written_by i (output r) = whole).
Proof.
  intros Hr Hi Ht. pose proof (inv_tasks _ _ (reachable_inv _ _ _ _ _ Hr) _ _ Hi) as H.
  assert (∀ h ls, task_lines mb cap tools invoke_tool config h (task_event t) = Ok (written_by i (output r) ++ ls) →
    ∃ rid whole, dict_index (data (task_event t)) "request_id" = Ok rid ∧
      response_stream (py_str rid) (ev_episode_id (task_event t)) whole ∧
      whole = written_by i (output r) ++ ls) as Hgo.
  { intros h ls Hl. unfold task_lines in Hl. rewrite Ht in Hl. simpl in Hl.
    destruct (serve_model_stream _ _ _ _ _ Hl) as (rid & ? & ?). eauto. }
  destruct t as [e|e ls|e]; simpl in *.
  - by left.
  - right. destruct H as (h & Hh). destruct (Hgo h ls Hh) as (rid & whole & ? & ? & ->).
    exists rid, (written_by i (output r) ++ ls). split_and!; [done|done|by apply prefix_app_r|].
    intros [= ->]. by rewrite app_nil_r.
  - destruct H as [H|(h & ls & Hh)]; [by left|]. right.
    destruct (Hgo h ls Hh) as (rid & whole & ? & ? & ->).
    exists rid, (written_by i (output r) ++ ls). split_and!; [done|done|by apply prefix_app_r|done].
Qed.

(** A tool call is answered at most once, by one [tool/result] under
    its call id and tag, however reader and tasks interleave. *)
Theorem tool_answered_once log_parent backend mb cap tools invoke_tool config lines r i t l :
  reachable log_parent backend (task_lines mb cap tools invoke_tool config) lines r →
  tasks r !! i = Some t → type (task_event t) = "host/tool-call" →
  l ∈ written_by i (output r) →
  written_by i (output r) = [l] ∧ dget l "type" = VStr "tool/result" ∧
  (∃ cid, dict_index (data (task_event t)) "call_id" = Ok cid ∧ dget l "call_id" = VStr (py_str cid)) ∧
  dget l "episode_id" = match ev_episode_id (task_event t) with Some s => VStr s | None => VNone end.
Proof.
  intros Hr Hi Ht Hl. pose proof (inv_tasks _ _ (reachable_inv _ _ _ _ _ Hr) _ _ Hi) as H.
  assert (∀ h ls, task_lines mb cap tools invoke_tool config h (task_event t) = Ok (written_by i (output r) ++ ls) →
    ∃ cid res v, dict_index (data (task_event t)) "call_id" = Ok cid ∧
      written_by i (output r) = [tool_answer (py_str cid) (ev_episode_id (task_event t)) res v]) as Hgo.
  { intros h ls Hls. unfold task_lines in Hls. rewrite Ht in Hls. simpl in Hls.
    apply res_bind_ok in Hls as (a & Ha & [= Heq]). unfold serve_tool in Ha.
    apply res_bind_ok in Ha as (cid & Hc & Ha). apply res_bind_ok in Ha as (nm & _ & Ha).
    destruct (written_by i (output r)) as [|x w] eqn:Ew; [by apply elem_of_nil in Hl|].
    destruct a as [a|]; [|done]. injection Heq as -> [-> ->]%symmetry%app_nil.
    destruct (assoc tools (py_str nm)) as [tl|].
    - apply res_bind_ok in Ha as (caps & _ & Ha). apply res_bind_ok in Ha as (args & _ & Ha).
      destruct (invoke_tool tl args caps) as [res|ex|]; [|done|done].
      apply res_bind_ok in Ha as (v & _ & [= <-]). by exists cid, res, v.
    - apply res_bind_ok in Ha as (v & _ & [= <-]). by eexists cid, _, v. }
  assert (∃ cid res v, dict_index (data (task_event t)) "call_id" = Ok cid ∧
    written_by i (output r) = [tool_answer (py_str cid) (ev_episode_id (task_event t)) res v])
    as (cid & res & v & Hc & Hw).
  { destruct t as [e|e ls|e]; simpl in *.
    - rewrite H in Hl. by apply elem_of_nil in Hl.
    - destruct H as (h & Hh). by apply (Hgo h ls).
    - destruct H as [H|(h & ls & Hh)]; [rewrite H in Hl; by apply elem_of_nil in Hl|]. by apply (Hgo h ls). }
  rewrite Hw in Hl |- *. apply list_elem_of_singleton in Hl as ->. split_and!; [done|done|eauto|].
  unfold tool_answer, dget. by destruct (ev_episode_id (task_event t)), (rendered res).
Qed.

(** ** The reader settles *)

(** An event that pairs with the package. *)
Definition pairs (e : Event) : Prop :=
  type e = "episode/start" ∧ default UNSTATED_LOG_FORMAT_VERSION (version e) = LOG_FORMAT_VERSION ∧
  ∃ runtime, as_mapping (py_or (dget (data e) "runtime") (VDict [])) = Ok runtime ∧
    protocol_agrees (py_str (dget_or runtime "version" (VStr ""))) = true.

Lemma pairing_error_none e : pairing_error e = Ok None ↔ pairs e.
Proof.
  unfold pairing_error, pairs. destruct (String.eqb_spec (type e) "episode/start") as [Ht|Ht]; simpl;
    [|split; [done|by intros [? _]]].
  destruct (Z.eqb_spec (default UNSTATED_LOG_FORMAT_VERSION (version e)) LOG_FORMAT_VERSION) as [Hv|Hv];
    cbn -[py_or as_mapping protocol_agrees]; [|split; [done|by intros (_ & ? & _)]].
  rewrite res_bind_ok. split.
  - intros (r & Hr & H). split_and!; [done|done|]. exists r. split; [done|].
    by destruct (protocol_agrees _).
  - intros (_ & _ & r & Hr & Hp). exists r. split; [done|]. by rewrite Hp.
Qed.

Lemma dispatch_settled log_parent backend h e h' b :
  dispatch log_parent backend h e = Ok (h', b) →
  cancels h' = cancels h ∧ delivered h' = delivered h ∧
  (if b then ∃ d o, as_mapping (py_or (dget (data e) "outcome") (VDict [])) = Ok d ∧
               outcome_from_json d = Ok o ∧ outcome_known h' = Some o ∧
               type e = "episode/end" ∧ ev_episode_id e = None
   else outcome_known h' = outcome_known h).
Proof.
  unfold dispatch. intros H.
  destruct (String.eqb (type e) "episode/start" && _).
  { apply res_bind_ok in H as (r & _ & [= <- <-]). done. }
  destruct (String.eqb (type e) "request/header"); [injection H as <- <-; done|].
  destruct (String.eqb (type e) "model/request" && backend); [injection H as <- <-; done|].
  destruct (String.eqb (type e) "host/tool-call"); [injection H as <- <-; done|].
  destruct (String.eqb_spec (type e) "episode/end") as [Ht|]; simpl in H; [|injection H as <- <-; done].
  destruct (ev_episode_id e) as [t|] eqn:Etag; simpl in H; [injection H as <- <-; done|].
  apply res_bind_ok in H as (d & Hd & H). apply res_bind_ok in H as (o & Ho & [= <- <-]).
  split_and!; try done. eauto 8.
Qed.

(** How the loop ended, from the state it started in. *)
Inductive loop_ended (lines : list string) (h : handle) : handle * option exn → Prop :=
| ended_eof h' : outcome_known h' = outcome_known h → cancels h' = cancels h → loop_ended lines h (h', None)
| ended_outcome h' raw e d o :
    raw ∈ lines → decode_line raw = Ok e → type e = "episode/end" → ev_episode_id e = None →
    as_mapping (py_or (dget (data e) "outcome") (VDict [])) = Ok d → outcome_from_json d = Ok o →
    outcome_known h' = Some o → cancels h' = cancels h → loop_ended lines h (h', None)
| ended_failed h' reason :
    outcome_known h' = Some (Failed reason) → cancels h' = S (cancels h) → loop_ended lines h (h', None)
| ended_raised h' ex :
    outcome_known h' = outcome_known h → cancels h' = cancels h → loop_ended lines h (h', Some ex).

Lemma read_loop_ended log_parent backend lines n h :
  loop_ended lines h (read_loop log_parent backend n h lines).
Proof.
  revert n h. induction lines as [|raw lines IH]; intros n h; simpl; [by constructor|].
  unfold read_line. destruct (decode_line raw) as [e|ex] eqn:Ed.
  2:{ destruct (caught ex); [eapply ended_failed; done|by constructor]. }
  destruct (if n =? 1 then pairing_error e else Ok None) as [problem|ex]; simpl; [|by constructor].
  set (h1 := if n =? 1 then set_pairing problem h else h).
  assert (outcome_known h1 = outcome_known h ∧ cancels h1 = cancels h) as [Ho Hc]
    by (unfold h1; by destruct (n =? 1)).
  destruct problem as [p|]; [eapply ended_failed; [done|simpl; by rewrite Hc]|].
  destruct (dispatch log_parent backend (deliver e h1) e) as [[h' b]|ex] eqn:Edisp; [|by constructor].
  apply dispatch_settled in Edisp as (Hc' & _ & Hb). simpl in Hc', Hb. destruct b.
  - destruct Hb as (d & o & Hd & Hdo & Hko & Ht & Htag).
    eapply (ended_outcome _ _ h' raw e d o); try done; [set_solver|congruence].
  - destruct (IH (S n) h') as [h2 ? ?|h2 raw2 e2 d o ? ? ? ? ? ? ? ?|h2 ? ? ?|h2 ? ? ?].
    + apply ended_eof; congruence.
    + eapply (ended_outcome _ _ h2 raw2 e2 d o); try done; [set_solver|congruence].
    + eapply ended_failed; [done|congruence].
    + apply ended_raised; congruence.
Qed.

Lemma shutdown_outcome h code :
  outcome_known (shutdown h code)
  = Some (default (Failed ("foe exited with code " +:+ Z_str code +:+ " before episode/end"))
            (outcome_known h)) ∧
  cancels (shutdown h code) = cancels h ∧ start_known (shutdown h code) = true.
Proof. unfold shutdown. destruct (outcome_known h) eqn:E; simpl; by rewrite ?E. Qed.

(** What waiting gives, of the lines a binary wrote until it closed its output
    and of its exit code: the handle is left with an outcome known, and [wait]
    returns it or the exception the reader died of.  The outcome is the one the
    root's [episode/end] states, or [Failed] after one [cancel] line was written,
    or [Failed] naming the exit code. *)
Theorem wait_outcome log_parent backend lines code :
  let '(h, ex) := reader log_parent backend lines code in
  start_known h = true ∧
  ∃ o, outcome_known h = Some o ∧
    wait log_parent backend lines code = match ex with Some e => Err e | None => Ok o end ∧
    ((∃ raw e d, raw ∈ lines ∧ decode_line raw = Ok e ∧ type e = "episode/end" ∧
        ev_episode_id e = None ∧ as_mapping (py_or (dget (data e) "outcome") (VDict [])) = Ok d ∧
        outcome_from_json d = Ok o ∧ cancels h = 0) ∨
     (∃ reason, o = Failed reason ∧ cancels h = 1) ∨
     (o = Failed ("foe exited with code " +:+ Z_str code +:+ " before episode/end") ∧ cancels h = 0)).
Proof.
  unfold wait, reader. pose proof (read_loop_ended log_parent backend lines 1 new_handle) as H.
  destruct (read_loop log_parent backend 1 new_handle lines) as [h ex].
  destruct (shutdown_outcome h code) as (So & Sc & Ss). split; [done|].
  eexists. split; [exact So|]. split; [rewrite So; by destruct ex|]. rewrite Sc.
  inversion H as [h' Ho Hc|h' raw e d o ? ? ? ? ? ? Ho Hc|h' reason Ho Hc|h' ex' Ho Hc]; subst;
    rewrite Ho, Hc; simpl.
  - right. right. done.
  - left. exists raw, e, d. done.
  - right. left. by exists reason.
  - right. right. done.
Qed.

(** Nothing happens before the versions agree: if the host delivered
    an event or spawned a task, the first line the binary wrote is an
    [episode/start] of the log format and protocol version the package speaks;
    when it is an event that does not pair, the outcome is the reason, one
    [cancel] is written and no event is delivered. *)
Theorem pairing_comes_first log_parent backend lines code :
  let h := (reader log_parent backend lines code).1 in
  (delivered h ≠ [] ∨ spawned h ≠ [] →
   ∃ raw rest e, lines = raw :: rest ∧ decode_line raw = Ok e ∧ pairs e) ∧
  (∀ raw rest e p, lines = raw :: rest → decode_line raw = Ok e → pairing_error e = Ok (Some p) →
   outcome_known h = Some (Failed p) ∧ cancels h = 1 ∧ delivered h = [] ∧ spawned h = []).
Proof.
  intros h. split.
  - intros Hne. unfold h, reader in Hne.
    destruct lines as [|raw lines]; [simpl in Hne; tauto|].
    destruct (decode_line raw) as [e|ex] eqn:Ed.
    + exists raw, lines, e. split_and!; [done|done|].
      destruct (pairing_error e) as [[p|]|ex] eqn:Ep; [| by apply pairing_error_none|];
        exfalso; revert Hne; simpl; unfold read_line; rewrite Ed; simpl; rewrite Ep; simpl; tauto.
    + exfalso. revert Hne. simpl. unfold read_line. rewrite Ed. destruct (caught ex); simpl; tauto.
  - intros raw rest e p -> Hd Hp. unfold h, reader. simpl. unfold read_line. rewrite Hd. simpl.
    rewrite Hp. done.
Qed.

(** The reader does not turn every bad line into an outcome: a line that is JSON
    but no object raises [AttributeError], which it does not catch. *)
Lemma non_object_line_escapes log_parent backend code :
  wait log_parent backend ["[]"] code = Err (AttributeError "'list' object has no attribute 'get'").
Proof. reflexivity. Qed.

(** ** Every contract below a document *)

(** [nested d e]: [e] is a contract declared somewhere below [d]: a child
    contract, or the model of a workflow node, at any depth. *)
Inductive nested : dict → dict → Prop :=
| nested_child d cs k c :
    dget d "child_contracts" = VDict cs → (k, VDict c) ∈ cs → nested d c
| nested_below d cs k c e :
    dget d "child_contracts" = VDict cs → (k, VDict c) ∈ cs → nested c e → nested d e
| nested_graph d w e : dget d "workflow" = VDict w → in_graph w e → nested d e
with in_graph : dict → dict → Prop :=
| graph_model w ns k n c :
    dget w "nodes" = VDict ns → (k, VDict n) ∈ ns → dget n "model" = VDict c → in_graph w c
| graph_below w ns k n c e :
    dget w "nodes" = VDict ns → (k, VDict n) ∈ ns → dget n "model" = VDict c → nested c e → in_graph w e
| graph_inner w ns k n w' e :
    dget w "nodes" = VDict ns → (k, VDict n) ∈ ns → dget n "workflow" = VDict w' → in_graph w' e →
    in_graph w e.

Scheme nested_mut := Induction for nested Sort Prop
  with in_graph_mut := Induction for in_graph Sort Prop.

Lemma dget_dict_assoc d k x : dget d k = VDict x → assoc d k = Some (VDict x).
Proof. unfold dget. destruct (assoc d k); simpl; congruence. Qed.

Lemma in_key_order_elem {A} (l : list (string * res (list A))) r k m :
  in_key_order l = Ok r → (k, m) ∈ l → ∃ x, m = Ok x ∧ ∀ y, y ∈ x → y ∈ r.
Proof.
  unfold in_key_order. intros (rs & Hrs & [= <-])%res_bind_ok Hin.
  apply map_res_Forall2 in Hrs. rewrite <-(sorted_items_perm l) in Hin.
  apply list_elem_of_lookup in Hin as [i Hi].
  destruct (Forall2_lookup_l _ _ _ _ _ Hrs Hi) as (x & Hx & Hm). simpl in Hm.
  exists x. split; [done|]. intros y Hy. rewrite list_elem_of_In, in_concat.
  exists x. split; apply list_elem_of_In; [by eapply list_elem_of_lookup_2|done].
Qed.

Lemma each_item_elem {A} key (f : string → value → res (list A)) doc items k v r :
  each_item key f doc = Ok r → dget doc key = VDict items → (k, v) ∈ items →
  ∃ x, f k v = Ok x ∧ ∀ y, y ∈ x → y ∈ r.
Proof.
  intros H Hd Hin. unfold each_item in H. rewrite with_key_assoc, (dget_dict_assoc _ _ _ Hd) in H.
  destruct items as [|i0 items]; [by apply elem_of_nil in Hin|]. cbn [truthy] in H.
  eapply in_key_order_elem; [exact H|]. apply list_elem_of_fmap. exists (k, v). done.
Qed.

(** A prefix that strips to a name: its first character is no dot. *)
Definition names_path (p : string) : Prop := match p with String c _ => c ≠ "."%char | _ => False end.

Lemma lstrip_dots_end s c : c ≠ "."%char → lstrip_dots (s +:+ String c "") ≠ "".
Proof.
  intros Hc. induction s as [|d s IH].
  - simpl. by destruct (Ascii.ascii_dec c "."%char) as [->|]; [|destruct c as [[] [] [] [] [] [] [] []]].
  - rewrite str_app_cons. destruct (Ascii.ascii_dec d "."%char) as [->|Hd]; [exact IH|].
    by destruct d as [[] [] [] [] [] [] [] []].
Qed.

Lemma rstrip_dots_named p : names_path p → rstrip_dots p ≠ "".
Proof.
  destruct p as [|c r]; [done|]. simpl. intros Hc. unfold rstrip_dots.
  assert (str_rev (String c r) = str_rev r +:+ String c "") as ->
    by exact (str_rev_append_app r (String c "")).
  pose proof (lstrip_dots_end (str_rev r) c Hc) as Hne.
  destruct (lstrip_dots (str_rev r +:+ String c "")) as [|d t]; [done|].
  assert (str_rev (String d t) = str_rev t +:+ String d "") as ->
    by exact (str_rev_append_app t (String d "")).
  by destruct (str_rev t).
Qed.

Lemma names_path_app p s t :
  p = "" ∨ names_path p → names_path (s +:+ t) → names_path (p +:+ (s +:+ t)).
Proof. intros [->|Hp] Hs; [done|]. by destruct p. Qed.

Lemma contract_tree_contract doc p l :
  contract_tree (VDict doc) p false = Ok l →
  (rstrip_dots p, doc) ∈ l ∧
  (∀ cs k c, dget doc "child_contracts" = VDict cs → (k, c) ∈ cs →
     ∃ r, contract_tree c (p +:+ ("child_contracts." +:+ (k +:+ "."))) false = Ok r ∧ ∀ x, x ∈ r → x ∈ l) ∧
  (∀ w, dget doc "workflow" = VDict w →
     ∃ r, contract_tree (VDict w) (p +:+ ("workflow." +:+ "")) true = Ok r ∧ ∀ x, x ∈ r → x ∈ l).
Proof.
  simpl. intros (children & Hc & (below & Hb & [= <-])%res_bind_ok)%res_bind_ok. split_and!.
  - set_solver.
  - intros cs k c Hd Hin. destruct (each_item_elem _ _ _ _ _ _ _ Hc Hd Hin) as (r & Hr & Hsub).
    exists r. split; [exact Hr|]. set_solver.
  - intros w Hw. rewrite with_key_assoc, (dget_dict_assoc _ _ _ Hw) in Hb. exists below.
    split; [exact Hb|]. set_solver.
Qed.

Lemma contract_tree_graph w p l ns k n :
  contract_tree (VDict w) p true = Ok l → dget w "nodes" = VDict ns → (k, VDict n) ∈ ns →
  (∀ c, dget n "model" = VDict c →
     ∃ r, contract_tree (VDict c) (p +:+ ("nodes." +:+ (k +:+ "." +:+ "model" +:+ "."))) false = Ok r
          ∧ ∀ x, x ∈ r → x ∈ l) ∧
  (∀ c, dget n "workflow" = VDict c →
     ∃ r, contract_tree (VDict c) (p +:+ ("nodes." +:+ (k +:+ "." +:+ "workflow" +:+ "."))) true = Ok r
          ∧ ∀ x, x ∈ r → x ∈ l).
Proof.
  intros H Hd Hin. cbn [contract_tree] in H.
  destruct (each_item_elem _ _ _ _ _ _ _ H Hd Hin) as (r & Hr & Hsub). cbv beta zeta iota in Hr.
  apply res_bind_ok in Hr as (m & Hm & (g & Hg & [= <-])%res_bind_ok).
  rewrite with_key_assoc in Hm, Hg. split; intros c Hc.
  - rewrite (dget_dict_assoc _ _ _ Hc) in Hm. exists m. split; [exact Hm|]. set_solver.
  - rewrite (dget_dict_assoc _ _ _ Hc) in Hg. exists g. split; [exact Hg|]. set_solver.
Qed.

(** The walk reaches every contract below the document, under a name. *)
Lemma contract_tree_complete d e : nested d e →
  ∀ p l, contract_tree (VDict d) p false = Ok l → p = "" ∨ names_path p → ∃ n, (n, e) ∈ l ∧ n ≠ "".
Proof.
  revert d e.
  apply (nested_mut
    (λ d e _, ∀ p l, contract_tree (VDict d) p false = Ok l → p = "" ∨ names_path p →
       ∃ n, (n, e) ∈ l ∧ n ≠ "")
    (λ w e _, ∀ p l, contract_tree (VDict w) p true = Ok l → names_path p → ∃ n, (n, e) ∈ l ∧ n ≠ "")).
  - intros d cs k c Hd Hin p l Hl Hp. apply contract_tree_contract in Hl as (_ & Hl & _).
    destruct (Hl cs k _ Hd Hin) as (r & Hr & Hsub). apply contract_tree_contract in Hr as (Hr & _).
    eexists. split; [by apply Hsub|]. apply rstrip_dots_named. by apply names_path_app.
  - intros d cs k c e Hd Hin _ IH p l Hl Hp. apply contract_tree_contract in Hl as (_ & Hl & _).
    destruct (Hl cs k _ Hd Hin) as (r & Hr & Hsub).
    destruct (IH _ _ Hr) as (n & Hn & Hne); [right; by apply names_path_app|]. eauto.
  - intros d w e Hw _ IH p l Hl Hp. apply contract_tree_contract in Hl as (_ & _ & Hl).
    destruct (Hl w Hw) as (r & Hr & Hsub).
    destruct (IH _ _ Hr) as (n & Hn & Hne); [by apply names_path_app|]. eauto.
  - intros w ns k n c Hd Hin Hm p l Hl Hp.
    destruct (proj1 (contract_tree_graph _ _ _ _ _ _ Hl Hd Hin) c Hm) as (r & Hr & Hsub).
    apply contract_tree_contract in Hr as (Hr & _).
    eexists. split; [by apply Hsub|]. apply rstrip_dots_named. apply names_path_app; [by right|done].
  - intros w ns k n c e Hd Hin Hm _ IH p l Hl Hp.
    destruct (proj1 (contract_tree_graph _ _ _ _ _ _ Hl Hd Hin) c Hm) as (r & Hr & Hsub).
    destruct (IH _ _ Hr) as (m & Hn & Hne); [right; apply names_path_app; [by right|done]|]. eauto.
  - intros w ns k n w' e Hd Hin Hm _ IH p l Hl Hp.
    destruct (proj2 (contract_tree_graph _ _ _ _ _ _ Hl Hd Hin) w' Hm) as (r & Hr & Hsub).
    destruct (IH _ _ Hr) as (m & Hn & Hne); [apply names_path_app; [by right|done]|]. eauto.
Qed.

Lemma declared_host_tools_all contracts l n c names v :
  declared_host_tools contracts = Ok l → (n, c) ∈ contracts →
  py_iter (py_or (dget c "host_tools") (VDict [])) = Ok names → v ∈ names → v ∈ l.
Proof.
  unfold declared_host_tools.
  assert (∀ (f : list value → list value → res (list value)) l0 vs r,
    foldM (λ acc v, if hashable v then Ok (acc ++ [v]) else Err (unhashable v)) l0 vs = Ok r →
    r = l0 ++ vs) as Hinner.
  { intros _ l0 vs. revert l0. induction vs as [|x vs IH]; intros l0 r H; simpl in H.
    - injection H as <-. by rewrite app_nil_r.
    - destruct (hashable x); simpl in H; [|done]. apply IH in H as ->. by rewrite <-app_assoc. }
  assert (∀ acc, foldM (λ acc nc, vs ← py_iter (py_or (dget nc.2 "host_tools") (VDict []));
      foldM (λ acc v, if hashable v then Ok (acc ++ [v]) else Err (unhashable v)) acc vs) acc contracts = Ok l →
    (∀ x, x ∈ acc → x ∈ l) ∧ ((n, c) ∈ contracts →
      py_iter (py_or (dget c "host_tools") (VDict [])) = Ok names → v ∈ names → v ∈ l)) as Hgen.
  { induction contracts as [|[m e] contracts IH]; intros acc H.
    - injection H as ->. split; [done|]. by intros ?%elem_of_nil.
    - simpl in H. apply res_bind_ok in H as (acc' & Hacc & H).
      apply res_bind_ok in Hacc as (vs & Hvs & Hacc).
      apply (Hinner (λ _ _, Ok [])) in Hacc as ->. destruct (IH _ H) as [Hsub Hin]. split.
      + intros x Hx. apply Hsub. set_solver.
      + intros [[= -> ->]|Hc]%elem_of_cons Hn Hv; [|by apply Hin].
        apply Hsub. rewrite Hn in Hvs. injection Hvs as <-. set_solver. }
  intros H. by apply (Hgen [] H).
Qed.

(** One owner answers the model, and every host tool has an
    implementation: when [start_config] accepts a document, the document has a
    task, exactly one of its [model] block and the host's backend calls the
    model, without the block no contract anywhere below declares one either,
    and every tool any contract of the tree lists in [host_tools] is supplied. *)
Theorem start_checked doc o :
  check_start doc o = Ok () →
  has_key doc "task" = true ∧ viewer o ∈ ["off"; "serve"] ∧
  has_key doc "model" = negb (has_backend o) ∧
  (has_key doc "model" = false → ∀ e, nested doc e → has_key e "model" = false) ∧
  (∀ e tools name, e = doc ∨ nested doc e → dget e "host_tools" = VDict tools → name ∈ keys tools →
     name ∈ implementations o).
Proof.
  unfold check_start. intros H.
  apply res_bind_ok in H as ([] & H1 & H). apply res_bind_ok in H as ([] & H2 & H).
  apply res_bind_ok in H as ([] & H3 & H). apply res_bind_ok in H as ([] & H4 & H).
  apply res_bind_ok in H as (contracts & Hc & H). apply res_bind_ok in H as ([] & H5 & H).
  apply res_bind_ok in H as (declared & Hd & H). apply res_bind_ok in H as (missing & Hm & H).
  assert (missing = []) as ->.
  { destruct missing; [done|]. by apply res_bind_ok in H as (? & _ & ?). }
  clear H. apply sorted_unique_nil in Hm.
  assert (has_key doc "model" = negb (has_backend o)) as Howner.
  { unfold raise_if in H3, H4. by destruct (has_key doc "model"), (has_backend o). }
  assert (∀ c b e, raise_if c e = Ok b → c = false) as Hr by (intros [] ? ?; done).
  split_and!.
  - apply Hr in H2. by destruct (has_key doc "task").
  - apply Hr in H1. apply elem_str_spec. by destruct (elem_str _ _).
  - done.
  - intros Hno e He. destruct (contract_tree_complete _ _ He "" contracts Hc) as (n & Hn & Hne); [by left|].
    apply Hr in H5. rewrite Hno in H5. simpl in H5.
    destruct (has_key e "model") eqn:Ee; [exfalso|done].
    assert ((n, e) ∈ filter (λ nc, negb (String.eqb nc.1 "") && has_key nc.2 "model" = true) contracts) as Hin.
    { apply list_elem_of_filter. split; [|done]. simpl. rewrite Ee. by destruct (String.eqb_spec n ""). }
    destruct (filter _ contracts); [by apply elem_of_nil in Hin|done].
  - intros e tools name He Ht Hname.
    assert (∃ n, (n, e) ∈ contracts) as (n & Hn).
    { destruct He as [->|He].
      - apply contract_tree_contract in Hc as (Hc & _). eauto.
      - destruct (contract_tree_complete _ _ He "" contracts Hc) as (n & Hn & _); [by left|]. eauto. }
    destruct (decide (name ∈ implementations o)) as [|Hnot]; [done|exfalso].
    assert (VStr name ∈ declared) as Hdecl.
    { destruct tools as [|t0 tools]; [by apply elem_of_nil in Hname|].
      eapply declared_host_tools_all; [exact Hd|exact Hn|rewrite Ht; reflexivity|].
      simpl. apply list_elem_of_fmap in Hname as (kv & -> & Hkv).
      change (VStr kv.1 ∈ map (λ kv, VStr kv.1) (t0 :: tools)). apply list_elem_of_fmap. eauto. }
    assert (VStr name ∈ filter (λ v, match v with
      | VStr s => negb (elem_str s (implementations o)) | _ => true end = true) declared) as Hin.
    { apply list_elem_of_filter. split; [|done]. by rewrite (proj2 (elem_str_false _ _) Hnot). }
    rewrite Hm in Hin. by apply elem_of_nil in Hin.
Qed.

(** ** The claims at a concrete run

    The binary starts an episode, states a header, asks for the model and calls
    a tool the host does not have; the host reads the four lines and both tasks
    write what they have. *)

Definition example_lines : list string := map encode_line
  [[("seq", VInt 0); ("time", VInt 0); ("type", VStr "episode/start"); ("version", VInt LOG_FORMAT_VERSION);
    ("data", VDict [("id", VStr "ep-1"); ("runtime", VDict [("version", VStr PROTOCOL_VERSION)])])];
   [("seq", VInt 1); ("time", VInt 0); ("type", VStr "request/header");
    ("data", VDict [("system", VStr "s"); ("tools", VList [])])];
   [("seq", VInt 2); ("time", VInt 0); ("type", VStr "model/request");
    ("data", VDict [("request_id", VStr "r1"); ("header_seq", VInt 1); ("messages", VList [])])];
   [("seq", VInt 3); ("time", VInt 0); ("type", VStr "host/tool-call");
    ("data", VDict [("call_id", VStr "c1"); ("name", VStr "lookup"); ("args", VDict [])])]].

(** A backend that streams a text and stops without a terminal chunk. *)
Definition example_backend (body : dict) : backend_run :=
  {| chunks := [[("kind", VStr "text"); ("delta", VStr "hi")]]; failure := None |}.
Definition example_task_lines : handle → Event → res (list dict) :=
  task_lines example_backend VNone [] (λ _ _ _, InvokeCancelled) [].

Lemma example_run : ∃ r e0 e1 l,
  reachable "/logs" true example_task_lines example_lines r ∧
  tasks r !! 0 = Some (Writing e0 []) ∧ type e0 = "model/request" ∧ ev_episode_id e0 = None ∧
  length (written_by 0 (output r)) = 2 ∧
  tasks r !! 1 = Some (Writing e1 []) ∧ type e1 = "host/tool-call" ∧ l ∈ written_by 1 (output r).
Proof.
  do 4 eexists. split.
  { eapply reach_step; [eapply reach_step; [eapply reach_step; [eapply reach_step; [eapply reach_step;
      [eapply reach_step; [eapply reach_step; [eapply reach_step; [eapply reach_step|]|]|]|]|]|]|]|].
    - apply reach_launch.
    - eapply step_read; [reflexivity|reflexivity|vm_compute; reflexivity].
    - eapply step_read; [reflexivity|reflexivity|vm_compute; reflexivity].
    - eapply step_read; [reflexivity|reflexivity|vm_compute; reflexivity].
    - eapply step_read; [reflexivity|reflexivity|vm_compute; reflexivity].
    - eapply (step_start _ _ _ _ 1); [reflexivity|vm_compute; reflexivity].
    - eapply (step_start _ _ _ _ 0); [reflexivity|vm_compute; reflexivity].
    - eapply (step_write _ _ _ _ 0). reflexivity.
    - eapply (step_write _ _ _ _ 1). reflexivity.
    - eapply (step_write _ _ _ _ 0). reflexivity. }
  split_and!; try reflexivity. vm_compute. left.
Qed.

Lemma model_answers_well_formed_witness :
  ∃ r, reachable "/logs" true example_task_lines example_lines r ∧
    ∃ rid whole, response_stream (py_str rid) None whole ∧ length whole = 2 ∧ written_by 0 (output r) = whole.
Proof.
  destruct example_run as (r & e0 & e1 & l & Hr & Ht & Hty & Htag & Hlen & _). exists r. split; [exact Hr|].
  destruct (model_answers_well_formed "/logs" true example_backend VNone [] (λ _ _ _, InvokeCancelled) []
              example_lines r 0 (Writing e0 []) Hr Ht Hty) as [Hnil|(rid & whole & _ & Hs & _ & Hall)].
  - rewrite Hnil in Hlen. discriminate Hlen.
  - exists rid, whole. rewrite <-Htag. split; [exact Hs|]. rewrite <-(Hall eq_refl). split; [exact Hlen|reflexivity].
Defined.

Lemma tool_answered_once_witness :
  ∃ r l, reachable "/logs" true example_task_lines example_lines r ∧
    written_by 1 (output r) = [l] ∧ dget l "type" = VStr "tool/result".
Proof.
  destruct example_run as (r & e0 & e1 & l & Hr & _ & _ & _ & _ & Ht & Hty & Hl). exists r, l. split; [exact Hr|].
  destruct (tool_answered_once "/logs" true example_backend VNone [] (λ _ _ _, InvokeCancelled) []
              example_lines r 1 (Writing e1 []) l Hr Ht Hty Hl) as (Hw & Htype & _).
  split; [exact Hw|exact Htype].
Defined.

(** A document whose child lists a host tool. *)
Definition example_document : dict :=
  [("task", VStr "t");
   ("child_contracts", VDict [("worker", VDict [("host_tools", VDict [("lookup", VDict [])])])])].

Lemma start_checked_witness :
  let o := {| viewer := "off"; has_backend := true; implementations := ["lookup"] |} in
  check_start example_document o = Ok () ∧ "lookup" ∈ implementations o.
Proof.
  intros o. assert (H : check_start example_document o = Ok ()) by (vm_compute; reflexivity).
  split; [exact H|].
  destruct (start_checked example_document o H) as (_ & _ & _ & _ & Hall).
  apply (Hall [("host_tools", VDict [("lookup", VDict [])])] [("lookup", VDict [])]);
    [right|reflexivity|left].
  apply (nested_child _ [("worker", VDict [("host_tools", VDict [("lookup", VDict [])])])] "worker");
    [reflexivity|left].
Defined.
