(* ===== verification/Contract.v ===== *)
(** * The execution contract

    src/python/foe/_contract.py: the blocks of a contract, the checks
    [ExecutionContract] makes when it is constructed, and the document it
    writes.  Arguments come as the values a caller passes: a caller may pass
    what a document states unchecked, so they are [value]s where the code does
    not convert them.  [fingerprint] is given what the process it runs
    produced. *)

From stdpp Require Import base list sets strings pretty.
From Stdlib Require Import ZArith Lia.
From S2P Require Import Prelude PyValue PyText PyJson PyPath Schema Outcome Tools Host.

Definition BUILTIN_TOOLS : list string :=
  ["read"; "grep"; "edit"; "bash"; "session"; "compose_tools"; "retrieve"; "block"; "spawn"; "wait";
   "steer"; "cancel"; "ask"; "notify"; "send"; "team"].

Definition FINGERPRINT_TASK : string := "fingerprint".

Definition absolute_path (key : string) (path : value) : res value :=
  text ← fspath path;
  raise_if (negb (isabs text)) (ConfigError (key +:+ ": " +:+ str_repr text +:+ " is not an absolute path"));;
  Ok (VStr text).

(** [out[key] = v] for each stated key: one that is not [None]. *)
Definition stated (l : list (string * value)) : dict := filter (λ kv, is_none kv.2 = false) l.

(** ** The blocks *)

Record Grants : Type := {
  g_read : list value;
  g_write : list value;
  g_execute : list value;
  g_spawn : list value;
}.

(** [if values: out[key] = [f(v) for v in values]]. *)
Definition optional_list (key : string) (f : value → res value) (l : list value) : res dict :=
  match l with
  | [] => Ok []
  | _ => r ← map_res f l; Ok [(key, VList r)]
  end.

Definition Grants_to_dict (g : Grants) : res dict :=
  raise_if (match g_read g with [] => true | _ => false end)
    (ConfigError "grants.read: at least one directory is required");;
  read ← map_res (absolute_path "grants.read") (g_read g);
  write ← optional_list "write" (absolute_path "grants.write") (g_write g);
  execute ← optional_list "execute" (absolute_path "grants.execute") (g_execute g);
  spawn ← optional_list "spawn" Ok (g_spawn g);
  Ok ([("read", VList read)] ++ write ++ execute ++ spawn).

Record Budget : Type := {
  b_model_calls : value;
  b_input_tokens : value;
  b_output_tokens : value;
  b_seconds : value;
  b_max_depth : value;
  b_max_episodes : value;
  b_max_concurrent : value;
  b_loop_threshold : value;
}.
Definition Budget_to_dict (b : Budget) : dict :=
  ("model_calls", b_model_calls b) ::
  stated [("input_tokens", b_input_tokens b); ("output_tokens", b_output_tokens b);
          ("seconds", b_seconds b); ("max_depth", b_max_depth b); ("max_episodes", b_max_episodes b);
          ("max_concurrent", b_max_concurrent b); ("loop_threshold", b_loop_threshold b)].

Record Context : Type := {
  c_compact : value;
  c_window_tokens : value;
  c_reserve_tokens : value;
  c_keep_recent_tokens : value;
  c_margin_tokens : value;
}.
Definition Context_to_dict (c : Context) : dict :=
  ("compact", c_compact c) ::
  stated [("window_tokens", c_window_tokens c); ("reserve_tokens", c_reserve_tokens c);
          ("keep_recent_tokens", c_keep_recent_tokens c); ("margin_tokens", c_margin_tokens c)].

Record Model : Type := {
  m_provider : string;
  m_model : string;
  m_max_output_tokens : value;
  m_options : list (string * value);
}.
Definition MODEL_FIELDS : list string := ["provider"; "model"; "max_output_tokens"].
Definition Model_to_dict (m : Model) : res dict :=
  raise_if (String.eqb (m_provider m) "") (ConfigError "model.provider: must not be empty");;
  raise_if (String.eqb (m_model m) "") (ConfigError "model.model: must not be empty");;
  options ← map_res (λ kv,
    raise_if (elem_str kv.1 MODEL_FIELDS)
      (ConfigError ("model.options." +:+ kv.1 +:+ ": is a field of the block, not a provider option"));;
    Ok kv) (sorted_items (m_options m));
  Ok ([("provider", VStr (m_provider m)); ("model", VStr (m_model m))]
      ++ stated [("max_output_tokens", m_max_output_tokens m)] ++ options).

Record ToolDef : Type := {
  t_exec : value;
  t_description : value;
  t_instruction : value;
  t_network : bool;
  t_timeout_seconds : value;
  t_cwd : value;
}.
Definition ToolDef_to_dict (key : string) (t : ToolDef) : res dict :=
  exec ← absolute_path (key +:+ ".exec") (t_exec t);
  cwd ← (if is_none (t_cwd t) then Ok []
         else p ← absolute_path (key +:+ ".cwd") (t_cwd t); Ok [("cwd", p)]);
  Ok ([("exec", exec); ("description", t_description t)]
      ++ stated [("instruction", t_instruction t)]
      ++ (if t_network t then [("network", VBool true)] else [])
      ++ stated [("timeout_seconds", t_timeout_seconds t)] ++ cwd).

(** What [Returns] and [Verified] take as a schema: a class, or a value. *)
Inductive schema_source : Type :=
| SchemaType (a : annotation)
| SchemaValue (v : value).

Section contract.
Variable annotation_repr : annotation → string.

Definition returns_schema (s : schema_source) : res value :=
  match s with
  | SchemaType a => schema_for annotation_repr a
  | SchemaValue (VDict d) => Ok (VDict d)
  | SchemaValue v => Err (TypeError ("unsupported annotation " +:+ py_repr v))
  end.

(** A host tool as an object: two tools are the same only if they are one
    object, whatever they say. *)
Record hosted : Type := { object_id : nat; host_tool : HostTool }.

(** An entry of [tools]: a name, or a host tool. *)
Inductive tool_entry : Type :=
| Named (v : value)
| Hosted (h : hosted).

Inductive verifier : Type :=
| VerifyName (name : string)
| VerifyTool (h : hosted).
Definition verifier_name (v : verifier) : string :=
  match v with VerifyName n => n | VerifyTool h => tool_name (host_tool h) end.

Inductive DoneWhen : Type :=
| Returns (schema : schema_source)
| Verified (verify : verifier) (retries : value) (returns : option schema_source).

Definition DoneWhen_to_dict (w : DoneWhen) : res dict :=
  match w with
  | Returns s => v ← returns_schema s; Ok [("returns", v)]
  | Verified v retries returns =>
      r ← match returns with
          | None => Ok []
          | Some s => x ← returns_schema s; Ok [("returns", x)] end;
      Ok ([("verify", VStr (verifier_name v)); ("retries", retries)] ++ r)
  end.

(** ** The contract *)

Inductive ExecutionContract : Type := MkContract {
  e_name : value;
  e_instructions : dict;
  e_grants : Grants;
  e_budget : Budget;
  e_tool_defs : list (string * ToolDef);
  e_done_when : option DoneWhen;
  e_child_contracts : list (string * ExecutionContract);
  e_model : option Model;
  e_sandbox : value;
  e_workflow : option dict;
  e_context : option Context;
  e_tools : list string;
  e_host_tools : list (string * hosted);
}.

Record arguments : Type := {
  a_name : value;
  a_instructions : dict;
  a_tools : list tool_entry;
  a_grants : Grants;
  a_budget : Budget;
  a_tool_defs : list (string * ToolDef);
  a_done_when : option DoneWhen;
  a_child_contracts : list (string * ExecutionContract);
  a_model : option Model;
  a_sandbox : value;
  a_workflow : value;
  a_context : option Context;
}.

Definition check_host_tool (g : Grants) (defs : list (string * ToolDef)) (t : HostTool) : res () :=
  let name := tool_name t in
  raise_if (elem_str name BUILTIN_TOOLS)
    (ConfigError ("tools: host tool " +:+ str_repr name
                  +:+ " collides with the built-in tool of the same name"));;
  raise_if (has_key defs name)
    (ConfigError ("tools: host tool " +:+ str_repr name
                  +:+ " collides with the tool_defs entry of the same name"));;
  match spec_effect (spec t) with
  | writes => raise_if (match g_write g with [] => true | _ => false end)
      (ConfigError ("tools: " +:+ str_repr name +:+ " declares effect writes and grants.write is empty"))
  | execs => raise_if (match defs with [] => true | _ => false end)
      (ConfigError ("tools: " +:+ str_repr name +:+ " declares effect execs and tool_defs is empty"))
  | _ => Ok ()
  end.

Definition check_builtin (g : Grants) (name : string) : res () :=
  raise_if (String.eqb name "edit" && match g_write g with [] => true | _ => false end)
    (ConfigError "tools: 'edit' declares effect writes and grants.write is empty");;
  raise_if (String.eqb name "spawn" && match g_spawn g with [] => true | _ => false end)
    (ConfigError "tools: 'spawn' declares effect spawns and grants.spawn is empty").

(** [entry if isinstance(entry, str) else entry.name]. *)
Definition entry_name (t : tool_entry) : res string :=
  match t with
  | Named (VStr s) => Ok s
  | Named v => Err (AttributeError ("'" +:+ type_name v +:+ "' object has no attribute 'name'"))
  | Hosted h => Ok (tool_name (host_tool h))
  end.

Definition entry_step (g : Grants) (defs : list (string * ToolDef))
    (st : list string * list (string * hosted)) (t : tool_entry)
    : res (list string * list (string * hosted)) :=
  let '(names, host) := st in
  name ← entry_name t;
  raise_if (elem_str name names) (ConfigError ("tools: " +:+ str_repr name +:+ " is listed twice"));;
  match t with
  | Hosted h =>
      check_host_tool g defs (host_tool h);;
      Ok (names ++ [name], dset host name h)
  | Named _ =>
      (if elem_str name BUILTIN_TOOLS then check_builtin g name
       else raise_if (negb (has_key defs name))
              (ConfigError ("tools: " +:+ str_repr name
                 +:+ " names no built-in tool, tool_defs entry, or host tool")));;
      Ok (names ++ [name], host)
  end.

(** [done_when.verify not in listed] compares objects. *)
Definition same_object (h : hosted) (t : tool_entry) : bool :=
  match t with Hosted h' => object_id h' =? object_id h | Named _ => false end.
Definition listed (a : arguments) : list tool_entry :=
  match a_done_when a with
  | Some (Verified (VerifyTool h) _ _) =>
      if existsb (same_object h) (a_tools a) then a_tools a else a_tools a ++ [Hosted h]
  | _ => a_tools a
  end.

Definition SANDBOX_MODES : list string := ["best-effort"; "required"; "off"].

(** The workflow argument: absent, or an object with nodes. *)
Definition workflow_argument (v : value) : res (option dict) :=
  match v with
  | VNone => Ok None
  | VDict d => if truthy (dget d "nodes") then Ok (Some d)
               else Err (ConfigError ("workflow: docs/workflow.md requires an object whose `nodes` "
                                      +:+ "holds at least one node"))
  | _ => Err (ConfigError ("workflow: docs/workflow.md requires an object whose `nodes` "
                           +:+ "holds at least one node"))
  end.

Definition check_verifier (names : list string) (host : list (string * hosted)) (w : DoneWhen) : res () :=
  match w with
  | Returns _ => Ok ()
  | Verified v _ _ =>
      let n := verifier_name v in
      raise_if (negb (elem_str n names))
        (ConfigError ("done_when.verify: " +:+ str_repr n +:+ " is not a tool in tools"));;
      match assoc host n with
      | Some h =>
          let count := match dget (params (spec (host_tool h))) "properties" with
                       | VDict p => length p | _ => 0 end in
          raise_if (negb (count =? 1))
            (ConfigError ("done_when.verify: " +:+ str_repr n
               +:+ " is a host verifier whose schema must declare one parameter; found " +:+ nat_str count))
      | None => Ok ()
      end
  end.

Definition check_spawn (children : list (string * ExecutionContract)) (_ : ()) (child : value) : res () :=
  raise_if (negb (hashable child)) (unhashable child);;
  raise_if (negb (match child with VStr s => has_key children s | _ => false end))
    (ConfigError ("grants.spawn: " +:+ py_repr child +:+ " is not a key of child_contracts")).

(** [ExecutionContract.__init__]. *)
Definition make_contract (a : arguments) : res ExecutionContract :=
  raise_if (negb (truthy (a_name a))) (ConfigError "name: must not be empty");;
  raise_if (match a_instructions a with [] => true | _ => false end)
    (ConfigError "instructions: at least one section is required");;
  raise_if (match a_tools a with [] => true | _ => false end)
    (ConfigError "tools: at least one tool is required");;
  raise_if (negb (is_none (a_sandbox a)) &&
            negb (match a_sandbox a with VStr s => elem_str s SANDBOX_MODES | _ => false end))
    (ConfigError ("sandbox.mode: " +:+ py_repr (a_sandbox a)
                  +:+ " is not one of best-effort, required, off"));;
  workflow ← workflow_argument (a_workflow a);
  '(names, host) ← foldM (entry_step (a_grants a) (a_tool_defs a)) ([], []) (listed a);
  foldM (λ _ kd, raise_if (elem_str kd.1 BUILTIN_TOOLS)
           (ConfigError ("tool_defs." +:+ kd.1 +:+ ": collides with the built-in tool of the same name")))
    () (a_tool_defs a);;
  match a_done_when a with Some w => check_verifier names host w | None => Ok () end;;
  foldM (check_spawn (a_child_contracts a)) () (g_spawn (a_grants a));;
  Ok {| e_name := a_name a; e_instructions := a_instructions a; e_grants := a_grants a;
        e_budget := a_budget a; e_tool_defs := a_tool_defs a; e_done_when := a_done_when a;
        e_child_contracts := a_child_contracts a; e_model := a_model a; e_sandbox := a_sandbox a;
        e_workflow := workflow; e_context := a_context a; e_tools := names; e_host_tools := host |}.

(** ** The document *)

(** Results under keys, in the order of the keys: the first failure wins. *)
Definition sequence_sorted (l : list (string * res dict)) : res dict :=
  map_res (λ kr, d ← kr.2; Ok (kr.1, VDict d)) (sorted_items l).
(** [if items: doc[key] = {...}]. *)
Definition optional_block (key : string) (l : list (string * res dict)) : res dict :=
  match l with
  | [] => Ok []
  | _ => d ← sequence_sorted l; Ok [(key, VDict d)]
  end.

Fixpoint to_dict (c : ExecutionContract) (task : option string) (child : bool) {struct c} : res dict :=
  match c with
  | MkContract name instructions grants budget tool_defs done_when child_contracts model sandbox
      workflow context tools host_tools =>
      defs ← optional_block "tool_defs"
        (map (λ kd, (kd.1, ToolDef_to_dict ("tool_defs." +:+ kd.1) kd.2)) tool_defs);
      host ← optional_block "host_tools"
        (map (λ kh, (kh.1, Ok (ToolSpec_to_dict (spec (host_tool kh.2))))) host_tools);
      g ← Grants_to_dict grants;
      w ← match done_when with
          | Some w => d ← DoneWhen_to_dict w; Ok [("done_when", VDict d)] | None => Ok [] end;
      m ← match model with
          | Some m => d ← Model_to_dict m; Ok [("model", VDict d)] | None => Ok [] end;
      children ← optional_block "child_contracts"
        (map (λ kc, (kc.1, to_dict kc.2 None true)) child_contracts);
      Ok ((if child then [] else [("version", VInt CONFIG_VERSION)])
          ++ [("name", name); ("instructions", VDict (sorted_items instructions));
              ("tools", VList (map VStr tools))]
          ++ defs ++ host
          ++ [("grants", VDict g); ("budget", VDict (Budget_to_dict budget))]
          ++ match context with Some c => [("context", VDict (Context_to_dict c))] | None => [] end
          ++ w ++ m
          ++ (if is_none sandbox || child then [] else [("sandbox", VDict [("mode", sandbox)])])
          ++ children
          ++ match workflow with Some w => [("workflow", VDict w)] | None => [] end
          ++ match task with Some t => [("task", VStr t)] | None => [] end)
  end.

(** The host tools of the contract and of every child, later ones winning. *)
Fixpoint all_host_tools (c : ExecutionContract) : list (string * hosted) :=
  match c with
  | MkContract _ _ _ _ _ _ child_contracts _ _ _ _ _ host_tools =>
      fold_left dupdate (map (λ kc, all_host_tools kc.2) child_contracts) host_tools
  end.

(** ** The fingerprint *)

(** What [foe plan] produced: it could not run, or its status and output. *)
Inductive plan_run : Type :=
| NotRun (error : string)
| Ran (code : Z) (stdout stderr : string).

Definition fingerprint (binary : string) (c : ExecutionContract) (run : dict → plan_run) : res string :=
  doc ← to_dict c (Some FINGERPRINT_TASK) false;
  match run doc with
  | NotRun e => Err (BinaryError (binary +:+ ": " +:+ e))
  | Ran code stdout stderr =>
      raise_if (negb (code =? 0)%Z)
        (BinaryError ("foe plan exited with code " +:+ Z_str code +:+ ": " +:+ strip stderr));;
      match loads_text accept_constant stdout with
      | inr (At msg rest) =>
          Err (BinaryError ("foe plan --json printed something other than JSON: "
                            +:+ decode_error_str stdout msg rest))
      | inr (PyJson.Raised msg) => Err (ValueError msg)
      | inl (VDict plan) =>
          match dget plan "contract_fingerprint" with
          | VStr f => Ok f
          | _ => Err (BinaryError "foe plan --json printed no 'contract_fingerprint' string")
          end
      | inl _ => Err (BinaryError "foe plan --json printed no 'contract_fingerprint' string")
      end
  end.

(** [start]: the document [start_config] checks, and the tools it is given. *)
Definition start_contract (c : ExecutionContract) (task : string) (has_backend : bool) : res dict :=
  doc ← to_dict c (Some task) false;
  check_start doc {| viewer := "off"; has_backend := has_backend;
                     implementations := map (λ kh, tool_name (host_tool kh.2)) (all_host_tools c) |};;
  Ok doc.
End contract.

(** ** What construction guarantees *)

(** Where a tool's implementation comes from: exactly one of three places. *)
Definition resolves (defs : list (string * ToolDef)) (host : list (string * hosted)) (n : string) : Prop :=
  ((n ∈ BUILTIN_TOOLS) ∧ has_key defs n = false ∧ has_key host n = false) ∨
  ((n ∉ BUILTIN_TOOLS) ∧ has_key defs n = true ∧ has_key host n = false) ∨
  ((n ∉ BUILTIN_TOOLS) ∧ has_key defs n = false ∧ has_key host n = true).

Definition host_tool_admitted (g : Grants) (defs : list (string * ToolDef)) (k : string) (h : hosted) : Prop :=
  tool_name (host_tool h) = k ∧ (k ∉ BUILTIN_TOOLS) ∧ has_key defs k = false ∧
  (spec_effect (spec (host_tool h)) = writes → g_write g ≠ []) ∧
  (spec_effect (spec (host_tool h)) = execs → defs ≠ []).

Record entries_inv (g : Grants) (defs : list (string * ToolDef))
    (names : list string) (host : list (string * hosted)) : Prop := {
  ent_nodup : NoDup names;
  ent_source : ∀ n, n ∈ names → n ∈ BUILTIN_TOOLS ∨ has_key defs n = true ∨ has_key host n = true;
  ent_host : ∀ k h, (k, h) ∈ host → host_tool_admitted g defs k h ∧ k ∈ names;
  ent_edit : "edit" ∈ names → g_write g ≠ [];
  ent_spawn : "spawn" ∈ names → g_spawn g ≠ [];
}.

Lemma check_host_tool_ok g defs h u :
  check_host_tool g defs (host_tool h) = Ok u →
  host_tool_admitted g defs (tool_name (host_tool h)) h.
Proof.
  unfold check_host_tool. intros ([] & H1%raise_if_ok & H)%res_bind_ok.
  apply res_bind_ok in H as ([] & H2%raise_if_ok & H).
  split_and!; [done|by apply elem_str_false|done| |]; intros He; rewrite He in H;
    apply raise_if_ok in H; [by destruct (g_write g)|by destruct defs].
Qed.

Lemma check_builtin_ok g n u :
  check_builtin g n = Ok u →
  (n = "edit" → g_write g ≠ []) ∧ (n = "spawn" → g_spawn g ≠ []).
Proof.
  unfold check_builtin. intros ([] & H1%raise_if_ok & H2%raise_if_ok)%res_bind_ok.
  split; intros ->; simpl in *; [by destruct (g_write g)|by destruct (g_spawn g)].
Qed.

Lemma has_key_dset {A} (d : list (string * A)) k v n :
  has_key (dset d k v) n = String.eqb k n || has_key d n.
Proof.
  unfold has_key. destruct (String.eqb_spec k n) as [->|Hne]; [by rewrite assoc_dset_eq|].
  by rewrite assoc_dset_ne.
Qed.

Lemma entry_step_inv g defs names host t names' host' :
  entry_step g defs (names, host) t = Ok (names', host') → entries_inv g defs names host →
  entries_inv g defs names' host'.
Proof.
  intros H [Hn Hs Hh He Hp]. unfold entry_step in H.
  apply res_bind_ok in H as (name & Hname & H). apply res_bind_ok in H as ([] & Hnew%raise_if_ok & H).
  apply elem_str_false in Hnew.
  assert (NoDup (names ++ [name])) as Hn'.
  { apply NoDup_app. split_and!; [done| |apply NoDup_singleton].
    intros x Hx ->%list_elem_of_singleton. done. }
  destruct t as [v|h].
  - apply res_bind_ok in H as ([] & Hc & [= <- <-]).
    assert (((name ∈ BUILTIN_TOOLS) ∨ has_key defs name = true) ∧
            (name = "edit" → g_write g ≠ []) ∧ (name = "spawn" → g_spawn g ≠ [])) as (Hsrc & Hed & Hsp).
    { destruct (elem_str name BUILTIN_TOOLS) eqn:Eb.
      - apply elem_str_spec in Eb. apply check_builtin_ok in Hc. tauto.
      - apply raise_if_ok, negb_false_iff in Hc. split; [by right|].
        apply elem_str_false in Eb. split; intros ->; destruct Eb; by apply elem_str_spec. }
    constructor; try done.
    + intros n [Hin| ->%list_elem_of_singleton]%elem_of_app; [by apply Hs|tauto].
    + intros k h Hin. destruct (Hh k h Hin). split; [done|]. set_solver.
    + intros [Hin|Hin%list_elem_of_singleton]%elem_of_app; [by apply He|by apply Hed].
    + intros [Hin|Hin%list_elem_of_singleton]%elem_of_app; [by apply Hp|by apply Hsp].
  - simpl in Hname. injection Hname as <-.
    apply res_bind_ok in H as ([] & Hc%check_host_tool_ok & [= <- <-]).
    set (k := tool_name (host_tool h)) in *.
    assert (k ∉ BUILTIN_TOOLS) as Hb by apply Hc.
    constructor; try done.
    + intros n [Hin| ->%list_elem_of_singleton]%elem_of_app; rewrite has_key_dset.
      * destruct (Hs n Hin) as [?|[?| ->]]; [auto|auto|]. rewrite orb_true_r. auto.
      * rewrite String.eqb_refl. auto.
    + intros k' h' [[= -> ->]|Hin]%dset_elem; [split; [done|set_solver]|].
      destruct (Hh k' h' Hin). split; [done|]. set_solver.
    + intros [Hin|Hin%list_elem_of_singleton]%elem_of_app; [by apply He|].
      exfalso. apply Hb. rewrite <-Hin. by apply elem_str_spec.
    + intros [Hin|Hin%list_elem_of_singleton]%elem_of_app; [by apply Hp|].
      exfalso. apply Hb. rewrite <-Hin. by apply elem_str_spec.
Qed.

Lemma entries_loop_inv g defs l st names host :
  foldM (entry_step g defs) st l = Ok (names, host) → entries_inv g defs st.1 st.2 →
  entries_inv g defs names host ∧ length names = length st.1 + length l.
Proof.
  revert st. induction l as [|t l IH]; intros [n h] H Hi; simpl in H.
  - injection H as <- <-. split; [done|]. simpl. lia.
  - apply res_bind_ok in H as ([n' h'] & Ht & H). pose proof (entry_step_inv _ _ _ _ _ _ _ Ht Hi) as Hi'.
    destruct (IH _ H Hi') as [Hf Hlen]. split; [done|]. simpl in *. rewrite Hlen.
    unfold entry_step in Ht. apply res_bind_ok in Ht as (nm & _ & Ht).
    apply res_bind_ok in Ht as ([] & _ & Ht).
    destruct t; apply res_bind_ok in Ht as ([] & _ & [= <- <-]); rewrite length_app; simpl; lia.
Qed.

Lemma raise_each_ok {A} (f : A → bool) (e : A → exn) l u :
  foldM (λ _ x, raise_if (f x) (e x)) () l = Ok u → ∀ x, x ∈ l → f x = false.
Proof.
  induction l as [|y l IH]; intros H x Hx; [by apply elem_of_nil in Hx|]. simpl in H.
  apply res_bind_ok in H as ([] & Hy%raise_if_ok & H).
  apply elem_of_cons in Hx as [->|Hx]; [done|by apply IH].
Qed.

Lemma check_spawn_all children l u :
  foldM (check_spawn children) () l = Ok u →
  ∀ v, v ∈ l → ∃ k, v = VStr k ∧ has_key children k = true.
Proof.
  induction l as [|y l IH]; intros H v Hv; [by apply elem_of_nil in Hv|]. simpl in H.
  apply res_bind_ok in H as ([] & Hy & H). unfold check_spawn in Hy.
  apply res_bind_ok in Hy as ([] & _ & Hy%raise_if_ok).
  apply elem_of_cons in Hv as [->|Hv]; [|by apply IH].
  destruct y; try done. eexists. split; [done|]. by destruct (has_key children s).
Qed.

(** Claim C4. A contract that constructs is coherent: its tools are named once
    and each has exactly one implementation (built in, configured, or a host
    tool), every tool that writes, executes or spawns has the grant for it, the
    verifier is one of the tools and, if it runs in the host, takes exactly one
    argument, and every child that may be spawned has a contract. *)
Theorem contract_coherent a c :
  make_contract a = Ok c →
  truthy (e_name c) = true ∧ e_instructions c ≠ [] ∧ e_tools c ≠ [] ∧ NoDup (e_tools c) ∧
  (∀ n, n ∈ e_tools c → resolves (e_tool_defs c) (e_host_tools c) n) ∧
  (∀ k h, (k, h) ∈ e_host_tools c →
     host_tool_admitted (e_grants c) (e_tool_defs c) k h ∧ k ∈ e_tools c) ∧
  ("edit" ∈ e_tools c → g_write (e_grants c) ≠ []) ∧
  ("spawn" ∈ e_tools c → g_spawn (e_grants c) ≠ []) ∧
  (∀ v r s, e_done_when c = Some (Verified v r s) →
     verifier_name v ∈ e_tools c ∧
     ∀ h, assoc (e_host_tools c) (verifier_name v) = Some h →
       ∃ p, dget (params (spec (host_tool h))) "properties" = VDict p ∧ length p = 1) ∧
  (∀ v, v ∈ g_spawn (e_grants c) → ∃ k, v = VStr k ∧ has_key (e_child_contracts c) k = true).
Proof.
  unfold make_contract. intros H.
  apply res_bind_ok in H as ([] & H1%raise_if_ok & H). apply res_bind_ok in H as ([] & H2%raise_if_ok & H).
  apply res_bind_ok in H as ([] & H3%raise_if_ok & H). apply res_bind_ok in H as ([] & _ & H).
  apply res_bind_ok in H as (w & _ & H). apply res_bind_ok in H as ([names host] & Hl & H).
  apply res_bind_ok in H as ([] & Hdefs & H). apply res_bind_ok in H as ([] & Hver & H).
  apply res_bind_ok in H as ([] & Hspawn & [= <-]). simpl.
  apply entries_loop_inv in Hl as [[Hn Hs Hh He Hp] Hlen]; simpl.
  2:{ constructor; try (by intros; exfalso; eapply elem_of_nil); try (by intros ?%elem_of_nil).
      apply NoDup_nil_2. }
  pose proof (raise_each_ok (λ kd : string * ToolDef, elem_str kd.1 BUILTIN_TOOLS) _ _ _ Hdefs) as Hdefs'.
  assert (∀ n, has_key (a_tool_defs a) n = true → n ∉ BUILTIN_TOOLS) as Hdb.
  { intros n [d Hd%assoc_elem]%has_key_assoc. specialize (Hdefs' _ Hd). by apply elem_str_false. }
  assert (∀ n, has_key host n = true → (n ∉ BUILTIN_TOOLS) ∧ has_key (a_tool_defs a) n = false) as Hhb.
  { intros n [h Hk%assoc_elem]%has_key_assoc. destruct (Hh _ _ Hk) as [(_ & ? & ? & _) _]. done. }
  split_and!; try done.
  - by destruct (truthy (a_name a)).
  - by destruct (a_instructions a).
  - intros ->. simpl in Hlen. unfold listed in Hlen.
    destruct (a_tools a); [done|]. destruct (a_done_when a) as [[|[] ? ?]|]; simpl in Hlen; try lia.
    destruct (_ || _); simpl in Hlen; lia.
  - intros n Hin. unfold resolves.
    destruct (has_key host n) eqn:Eh.
    { destruct (Hhb n Eh). auto. }
    destruct (has_key (a_tool_defs a) n) eqn:Ed.
    { right. left. split_and!; [by apply Hdb|done|done]. }
    left. split_and!; [|done|done]. destruct (Hs n Hin) as [?|[?|?]]; [done|congruence|congruence].
  - intros v r s Hw. rewrite Hw in Hver. simpl in Hver.
    apply res_bind_ok in Hver as ([] & Hin%raise_if_ok%negb_false_iff%elem_str_spec & Hver). split; [done|].
    intros h Hassoc. rewrite Hassoc in Hver. apply raise_if_ok, negb_false_iff, Nat.eqb_eq in Hver.
    destruct (dget _ _) as [| | | | | |p]; try done. eauto.
  - by eapply check_spawn_all.
Qed.

(** ** The claim at a concrete contract *)

Definition example_arguments : arguments := {|
  a_name := VStr "reviewer";
  a_instructions := [("system", VStr "Review the change.")];
  a_tools := [Named (VStr "read"); Named (VStr "edit"); Named (VStr "check")];
  a_grants := {| g_read := [VStr "/work"]; g_write := [VStr "/work/out"]; g_execute := []; g_spawn := [] |};
  a_budget := {| b_model_calls := VInt 20; b_input_tokens := VNone; b_output_tokens := VNone;
                 b_seconds := VNone; b_max_depth := VNone; b_max_episodes := VNone;
                 b_max_concurrent := VNone; b_loop_threshold := VNone |};
  a_tool_defs := [("check", {| t_exec := VStr "/work/check"; t_description := VStr "Run the checks.";
                               t_instruction := VNone; t_network := false; t_timeout_seconds := VNone;
                               t_cwd := VNone |})];
  a_done_when := Some (Verified (VerifyName "check") (VInt 2) None);
  a_child_contracts := []; a_model := None; a_sandbox := VNone; a_workflow := VNone; a_context := None |}.

Lemma contract_coherent_witness :
  ∃ c, make_contract example_arguments = Ok c ∧ "check" ∈ e_tools c ∧ g_write (e_grants c) ≠ [].
Proof.
  eexists. split; [vm_compute; reflexivity|].
  match goal with |- context [e_tools ?c] =>
    destruct (contract_coherent example_arguments c) as (_ & _ & _ & _ & _ & _ & Hedit & _ & Hv & _) end;
    [vm_compute; reflexivity|].
  split.
  - apply (Hv (VerifyName "check") (VInt 2) None). reflexivity.
  - apply Hedit. right. left.
Defined.
