(* ===== verification/Builtin.v ===== *)
(** * Built-in documents

    src/python/foe/_builtin.py: the document a binary carries, read as the
    arguments of a contract, with the verifier and the bounds that admit_workflows its
    findings.  The process that prints the document and the file system are
    parameters.  The module mutates the decoded document in place; decoding
    gives a tree of objects of its own, so the model returns the changed tree. *)

From stdpp Require Import base list sets strings pretty.
From Stdlib Require Import ZArith Lia SpecFloat.
From S2P Require Import Prelude PyValue PyText PyJson PyPath TraceOutcome Schema Outcome Tools Host Contract.

Definition VERIFIER_TOOL : string := "check".
Definition DEFAULT_RETRIES : Z := 2.
Definition DEFAULT_MAX_EPISODES : Z := 8.
Definition DEFAULT_MAX_FIRES : Z := 1.
Definition TASK_SOURCE : string := "task".

Definition dquoted (s : string) : string := String dquote s +:+ String dquote "".
Definition VERIFIER_DESCRIPTION : string :=
  "The task's verifier. It runs in the root directory, prints one finding per line, and exits with status "
  +:+ "zero whether or not it found any; printing nothing is acceptance. An ordinary call takes {"
  +:+ dquoted "args" +:+ ": []}, "
  +:+ "and the run that judges completion receives the completion value as JSON on standard input.".

Definition CONTRACT_KEYS : list string :=
  ["name"; "instructions"; "tools"; "tool_defs"; "host_tools"; "grants"; "budget";
   "done_when"; "sandbox"; "child_contracts"; "workflow"; "context"].
Definition CONTEXT_KEYS : list string :=
  ["compact"; "window_tokens"; "reserve_tokens"; "keep_recent_tokens"; "margin_tokens"].
Definition GRANT_KEYS : list string := ["read"; "write"; "execute"; "spawn"; "bind"; "task_session"].
Definition BUDGET_KEYS : list string :=
  ["model_calls"; "input_tokens"; "output_tokens"; "seconds"; "max_depth"; "max_episodes";
   "max_concurrent"; "loop_threshold"].
Definition TOOL_DEF_KEYS : list string :=
  ["exec"; "description"; "instruction"; "network"; "timeout_seconds"; "cwd"].

(** ** The printed document *)

Definition planned_document (name binary : string) (run : plan_run) : res dict :=
  match run with
  | NotRun e => Err (BinaryError (binary +:+ ": " +:+ e))
  | Ran code stdout stderr =>
      let message := strip stderr in
      raise_if (negb (code =? 0)%Z)
        (ConfigError (if String.eqb message "" then "builtin:" +:+ name +:+ ": foe plan exited with no message"
                      else message));;
      match loads_text accept_constant stdout with
      | inr (At msg rest) =>
          Err (BinaryError ("foe plan --json printed something other than JSON: "
                            +:+ decode_error_str stdout msg rest))
      | inr (PyJson.Raised msg) => Err (ValueError msg)
      | inl plan =>
          match dget (dict_or_empty plan) "contract" with
          | VDict d => Ok d
          | _ => Err (BinaryError "foe plan --json printed no 'contract' object")
          end
      end
  end.

(** ** Reading a document as arguments *)

(** [for key in sorted(block): if key not in allowed: raise]. *)
Definition check_keys (allowed : list string) (prefix message : string) (block : value) : res () :=
  ks ← py_iter block;
  if forallb is_str ks then
    foldM (λ _ k, raise_if (negb (elem_str k allowed)) (ConfigError (prefix +:+ k +:+ message)))
      () (sorted_strings (omap as_str ks))
  else Err (TypeError "'<' not supported between instances of these types").

(** [list(block.get(key) or ())]. *)
Definition list_of (block : dict) (key : string) : res (list value) :=
  py_iter (py_or (dget block key) (VList [])).

Definition read_grants (block : value) (where_ : string) : res Grants :=
  check_keys GRANT_KEYS (where_ +:+ "grants.") ": the package models no grant of that name" block;;
  b ← as_mapping block;
  foldM (λ _ key, raise_if (truthy (dget b key))
    (ConfigError (where_ +:+ "grants." +:+ key +:+ ": the package models no " +:+ key +:+ " grant")))
    () ["bind"; "task_session"];;
  r ← list_of b "read"; w ← list_of b "write"; x ← list_of b "execute"; s ← list_of b "spawn";
  Ok {| g_read := r; g_write := w; g_execute := x; g_spawn := s |}.

Definition read_budget (block : value) (where_ : string) : res Budget :=
  check_keys BUDGET_KEYS (where_ +:+ "budget.") ": the package models no budget limit of that name" block;;
  b ← as_mapping block;
  let calls := dget b "model_calls" in
  raise_if (is_none calls) (ConfigError (where_ +:+ "budget.model_calls: required"));;
  raise_if (negb (is_string "unlimited" calls) && negb (is_int calls))
    (ConfigError (where_ +:+ "budget.model_calls: a number or " +:+ dquoted "unlimited"));;
  Ok {| b_model_calls := calls; b_input_tokens := dget b "input_tokens";
        b_output_tokens := dget b "output_tokens"; b_seconds := dget b "seconds";
        b_max_depth := dget b "max_depth"; b_max_episodes := dget b "max_episodes";
        b_max_concurrent := dget b "max_concurrent"; b_loop_threshold := dget b "loop_threshold" |}.

Definition read_context (block : value) (where_ : string) : res Context :=
  check_keys CONTEXT_KEYS (where_ +:+ "context.") ": the package models no context key of that name" block;;
  b ← as_mapping block;
  Ok {| c_compact := match dget b "compact" with VNone => VBool true | v => v end;
        c_window_tokens := dget b "window_tokens"; c_reserve_tokens := dget b "reserve_tokens";
        c_keep_recent_tokens := dget b "keep_recent_tokens"; c_margin_tokens := dget b "margin_tokens" |}.

Definition read_tool_def (entry : value) (where_ : string) : res ToolDef :=
  check_keys TOOL_DEF_KEYS (where_ +:+ ".") ": the package models no tool definition key of that name" entry;;
  e ← as_mapping entry;
  raise_if (negb (is_str (dget e "exec")) || negb (is_str (dget e "description")))
    (ConfigError (where_ +:+ ": `exec` and `description` are required strings"));;
  Ok {| t_exec := dget e "exec"; t_description := dget e "description";
        t_instruction := dget e "instruction"; t_network := truthy (dget e "network");
        t_timeout_seconds := dget e "timeout_seconds"; t_cwd := dget e "cwd" |}.

Definition read_done_when (block : value) (where_ : string) : res DoneWhen :=
  check_keys ["verify"; "retries"; "returns"] (where_ +:+ "done_when.")
    ": the package models no completion key of that name" block;;
  b ← as_mapping block;
  match assoc b "verify" with
  | Some v =>
      retries ← py_int (dget_or b "retries" (VInt DEFAULT_RETRIES));
      Ok (Verified (VerifyName (py_str v)) (VInt retries)
            (match dget b "returns" with VNone => None | r => Some (SchemaValue r) end))
  | None =>
      raise_if (negb (has_key b "returns"))
        (ConfigError (where_ +:+ "done_when: states neither `verify` nor `returns`"));;
      raise_if (negb (py_eq (dget_or b "retries" (VInt DEFAULT_RETRIES)) (VInt DEFAULT_RETRIES)))
        (ConfigError (where_ +:+ "done_when.retries: the package writes no retry count beside `returns`"));;
      Ok (Returns (SchemaValue (dget b "returns")))
  end.

(** The fields of a document but for its children, which come as results. *)
Definition read_fields (document : value) (where_ : string)
    (children : res (list (string * ExecutionContract))) : res arguments :=
  check_keys CONTRACT_KEYS where_ ": the package models no contract key of that name" document;;
  d ← as_mapping document;
  raise_if (truthy (dget d "host_tools"))
    (ConfigError (where_ +:+ "host_tools: a document that declares host tools needs their implementations, "
                  +:+ "which the package takes from functions decorated with @foe.tool"));;
  instructions ← match dget d "instructions" with
    | VDict i => if forallb (λ kv, is_str kv.2) i then Ok i
                 else Err (ConfigError (where_ +:+ "instructions: expected an object of strings"))
    | _ => Err (ConfigError (where_ +:+ "instructions: expected an object of strings"))
    end;
  context ← match dget d "context" with
    | VNone => Ok None | c => r ← read_context c where_; Ok (Some r) end;
  tools ← list_of d "tools";
  defs ← py_items (py_or (dget d "tool_defs") (VDict []));
  tool_defs ← map_res (λ kv, t ← read_tool_def kv.2 (where_ +:+ "tool_defs." +:+ kv.1); Ok (kv.1, t)) defs;
  grants ← read_grants (py_or (dget d "grants") (VDict [])) where_;
  budget ← read_budget (py_or (dget d "budget") (VDict [])) where_;
  done_when ← match dget d "done_when" with
    | VNone => Ok None | w => r ← read_done_when w where_; Ok (Some r) end;
  sandbox ← as_mapping (py_or (dget d "sandbox") (VDict []));
  child_contracts ← children;
  Ok {| a_name := dget_or d "name" (VStr ""); a_instructions := instructions;
        a_tools := map Named tools; a_grants := grants; a_budget := budget;
        a_tool_defs := tool_defs; a_done_when := done_when; a_child_contracts := child_contracts;
        a_model := None; a_sandbox := dget sandbox "mode"; a_workflow := dget d "workflow";
        a_context := context |}.

(** [_fields]: a child contract is constructed from its own fields. *)
Fixpoint fields (document : value) (where_ : string) {struct document} : res arguments :=
  read_fields document where_
    match document with
    | VDict d =>
        with_key "child_contracts" (λ cs,
          match cs with
          | VDict children =>
              map_res (λ kc, a ← fields kc.2 (where_ +:+ "child_contracts." +:+ kc.1 +:+ ".");
                             c ← make_contract a; Ok (kc.1, c)) children
          | v => if truthy v then
                   Err (AttributeError ("'" +:+ type_name v +:+ "' object has no attribute 'items'"))
                 else Ok []
          end) (Ok []) d
    | _ => Ok []
    end.

(** ** Preparing the document *)

(** The changes [builtin] makes to one contract of the document. *)
Definition prepare_one (directory : string) (same_model : bool) (c : dict) : res dict :=
  grants ← as_mapping (dget_or c "grants" (VDict []));
  execute ← list_of grants "execute";
  let c := dset c "grants" (VDict (dset grants "execute" (VList (execute ++ [VStr directory])))) in
  let c := dpop c "model" in
  Ok (if same_model then c else dpop c "context").

(** [f] on the entries that are objects. *)
Definition map_objects (f : value → res value) (l : dict) : res dict :=
  map_res (λ kv, match kv.2 with VDict _ => r ← f kv.2; Ok (kv.1, r) | v => Ok (kv.1, v) end) l.

(** The loop over [_contracts(document)], which visits the contract, its
    children and the contracts of its workflow's model nodes. *)
Fixpoint prepare (directory : string) (same_model : bool) (v : value) {struct v} : res value :=
  match v with
  | VDict d =>
      d1 ← prepare_one directory same_model d;
      d2 ← with_key "child_contracts" (λ cs, match cs with
        | VDict es => es' ← map_objects (prepare directory same_model) es;
                      Ok (dset d1 "child_contracts" (VDict es'))
        | _ => Ok d1 end) (Ok d1) d;
      d3 ← with_key "workflow" (λ w, match w with
        | VDict w => with_key "nodes" (λ ns, match ns with
            | VDict ns =>
                ns' ← map_objects (λ node, match node with
                  | VDict n => with_key "model" (λ c, match c with
                      | VDict _ => c' ← prepare directory same_model c; Ok (VDict (dset n "model" c'))
                      | _ => Ok node end) (Ok node) n
                  | _ => Ok node end) ns;
                Ok (dset d2 "workflow" (VDict (dset w "nodes" (VDict ns'))))
            | _ => Ok d2 end) (Ok d2) w
        | _ => Ok d2 end) (Ok d2) d;
      Ok (VDict d3)
  | _ => Ok v
  end.

(** ** The bounds a finding needs *)

(** [_predecessors]: each dictionary node's edge sources. *)
Definition pred_add (found : list (string * list string)) (k x : string) : list (string * list string) :=
  dset found k (set_add x (default [] (assoc found k))).

Definition follow_step (name : string) (found : list (string * list string)) (source : value)
    : res (list (string * list string)) :=
  if is_string TASK_SOURCE source then Ok found
  else known ← in_set source (keys found);
       Ok (if (known : bool) then pred_add found name (py_str source) else found).
Definition branch_target_step (name : string) (found : list (string * list string)) (target : value)
    : res (list (string * list string)) :=
  known ← in_set target (keys found);
  Ok (if (known : bool) then pred_add found (py_str target) name else found).

Definition edges_step (found : list (string * list string)) (kn : string * dict)
    : res (list (string * list string)) :=
  sources ← py_iter (py_or (dget kn.2 "follows") (VList []));
  found ← foldM (follow_step kn.1) found sources;
  branches ← match py_or (dget kn.2 "branches") (VDict []) with
    | VDict b => Ok b
    | v => Err (AttributeError ("'" +:+ type_name v +:+ "' object has no attribute 'values'")) end;
  foldM (λ found kb, targets ← py_iter (py_or kb.2 (VList []));
                     foldM (branch_target_step kn.1) found targets) found branches.

Definition predecessors (nodes : list (string * dict)) : res (list (string * list string)) :=
  foldM edges_step (map (λ kn, (kn.1, [])) nodes) nodes.

Definition runs_model (nodes : list (string * dict)) (name : string) : bool :=
  match assoc nodes name with Some n => is_dict (dget n "model") | None => false end.

(** The breadth-first walk; [fuel] is the number of iterations. *)
Fixpoint nearest_loop (fuel : nat) (nodes : list (string * dict)) (preds : list (string * list string))
    (queue seen : list string) : res (option string) :=
  match queue with
  | [] => Ok None
  | current :: queue =>
      match fuel with
      | O => Err OutOfFuel
      | S fuel =>
          if elem_str current seen then nearest_loop fuel nodes preds queue seen
          else
            match assoc nodes current with
            | None => Err (KeyError current)
            | Some _ =>
                if runs_model nodes current then Ok (Some current)
                else nearest_loop fuel nodes preds
                       (queue ++ sorted_strings (default [] (assoc preds current))) (set_add current seen)
            end
      end
  end.

(** Enough iterations: every node is expanded at most once, and no node has
    more predecessors than there are nodes. *)
Definition walk_fuel (nodes : list (string * dict)) : nat := S (length nodes * length nodes).
Definition nearest_model (nodes : list (string * dict)) (preds : list (string * list string)) (name : string)
    : res (option string) :=
  nearest_loop (walk_fuel nodes) nodes preds [name] [].

(** Whether completing the node can complete the workflow. *)
Definition can_end (node : dict) : bool :=
  truthy (dget node "terminal")
  || match dget node "branches" with
     | VDict b => existsb (λ kb, negb (truthy kb.2)) b
     | _ => false end.

Definition dict_nodes (w : dict) : list (string * dict) :=
  match dget w "nodes" with
  | VDict ns => omap (λ kn, match kn.2 with VDict n => Some (kn.1, n) | _ => None end) ns
  | _ => [] end.

(** [_refired]: one node of the loop, and the loop. *)
Definition refire_step (nodes : list (string * dict)) (preds : list (string * list string))
    (found : list string) (kn : string * dict) : res (list string) :=
  if can_end kn.2 then
    target ← nearest_model nodes preds kn.1;
    Ok match target with Some t => set_add t found | None => found end
  else Ok found.

Definition refired (w : dict) : res (list string) :=
  let nodes := dict_nodes w in
  preds ← predecessors nodes;
  foldM (refire_step nodes preds) [] (sorted_items nodes).

(** [max(current, retries + 1)]. *)
Definition raised (retries : Z) (stated : value) : value :=
  let current := match as_int stated with Some _ => stated | None => VInt DEFAULT_MAX_FIRES end in
  match as_int current with
  | Some z => if (z <? retries + 1)%Z then VInt (retries + 1) else current
  | None => VInt (retries + 1)
  end.

Definition raise_nodes (retries : Z) (names : list string) (ns : dict) : dict :=
  map (λ kn, (kn.1, match kn.2 with
    | VDict n => if elem_str kn.1 names then VDict (dset n "max_fires" (raised retries (dget n "max_fires")))
                 else VDict n
    | v => v end)) ns.

(** The loop over [_workflows(workflow)], each graph before those nested in
    its nodes. *)
Fixpoint admit_workflows (retries : Z) (v : value) {struct v} : res value :=
  match v with
  | VDict w =>
      with_key "nodes" (λ ns, match ns with
        | VDict ns0 =>
            names ← refired w;
            ns1 ← map_objects (λ node, match node with
              | VDict n =>
                  n1 ← with_key "workflow" (λ g, match g with
                    | VDict _ => g' ← admit_workflows retries g; Ok (dset n "workflow" g') | _ => Ok n end) (Ok n) n;
                  n2 ← with_key "model" (λ c, match c with
                    | VDict c0 => with_key "workflow" (λ g, match g with
                        | VDict _ => g' ← admit_workflows retries g;
                                     Ok (dset n1 "model" (VDict (dset c0 "workflow" g')))
                        | _ => Ok n1 end) (Ok n1) c0
                    | _ => Ok n1 end) (Ok n1) n;
                  Ok (VDict n2)
              | _ => Ok node end) ns0;
            Ok (VDict (dset w "nodes" (VDict (raise_nodes retries names ns1))))
        | _ => Ok v end) (Ok v) w
  | _ => Ok v
  end.

(** Whether [_workflows] yields anything. *)
Definition has_graph (v : value) : bool :=
  match v with VDict w => is_dict (dget w "nodes") | _ => false end.

(** [v + n] for an integer [n]. *)
Definition py_add_int (v : value) (n : Z) : res value :=
  match v with
  | VInt z => Ok (VInt (z + n))
  | VBool b => Ok (VInt ((if b then 1 else 0) + n))
  | VFloat f => Ok (VFloat (SFadd 53 1024 f (binary_normalize 53 1024 n 0 false)))
  | v => Err (TypeError ("unsupported operand type(s) for +: '" +:+ type_name v +:+ "' and 'int'"))
  end.

Definition with_episodes (b : Budget) (v : value) : Budget :=
  {| b_model_calls := b_model_calls b; b_input_tokens := b_input_tokens b;
     b_output_tokens := b_output_tokens b; b_seconds := b_seconds b; b_max_depth := b_max_depth b;
     b_max_episodes := v; b_max_concurrent := b_max_concurrent b; b_loop_threshold := b_loop_threshold b |}.

Definition set_workflow (a : arguments) (w : value) (b : Budget) : arguments :=
  {| a_name := a_name a; a_instructions := a_instructions a; a_tools := a_tools a; a_grants := a_grants a;
     a_budget := b; a_tool_defs := a_tool_defs a; a_done_when := a_done_when a;
     a_child_contracts := a_child_contracts a; a_model := a_model a; a_sandbox := a_sandbox a;
     a_workflow := w; a_context := a_context a |}.

Definition admit_refires (a : arguments) (retries : Z) : res arguments :=
  if negb (has_graph (a_workflow a)) then Ok a
  else
    w ← admit_workflows retries (a_workflow a);
    let stated_episodes := b_max_episodes (a_budget a) in
    e ← py_add_int (if is_none stated_episodes then VInt DEFAULT_MAX_EPISODES else stated_episodes) retries;
    Ok (set_workflow a w (with_episodes (a_budget a) e)).

(** ** The gate *)

Definition declared_returns (w : option DoneWhen) : option schema_source :=
  match w with
  | Some (Returns s) => Some s
  | Some (Verified _ _ r) => r
  | None => None
  end.

Definition verifier_collision : exn :=
  ConfigError ("verify: a contract of the document already carries a tool named " +:+ str_repr VERIFIER_TOOL).

(** [_add_verifier] on the arguments and on a contract of the document. *)
Definition add_verifier (a : arguments) (definition : ToolDef) : res arguments :=
  raise_if (existsb (λ t, match t with Named v => is_string VERIFIER_TOOL v | Hosted _ => false end) (a_tools a))
    verifier_collision;;
  Ok {| a_name := a_name a; a_instructions := a_instructions a;
        a_tools := a_tools a ++ [Named (VStr VERIFIER_TOOL)]; a_grants := a_grants a;
        a_budget := a_budget a; a_tool_defs := dset (a_tool_defs a) VERIFIER_TOOL definition;
        a_done_when := a_done_when a; a_child_contracts := a_child_contracts a; a_model := a_model a;
        a_sandbox := a_sandbox a; a_workflow := a_workflow a; a_context := a_context a |}.

Definition add_verifier_raw (definition : dict) (c : dict) : res dict :=
  tools ← list_of c "tools";
  raise_if (existsb (is_string VERIFIER_TOOL) tools) verifier_collision;;
  defs ← match py_or (dget c "tool_defs") (VDict []) with
    | VDict d => Ok d
    | v => Err (TypeError ("'" +:+ type_name v +:+ "' object is not a mapping")) end;
  Ok (dset (dset c "tools" (VList (tools ++ [VStr VERIFIER_TOOL])))
        "tool_defs" (VDict (dset defs VERIFIER_TOOL (VDict definition)))).

(** The loop over [_node_contracts(workflow)]: each contract before those of
    its own workflow. *)
Fixpoint add_verifiers (definition : dict) (v : value) {struct v} : res value :=
  match v with
  | VDict w =>
      with_key "nodes" (λ ns, match ns with
        | VDict ns =>
            ns' ← map_objects (λ node, match node with
              | VDict n => with_key "model" (λ c, match c with
                  | VDict c0 =>
                      c1 ← add_verifier_raw definition c0;
                      c2 ← with_key "workflow" (λ g, match g with
                        | VDict _ => g' ← add_verifiers definition g; Ok (dset c1 "workflow" g')
                        | _ => Ok c1 end) (Ok c1) c0;
                      Ok (VDict (dset n "model" (VDict c2)))
                  | _ => Ok node end) (Ok node) n
              | _ => Ok node end) ns;
            Ok (VDict (dset w "nodes" (VDict ns')))
        | _ => Ok v end) (Ok v) w
  | _ => Ok v
  end.

(** What the caller passes as [verify]. *)
Inductive verify_argument : Type :=
| HostVerifier (h : hosted)
| PathVerifier (path : string).

Definition with_gate (a : arguments) (tools : list tool_entry) (w : DoneWhen) : arguments :=
  {| a_name := a_name a; a_instructions := a_instructions a; a_tools := tools; a_grants := a_grants a;
     a_budget := a_budget a; a_tool_defs := a_tool_defs a; a_done_when := Some w;
     a_child_contracts := a_child_contracts a; a_model := a_model a; a_sandbox := a_sandbox a;
     a_workflow := a_workflow a; a_context := a_context a |}.

Definition gate (a : arguments) (verify : verify_argument) (root : string) (retries : Z) : res arguments :=
  a ← admit_refires a retries;
  let returns := declared_returns (a_done_when a) in
  match verify with
  | HostVerifier h =>
      Ok (with_gate a (a_tools a ++ [Hosted h]) (Verified (VerifyTool h) (VInt retries) returns))
  | PathVerifier path =>
      raise_if (negb (isabs path)) (ConfigError ("verify: " +:+ str_repr path +:+ " is not an absolute path"));;
      let definition := {| t_exec := VStr (path_str path); t_description := VStr VERIFIER_DESCRIPTION;
                           t_instruction := VNone; t_network := false; t_timeout_seconds := VNone;
                           t_cwd := VStr root |} in
      a ← add_verifier a definition;
      raw ← ToolDef_to_dict ("workflow." +:+ VERIFIER_TOOL) definition;
      w ← add_verifiers raw (a_workflow a);
      let a := set_workflow a w (a_budget a) in
      Ok (with_gate a (a_tools a) (Verified (VerifyName VERIFIER_TOOL) (VInt retries) returns))
  end.

(** ** [builtin] *)

Definition set_model (a : arguments) (m : option Model) : arguments :=
  {| a_name := a_name a; a_instructions := a_instructions a; a_tools := a_tools a; a_grants := a_grants a;
     a_budget := a_budget a; a_tool_defs := a_tool_defs a; a_done_when := a_done_when a;
     a_child_contracts := a_child_contracts a; a_model := m; a_sandbox := a_sandbox a;
     a_workflow := a_workflow a; a_context := a_context a |}.

Definition matches_model (m : option Model) (document : dict) : res bool :=
  match m with
  | None => Ok false
  | Some m =>
      planned ← as_mapping (py_or (dget document "model") (VDict []));
      Ok (is_string (m_provider m) (dget planned "provider") && is_string (m_model m) (dget planned "model"))
  end.

Section builtin.
Variable realpath : string → string.
Variable is_dir : string → bool.

Definition directory (root : string) : res string :=
  let d := realpath root in
  raise_if (negb (is_dir d)) (ConfigError ("root: " +:+ str_repr root +:+ " is not a directory"));;
  Ok d.

Definition builtin (name root binary : string) (verify : option verify_argument) (retries : Z)
    (model : option Model) (run : string → plan_run) : res ExecutionContract :=
  raise_if (retries <? 0)%Z (ConfigError ("retries: " +:+ Z_str retries +:+ " is negative"));;
  dir ← directory root;
  document ← planned_document name binary (run dir);
  same ← matches_model model document;
  prepared ← prepare dir same (VDict document);
  a ← fields prepared "";
  let a := set_model a model in
  a ← match verify with Some v => gate a v dir retries | None => Ok a end;
  make_contract a.
End builtin.

(** ** The graph a finding walks back

    [node_edge known name n x k]: the node [name] of the document states that
    [x] fires before [k], because it is [k] and follows [x], or because it is
    [x] and a branch of it names [k]; [known] are the graph's nodes. *)
Inductive node_edge (known : list string) (name : string) (n : dict) : string → string → Prop :=
| edge_follows sources x :
    py_iter (py_or (dget n "follows") (VList [])) = Ok sources →
    VStr x ∈ sources → x ≠ TASK_SOURCE → x ∈ known → node_edge known name n x name
| edge_branch branches label targets l k :
    py_or (dget n "branches") (VDict []) = VDict branches →
    (label, targets) ∈ branches → py_iter (py_or targets (VList [])) = Ok l →
    VStr k ∈ l → k ∈ known → node_edge known name n name k.

Definition edge (nodes : list (string * dict)) (x k : string) : Prop :=
  ∃ kn, kn ∈ nodes ∧ node_edge (keys nodes) kn.1 kn.2 x k.

(** [back nodes n x y]: a walk of [n] edges leads from [x] back to [y]. *)
Inductive back (nodes : list (string * dict)) (x : string) : nat → string → Prop :=
| back_zero : back nodes x 0 x
| back_step n y z : back nodes x n y → edge nodes z y → back nodes x (S n) z.

(** The specification of a walk: a model node that no model node is nearer than. *)
Definition nearest (nodes : list (string * dict)) (name t : string) : Prop :=
  ∃ n, back nodes name n t ∧ runs_model nodes t = true ∧
       ∀ m y, m < n → back nodes name m y → runs_model nodes y = false.

Section predecessors.
Variable nodes : list (string * dict).

Definition pred_of (found : list (string * list string)) (x k : string) : Prop :=
  x ∈ default [] (assoc found k).

Record preds_wf (found : list (string * list string)) : Prop := {
  preds_keys : keys found = keys nodes;
  preds_nodup k : NoDup (default [] (assoc found k));
  preds_known x k : pred_of found x k → x ∈ keys nodes
}.

(** [g] is [f] with exactly the pairs of [R] added. *)
Definition adds (f g : list (string * list string)) (R : string → string → Prop) : Prop :=
  preds_wf f → preds_wf g ∧ ∀ x k, pred_of g x k ↔ pred_of f x k ∨ R x k.

Lemma foldM_adds {A} (step : list (string * list string) → A → res (list (string * list string)))
    (R : A → string → string → Prop) l f g :
  (∀ a f g, a ∈ l → step f a = Ok g → adds f g (R a)) →
  foldM step f l = Ok g → adds f g (λ x k, ∃ a, a ∈ l ∧ R a x k).
Proof.
  intros Hstep Hfold Hwf.
  apply (foldM_ok_ind step (λ done g, preds_wf g ∧ ∀ x k, pred_of g x k ↔ pred_of f x k ∨
           ∃ a, a ∈ done ∧ R a x k) l f g); [| |done].
  - split; [done|]. intros x k. split; [by left|]. intros [?|(a & []%not_elem_of_nil & _)]; done.
  - intros l1 a g1 g2 Ha [Hwf1 H1] Hs. destruct (Hstep a g1 g2 Ha Hs Hwf1) as [Hwf2 H2].
    split; [done|]. intros x k. rewrite H2, H1. setoid_rewrite elem_of_app.
    setoid_rewrite list_elem_of_singleton. naive_solver.
Qed.

Lemma pred_add_adds found k x :
  k ∈ keys nodes → x ∈ keys nodes → adds found (pred_add found k x) (λ x' k', x' = x ∧ k' = k).
Proof.
  intros Hk Hx Hwf. unfold pred_add.
  assert (Hp : ∀ x' k', pred_of (dset found k (set_add x (default [] (assoc found k)))) x' k' ↔
                        pred_of found x' k' ∨ x' = x ∧ k' = k).
  { intros x' k'. unfold pred_of. destruct (decide (k = k')) as [<-|Hne].
    - rewrite assoc_dset_eq. simpl. rewrite elem_of_set_add. tauto.
    - rewrite assoc_dset_ne by done. naive_solver. }
  split; [|done]. split.
  - rewrite keys_dset_in; [apply Hwf|]. by rewrite (preds_keys _ Hwf).
  - intros k'. destruct (decide (k = k')) as [<-|Hne].
    + rewrite assoc_dset_eq. apply NoDup_set_add, Hwf.
    + rewrite assoc_dset_ne by done. apply Hwf.
  - intros x' k' [H|[-> _]]%Hp; [by eapply preds_known|done].
Qed.

Lemma adds_none f : adds f f (λ _ _, False).
Proof. intros Hwf. split; [done|]. tauto. Qed.

Lemma adds_iff f g R R' : (∀ x k, R x k ↔ R' x k) → adds f g R → adds f g R'.
Proof. intros HR H Hwf. destruct (H Hwf) as [? Hg]. split; [done|]. intros x k. by rewrite Hg, HR. Qed.

Lemma adds_trans f g h R R' : adds f g R → adds g h R' → adds f h (λ x k, R x k ∨ R' x k).
Proof.
  intros H1 H2 Hwf. destruct (H1 Hwf) as [Hg Hfg], (H2 Hg) as [Hh Hgh].
  split; [done|]. intros x k. rewrite Hgh, Hfg. tauto.
Qed.

Lemma adds_wf f g R : (preds_wf f → adds f g R) → adds f g R.
Proof. intros H Hwf. by apply H. Qed.

Lemma follow_step_adds name f source g :
  name ∈ keys nodes → follow_step name f source = Ok g →
  adds f g (λ x k, k = name ∧ source = VStr x ∧ x ≠ TASK_SOURCE ∧ x ∈ keys nodes).
Proof.
  intros Hname Hs. apply adds_wf. intros Hwf. revert Hs. unfold follow_step.
  destruct (is_string TASK_SOURCE source) eqn:Et.
  - intros [= <-]. apply is_string_spec in Et as ->.
    apply (adds_iff _ _ (λ _ _, False)); [naive_solver|apply adds_none].
  - intros (known & Hin & [= <-])%res_bind_ok. destruct known.
    + apply in_set_ok in Hin as (t & -> & Ht). rewrite (preds_keys _ Hwf) in Ht. simpl.
      assert (t ≠ TASK_SOURCE) by (intros ->; by rewrite (proj2 (is_string_spec _ _) eq_refl) in Et).
      eapply adds_iff; [|by apply pred_add_adds]. naive_solver.
    + apply (adds_iff _ _ (λ _ _, False)); [|apply adds_none].
      intros x k. split; [done|]. intros (_ & -> & _ & Hx).
      assert (in_set (VStr x) (keys f) = Ok true); [|congruence].
      apply in_set_ok. rewrite (preds_keys _ Hwf). eauto.
Qed.

Lemma branch_target_step_adds name f target g :
  name ∈ keys nodes → branch_target_step name f target = Ok g →
  adds f g (λ x k, x = name ∧ target = VStr k ∧ k ∈ keys nodes).
Proof.
  intros Hname Hs. apply adds_wf. intros Hwf. revert Hs. unfold branch_target_step.
  intros (known & Hin & [= <-])%res_bind_ok. destruct known.
  - apply in_set_ok in Hin as (t & -> & Ht). rewrite (preds_keys _ Hwf) in Ht. simpl.
    eapply adds_iff; [|by apply pred_add_adds]. naive_solver.
  - apply (adds_iff _ _ (λ _ _, False)); [|apply adds_none].
    intros x k. split; [done|]. intros (_ & -> & Hx).
    assert (in_set (VStr k) (keys f) = Ok true); [|congruence].
    apply in_set_ok. rewrite (preds_keys _ Hwf). eauto.
Qed.

Lemma edges_step_adds kn f g :
  kn ∈ nodes → edges_step f kn = Ok g → adds f g (node_edge (keys nodes) kn.1 kn.2).
Proof.
  destruct kn as [name n]. intros Hn. unfold edges_step. simpl.
  assert (Hk : name ∈ keys nodes) by (apply list_elem_of_fmap; by exists (name, n)).
  intros (sources & Es & (f1 & E1 & (branches & Eb & E2)%res_bind_ok)%res_bind_ok)%res_bind_ok.
  apply (foldM_adds _ _ _ _ _ (λ a f g _, follow_step_adds name f a g Hk)) in E1.
  apply (foldM_adds _ (λ kb x k, ∃ l v, py_iter (py_or kb.2 (VList [])) = Ok l ∧ v ∈ l ∧
           x = name ∧ v = VStr k ∧ k ∈ keys nodes)) in E2.
  - eapply adds_iff; [|by eapply adds_trans]. intros x k. split.
    + intros [(v & Hv & -> & -> & Ht & Hx)|([lb t] & Hb & l & v & El & Hv & -> & -> & Hx)].
      * by econstructor.
      * destruct (py_or (dget n "branches") (VDict [])) eqn:Ed; try discriminate Eb.
        injection Eb as ->. by econstructor.
    + intros [sources' x' Es' Hx Ht Hx'|branches' lb t l k' Eb' Hb El Hk' Hk''].
      * rewrite Es in Es'. injection Es' as <-. left. eauto 10.
      * rewrite Eb' in Eb. injection Eb as <-. right. exists (lb, t). eauto 10.
  - intros [lb t] f2 g2 _ (l & El & Hf)%res_bind_ok. simpl in *.
    apply (foldM_adds _ _ _ _ _ (λ a f g _, branch_target_step_adds name f a g Hk)) in Hf.
    eapply adds_iff; [|done]. intros x k. rewrite El. split.
    + intros (v & ? & ?). eauto.
    + intros (l' & v & [= <-] & ? & ?). eauto.
Qed.

Lemma predecessors_spec preds :
  predecessors nodes = Ok preds → preds_wf preds ∧ ∀ x k, pred_of preds x k ↔ edge nodes x k.
Proof.
  intros H. apply (foldM_adds _ _ _ _ _ (λ a f g Ha, edges_step_adds a f g Ha)) in H.
  assert (Hnone : ∀ k, default [] (assoc (map (λ kn : string * dict, (kn.1, @nil string)) nodes) k) = []).
  { intros k. clear. induction nodes as [|[k' n] l IH]; [done|]. simpl. by destruct (String.eqb_spec k' k). }
  destruct H as [Hwf Hp].
  - split; [|intros k; rewrite Hnone; constructor|].
    + unfold keys. rewrite map_map. done.
    + intros x k. unfold pred_of. rewrite Hnone. by intros ?%not_elem_of_nil.
  - split; [done|]. intros x k. rewrite Hp. unfold pred_of. rewrite Hnone. unfold edge.
    split; [intros [?%not_elem_of_nil|?]; done|by right].
Qed.
End predecessors.

(** ** The walk finds a nearest model node *)
Section walk.
Variable nodes : list (string * dict).
Variable preds : list (string * list string).
Variable name : string.
Hypothesis preds_ok : preds_wf nodes preds.
Hypothesis preds_edge : ∀ x k, pred_of preds x k ↔ edge nodes x k.

(** The queue holds nodes [d] edges back, then nodes one edge further; every
    nearer node was seen, and no seen node runs a model. *)
Record frontier (d : nat) (near far seen : list string) : Prop := {
  near_back x : x ∈ near → back nodes name d x;
  far_back x : x ∈ far → back nodes name (S d) x;
  seen_plain x : x ∈ seen → runs_model nodes x = false;
  nearer_seen m y : m < d → back nodes name m y → y ∈ seen;
  level_seen y : back nodes name d y → y ∈ seen ∨ y ∈ near;
  seen_closed s p : s ∈ seen → edge nodes p s → p ∈ seen ∨ p ∈ near ∨ p ∈ far;
  queue_known x : x ∈ near ∨ x ∈ far → x ∈ keys nodes
}.

Definition pending (seen : list string) : nat :=
  sum_list (map (λ k, if elem_str k seen then 0 else length (default [] (assoc preds k))) (keys nodes)).

Lemma pending_le seen c l :
  sum_list (map (λ k, if elem_str k (set_add c seen) then 0 else length (default [] (assoc preds k))) l)
  ≤ sum_list (map (λ k, if elem_str k seen then 0 else length (default [] (assoc preds k))) l).
Proof.
  induction l as [|k l IH]; [done|]. simpl.
  destruct (elem_str k seen) eqn:E.
  - apply elem_str_spec in E.
    rewrite (proj2 (elem_str_spec k (set_add c seen))); [lia|]. apply elem_of_set_add. by right.
  - destruct (elem_str k (set_add c seen)); lia.
Qed.

Lemma pending_add seen c :
  c ∈ keys nodes → c ∉ seen →
  pending (set_add c seen) + length (default [] (assoc preds c)) ≤ pending seen.
Proof.
  unfold pending. intros Hc Hs. induction (keys nodes) as [|k l IH]; [by apply not_elem_of_nil in Hc|].
  simpl. apply elem_of_cons in Hc as [<-|Hc].
  - rewrite (proj2 (elem_str_false c seen) Hs).
    rewrite (proj2 (elem_str_spec c (set_add c seen))) by (apply elem_of_set_add; by left).
    pose proof (pending_le seen c l). lia.
  - specialize (IH Hc). pose proof (pending_le seen c [k]) as Hk. simpl in Hk. lia.
Qed.

Lemma pending_bound : pending [] ≤ length nodes * length nodes.
Proof.
  unfold pending. rewrite <-(length_fmap fst nodes) at 1. change (fst <$> nodes) with (keys nodes).
  assert (Hlen : ∀ k, length (default [] (assoc preds k)) ≤ length nodes).
  { intros k. rewrite <-(length_map fst nodes). apply submseteq_length, NoDup_submseteq.
    - apply (preds_nodup _ _ preds_ok).
    - intros x Hx. by eapply (preds_known _ _ preds_ok). }
  induction (keys nodes) as [|k l IH]; [done|]. simpl. specialize (Hlen k).
  simpl in IH. lia.
Qed.

Lemma frontier_shift d far seen : frontier d [] far seen → frontier (S d) far [] seen.
Proof.
  intros F. split.
  - apply (far_back _ _ _ _ F).
  - by intros x ?%not_elem_of_nil.
  - apply (seen_plain _ _ _ _ F).
  - intros m y Hm Hb. destruct (decide (m = d)) as [->|].
    + by destruct (level_seen _ _ _ _ F y Hb) as [|?%not_elem_of_nil].
    + apply (nearer_seen _ _ _ _ F m); [lia|done].
  - intros y Hb. inversion Hb as [|n x z Hx He]; subst.
    destruct (level_seen _ _ _ _ F x Hx) as [Hs|?%not_elem_of_nil]; [|done].
    destruct (seen_closed _ _ _ _ F x y Hs He) as [|[?%not_elem_of_nil|]]; auto; done.
  - intros s p Hs He. destruct (seen_closed _ _ _ _ F s p Hs He) as [|[?%not_elem_of_nil|]]; auto; done.
  - intros x [Hx|?%not_elem_of_nil]; [|done]. apply (queue_known _ _ _ _ F). by right.
Qed.

Lemma frontier_skip d c near far seen :
  c ∈ seen → frontier d (c :: near) far seen → frontier d near far seen.
Proof.
  intros Hc F. split.
  - intros x Hx. apply (near_back _ _ _ _ F). by right.
  - apply (far_back _ _ _ _ F).
  - apply (seen_plain _ _ _ _ F).
  - apply (nearer_seen _ _ _ _ F).
  - intros y Hy. destruct (level_seen _ _ _ _ F y Hy) as [|[->|]%elem_of_cons]; auto.
  - intros s p Hs He. destruct (seen_closed _ _ _ _ F s p Hs He) as [|[[->|]%elem_of_cons|]]; auto.
  - intros x [Hx|Hx]; apply (queue_known _ _ _ _ F); [left; by right|by right].
Qed.

Lemma frontier_expand d c near far seen :
  runs_model nodes c = false → frontier d (c :: near) far seen →
  frontier d near (far ++ sorted_strings (default [] (assoc preds c))) (set_add c seen).
Proof.
  intros Hc F. assert (Hb : back nodes name d c) by (apply (near_back _ _ _ _ F); left).
  split.
  - intros x Hx. apply (near_back _ _ _ _ F). by right.
  - intros x [Hx|Hx]%elem_of_app; [by apply (far_back _ _ _ _ F)|]. rewrite elem_of_sorted_strings in Hx.
    eapply back_step; [exact Hb|]. by apply preds_edge.
  - intros x [Hx|Hx]%elem_of_set_add; [by subst|]. by apply (seen_plain _ _ _ _ F).
  - intros m y Hm Hy. apply elem_of_set_add. right. by apply (nearer_seen _ _ _ _ F m).
  - intros y Hy. rewrite elem_of_set_add.
    destruct (level_seen _ _ _ _ F y Hy) as [|[->|]%elem_of_cons]; auto.
  - intros s p Hs He. rewrite elem_of_set_add, elem_of_app, elem_of_sorted_strings.
    apply elem_of_set_add in Hs as [->|Hs].
    + right. right. right. by apply preds_edge.
    + destruct (seen_closed _ _ _ _ F s p Hs He) as [|[[->|]%elem_of_cons|]]; auto.
  - intros x [Hx|[Hx|Hx]%elem_of_app].
    + apply (queue_known _ _ _ _ F). left. by right.
    + apply (queue_known _ _ _ _ F). by right.
    + rewrite elem_of_sorted_strings in Hx. by eapply (preds_known _ _ preds_ok).
Qed.

Lemma frontier_none d seen m y : frontier d [] [] seen → back nodes name m y → y ∈ seen.
Proof.
  intros F. assert (Hclosed : ∀ s p, s ∈ seen → edge nodes p s → p ∈ seen).
  { intros s p Hs He.
    destruct (seen_closed _ _ _ _ F s p Hs He) as [|[?%not_elem_of_nil|?%not_elem_of_nil]]; done. }
  intros Hb. destruct (decide (m < d)); [by apply (nearer_seen _ _ _ _ F m)|].
  revert y Hb. induction m as [|m IH]; intros y Hb.
  - destruct d; [|lia]. by destruct (level_seen _ _ _ _ F y Hb) as [|?%not_elem_of_nil].
  - destruct (decide (S m = d)) as [<-|].
    + by destruct (level_seen _ _ _ _ F y Hb) as [|?%not_elem_of_nil].
    + inversion Hb as [|n' x z Hx He]; subst. eapply Hclosed; [|done]. apply IH; [lia|done].
Qed.

Lemma nearest_loop_frontier fuel d near far seen :
  frontier d near far seen → length (near ++ far) + pending seen ≤ fuel →
  (∃ t, nearest_loop fuel nodes preds (near ++ far) seen = Ok (Some t) ∧ nearest nodes name t) ∨
  (nearest_loop fuel nodes preds (near ++ far) seen = Ok None ∧
   ∀ m y, back nodes name m y → runs_model nodes y = false).
Proof.
  revert d near far seen. induction fuel as [|fuel IH]; intros d near far seen F Hfuel.
  - assert (near = [] ∧ far = []) as [-> ->].
    { rewrite length_app in Hfuel. destruct near, far; simpl in *; try lia; done. }
    right. split; [done|]. intros m y Hb. apply (seen_plain _ _ _ _ F). by eapply frontier_none.
  - assert (∃ d' c near' far', frontier d' (c :: near') far' seen ∧ near ++ far = (c :: near') ++ far' ∨
                               (near = [] ∧ far = [])) as (d' & c & near' & far' & [[F' E]|[-> ->]]).
    { destruct near as [|c near]; [|eauto 10]. destruct far as [|c far].
      - exists d, "", [], []. by right.
      - exists (S d), c, far, []. left. split; [by apply frontier_shift|]. by rewrite app_nil_r. }
    + rewrite E in *. clear F E d near far. simpl.
      assert (Hk : c ∈ keys nodes) by (apply (queue_known _ _ _ _ F'); left; left).
      destruct (elem_str c seen) eqn:Es.
      * apply elem_str_spec in Es. apply (IH d'); [by eapply frontier_skip|]. simpl in Hfuel. lia.
      * apply elem_str_false in Es. destruct (assoc nodes c) as [n|] eqn:En; [|by apply assoc_none in En].
        destruct (runs_model nodes c) eqn:Er.
        -- left. exists c. split; [done|]. exists d'. split_and!; [|done|].
           ++ apply (near_back _ _ _ _ F'). left.
           ++ intros m y Hm Hb. apply (seen_plain _ _ _ _ F'). by apply (nearer_seen _ _ _ _ F' m).
        -- rewrite <-app_assoc. apply (IH d'); [by apply frontier_expand|].
           pose proof (pending_add seen c Hk Es). rewrite !length_app in *. simpl in Hfuel.
           rewrite (Permutation_length (sorted_strings_perm _)). lia.
    + right. split; [done|]. intros m y Hb. apply (seen_plain _ _ _ _ F). by eapply frontier_none.
Qed.

Lemma nearest_model_spec :
  name ∈ keys nodes →
  (∃ t, nearest_model nodes preds name = Ok (Some t) ∧ nearest nodes name t) ∨
  (nearest_model nodes preds name = Ok None ∧ ∀ m y, back nodes name m y → runs_model nodes y = false).
Proof.
  intros Hn. unfold nearest_model. apply (nearest_loop_frontier _ 0 [name] []).
  - split; try (by intros ? ?%not_elem_of_nil); try lia.
    + intros x ->%list_elem_of_singleton. constructor.
    + inversion 1. right. left.
    + by intros s p ?%not_elem_of_nil.
    + by intros x [->%list_elem_of_singleton|?%not_elem_of_nil].
  - pose proof pending_bound. unfold walk_fuel. simpl. lia.
Qed.
End walk.

(** ** Claims *)

Lemma map_objects_Forall2 f l r :
  map_objects f l = Ok r →
  Forall2 (λ kv kv', kv'.1 = kv.1 ∧ (if is_dict kv.2 then f kv.2 = Ok kv'.2 else kv'.2 = kv.2)) l r.
Proof.
  intros H%map_res_Forall2. eapply Forall2_impl; [exact H|].
  intros [k v] [k' v']. destruct v; simpl; try (intros [= <- <-]; done).
  intros (r' & Hr & [= <- <-])%res_bind_ok. done.
Qed.

Lemma elem_dict_nodes w k n : (k, n) ∈ dict_nodes w → k ∈ keys (dict_nodes w).
Proof. intros H. apply list_elem_of_fmap. by exists (k, n). Qed.

Section refire.
Variable nodes : list (string * dict).
Variable preds : list (string * list string).
Hypothesis preds_ok : preds_wf nodes preds.
Hypothesis preds_edge : ∀ x k, pred_of preds x k ↔ edge nodes x k.

(** What the walk from one node adds to the names found. *)
Lemma refire_step_spec found kn :
  kn.1 ∈ keys nodes → NoDup found →
  ∃ found', refire_step nodes preds found kn = Ok found' ∧ NoDup found' ∧
    (∀ t, t ∈ found → t ∈ found') ∧
    (∀ t, t ∈ found' → t ∈ found ∨ can_end kn.2 = true ∧ nearest nodes kn.1 t) ∧
    (can_end kn.2 = true → (∃ t, t ∈ found' ∧ nearest nodes kn.1 t) ∨
                           (∀ m y, back nodes kn.1 m y → runs_model nodes y = false)).
Proof.
  intros Hk Hnd. unfold refire_step. destruct (can_end kn.2) eqn:Ec; [|exists found; naive_solver].
  destruct (nearest_model_spec nodes preds kn.1 preds_ok preds_edge Hk) as [(t & -> & Ht)|[-> Hnone]].
  - exists (set_add t found). split_and!; [done|by apply NoDup_set_add|..].
    + intros x Hx. apply elem_of_set_add. by right.
    + intros x [->|]%elem_of_set_add; auto.
    + intros _. left. exists t. split; [apply elem_of_set_add; by left|done].
  - exists found. naive_solver.
Qed.

Lemma refire_loop l found :
  (∀ kn, kn ∈ l → kn ∈ nodes) → NoDup found →
  ∃ names, foldM (refire_step nodes preds) found l = Ok names ∧ NoDup names ∧
    (∀ t, t ∈ found → t ∈ names) ∧
    (∀ t, t ∈ names → t ∈ found ∨ ∃ kn, kn ∈ l ∧ can_end kn.2 = true ∧ nearest nodes kn.1 t) ∧
    (∀ kn, kn ∈ l → can_end kn.2 = true → (∃ t, t ∈ names ∧ nearest nodes kn.1 t) ∨
                                           (∀ m y, back nodes kn.1 m y → runs_model nodes y = false)).
Proof.
  revert found. induction l as [|kn l IH]; intros found Hl Hnd.
  - exists found. split_and!; try done; [auto|]. by intros kn ?%not_elem_of_nil.
  - assert (Hk : kn.1 ∈ keys nodes) by (apply list_elem_of_fmap; exists kn; split; [done|apply Hl; left]).
    destruct (refire_step_spec found kn Hk Hnd) as (found1 & E1 & Hnd1 & Hin1 & Hs1 & Hc1).
    destruct (IH found1) as (names & E & Hnd' & Hin & Hs & Hc); [intros; apply Hl; by right|done|].
    exists names. simpl. rewrite E1. split_and!; [exact E|done|auto|..].
    + intros t [[|[]]%Hs1|(kn' & ? & ?)]%Hs; [by left| |].
      * right. exists kn. split; [left|done].
      * right. exists kn'. split; [by right|done].
    + intros kn' [->|]%elem_of_cons Hcan; [|auto]. destruct (Hc1 Hcan) as [(t & Ht & ?)|]; eauto.
Qed.
End refire.

(** Claim C9. [refired_nearest]: on every workflow whose edges can be read,
    [_refired] returns (the walk always ends within its fuel), it names each
    node once, every node it names is a model node nearest to some node whose
    completion can complete the workflow, and for every such node with a model
    ancestor it names a nearest one. *)
Theorem refired_nearest w preds :
  predecessors (dict_nodes w) = Ok preds →
  ∃ names, refired w = Ok names ∧ NoDup names ∧
    (∀ t, t ∈ names → ∃ kn, kn ∈ dict_nodes w ∧ can_end kn.2 = true ∧ nearest (dict_nodes w) kn.1 t) ∧
    (∀ kn, kn ∈ dict_nodes w → can_end kn.2 = true →
       (∃ t, t ∈ names ∧ nearest (dict_nodes w) kn.1 t) ∨
       (∀ m y, back (dict_nodes w) kn.1 m y → runs_model (dict_nodes w) y = false)).
Proof.
  intros Hp. destruct (predecessors_spec _ _ Hp) as [Hwf He].
  unfold refired. rewrite Hp. simpl.
  destruct (refire_loop _ _ Hwf He (sorted_items (dict_nodes w)) [] (λ kn, proj1 (elem_of_sorted_items kn _)) (NoDup_nil_2))
    as (names & Hr & Hnd & _ & Hs & Hc).
  exists names. split_and!; [done|done| |].
  - intros t Ht. destruct (Hs t Ht) as [?%not_elem_of_nil|(kn & Hkn & ?)]; [done|]. rewrite elem_of_sorted_items in Hkn. eauto.
  - intros kn Hkn. apply Hc. by rewrite elem_of_sorted_items.
Qed.

(** ** The gate *)

(** What [_gate] does to one entry of a graph's nodes. *)
Definition gated_entry (retries : Z) (refires : bool) (v v' : value) : Prop :=
  match v with
  | VDict n => ∃ n', v' = VDict n' ∧
      (if refires then ∃ z, as_int (dget n' "max_fires") = Some z ∧ (retries + 1 ≤ z)%Z ∧
                            ∀ s, as_int (dget n "max_fires") = Some s → (s ≤ z)%Z
       else dget n' "max_fires" = dget n "max_fires") ∧
      ∀ c, dget n "model" = VDict c →
        ∃ c' tools, dget n' "model" = VDict c' ∧ dget c' "tools" = VList (tools ++ [VStr VERIFIER_TOOL]) ∧
                    ¬ VStr VERIFIER_TOOL ∈ tools
  | v => v' = v
  end.

Lemma assoc_dget d k l : dget d k = VDict l → assoc d k = Some (VDict l).
Proof. unfold dget. destruct (assoc d k); simpl; [by intros ->|done]. Qed.

Lemma Forall2_compose {A B C} (P : A → B → Prop) (Q : B → C → Prop) (R : A → C → Prop) l k m :
  (∀ a b c, P a b → Q b c → R a c) → Forall2 P l k → Forall2 Q k m → Forall2 R l m.
Proof. intros HR H. revert m. induction H; inversion 1; subst; constructor; eauto. Qed.

Lemma raised_bounds retries v :
  ∃ z, as_int (raised retries v) = Some z ∧ (retries + 1 ≤ z)%Z ∧ ∀ s, as_int v = Some s → (s ≤ z)%Z.
Proof.
  unfold raised. destruct (as_int v) as [s|] eqn:E.
  - rewrite E. destruct (Z.ltb_spec s (retries + 1)); simpl.
    + eexists. split; [done|]. split; [lia|]. intros ? [= <-]. lia.
    + exists s. split; [done|]. split; [lia|]. by intros ? [= <-].
  - cbn [as_int]. unfold DEFAULT_MAX_FIRES. destruct (Z.ltb_spec 1 (retries + 1)); cbn [as_int];
      (eexists; split; [done|]; split; [lia|done]).
Qed.

Lemma admit_graph retries w ns w' :
  dget w "nodes" = VDict ns → admit_workflows retries (VDict w) = Ok w' →
  ∃ names ns1, refired w = Ok names ∧ w' = VDict (dset w "nodes" (VDict (raise_nodes retries names ns1))) ∧
    Forall2 (λ kv kv1, kv1.1 = kv.1 ∧
      match kv.2 with
      | VDict n => ∃ n1, kv1.2 = VDict n1 ∧ dget n1 "max_fires" = dget n "max_fires" ∧
                         ∀ c, dget n "model" = VDict c → is_dict (dget n1 "model") = true
      | v => kv1.2 = v end) ns ns1.
Proof.
  intros Hns. simpl. rewrite with_key_assoc, (assoc_dget _ _ _ Hns).
  intros (names & Hn & (ns1 & H1 & [= <-])%res_bind_ok)%res_bind_ok.
  exists names, ns1. split_and!; [done|done|]. apply map_objects_Forall2 in H1.
  eapply Forall2_impl; [exact H1|]. intros [k v] [k1 v1] [Hk Hv]. simpl in *. split; [done|].
  destruct v as [| | | | | |n]; try done. simpl in Hv. apply res_bind_ok in Hv as (n1 & E1 & Hv).
  apply res_bind_ok in Hv as (n2 & E2 & [= <-]). rewrite !with_key_assoc in *.
  assert (Hn1 : n1 = n ∨ ∃ g, n1 = dset n "workflow" g).
  { destruct (assoc n "workflow") as [g|]; [|left; congruence].
    destruct g; try (left; congruence). apply res_bind_ok in E1 as (? & _ & [= <-]). eauto. }
  assert (Hn2 : (n2 = n1 ∧ ∀ c, dget n "model" = VDict c → dget n1 "model" = dget n "model")
                ∨ ∃ c, n2 = dset n1 "model" (VDict c)).
  { assert (Hm : dget n1 "model" = dget n "model") by (destruct Hn1 as [->|[g ->]]; by rewrite ?dget_dset_ne).
    destruct (assoc n "model") as [c|]; [|left; split; congruence].
    destruct c as [| | | | | |c]; try (left; split; congruence).
    rewrite with_key_assoc in E2. destruct (assoc c "workflow") as [g|]; [|left; split; congruence].
    destruct g; try (left; split; congruence). apply res_bind_ok in E2 as (? & _ & [= <-]). eauto. }
  exists n2. split; [done|]. split.
  - transitivity (dget n1 "max_fires").
    + destruct Hn2 as [[-> _]|[c ->]]; by rewrite ?dget_dset_ne.
    + destruct Hn1 as [->|[g ->]]; by rewrite ?dget_dset_ne.
  - intros c Hc. destruct Hn2 as [[-> Hm]|[c' ->]]; [by rewrite (Hm c Hc), Hc|by rewrite dget_dset_eq].
Qed.

Lemma add_verifier_raw_tools raw c c' :
  add_verifier_raw raw c = Ok c' →
  ∃ tools, dget c' "tools" = VList (tools ++ [VStr VERIFIER_TOOL]) ∧ ¬ VStr VERIFIER_TOOL ∈ tools.
Proof.
  unfold add_verifier_raw. intros (tools & _ & H)%res_bind_ok. unfold raise_if in H.
  destruct (existsb (is_string VERIFIER_TOOL) tools) eqn:E; [discriminate H|]. simpl in H.
  apply res_bind_ok in H as (defs & _ & [= <-]). exists tools.
  rewrite dget_dset_ne, dget_dset_eq by done. split; [done|]. intros Hin.
  assert (existsb (is_string VERIFIER_TOOL) tools = true); [|congruence].
  apply existsb_exists. exists (VStr VERIFIER_TOOL). split; [by apply list_elem_of_In|by apply is_string_spec].
Qed.

Lemma add_verifiers_graph raw w ns w' :
  dget w "nodes" = VDict ns → add_verifiers raw (VDict w) = Ok w' →
  ∃ ns', w' = VDict (dset w "nodes" (VDict ns')) ∧
    Forall2 (λ kv kv', kv'.1 = kv.1 ∧
      match kv.2 with
      | VDict n => ∃ n', kv'.2 = VDict n' ∧ dget n' "max_fires" = dget n "max_fires" ∧
          (is_dict (dget n "model") = true →
           ∃ c' tools, dget n' "model" = VDict c' ∧ dget c' "tools" = VList (tools ++ [VStr VERIFIER_TOOL]) ∧
                       ¬ VStr VERIFIER_TOOL ∈ tools)
      | v => kv'.2 = v end) ns ns'.
Proof.
  intros Hns. simpl. rewrite with_key_assoc, (assoc_dget _ _ _ Hns).
  intros (ns' & H1 & [= <-])%res_bind_ok. exists ns'. split; [done|].
  apply map_objects_Forall2 in H1. eapply Forall2_impl; [exact H1|].
  intros [k v] [k1 v1] [Hk Hv]. simpl in *. split; [done|].
  destruct v as [| | | | | |n]; try done. simpl in Hv. rewrite with_key_assoc in Hv. unfold dget at 3.
  destruct (assoc n "model") as [c|] eqn:Em.
  2:{ injection Hv as <-. exists n. split_and!; [done|done|]. simpl. done. }
  destruct c as [| | | | | |c]; try (injection Hv as <-; exists n; split_and!; done).
  apply res_bind_ok in Hv as (c1 & E1 & Hv). apply res_bind_ok in Hv as (c2 & E2 & [= <-]).
  eexists. split; [done|]. split; [by rewrite dget_dset_ne|]. intros _.
  destruct (add_verifier_raw_tools _ _ _ E1) as (tools & Ht & Hnin).
  rewrite dget_dset_eq. exists c2, tools. split; [done|]. split; [|done].
  rewrite with_key_assoc in E2. destruct (assoc c "workflow") as [g|]; [|by injection E2 as <-].
  destruct g; try by injection E2 as <-. apply res_bind_ok in E2 as (? & _ & [= <-]).
  by rewrite dget_dset_ne.
Qed.

(** [gate_admits_findings]: gating a document on a verifier program
    leaves a completion rule that runs the verifier and keeps the return schema
    the document declared, lets the episode count grow by one per retry, gives
    every node that a finding can re-fire a [max_fires] that admits the first
    firing and every retry and is no smaller than the stated one, leaves the
    bounds of the other nodes alone, and gives the contract and every model
    node of the graph the verifier as a tool it did not have. *)
Theorem gate_admits_findings a path root retries a' w ns :
  a_workflow a = VDict w → dget w "nodes" = VDict ns →
  gate a (PathVerifier path) root retries = Ok a' →
  isabs path = true ∧
  a_done_when a' = Some (Verified (VerifyName VERIFIER_TOOL) (VInt retries) (declared_returns (a_done_when a))) ∧
  a_tools a' = a_tools a ++ [Named (VStr VERIFIER_TOOL)] ∧
  py_add_int (if is_none (b_max_episodes (a_budget a)) then VInt DEFAULT_MAX_EPISODES
              else b_max_episodes (a_budget a)) retries = Ok (b_max_episodes (a_budget a')) ∧
  ∃ names w' ns', refired w = Ok names ∧ a_workflow a' = VDict w' ∧ dget w' "nodes" = VDict ns' ∧
    Forall2 (λ kv kv', kv'.1 = kv.1 ∧ gated_entry retries (elem_str kv.1 names) kv.2 kv'.2) ns ns'.
Proof.
  intros Hw Hns. unfold gate. intros (a1 & Ha1 & H)%res_bind_ok.
  unfold admit_refires in Ha1. rewrite Hw in Ha1. cbn [has_graph] in Ha1. rewrite Hns in Ha1.
  cbn [is_dict negb] in Ha1. apply res_bind_ok in Ha1 as (w1 & Hw1 & Ha1).
  apply res_bind_ok in Ha1 as (e & He & [= <-]).
  unfold raise_if in H. destruct (isabs path) eqn:Eabs; [|discriminate H]. cbn [negb] in H.
  apply res_bind_ok in H as ([] & _ & H). apply res_bind_ok in H as (a2 & Ha2 & H).
  unfold add_verifier in Ha2. apply res_bind_ok in Ha2 as ([] & _ & [= <-]).
  apply res_bind_ok in H as (raw & _ & H). apply res_bind_ok in H as (w2 & Hw2 & [= <-]). cbn in Hw2.
  split_and!; [done|done|done|exact He|].
  destruct (admit_graph _ _ _ _ Hns Hw1) as (names & ns1 & Hn & -> & F1).
  destruct (add_verifiers_graph raw _ (raise_nodes retries names ns1) _ (dget_dset_eq _ _ _) Hw2) as (ns2 & -> & F2).
  exists names. eexists. exists ns2. split_and!; [done|done|by rewrite dget_dset_eq|].
  unfold raise_nodes in F2. apply Forall2_fmap_l in F2.
  eapply Forall2_compose; [|exact F1|exact F2].
  intros [k v] [k1 v1] [k2 v2] [Hk1 H1] [Hk2 H2]. simpl in *. subst k1 k2. split; [done|].
  destruct v as [| | | | | |n]; try (by subst v1). destruct H1 as (n1 & -> & Hmf & Hm).
  unfold gated_entry. destruct (elem_str k names).
  - destruct H2 as (n2 & -> & Hmf2 & Hm2). exists n2. split_and!; [done| |].
    + rewrite Hmf2, dget_dset_eq, Hmf. apply raised_bounds.
    + intros c Hc. apply Hm2. rewrite dget_dset_ne by done. by eapply Hm.
  - destruct H2 as (n2 & -> & Hmf2 & Hm2). exists n2. split_and!; [done|congruence|].
    intros c Hc. apply Hm2. by eapply Hm.
Qed.

(** ** The claims at a concrete document *)

(** [draft] runs a model and feeds [lint], the terminal node, which runs none. *)
Definition example_graph : dict :=
  [("nodes", VDict [("draft", VDict [("model", VDict [("tools", VList [VStr "read"])])]);
                    ("lint", VDict [("follows", VList [VStr "task"; VStr "draft"]); ("terminal", VBool true)])])].

Lemma refired_nearest_witness :
  ∃ names, refired example_graph = Ok names ∧ names = ["draft"] ∧
    ∀ t, t ∈ names → ∃ kn, kn ∈ dict_nodes example_graph ∧ nearest (dict_nodes example_graph) kn.1 t.
Proof.
  destruct (refired_nearest example_graph [("draft", []); ("lint", ["draft"])]) as (names & Hr & _ & Hs & _);
    [vm_compute; reflexivity|].
  exists names. split; [exact Hr|]. split; [vm_compute in Hr; injection Hr as <-; reflexivity|].
  intros t Ht. destruct (Hs t Ht) as (kn & ? & _ & ?). eauto.
Defined.

(** A document of that graph that returns a value and has no verifier yet. *)
Definition example_ungated : arguments := {|
  a_name := VStr "writer"; a_instructions := []; a_tools := [Named (VStr "read")];
  a_grants := a_grants example_arguments; a_budget := a_budget example_arguments; a_tool_defs := [];
  a_done_when := Some (Returns (SchemaValue (VDict []))); a_child_contracts := []; a_model := None;
  a_sandbox := VNone; a_workflow := VDict example_graph; a_context := None |}.

Lemma gate_admits_findings_witness :
  ∃ a', gate example_ungated (PathVerifier "/work/check") "/work" 2 = Ok a' ∧
    a_done_when a' = Some (Verified (VerifyName VERIFIER_TOOL) (VInt 2) (Some (SchemaValue (VDict [])))) ∧
    Ok (VInt 10) = Ok (b_max_episodes (a_budget a')).
Proof.
  eexists. split; [vm_compute; reflexivity|].
  match goal with |- a_done_when ?a' = _ ∧ _ =>
    destruct (gate_admits_findings example_ungated "/work/check" "/work" 2 a' example_graph
                (dict_or_empty (dget example_graph "nodes"))) as (_ & Hd & _ & He & _) end;
    [reflexivity|reflexivity|vm_compute; reflexivity|].
  split; [exact Hd|exact He].
Defined.

(** ** Findings: what the loops over a document leave out

    [_contracts] and [_node_contracts] follow a node's [model] contract but not
    the graph a node nests in its own [workflow], while [_workflows] follows
    both: a model node of a nested graph keeps its [model] block, gets no
    execute grant, and is given no verifier. *)
Definition nested_node : value := VDict [("model", VDict [("model", VDict []); ("tools", VList [])])].
Definition nested_document : value :=
  VDict [("workflow", VDict [("nodes", VDict
    [("outer", VDict [("workflow", VDict [("nodes", VDict [("inner", nested_node)])])])])])].

Lemma nested_model_block_kept :
  ∃ d, prepare "/work" true nested_document = Ok (VDict d) ∧
    dget d "workflow" = dget (dict_or_empty nested_document) "workflow".
Proof. eexists. split; [vm_compute; reflexivity|reflexivity]. Qed.

Lemma nested_node_without_verifier raw :
  add_verifiers raw (dget (dict_or_empty nested_document) "workflow")
  = Ok (dget (dict_or_empty nested_document) "workflow").
Proof. reflexivity. Qed.
