(* ===== verification/LiteLLM.v ===== *)
(** * The litellm model backend

    src/python/foe/adapters/litellm.py: the request as the provider library
    takes it, and the stream of its parts as the chunks the runtime takes.  The
    provider library is a parameter: given the arguments of [acompletion] it
    yields parts and then ends or raises. *)

From stdpp Require Import base list strings pretty.
From Stdlib Require Import ZArith Lia.
From S2P Require Import Prelude PyValue PyText PyJson Host.

Definition RETRYABLE_ERRORS : list string :=
  ["RateLimitError"; "Timeout"; "APIConnectionError"; "ServiceUnavailableError"; "InternalServerError"].

(** [type(exc).__name__]. *)
Definition exn_type (e : exn) : string :=
  match e with
  | TypeError _ => "TypeError" | ValueError _ => "ValueError" | KeyError _ => "KeyError"
  | IndexError _ => "IndexError" | AttributeError _ => "AttributeError"
  | OverflowError _ => "OverflowError" | OSError _ => "OSError" | RuntimeError _ => "RuntimeError" | RecursionError => "RecursionError"
  | ZeroDivisionError _ => "ZeroDivisionError" | StopIteration => "StopIteration"
  | OutOfFuel => "" | ConfigError _ => "ConfigError" | CapabilityError _ => "CapabilityError"
  | ProtocolError _ => "ProtocolError" | CompatibilityError _ => "CompatibilityError"
  | BinaryError _ => "BinaryError"
  end.

(** ** The request *)

Definition user_block (block : value) : res (list value) :=
  kind ← get block "type";
  if is_string "text" kind then
    text ← get_or block "text" (VStr "");
    Ok [VDict [("type", VStr "text"); ("text", text)]]
  else if is_string "image" kind then
    media ← get_or block "media_type" (VStr "image/png");
    data ← get_or block "data" (VStr "");
    Ok [VDict [("type", VStr "image_url");
               ("image_url", VDict [("url", VStr ("data:" +:+ py_str media +:+ ";base64," +:+ py_str data))])]]
  else Ok [].

Definition openai_call (call : value) : res value :=
  id ← item call "id";
  name ← item call "name";
  args ← get call "args";
  Ok (VDict [("id", id); ("type", VStr "function");
             ("function", VDict [("name", name); ("arguments", VStr (dumps_default (py_or args (VDict []))))])]).

Definition openai_message (message : value) : res (list value) :=
  role ← get message "role";
  if is_string "user" role then
    content ← get message "content";
    blocks ← py_iter (py_or content (VList []));
    blocks ← map_res user_block blocks;
    Ok [VDict [("role", VStr "user"); ("content", VList (concat blocks))]]
  else if is_string "assistant" role then
    text ← get message "text";
    calls ← get message "tool_calls";
    entry ← (if truthy calls then
               calls ← py_iter calls; calls ← map_res openai_call calls;
               Ok [("tool_calls", VList calls)]
             else Ok []);
    Ok [VDict ([("role", VStr "assistant"); ("content", py_or text VNone)] ++ entry)]
  else if is_string "tool" role then
    id ← item message "call_id";
    name ← get message "name";
    content ← get_or message "rendered" (VStr "");
    Ok [VDict [("role", VStr "tool"); ("tool_call_id", id); ("name", name); ("content", content)]]
  else Ok [].

Definition to_openai_messages (system : value) (messages : list value) : res (list value) :=
  out ← map_res openai_message messages;
  Ok ((if truthy system then [VDict [("role", VStr "system"); ("content", system)]] else []) ++ concat out).

Definition openai_tool (t : value) : res value :=
  name ← item t "name";
  description ← get_or t "description" (VStr "");
  parameters ← get t "parameters";
  Ok (VDict [("type", VStr "function");
             ("function", VDict [("name", name); ("description", description);
                ("parameters", py_or parameters
                   (VDict [("type", VStr "object"); ("properties", VDict [])]))])]).

Definition to_openai_tools (tools : list value) : res (list value) := map_res openai_tool tools.

(** The keyword arguments of [acompletion]. *)
Record options : Type := { model : string; api_key : value; api_base : value; completion_kwargs : dict }.

Definition set_given (d : dict) (k : string) (v : value) : dict := if is_none v then d else dset d k v.

Definition request_kwargs (o : options) (request : dict) : res dict :=
  stated ← py_iter (py_or (dget request "messages") (VList []));
  messages ← to_openai_messages (dget_or request "system" (VStr "")) stated;
  let kwargs := dupdate (completion_kwargs o)
    [("model", VStr (model o)); ("messages", VList messages); ("stream", VBool true);
     ("stream_options", VDict [("include_usage", VBool true)])] in
  stated ← py_iter (py_or (dget request "tools") (VList []));
  tools ← to_openai_tools stated;
  let kwargs := match tools with [] => kwargs | _ => dset kwargs "tools" (VList tools) end in
  let kwargs := set_given kwargs "max_tokens" (dget request "max_output_tokens") in
  Ok (set_given (set_given kwargs "api_key" (api_key o)) "api_base" (api_base o)).

(** ** The parts of the stream

    The objects the provider library yields; an attribute an object lacks is
    [VNone], which is what [getattr(obj, name, None)] reads. *)
Record function_part : Type := { fn_name : value; fn_arguments : value }.
Record call_part : Type := { cp_index : value; cp_id : value; cp_function : option function_part }.
Record delta_part : Type := { reasoning_content : value; content : value; tool_calls : list call_part }.
Record choice_part : Type := { finish_reason : value; delta : option delta_part }.
Record stream_part : Type := { part_usage : value; choices : list choice_part }.
(** What [acompletion] yields before it ends or raises. *)
Record provider_run : Type := { parts : list stream_part; raised : option (string * string) }.

Record state : Type := { open_calls : list (Z * value); finish : value; usage : value }.

(** What a step of the loop emits, and the state it leaves or the exception it raises. *)
Definition step_result : Type := (list dict * (state + string * string))%type.

Fixpoint open_id (calls : list (Z * value)) (i : Z) : option value :=
  match calls with
  | [] => None
  | (j, id) :: calls => if (j =? i)%Z then Some id else open_id calls i
  end.

Definition text_chunk (kind : string) (v : value) : list dict :=
  if truthy v then [[("kind", VStr kind); ("delta", v)]] else [].
Definition start_chunk (id name : value) : dict :=
  [("kind", VStr "tool_call_start"); ("id", id); ("name", name)].
Definition delta_chunk (id arguments : value) : dict :=
  [("kind", VStr "tool_call_delta"); ("id", id); ("delta", arguments)].
Definition end_chunk (id : value) : dict := [("kind", VStr "tool_call_end"); ("id", id)].

Definition call_step (st : state) (call : call_part) : step_result :=
  match py_int (py_or (cp_index call) (VInt 0)) with
  | Err e => ([], inr (exn_type e, exn_str e))
  | Ok index =>
      let name := match cp_function call with Some f => fn_name f | None => VNone end in
      let arguments := match cp_function call with Some f => fn_arguments f | None => VNone end in
      let '(id, opened, st) :=
        match open_id (open_calls st) index with
        | Some id => (id, [], st)
        | None =>
            let id := py_or (cp_id call) (VStr ("call_" +:+ Z_str index)) in
            (id, [start_chunk id (py_or name (VStr ""))],
             {| open_calls := open_calls st ++ [(index, id)]; finish := finish st; usage := usage st |})
        end in
      (opened ++ (if truthy arguments then [delta_chunk id arguments] else []), inl st)
  end.

(** A loop whose steps emit chunks and may raise. *)
Fixpoint emit_loop {A} (step : state → A → step_result) (st : state) (l : list A) : step_result :=
  match l with
  | [] => ([], inl st)
  | x :: l =>
      match step st x with
      | (out, inl st') => let r := emit_loop step st' l in (out ++ r.1, r.2)
      | (out, inr e) => (out, inr e)
      end
  end.

Definition part_step (st : state) (part : stream_part) : step_result :=
  let st := if is_none (part_usage part) then st
            else {| open_calls := open_calls st; finish := finish st; usage := part_usage part |} in
  match choices part with
  | [] => ([], inl st)
  | choice :: _ =>
      let st := if truthy (finish_reason choice)
                then {| open_calls := open_calls st; finish := finish_reason choice; usage := usage st |}
                else st in
      match delta choice with
      | None => ([], inl st)
      | Some d =>
          let r := emit_loop call_step st (tool_calls d) in
          (text_chunk "thinking" (reasoning_content d) ++ text_chunk "text" (content d) ++ r.1, r.2)
      end
  end.

Definition stop_reason (finish_reason : value) (saw_tool_call : bool) : string :=
  if is_string "length" finish_reason then "length"
  else if is_string "tool_calls" finish_reason || saw_tool_call then "tool" else "end".

(** [_field]: a mapping and an attribute bag are both [VDict] here. *)
Definition field (obj : value) (key : string) : value := dget (dict_or_empty obj) key.

Definition usage_of (raw : value) : res value :=
  let details := field raw "prompt_tokens_details" in
  input ← py_int (py_or (field raw "prompt_tokens") (VInt 0));
  output ← py_int (py_or (field raw "completion_tokens") (VInt 0));
  cached ← py_int (py_or (field details "cached_tokens") (VInt 0));
  Ok (VDict [("input", VInt input); ("output", VInt output); ("cache_read", VInt cached)]).

Definition provider_error_chunk (e : string * string) : dict :=
  [("kind", VStr "error"); ("message", VStr (e.1 +:+ ": " +:+ e.2));
   ("retryable", VBool (elem_str e.1 RETRYABLE_ERRORS))].
Definition done_chunk (st : state) (u : value) : dict :=
  [("kind", VStr "done");
   ("stop", VStr (stop_reason (finish st) (match open_calls st with [] => false | _ => true end)));
   ("usage", u)].

Definition initial : state := {| open_calls := []; finish := VNone; usage := VNone |}.

(** The chunks of a stream whose call was accepted. *)
Definition stream_chunks (run : provider_run) : backend_run :=
  match emit_loop part_step initial (parts run), raised run with
  | (out, inr e), _ | (out, inl _), Some e => {| chunks := out ++ [provider_error_chunk e]; failure := None |}
  | (out, inl st), None =>
      let ends := map (λ c, end_chunk c.2) (open_calls st) in
      match usage_of (usage st) with
      | Ok u => {| chunks := out ++ ends ++ [done_chunk st u]; failure := None |}
      | Err e => {| chunks := out ++ ends; failure := Some (exn_type e, exn_str e) |}
      end
  end.

Definition model_backend (acompletion : dict → provider_run) (o : options) (request : dict) : backend_run :=
  match request_kwargs o request with
  | Ok kwargs => stream_chunks (acompletion kwargs)
  | Err e => {| chunks := []; failure := Some (exn_type e, exn_str e) |}
  end.

(** ** The chunk protocol

    docs/protocol.md: [accepts ids chunks] while the calls [ids] are open, in
    the order they were started: text at any time, an argument delta only for an
    open call, the ends in the order of the starts, [done] once no call is open,
    and nothing after [done] or [error]. *)
Inductive accepts : list value → list dict → Prop :=
| accepts_text ids kind v l :
    kind = "text" ∨ kind = "thinking" → truthy v = true → accepts ids l →
    accepts ids ([("kind", VStr kind); ("delta", v)] :: l)
| accepts_start ids id name l : accepts (ids ++ [id]) l → accepts ids (start_chunk id name :: l)
| accepts_delta ids id v l : id ∈ ids → accepts ids l → accepts ids (delta_chunk id v :: l)
| accepts_end ids id l : accepts ids l → accepts (id :: ids) (end_chunk id :: l)
| accepts_done st u : accepts [] [done_chunk st u]
| accepts_error ids e : accepts ids [provider_error_chunk e].

(** [out] takes the open calls from [ids] to [ids']. *)
Definition leads (ids : list value) (out : list dict) (ids' : list value) : Prop :=
  ∀ rest, accepts ids' rest → accepts ids (out ++ rest).

Lemma leads_nil ids : leads ids [] ids.
Proof. by intros rest. Qed.
Lemma leads_app a b c o1 o2 : leads a o1 b → leads b o2 c → leads a (o1 ++ o2) c.
Proof. intros H1 H2 rest Hr. rewrite <-app_assoc. auto. Qed.

Lemma leads_text ids kind v : kind = "text" ∨ kind = "thinking" → leads ids (text_chunk kind v) ids.
Proof. intros Hk rest Hr. unfold text_chunk. destruct (truthy v) eqn:E; [by constructor|done]. Qed.

(** The open calls after a step: those of its state, or any when it raised. *)
Definition step_leads (st : state) (r : step_result) : Prop :=
  ∃ ids, leads (map snd (open_calls st)) r.1 ids ∧
         ∀ st', r.2 = inl st' → ids = map snd (open_calls st').

Lemma emit_loop_leads {A} (step : state → A → step_result) st l :
  (∀ st x, step_leads st (step st x)) → step_leads st (emit_loop step st l).
Proof.
  intros Hs. revert st. induction l as [|x l IH]; intros st; simpl.
  - eexists. split; [apply leads_nil|]. by intros st' [= <-].
  - destruct (Hs st x) as (ids & Hl & Hi). destruct (step st x) as [out [st'|e]]; simpl in *.
    + rewrite (Hi st' eq_refl) in Hl. destruct (IH st') as (ids' & Hl' & Hi').
      exists ids'. split; [by eapply leads_app|done].
    + exists ids. by split.
Qed.

Lemma open_id_elem calls i id : open_id calls i = Some id → id ∈ map snd calls.
Proof.
  induction calls as [|[j id'] calls IH]; simpl; [done|].
  destruct (j =? i)%Z; [intros [= ->]; left|]. intros H. right. auto.
Qed.

Lemma call_step_leads st call : step_leads st (call_step st call).
Proof.
  unfold call_step. destruct (py_int _) as [index|e]; simpl.
  2:{ eexists. split; [apply leads_nil|done]. }
  set (args := match cp_function call with Some f => fn_arguments f | None => VNone end).
  assert (Hargs : ∀ ids id, id ∈ ids → leads ids (if truthy args then [delta_chunk id args] else []) ids).
  { intros ids id Hin rest Hr. destruct (truthy args); [by constructor|done]. }
  destruct (open_id (open_calls st) index) as [id|] eqn:E.
  - eexists. split; [|by intros st' [= <-]]. by eapply Hargs, open_id_elem.
  - eexists. split; [|by intros st' [= <-]]. simpl. rewrite map_app.
    intros rest Hr. simpl. constructor. apply Hargs; [|done]. apply elem_of_app. right. left.
Qed.

Lemma part_step_leads st part : step_leads st (part_step st part).
Proof.
  unfold part_step. destruct (is_none (part_usage part)), (choices part) as [|c cs];
    try (eexists; split; [apply leads_nil|by intros st' [= <-]]);
    destruct (truthy (finish_reason c)), (delta c) as [d|];
    try (eexists; split; [apply leads_nil|by intros st' [= <-]]);
    match goal with |- context [emit_loop call_step ?s ?l] =>
      destruct (emit_loop_leads call_step s l call_step_leads) as (ids & Hl & Hi); exists ids end;
    (split; [|done]); eapply leads_app; try (apply leads_text; by right);
    eapply leads_app; try (apply leads_text; by left); done.
Qed.

Lemma ends_lead ids : leads ids (map end_chunk ids) [].
Proof. induction ids as [|id ids IH]; intros rest Hr; [done|]. simpl. constructor. by apply IH. Qed.

(** The text a run shows, and the text the provider sent. *)
Definition texts (l : list dict) : list value :=
  omap (λ c, if is_string "text" (dget c "kind") then Some (dget c "delta") else None) l.
Definition part_text (part : stream_part) : list value :=
  match choices part with
  | c :: _ => match delta c with Some d => if truthy (content d) then [content d] else [] | None => [] end
  | [] => []
  end.

Lemma texts_app a b : texts (a ++ b) = texts a ++ texts b.
Proof. apply omap_app. Qed.

Lemma call_step_texts st call : texts (call_step st call).1 = [].
Proof.
  unfold call_step. destruct (py_int _); [|done].
  destruct (open_id _ _); simpl; by destruct (truthy _).
Qed.

Lemma calls_texts st l : texts (emit_loop call_step st l).1 = [].
Proof.
  revert st. induction l as [|c l IH]; intros st; [done|]. simpl.
  pose proof (call_step_texts st c) as H. destruct (call_step st c) as [out [st'|e]]; simpl in *; [|done].
  by rewrite texts_app, H, IH.
Qed.

Lemma part_step_texts st part : texts (part_step st part).1 = part_text part.
Proof.
  unfold part_step, part_text. destruct (choices part) as [|c cs]; [done|].
  destruct (delta c) as [d|]; [|done]. simpl. rewrite !texts_app, calls_texts.
  unfold text_chunk. by destruct (truthy (reasoning_content d)), (truthy (content d)).
Qed.

Lemma parts_texts st l st' :
  (emit_loop part_step st l).2 = inl st' → texts (emit_loop part_step st l).1 = concat (map part_text l).
Proof.
  revert st. induction l as [|p l IH]; intros st; [done|]. simpl.
  pose proof (part_step_texts st p) as H. destruct (part_step st p) as [out [st1|e]]; simpl in *; [|done].
  intros Hr. by rewrite texts_app, H, IH.
Qed.

Lemma ends_texts ids : texts (map end_chunk ids) = [].
Proof. by induction ids. Qed.

(** [stream_follows_protocol]: whatever the provider yields and
    however it ends, a run that ends without an exception of its own is a
    sequence the chunk protocol accepts from no open call; when it completes,
    its text is the provider's, in order; an exception escapes the backend only
    from a request it cannot translate, before any chunk, or from a usage report
    that holds no integers. *)
Theorem stream_follows_protocol acompletion o request :
  let run := model_backend acompletion o request in
  (failure run = None → accepts [] (chunks run)) ∧
  (∀ kwargs, request_kwargs o request = Ok kwargs →
     (failure run = None → is_string "done" (dget (default [] (last (chunks run))) "kind") = true →
      texts (chunks run) = concat (map part_text (parts (acompletion kwargs)))) ∧
     (failure run ≠ None → ∃ raw e, usage_of raw = Err e)) ∧
  (∀ e, request_kwargs o request = Err e → chunks run = []).
Proof.
  cbv zeta. unfold model_backend. destruct (request_kwargs o request) as [kwargs|e]; [|naive_solver].
  unfold stream_chunks. set (r := acompletion kwargs).
  destruct (emit_loop_leads part_step initial (parts r) part_step_leads) as (ids & Hl & Hi).
  pose proof (parts_texts initial (parts r)) as Ht.
  assert (Herr : ∀ out e, is_string "done" (dget (default [] (last (out ++ [provider_error_chunk e]))) "kind") = true → False).
  { intros out e. rewrite last_snoc. done. }
  destruct (emit_loop part_step initial (parts r)) as [out [st|e]]; simpl in *.
  2:{ split_and!; [intros _; apply Hl; constructor| |done].
      intros k [= <-]. split; [by intros _ ?%Herr|done]. }
  destruct (raised r) as [e|].
  { simpl. split_and!; [intros _; apply Hl; constructor| |done].
    intros k [= <-]. split; [by intros _ ?%Herr|done]. }
  rewrite (Hi st eq_refl) in Hl. destruct (usage_of (usage st)) as [u|e] eqn:Eu; simpl.
  - rewrite <-(map_map snd end_chunk). split_and!; [|intros k [= <-]; split; [intros _ _|done]|done].
    + intros _. apply Hl, ends_lead. constructor.
    + rewrite !texts_app, (Ht st eq_refl), ends_texts. by rewrite app_nil_r.
  - split_and!; [done| |done]. intros k [= <-]. split; [done|eauto].
Qed.
