(* ===== verification/TaskRoot.v ===== *)
(** * Task directories and damage

    src/evals/cross_harness/tasks/protocol.py: how a task directory becomes the
    root an arm runs in, what is recorded beside it, and how damage is found
    afterwards.  The file system is a finite map from paths to files and
    directories, threaded through a monad in which every system call may fail;
    git, the grade script and the corruptions are parameters.  Symbolic links
    are outside the model. *)

From Stdlib Require Import Ascii.
From stdpp Require Import base gmap sets list strings pretty sorting.
From Stdlib Require Import ZArith Lia.
From S2P Require Import Prelude PyValue PyText PyJson PyUnicode JsonText PyPath Sha256 TaskProtocol.

Definition WORKSPACE : string := "workspace".
Definition GRADER : string := "grader".
Definition GRADE_SCRIPT : string := "grade".
Definition ORACLE : string := "oracle".
Definition CORRUPTIONS : string := "corruptions".
Definition PROTECTED_FILE : string := "protected.json".
Definition BOTH : string := "both".
Definition MATERIALIZE_PARTS : list string := [WORKSPACE; GRADER; BOTH].
Definition WORKSPACE_PATCH : string := "workspace.patch".
Definition SOURCE_KEY : string := "source".
Definition UNTOUCHED_CONTROL : string := "untouched".
Definition ORACLE_CONTROL : string := "oracle".
Definition CORRUPTION_CONTROL_PREFIX : string := "corruption-".
Definition CONTROL_ARM_PREFIX : string := "control-".
Definition EXPECTS_FILE : string := "expects".

(** ** The file system *)

Abbreviation path := (list string).
Inductive entry : Type := File (content : string) | Folder.
Abbreviation tree := (gmap (list string) entry).

(** [str(path)] of an absolute path. *)
Definition shown (p : path) : string := absolute p.
Definition parent_of (p : path) : path := removelast p.

Definition is_file (t : tree) (p : path) : bool := match t !! p with Some (File _) => true | _ => false end.
Definition is_folder (t : tree) (p : path) : bool := match t !! p with Some Folder => true | _ => false end.
Definition exists_at (t : tree) (p : path) : bool := match t !! p with Some _ => true | None => false end.

(** What follows a prefix. *)
Fixpoint strip_prefix (p q : path) : option path :=
  match p, q with
  | [], q => Some q
  | x :: p, y :: q => if String.eqb x y then strip_prefix p q else None
  | _ :: _, [] => None
  end.
(** What stands at and below a path, from there. *)
Definition subtree (p : path) (t : tree) : tree :=
  list_to_map (omap (λ kv : path * entry, (λ q, (q, kv.2)) <$> strip_prefix p kv.1) (map_to_list t)).
Definition without (p : path) (t : tree) : tree := filter (λ kv, strip_prefix p kv.1 = None) t.
(** A tree put at a path, replacing what stood there, or over it. *)
Definition place (p : path) (s t : tree) : tree := kmap (app p) s ∪ without p t.
Definition overlay (p : path) (s t : tree) : tree := kmap (app p) s ∪ t.

(** How a system call fails: the message, and what it leaves at the path it
    worked on. *)
Record failure : Type := { message : string; left_behind : tree }.
(** The files, how the coming calls fare, and the paths a removal left standing. *)
Record world : Type := { files : tree; faults : list (option failure); leftovers : list path }.

Definition io (A : Type) : Type := world → res A * world.
#[export] Instance io_ret : MRet io := λ A a w, (Ok a, w).
#[export] Instance io_bind : MBind io := λ A B f m w,
  match m w with (Ok a, w) => f a w | (Err e, w) => (Err e, w) end.
Definition lift {A} (m : res A) : io A := λ w, (m, w).
Definition raise {A} (e : exn) : io A := lift (Err e).
Definition unless (c : bool) (e : exn) : io () := if c then mret () else raise e.
Definition look {A} (f : tree → A) : io A := λ w, (Ok (f (files w)), w).

Definition with_files (t : tree) (w : world) : world := {| files := t; faults := faults w; leftovers := leftovers w |}.
(** One system call: [f] says what it does when it is not made to fail. *)
Definition call {A : Type} (failed : failure → tree → tree) (f : tree → res A * tree) : io A := λ w,
  let w' := {| files := files w; faults := tail (faults w); leftovers := leftovers w |} in
  match faults w with
  | Some x :: _ => (Err (OSError (message x)), with_files (failed x (files w)) w')
  | _ => let '(r, t) := f (files w) in (r, with_files t w')
  end.

Definition no_such (p : path) : exn := OSError ("[Errno 2] No such file or directory: " +:+ str_repr (shown p)).
Definition already (p : path) : exn := OSError ("[Errno 17] File exists: " +:+ str_repr (shown p)).
Definition is_a_folder (p : path) : exn := OSError ("[Errno 21] Is a directory: " +:+ str_repr (shown p)).

Definition read_file (p : path) : io string :=
  call (λ _ t, t) (λ t, (match t !! p with Some (File c) => Ok c | Some Folder => Err (is_a_folder p) | None => Err (no_such p) end, t)).
Definition write_file (p : path) (content : string) : io () :=
  call (λ x t, place p (left_behind x) t)
    (λ t, if negb (is_folder t (parent_of p)) then (Err (no_such p), t)
          else if is_folder t p then (Err (is_a_folder p), t) else (Ok (), <[p := File content]> t)).
Definition make_folder (p : path) : io () :=
  call (λ _ t, t)
    (λ t, if exists_at t p then (Err (already p), t)
          else if is_folder t (parent_of p) then (Ok (), <[p := Folder]> t) else (Err (no_such p), t)).
(** [path.mkdir(parents=True)]: the missing ancestors from the top, then the path. *)
Fixpoint missing_ancestors (done_ rest : path) (t : tree) : list path :=
  match rest with
  | [] | [_] => []
  | x :: rest => let p := done_ ++ [x] in (if exists_at t p then [] else [p]) ++ missing_ancestors p rest t
  end.
Definition make_folders (p : path) : io () :=
  missing ← look (missing_ancestors [] p);
  foldM (λ _ q, make_folder q) () missing;;
  make_folder p.
(** [shutil.copytree], into a path that does not exist or over what is there. *)
Definition copy_tree (src dst : path) : io () :=
  call (λ x t, place dst (left_behind x) t)
    (λ t, if exists_at t dst then (Err (already dst), t) else (Ok (), place dst (subtree src t) t)).
Definition copy_over (src dst : path) : io () :=
  call (λ x t, place dst (left_behind x) t) (λ t, (Ok (), overlay dst (subtree src t) t)).
(** [shutil.copy2]: into a directory under the name of the source. *)
Definition copy_file (src dst : path) : io () :=
  content ← read_file src;
  folder ← look (λ t, is_folder t dst);
  write_file (if (folder : bool) then dst ++ [default "" (last src)] else dst) content.
Definition leave (p : path) (w : world) : world :=
  {| files := files w; faults := faults w; leftovers := leftovers w ++ [p] |}.
(** [shutil.rmtree(p, ignore_errors=True)]. *)
Definition remove_tree (p : path) : io () := λ w,
  match call (λ x t, place p (left_behind x) t) (λ t, (Ok (), without p t)) w with
  | (Err _, w) => (Ok (), leave p w)
  | r => r
  end.
(** [p.unlink()] and [p.unlink(missing_ok=True)]. *)
Definition unlink (missing_ok : bool) (p : path) : io () := λ w,
  match call (λ _ t, t)
    (λ t, match t !! p with
          | Some (File _) => (Ok (), delete p t)
          | Some Folder => (Err (is_a_folder p), t)
          | None => (if missing_ok then Ok () else Err (no_such p), t)
          end) w with
  | (Err e, w) => (Err e, leave p w)
  | r => r
  end.

(** [try: ... except BaseException: ...; raise]. *)
Definition on_error {A} (m : io A) (cleanup : io ()) : io A := λ w,
  match m w with
  | (Err e, w) => match cleanup w with (Ok _, w) => (Err e, w) | (Err e', w) => (Err e', w) end
  | r => r
  end.

(** ** Hashes *)

(** [_files_under]: a file, or every file below a directory, in path order. *)
Definition file_paths (t : tree) : list path :=
  omap (λ kv : path * entry, match kv.2 with File _ => Some kv.1 | Folder => None end) (map_to_list t).
Definition path_leb (p q : path) : Prop := parts_leb p q = true.
#[export] Instance path_leb_dec p q : Decision (path_leb p q).
Proof. unfold path_leb. apply _. Defined.
Definition files_under (t : tree) (p : path) : list path :=
  if is_file t p then [p]
  else if is_folder t p then
    merge_sort path_leb (List.filter (λ q, match strip_prefix p q with Some (_ :: _) => true | _ => false end) (file_paths t))
  else [].
Definition sha256_file (p : path) : io string := content ← read_file p; mret (sha256_hex content).
(** [path.as_posix()] of a relative path. *)
Definition as_posix (q : path) : string := match q with [] => "." | _ => join "/" q end.
Abbreviation hashes := (list (string * string)).

(** [hashes_under]. *)
Definition entry_path (workspace : path) (entry_ : value) : path :=
  match entry_ with VStr e => workspace ++ path_parts e | _ => workspace end.
Definition hash_file (base : path) (h : hashes) (p : path) : io hashes :=
  digest ← sha256_file p;
  mret (dset h (as_posix (default [] (strip_prefix base p))) digest).
Definition hashes_under (workspace : path) (entries : list value) : io hashes :=
  foldM (λ h e, found ← look (λ t, files_under t (entry_path workspace e)); foldM (hash_file workspace) h found) [] entries.

(** [_outside_hashes]. *)
Definition record_path : path := [GRADER; PROTECTED_FILE].
Definition hash_outside (root : path) (h : hashes) (p : path) : io hashes :=
  match default [] (strip_prefix root p) with
  | [] => raise (IndexError "tuple index out of range")
  | x :: rest =>
      if String.eqb x WORKSPACE || bool_decide (x :: rest = record_path) then mret h else hash_file root h p
  end.
Definition outside_hashes (root : path) : io hashes :=
  found ← look (λ t, files_under t root);
  foldM (hash_outside root) [] found.

Definition hashes_value (h : hashes) : value := VDict (map (λ kv, (kv.1, VStr kv.2)) h).
(** [json.dumps(record, indent=2, sort_keys=True) + "\n"]. *)
Definition record_text (d : dict) : string := dumps_indented (sort_keys (VDict d)) +:+ nl.

(** ** Materialising a task *)

(** A string reaches its value through [is_file], [load] and the rest. *)
Definition read_text_at (p : path) : io string := content ← read_file p; lift (read_text (Ok content)).
Section root.
(** The letters and digits of Unicode. *)
Context (word : string → bool).
(** git: whether a repository holds a commit, the tree of a commit, and what a
    patch makes of a workspace. *)
Context (has_commit : string → string → res bool) (git_archive : string → string → res tree)
        (git_apply : string → tree → res tree).
(** The working directory, from which a relative repository path is read. *)
Context (cwd : path).

Definition load_at (dir : path) : io Task :=
  let p := dir ++ [TASK_FILE] in
  there ← look (λ t, is_file t p);
  if there : bool then content ← read_file p; lift (load_task word (shown p) (Some (Ok content)))
  else lift (load_task word (shown p) None).

(** [repository_of]: the nearest ancestor that holds [.git]. *)
Fixpoint ancestors (up : path) : list path :=
  match up with [] => [[]] | x :: up => reverse (x :: up) :: ancestors up end.
Definition repository_of (t : tree) (p : path) : res path :=
  match find (λ q, exists_at t (q ++ [".git"])) (ancestors (reverse p)) with
  | Some q => Ok q
  | None => Err (OSError (shown p +:+ " lies in no git working tree; no ancestor holds .git, so key metadata."
                          +:+ SOURCE_KEY +:+ ".repo must name the repository"))
  end.

(** [recipe_of]: the repository and the base commit. *)
Definition recipe_of (t : tree) (task : Task) (dir : path) : res (string * string) :=
  let prefix := shown (dir ++ [TASK_FILE]) +:+ ": key metadata." +:+ SOURCE_KEY in
  match dget (metadata task) SOURCE_KEY with
  | VDict source =>
      match py_or (dget source "parent") (dget source "commit") with
      | VStr (String _ _ as base) =>
          match dget source "repo" with
          | VNone => q ← repository_of t dir; Ok (shown q, base)
          | VStr (String _ _ as named) =>
              if is_folder t (if isabs named then path_parts named else cwd ++ path_parts named) then Ok (path_str named, base)
              else Err (OSError (prefix +:+ ".repo names " +:+ path_str named +:+ ", which is not a directory"))
          | v => Err (ValueError (prefix +:+ ".repo is " +:+ py_repr v +:+ "; expected a repository path"))
          end
      | _ => Err (ValueError (prefix +:+ ".commit is " +:+ py_repr (dget source "commit")
                              +:+ "; expected a commit hash, so the workspace cannot be regenerated"))
      end
  | v => Err (ValueError (prefix +:+ " is " +:+ py_repr v
                          +:+ "; expected an object with the key commit, so the workspace cannot be regenerated"))
  end.

(** [archive] and [apply_patch]: the commit's tree at a path, and the patch over it. *)
Definition archive (repo commit : string) (destination : path) : io () :=
  data ← lift (git_archive repo commit);
  call (λ x t, place destination (left_behind x) t) (λ t, (Ok (), place destination data t)).
Definition apply_patch (patch workspace : path) : io () :=
  text ← read_text_at patch;
  if String.eqb (str_strip text) "" then mret ()
  else call (λ x t, place workspace (left_behind x) t)
         (λ t, match git_apply text (subtree workspace t) with
               | Ok s => (Ok (), place workspace s t)
               | Err e => (Err e, t)
               end).
Definition regenerate_workspace (task_dir destination : path) : io () :=
  task ← load_at task_dir;
  let patch := task_dir ++ [GRADER; WORKSPACE_PATCH] in
  t ← look id;
  unless (is_file t patch) (OSError (shown patch +:+ " is absent; a task without a " +:+ WORKSPACE
                                     +:+ "/ copy is regenerated from it"));;
  recipe ← lift (recipe_of t task task_dir);
  held ← lift (has_commit recipe.1 recipe.2);
  unless held (ValueError (shown (task_dir ++ [TASK_FILE]) +:+ ": key metadata." +:+ SOURCE_KEY +:+ " names the base commit "
    +:+ recipe.2 +:+ ", which the repository " +:+ recipe.1 +:+ " does not contain, so the workspace cannot be regenerated"));;
  unless (negb (exists_at t destination))
    (OSError (shown destination +:+ " exists; the workspace is regenerated into a fresh directory"));;
  archive recipe.1 recipe.2 destination;;
  apply_patch patch destination.

(** [staged_protected_record]. *)
Definition staged_protected_record (root : path) : path :=
  parent_of root ++ [default "" (last root) +:+ "." +:+ PROTECTED_FILE].

(** The body of the [try] of a call that writes the workspace. *)
Definition check_present (task_dir root : path) (key : string) (entry_ : value) : io () :=
  t ← look id;
  unless (exists_at t (entry_path (root ++ [WORKSPACE]) entry_))
    (OSError (shown (task_dir ++ [TASK_FILE]) +:+ ": key " +:+ key +:+ " names " +:+ py_repr entry_
              +:+ ", which the workspace of " +:+ shown task_dir +:+ " lacks")).
Definition write_workspace (task : Task) (task_dir root : path) : io () :=
  let copy := task_dir ++ [WORKSPACE] in
  let workspace := root ++ [WORKSPACE] in
  kept ← look (λ t, is_folder t copy);
  (if kept : bool then copy_tree copy workspace else regenerate_workspace task_dir workspace);;
  foldM (λ _ e, check_present task_dir root "protected" e) () (protected task);;
  foldM (λ _ e, check_present task_dir root "preserved_on_stop" e) () (preserved_on_stop task);;
  ws ← hashes_under workspace (protected task);
  preserved ← hashes_under workspace (preserved_on_stop task);
  outside ← outside_hashes root;
  write_file (staged_protected_record root)
    (record_text [("workspace", hashes_value ws); ("preserved", hashes_value preserved); ("outside", hashes_value outside)]).
Definition clear_root (root : path) : io () := remove_tree root;; unlink true (staged_protected_record root).

(** [_materialize_grader]. *)
Definition staged_hashes (staged : path) (record : value) : res (value * value * value) :=
  let bad e := Err (ValueError (shown staged +:+ " does not hold the workspace and outside hashes the workspace "
                                +:+ "materialization wrote: " +:+ exn_str e)) in
  match (w ← item record "workspace"; o ← item record "outside"; p ← get_or record "preserved" (VDict []); Ok (w, p, o)) with
  | Ok r => Ok r
  | Err (ValueError _ as e) | Err (KeyError _ as e) | Err (TypeError _ as e) => bad e
  | Err e => Err e
  end.
Definition is_written (relative : string) : bool := starts_with (GRADER +:+ "/") relative || String.eqb relative TASK_FILE.
Definition materialize_grader (task_dir root : path) : io () :=
  let staged := staged_protected_record root in
  t ← look id;
  unless (is_file t staged) (OSError (shown staged +:+ " is absent; the grader of " +:+ shown task_dir
    +:+ " needs a root whose workspace was materialized with parts='workspace'"));;
  unless (negb (exists_at t (root ++ [GRADER]))) (OSError (shown (root ++ [GRADER]) +:+ " exists before the grader of "
    +:+ shown task_dir +:+ " was written there; something other than materialization created it"));;
  content ← read_file staged;
  record ← lift (text ← match read_text (Ok content) with
                        | Err (ValueError m) => Err (ValueError (shown staged +:+ " does not hold the workspace and outside hashes the workspace "
                                                                 +:+ "materialization wrote: " +:+ m))
                        | r => r end;
                 match loads_str text with
                 | inl v => staged_hashes staged v
                 | inr e => Err (ValueError (shown staged +:+ " does not hold the workspace and outside hashes the workspace "
                                             +:+ "materialization wrote: " +:+ load_error_str e))
                 end);
  copy_tree (task_dir ++ [GRADER]) (root ++ [GRADER]);;
  copy_file (task_dir ++ [TASK_FILE]) (root ++ [TASK_FILE]);;
  written ← outside_hashes root;
  let '(ws, preserved, outside) := record in
  outside ← lift match outside with VDict o => Ok o | v => Err (TypeError ("'" +:+ type_name v +:+ "' object is not a mapping")) end;
  let outside := dupdate outside (map (λ kv, (kv.1, VStr kv.2)) (List.filter (λ kv, is_written kv.1) written)) in
  write_file (root ++ record_path) (record_text [("workspace", ws); ("preserved", preserved); ("outside", VDict outside)]);;
  unlink false staged.

Definition materialize (task_dir root : path) (parts : string) : io Task :=
  unless (elem_str parts MATERIALIZE_PARTS) (ValueError ("materialize of " +:+ shown task_dir +:+ " was given parts="
    +:+ str_repr parts +:+ "; expected one of " +:+ join ", " MATERIALIZE_PARTS));;
  task ← load_at task_dir;
  t ← look id;
  unless (is_folder t (task_dir ++ [GRADER])) (OSError (shown (task_dir ++ [GRADER]) +:+ " is absent; a task directory holds "
    +:+ GRADER +:+ "/ and " +:+ TASK_FILE));;
  unless (is_file t (task_dir ++ [GRADER; GRADE_SCRIPT])) (OSError (shown (task_dir ++ [GRADER; GRADE_SCRIPT]) +:+ " is absent"));;
  (if elem_str parts [WORKSPACE; BOTH] then
     unless (is_folder t (task_dir ++ [WORKSPACE]) || is_file t (task_dir ++ [GRADER; WORKSPACE_PATCH]))
       (OSError (shown task_dir +:+ " holds neither " +:+ shown (task_dir ++ [WORKSPACE]) +:+ " nor "
                 +:+ shown (task_dir ++ [GRADER; WORKSPACE_PATCH]) +:+ "; a task keeps a workspace copy or a recipe"));;
     unless (negb (exists_at t root)) (OSError (shown root +:+ " exists; materialize needs a fresh root"));;
     make_folders root;;
     on_error (write_workspace task task_dir root) (clear_root root)
   else mret ());;
  (if String.eqb parts GRADER then materialize_grader task_dir root
   else if String.eqb parts BOTH then on_error (materialize_grader task_dir root) (clear_root root)
   else mret ());;
  mret task.
End root.

(** ** Damage *)

Section grading.
Context (word : string → bool).

(** [changed_files], whose first argument is what the record holds. *)
Definition recorded_differs (recorded : value) (observed : hashes) (relative : value) : res bool :=
  match relative with
  | VStr r =>
      was ← get recorded r;
      Ok (negb (py_eq was match assoc observed r with Some d => VStr d | None => VNone end))
  | _ => was ← as_mapping recorded; Ok false
  end.
Fixpoint differing (recorded : value) (observed : hashes) (relatives : list value) : res (list string) :=
  match relatives with
  | [] => Ok []
  | r :: rest =>
      differs ← recorded_differs recorded observed r;
      changed ← differing recorded observed rest;
      Ok (match as_str r with Some s => if (differs : bool) then s :: changed else changed | None => changed end)
  end.
Definition changed_files (recorded : value) (observed : hashes) : res (list string) :=
  l ← py_iter recorded;
  relatives ← sorted_unique (l ++ map (λ kv, VStr kv.1) observed);
  differing recorded observed relatives.

Definition read_record (root : path) : io value :=
  let p := root ++ record_path in
  there ← look (λ t, is_file t p);
  unless there (OSError (shown p +:+ " is absent; the root was not materialized"));;
  text ← read_text_at p;
  lift match loads_str text with inl v => Ok v | inr e => Err (ValueError (load_error_str e)) end.

Definition damage (root : path) : io (list string) :=
  task ← load_at word root;
  record ← read_record root;
  ws ← lift (item record "workspace");
  ws_now ← hashes_under (root ++ [WORKSPACE]) (protected task);
  outside ← lift (item record "outside");
  outside_now ← outside_hashes root;
  inside ← lift (changed_files ws ws_now);
  beside ← lift (changed_files outside outside_now);
  mret (map (λ r, WORKSPACE +:+ "/" +:+ r) inside ++ beside).

Definition preserved_changed (root : path) : io (list string) :=
  task ← load_at word root;
  record ← read_record root;
  recorded ← lift (get_or record "preserved" (VDict []));
  now ← hashes_under (root ++ [WORKSPACE]) (preserved_on_stop task);
  lift (changed_files recorded now).

(** ** Grading *)

Inductive script_result : Type :=
| Unstarted (error : string)
| Exited (code : Z) (stdout stderr : string).
(** The grade script: its input object and the root, what it printed and what it
    left of the root. *)
Context (run_script : dict → tree → script_result * tree).

Definition grade (root : path) (reported : Reported) (candidate : value) (arm : string) : io GradeResult :=
  found ← damage root;
  preserved ← preserved_changed root;
  let script := shown (root ++ [GRADER; GRADE_SCRIPT]) in
  let payload := [("reported", VDict (Reported_to_dict reported)); ("candidate", candidate); ("arm", VStr arm)] in
  result ← call (λ _ t, t) (λ t, let '(r, s) := run_script payload (subtree root t) in (Ok r, place root s t));
  mret match result with
       | Unstarted e => {| passed := false; findings := ["the grade script " +:+ script +:+ " failed: " +:+ e];
                           damage_found := found; preserved_changed_found := preserved |}
       | Exited code out err =>
           let lines := List.filter (λ l, negb (String.eqb (str_strip l) "")) (str_splitlines out) in
           let findings := lines ++ (if (code =? 0)%Z then [] else
             ["the grade script " +:+ script +:+ " exited " +:+ Z_str code +:+ ": " +:+ str_strip err]) in
           {| passed := negb (nonempty findings) && (code =? 0)%Z; findings := findings;
              damage_found := found; preserved_changed_found := preserved |}
       end.

(** [apply_oracle]. *)
Definition apply_oracle (root : path) : io (Reported * value) :=
  let oracle := root ++ [GRADER; ORACLE] in
  let file name := shown (oracle ++ [name]) in
  t ← look id;
  (if is_folder t (oracle ++ [WORKSPACE]) then copy_over (oracle ++ [WORKSPACE]) (root ++ [WORKSPACE]) else mret ());;
  let json_at p := text ← read_text_at p;
    lift match loads_str text with inl v => Ok v | inr e => Err (ValueError (load_error_str e)) end in
  candidate ← (if is_file t (oracle ++ ["candidate.json"]) then json_at (oracle ++ ["candidate.json"]) else mret VNone);
  reported ←
    (if is_file t (oracle ++ ["reported.json"]) then
       data ← json_at (oracle ++ ["reported.json"]);
       lift match
              (s ← item data "status"; c ← get data "code"; e ← get data "evidence";
               make_reported {| status := py_str s; code := c; evidence := py_str (py_or e (VStr "")) |}) with
            | Ok r => Ok r
            | Err (KeyError _ as e) | Err (ValueError _ as e) => Err (ValueError (file "reported.json" +:+ ": " +:+ exn_str e))
            | Err e => Err e
            end
     else mret {| status := COMPLETED; code := VNone; evidence := "the oracle solved the task" |});
  mret (reported, candidate).

(** ** Controls *)

(** The script of a corruption, over a workspace. *)
Context (run_corruption : path → tree → res tree).
Inductive preparation : Type := Untouched | Oracle | Corrupted (corruption : path).
Record Control : Type := { name : string; must_pass : bool; prepare : preparation; expects : list string }.
Definition arm_of (c : Control) : string := CONTROL_ARM_PREFIX +:+ name c.

(** [expected_findings], [corruptions], [controls_of]. *)
Definition expected_findings (corruption : path) : io (list string) :=
  let p := corruption ++ [EXPECTS_FILE] in
  there ← look (λ t, is_file t p);
  if there : bool then
    text ← read_text_at p;
    mret (map str_strip (List.filter (λ l, negb (String.eqb (str_strip l) "")) (str_splitlines text)))
  else mret [].
Definition child_folders (t : tree) (p : path) : list path :=
  merge_sort path_leb
    (omap (λ kv : path * entry, match strip_prefix p kv.1, kv.2 with Some [_], Folder => Some kv.1 | _, _ => None end) (map_to_list t)).
Definition corruptions (task_dir : path) : io (list path) :=
  let parent := task_dir ++ [GRADER; CORRUPTIONS] in
  t ← look id;
  if is_folder t parent then
    let found := child_folders t parent in
    match find (λ p, negb (is_file t (p ++ ["apply.py"]))) found with
    | Some p => raise (OSError (shown (p ++ ["apply.py"]) +:+ " is absent; a corruption directory holds apply.py"))
    | None => mret found
    end
  else mret [].
Definition controls_of (task_dir : path) : io (list Control) :=
  found ← corruptions task_dir;
  foldM (λ planned c, e ← expected_findings c;
      mret (planned ++ [{| name := CORRUPTION_CONTROL_PREFIX +:+ default "" (last c); must_pass := false; prepare := Corrupted c; expects := e |}]))
    [{| name := UNTOUCHED_CONTROL; must_pass := false; prepare := Untouched; expects := [] |};
     {| name := ORACLE_CONTROL; must_pass := true; prepare := Oracle; expects := [] |}] found.
Definition run_prepare (p : preparation) (root : path) : io (Reported * value) :=
  match p with
  | Untouched => mret ({| status := COMPLETED; code := VNone; evidence := "untouched fixture" |}, VNone)
  | Oracle => apply_oracle root
  | Corrupted c =>
      r ← apply_oracle root;
      call (λ _ t, t) (λ t, match run_corruption c (subtree (root ++ [WORKSPACE]) t) with
                            | Ok s => (Ok (), place (root ++ [WORKSPACE]) s t) | Err e => (Err e, t) end);;
      mret r
  end.

Context (has_commit : string → string → res bool) (git_archive : string → string → res tree)
        (git_apply : string → tree → res tree) (cwd : path).
(** [check_grader_controls], given a scratch directory. *)
Definition check_grader_controls (task_dir scratch : path) : io (list ControlResult) :=
  controls ← controls_of task_dir;
  foldM (λ results c,
      let root := scratch ++ [name c] in
      materialize word has_commit git_archive git_apply cwd task_dir root BOTH;;
      rc ← run_prepare (prepare c) root;
      g ← grade root rc.1 rc.2 (arm_of c);
      mret (results ++ [control_result (name c) (must_pass c) g (expects c)])) [] controls.
End grading.

(** ** Trees *)

Lemma strip_prefix_spec p q r : strip_prefix p q = Some r ↔ q = p ++ r.
Proof.
  revert q. induction p as [|x p IH]; intros q; cbn [strip_prefix app]; [split; congruence|].
  destruct q as [|y q]; [done|]. destruct (String.eqb_spec x y) as [->|Hxy]; [rewrite IH; split; congruence|].
  split; [done|]. by intros [= -> _].
Qed.
Lemma strip_prefix_app p r : strip_prefix p (p ++ r) = Some r.
Proof. by apply strip_prefix_spec. Qed.
Lemma strip_prefix_none p q : strip_prefix p q = None ↔ ∀ r, q ≠ p ++ r.
Proof.
  split; [intros H r Hr; apply strip_prefix_spec in Hr; congruence|]. intros H.
  destruct (strip_prefix p q) as [r|] eqn:E; [|done]. apply strip_prefix_spec in E. by destruct (H r).
Qed.

Lemma lookup_subtree p t q : subtree p t !! q = t !! (p ++ q).
Proof.
  unfold subtree. set (l := omap _ _). apply option_eq. intros e.
  assert (Hl : ∀ q e, (q, e) ∈ l ↔ t !! (p ++ q) = Some e).
  { intros q' e'. subst l. rewrite list_elem_of_omap. split.
    - intros ([k x] & Hk%elem_of_map_to_list & E). cbn in E. destruct (strip_prefix p k) as [r|] eqn:Er; [|done].
      apply strip_prefix_spec in Er as ->. by injection E as -> ->.
    - intros H. exists (p ++ q', e'). split; [by apply elem_of_map_to_list|]. cbn. by rewrite strip_prefix_app. }
  rewrite <-Hl. symmetry. apply elem_of_list_to_map. subst l.
  generalize (NoDup_fst_map_to_list t). generalize (map_to_list t). clear. intros l.
  induction l as [|[k x] l IH]; cbn; [constructor|]. intros [Hk Hn]%NoDup_cons.
  destruct (strip_prefix p k) as [r|] eqn:E; cbn; [|by apply IH]. apply NoDup_cons. split; [|by apply IH].
  intros ([r' y] & -> & Hin)%list_elem_of_fmap. apply list_elem_of_omap in Hin as ([k' y'] & Hin & E'). cbn in *.
  destruct (strip_prefix p k') as [r''|] eqn:E2; [|done]. injection E' as -> ->.
  apply strip_prefix_spec in E as ->. apply strip_prefix_spec in E2 as ->. apply Hk. by apply (list_elem_of_fmap_2 fst) in Hin.
Qed.
Lemma lookup_without p t q : without p t !! q = match strip_prefix p q with Some _ => None | None => t !! q end.
Proof.
  unfold without. destruct (strip_prefix p q) eqn:E.
  - apply map_lookup_filter_None. right. intros x _. cbn. congruence.
  - apply option_eq. intros e. rewrite map_lookup_filter_Some. cbn. naive_solver.
Qed.
Lemma lookup_place p s t q : place p s t !! q = match strip_prefix p q with Some r => s !! r | None => t !! q end.
Proof.
  unfold place. destruct (strip_prefix p q) as [r|] eqn:E.
  - apply strip_prefix_spec in E as ->. assert (Hk : (kmap (app p) s : tree) !! (p ++ r) = s !! r) by apply lookup_kmap, _.
    destruct (s !! r) as [e|] eqn:Er.
    + by apply lookup_union_Some_l.
    + rewrite lookup_union_r by done. by rewrite lookup_without, strip_prefix_app.
  - rewrite lookup_union_r; [by rewrite lookup_without, E|]. apply lookup_kmap_None; [apply _|].
    intros r ->. by rewrite strip_prefix_app in E.
Qed.

(** *** Well-formed trees: names are names, and what contains something is a folder *)

#[export] Instance entry_dec : EqDecision entry.
Proof. solve_decision. Defined.
Definition wf_tree (t : tree) : Prop :=
  map_Forall (λ p _, Forall good_part p ∧ (p = [] ∨ t !! parent_of p = Some Folder)) t.
#[export] Instance good_part_dec c : Decision (good_part c).
Proof. unfold good_part. apply _. Defined.
#[export] Instance wf_tree_dec t : Decision (wf_tree t).
Proof. unfold wf_tree. apply _. Defined.

Lemma wf_ancestor t p x r e : wf_tree t → t !! (p ++ x :: r) = Some e → t !! p = Some Folder.
Proof.
  intros Hwf. revert e. induction r as [|y r IH] using rev_ind; intros e H.
  - destruct (Hwf _ _ H) as [_ [Hn|Hp]]; [by destruct p|]. unfold parent_of in Hp.
    by rewrite removelast_last in Hp.
  - destruct (Hwf _ _ H) as [_ [Hn|Hp]]; [by destruct p|]. unfold parent_of in Hp.
    rewrite app_comm_cons, app_assoc, removelast_last in Hp. by eapply IH.
Qed.

Definition digest_at (t : tree) (p : path) : option string :=
  match t !! p with Some (File c) => Some (sha256_hex c) | _ => None end.
Lemma digest_is_file t p d : digest_at t p = Some d → is_file t p = true.
Proof. unfold digest_at, is_file. by destruct (t !! p) as [[]|]. Qed.
Lemma is_file_digest t p : is_file t p = true → ∃ d, digest_at t p = Some d.
Proof. unfold digest_at, is_file. destruct (t !! p) as [[]|]; eauto; done. Qed.

Lemma elem_of_files_under t p q : wf_tree t → q ∈ files_under t p ↔ is_file t q = true ∧ ∃ r, q = p ++ r.
Proof.
  intros Hwf. unfold files_under. destruct (is_file t p) eqn:Hp.
  { rewrite list_elem_of_singleton. split; [intros ->; split; [done|]; exists []; by rewrite app_nil_r|].
    intros [Hq [r ->]]. destruct r as [|x r]; [by rewrite app_nil_r|]. unfold is_file in *.
    destruct (t !! (p ++ x :: r)) as [e|] eqn:E; [|done]. apply wf_ancestor in E; [|done]. by rewrite E in Hp. }
  destruct (is_folder t p) eqn:Hf.
  - rewrite merge_sort_Permutation, list_elem_of_In, filter_In, <-list_elem_of_In. unfold file_paths.
    rewrite list_elem_of_omap. split.
    + intros [([k e] & Hk%elem_of_map_to_list & E) Hs]. cbn in E. destruct e; [|done]. injection E as ->.
      destruct (strip_prefix p q) as [r|] eqn:Er; [|done]. apply strip_prefix_spec in Er. unfold is_file. rewrite Hk. eauto.
    + intros [Hq [r ->]]. unfold is_file in Hq. destruct (t !! (p ++ r)) as [[c|]|] eqn:E; try done. split.
      * exists (p ++ r, File c). split; [by apply elem_of_map_to_list|done].
      * rewrite strip_prefix_app. destruct r; [|done]. rewrite app_nil_r in E. unfold is_folder in Hf. by rewrite E in Hf.
  - split; [by intros ?%not_elem_of_nil|]. intros [Hq [r ->]]. exfalso. destruct r as [|x r].
    + rewrite app_nil_r in Hq. congruence.
    + unfold is_file in Hq. destruct (t !! (p ++ x :: r)) as [e|] eqn:E; [|done]. apply wf_ancestor in E; [|done].
      unfold is_folder in Hf. by rewrite E in Hf.
Qed.

Lemma as_posix_inj p q : Forall good_part p → Forall good_part q → as_posix p = as_posix q → p = q.
Proof.
  intros Hp Hq H. assert (Hdot : ∀ r, Forall good_part r → r ≠ [] → join "/" r ≠ ".").
  { intros r Hr Hn E. apply (f_equal (split_on slash)) in E. rewrite split_join in E; [subst r|done|].
    - by apply Forall_inv in Hr as (_ & ? & _).
    - eapply Forall_impl; [exact Hr|]. by intros c (_ & _ & ?). }
  apply absolute_inj; [done|done|]. destruct p, q; try done; cbn [as_posix] in H.
  - symmetry in H. by apply Hdot in H.
  - by apply Hdot in H.
  - unfold absolute. by rewrite H.
Qed.

(** ** Programs that only read *)

Lemma io_bind_ok {A B} (m : io A) (f : A → io B) w b w' :
  (m ≫= f) w = (Ok b, w') ↔ ∃ a w1, m w = (Ok a, w1) ∧ f a w1 = (Ok b, w').
Proof.
  unfold mbind, io_bind. destruct (m w) as [[a|e] w1]; [|split; [done|by intros (? & ? & ? & _)]].
  split; [eauto|]. by intros (? & ? & [= <- <-] & ?).
Qed.
Lemma lift_ok {A} (m : res A) w a w' : lift m w = (Ok a, w') ↔ m = Ok a ∧ w' = w.
Proof. unfold lift. split; [by intros [= -> ->]|by intros [-> ->]]. Qed.
Lemma look_ok {A} (f : tree → A) w a w' : look f w = (Ok a, w') ↔ a = f (files w) ∧ w' = w.
Proof. unfold look. split; [by intros [= <- <-]|by intros [-> ->]]. Qed.
Lemma unless_ok c e w u w' : unless c e w = (Ok u, w') ↔ c = true ∧ w' = w.
Proof. destruct u. unfold unless. destruct c; cbn; unfold raise, lift; split; try done; [by intros [= <-]|by intros [_ ->]|by intros [? _]]. Qed.
Lemma mret_ok {A} (a : A) w b w' : (mret a : io A) w = (Ok b, w') ↔ b = a ∧ w' = w.
Proof. unfold mret, io_ret. split; [by intros [= <- <-]|by intros [-> ->]]. Qed.

(** [reads m spec]: when [m] succeeds it has changed no file, and what it yields
    is as [spec] says of the files. *)
Definition reads {A} (m : io A) (spec : tree → A → Prop) : Prop :=
  ∀ w a w', m w = (Ok a, w') → files w' = files w ∧ leftovers w' = leftovers w ∧ spec (files w) a.
Lemma reads_bind {A B} (m : io A) (f : A → io B) (P : tree → A → Prop) (Q : tree → B → Prop) :
  reads m P → (∀ t a, P t a → reads (f a) (λ t' b, t' = t → Q t b)) → reads (m ≫= f) Q.
Proof.
  intros Hm Hf w b w' (a & w1 & H1 & H2)%io_bind_ok. apply Hm in H1 as (E1 & L1 & HP). apply (Hf _ _ HP) in H2 as (E2 & L2 & HQ).
  rewrite E2, L2, E1, L1. split_and!; [done|done|]. by apply HQ.
Qed.
Lemma reads_lift {A} (m : res A) : reads (lift m) (λ _ a, m = Ok a).
Proof. by intros w a w' [? ->]%lift_ok. Qed.
Lemma reads_look {A} (f : tree → A) : reads (look f) (λ t a, a = f t).
Proof. by intros w a w' [-> ->]%look_ok. Qed.
Lemma reads_unless c e : reads (unless c e) (λ _ _, c = true).
Proof. by intros w a w' [? ->]%unless_ok. Qed.
Lemma reads_ret {A} (a : A) : reads (mret a) (λ _ b, b = a).
Proof. by intros w b w' [-> ->]%mret_ok. Qed.

Lemma call_reads {A : Type} (failed : failure → tree → tree) (g : tree → res A) : reads (call failed (λ t, (g t, t))) (λ t a, g t = Ok a).
Proof.
  intros w a w'. unfold call. destruct (faults w) as [|[x|] fs]; cbn; [|done|]; by intros [= <- <-].
Qed.
Lemma reads_file p : reads (read_file p) (λ t c, t !! p = Some (File c)).
Proof.
  intros w c w' H. apply (call_reads _ (λ t, match t !! p with Some (File c) => Ok c | Some Folder => Err (is_a_folder p) | None => Err (no_such p) end)) in H as (E & L & H).
  split_and!; [done|done|]. by destruct (files w !! p) as [[]|]; simplify_eq.
Qed.
Lemma reads_sha256 p : reads (sha256_file p) (λ t d, digest_at t p = Some d).
Proof.
  eapply reads_bind; [apply reads_file|]. intros t c Hc w d w' [-> ->]%mret_ok. split_and!; [done..|].
  intros _. unfold digest_at. by rewrite Hc.
Qed.

(** A loop of reads keeps an invariant. *)
Lemma reads_loop {A S} (f : S → A → io S) (P : tree → list A → S → Prop) l s :
  (∀ done_ x s, reads (f s x) (λ t s', P t done_ s → P t (done_ ++ [x]) s')) →
  reads (foldM f s l) (λ t s', P t [] s → P t l s').
Proof.
  intros Hf. assert (H : ∀ l done_ s, reads (foldM f s l) (λ t s', P t done_ s → P t (done_ ++ l) s')); [|exact (H l [] s)].
  clear l s. induction l as [|x l IH]; intros done_ s.
  - intros w a w' [-> ->]%mret_ok. rewrite app_nil_r. done.
  - cbn [foldM]. eapply reads_bind; [apply (Hf done_)|]. intros t s' Hs'.
    intros w a w' H. apply (IH (done_ ++ [x])) in H as (E & L & H). split_and!; [done..|].
    intros <- Hd. rewrite <-app_assoc in H. by apply H, Hs'.
Qed.

(** ** What the hashes say *)

(** [covers t base sel h]: [h] holds the digest of the files below [base] that
    [sel] takes, by their relative path, each once. *)
Definition covers (t : tree) (base : path) (sel : path → Prop) (h : hashes) : Prop :=
  NoDup (keys h) ∧ ∀ k d, assoc h k = Some d ↔ ∃ q, k = as_posix q ∧ sel q ∧ digest_at t (base ++ q) = Some d.

Lemma digest_good t base q d : wf_tree t → digest_at t (base ++ q) = Some d → Forall good_part q.
Proof.
  intros Hwf. unfold digest_at. destruct (t !! (base ++ q)) as [e|] eqn:E; [|done]. intros _.
  apply Hwf in E as [H _]. by apply Forall_app in H as [_ H].
Qed.
Lemma covers_nil t base : covers t base (λ _, False) [].
Proof. split; [constructor|]. intros k d. split; [done|]. by intros (q & _ & [] & _). Qed.
Lemma covers_ext t base sel sel' h :
  (∀ q, is_Some (digest_at t (base ++ q)) → sel q ↔ sel' q) → covers t base sel h → covers t base sel' h.
Proof.
  intros E [Hn H]. split; [done|]. intros k d. rewrite H. split; intros (q & -> & Hs & Hd); exists q; split_and!; try done; by apply E.
Qed.
Lemma covers_step t base sel h q d : wf_tree t → covers t base sel h → digest_at t (base ++ q) = Some d →
  covers t base (λ q', sel q' ∨ q' = q) (dset h (as_posix q) d).
Proof.
  intros Hwf [Hn H] Hd. split; [by apply dset_nodup|]. intros k d'.
  destruct (decide (k = as_posix q)) as [->|Hk].
  - rewrite assoc_dset_eq. split.
    + intros [= <-]. exists q. auto.
    + intros (q' & Hq & _ & Hd'). assert (q' = q) as ->; [|congruence].
      symmetry. apply as_posix_inj; [by eapply digest_good|by eapply digest_good|done].
  - rewrite assoc_dset_ne, H by done. split.
    + intros (q' & -> & Hs & Hd'). exists q'. auto.
    + intros (q' & -> & [Hs| ->] & Hd'); [by exists q'|done].
Qed.

Lemma reads_hash_file base sel h q : reads (hash_file base h (base ++ q))
  (λ t h', wf_tree t → covers t base sel h → covers t base (λ q', sel q' ∨ q' = q) h').
Proof.
  eapply reads_bind; [apply reads_sha256|]. intros t d Hd w h' w' [-> ->]%mret_ok. split_and!; [done..|].
  intros _ Hwf Hc. rewrite strip_prefix_app. by apply covers_step.
Qed.
Lemma reads_hash_files base sel h (found : list path) : (∀ p, p ∈ found → ∃ q, p = base ++ q) →
  reads (foldM (hash_file base) h found)
    (λ t h', wf_tree t → covers t base sel h → covers t base (λ q, sel q ∨ base ++ q ∈ found) h').
Proof.
  revert sel h. induction found as [|p found IH]; intros sel h Hb.
  - intros w h' w' [-> ->]%mret_ok. split_and!; [done..|]. intros _ Hc. eapply covers_ext; [|exact Hc]. set_solver.
  - destruct (Hb p) as [q ->]; [by apply list_elem_of_here|]. cbn [foldM]. eapply reads_bind; [apply (reads_hash_file base sel)|].
    intros t h1 H1 w h' w' H. apply (IH (λ q', sel q' ∨ q' = q)) in H as (E & L & H); [|set_solver].
    split_and!; [done..|]. intros <- Hwf Hc. eapply covers_ext; [|apply H; [done|by apply H1]].
    intros q' _. rewrite elem_of_cons. split; [intros [[?| ->]|?]; auto|]. intros [?|[Hq|?]]; auto.
    apply app_inv_head in Hq. auto.
Qed.

(** The files below one of the entries. *)
Definition below_entry (entries : list value) (q : path) : Prop := ∃ e r, e ∈ entries ∧ q = entry_path [] e ++ r.
Lemma entry_path_app ws e : entry_path ws e = ws ++ entry_path [] e.
Proof. destruct e; cbn; by rewrite ?app_nil_r. Qed.

Lemma reads_hashes_under ws entries :
  reads (hashes_under ws entries) (λ t h, wf_tree t → covers t ws (below_entry entries) h).
Proof.
  set (P := λ (t : tree) (done_ : list value) (h : hashes), wf_tree t → covers t ws (below_entry done_) h).
  assert (H : reads (hashes_under ws entries) (λ t h, P t [] [] → P t entries h)).
  { apply reads_loop. intros done_ e h. eapply reads_bind; [apply reads_look|]. intros t found -> w h' w' H.
    assert (Hb : ∀ p, p ∈ files_under t (entry_path ws e) → wf_tree t → ∃ q, p = ws ++ q).
    { intros p Hp Hwf. apply elem_of_files_under in Hp as (_ & r & ->); [|done]. rewrite entry_path_app, <-app_assoc. eauto. }
    destruct (decide (wf_tree t)) as [Hwf|Hwf].
    - apply (reads_hash_files ws (below_entry done_)) in H as (E & L & H); [|auto]. split_and!; [done..|].
      intros <- Hd _. eapply covers_ext; [|apply H; [done|by apply Hd]]. intros q [d Hq].
      rewrite elem_of_files_under by done. unfold below_entry. split.
      + intros [(e' & r & He & ->)|[_ [r Hr]]]; [exists e', r; split; [set_solver|done]|].
        exists e, r. split; [set_solver|]. rewrite entry_path_app, <-app_assoc in Hr. by apply app_inv_head in Hr.
      + intros (e' & r & He & ->). apply elem_of_app in He as [He|He%list_elem_of_singleton]; [left; eauto|]. subst e'.
        right. split; [by eapply digest_is_file|]. exists r. by rewrite (entry_path_app ws), <-app_assoc.
    - assert (Hr : reads (foldM (hash_file ws) h (files_under t (entry_path ws e))) (λ _ _, True)).
      { intros w1 a w1' H1. eapply (reads_loop (hash_file ws) (λ _ _ _, True)) in H1 as (E & L & _); [done|].
        intros d x s. eapply reads_bind; [apply reads_sha256|]. intros t' d' _ w2 a2 w2' [-> ->]%mret_ok. done. }
      apply Hr in H as (E & L & _). split_and!; [done..|]. intros <- _ ?. done. }
  intros w h w' Hw. apply H in Hw as (E & L & Hp). split_and!; [done..|]. apply Hp. intros _. eapply covers_ext; [|apply covers_nil].
  intros q _. split; [done|]. by intros (e & r & ?%not_elem_of_nil & _).
Qed.

Definition outside (q : path) : Prop := ∃ x r, q = x :: r ∧ x ≠ WORKSPACE ∧ q ≠ record_path.
#[export] Instance outside_dec q : Decision (outside q).
Proof.
  destruct q as [|x r]; [right; by intros (? & ? & [=] & _)|].
  destruct (decide (x ≠ WORKSPACE ∧ x :: r ≠ record_path)) as [[H1 H2]|H]; [left; by exists x, r|].
  right. intros (x' & r' & [= <- <-] & H1 & H2). by apply H.
Defined.

Lemma reads_outside root :
  reads (outside_hashes root) (λ t h, wf_tree t → covers t root outside h).
Proof.
  eapply reads_bind; [apply reads_look|]. intros t found -> w h w' H.
  destruct (decide (wf_tree t)) as [Hwf|Hwf].
  - assert (Hl : ∀ l sel h0, (∀ p, p ∈ l → ∃ q, p = root ++ q) →
      reads (foldM (hash_outside root) h0 l) (λ t h, wf_tree t → covers t root sel h0 →
        covers t root (λ q, sel q ∨ outside q ∧ root ++ q ∈ l) h)).
    { clear. intros l. induction l as [|p l IH]; intros sel h0 Hb.
      - intros w h w' [-> ->]%mret_ok. split_and!; [done..|]. intros _ Hc. eapply covers_ext; [|exact Hc]. set_solver.
      - destruct (Hb p) as [q ->]; [by apply list_elem_of_here|]. cbn [foldM].
        eapply (reads_bind _ _ (λ t h1, wf_tree t → covers t root sel h0 → covers t root (λ q', sel q' ∨ outside q' ∧ q' = q) h1)).
        + unfold hash_outside. rewrite strip_prefix_app. cbn [default]. destruct q as [|x r]; cbn; [by intros w a w' H|].
          destruct (String.eqb x WORKSPACE || bool_decide (x :: r = record_path)) eqn:Ex.
          * intros w h1 w' [-> ->]%mret_ok. split_and!; [done..|]. intros _ Hc. eapply covers_ext; [|exact Hc].
            intros q' _. split; [auto|]. intros [?|[(y & s & Hy & H1 & H2) ->]]; [done|]. exfalso.
            injection Hy as <- <-. apply orb_true_iff in Ex as [Ex%String.eqb_eq|Ex%bool_decide_eq_true]; auto.
          * apply orb_false_iff in Ex as [E1%String.eqb_neq E2%bool_decide_eq_false].
            intros w h1 w' H. apply (reads_hash_file root sel) in H as (E & L & H). split_and!; [done..|].
            intros Hwf Hc. eapply covers_ext; [|by apply H]. intros q' _. split; [|naive_solver].
            intros [?| ->]; [auto|]. right. split; [|done]. by exists x, r.
        + intros t h1 H1 w h w' H. apply (IH (λ q', sel q' ∨ outside q' ∧ q' = q)) in H as (E & L & H); [|set_solver].
          split_and!; [done..|]. intros <- Hwf Hc. eapply covers_ext; [|apply H; [done|by apply H1]].
          intros q' _. rewrite elem_of_cons. split; [intros [[?|[? ->]]|[? ?]]; auto|]. intros [?|[? [Hq|?]]]; auto.
          apply app_inv_head in Hq. auto. }
    apply (Hl _ (λ _, False)) in H as (E & L & H).
    2: { intros p Hp. apply elem_of_files_under in Hp as (_ & r & ->); eauto. }
    split_and!; [done..|]. intros <- _. eapply covers_ext; [|apply H; [done|apply covers_nil]].
    intros q [d Hq]. rewrite elem_of_files_under by done. split; [by intros [[]|[? _]]|]. intros Ho. right. split; [done|].
    split; [by eapply digest_is_file|eauto].
  - assert (Hr : reads (foldM (hash_outside root) [] (files_under t root)) (λ _ _, True)).
    { intros w1 a w1' H1. eapply (reads_loop (hash_outside root) (λ _ _ _, True)) in H1 as (E & L & _); [done|].
      intros d x s. unfold hash_outside. destruct (default [] (strip_prefix root x)) as [|y r]; [by intros w2 a2 w2' H2|].
      destruct (_ || _); [by intros w2 a2 w2' [-> ->]%mret_ok|].
      eapply reads_bind; [apply reads_sha256|]. intros t' d' _ w2 a2 w2' [-> ->]%mret_ok. done. }
    apply Hr in H as (E & L & _). split_and!; [done..|]. by intros <- ?.
Qed.

(** ** What the record says *)

(** [records v f]: the object [v] holds exactly the digests of [f]. *)
Definition records (v : value) (f : string → option string) : Prop :=
  ∃ d, v = VDict d ∧ NoDup (keys d) ∧ ∀ k, assoc d k = VStr <$> f k.

Lemma assoc_perm {A} (d e : list (string * A)) k : NoDup (keys d) → d ≡ₚ e → assoc d k = assoc e k.
Proof.
  intros Hn Hp. assert (Hn' : NoDup (keys e)) by (unfold keys; by rewrite <-Hp).
  apply option_eq. intros v. split; intros H; apply assoc_elem in H; apply elem_assoc; try done; [by rewrite <-Hp|by rewrite Hp].
Qed.
Lemma assoc_map {A B} (f : A → B) (d : list (string * A)) k : assoc (map (λ kv, (kv.1, f kv.2)) d) k = f <$> assoc d k.
Proof. induction d as [|[k' v] d IH]; [done|]. cbn. by destruct (String.eqb k' k). Qed.
Lemma keys_map {A B} (f : A → B) (d : list (string * A)) : keys (map (λ kv, (kv.1, f kv.2)) d) = keys d.
Proof. induction d as [|[k' v] d IH]; [done|]. cbn. by f_equal. Qed.

Lemma records_hashes t base sel h : covers t base sel h → records (hashes_value h) (assoc h).
Proof.
  intros [Hn H]. unfold hashes_value. eexists. split; [done|]. rewrite (keys_map VStr). split; [done|].
  intros k. apply assoc_map.
Qed.
Lemma records_sorted v f : records v f → records (sort_keys v) f.
Proof.
  intros (d & -> & Hn & H). cbn [sort_keys]. eexists. split; [done|]. split.
  - unfold keys. rewrite sorted_items_perm. fold (keys (map (λ kv, (kv.1, sort_keys kv.2)) d)). by rewrite keys_map.
  - intros k. rewrite (assoc_perm _ _ k) by (unfold keys; rewrite ?sorted_items_perm; fold (keys (map (λ kv, (kv.1, sort_keys kv.2)) d)); by rewrite ?keys_map || done).
    rewrite assoc_map, H. by destruct (f k).
Qed.
Lemma records_fun v f g : records v f → (∀ k, f k = g k) → records v g.
Proof. intros (d & -> & Hn & H) E. exists d. split_and!; [done..|]. intros k. by rewrite H, E. Qed.


Lemma clean_digest c : clean (sha256_hex c) = true.
Proof.
  unfold sha256_hex. set (l := flat_map _ _).
  assert (Hl : Forall (λ n, n < 256)%N l).
  { subst l. generalize (blocks (length (words (padded (bytes_of c)))) initial_hash (words (padded (bytes_of c)))). intros m.
    induction m as [|x m IH]; [constructor|]. cbn [flat_map]. apply Forall_app. split; [|exact IH].
    cbn. repeat constructor; by apply N.mod_lt. }
  induction Hl as [|n l Hn Hl IH]; [done|]. cbn [map String.concat].
  assert (Hb : clean (hex_byte n) = true).
  { unfold hex_byte. cbn [clean]. fold (hex_of (n / 16)) (hex_of (n mod 16)).
    rewrite !clean_hex; [done|by apply N.mod_lt|]. apply N.Div0.div_lt_upper_bound. lia. }
  destruct (map hex_byte l); [done|]. change (clean (hex_byte n +:+ "" +:+ String.concat "" (s :: l0)) = true).
  rewrite !clean_app, Hb. done.
Qed.
Lemma digest_text t p d : digest_at t p = Some d → is_text d = true.
Proof.
  unfold digest_at. destruct (t !! p) as [[]|]; [|done..]. intros [= <-]. by apply clean_text, clean_digest.
Qed.

(** The paths below [base] are Unicode text. *)
Definition text_paths (base : path) (t : tree) : Prop :=
  map_Forall (λ p _, match strip_prefix base p with Some q => is_text (as_posix q) = true | None => True end) t.
#[export] Instance text_paths_dec base t : Decision (text_paths base t).
Proof.
  apply map_Forall_dec. intros p e. destruct (strip_prefix base p); apply _.
Defined.

Lemma assoc_in_keys {A} (d : list (string * A)) k v : assoc d k = Some v → k ∈ keys d.
Proof. intros H%assoc_elem. by apply (list_elem_of_fmap_2 fst) in H. Qed.

(** An object of digests whose paths are text is plain. *)
Definition plain_hashes (f : string → option string) : Prop := ∀ k d, f k = Some d → is_text k = true ∧ is_text d = true.
Lemma records_plain v f : records v f → plain_hashes f → plain is_text v = true.
Proof.
  intros (d & -> & Hn & H) Hp. cbn [plain]. apply andb_true_iff. split; [by apply bool_decide_eq_true|].
  apply forallb_forall. intros [k v] Hin%list_elem_of_In. pose proof (elem_assoc d k v Hn Hin) as Ha. rewrite H in Ha.
  destruct (f k) as [x|] eqn:E; [|done]. injection Ha as <-. destruct (Hp k x E) as [H1 H2]. cbn [fst snd plain]. by rewrite H1, H2.
Qed.
Lemma covers_plain t base sel h : text_paths base t → covers t base sel h → plain_hashes (assoc h).
Proof.
  intros Ht [_ H] k d Hk. apply H in Hk as (q & -> & _ & Hd). split; [|by eapply digest_text].
  unfold digest_at in Hd. destruct (t !! (base ++ q)) as [e|] eqn:E; [|done]. apply Ht in E. by rewrite strip_prefix_app in E.
Qed.

(** The three parts of a record, as its text is read back. *)
Definition record_dict (ws preserved outside : value) : dict := [("workspace", ws); ("preserved", preserved); ("outside", outside)].
Lemma sorted_record ws preserved outside :
  sort_keys (VDict (record_dict ws preserved outside)) =
  VDict [("outside", sort_keys outside); ("preserved", sort_keys preserved); ("workspace", sort_keys ws)].
Proof. reflexivity. Qed.
Lemma record_text_reads ws preserved outside f g h :
  records ws f → records preserved g → records outside h → plain_hashes f → plain_hashes g → plain_hashes h →
  let text := record_text (record_dict ws preserved outside) in
  read_text (Ok text) = Ok text ∧
  loads_str text = inl (VDict [("outside", sort_keys outside); ("preserved", sort_keys preserved); ("workspace", sort_keys ws)]).
Proof.
  intros Hf Hg Hh Pf Pg Ph. cbn zeta. unfold record_text. rewrite sorted_record.
  assert (Hp : plain is_text (VDict [("outside", sort_keys outside); ("preserved", sort_keys preserved); ("workspace", sort_keys ws)]) = true).
  { cbn [plain forallb fst snd]. rewrite (records_plain _ _ (records_sorted _ _ Hf) Pf), (records_plain _ _ (records_sorted _ _ Hg) Pg),
      (records_plain _ _ (records_sorted _ _ Hh) Ph). reflexivity. }
  split; [by apply read_indented|by apply loads_indented].
Qed.
Lemma staged_hashes_record staged ws preserved outside :
  staged_hashes staged (VDict [("outside", outside); ("preserved", preserved); ("workspace", ws)]) = Ok (ws, preserved, outside).
Proof. reflexivity. Qed.

(** ** Which files changed *)

Lemma differing_spec f recorded observed l changed :
  records recorded f → (∀ v, v ∈ l → is_str v = true) → differing recorded observed l = Ok changed →
  ∀ s, s ∈ changed ↔ VStr s ∈ l ∧ f s ≠ assoc observed s.
Proof.
  intros (d & -> & Hn & Hf). revert changed. induction l as [|v l IH]; intros changed Hl H s; cbn [differing] in H.
  { injection H as <-. set_solver. }
  apply res_bind_ok in H as (b & Hb & H). apply res_bind_ok in H as (rest & Hrest & [= <-]).
  specialize (IH rest ltac:(set_solver) Hrest s). assert (is_str v = true) as Hv by set_solver.
  destruct v as [| | | |r| |]; try done. cbn [as_str]. unfold recorded_differs in Hb. cbn [get get_or mbind res_bind] in Hb.
  injection Hb as <-. unfold dget_or. rewrite Hf.
  assert (Hd : negb (py_eq (default VNone (VStr <$> f r)) match assoc observed r with Some d => VStr d | None => VNone end) = true
    ↔ f r ≠ assoc observed r).
  { destruct (f r) as [x|], (assoc observed r) as [y|]; cbn; try (by split).
    rewrite negb_true_iff, String.eqb_neq. split; congruence. }
  destruct (negb _) eqn:E.
  - rewrite elem_of_cons, IH. rewrite elem_of_cons. split; [intros [->|[? ?]]; [split; [by left|by apply Hd]|auto]|].
    intros [[[= ->]|?] ?]; auto.
  - rewrite IH, elem_of_cons. split; [intros [? ?]; auto|]. intros [[[= ->]|?] Hne]; [|auto].
    apply Hd in Hne. congruence.
Qed.
Lemma changed_files_spec f recorded observed l :
  records recorded f → changed_files recorded observed = Ok l → ∀ s, s ∈ l ↔ f s ≠ assoc observed s.
Proof.
  intros Hr H s. unfold changed_files in H. apply res_bind_ok in H as (ks & Hks & H). apply res_bind_ok in H as (rs & Hrs & H).
  pose proof Hr as (d & -> & Hn & Hf). cbn in Hks. injection Hks as <-.
  set (all := map (λ kv, VStr kv.1) d ++ map (λ kv, VStr kv.1) observed) in *.
  assert (Hstr : ∀ v, v ∈ all → is_str v = true).
  { intros v [(kv & -> & _)%list_elem_of_fmap|(kv & -> & _)%list_elem_of_fmap]%elem_of_app; done. }
  rewrite sorted_unique_strings in Hrs by done. injection Hrs as <-.
  rewrite (differing_spec f _ _ _ _ Hr) by (exact H || (intros v Hv; by apply Hstr, sorted_members)).
  rewrite sorted_members by done. split; [by intros [_ ?]|]. intros Hne. split; [|done].
  destruct (f s) as [x|] eqn:E.
  - apply elem_of_app. left. pose proof (Hf s) as Ha. rewrite E in Ha. apply assoc_elem in Ha.
    by apply (list_elem_of_fmap_2 (λ kv : string * value, VStr kv.1)) in Ha.
  - destruct (assoc observed s) as [y|] eqn:Eo; [|done]. apply elem_of_app. right. apply assoc_elem in Eo.
    by apply (list_elem_of_fmap_2 (λ kv : string * string, VStr kv.1)) in Eo.
Qed.

(** ** What a program may do to the world *)

(** [keeps R m]: whether [m] succeeds or fails, the world it leaves is related
    to the one it started in. *)
Definition keeps (R : world → world → Prop) {A} (m : io A) : Prop := ∀ w r w', m w = (r, w') → R w w'.

(** A relation that is transitive and does not see the faults to come. *)
Class Silent (R : world → world → Prop) : Prop := {
  silent_trans : Transitive R;
  silent_same : ∀ w w', files w' = files w → leftovers w' = leftovers w → R w w' }.

Create HintDb keeping discriminated.
Section keeps.
Context (R : world → world → Prop) `{!Silent R}.

Lemma keeps_bind {A B} (m : io A) (f : A → io B) : keeps R m → (∀ a, keeps R (f a)) → keeps R (m ≫= f).
Proof.
  intros Hm Hf w r w' H. unfold mbind, io_bind in H. destruct (m w) as [[a|e] w1] eqn:E.
  - eapply silent_trans; [by eapply Hm|by eapply Hf].
  - injection H as <- <-. by eapply Hm.
Qed.
Lemma keeps_lift {A} (m : res A) : keeps R (lift m).
Proof. intros w r w' [= <- <-]. by apply silent_same. Qed.
Lemma keeps_look {A} (f : tree → A) : keeps R (look f).
Proof. intros w r w' [= <- <-]. by apply silent_same. Qed.
Lemma keeps_unless c e : keeps R (unless c e).
Proof. unfold unless. destruct c; apply keeps_lift. Qed.
Lemma keeps_ret {A} (a : A) : keeps R (mret a : io A).
Proof. intros w r w' [= <- <-]. by apply silent_same. Qed.
Lemma keeps_loop {A S} (f : S → A → io S) l s : (∀ s x, keeps R (f s x)) → keeps R (foldM f s l).
Proof.
  intros Hf. revert s. induction l as [|x l IH]; intros s; [apply keeps_ret|]. cbn [foldM]. by apply keeps_bind.
Qed.
Lemma keeps_on_error {A} (m : io A) c : keeps R m → keeps R c → keeps R (on_error m c).
Proof.
  intros Hm Hc w r w' H. unfold on_error in H. destruct (m w) as [[a|e] w1] eqn:E.
  - injection H as <- <-. by eapply Hm.
  - eapply silent_trans; [by eapply Hm|]. destruct (c w1) as [[u|e'] w2] eqn:E2; injection H as <- <-; by eapply Hc.
Qed.
Lemma keeps_reading {A : Type} (g : tree → res A) (failed : failure → tree → tree) :
  (∀ x t, failed x t = t) → keeps R (call failed (λ t, (g t, t))).
Proof.
  intros Hx w r w' H. unfold call in H. destruct (faults w) as [|[x|] fs]; injection H as <- <-; apply silent_same; try done.
  apply Hx.
Qed.
Lemma keeps_read p : keeps R (read_file p).
Proof. by apply keeps_reading. Qed.
Lemma keeps_text p : keeps R (read_text_at p).
Proof. apply keeps_bind; [apply keeps_read|intros c; apply keeps_lift]. Qed.
Lemma keeps_hash_file base h p : keeps R (hash_file base h p).
Proof.
  apply keeps_bind; [|intros d; apply keeps_ret]. apply keeps_bind; [apply keeps_read|intros d; apply keeps_ret].
Qed.
Lemma keeps_hashes_under ws entries : keeps R (hashes_under ws entries).
Proof.
  apply keeps_loop. intros h e. apply keeps_bind; [apply keeps_look|]. intros l. apply keeps_loop, keeps_hash_file.
Qed.
Lemma keeps_outside root : keeps R (outside_hashes root).
Proof.
  apply keeps_bind; [apply keeps_look|]. intros l. apply keeps_loop. intros h p. unfold hash_outside.
  destruct (default [] (strip_prefix root p)); [apply keeps_lift|]. destruct (_ || _); [apply keeps_ret|apply keeps_hash_file].
Qed.
Lemma keeps_load word p : keeps R (load_at word p).
Proof.
  apply keeps_bind; [apply keeps_look|]. intros [|]; [|apply keeps_lift].
  apply keeps_bind; [apply keeps_read|intros c; apply keeps_lift].
Qed.
End keeps.
#[export] Hint Resolve keeps_bind keeps_lift keeps_look keeps_unless keeps_ret keeps_loop keeps_read keeps_text
  keeps_hashes_under keeps_outside keeps_load keeps_on_error : keeping.

(** *** Only the paths of [P] change *)

Definition frame (P : path → Prop) (w w' : world) : Prop := ∀ q, ¬ P q → files w' !! q = files w !! q.
#[export] Instance frame_silent P : Silent (frame P).
Proof. split; [intros w1 w2 w3 H1 H2 q Hq; by rewrite H2, H1|]. by intros w w' E _ q _; rewrite E. Qed.
Abbreviation touches P := (keeps (frame P)).

Section frames.
Context (P : path → Prop).
(** A path owned whole: what is put there changes only what is at or below it. *)
Definition owns (p : path) : Prop := ∀ r, P (p ++ r).
Lemma owns_self p : owns p → P p.
Proof. intros H. specialize (H []). by rewrite app_nil_r in H. Qed.
Lemma owns_below p r : owns p → owns (p ++ r).
Proof. intros H s. rewrite <-app_assoc. apply H. Qed.

Lemma touches_call {A : Type} (failed : failure → tree → tree) (f : tree → res A * tree) :
  (∀ x t q, ¬ P q → failed x t !! q = t !! q) → (∀ t q, ¬ P q → (f t).2 !! q = t !! q) → touches P (call failed f).
Proof.
  intros Hx Hf w r w' H q Hq. unfold call in H. specialize (Hf (files w) q Hq). destruct (f (files w)) as [r1 t1].
  destruct (faults w) as [|[x|] fs]; injection H as <- <-; [done|by apply Hx|done].
Qed.
Lemma place_outside (p : path) (s t : tree) (q : path) : owns p → ¬ P q → place p s t !! q = t !! q.
Proof. intros Hp Hq. rewrite lookup_place. destruct (strip_prefix p q) as [r|] eqn:E; [|done]. apply strip_prefix_spec in E as ->. by destruct (Hq (Hp r)). Qed.
Lemma insert_outside (p : path) (e : entry) (t : tree) (q : path) : P p → ¬ P q → <[p := e]> t !! q = t !! q.
Proof. intros Hp Hq. apply lookup_insert_ne. by intros ->. Qed.
Lemma touches_write p c : owns p → touches P (write_file p c).
Proof.
  intros Hp. apply touches_call; intros; [by apply place_outside|]. repeat case_match; try done.
  apply insert_outside; [by apply owns_self|done].
Qed.
Lemma touches_copy_tree src dst : owns dst → touches P (copy_tree src dst).
Proof. intros Hp. apply touches_call; intros; [by apply place_outside|]. case_match; [done|]. by apply place_outside. Qed.
Lemma touches_copy_file src dst : owns dst → touches P (copy_file src dst).
Proof.
  intros Hp. apply keeps_bind; [apply _|apply keeps_read, _|]. intros c. apply keeps_bind; [apply _|apply keeps_look, _|]. intros b.
  apply touches_write. destruct b; [by apply owns_below|done].
Qed.
Lemma touches_folder p : P p → touches P (make_folder p).
Proof. intros Hp. apply touches_call; intros; [done|]. repeat case_match; try done. by apply insert_outside. Qed.
Lemma touches_unlink b p : P p → touches P (unlink b p).
Proof.
  intros Hp w r w' H. unfold unlink in H.
  set (m := call _ _) in H. assert (Hm : touches P m).
  { apply touches_call; [done|]. intros t q' Hq'. destruct (t !! p) as [[c|]|]; [|done|by destruct b]. apply lookup_delete_ne.
    by intros ->. }
  destruct (m w) as [[u|e] w1] eqn:E; injection H as <- <-; exact (Hm _ _ _ E).
Qed.
Lemma touches_remove p : owns p → touches P (remove_tree p).
Proof.
  intros Hp w r w' H. unfold remove_tree in H.
  set (m := call _ _) in H. assert (Hm : touches P m).
  { apply touches_call; intros; [by apply place_outside|]. cbn. rewrite lookup_without.
    destruct (strip_prefix p q) as [s|] eqn:E; [|done]. apply strip_prefix_spec in E as ->. by destruct (H0 (Hp s)). }
  destruct (m w) as [[u|e] w1] eqn:E; injection H as <- <-; exact (Hm _ _ _ E).
Qed.
End frames.
#[export] Hint Resolve touches_write touches_copy_tree touches_copy_file touches_folder touches_unlink touches_remove : keeping.

(** *** The paths a removal left standing are only added to *)

Definition more (w w' : world) : Prop := leftovers w `prefix_of` leftovers w'.
#[export] Instance more_silent : Silent more.
Proof. split; [intros w1 w2 w3 H1 H2; unfold more in *; by etrans|]. by intros w w' _ E; unfold more; rewrite E. Qed.
Abbreviation grows := (keeps more).

Lemma grows_call {A : Type} (failed : failure → tree → tree) (f : tree → res A * tree) : grows (call failed f).
Proof.
  intros w r w' H. unfold call in H. destruct (faults w) as [|[x|] fs]; [|by injection H as <- <-; exists []; rewrite app_nil_r|];
  destruct (f (files w)); injection H as <- <-; exists []; by rewrite app_nil_r.
Qed.
Lemma more_leave p w w' : more w w' → more w (leave p w').
Proof. intros [l H]. exists (l ++ [p]). cbn. by rewrite H, app_assoc. Qed.
Lemma grows_unlink b p : grows (unlink b p).
Proof.
  intros w r w' H. unfold unlink in H. set (m := call _ _) in H. destruct (m w) as [[u|e] w1] eqn:E; injection H as <- <-;
    apply (grows_call _ _) in E; [done|by apply more_leave].
Qed.
Lemma grows_remove p : grows (remove_tree p).
Proof.
  intros w r w' H. unfold remove_tree in H. set (m := call _ _) in H. destruct (m w) as [[u|e] w1] eqn:E; injection H as <- <-;
    apply (grows_call _ _) in E; [done|by apply more_leave].
Qed.
#[export] Hint Resolve grows_call grows_unlink grows_remove : keeping.

(** One step of a program, and all of them. *)
Ltac keep_step :=
  match goal with
  | |- ∀ _, _ => intro
  | |- keeps _ (mbind _ _) => apply keeps_bind; [apply _|..]
  | |- keeps _ (lift _) => apply keeps_lift, _
  | |- keeps _ (raise _) => apply keeps_lift, _
  | |- keeps _ (look _) => apply keeps_look, _
  | |- keeps _ (unless _ _) => apply keeps_unless, _
  | |- keeps _ (mret _) => apply keeps_ret, _
  | |- keeps _ (foldM _ _ _) => apply keeps_loop; [apply _|]
  | |- keeps _ (on_error _ _) => apply keeps_on_error; [apply _|..]
  | |- keeps _ (read_file _) => apply keeps_read, _
  | |- keeps _ (read_text_at _) => apply keeps_text, _
  | |- keeps _ (load_at _ _) => apply keeps_load, _
  | |- keeps _ (hashes_under _ _) => apply keeps_hashes_under, _
  | |- keeps _ (outside_hashes _) => apply keeps_outside, _
  | |- keeps more (call _ _) => apply grows_call
  | |- keeps _ (match ?x with _ => _ end) => destruct x
  | |- keeps _ (let '_ := ?x in _) => destruct x
  | |- _ => solve [auto with keeping]
  end.
Ltac keep := cbv zeta; repeat keep_step.

Section effects.
Context (word : string → bool) (has_commit : string → string → res bool) (git_archive : string → string → res tree)
        (git_apply : string → tree → res tree) (cwd : path).
Abbreviation regenerate := (regenerate_workspace word has_commit git_archive git_apply cwd).
Abbreviation write_ws := (write_workspace word has_commit git_archive git_apply cwd).

Lemma touches_regenerate P task_dir dst : owns P dst → touches P (regenerate task_dir dst).
Proof.
  intros Hd. unfold regenerate_workspace, archive, apply_patch. keep; apply touches_call; intros; cbn; repeat case_match; try done; by apply (place_outside P).
Qed.
Lemma touches_write_workspace P task task_dir root :
  owns P (root ++ [WORKSPACE]) → owns P (staged_protected_record root) → touches P (write_ws task task_dir root).
Proof. intros Hw Hs. pose proof (touches_regenerate P task_dir _ Hw). unfold write_workspace, check_present. keep. Qed.
Lemma grows_regenerate task_dir dst : grows (regenerate task_dir dst).
Proof. unfold regenerate_workspace, archive, apply_patch. keep. Qed.
Lemma grows_write p c : grows (write_file p c).
Proof. apply grows_call. Qed.
Lemma grows_copy_tree src dst : grows (copy_tree src dst).
Proof. apply grows_call. Qed.
Lemma grows_copy_file src dst : grows (copy_file src dst).
Proof. unfold copy_file. keep; apply grows_write. Qed.
Lemma grows_write_workspace task task_dir root : grows (write_ws task task_dir root).
Proof.
  pose proof (grows_regenerate task_dir (root ++ [WORKSPACE])). pose proof grows_copy_tree. pose proof grows_write.
  unfold write_workspace, check_present. keep.
Qed.
Lemma grows_materialize_grader task_dir root : grows (materialize_grader task_dir root).
Proof.
  pose proof grows_copy_tree. pose proof grows_write. pose proof grows_copy_file. unfold materialize_grader. keep.
Qed.
End effects.

(** *** Where the root and the staged record stand *)

Definition above (p q : path) : Prop := ∃ x r, p = q ++ x :: r.
Lemma above_below (p q r : path) : above p q → q ≠ p ++ r.
Proof. intros (x & s & ->) H. apply (f_equal length) in H. rewrite !length_app in H. cbn in H. lia. Qed.
Lemma staged_apart (root r r' : path) : root ≠ [] → root ++ r ≠ staged_protected_record root ++ r'.
Proof.
  intros Hr. destruct root as [|x p _] using rev_ind; [done|]. unfold staged_protected_record, parent_of.
  rewrite removelast_last, last_snoc, <-!app_assoc. intros H%app_inv_head. cbn in H. injection H as H _.
  apply (f_equal String.length) in H. rewrite !length_str_app in H. cbn in H. lia.
Qed.
Lemma staged_not_root (root : path) r : root ≠ [] → staged_protected_record root ≠ root ++ r.
Proof. intros Hr H. apply (staged_apart root r [] Hr). by rewrite app_nil_r. Qed.
Lemma staged_not_above (root : path) : root ≠ [] → ¬ above root (staged_protected_record root).
Proof.
  intros Hr (x & r & H). apply (f_equal length) in H. revert H. destruct root as [|y p _] using rev_ind; [done|].
  unfold staged_protected_record, parent_of. rewrite removelast_last, !length_app. cbn. lia.
Qed.

(** *** Making the root *)

Lemma missing_ancestors_above done_ rest t q : q ∈ missing_ancestors done_ rest t → above (done_ ++ rest) q.
Proof.
  revert done_. induction rest as [|x [|y rest] IH]; intros done_ H; [by apply not_elem_of_nil in H..|].
  cbn [missing_ancestors] in H. apply elem_of_app in H as [H|H].
  - destruct (exists_at t (done_ ++ [x])); [by apply not_elem_of_nil in H|]. apply list_elem_of_singleton in H as ->.
    exists y, rest. by rewrite <-app_assoc.
  - apply IH in H. by rewrite <-app_assoc in H.
Qed.
Lemma touches_loop_on {A S} (P : path → Prop) (f : S → A → io S) l s : (∀ s x, x ∈ l → touches P (f s x)) → touches P (foldM f s l).
Proof.
  revert s. induction l as [|x l IH]; intros s Hf; [apply keeps_ret, _|]. cbn [foldM]. apply keeps_bind; [apply _|..].
  - apply Hf. by left.
  - intros a. apply IH. intros s' y Hy. apply Hf. by right.
Qed.
Lemma touches_ancestors p t : touches (above p) (foldM (λ _ q, make_folder q) () (missing_ancestors [] p t)).
Proof. apply touches_loop_on. intros _ q Hq. apply touches_folder. by apply missing_ancestors_above in Hq. Qed.
Lemma make_folder_err p w e w' : make_folder p w = (Err e, w') → files w' = files w.
Proof.
  unfold make_folder, call. destruct (faults w) as [|[x|] fs]; [|by intros [= _ <-]|];
    (destruct (exists_at _ _); [by intros [= _ <-]|]; destruct (is_folder _ _); [done|]; by intros [= _ <-]).
Qed.
Lemma make_folder_ok p w u w' : make_folder p w = (Ok u, w') → files w' = <[p := Folder]> (files w) ∧ is_folder (files w) (parent_of p) = true.
Proof.
  unfold make_folder, call. destruct (faults w) as [|[x|] fs]; [|done|];
    (destruct (exists_at _ _); [done|]; destruct (is_folder (files w) (parent_of p)) eqn:E; [|done]; by intros [= _ <-]).
Qed.
Lemma io_bind_err {A B} (m : io A) (f : A → io B) w e w' :
  (m ≫= f) w = (Err e, w') ↔ m w = (Err e, w') ∨ ∃ a w1, m w = (Ok a, w1) ∧ f a w1 = (Err e, w').
Proof.
  unfold mbind, io_bind. destruct (m w) as [[a|e'] w1].
  - split; [by right; eauto|]. by intros [?|(? & ? & [= <- <-] & ?)].
  - split; [by intros [= <- <-]; left|]. by intros [[= <- <-]|(? & ? & ? & _)].
Qed.
Lemma make_folders_err p w e w' : make_folders p w = (Err e, w') → frame (above p) w w'.
Proof.
  intros [H|(l & w1 & [-> ->]%look_ok & H)]%io_bind_err; [done|]. apply io_bind_err in H as [H|(u & w2 & H & H2)].
  - by apply touches_ancestors in H.
  - apply touches_ancestors in H. apply make_folder_err in H2. intros q Hq. rewrite H2. by apply H.
Qed.
Lemma make_folders_ok p w u w' : make_folders p w = (Ok u, w') → frame (λ q, q = p ∨ above p q) w w' ∧ files w' !! p = Some Folder.
Proof.
  intros (l & w1 & [-> ->]%look_ok & (u1 & w2 & H & H2)%io_bind_ok)%io_bind_ok. apply touches_ancestors in H.
  apply make_folder_ok in H2 as [H2 _]. rewrite H2. split; [|apply lookup_insert_eq]. intros q Hq.
  rewrite H2, lookup_insert_ne by (intros ->; apply Hq; by left). apply H. intros ?. apply Hq. by right.
Qed.

(** *** Clearing it *)

Lemma remove_tree_done p w r w' : remove_tree p w = (r, w') → leftovers w' = leftovers w → files w' = without p (files w).
Proof.
  unfold remove_tree, call. destruct (faults w) as [|[x|] fs]; [by intros [= _ <-]| |by intros [= _ <-]].
  intros [= _ <-] H. cbn in H. apply (f_equal length) in H. rewrite length_app in H. cbn in H. lia.
Qed.
Lemma unlink_done p w r w' : unlink true p w = (r, w') → leftovers w' = leftovers w → files w' = delete p (files w).
Proof.
  unfold unlink, call. intros H Hl.
  assert (Hf : ∀ l : list path, l ++ [p] ≠ l) by (intros l E; apply (f_equal length) in E; rewrite length_app in E; cbn in E; lia).
  destruct (faults w) as [|[x|] fs]; [|injection H as _ <-; by apply Hf in Hl|];
    (destruct (files w !! p) as [[c|]|] eqn:E; injection H as _ <-; cbn in *; [done|by apply Hf in Hl|symmetry; by apply delete_id]).
Qed.
Lemma more_squeeze w w1 w2 : more w w1 → more w1 w2 → leftovers w2 = leftovers w → leftovers w1 = leftovers w ∧ leftovers w2 = leftovers w1.
Proof.
  intros [l1 H1] [l2 H2] H. rewrite H2, H1, <-app_assoc in H. apply (f_equal length) in H as Hn. rewrite !length_app in Hn.
  destruct l1, l2; cbn in Hn; try lia. by rewrite H2, H1, !app_nil_r.
Qed.
Definition nothing_at (root : path) (w : world) : Prop :=
  (∀ q, files w !! (root ++ q) = None) ∧ files w !! staged_protected_record root = None.
Lemma clear_root_done root w r w' : clear_root root w = (r, w') → leftovers w' = leftovers w → nothing_at root w'.
Proof.
  intros H Hl. unfold clear_root in H. assert (H' : ∃ r1 w1, remove_tree root w = (Ok r1, w1) ∧ unlink true (staged_protected_record root) w1 = (r, w')).
  { revert H. unfold mbind, io_bind. destruct (remove_tree root w) as [[u|e] w1] eqn:E; [by eauto|].
    unfold remove_tree in E. destruct (call _ _ w) as [[u|e'] w2] eqn:E2; [done|]. by injection E. }
  clear H. destruct H' as (u & w1 & H1 & H2). pose proof (grows_remove _ _ _ _ H1) as G1. pose proof (grows_unlink _ _ _ _ _ H2) as G2.
  destruct (more_squeeze _ _ _ G1 G2 Hl) as [L1 L2]. apply remove_tree_done in H1; [|done]. apply unlink_done in H2; [|done].
  split.
  - intros q. rewrite H2, H1. apply lookup_delete_None. right. by rewrite lookup_without, strip_prefix_app.
  - rewrite H2. apply lookup_delete_eq.
Qed.
Lemma on_error_err {A} (m : io A) c w e w' : on_error m c w = (Err e, w') → ∃ e1 w1 r, m w = (Err e1, w1) ∧ c w1 = (r, w').
Proof.
  unfold on_error. destruct (m w) as [[a|e1] w1] eqn:E; [done|]. destruct (c w1) as [[u|e2] w2] eqn:E2; intros [= <- <-]; eauto 6.
Qed.
Lemma on_error_ok {A} (m : io A) c w a w' : on_error m c w = (Ok a, w') → m w = (Ok a, w').
Proof.
  unfold on_error. destruct (m w) as [[b|e1] w1] eqn:E; [by intros [= <- <-]|]. by destruct (c w1) as [[u|e2] w2].
Qed.

(** ** Materialising seals the root *)

Section sealed.
Context (word : string → bool) (has_commit : string → string → res bool) (git_archive : string → string → res tree)
        (git_apply : string → tree → res tree) (cwd : path).
Abbreviation mat := (materialize word has_commit git_archive git_apply cwd).
Abbreviation write_ws := (write_workspace word has_commit git_archive git_apply cwd).

(** The same files, and nothing more left standing. *)
Definition same (w w' : world) : Prop := files w' = files w ∧ leftovers w' = leftovers w.
#[local] Instance same_silent : Silent same.
Proof. split; [intros w1 w2 w3 [E1 L1] [E2 L2]; split; congruence|]. by split. Qed.

(** What is asked of the task directory before anything is written. *)
Lemma materialize_workspace_ok task_dir root w task w' :
  mat task_dir root WORKSPACE w = (Ok task, w') →
  ∃ w1 w2, load_at word task_dir w = (Ok task, w1) ∧ files w1 = files w ∧ files w !! root = None ∧
    make_folders root w1 = (Ok (), w2) ∧ write_ws task task_dir root w2 = (Ok (), w').
Proof.
  unfold materialize. intros (? & ? & [_ ->]%unless_ok & H)%io_bind_ok. apply io_bind_ok in H as (task' & w1 & Hl & H).
  pose proof (keeps_load same word task_dir _ _ _ Hl) as [E _].
  apply io_bind_ok in H as (t & ? & [-> ->]%look_ok & H). apply io_bind_ok in H as (? & ? & [_ ->]%unless_ok & H).
  apply io_bind_ok in H as (? & ? & [_ ->]%unless_ok & H). cbn [elem_str existsb String.eqb orb] in H.
  apply io_bind_ok in H as ([] & w2 & H & Ht). apply io_bind_ok in Ht as (? & ? & [_ ->]%mret_ok & [<- ->]%mret_ok).
  apply io_bind_ok in H as (? & ? & [_ ->]%unless_ok & H). apply io_bind_ok in H as (? & ? & [Hn ->]%unless_ok & H).
  apply io_bind_ok in H as ([] & w3 & Hm & H%on_error_ok). exists w1, w3. split_and!; try done.
  unfold exists_at in Hn. cbn in Hn. rewrite E in Hn. by destruct (files w !! root).
Qed.

Lemma nothing_below t (p : path) r : wf_tree t → t !! p = None → t !! (p ++ r) = None.
Proof.
  intros Hwf Hp. destruct r as [|x r]; [by rewrite app_nil_r|]. destruct (t !! (p ++ x :: r)) as [e|] eqn:E; [|done].
  apply wf_ancestor in E; [congruence|done].
Qed.

(** What a call that writes the workspace may change. *)
Definition workspace_writes (root q : path) : Prop :=
  above root q ∨ q = root ∨ (∃ r, q = root ++ WORKSPACE :: r) ∨ ∃ r, q = staged_protected_record root ++ r.
Lemma beside_workspace (root : path) x r : root ≠ [] → x ≠ WORKSPACE → ¬ workspace_writes root (root ++ x :: r).
Proof.
  intros Hr Hx [Ha|[E|[[s E]|[s E]]]].
  - by apply (above_below _ _ (x :: r)) in Ha.
  - apply (f_equal length) in E. rewrite length_app in E. cbn in E. lia.
  - apply app_inv_head in E. congruence.
  - by apply staged_apart in E.
Qed.
Lemma write_workspace_frame task task_dir root w r w' :
  write_ws task task_dir root w = (r, w') → frame (workspace_writes root) w w'.
Proof.
  apply touches_write_workspace.
  - intros s. right; right; left. exists s. by rewrite <-app_assoc.
  - intros s. right; right; right. by exists s.
Qed.
Lemma materialize_workspace_frame task_dir root w task w' :
  mat task_dir root WORKSPACE w = (Ok task, w') → frame (workspace_writes root) w w' ∧ files w !! root = None.
Proof.
  intros (w1 & w2 & _ & E & Hn & Hm & Hw)%materialize_workspace_ok. split; [|done]. intros q Hq.
  rewrite (write_workspace_frame _ _ _ _ _ _ Hw q Hq), <-E. apply make_folders_ok in Hm as [Hm _]. apply Hm.
  intros [->|Ha]; apply Hq; unfold workspace_writes; auto.
Qed.

(** A root whose workspace was materialised holds the workspace and
    nothing else: no grader, no task document, no record.  Beside the root, only
    its missing ancestors and the staged record were written. *)
Theorem materialize_sealed task_dir root w task w' :
  root ≠ [] → wf_tree (files w) → mat task_dir root WORKSPACE w = (Ok task, w') →
  (∀ x r, x ≠ WORKSPACE → files w' !! (root ++ x :: r) = None) ∧
  ∀ q, ¬ workspace_writes root q → files w' !! q = files w !! q.
Proof.
  intros Hr Hwf [Hf Hn]%materialize_workspace_frame. split; [|exact Hf]. intros x r Hx. rewrite Hf; [by apply nothing_below|].
  by apply beside_workspace.
Qed.

(** ** A failed materialisation leaves nothing *)

Lemma grows_make_folders p : grows (make_folders p).
Proof.
  apply keeps_bind; [apply _|apply keeps_look, _|]. intros l. apply keeps_bind; [apply _| |intros ?; apply grows_call].
  apply keeps_loop; [apply _|]. intros ? q. apply grows_call.
Qed.
Lemma grows_clear_root root : grows (clear_root root).
Proof. apply keeps_bind; [apply _|apply grows_remove|intros ?; apply grows_unlink]. Qed.
Lemma cleaned {A} (m : io A) root w0 w e w' :
  grows m → on_error m (clear_root root) w = (Err e, w') → more w0 w → leftovers w' = leftovers w0 → nothing_at root w'.
Proof.
  intros Hm (e1 & w1 & r & H1 & H2)%on_error_err H0 Hl. apply Hm in H1.
  pose proof (grows_clear_root _ _ _ _ H2) as H3.
  eapply clear_root_done; [done|]. assert (more w0 w1) as H4 by (by eapply silent_trans). by apply (more_squeeze w0 w1 w').
Qed.

(** Claim C27. A call that was to write the workspace and failed, at whatever
    system call, leaves neither a root nor a staged record behind, unless a
    removal itself failed. *)
Theorem failed_materialize_leaves_nothing task_dir root parts w e w' :
  root ≠ [] → elem_str parts [WORKSPACE; BOTH] = true → wf_tree (files w) → nothing_at root w →
  mat task_dir root parts w = (Err e, w') → leftovers w' = leftovers w → nothing_at root w'.
Proof.
  intros Hr Hp Hwf Hn H Hl.
  assert (Hsame : ∀ w1, files w1 = files w → nothing_at root w1) by (intros w1 E; unfold nothing_at; by rewrite E).
  unfold materialize in H. apply io_bind_err in H as [H|(? & ? & [_ ->]%unless_ok & H)].
  { apply Hsame. by apply (keeps_unless same) in H as [? _]. }
  apply io_bind_err in H as [H|(task & w1 & Hld & H)]; [apply Hsame; by apply (keeps_load same) in H as [? _]|].
  apply (keeps_load same) in Hld as [E1 L1].
  assert (Hsame1 : ∀ w2, same w1 w2 → nothing_at root w2) by (intros w2 [E _]; apply Hsame; congruence).
  apply io_bind_err in H as [H|(t & ? & [-> ->]%look_ok & H)]; [done|].
  do 2 (apply io_bind_err in H as [H|(? & ? & [_ ->]%unless_ok & H)]; [apply Hsame1; by apply (keeps_unless same) in H|]).
  rewrite Hp in H. apply io_bind_err in H as [H|([] & w2 & H & Ht)].
  - do 2 (apply io_bind_err in H as [H|(? & ? & [_ ->]%unless_ok & H)]; [apply Hsame1; by apply (keeps_unless same) in H|]).
    apply io_bind_err in H as [H|([] & w2 & Hm & H)].
    + apply make_folders_err in H. rewrite <-E1 in Hsame. destruct Hn as [Hn1 Hn2]. split.
      * intros q. rewrite H, E1; [done|]. intros Ha. by apply (above_below _ _ q) in Ha.
      * rewrite H, E1; [done|]. by apply staged_not_above.
    + eapply (cleaned _ _ w); [|exact H| |done]; [apply grows_write_workspace|]. unfold more. rewrite <-L1.
      exact (grows_make_folders _ _ _ _ Hm).
  - apply io_bind_err in Ht as [Ht|(? & ? & _ & Ht)]; [|done].
    destruct (String.eqb parts GRADER) eqn:Eg; [apply String.eqb_eq in Eg as ->; done|].
    destruct (String.eqb parts BOTH); [|done]. eapply (cleaned _ _ w); [apply grows_materialize_grader|exact Ht| |done].
    unfold more. rewrite <-L1. eapply (keeps_bind more); [| |exact H]; [apply keeps_unless, _|]. intros ?.
    apply keeps_bind; [apply _|apply keeps_unless, _|]. intros ?. apply keeps_bind; [apply _|apply grows_make_folders|].
    intros ?. apply keeps_on_error; [apply _|apply grows_write_workspace|apply grows_clear_root].
Qed.
End sealed.

(** ** What the recorded hashes cover *)

Lemma covers_same t t' base sel h :
  (∀ q, digest_at t' (base ++ q) = digest_at t (base ++ q)) → covers t base sel h → covers t' base sel h.
Proof. intros E [Hn H]. split; [done|]. intros k d. rewrite H. by setoid_rewrite E. Qed.
Lemma covers_empty t base sel h : (∀ q, sel q → digest_at t (base ++ q) = None) → covers t base sel h → h = [].
Proof.
  intros Hs [_ H]. destruct h as [|[k d] h]; [done|]. assert (assoc ((k, d) :: h) k = Some d) as Ha by (cbn; by rewrite String.eqb_refl).
  apply H in Ha as (q & _ & Hq & Hd). rewrite Hs in Hd; done.
Qed.
Lemma digest_same t t' p : t' !! p = t !! p → digest_at t' p = digest_at t p.
Proof. unfold digest_at. by intros ->. Qed.

Lemma wf_insert_inv t p c : wf_tree (<[p := File c]> t) → p ≠ [] → t !! parent_of p = Some Folder → wf_tree t.
Proof.
  intros Hwf Hp Hf q e Hq. destruct (decide (q = p)) as [->|Hne].
  - split; [|by right]. by eapply (Hwf p (File c)), lookup_insert_eq.
  - destruct (Hwf q e) as [Hg Hpar]; [by rewrite lookup_insert_ne|]. split; [done|]. destruct Hpar as [?|Hpar]; [by left|right].
    destruct (decide (parent_of q = p)) as [<-|Hne']; [by rewrite lookup_insert_eq in Hpar|]. by rewrite lookup_insert_ne in Hpar.
Qed.
Lemma wf_delete_inv t p : wf_tree (delete p t) → Forall good_part p → t !! parent_of p = Some Folder → wf_tree t.
Proof.
  intros Hwf Hg Hf q e Hq. destruct (decide (q = p)) as [->|Hne]; [auto|].
  destruct (Hwf q e) as [Hq1 Hpar]; [by rewrite lookup_delete_ne|]. split; [done|]. destruct Hpar as [?|Hpar]; [by left|right].
  by apply lookup_delete_Some in Hpar as [_ ?].
Qed.

(** *** What the grader installs *)

Definition installed (q : path) : Prop := (∃ y r, q = GRADER :: y :: r) ∨ q = [TASK_FILE].
#[export] Instance installed_dec q : Decision (installed q).
Proof.
  destruct (decide (q = [TASK_FILE])) as [->|Hq]; [by left; right|]. destruct q as [|x [|y r]].
  - right. by intros [(? & ? & ?)|?].
  - right. by intros [(? & ? & ?)|?].
  - destruct (decide (x = GRADER)) as [->|Hx]; [left; left; eauto|]. right. intros [(? & ? & ?)|?]; congruence.
Defined.
Lemma is_written_posix q : Forall good_part q → is_written (as_posix q) = true ↔ installed q.
Proof.
  intros Hg. unfold is_written. rewrite orb_true_iff, String.eqb_eq.
  assert (Hnil : Forall (λ c, has_char slash c = false) q) by (eapply Forall_impl; [exact Hg|]; by intros c (_ & _ & ?)).
  split.
  - intros [(t & Ht)%starts_with_inv|Ht].
    + left. destruct q as [|x q]; [done|]. cbn [as_posix] in Ht. change (GRADER +:+ "/") with ("grader" +:+ "/") in Ht. rewrite str_app_assoc in Ht. apply (f_equal (split_on slash)) in Ht.
      rewrite split_join in Ht by done. change ("/" +:+ t) with (String slash t) in Ht. rewrite (split_on_app slash "grader" t eq_refl) in Ht.
      destruct q as [|y q]; [|injection Ht as -> _; by exists y, q]. injection Ht as _ Ht. by destruct t as [|c t]; cbn in Ht; [|destruct (Ascii.eqb c slash); [|destruct (split_on slash t)]].
    + right. apply as_posix_inj; [done| |exact Ht]. repeat constructor; done.
  - intros [(y & r & ->)| ->]; [left|by right]. cbn [as_posix].
    change (join "/" (GRADER :: y :: r)) with (GRADER +:+ ("/" +:+ join "/" (y :: r))). rewrite <-str_app_assoc. apply starts_with_app.
Qed.

(** The digest an outside file has when the grader has installed it. *)
Definition installed_digest (t : tree) (root q : path) : option string :=
  if decide (installed q) then digest_at t (root ++ q) else None.

Lemma assoc_filter_keys {A} (f : string → bool) (l : list (string * A)) k :
  assoc (List.filter (λ kv, f kv.1) l) k = if f k then assoc l k else None.
Proof.
  induction l as [|[k' v] l IH]; cbn; [by destruct (f k)|]. destruct (String.eqb_spec k' k) as [->|Hk].
  - destruct (f k) eqn:E; cbn; [by rewrite String.eqb_refl|by rewrite IH].
  - destruct (f k') eqn:E; cbn; [|exact IH]. destruct (String.eqb_spec k' k); [done|exact IH].
Qed.
Lemma keys_filter_nodup {A} (f : string → bool) (l : list (string * A)) : NoDup (keys l) → NoDup (keys (List.filter (λ kv, f kv.1) l)).
Proof.
  induction l as [|[k v] l IH]; [done|]. unfold keys. cbn. intros [Hk Hn]%NoDup_cons. destruct (f k); cbn; [|by apply IH].
  apply NoDup_cons. split; [|by apply IH]. intros Hin. apply Hk. apply list_elem_of_fmap in Hin as (kv & -> & Hin).
  apply list_elem_of_In, filter_In in Hin as [Hin _]. by apply list_elem_of_In, (list_elem_of_fmap_2 fst) in Hin.
Qed.
Lemma dupdate_fresh {A} (d e : list (string * A)) : NoDup (keys (d ++ e)) → dupdate d e = d ++ e.
Proof.
  revert d. induction e as [|[k v] e IH]; intros d H; [symmetry; apply app_nil_r|].
  change (dupdate d ((k, v) :: e)) with (dupdate (dset d k v) e). rewrite dset_notin.
  - rewrite IH; rewrite <-?app_assoc; done.
  - unfold keys in H. rewrite map_app in H. apply NoDup_app in H as (_ & H & _). intros Hk. apply (H k Hk). by left.
Qed.

(** What the record says once the grader is there: the digests of the
    installed files, and no other outside file. *)
Definition installed_hashes (written : hashes) : dict :=
  dupdate [] (map (λ kv, (kv.1, VStr kv.2)) (List.filter (λ kv, is_written kv.1) written)).
Definition installed_assoc (written : hashes) (k : string) : option string := if is_written k then assoc written k else None.
Lemma records_installed t root written : covers t root outside written →
  records (VDict (installed_hashes written)) (installed_assoc written).
Proof.
  intros [Hn H]. unfold installed_hashes. pose proof (keys_filter_nodup is_written written Hn) as Hf.
  set (l := List.filter _ written) in *. assert (Hm : NoDup (keys (map (λ kv, (kv.1, VStr kv.2)) l))) by by rewrite (keys_map VStr).
  rewrite dupdate_fresh by exact Hm. exists (map (λ kv, (kv.1, VStr kv.2)) l). split_and!; [done..|]. intros k. rewrite (assoc_map VStr).
  unfold l, installed_assoc. by rewrite assoc_filter_keys.
Qed.

(** ** What each step of a materialisation that succeeds has done *)

Lemma write_file_ok p c w u w' : write_file p c w = (Ok u, w') →
  files w' = <[p := File c]> (files w) ∧ files w !! parent_of p = Some Folder.
Proof.
  unfold write_file, call, is_folder. intros H.
  destruct (faults w) as [|[x|] fs]; [|done|];
    (destruct (files w !! parent_of p) as [[]|]; try done; destruct (files w !! p) as [[]|]; try done; by injection H as _ <-).
Qed.
Lemma copy_tree_ok src dst w u w' : copy_tree src dst w = (Ok u, w') →
  files w' = place dst (subtree src (files w)) (files w) ∧ files w !! dst = None.
Proof.
  unfold copy_tree, call, exists_at. intros H.
  destruct (faults w) as [|[x|] fs]; [|done|]; (destruct (files w !! dst) eqn:E; [done|]; by injection H as _ <-).
Qed.
Lemma copy_file_ok src dst w u w' : copy_file src dst w = (Ok u, w') →
  ∃ c, files w !! src = Some (File c) ∧
    files w' = <[(if is_folder (files w) dst then dst ++ [default "" (last src)] else dst) := File c]> (files w).
Proof.
  intros (c & w1 & (E1 & _ & Hc)%reads_file & H)%io_bind_ok. apply io_bind_ok in H as (b & ? & [-> ->]%look_ok & H).
  apply write_file_ok in H as [H _]. rewrite E1 in H. by exists c.
Qed.
Lemma unlink_ok p w u w' : unlink false p w = (Ok u, w') → files w' = delete p (files w).
Proof.
  unfold unlink, call. intros H. destruct (faults w) as [|[x|] fs]; [|done|];
    (destruct (files w !! p) as [[]|] eqn:E; try done; by injection H as _ <-).
Qed.
Lemma load_at_ok word dir w task w' : load_at word dir w = (Ok task, w') →
  ∃ c, files w !! (dir ++ [TASK_FILE]) = Some (File c) ∧ files w' = files w ∧
    load_task word (shown (dir ++ [TASK_FILE])) (Some (Ok c)) = Ok task.
Proof.
  intros (b & ? & [-> ->]%look_ok & H)%io_bind_ok. destruct (is_file _ _); [|by apply lift_ok in H as [? _]].
  apply io_bind_ok in H as (c & w1 & (E & _ & Hc)%reads_file & [Hl ->]%lift_ok). by exists c.
Qed.
(** The document's path matters to the errors alone. *)
Lemma load_task_path word p p' f t t' : load_task word p f = Ok t → load_task word p' f = Ok t' → t = t'.
Proof.
  unfold load_task. destruct f as [text|]; [|done]. destruct (read_text text) as [s|]; [|done]. cbn.
  destruct (loads_str s) as [[]|]; try done. destruct (Task_from_dict _ _) as [x|[]]; congruence.
Qed.
Lemma read_text_at_ok p w text w' : read_text_at p w = (Ok text, w') →
  ∃ c, files w !! p = Some (File c) ∧ read_text (Ok c) = Ok text ∧ files w' = files w.
Proof. intros (c & w1 & (E & _ & Hc)%reads_file & [Hl ->]%lift_ok)%io_bind_ok. by exists c. Qed.
Lemma read_record_ok root w v w' : read_record root w = (Ok v, w') →
  ∃ c text, files w !! (root ++ record_path) = Some (File c) ∧ read_text (Ok c) = Ok text ∧ loads_str text = inl v ∧ files w' = files w.
Proof.
  intros (b & ? & [-> ->]%look_ok & H)%io_bind_ok. apply io_bind_ok in H as (? & ? & [_ ->]%unless_ok & H).
  apply io_bind_ok in H as (text & w1 & (c & Hc & Ht & E)%read_text_at_ok & [Hl ->]%lift_ok).
  exists c, text. destruct (loads_str text); [|done]. injection Hl as ->. done.
Qed.

(** The text of a record, read back. *)
Definition holds_record (c : string) (ws preserved outside : value) : Prop :=
  read_text (Ok c) = Ok c ∧ loads_str c = inl (VDict [("outside", outside); ("preserved", preserved); ("workspace", ws)]).

Section damage.
Context (word : string → bool) (has_commit : string → string → res bool) (git_archive : string → string → res tree)
        (git_apply : string → tree → res tree) (cwd : path).
Abbreviation mat := (materialize word has_commit git_archive git_apply cwd).
Abbreviation write_ws := (write_workspace word has_commit git_archive git_apply cwd).

Lemma write_workspace_record task task_dir root w w' : write_ws task task_dir root w = (Ok (), w') →
  ∃ t hw hp ho, files w' = <[staged_protected_record root :=
      File (record_text (record_dict (hashes_value hw) (hashes_value hp) (hashes_value ho)))]> t ∧
    t !! parent_of (staged_protected_record root) = Some Folder ∧
    (wf_tree t → covers t (root ++ [WORKSPACE]) (below_entry (protected task)) hw ∧
                 covers t (root ++ [WORKSPACE]) (below_entry (preserved_on_stop task)) hp ∧ covers t root outside ho).
Proof.
  intros (b & ? & [-> ->]%look_ok & H)%io_bind_ok. apply io_bind_ok in H as (? & w1 & _ & H).
  apply io_bind_ok in H as (? & w2 & _ & H). apply io_bind_ok in H as (? & w3 & _ & H).
  apply io_bind_ok in H as (hw & w4 & (E1 & _ & H1)%reads_hashes_under & H).
  apply io_bind_ok in H as (hp & w5 & (E2 & _ & H2)%reads_hashes_under & H).
  apply io_bind_ok in H as (ho & w6 & (E3 & _ & H3)%reads_outside & H).
  apply write_file_ok in H as [Hw Hpar]. exists (files w6), hw, hp, ho. split_and!; [done..|].
  rewrite E2, E1 in H3. rewrite E1 in H2. rewrite E3, E2, E1. auto.
Qed.

(** The staged record holds the digests of the fresh workspace, and no outside file. *)
Lemma materialize_workspace_record task_dir root w task w' :
  root ≠ [] → wf_tree (files w) → wf_tree (files w') → text_paths (root ++ [WORKSPACE]) (files w') →
  mat task_dir root WORKSPACE w = (Ok task, w') →
  ∃ c ws preserved hw hp, files w' !! staged_protected_record root = Some (File c) ∧ holds_record c ws preserved (VDict []) ∧
    records ws (assoc hw) ∧ covers (files w') (root ++ [WORKSPACE]) (below_entry (protected task)) hw ∧
    records preserved (assoc hp) ∧ covers (files w') (root ++ [WORKSPACE]) (below_entry (preserved_on_stop task)) hp.
Proof.
  intros Hr Hwf Hwf' Ht H. pose proof (materialize_workspace_frame word has_commit git_archive git_apply cwd _ _ _ _ _ H) as [Hf Hn].
  apply materialize_workspace_ok in H as (w1 & w2 & _ & _ & _ & _ & H).
  apply write_workspace_record in H as (t & hw & hp & ho & E & Hpar & H).
  assert (Hs : ∀ q, t !! (root ++ q) = files w' !! (root ++ q)).
  { intros q. rewrite E, lookup_insert_ne; [done|]. by apply staged_not_root. }
  assert (wf_tree t) as Hwt. { rewrite E in Hwf'. eapply wf_insert_inv; [done| |done]. intros En. unfold staged_protected_record in En. by destruct (parent_of root). }
  destruct (H Hwt) as (Cw & Cp & Co).
  assert (ho = []) as ->.
  { eapply covers_empty; [|exact Co]. intros q (x & r & -> & Hx & _). unfold digest_at. rewrite Hs, Hf; [by rewrite nothing_below|by apply beside_workspace]. }
  assert (Hd : ∀ q, digest_at (files w') ((root ++ [WORKSPACE]) ++ q) = digest_at t ((root ++ [WORKSPACE]) ++ q)).
  { intros q. apply digest_same. by rewrite <-app_assoc, Hs. }
  apply (covers_same _ (files w')) in Cw, Cp; try done.
  eexists _, (sort_keys (hashes_value hw)), (sort_keys (hashes_value hp)), hw, hp. split; [by rewrite E, lookup_insert_eq|].
  split; [|split_and!; try done; by eapply records_sorted, records_hashes].
  destruct (record_text_reads (hashes_value hw) (hashes_value hp) (hashes_value []) (assoc hw) (assoc hp) (assoc [])) as [A B];
    [..|exact (conj A B)]; try (by eapply records_hashes); try (by eapply covers_plain).
  done.
Qed.
End damage.

Section damage_found.
Context (word : string → bool) (has_commit : string → string → res bool) (git_archive : string → string → res tree)
        (git_apply : string → tree → res tree) (cwd : path).
Abbreviation mat := (materialize word has_commit git_archive git_apply cwd).

(** What the grader's part leaves, when the staged record holds the hashes of
    a fresh workspace: the digests of what it installed are added to them. *)
Lemma materialize_grader_ok task_dir root w u w' c ws preserved :
  files w !! staged_protected_record root = Some (File c) → holds_record c ws preserved (VDict []) →
  materialize_grader task_dir root w = (Ok u, w') →
  ∃ t2 doc t3 written, files w !! (root ++ [GRADER]) = None ∧
    t2 = place (root ++ [GRADER]) (subtree (task_dir ++ [GRADER]) (files w)) (files w) ∧
    t2 !! (task_dir ++ [TASK_FILE]) = Some (File doc) ∧
    t3 = <[(if is_folder t2 (root ++ [TASK_FILE]) then root ++ [TASK_FILE; TASK_FILE] else root ++ [TASK_FILE]) := File doc]> t2 ∧
    (wf_tree t3 → covers t3 root outside written) ∧ t3 !! parent_of (root ++ record_path) = Some Folder ∧
    files w' = delete (staged_protected_record root)
      (<[root ++ record_path := File (record_text (record_dict ws preserved (VDict (installed_hashes written))))]> t3).
Proof.
  intros Hc [Ht Hl] H. apply io_bind_ok in H as (t & ? & [-> ->]%look_ok & H). apply io_bind_ok in H as (? & ? & [_ ->]%unless_ok & H).
  apply io_bind_ok in H as (? & ? & [_ ->]%unless_ok & H). apply io_bind_ok in H as (c' & w1 & (E1 & _ & Hc')%reads_file & H).
  rewrite Hc in Hc'. injection Hc' as <-. apply io_bind_ok in H as (record & w2 & [Hrec ->]%lift_ok & H).
  rewrite Ht in Hrec. cbn [mbind res_bind] in Hrec. rewrite Hl, staged_hashes_record in Hrec. injection Hrec as <-.
  apply io_bind_ok in H as (? & w2 & [E2 Hn]%copy_tree_ok & H). apply io_bind_ok in H as (? & w3 & (doc & Hdoc & E3)%copy_file_ok & H).
  apply io_bind_ok in H as (written & w4 & (E4 & _ & Hw)%reads_outside & H).
  apply io_bind_ok in H as (o & ? & [[= <-] ->]%lift_ok & H). apply io_bind_ok in H as (? & w5 & [E5 Hp]%write_file_ok & E6%unlink_ok).
  rewrite E1 in E2, Hn. exists (files w2), doc, (files w3), written. split_and!; try done.
  - rewrite E3, last_snoc, <-app_assoc. done.
  - by rewrite <-E4.
  - by rewrite E6, E5, E4.
Qed.

Lemma materialize_grader_part_ok task_dir root w task w' :
  mat task_dir root GRADER w = (Ok task, w') →
  ∃ doc w1, files w !! (task_dir ++ [TASK_FILE]) = Some (File doc) ∧ files w1 = files w ∧
    materialize_grader task_dir root w1 = (Ok (), w').
Proof.
  unfold materialize. intros (? & ? & [_ ->]%unless_ok & H)%io_bind_ok. apply io_bind_ok in H as (task' & w1 & (doc & Hd & E & _)%load_at_ok & H).
  apply io_bind_ok in H as (t & ? & [-> ->]%look_ok & H). apply io_bind_ok in H as (? & ? & [_ ->]%unless_ok & H).
  apply io_bind_ok in H as (? & ? & [_ ->]%unless_ok & H). cbn [elem_str existsb String.eqb orb] in H.
  apply io_bind_ok in H as (? & ? & [_ ->]%mret_ok & H). apply io_bind_ok in H as ([] & w2 & H & [_ ->]%mret_ok). eauto.
Qed.

(** The installation changes nothing beside the root. *)
Lemma installation_frame task_dir root t doc t2 t3 q :
  t2 = place (root ++ [GRADER]) (subtree (task_dir ++ [GRADER]) t) t →
  t3 = <[(if is_folder t2 (root ++ [TASK_FILE]) then root ++ [TASK_FILE; TASK_FILE] else root ++ [TASK_FILE]) := File doc]> t2 →
  (∀ r, q ≠ root ++ r) → t3 !! q = t !! q.
Proof.
  intros -> -> Hq. rewrite lookup_insert_ne by (destruct (is_folder _ _); intros E; by eapply Hq). rewrite lookup_place.
  destruct (strip_prefix (root ++ [GRADER]) q) as [r|] eqn:E; [|done]. apply strip_prefix_spec in E. rewrite <-app_assoc in E. by apply Hq in E.
Qed.
Lemma parent_of_staged (root : path) : parent_of (staged_protected_record root) = parent_of root.
Proof. unfold staged_protected_record, parent_of. apply removelast_last. Qed.
Lemma parent_not_below (root r : path) : root ≠ [] → parent_of root ≠ root ++ r.
Proof.
  intros Hr E. destruct root as [|x p _] using rev_ind; [done|]. unfold parent_of in E. rewrite removelast_last in E.
  apply (f_equal length) in E. rewrite !length_app in E. cbn in E. lia.
Qed.

(** The tree the digests were taken from is well formed when what is left is. *)
Lemma installed_wf root t t3 w' c e : root ≠ [] → wf_tree t → wf_tree w' → t !! staged_protected_record root = Some e →
  t3 !! parent_of (staged_protected_record root) = t !! parent_of (staged_protected_record root) →
  t3 !! parent_of (root ++ record_path) = Some Folder →
  w' = delete (staged_protected_record root) (<[root ++ record_path := File c]> t3) → wf_tree t3.
Proof.
  intros Hr Hwf Hwf' Hs Hp Hpar ->. assert (Hn : staged_protected_record root ≠ []).
  { unfold staged_protected_record. by destruct (parent_of root). }
  apply Hwf in Hs as [Hg [?|Hf]]; [done|]. apply wf_delete_inv in Hwf'; [|done|].
  - eapply wf_insert_inv; [done| |done]. by destruct root.
  - rewrite lookup_insert_ne; [by rewrite Hp|]. rewrite parent_of_staged. intros E. symmetry in E. by apply parent_not_below in E.
Qed.

Lemma installed_assoc_spec t3 t' root written : wf_tree t3 → covers t3 root outside written →
  (∀ q, q ≠ record_path → t' !! (root ++ q) = t3 !! (root ++ q)) →
  ∀ k d, installed_assoc written k = Some d ↔ ∃ q, k = as_posix q ∧ outside q ∧ installed_digest t' root q = Some d.
Proof.
  intros Hwf [_ Hw] Hroot k d. assert (Hd : ∀ q, outside q → digest_at t' (root ++ q) = digest_at t3 (root ++ q)).
  { intros q (? & ? & -> & _ & ?). by apply digest_same, Hroot. }
  unfold installed_assoc, installed_digest. split.
  - intros H. destruct (is_written k) eqn:Ek; [|done]. apply Hw in H as (q & -> & Ho & H). exists q. split_and!; [done..|].
    rewrite decide_True by (apply is_written_posix; [by eapply digest_good|done]). by rewrite Hd.
  - intros (q & -> & Ho & H). destruct (decide (installed q)) as [Hi|]; [|done]. rewrite Hd in H by done.
    apply is_written_posix in Hi; [|by eapply digest_good]. rewrite Hi. apply Hw. eauto.
Qed.
Lemma installed_document root t2 t3 doc doc2 d : d = root ++ [TASK_FILE] →
  t3 = <[(if is_folder t2 d then root ++ [TASK_FILE; TASK_FILE] else d) := File doc]> t2 → t3 !! d = Some (File doc2) → doc2 = doc.
Proof.
  intros -> -> H. destruct (is_folder t2 (root ++ [TASK_FILE])) eqn:Ef; [|rewrite lookup_insert_eq in H; congruence].
  rewrite lookup_insert_ne in H; [|by intros ?%app_inv_head]. unfold is_folder in Ef. by rewrite H in Ef.
Qed.
Lemma document_kept (root p src : path) t e : wf_tree t → t !! root = None → t !! p = Some e → place root (subtree src t) t !! p = t !! p.
Proof.
  intros Hwf Hn Hp. rewrite lookup_place. destruct (strip_prefix root p) as [r|] eqn:Er; [|done].
  apply strip_prefix_spec in Er as ->. rewrite nothing_below in Hp; done.
Qed.

(** The record in the grader directory, and the document beside it. *)
Lemma materialize_grader_record task_dir root w task w' c ws preserved hw hp :
  root ≠ [] → wf_tree (files w) → wf_tree (files w') → text_paths root (files w') →
  files w !! staged_protected_record root = Some (File c) → holds_record c ws preserved (VDict []) →
  records ws (assoc hw) → plain_hashes (assoc hw) → records preserved (assoc hp) → plain_hashes (assoc hp) →
  mat task_dir root GRADER w = (Ok task, w') →
  ∃ c' f ws' preserved' outside', files w' !! (root ++ record_path) = Some (File c') ∧ holds_record c' ws' preserved' outside' ∧
    records ws' (assoc hw) ∧ records preserved' (assoc hp) ∧ records outside' f ∧
    (∀ k d, f k = Some d ↔ ∃ q, k = as_posix q ∧ outside q ∧ installed_digest (files w') root q = Some d) ∧
    (∀ doc, files w' !! (root ++ [TASK_FILE]) = Some (File doc) → files w !! (task_dir ++ [TASK_FILE]) = Some (File doc)).
Proof.
  intros Hr Hwf Hwf' Ht Hc Hrec Rw Pw Rp Pp (doc & w1 & Hdoc & E & H)%materialize_grader_part_ok.
  rewrite <-E in Hc. eapply materialize_grader_ok in H as (t2 & doc' & t3 & written & Hn & Et2 & Hdoc' & Et3 & Hw & Hpar & E'); [|done..].
  rewrite E in Hn, Et2, Hc. assert (Hframe : ∀ q, (∀ r, q ≠ root ++ r) → t3 !! q = files w !! q) by (intros q; by eapply installation_frame).
  assert (wf_tree t3) as Hwt.
  { eapply installed_wf; [done|exact Hwf|exact Hwf'|exact Hc| |exact Hpar|exact E']. apply Hframe. intros r.
    rewrite parent_of_staged. by apply parent_not_below. }
  specialize (Hw Hwt).
  assert (Hroot : ∀ q, q ≠ record_path → files w' !! (root ++ q) = t3 !! (root ++ q)).
  { intros q Hq. rewrite E', lookup_delete_ne, lookup_insert_ne; [done| |by apply staged_not_root]. by intros ?%app_inv_head. }
  assert (Hpl : plain_hashes (assoc written)).
  { eapply covers_plain; [|exact Hw]. intros p e Hp. destruct (strip_prefix root p) as [q|] eqn:Eq; [|done].
    apply strip_prefix_spec in Eq as ->. assert (is_Some (files w' !! (root ++ q))) as [e' He].
    { destruct (decide (q = record_path)) as [->|Hq]; [|rewrite Hroot by done; eauto].
      rewrite E', lookup_delete_ne by (by apply staged_not_root). rewrite lookup_insert_eq. eauto. }
    apply Ht in He. by rewrite strip_prefix_app in He. }
  pose proof (records_installed _ _ _ Hw) as Rw'.
  destruct (record_text_reads ws preserved (VDict (installed_hashes written)) (assoc hw) (assoc hp) (installed_assoc written)) as [A B];
    [done..| |].
  { intros k d. unfold installed_assoc. destruct (is_written k); [apply Hpl|done]. }
  eexists _, (installed_assoc written), _, _, _. split.
  { rewrite E', lookup_delete_ne by (by apply staged_not_root). apply lookup_insert_eq. }
  split; [exact (conj A B)|]. split_and!; [by apply records_sorted..| |].
  - by eapply installed_assoc_spec.
  - intros doc2 H2. rewrite Hroot in H2 by done. apply (installed_document root t2 t3 doc' doc2 _ eq_refl Et3) in H2 as ->.
    rewrite Et2 in Hdoc'. by rewrite (document_kept _ _ _ _ _ Hwf Hn Hdoc) in Hdoc'.
Qed.

(** Two recordings differ at a key exactly when the digests of a file do. *)
Lemma assoc_differ f h t2 (base : path) (sel : path → Prop) (D : path → option string) :
  (∀ k d, f k = Some d ↔ ∃ q, k = as_posix q ∧ sel q ∧ D q = Some d) → covers t2 base sel h → wf_tree t2 →
  (∀ q, is_Some (D q) → Forall good_part q) →
  ∀ s, f s ≠ assoc h s ↔ ∃ q, s = as_posix q ∧ sel q ∧ digest_at t2 (base ++ q) ≠ D q.
Proof.
  intros Hf [_ Hh] Hwf HD s. split.
  - intros Hne. destruct (f s) as [d|] eqn:Ef.
    + apply Hf in Ef as Ef'. destruct Ef' as (q & -> & Hs & Hd). exists q. split_and!; [done..|]. rewrite Hd. intros E. apply Hne. symmetry. apply Hh. eauto.
    + destruct (assoc h s) as [d|] eqn:Eh; [|done]. apply Hh in Eh as (q & -> & Hs & Hd). exists q. split_and!; [done..|].
      intros E. rewrite Hd in E. symmetry in E. assert (f (as_posix q) = Some d) by (apply Hf; eauto). congruence.
  - intros (q & -> & Hs & Hne) E. apply Hne.
    assert (H1 : ∀ d, D q = Some d → digest_at t2 (base ++ q) = Some d).
    { intros d Hd. assert (f (as_posix q) = Some d) as Hfq by (apply Hf; eauto). rewrite E in Hfq. apply Hh in Hfq as (q' & Eq & _ & Hd').
      apply as_posix_inj in Eq as <-; [done|by apply HD|by eapply digest_good]. }
    destruct (D q) as [d|] eqn:Ed; [by apply H1|]. destruct (digest_at t2 (base ++ q)) as [d|] eqn:Et; [|done].
    assert (assoc h (as_posix q) = Some d) as Hhq by (apply Hh; eauto). rewrite <-E in Hhq. apply Hf in Hhq as (q' & Eq & _ & Hd').
    apply as_posix_inj in Eq as <-; [congruence|by eapply digest_good|by apply HD].
Qed.

Lemma preserved_changed_ok root w l w' : preserved_changed word root w = (Ok l, w') →
  ∃ doc task c text v ps hp, files w !! (root ++ [TASK_FILE]) = Some (File doc) ∧
    load_task word (shown (root ++ [TASK_FILE])) (Some (Ok doc)) = Ok task ∧
    files w !! (root ++ record_path) = Some (File c) ∧ read_text (Ok c) = Ok text ∧ loads_str text = inl v ∧
    get_or v "preserved" (VDict []) = Ok ps ∧
    (wf_tree (files w) → covers (files w) (root ++ [WORKSPACE]) (below_entry (preserved_on_stop task)) hp) ∧ changed_files ps hp = Ok l.
Proof.
  intros (task & w1 & (doc & Hdoc & E1 & Hload)%load_at_ok & H)%io_bind_ok.
  apply io_bind_ok in H as (v & w2 & (c & text & Hc & Ht & Hv & E2)%read_record_ok & H).
  apply io_bind_ok in H as (ps & ? & [Hps ->]%lift_ok & H). apply io_bind_ok in H as (hp & w3 & (_ & _ & H3)%reads_hashes_under & [Hl _]%lift_ok).
  rewrite E2, E1 in H3. rewrite E1 in Hc. exists doc, task, c, text, v, ps, hp. split_and!; done.
Qed.

(** *** From the fixture to the verdict *)

(** A task is materialised ([w0] to [w1]), an arm runs ([w1']), the grader is
    installed ([w2]) and more happens ([w3]).  The arm does not reach the
    staged record or the task directory, and nothing after it rewrites the
    record or the task document. *)
Section graded.
Context (task_dir root : path) (w0 w1 w1' w2 w3 : world) (task task' : Task).
Context (Hr : root ≠ []) (Hwf : Forall wf_tree [files w0; files w1; files w1'; files w2; files w3])
  (Ht1 : text_paths (root ++ [WORKSPACE]) (files w1)) (Ht2 : text_paths root (files w2))
  (H1 : mat task_dir root WORKSPACE w0 = (Ok task, w1))
  (Hstaged : files w1' !! staged_protected_record root = files w1 !! staged_protected_record root)
  (Hdoc : files w1' !! (task_dir ++ [TASK_FILE]) = files w0 !! (task_dir ++ [TASK_FILE]))
  (H2 : mat task_dir root GRADER w1' = (Ok task', w2))
  (Hrec3 : files w3 !! (root ++ record_path) = files w2 !! (root ++ record_path))
  (Hdoc3 : files w3 !! (root ++ [TASK_FILE]) = files w2 !! (root ++ [TASK_FILE])).

Lemma recorded_root : ∃ c ws preserved out f hw hp,
  files w3 !! (root ++ record_path) = Some (File c) ∧ holds_record c ws preserved out ∧
  records ws (assoc hw) ∧ covers (files w1) (root ++ [WORKSPACE]) (below_entry (protected task)) hw ∧
  records preserved (assoc hp) ∧ covers (files w1) (root ++ [WORKSPACE]) (below_entry (preserved_on_stop task)) hp ∧
  records out f ∧
  (∀ k d, f k = Some d ↔ ∃ q, k = as_posix q ∧ outside q ∧ installed_digest (files w2) root q = Some d) ∧
  (∀ doc p t, files w3 !! (root ++ [TASK_FILE]) = Some (File doc) → load_task word p (Some (Ok doc)) = Ok t → t = task).
Proof.
  pose proof Hwf as W. rewrite !Forall_cons in W. destruct W as (Wf0 & Wf1 & Wf1' & Wf2 & Wf3 & _).
  pose proof H1 as (wa & wb & Hload & _)%materialize_workspace_ok. apply load_at_ok in Hload as (doc & Hd0 & _ & Hload).
  pose proof H1 as (c & ws & pres & hw & hp & Hc & Hheld & Rw & Cw & Rp & Cp)%materialize_workspace_record; [|done..].
  rewrite <-Hstaged in Hc. eapply materialize_grader_record in H2 as (c' & f & ws' & pres' & out' & Hc' & Hheld' & Rw' & Rp' & Ro & Hf & Hdoc2);
    [|done|done|done|done|exact Hc|exact Hheld|exact Rw|exact (covers_plain _ _ _ _ Ht1 Cw)|exact Rp|exact (covers_plain _ _ _ _ Ht1 Cp)].
  exists c', ws', pres', out', f, hw, hp. split; [by rewrite Hrec3|]. split_and!; try done.
  intros doc3 p t Hd3 Hload3. rewrite Hdoc3 in Hd3. apply Hdoc2 in Hd3. rewrite Hdoc, Hd0 in Hd3. injection Hd3 as <-.
  exact (load_task_path _ _ _ _ _ _ Hload3 Hload).
Qed.

(** The workspace files of [task] below [entries] that are not as the fixture had them. *)
Definition altered (entries : list value) (q : path) : Prop :=
  below_entry entries q ∧ digest_at (files w3) ((root ++ [WORKSPACE]) ++ q) ≠ digest_at (files w1) ((root ++ [WORKSPACE]) ++ q).
Lemma altered_files v entries h now l :
  records v (assoc h) → covers (files w1) (root ++ [WORKSPACE]) (below_entry entries) h →
  covers (files w3) (root ++ [WORKSPACE]) (below_entry entries) now → changed_files v now = Ok l →
  ∀ s, s ∈ l ↔ ∃ q, s = as_posix q ∧ altered entries q.
Proof.
  intros Hv [_ Hh] Hnow Hl s. pose proof Hwf as W. rewrite !Forall_cons in W. destruct W as (_ & Wf1 & _ & _ & Wf3 & _).
  rewrite (changed_files_spec _ _ _ _ Hv Hl). eapply assoc_differ; [exact Hh|exact Hnow|done|].
  intros q [d Hq]. exact (digest_good _ _ _ _ Wf1 Hq).
Qed.


(** What a stop was to leave alone, exactly: each workspace file below
    [preserved_on_stop] whose bytes are not those of the fixture. *)
Theorem preserved_changed_exact l w4 : preserved_changed word root w3 = (Ok l, w4) →
  ∀ s, s ∈ l ↔ ∃ q, s = as_posix q ∧ altered (preserved_on_stop task) q.
Proof.
  intros H3. destruct recorded_root as (c & ws & pres & out & f & hw & hp & Hc & [Ht' Hl'] & _ & _ & Rp & Cp & _ & _ & Htask).
  apply preserved_changed_ok in H3 as (doc3 & task3 & c3 & text & v & ps & hp3 & Hd3 & Hload3 & Hc3 & Htext & Hv & Hps & Hcov & Hl).
  rewrite (Htask _ _ _ Hd3 Hload3) in Hcov. rewrite Hc in Hc3. injection Hc3 as <-.
  rewrite Ht' in Htext. injection Htext as <-. rewrite Hl' in Hv. injection Hv as <-. injection Hps as <-.
  apply (altered_files pres _ hp hp3); [done..| |done]. apply Hcov. pose proof Hwf as W. rewrite !Forall_cons in W. by destruct W as (_ & _ & _ & _ & ? & _).
Qed.
End graded.
End damage_found.

(** ** An example *)

Definition demo_document : string := match task_document example_task with Ok d => d | Err _ => "" end.
Definition demo_tree : tree := list_to_map [
  ([], Folder); (["t"], Folder); (["t"; "task.json"], File demo_document);
  (["t"; "grader"], Folder); (["t"; "grader"; "grade"], File "#!");
  (["t"; "workspace"], Folder); (["t"; "workspace"; "src"], Folder); (["t"; "workspace"; "src"; "a.py"], File "x = 1");
  (["t"; "workspace"; "tests"], Folder); (["t"; "workspace"; "tests"; "test_a.py"], File "assert x") ].
Definition demo_world : world := {| files := demo_tree; faults := []; leftovers := [] |}.
Definition demo_materialize (parts : string) (w : world) : res Task * world :=
  materialize ascii_word (λ _ _, Ok true) (λ _ _, Ok ∅) (λ _ s, Ok s) [] ["t"] ["r"] parts w.
Definition demo_fixture : world := (demo_materialize WORKSPACE demo_world).2.
Definition demo_task : Task := match (demo_materialize WORKSPACE demo_world).1 with Ok t => t | Err _ => example_task end.
Lemma ran_ok {A} (p : res A * world) a : p.1 = Ok a → p = (Ok a, p.2).
Proof. by destruct p as [r w]; cbn; intros ->. Qed.
Lemma demo_fixture_made : demo_materialize WORKSPACE demo_world = (Ok demo_task, demo_fixture).
Proof. refine (ran_ok (demo_materialize WORKSPACE demo_world) demo_task _). vm_compute. reflexivity. Qed.
Lemma decided (P : Prop) `{Decision P} : bool_decide P = true → P.
Proof. apply bool_decide_eq_true_1. Qed.

Lemma demo_world_wf : wf_tree (files demo_world).
Proof. refine (decided _ _). vm_compute. reflexivity. Qed.
Lemma demo_fixture_wf : wf_tree (files demo_fixture).
Proof. refine (decided _ _). vm_compute. reflexivity. Qed.

Lemma materialize_sealed_witness :
  files demo_fixture !! ["r"; "grader"] = None ∧ is_file (files demo_fixture) ["r"; "workspace"; "src"; "a.py"] = true.
Proof.
  split; [|vm_compute; reflexivity].
  apply (proj1 (materialize_sealed ascii_word (λ _ _, Ok true) (λ _ _, Ok ∅) (λ _ s, Ok s) [] ["t"] ["r"] demo_world demo_task demo_fixture
           ltac:(discriminate) demo_world_wf demo_fixture_made) "grader" []). discriminate.
Defined.

(** The system call that writes the staged record is made to fail. *)
Definition demo_failing : world :=
  {| files := demo_tree; faults := replicate 5 None ++ [Some {| message := "disk full"; left_behind := <[[] := File "{"]> ∅ |}]; leftovers := [] |}.
Lemma failed_materialize_leaves_nothing_witness :
  (demo_materialize WORKSPACE demo_failing).1 = Err (OSError "disk full") ∧ nothing_at ["r"] (demo_materialize WORKSPACE demo_failing).2.
Proof.
  assert (H : (demo_materialize WORKSPACE demo_failing).1 = Err (OSError "disk full")) by (vm_compute; reflexivity).
  split; [exact H|].
  apply (failed_materialize_leaves_nothing ascii_word (λ _ _, Ok true) (λ _ _, Ok ∅) (λ _ s, Ok s) [] ["t"] ["r"] WORKSPACE demo_failing
           (OSError "disk full")).
  - discriminate.
  - reflexivity.
  - exact demo_world_wf.
  - split; [|reflexivity]. intros q. apply nothing_below; [exact demo_world_wf|reflexivity].
  - revert H. unfold demo_materialize. destruct (materialize _ _ _ _ _ _ _ _ _) as [r w]. cbn. by intros ->.
  - vm_compute. reflexivity.
Defined.


(** A task document an arm leaves under the root is not damage: the grader's
    copy overwrites it and is what is hashed. *)
Definition demo_planted : world := with_files (<[["r"; "task.json"] := File "planted"]> (files demo_fixture)) demo_fixture.
Example planted_document_is_not_damage :
  (damage ascii_word ["r"] (demo_materialize GRADER demo_planted).2).1 = Ok [].
Proof. vm_compute. reflexivity. Qed.

(** A grader call whose record could not be written cannot be repeated: the
    grader directory it copied stands in the way. *)
Definition demo_unwritten : world :=
  (demo_materialize GRADER {| files := files demo_fixture; leftovers := []; faults :=
     replicate 7 None ++ [Some {| message := "disk full"; left_behind := ∅ |}] |}).2.
Example grader_call_not_repeatable :
  is_file (files demo_unwritten) (staged_protected_record ["r"]) = true ∧
  (demo_materialize GRADER demo_unwritten).1 =
    Err (OSError "/r/grader exists before the grader of /t was written there; something other than materialization created it").
Proof. by vm_compute. Qed.
