(* ===== verification/BudgetWatcher.v ===== *)
(** * The budget watcher of a Codex run

    src/evals/cross_harness/codex_budget_watcher.py: the ledger that sums the
    usage the session files report, read incrementally, and the watcher that
    stops the run when a limit is crossed.  The files, the process and the
    clocks are observed: a pass is given what it sees of them. *)

From stdpp Require Import base list sets strings pretty sorting.
From Stdlib Require Import ZArith Lia SpecFloat.
From S2P Require Import Prelude PyValue PyText PyJson PyPath.

(** ** Usage *)

Definition TOKEN_DIMENSIONS : list string := ["input_tokens"; "output_tokens"].
Definition DIMENSIONS : list string := TOKEN_DIMENSIONS ++ ["seconds"].
Definition USAGE_FIELDS : list string :=
  ["input_tokens"; "cached_input_tokens"; "cache_write_input_tokens"; "output_tokens"; "reasoning_output_tokens"].

(** A dictionary from [USAGE_FIELDS] to integers. *)
Record Usage : Type := {
  input_tokens : Z;
  cached_input_tokens : Z;
  cache_write_input_tokens : Z;
  output_tokens : Z;
  reasoning_output_tokens : Z;
}.
Definition empty_usage : Usage := Build_Usage 0 0 0 0 0.
Definition add_usage (t p : Usage) : Usage := {|
  input_tokens := input_tokens t + input_tokens p;
  cached_input_tokens := cached_input_tokens t + cached_input_tokens p;
  cache_write_input_tokens := cache_write_input_tokens t + cache_write_input_tokens p;
  output_tokens := output_tokens t + output_tokens p;
  reasoning_output_tokens := reasoning_output_tokens t + reasoning_output_tokens p |}.

Definition usage_field (d : dict) (where_ name : string) : res Z :=
  match dget d name with
  | VNone => Ok 0%Z
  | VInt z => Ok z
  | raw => Err (ValueError (where_ +:+ ": usage field " +:+ name +:+ " is " +:+ py_repr raw
                            +:+ " rather than an integer"))
  end.

Definition parse_usage (v : value) (where_ : string) : res Usage :=
  match v with
  | VDict d =>
      a ← usage_field d where_ "input_tokens";
      b ← usage_field d where_ "cached_input_tokens";
      c ← usage_field d where_ "cache_write_input_tokens";
      e ← usage_field d where_ "output_tokens";
      f ← usage_field d where_ "reasoning_output_tokens";
      Ok (Build_Usage a b c e f)
  | v => Err (ValueError (where_ +:+ ": usage is " +:+ type_name v +:+ " rather than an object"))
  end.

(** ** The ledger *)

Record SessionFile : Type := {
  path : string;
  offset : nat;
  partial : string;
  line : nat;
  responses : list (string * Usage);
  counted : Usage;
  count_messages : nat;
}.
Definition new_session (p : string) : SessionFile :=
  {| path := p; offset := 0; partial := ""; line := 0; responses := []; counted := empty_usage;
     count_messages := 0 |}.

(** What the sessions of a ledger share. *)
Record shared : Type := { counted_ids : list string; problems : list string }.

Definition add_problem (msg : string) (sh : shared) : shared :=
  {| counted_ids := counted_ids sh; problems := problems sh ++ [msg] |}.

Definition count_response (key : string) (u : Usage) (s : SessionFile) : SessionFile :=
  {| path := path s; offset := offset s; partial := partial s; line := line s;
     responses := dset (responses s) key u; counted := counted s; count_messages := count_messages s |}.
Definition count_message (u : Usage) (s : SessionFile) : SessionFile :=
  {| path := path s; offset := offset s; partial := partial s; line := line s;
     responses := responses s; counted := add_usage (counted s) u; count_messages := S (count_messages s) |}.
Definition next_line (s : SessionFile) : SessionFile :=
  {| path := path s; offset := offset s; partial := partial s; line := S (line s);
     responses := responses s; counted := counted s; count_messages := count_messages s |}.
Definition set_position (o : nat) (p : string) (s : SessionFile) : SessionFile :=
  {| path := path s; offset := o; partial := p; line := line s;
     responses := responses s; counted := counted s; count_messages := count_messages s |}.
Definition rewind (s : SessionFile) : SessionFile :=
  {| path := path s; offset := 0; partial := ""; line := 0; responses := responses s;
     counted := empty_usage; count_messages := 0 |}.

(** A [token_usage_record]: counted once across the files. *)
Definition usage_record (sh : shared) (s : SessionFile) (payload : dict) (where_ : string) : shared * SessionFile :=
  let key := match dget payload "response_id" with
    | VStr k => if String.eqb k "" then where_ else k | _ => where_ end in
  if elem_str key (counted_ids sh) then (sh, s)
  else match parse_usage (dget payload "usage") where_ with
       | Ok u => ({| counted_ids := set_add key (counted_ids sh); problems := problems sh |}, count_response key u s)
       | Err e => (add_problem (exn_str e) sh, s)
       end.

(** A [token_count] message. *)
Definition count_record (sh : shared) (s : SessionFile) (payload : dict) (where_ : string) : shared * SessionFile :=
  match dget payload "info" with
  | VDict info =>
      match dget info "last_token_usage" with
      | VNone => (sh, s)
      | v => match parse_usage v where_ with
             | Ok u => (sh, count_message u s)
             | Err e => (add_problem (exn_str e) sh, s)
             end
      end
  | _ => (sh, s)
  end.

(** [_record]. *)
Definition record (sh : shared) (s : SessionFile) (raw : string) : shared * SessionFile :=
  let where_ := path s +:+ ":" +:+ nat_str (line s) in
  match loads_bytes accept_constant raw with
  | inr e => (add_problem (where_ +:+ ": " +:+ load_error_str e) sh, s)
  | inl (VDict r) =>
      match dget r "payload" with
      | VDict payload =>
          if is_string "token_usage_record" (dget r "type") then usage_record sh s payload where_
          else if is_string "event_msg" (dget r "type") && is_string "token_count" (dget payload "type")
          then count_record sh s payload where_
          else (sh, s)
      | _ => (sh, s)
      end
  | inl _ => (sh, s)
  end.

(** One complete line. *)
Definition read_line (st : shared * SessionFile) (raw : string) : shared * SessionFile :=
  let s := next_line st.2 in
  if blank raw then (st.1, s) else record st.1 s raw.

(** The bytes one read adds. *)
Definition feed (st : shared * SessionFile) (chunk : string) : shared * SessionFile :=
  let lines := split_on newline (partial st.2 +:+ chunk) in
  fold_left read_line (removelast lines)
    (st.1, set_position (offset st.2 + String.length chunk) (default "" (last lines)) st.2).

(** What one pass sees of the files: the session files below the directory, a
    file's size or that it is gone, and its bytes or why it cannot be read. *)
Record snapshot : Type := {
  sessions_dir : bool;
  rglob : list string;
  is_file : string → bool;
  size_of : string → option nat;
  bytes_of : string → res string;
}.

(** A step that changes its state and may raise: the state it leaves, and the
    exception.  What was read before a file failed stays read. *)
Definition outcome (A : Type) : Type := A * option exn.

(** [_read]. *)
Definition read (v : snapshot) (sh : shared) (s : SessionFile) : outcome (shared * SessionFile) :=
  match size_of v (path s) with
  | None => (sh, s, None)
  | Some size =>
      let '(sh, s) :=
        if size <? offset s then
          (add_problem (path s +:+ ": shrank from " +:+ nat_str (offset s) +:+ " to " +:+ nat_str size
                        +:+ " bytes; reading it again from the start") sh, rewind s)
        else (sh, s) in
      if size =? offset s then (sh, s, None)
      else match bytes_of v (path s) with
           | Ok content => (feed (sh, s) (str_drop (offset s) content), None)
           | Err e => (sh, s, Some e)
           end
  end.

Record Ledger : Type := { files : list (string * SessionFile); common : shared }.
Definition new_ledger : Ledger :=
  {| files := []; common := {| counted_ids := []; problems := [] |} |}.

(** The new files, in path order. *)
Definition discover_step (v : snapshot) (l : list (string * SessionFile)) (p : string) : list (string * SessionFile) :=
  if negb (has_key l p) && is_file v p then dset l p (new_session p) else l.
Definition discover (v : snapshot) (l : list (string * SessionFile)) : list (string * SessionFile) :=
  if sessions_dir v then fold_left (discover_step v) (merge_sort path_le (rglob v)) l else l.

(** The loop over the known files, which the first exception ends. *)
Fixpoint read_all (v : snapshot) (sh : shared) (l : list (string * SessionFile))
    : outcome (shared * list (string * SessionFile)) :=
  match l with
  | [] => (sh, [], None)
  | (p, s) :: l =>
      match read v sh s with
      | (sh, s, Some e) => (sh, (p, s) :: l, Some e)
      | (sh, s, None) => let '(sh, l, e) := read_all v sh l in (sh, (p, s) :: l, e)
      end
  end.

Definition refresh (v : snapshot) (l : Ledger) : outcome Ledger :=
  let '(sh, fs, e) := read_all v (common l) (discover v (files l)) in
  ({| files := fs; common := sh |}, e).

Definition totals (l : Ledger) : Usage :=
  fold_left (λ t f, match responses f.2 with
    | [] => add_usage t (counted f.2)
    | rs => fold_left (λ t ku, add_usage t ku.2) rs t end) (files l) empty_usage.
Definition response_count (l : Ledger) : nat :=
  sum_list (map (λ f, match responses f.2 with [] => count_messages f.2 | rs => length rs end) (files l)).

(** ** Limits *)

Definition limit_entry (kv : string * value) : res () :=
  let '(key, v) := kv in
  raise_if (negb (elem_str key DIMENSIONS))
    (ValueError ("limits: unknown key " +:+ str_repr key +:+ "; the keys are " +:+ join ", " DIMENSIONS));;
  raise_if (is_bool v || negb (is_int v || match v with VFloat _ => true | _ => false end))
    (ValueError ("limits: " +:+ key +:+ " is " +:+ py_repr v +:+ " rather than a number"));;
  raise_if (elem_str key TOKEN_DIMENSIONS && negb (is_int v))
    (ValueError ("limits: " +:+ key +:+ " is " +:+ py_repr v +:+ " rather than an integer"));;
  raise_if (match as_num v with Some n => num_leb n (NInt 0) | None => false end)
    (ValueError ("limits: " +:+ key +:+ " is " +:+ py_repr v +:+ "; a limit is positive")).

Definition check_limits (limits : dict) : res dict :=
  foldM (λ _ kv, limit_entry kv) () limits;; Ok limits.

Definition check_intervals (poll_interval grace_seconds : num) : res () :=
  let str n := py_repr (match n with NInt z => VInt z | NFloat f => VFloat f end) in
  raise_if (num_leb poll_interval (NInt 0))
    (ValueError ("poll_interval is " +:+ str poll_interval +:+ "; the interval is positive"));;
  raise_if (num_ltb grace_seconds (NInt 0))
    (ValueError ("grace_seconds is " +:+ str grace_seconds +:+ "; the grace period is zero or more")).

(** ** The watcher *)

(** The nearest integer to [|f| * 10 ^ n], ties to even: the digits [round] and
    fixed-point formatting show. *)
Definition scaled_digits (n : Z) (f : spec_float) : Z :=
  match f with
  | S754_finite _ m e =>
      let '(num, den) := if (0 <=? e)%Z then (Z.pos m * 2 ^ e, 1)%Z else (Z.pos m, 2 ^ (- e))%Z in
      let q := (num * 10 ^ n / den)%Z in
      match Z.compare (2 * ((num * 10 ^ n) mod den)) den with
      | Lt => q | Gt => (q + 1)%Z | Eq => if Z.even q then q else (q + 1)%Z end
  | _ => 0%Z
  end.
Definition is_negative (f : spec_float) : bool :=
  match f with S754_finite s _ _ | S754_zero s | S754_infinity s => s | S754_nan => false end.
(** [round(f, 3)]. *)
Definition round3 (f : spec_float) : spec_float :=
  match f with
  | S754_finite s _ _ => decimal_to_float s (scaled_digits 3 f) (-3)
  | f => f
  end.
(** [f"{f:.1f}"] for a finite float. *)
Definition fixed1 (f : spec_float) : string :=
  let d := scaled_digits 1 f in
  (if is_negative f then "-" else "") +:+ Z_str (d / 10) +:+ "." +:+ Z_str (d mod 10).

Record Stop : Type := {
  reason : string;
  stop_dimension : string;
  observed : value;
  stop_limit : value;
  at_ms : Z;
}.

(** [int] and [float] as [str] prints them. *)
Definition observed_value (t : Usage) (elapsed : spec_float) (dimension : string) : value :=
  if String.eqb dimension "seconds" then VFloat (round3 elapsed)
  else if String.eqb dimension "input_tokens" then VInt (input_tokens t) else VInt (output_tokens t).

Fixpoint first_crossed (limits : dict) (t : Usage) (elapsed : spec_float) (now_ms : Z) (dims : list string)
    : res (option Stop) :=
  match dims with
  | [] => Ok None
  | dimension :: dims =>
      let limit := dget limits dimension in
      if is_none limit then first_crossed limits t elapsed now_ms dims
      else
        let seen := observed_value t elapsed dimension in
        over ← py_gt seen limit;
        if (over : bool) then
          let unit := if String.eqb dimension "seconds" then "s" else " tokens" in
          Ok (Some {| reason := dimension +:+ " reached " +:+ py_str seen +:+ unit +:+ " against a limit of "
                        +:+ py_str limit +:+ unit +:+ " after " +:+ fixed1 elapsed +:+ " s";
                      stop_dimension := dimension; observed := seen; stop_limit := limit; at_ms := now_ms |})
        else first_crossed limits t elapsed now_ms dims
  end.

Inductive signal : Type := SIGTERM | SIGKILL.

(** What one pass of the watch observes: the files, whether the process has
    exited when [poll] asks and when the loop asks again, the clocks, and
    whether the process outlives the grace period of a termination. *)
Record pass : Type := {
  seen_files : snapshot;
  exited : bool;
  exited_after : bool;
  final_files : snapshot;
  elapsed : spec_float;
  now_ms : Z;
  outlives : bool;
}.

Record Watcher : Type := {
  limits : dict;
  ledger : Ledger;
  stop : option Stop;
  failure : option exn;
  signals : list signal;
}.

(** The two directories a caller may name for one ledger. *)
Definition check_home (ledger_home : option string) (codex_home : string) : res () :=
  match ledger_home with
  | Some h => raise_if (negb (String.eqb h codex_home))
      (ValueError ("ledger reads " +:+ str_repr h +:+ " while codex_home is " +:+ str_repr codex_home
                   +:+ "; the two name one directory"))
  | None => Ok ()
  end.

(** [__init__], with the ledger the caller passes and its directory, and the
    process group [getpgid] answers, if the process still exists. *)
Definition new_watcher (codex_home : string) (limits : dict) (pid : Z) (poll_interval grace_seconds : num)
    (given : option (string * Ledger)) (getpgid : option Z) : res Watcher :=
  check_intervals poll_interval grace_seconds;;
  l ← check_limits limits;
  check_home (fst <$> given) (path_str codex_home);;
  let group := default pid getpgid in
  raise_if (negb (group =? pid)%Z)
    (ValueError ("process " +:+ Z_str pid +:+ " is in process group " +:+ Z_str group
                 +:+ " rather than leading its own; start it with start_new_session=True"));;
  Ok {| limits := l; ledger := from_option snd new_ledger given; stop := None; failure := None; signals := [] |}.

Definition set_ledger (l : Ledger) (w : Watcher) : Watcher :=
  {| limits := limits w; ledger := l; stop := stop w; failure := failure w; signals := signals w |}.
Definition set_stop (s : Stop) (w : Watcher) : Watcher :=
  {| limits := limits w; ledger := ledger w; stop := Some s; failure := failure w; signals := signals w |}.
Definition set_failure (e : exn) (w : Watcher) : Watcher :=
  {| limits := limits w; ledger := ledger w; stop := stop w; failure := Some e; signals := signals w |}.
(** [terminate]. *)
Definition terminate (p : pass) (w : Watcher) : Watcher :=
  {| limits := limits w; ledger := ledger w; stop := stop w; failure := failure w;
     signals := signals w ++ [SIGTERM] ++ (if outlives p then [SIGKILL] else []) |}.

Definition crossed (p : pass) (w : Watcher) : res (option Stop) :=
  first_crossed (limits w) (totals (ledger w)) (elapsed p) (now_ms p) DIMENSIONS.

Definition poll (p : pass) (w : Watcher) : outcome Watcher :=
  let '(l, e) := refresh (seen_files p) (ledger w) in
  let w := set_ledger l w in
  match e, stop w with
  | Some e, _ => (w, Some e)
  | None, Some _ => (w, None)
  | None, None =>
      if exited p then (w, None)
      else match crossed p w with
           | Ok (Some s) => (terminate p (set_stop s w), None)
           | Ok None => (w, None)
           | Err e => (w, Some e)
           end
  end.

(** The [except] clause of [_watch]. *)
Definition fail_pass (p : pass) (e : exn) (w : Watcher) : Watcher :=
  let w := set_failure e w in if exited_after p then w else terminate p w.

(** [_watch]: the loop over the passes.  [inl] is a watch that ended, [inr] one
    that is still running after these passes. *)
Fixpoint watch (w : Watcher) (passes : list pass) : Watcher + Watcher :=
  match passes with
  | [] => inr w
  | p :: passes =>
      match poll p w with
      | (w, Some e) => inl (fail_pass p e w)
      | (w, None) =>
          match stop w with
          | Some _ => inl w
          | None =>
              if exited_after p then
                let '(l, e) := refresh (final_files p) (ledger w) in
                inl (match e with Some e => fail_pass p e | None => id end (set_ledger l w))
              else watch w passes
          end
      end
  end.

(** What [run_with_watcher] validates before it starts the command: the
    environment the command gets. *)
Definition child_environment (codex_home : string) (env : list (string * string)) (limits : dict)
    (poll_interval grace_seconds : num) (ledger_home : option string) : res (list (string * string)) :=
  let codex_home := path_str codex_home in
  match assoc env "CODEX_HOME" with
  | Some declared => raise_if (negb (String.eqb (path_str declared) codex_home))
      (ValueError ("env CODEX_HOME is " +:+ str_repr declared +:+ " while codex_home is " +:+ str_repr codex_home
                   +:+ "; the two name one directory"))
  | None => Ok ()
  end;;
  check_limits limits;;
  check_intervals poll_interval grace_seconds;;
  check_home ledger_home codex_home;;
  Ok (dset env "CODEX_HOME" codex_home).

(** What it ends with once the watch has ended and the process has exited with a
    status: the failure its [RuntimeError] wraps, or the status and the stop. *)
Definition run_result (w : Watcher) (returncode : Z) : exn + option Z * option Stop :=
  match failure w with
  | Some e => inl e
  | None => inr (match stop w with Some _ => None | None => Some returncode end, stop w)
  end.

Definition Stop_to_dict (s : Stop) : dict :=
  [("reason", VStr (reason s)); ("dimension", VStr (stop_dimension s)); ("observed", observed s);
   ("limit", stop_limit s); ("at_ms", VInt (at_ms s))].

(** ** Reading in pieces *)

Lemma split_on_nonempty c s : split_on c s ≠ [].
Proof. destruct s as [|d s]; simpl; [done|]. destruct (Ascii.eqb d c); [done|]. by destruct (split_on c s). Qed.

(** The lines of a text in two parts: the complete lines of the first, then
    those of what it left open with the second. *)
Lemma split_on_concat c x y :
  split_on c (x +:+ y) =
  removelast (split_on c x) ++ split_on c (default "" (last (split_on c x)) +:+ y).
Proof.
  induction x as [|d x IH]; [done|]. rewrite str_app_cons. cbn [split_on].
  pose proof (split_on_nonempty c x) as Hne. rewrite IH.
  destruct (Ascii.eqb d c) eqn:Ed.
  - by destruct (split_on c x) as [|w ws].
  - destruct (split_on c x) as [|w [|v vs]]; [done| |done].
    cbn [removelast last default app]. cbn. rewrite str_app_cons. cbn [split_on]. by rewrite Ed.
Qed.

Lemma last_app2 {A} (l k : list A) : k ≠ [] → last (l ++ k) = last k.
Proof. intros H. rewrite last_app. by destruct (last k) eqn:E; [|apply last_None in E]. Qed.

(** Reading a line leaves the position of the session alone. *)
Lemma read_line_position sh s raw o q :
  read_line (sh, set_position o q s) raw =
    ((read_line (sh, s) raw).1, set_position o q (read_line (sh, s) raw).2) ∧
  offset (read_line (sh, s) raw).2 = offset s ∧ partial (read_line (sh, s) raw).2 = partial s.
Proof.
  unfold read_line, record, usage_record, count_record. cbn -[parse_usage].
  destruct (blank raw); [done|]. destruct (loads_bytes _ _) as [v|e]; [|done].
  destruct v as [| | | | | |r]; try done.
  destruct (dget r "payload") as [| | | | | |payload]; try done.
  destruct (is_string "token_usage_record" (dget r "type")).
  - match goal with |- context [elem_str ?k ?l] => destruct (elem_str k l) end; [done|].
    match goal with |- context [parse_usage ?a ?b] => by destruct (parse_usage a b) end.
  - destruct (_ && _); [|done]. destruct (dget payload "info") as [| | | | | |info]; try done.
    destruct (dget info "last_token_usage"); try done;
      match goal with |- context [parse_usage ?a ?b] => by destruct (parse_usage a b) end.
Qed.

Lemma read_lines_position l st o q :
  fold_left read_line l (st.1, set_position o q st.2) =
    ((fold_left read_line l st).1, set_position o q (fold_left read_line l st).2) ∧
  offset (fold_left read_line l st).2 = offset st.2 ∧ partial (fold_left read_line l st).2 = partial st.2.
Proof.
  revert st. induction l as [|raw l IH]; intros [sh s]; [done|]. cbn [fold_left fst snd].
  destruct (read_line_position sh s raw o q) as (-> & Ho & Hp).
  destruct (IH (read_line (sh, s) raw)) as (-> & Ho' & Hp'). by rewrite Ho', Hp'.
Qed.

Lemma feed_app st a b : feed st (a +:+ b) = feed (feed st a) b.
Proof.
  destruct st as [sh s]. unfold feed at 1 3. cbn [fst snd].
  set (lines := split_on newline (partial s +:+ a)).
  set (st1 := (sh, set_position (offset s + String.length a) (default "" (last lines)) s)).
  unfold feed. destruct (read_lines_position (removelast lines) st1 0 "") as (_ & Ho & Hp).
  rewrite Hp, Ho. cbn [snd st1 set_position partial offset].
  rewrite <-str_app_assoc, split_on_concat. fold lines.
  set (rest := split_on newline (default "" (last lines) +:+ b)).
  rewrite removelast_app, last_app2 by apply split_on_nonempty.
  rewrite fold_left_app, length_str_app, Nat.add_assoc. f_equal.
  by rewrite <-(proj1 (read_lines_position (removelast lines) st1 _ _)).
Qed.

Lemma feed_position st a :
  offset (feed st a).2 = offset st.2 + String.length a ∧ path (feed st a).2 = path st.2.
Proof.
  unfold feed.
  assert (Hp : ∀ l s, path (fold_left read_line l s).2 = path s.2).
  { clear. induction l as [|raw l IH]; intros [sh s]; [done|]. cbn [fold_left]. rewrite IH.
    unfold read_line, record, usage_record, count_record. simpl. repeat case_match; done. }
  rewrite Hp. split; [|done].
  match goal with |- context [fold_left read_line ?l ?s] =>
    pose proof (read_lines_position l s 0 "") as (_ & -> & _) end. done.
Qed.

(** What a pass sees of one session file that holds [content]. *)
Definition holding (p content : string) : snapshot := {|
  sessions_dir := true; rglob := [p]; is_file := String.eqb p;
  size_of := λ _, Some (String.length content); bytes_of := λ _, Ok content |}.

Definition extends (a b : string) : Prop := ∃ t, b = a +:+ t.

Lemma str_drop_app a b : str_drop (String.length a) (a +:+ b) = b.
Proof. induction a as [|c a IH]; [by destruct b|]. rewrite str_app_cons. done. Qed.

(** The ledger of one file that was read up to [content]. *)
Definition read_upto (p content : string) : Ledger :=
  let st := feed (common new_ledger, new_session p) content in
  {| files := [(p, st.2)]; common := st.1 |}.

Lemma refresh_holding_new p c : refresh (holding p c) new_ledger = (read_upto p c, None).
Proof.
  unfold refresh, discover. cbn [sessions_dir holding rglob files new_ledger].
  change (merge_sort path_le [p]) with [p]. cbn [fold_left]. unfold discover_step. cbn. rewrite String.eqb_refl. cbn.
  unfold read. cbn [size_of holding path new_session offset].
  destruct (String.length c =? 0) eqn:E.
  - apply Nat.eqb_eq in E. by destruct c.
  - unfold read_upto. cbn [common new_ledger]. by destruct (feed _ c).
Qed.

Lemma refresh_holding p a b :
  extends a b → refresh (holding p b) (read_upto p a) = (read_upto p b, None).
Proof.
  intros [t ->]. unfold refresh, discover. cbn [sessions_dir holding rglob read_upto files common].
  change (merge_sort path_le [p]) with [p]. unfold read_upto. rewrite feed_app.
  set (st := feed (common new_ledger, new_session p) a).
  destruct (feed_position (common new_ledger, new_session p) a) as [Ho Hp]. fold st in Ho, Hp.
  cbn in Ho, Hp. cbn [fold_left]. unfold discover_step, has_key. cbn [assoc fst]. rewrite String.eqb_refl. cbn [negb andb].
  cbn [read_all]. unfold read at 1. cbn [size_of holding bytes_of]. rewrite length_str_app, Ho.
  replace (String.length a + String.length t <? String.length a) with false by (symmetry; apply Nat.ltb_ge; lia).
  cbn [fst snd]. rewrite Ho.
  destruct (Nat.eqb_spec (String.length a + String.length t) (String.length a)) as [Heq|Hne].
  - assert (t = "") as -> by (destruct t; [done|]; simpl in Heq; lia).
    cbn. f_equal. unfold st. by rewrite <-feed_app, str_app_nil_r.
  - rewrite str_drop_app, <-surjective_pairing. by destruct (feed st t).
Qed.

(** The ledger after a sequence of polls. *)
Definition refreshes (l : Ledger) (vs : list snapshot) : Ledger := fold_left (λ l v, (refresh v l).1) vs l.

(** Polling does not change the account: reading a session file after
    each of its growths, at whatever bytes the polls happen to cut it, leaves the
    ledger that one read of the final file gives. *)
Theorem reading_is_incremental p cs c :
  Sorted extends (cs ++ [c]) →
  refreshes new_ledger (map (holding p) (cs ++ [c])) = (refresh (holding p c) new_ledger).1.
Proof.
  unfold refreshes. destruct cs as [|c0 cs]; [done|]. cbn [app map fold_left].
  rewrite !refresh_holding_new. cbn [fst]. revert c0.
  induction cs as [|c1 cs IH]; intros c0 Hs; cbn [app map fold_left] in *.
  - apply Sorted_inv in Hs as [_ H]. inversion H; subst. by rewrite refresh_holding.
  - apply Sorted_inv in Hs as [Hs H]. inversion H; subst. rewrite refresh_holding by done. by apply IH.
Qed.

(** ** One count per response *)

(** What a step on one session adds: responses no file had, recorded in the
    shared set in the same order. *)
Definition adds (st st' : shared * SessionFile) : Prop :=
  ∃ news : list (string * Usage),
    counted_ids st'.1 = counted_ids st.1 ++ keys news ∧ responses st'.2 = responses st.2 ++ news ∧
    (NoDup (counted_ids st.1) → NoDup (counted_ids st'.1)).

(** The responses a session holds are counted. *)
Definition covered (sh : shared) (s : SessionFile) : Prop := keys (responses s) ⊆ counted_ids sh.

Lemma adds_nothing sh sh' s s' :
  counted_ids sh' = counted_ids sh → responses s' = responses s → adds (sh, s) (sh', s').
Proof. intros Hc Hr. exists []. cbn. by rewrite Hc, Hr, !app_nil_r. Qed.

Lemma keys_app {A} (a b : list (string * A)) : keys (a ++ b) = keys a ++ keys b.
Proof. apply map_app. Qed.

Lemma adds_compose a b c : adds a b → adds b c → adds a c.
Proof.
  intros (n & Hc & Hr & Hn) (m & Hc' & Hr' & Hn'). exists (n ++ m).
  split_and!; [by rewrite Hc', Hc, keys_app, app_assoc|by rewrite Hr', Hr, app_assoc|].
  intros H. by apply Hn', Hn.
Qed.

Lemma adds_covered a b : covered a.1 a.2 → adds a b → covered b.1 b.2.
Proof. intros Hs (n & Hc & Hr & _). unfold covered. rewrite Hc, Hr, keys_app. set_solver. Qed.

Lemma adds_mono a b k : adds a b → k ∈ counted_ids a.1 → k ∈ counted_ids b.1.
Proof. intros (n & -> & _). set_solver. Qed.

Lemma usage_record_adds sh s payload w : covered sh s → adds (sh, s) (usage_record sh s payload w).
Proof.
  intros Hs. unfold usage_record.
  match goal with |- context [elem_str ?k] => set (key := k) end.
  destruct (elem_str key (counted_ids sh)) eqn:Ek; [by apply adds_nothing|].
  apply elem_str_false in Ek.
  destruct (parse_usage (dget payload "usage") w) as [u|e]; [|by apply adds_nothing].
  exists [(key, u)]. cbn [fst snd counted_ids responses count_response]. split_and!.
  - by apply set_add_fresh.
  - apply dset_notin. intros H. apply Ek, Hs, H.
  - apply NoDup_set_add.
Qed.

Lemma count_record_adds sh s payload w : adds (sh, s) (count_record sh s payload w).
Proof.
  unfold count_record. destruct (dget payload "info"); try by apply adds_nothing.
  destruct (dget d "last_token_usage"); try (by apply adds_nothing);
    match goal with |- context [parse_usage ?v ?w] => destruct (parse_usage v w) end; by apply adds_nothing.
Qed.

Lemma read_line_adds st raw : covered st.1 st.2 → adds st (read_line st raw).
Proof.
  destruct st as [sh s]. intros Hs. unfold read_line, record. cbn [fst snd].
  apply (adds_compose _ (sh, next_line s)); [by apply adds_nothing|].
  destruct (blank raw); [by apply adds_nothing|].
  destruct (loads_bytes accept_constant raw) as [v|e]; [|by apply adds_nothing].
  destruct v as [| | | | | |r]; try by apply adds_nothing.
  destruct (dget r "payload") as [| | | | | |payload]; try by apply adds_nothing.
  destruct (is_string "token_usage_record" (dget r "type")); [by apply usage_record_adds|].
  destruct (_ && _); [by apply count_record_adds|by apply adds_nothing].
Qed.

Lemma read_lines_adds l st : covered st.1 st.2 → adds st (fold_left read_line l st).
Proof.
  revert st. induction l as [|raw l IH]; intros [sh s] Hs; [by apply adds_nothing|].
  cbn [fold_left]. pose proof (read_line_adds (sh, s) raw Hs) as H1.
  apply (adds_compose _ _ _ H1), IH. by apply (adds_covered (sh, s)).
Qed.

Lemma read_adds v sh s : covered sh s → adds (sh, s) (read v sh s).1.
Proof.
  intros Hs. unfold read. destruct (size_of v (path s)) as [size|]; [|by apply adds_nothing].
  set (start := if size <? offset s then _ else _).
  assert (Hst : adds (sh, s) start ∧ covered start.1 start.2).
  { unfold start. destruct (size <? offset s); split; try done; by apply adds_nothing. }
  destruct start as [sh1 s1]. destruct Hst as [Ha Hc].
  destruct (size =? offset s1); [done|]. destruct (bytes_of v (path s1)) as [content|e]; [|done].
  apply (adds_compose _ _ _ Ha). unfold feed. cbn [fst snd].
  eapply adds_compose; [|apply read_lines_adds]; [by apply adds_nothing|done].
Qed.

(** The response ids the files hold, file after file. *)
Definition held_ids (l : list (string * SessionFile)) : list string := flat_map (λ f, keys (responses f.2)) l.

Lemma read_all_adds v sh l :
  Forall (λ f, covered sh f.2) l → NoDup (counted_ids sh) →
  ∃ news, counted_ids (read_all v sh l).1.1 = counted_ids sh ++ news ∧
    held_ids (read_all v sh l).1.2 ≡ₚ held_ids l ++ news ∧ NoDup (counted_ids (read_all v sh l).1.1).
Proof.
  revert sh. induction l as [|[p s] l IH]; intros sh Hl Hn; [exists []; by rewrite !app_nil_r|].
  apply Forall_cons in Hl as [Hs Hl]. cbn [read_all].
  pose proof (read_adds v sh s Hs) as Ha. destruct (read v sh s) as [[sh1 s1] e]. cbn [fst snd] in Ha.
  destruct Ha as (new & Hc & Hr & Hn1). cbn [fst snd] in *. specialize (Hn1 Hn).
  assert (Hl1 : Forall (λ f, covered sh1 f.2) l).
  { eapply Forall_impl; [exact Hl|]. intros f Hf. unfold covered. rewrite Hc. set_solver. }
  destruct e as [e|].
  - exists (keys new). cbn. rewrite Hr, keys_app. split_and!; [done| |done]. solve_Permutation.
  - destruct (IH sh1 Hl1 Hn1) as (news & Hc2 & Hh & Hn2).
    destruct (read_all v sh1 l) as [[sh2 l2] e2]. cbn [fst snd] in *.
    exists (keys new ++ news). cbn [held_ids flat_map snd]. fold (held_ids l2) (held_ids l).
    rewrite Hc2, Hc, Hh, Hr, keys_app, app_assoc. split_and!; [done| |].
    + solve_Permutation.
    + by rewrite Hc2, Hc in Hn2.
Qed.

Lemma held_discover v l : held_ids (discover v l) = held_ids l.
Proof.
  unfold discover. destruct (sessions_dir v); [|done]. generalize (merge_sort path_le (rglob v)).
  intros ps. revert l. induction ps as [|p ps IH]; intros l; [done|]. cbn [fold_left]. rewrite IH.
  unfold discover_step. destruct (has_key l p) eqn:Ek; [done|]. destruct (is_file v p); [|done]. cbn.
  rewrite dset_notin by (rewrite <-has_key_elem; congruence). unfold held_ids. rewrite flat_map_app. cbn.
  apply app_nil_r.
Qed.

(** The ledger's account of responses: what the files hold is what is counted, once. *)
Definition accounted (l : Ledger) : Prop :=
  held_ids (files l) ≡ₚ counted_ids (common l) ∧ NoDup (counted_ids (common l)).

Lemma refresh_accounted v l : accounted l → accounted (refresh v l).1.
Proof.
  intros [Hh Hn]. unfold refresh.
  destruct (read_all_adds v (common l) (discover v (files l))) as (news & Hc & Hh' & Hn'); [|done|].
  - apply list.Forall_forall. intros f Hf k Hk. rewrite <-Hh, <-(held_discover v).
    unfold held_ids. apply list_elem_of_In, in_flat_map. exists f. by rewrite <-!list_elem_of_In.
  - destruct (read_all v _ _) as [[sh fs] e]. cbn [fst snd] in *. split; cbn; [|done].
    by rewrite Hh', held_discover, Hc, Hh.
Qed.

(** However the session files appear, grow, shrink or fail to be read
    from poll to poll, each response is counted in one file: the response ids
    the files hold are distinct, across the files and within each, and they are
    the ids recorded as counted. *)
Theorem responses_counted_once vs :
  NoDup (held_ids (files (refreshes new_ledger vs))) ∧
  held_ids (files (refreshes new_ledger vs)) ≡ₚ counted_ids (common (refreshes new_ledger vs)).
Proof.
  assert (H : accounted (refreshes new_ledger vs)).
  { unfold refreshes. assert (H0 : accounted new_ledger) by (split; [done|apply NoDup_nil_2]).
    revert H0. generalize new_ledger. induction vs as [|v vs IH]; intros l Hl; [done|].
    cbn [fold_left]. by apply IH, refresh_accounted. }
  destruct H as [Hh Hn]. by rewrite Hh.
Qed.

(** ** The watch *)

(** A limit of dimension [d] that the totals and the elapsed time cross. *)
Definition over_limit (limits : dict) (t : Usage) (elapsed : spec_float) (d : string) : res bool :=
  py_gt (observed_value t elapsed d) (dget limits d).

(** The stop names the first dimension whose limit is crossed. *)
Definition justified (s : Stop) (limits : dict) (t : Usage) (elapsed : spec_float) (dims : list string) : Prop :=
  ∃ pre post, dims = pre ++ stop_dimension s :: post ∧
    (∀ d, d ∈ pre → is_none (dget limits d) = false → over_limit limits t elapsed d = Ok false) ∧
    is_none (dget limits (stop_dimension s)) = false ∧ over_limit limits t elapsed (stop_dimension s) = Ok true ∧
    stop_limit s = dget limits (stop_dimension s) ∧ observed s = observed_value t elapsed (stop_dimension s).

Lemma first_crossed_spec limits t el now dims o :
  first_crossed limits t el now dims = Ok o →
  match o with
  | Some s => justified s limits t el dims
  | None => ∀ d, d ∈ dims → is_none (dget limits d) = false → over_limit limits t el d = Ok false
  end.
Proof.
  revert o. induction dims as [|d dims IH]; intros o; cbn [first_crossed].
  { intros [= <-] d Hd. by apply not_elem_of_nil in Hd. }
  assert (Hskip : (is_none (dget limits d) = false → over_limit limits t el d = Ok false) →
      first_crossed limits t el now dims = Ok o →
      match o with
      | Some s => justified s limits t el (d :: dims)
      | None => ∀ d', d' ∈ d :: dims → is_none (dget limits d') = false → over_limit limits t el d' = Ok false
      end).
  { intros Hd Ho. specialize (IH o Ho). destruct o as [s|].
    - destruct IH as (pre & post & -> & Hpre & Hrest). exists (d :: pre), post.
      split; [done|]. split; [|done]. intros d' [->|Hd']%elem_of_cons; [done|]. by apply Hpre.
    - intros d' [->|Hd']%elem_of_cons; [done|]. by apply IH. }
  destruct (is_none (dget limits d)) eqn:Hv; [by apply Hskip|].
  fold (over_limit limits t el d). destruct (over_limit limits t el d) as [[]|e] eqn:Eo; [|by apply Hskip|done].
  intros [= <-]. exists [], dims. cbn. split_and!; try done. intros d' H. by apply not_elem_of_nil in H.
Qed.

(** A watcher whose watch has not ended. *)
Definition running (w : Watcher) : Prop := stop w = None ∧ failure w = None ∧ signals w = [].
Definition kill_signals (p : pass) : list signal := SIGTERM :: (if outlives p then [SIGKILL] else []).
(** How a watch ends: a stop that a pass on the running process justified, the
    exit of the process, or a failure, which ends the process too. *)
Definition stopped (w : Watcher) (p : pass) : Prop :=
  ∃ s, stop w = Some s ∧ failure w = None ∧ signals w = kill_signals p ∧ exited p = false ∧
    justified s (limits w) (totals (ledger w)) (elapsed p) DIMENSIONS.
Definition finished (w : Watcher) (p : pass) : Prop := running w ∧ exited_after p = true.
Definition broken (w : Watcher) (p : pass) : Prop :=
  stop w = None ∧ is_Some (failure w) ∧ signals w = (if exited_after p then [] else kill_signals p).
(** A pass on the running process within its limits. *)
Definition within_limits (w : Watcher) (p : pass) : Prop :=
  running w ∧ (exited p = false → ∀ d, d ∈ DIMENSIONS → is_none (dget (limits w) d) = false →
    over_limit (limits w) (totals (ledger w)) (elapsed p) d = Ok false).

Lemma fail_broken p e w : running w → broken (fail_pass p e w) p.
Proof.
  intros (Hs & Hf & Hg). unfold broken, fail_pass. destruct (exited_after p); cbn; rewrite ?Hg; eauto.
Qed.

Lemma poll_spec p w w' e :
  running w → poll p w = (w', e) →
  limits w' = limits w ∧
  match e with Some _ => running w' | None => stopped w' p ∨ within_limits w' p end.
Proof.
  intros (Hs & Hf & Hg). unfold poll. destruct (refresh (seen_files p) (ledger w)) as [l [e1|]]; cbn -[crossed].
  { intros [= <- <-]. by repeat split. }
  rewrite Hs.   destruct (exited p) eqn:Ee; [intros [= <- <-]; split; [done|]; right; split; [done|]; by rewrite Ee|].
  destruct (crossed p (set_ledger l w)) as [[s|]|e1] eqn:Ec; intros [= <- <-]; (split; [done|]).
  - left. exists s. cbn -[DIMENSIONS]. rewrite Hg, Hf. split_and!; try done. apply (first_crossed_spec _ _ _ _ _ _ Ec).
  - right. split; [done|]. intros _. apply (first_crossed_spec _ _ _ _ _ _ Ec).
  - done.
Qed.

Lemma watch_spec w ps :
  running w →
  match watch w ps with
  | inl w' => limits w' = limits w ∧ ∃ p, p ∈ ps ∧ (stopped w' p ∨ finished w' p ∨ broken w' p)
  | inr w' => limits w' = limits w ∧ running w' ∧ ∀ p, last ps = Some p → within_limits w' p ∧ exited_after p = false
  end.
Proof.
  revert w. induction ps as [|p ps IH]; intros w Hw; [by repeat split; try apply Hw|].
  cbn [watch]. destruct (poll p w) as [w1 e] eqn:Ep. destruct (poll_spec p w w1 e Hw Ep) as [Hl He].
  assert (Hin : p ∈ p :: ps) by apply elem_of_cons, or_introl, eq_refl.
  destruct e as [e|].
  { split; [unfold fail_pass; by destruct (exited_after p)|]. exists p. split; [done|]. right; right. by apply fail_broken. }
  destruct He as [Hst|Hwi].
  { pose proof Hst as (s & Hs & _). rewrite Hs. split; [done|]. exists p. auto. }
  pose proof Hwi as [Hr _]. pose proof Hr as (Hs & Hf & Hg). rewrite Hs. destruct (exited_after p) eqn:Ea.
  { destruct (refresh (final_files p) (ledger w1)) as [l [e|]].
    - split; [unfold fail_pass; rewrite Ea; done|]. exists p. split; [done|]. right; right. by apply fail_broken.
    - split; [done|]. exists p. split; [done|]. right; left. by split. }
  specialize (IH w1 Hr). destruct (watch w1 ps) as [w2|w2] eqn:Ew.
  - destruct IH as [Hl2 (q & Hq & H)]. split; [congruence|]. exists q. split; [by apply elem_of_cons, or_intror|done].
  - destruct IH as (Hl2 & Hr2 & Hp). split; [congruence|]. split; [done|].
    intros q Hq. destruct ps as [|p' ps]; [|by apply Hp]. injection Hq as <-. injection Ew as <-. done.
Qed.

(** ** Limits *)

Lemma is_int_not_bool v : is_bool v = false → is_int v = true → ∃ n, v = VInt n.
Proof. destruct v; try done. eauto. Qed.

(** The limits of a watcher: known keys, positive, integers where they count tokens. *)
Definition limit_ok (kv : string * value) : Prop :=
  kv.1 ∈ DIMENSIONS ∧ (kv.1 ∈ TOKEN_DIMENSIONS → ∃ n, kv.2 = VInt n ∧ (0 < n)%Z).

Lemma limit_entry_ok kv : limit_entry kv = Ok () → limit_ok kv.
Proof.
  destruct kv as [k v]. unfold limit_entry, limit_ok. cbn [fst snd]. intros H.
  apply res_bind_ok in H as (u & Hk%raise_if_ok & H). apply res_bind_ok in H as (u1 & Hn%raise_if_ok & H).
  apply res_bind_ok in H as (u2 & Ht%raise_if_ok & Hp%raise_if_ok).
  apply negb_false_iff, elem_str_spec in Hk. split; [done|]. intros Hd%elem_str_spec.
  rewrite Hd in Ht. apply negb_false_iff in Ht. apply orb_false_iff in Hn as [Hb _].
  destruct (is_int_not_bool v Hb Ht) as [n ->]. exists n. split; [done|].
  change (num_leb (NInt n) (NInt 0) = false) in Hp. unfold num_leb in Hp. rewrite num_compare_int in Hp. by destruct (Z.compare_spec n 0).
Qed.

Lemma check_limits_ok lims l : check_limits lims = Ok l → l = lims ∧ Forall limit_ok lims.
Proof.
  unfold check_limits. intros H. apply res_bind_ok in H as (u & H & [= <-]). split; [done|]. revert u H.
  induction lims as [|kv lims IH]; intros u H; [constructor|]. cbn [foldM] in H.
  apply res_bind_ok in H as (u' & H1 & H2). constructor; [apply limit_entry_ok; by destruct u'|].
  destruct u'. by apply (IH u).
Qed.

(** The token total a limit bounds. *)
Definition token_total (d : string) (t : Usage) : Z :=
  if String.eqb d "input_tokens" then input_tokens t else output_tokens t.

Lemma over_limit_tokens limits t el d n b :
  d ∈ TOKEN_DIMENSIONS → dget limits d = VInt n → over_limit limits t el d = Ok b → b = (n <? token_total d t)%Z.
Proof.
  intros Hd Hn. unfold over_limit. rewrite Hn. unfold TOKEN_DIMENSIONS in Hd.
  assert (observed_value t el d = VInt (token_total d t)) as ->.
  { repeat (apply elem_of_cons in Hd as [->|Hd]; [done|]). by apply not_elem_of_nil in Hd. }
  change (py_gt (VInt (token_total d t)) (VInt n)) with (Ok (num_ltb (NInt n) (NInt (token_total d t)))).
  unfold num_ltb. rewrite num_compare_int. unfold Z.ltb. intros [= <-]. by destruct (n ?= _)%Z.
Qed.

Lemma new_watcher_ok home lims pid poll_s grace given gid w :
  new_watcher home lims pid poll_s grace given gid = Ok w → limits w = lims ∧ Forall limit_ok lims ∧ running w.
Proof.
  unfold new_watcher. intros (u1 & _ & H)%res_bind_ok. apply res_bind_ok in H as (l & Hl & H).
  apply res_bind_ok in H as (u2 & _ & H). apply res_bind_ok in H as (u3 & _ & [= <-]).
  apply check_limits_ok in Hl as [-> Hl]. by repeat split.
Qed.

(** Claim C30. A watch that ends does so in exactly one of three ways.  A pass
    found the process running and a limit crossed: the process group got
    SIGTERM, and SIGKILL when it outlived the grace period, the run has no exit
    status, and the stop names the first dimension of the limits the totals then
    crossed, with the observed value and the limit; for tokens these are
    integers with 0 < limit < observed.  Or the process exited by itself: no
    signal, its status stands.  Or a pass failed: the run raises, and the
    process was signalled unless it had exited. *)
Theorem watch_decides home lims pid poll_s grace given gid w0 ps w rc :
  new_watcher home lims pid poll_s grace given gid = Ok w0 → watch w0 ps = inl w →
  ∃ p, p ∈ ps ∧
    ((∃ s, run_result w rc = inr (None, Some s) ∧ exited p = false ∧ signals w = kill_signals p ∧
        justified s lims (totals (ledger w)) (elapsed p) DIMENSIONS ∧
        (stop_dimension s ∈ TOKEN_DIMENSIONS → ∃ n,
           stop_limit s = VInt n ∧ observed s = VInt (token_total (stop_dimension s) (totals (ledger w))) ∧
           (0 < n < token_total (stop_dimension s) (totals (ledger w)))%Z)) ∨
     (run_result w rc = inr (Some rc, None) ∧ signals w = [] ∧ exited_after p = true) ∨
     (∃ e, run_result w rc = inl e ∧ signals w = if exited_after p then [] else kill_signals p)).
Proof.
  intros Hnew Hw. apply new_watcher_ok in Hnew as (<- & Hlims & Hrun).
  pose proof (watch_spec w0 ps Hrun) as Hspec. rewrite Hw in Hspec. destruct Hspec as (Hl & p & Hp & Hend).
  exists p. split; [done|]. unfold run_result. destruct Hend as [(s & Hs & Hf & Hg & He & Hj)|[[(Hs & Hf & Hg) He]|(Hs & [e He] & Hg)]].
  - left. exists s. rewrite Hf, Hs, <-Hl. split_and!; try done. intros Hd.
    destruct Hj as (pre & post & _ & _ & Hn & Ho & Hsl & Hob). rewrite Hl in *.
    assert (∃ n, dget (limits w0) (stop_dimension s) = VInt n ∧ (0 < n)%Z) as (n & Hv & Hpos).
    { rewrite list.Forall_forall in Hlims. unfold dget in *. destruct (assoc _ _) as [v|] eqn:Ea; [|done].
      apply assoc_elem in Ea. by apply (Hlims _ Ea). }
    exists n. rewrite Hsl, Hob, Hv. split; [done|].
    pose proof (over_limit_tokens _ _ _ _ n true Hd Hv Ho) as Hlt. symmetry in Hlt. apply Z.ltb_lt in Hlt.
    split; [|done]. unfold TOKEN_DIMENSIONS in Hd.
    repeat (apply elem_of_cons in Hd as [->|Hd]; [done|]). by apply not_elem_of_nil in Hd.
  - right; left. rewrite Hs, Hf. done.
  - right; right. exists e. by rewrite He.
Qed.

(** As long as the watch goes on, the run has spent no more than its
    limits: after every pass the process was running in, no signal was sent and
    the token totals are within their limits. *)
Theorem running_within_budget home lims pid poll_s grace given gid w0 ps p w d n :
  new_watcher home lims pid poll_s grace given gid = Ok w0 → watch w0 (ps ++ [p]) = inr w → exited p = false →
  d ∈ TOKEN_DIMENSIONS → dget lims d = VInt n →
  signals w = [] ∧ stop w = None ∧ (token_total d (totals (ledger w)) ≤ n)%Z.
Proof.
  intros Hnew Hw Hp Hd Hn. apply new_watcher_ok in Hnew as (<- & _ & Hrun).
  pose proof (watch_spec w0 (ps ++ [p]) Hrun) as Hspec. rewrite Hw in Hspec. destruct Hspec as (Hl & (Hs & _ & Hg) & Hlast).
  destruct (Hlast p (last_snoc p ps)) as [[_ Hlim] _]. split_and!; [done|done|].
  assert (Hdim : d ∈ DIMENSIONS) by (apply elem_of_app; by left). rewrite Hl in Hlim.
  specialize (Hlim Hp d Hdim). rewrite Hn in Hlim. specialize (Hlim eq_refl).
  apply (over_limit_tokens _ _ _ _ n) in Hlim; [|done|done]. symmetry in Hlim. by apply Z.ltb_ge in Hlim.
Qed.

(** ** Examples *)

Definition session_line (kind : string) (payload : dict) : string :=
  dumps_default (VDict [("type", VStr kind); ("payload", VDict payload)]) +:+ nl.
Definition usage_line (id : string) (i o : Z) : string :=
  session_line "token_usage_record"
    [("response_id", VStr id); ("usage", VDict [("input_tokens", VInt i); ("output_tokens", VInt o)])].
Definition count_line (i o : Z) : string :=
  session_line "event_msg"
    [("type", VStr "token_count");
     ("info", VDict [("last_token_usage", VDict [("input_tokens", VInt i); ("output_tokens", VInt o)])])].

Definition session_path : string := "/h/sessions/a.jsonl".

(** The sessions directory with these files. *)
Definition snapshot_of (fs : list (string * string)) : snapshot := {|
  sessions_dir := true; rglob := map fst fs; is_file := has_key fs;
  size_of := λ p, String.length <$> assoc fs p;
  bytes_of := λ p, match assoc fs p with Some c => Ok c | None => Err (OSError "gone") end |}.

(** A read that ends in the middle of a line, then the rest. *)
Lemma reading_is_incremental_witness :
  refreshes new_ledger (map (holding session_path)
      ([usage_line "r1" 100 10; usage_line "r1" 100 10 +:+ str_take 20 (usage_line "r2" 5 5)] ++
       [usage_line "r1" 100 10 +:+ usage_line "r2" 5 5])) =
    (refresh (holding session_path (usage_line "r1" 100 10 +:+ usage_line "r2" 5 5)) new_ledger).1 ∧
  input_tokens (totals (refresh (holding session_path (usage_line "r1" 100 10 +:+ usage_line "r2" 5 5)) new_ledger).1) = 105%Z.
Proof.
  split; [|vm_compute; reflexivity].
  apply (reading_is_incremental session_path
    [usage_line "r1" 100 10; usage_line "r1" 100 10 +:+ str_take 20 (usage_line "r2" 5 5)]).
  apply Sorted_cons; [apply Sorted_cons; [apply Sorted_cons; [apply Sorted_nil|apply HdRel_nil]|]|];
    apply HdRel_cons; [exists (str_drop 20 (usage_line "r2" 5 5))|eexists]; [vm_compute|]; reflexivity.
Defined.

(** Two files that hold one response each, the same one, of which the second
    also reports a running count: the response is counted in both. *)
Example recounted_response :
  let l := (refresh (snapshot_of [("/h/sessions/a.jsonl", usage_line "r1" 100 10);
                                  ("/h/sessions/b.jsonl", usage_line "r1" 100 10 +:+ count_line 100 10)]) new_ledger).1 in
  counted_ids (common l) = ["r1"] ∧ input_tokens (totals l) = 200%Z ∧ response_count l = 2.
Proof. vm_compute. done. Qed.

Definition example_limits : dict := [("output_tokens", VInt 15); ("seconds", VInt 60)].
Definition example_pass (content : string) (exits : bool) : pass := {|
  seen_files := holding session_path content; exited := exits; exited_after := exits;
  final_files := holding session_path content; elapsed := decimal_to_float false 1250 (-3);
  now_ms := 1; outlives := true |}.

Definition example_watcher : Watcher :=
  {| limits := example_limits; ledger := new_ledger; stop := None; failure := None; signals := [] |}.
Definition example_passes : list pass :=
  [example_pass (usage_line "r1" 100 10) false;
   example_pass (usage_line "r1" 100 10 +:+ usage_line "r2" 100 10) false].
Definition after_passes (ps : list pass) : Watcher :=
  match watch example_watcher ps with inl w | inr w => w end.

(** The second pass sees 20 output tokens against a limit of 15, and the process
    outlives the grace period. *)
Lemma watch_decides_witness :
  (signals (after_passes example_passes) = [SIGTERM; SIGKILL] ∧
   (reason <$> stop (after_passes example_passes)) =
     Some "output_tokens reached 20 tokens against a limit of 15 tokens after 1.2 s") ∧
  ∃ p, p ∈ example_passes ∧ exited p = false ∧
    ∃ s, run_result (after_passes example_passes) 0 = inr (None, Some s).
Proof.
  split; [vm_compute; done|].
  destruct (watch_decides "/h" example_limits 7 (NInt 1) (NInt 5) None (Some 7%Z) example_watcher example_passes
    (after_passes example_passes) 0)
    as (p & Hp & [(s & Hr & He & _)|[(_ & Hg & _)|(e & He & _)]]); [reflexivity|vm_compute; reflexivity| | |].
  - exists p. split; [done|]. split; [done|]. by exists s.
  - vm_compute in Hg. discriminate Hg.
  - vm_compute in He. discriminate He.
Defined.

Lemma running_within_budget_witness :
  (token_total "output_tokens" (totals (ledger (after_passes (take 1 example_passes)))) ≤ 15)%Z.
Proof.
  apply (running_within_budget "/h" example_limits 7 (NInt 1) (NInt 5) None (Some 7%Z) example_watcher []
    (example_pass (usage_line "r1" 100 10) false) _ "output_tokens" 15);
    [reflexivity|vm_compute; reflexivity|reflexivity|by apply elem_of_cons, or_intror, elem_of_cons, or_introl|reflexivity].
Defined.
