(* ===== verification/Trajectory.v ===== *)
(** * Trajectories

    src/evals/cross_harness/trajectory.py: the records one run of a coding
    harness is reduced to, their JSON form, the totals over the tree of agents,
    the attribution of files to the shell commands that wrote them, and the rule
    for a suite that waits.  A codec states per record that decoding accepts
    exactly the well-formed values. *)

From stdpp Require Import base list sets strings pretty sorting.
From Stdlib Require Import Ascii ZArith Lia.
From S2P Require Import Prelude PyValue PyText PyUnicode Sha256.

Definition HARNESSES : list string := ["foe"; "codex"].
Definition ROUTES : list string := ["subscription"; "compatible"].
Definition CHANGE_KINDS : list string := ["edit"; "create"; "delete"; "unknown"].
Definition CHANGE_VIAS : list string := ["tool"; "shell"].
Definition OUTCOME_STATUSES : list string := ["completed"; "blocked"; "exhausted"; "failed"; "killed"].

(** The digest of the arguments of a call; canonical JSON cannot encode a
    surrogate. *)
Definition arguments_digest (arguments : value) : res string :=
  bytes ← encode_utf8 (canonical_json arguments);
  Ok ("sha256:" +:+ sha256_hex bytes).

(** ** Field readers *)

Definition at_key (prefix key : string) : string := prefix +:+ "." +:+ key.

(** [_check_choice], whose value may be of any type. *)
Definition check_choice (prefix key : string) (v : value) (choices : list string) : res string :=
  match v with
  | VStr s => if elem_str s choices then Ok s else
      Err (ValueError (at_key prefix key +:+ ": " +:+ py_repr v +:+ " is not one of " +:+ join ", " choices))
  | _ => Err (ValueError (at_key prefix key +:+ ": " +:+ py_repr v +:+ " is not one of " +:+ join ", " choices))
  end.

(** [key in data] on any value. *)
Definition has_item (data : value) (key : string) : res bool :=
  match data with
  | VDict d => Ok (has_key d key)
  | VList l => Ok (existsb (is_string key) l)
  | VStr s => Ok (occurs key s)
  | v => Err (TypeError ("argument of type '" +:+ type_name v +:+ "' is not iterable"))
  end.

(** [_require]. *)
Definition require (prefix : string) (data : value) (key : string) : res value :=
  present ← has_item data key;
  raise_if (negb present) (ValueError (at_key prefix key +:+ ": the key is required"));;
  item data key.

Definition plain_int (v : value) : option Z := match v with VInt z => Some z | _ => None end.

Definition optional_int (prefix : string) (data : value) (key : string) : res (option Z) :=
  v ← get data key;
  match v with
  | VNone => Ok None
  | VInt z => Ok (Some z)
  | v => Err (ValueError (at_key prefix key +:+ ": " +:+ py_repr v +:+ " is not an integer or null"))
  end.

(** [_int]. *)
Definition int_field (prefix : string) (data : value) (key : string) : res Z :=
  v ← require prefix data key;
  match v with
  | VInt z => Ok z
  | v => Err (ValueError (at_key prefix key +:+ ": " +:+ py_repr v +:+ " is not an integer"))
  end.

Definition optional_str (prefix : string) (data : value) (key : string) : res (option string) :=
  v ← get data key;
  match v with
  | VNone => Ok None
  | VStr s => Ok (Some s)
  | v => Err (ValueError (at_key prefix key +:+ ": " +:+ py_repr v +:+ " is not a string or null"))
  end.

(** A required field that is a string. *)
Definition str_field (prefix : string) (data : value) (key : string) : res string :=
  v ← require prefix data key;
  match v with
  | VStr s => Ok s
  | v => Err (ValueError (at_key prefix key +:+ ": " +:+ py_repr v +:+ " is not a string"))
  end.

(** A flag that defaults to false. *)
Definition flag_field (prefix : string) (data : value) (key : string) : res bool :=
  v ← get_or data key (VBool false);
  match v with
  | VBool b => Ok b
  | v => Err (ValueError (at_key prefix key +:+ ": " +:+ py_repr v +:+ " is not a boolean"))
  end.

(** [_list]. *)
Definition list_field (prefix : string) (data : value) (key : string) : res (list value) :=
  v ← get_or data key (VList []);
  match v with
  | VList l => Ok l
  | v => Err (ValueError (at_key prefix key +:+ ": " +:+ py_repr v +:+ " is not a list"))
  end.

(** [[parse(item, f"{prefix}.{key}[{i}]") for i, item in enumerate(...)]]. *)
Definition items_field {A} (parse : string → value → res A) (prefix : string) (data : value) (key : string)
    : res (list A) :=
  l ← list_field prefix data key;
  map_res (λ iv, parse (at_key prefix key +:+ "[" +:+ nat_str iv.1 +:+ "]") iv.2) (enumerate l).

Definition opt_int (o : option Z) : value := match o with Some z => VInt z | None => VNone end.
Definition opt_str (o : option string) : value := match o with Some s => VStr s | None => VNone end.

(** ** The records *)

Record ModelCall : Type := {
  call_seq : option Z;
  call_started_ms : Z;
  call_ended_ms : option Z;
  input_tokens : option Z;
  output_tokens : option Z;
  cache_read_tokens : option Z;
  reasoning_tokens : option Z;
}.
Definition has_usage (c : ModelCall) : bool :=
  match input_tokens c, output_tokens c with Some _, Some _ => true | _, _ => false end.
Definition ModelCall_to_dict (c : ModelCall) : dict :=
  [("seq", opt_int (call_seq c)); ("started_ms", VInt (call_started_ms c)); ("ended_ms", opt_int (call_ended_ms c));
   ("input_tokens", opt_int (input_tokens c)); ("output_tokens", opt_int (output_tokens c));
   ("cache_read_tokens", opt_int (cache_read_tokens c)); ("reasoning_tokens", opt_int (reasoning_tokens c))].
Definition ModelCall_from_dict (prefix : string) (data : value) : res ModelCall :=
  seq ← optional_int prefix data "seq";
  started ← int_field prefix data "started_ms";
  ended ← optional_int prefix data "ended_ms";
  i ← optional_int prefix data "input_tokens";
  o ← optional_int prefix data "output_tokens";
  c ← optional_int prefix data "cache_read_tokens";
  r ← optional_int prefix data "reasoning_tokens";
  Ok (Build_ModelCall seq started ended i o c r).

Record Command : Type := {
  cmd_started_ms : Z;
  cmd_ended_ms : option Z;
  text : string;
  exit_code : option Z;
  paths_named : list string;
  denial : bool;
}.
Definition Command_to_dict (c : Command) : dict :=
  [("started_ms", VInt (cmd_started_ms c)); ("ended_ms", opt_int (cmd_ended_ms c)); ("text", VStr (text c));
   ("exit_code", opt_int (exit_code c)); ("paths_named", VList (map VStr (paths_named c)));
   ("denial", VBool (denial c))].
(** One item of [paths_named]. *)
Definition path_item (where_ : string) (v : value) : res string :=
  match v with
  | VStr s => Ok s
  | v => Err (ValueError (where_ +:+ ": " +:+ py_repr v +:+ " is not a string"))
  end.
Definition Command_from_dict (prefix : string) (data : value) : res Command :=
  t ← str_field prefix data "text";
  d ← flag_field prefix data "denial";
  paths ← items_field path_item prefix data "paths_named";
  started ← int_field prefix data "started_ms";
  ended ← optional_int prefix data "ended_ms";
  code ← optional_int prefix data "exit_code";
  Ok (Build_Command started ended t code paths d).

Record ToolCall : Type := {
  tool_name : string;
  tool_started_ms : Z;
  tool_ended_ms : option Z;
  is_error : bool;
  tool_digest : option string;
  summary : option string;
}.
Definition ToolCall_to_dict (c : ToolCall) : dict :=
  [("name", VStr (tool_name c)); ("started_ms", VInt (tool_started_ms c)); ("ended_ms", opt_int (tool_ended_ms c));
   ("is_error", VBool (is_error c)); ("arguments_digest", opt_str (tool_digest c));
   ("summary", opt_str (summary c))].
Definition ToolCall_from_dict (prefix : string) (data : value) : res ToolCall :=
  name ← str_field prefix data "name";
  e ← flag_field prefix data "is_error";
  started ← int_field prefix data "started_ms";
  ended ← optional_int prefix data "ended_ms";
  digest ← optional_str prefix data "arguments_digest";
  summary ← optional_str prefix data "summary";
  Ok (Build_ToolCall name started ended e digest summary).

Record FileChange : Type := { change_path : string; change_kind : string; at_ms : Z; via : string }.
Definition FileChange_to_dict (c : FileChange) : dict :=
  [("path", VStr (change_path c)); ("kind", VStr (change_kind c)); ("at_ms", VInt (at_ms c)); ("via", VStr (via c))].
Definition choice_field (prefix : string) (data : value) (key : string) (choices : list string) : res string :=
  v ← require prefix data key; check_choice prefix key v choices.
Definition FileChange_from_dict (prefix : string) (data : value) : res FileChange :=
  p ← str_field prefix data "path";
  k ← choice_field prefix data "kind" CHANGE_KINDS;
  t ← int_field prefix data "at_ms";
  v ← choice_field prefix data "via" CHANGE_VIAS;
  Ok (Build_FileChange p k t v).

Record Compaction : Type := { compacted_ms : Z; tokens_before : option Z }.
Definition Compaction_to_dict (c : Compaction) : dict :=
  [("at_ms", VInt (compacted_ms c)); ("tokens_before", opt_int (tokens_before c))].
Definition Compaction_from_dict (prefix : string) (data : value) : res Compaction :=
  t ← int_field prefix data "at_ms";
  n ← optional_int prefix data "tokens_before";
  Ok (Build_Compaction t n).

(** [code] is what the harness recorded; the class does not check it. *)
Record Outcome : Type := { status : string; code : value; outcome_value : value; outcome_ended_ms : option Z }.
Definition Outcome_to_dict (o : Outcome) : dict :=
  [("status", VStr (status o)); ("code", code o); ("value", outcome_value o);
   ("ended_ms", opt_int (outcome_ended_ms o))].
Definition Outcome_from_dict (prefix : string) (data : value) : res Outcome :=
  c ← optional_str prefix data "code";
  s ← choice_field prefix data "status" OUTCOME_STATUSES;
  v ← get data "value";
  ended ← optional_int prefix data "ended_ms";
  Ok (Build_Outcome s (opt_str c) v ended).

Record Agent : Type := {
  agent_id : string;
  parent_id : option string;
  depth : Z;
  role : string;
  agent_started_ms : Z;
  agent_ended_ms : option Z;
  model_calls : list ModelCall;
  commands : list Command;
  file_changes : list FileChange;
  compactions : list Compaction;
  tool_calls : list ToolCall;
}.
Definition dicts {A} (to_dict : A → dict) (l : list A) : value := VList (map (λ x, VDict (to_dict x)) l).
Definition Agent_to_dict (a : Agent) : dict :=
  [("id", VStr (agent_id a)); ("parent_id", opt_str (parent_id a)); ("depth", VInt (depth a)); ("role", VStr (role a));
   ("started_ms", VInt (agent_started_ms a)); ("ended_ms", opt_int (agent_ended_ms a));
   ("model_calls", dicts ModelCall_to_dict (model_calls a)); ("commands", dicts Command_to_dict (commands a));
   ("file_changes", dicts FileChange_to_dict (file_changes a));
   ("compactions", dicts Compaction_to_dict (compactions a)); ("tool_calls", dicts ToolCall_to_dict (tool_calls a))].
Definition Agent_from_dict (prefix : string) (data : value) : res Agent :=
  id ← str_field prefix data "id";
  r ← str_field prefix data "role";
  parent ← optional_str prefix data "parent_id";
  d ← int_field prefix data "depth";
  started ← int_field prefix data "started_ms";
  ended ← optional_int prefix data "ended_ms";
  calls ← items_field ModelCall_from_dict prefix data "model_calls";
  cmds ← items_field Command_from_dict prefix data "commands";
  changes ← items_field FileChange_from_dict prefix data "file_changes";
  comps ← items_field Compaction_from_dict prefix data "compactions";
  tools ← items_field ToolCall_from_dict prefix data "tool_calls";
  Ok (Build_Agent id parent d r started ended calls cmds changes comps tools).

Record Trajectory : Type := {
  harness : string;
  identity : dict;
  agents : list Agent;
  outcome : Outcome;
  route : string;
}.
Definition Trajectory_to_dict (t : Trajectory) : dict :=
  [("harness", VStr (harness t)); ("identity", VDict (identity t)); ("agents", dicts Agent_to_dict (agents t));
   ("outcome", VDict (Outcome_to_dict (outcome t))); ("route", VStr (route t))].

(** The identity: an object, or none. *)
Definition identity_field (prefix : string) (data : value) : res dict :=
  v ← get_or data "identity" (VDict []);
  match v with
  | VDict d => Ok d
  | v => Err (ValueError (prefix +:+ ".identity: " +:+ py_repr v +:+ " is not an object"))
  end.
Definition outcome_field (prefix : string) (data : value) : res value :=
  v ← require prefix data "outcome";
  raise_if (negb (is_dict v)) (ValueError (prefix +:+ ".outcome: " +:+ py_repr v +:+ " is not an object"));;
  Ok v.
Definition count (x : string) (l : list string) : nat := length (filter (x =.) l).
Definition check_unique (prefix : string) (ids : list string) : res () :=
  match find (λ x, 1 <? count x ids) ids with
  | Some x => Err (ValueError (prefix +:+ ".agents: the id " +:+ str_repr x +:+ " names more than one agent"))
  | None => Ok ()
  end.
Definition Trajectory_from_dict (prefix : string) (data : value) : res Trajectory :=
  identity ← identity_field prefix data;
  o ← outcome_field prefix data;
  agents ← items_field Agent_from_dict prefix data "agents";
  check_unique prefix (map agent_id agents);;
  harness ← choice_field prefix data "harness" HARNESSES;
  outcome ← Outcome_from_dict (at_key prefix "outcome") o;
  route ← choice_field prefix data "route" ROUTES;
  Ok (Build_Trajectory harness identity agents outcome route).

Definition agent (t : Trajectory) (id : string) : res Agent :=
  match find (λ a, String.eqb (agent_id a) id) (agents t) with
  | Some a => Ok a
  | None => Err (KeyError ("trajectory.agents: no agent has the id " +:+ str_repr id))
  end.

(** ** Totals *)

Definition sum_or_none (l : list (option Z)) : option Z :=
  fold_right (λ o t, match o, t with Some x, Some y => Some (x + y)%Z | _, _ => None end) (Some 0%Z) l.
Definition py_max (l : list Z) : option Z :=
  match l with [] => None | x :: l => Some (fold_left Z.max l x) end.
Definition py_min (l : list Z) : option Z :=
  match l with [] => None | x :: l => Some (fold_left Z.min l x) end.
Definition by_name_step (d : list (string * Z)) (c : ToolCall) : list (string * Z) :=
  dset d (tool_name c) (default 0 (assoc d (tool_name c)) + 1)%Z.
Definition by_name (l : list ToolCall) : list (string * Z) := fold_left by_name_step l [].

Definition all_calls (t : Trajectory) : list ModelCall := flat_map model_calls (agents t).
Definition all_commands (t : Trajectory) : list Command := flat_map commands (agents t).
Definition all_tool_calls (t : Trajectory) : list ToolCall := flat_map tool_calls (agents t).
Definition ends (t : Trajectory) : list Z :=
  omap agent_ended_ms (agents t) ++ match outcome_ended_ms (outcome t) with Some e => [e] | None => [] end.
Definition wall_ms (t : Trajectory) : option Z :=
  match py_max (ends t), py_min (map agent_started_ms (agents t)) with
  | Some e, Some s => Some (e - s)%Z | _, _ => None end.
Definition len {A} (l : list A) : value := VInt (Z.of_nat (length l)).

Definition totals (t : Trajectory) : dict :=
  let names := by_name (all_tool_calls t) in
  [("model_calls", len (all_calls t));
   ("responses_with_usage", len (List.filter has_usage (all_calls t)));
   ("input_tokens", opt_int (sum_or_none (map input_tokens (all_calls t))));
   ("output_tokens", opt_int (sum_or_none (map output_tokens (all_calls t))));
   ("cache_read_tokens", opt_int (sum_or_none (map cache_read_tokens (all_calls t))));
   ("reasoning_tokens", opt_int (sum_or_none (map reasoning_tokens (all_calls t))));
   ("agents", len (agents t));
   ("max_depth", VInt (default 0%Z (py_max (map depth (agents t)))));
   ("wall_ms", opt_int (wall_ms t));
   ("commands", len (all_commands t));
   ("denials", len (List.filter denial (all_commands t)));
   ("file_changes", len (flat_map file_changes (agents t)));
   ("compactions", len (flat_map compactions (agents t)));
   ("tool_calls", len (all_tool_calls t));
   ("tool_calls_by_name", VDict (map (λ n, (n, VInt (default 0%Z (assoc names n)))) (sorted_strings (keys names))))].

(** ** Attribution of shell writes *)

(** The files of the second snapshot whose time the first does not have, in the
    order [sorted] puts them: by time, then path. *)
Definition change_le (x y : string * Z) : Prop := (x.2 < y.2)%Z ∨ (x.2 = y.2 ∧ String.le x.1 y.1).
#[export] Instance change_le_dec x y : Decision (change_le x y).
Proof. unfold change_le. apply _. Defined.
Definition written (before after : list (string * Z)) : list (string * Z) :=
  filter (λ pa, assoc before pa.1 ≠ Some pa.2) after.
Definition contains (at_time : Z) (interval : Z * option Z) : bool :=
  (interval.1 <=? at_time)%Z && match interval.2 with None => true | Some e => (at_time <=? e)%Z end.
Definition intervals (a : Agent) : list (Z * option Z) :=
  map (λ c, (cmd_started_ms c, match cmd_ended_ms c with Some e => Some e | None => agent_ended_ms a end)) (commands a).
Definition attribution (before : list (string * Z)) (pa : string * Z) : FileChange :=
  {| change_path := pa.1; change_kind := if has_key before pa.1 then "edit" else "create"; at_ms := pa.2; via := "shell" |}.
Definition attributed (before after : list (string * Z)) (a : Agent) : list FileChange :=
  map (attribution before)
    (List.filter (λ pa, existsb (contains pa.2) (intervals a)) (merge_sort change_le (written before after))).
Definition with_changes (a : Agent) (added : list FileChange) : Agent := {|
  agent_id := agent_id a; parent_id := parent_id a; depth := depth a; role := role a;
  agent_started_ms := agent_started_ms a; agent_ended_ms := agent_ended_ms a; model_calls := model_calls a;
  commands := commands a; file_changes := file_changes a ++ added; compactions := compactions a;
  tool_calls := tool_calls a |}.
Definition attribute_shell_writes (t : Trajectory) (before after : list (string * Z)) : Trajectory * nat :=
  ({| harness := harness t; identity := identity t;
      agents := map (λ a, with_changes a (attributed before after a)) (agents t);
      outcome := outcome t; route := route t |},
   sum_list_with (λ a, length (attributed before after a)) (agents t)).

(** ** Paths a command names *)

Section paths.
(** The letters and digits of Unicode, as [\w] has them beside the underscore. *)
Context (word : string → bool).

(** The class [[\w.~+@%-]] of a path segment, and what the lookbehind refuses
    before a token, on the one-character strings of the text. *)
Definition segment_char (c : string) : bool := word c || elem_str c ["_"; "."; "~"; "+"; "@"; "%"; "-"].
Definition refuses_after (c : string) : bool := word c || elem_str c ["_"; "/"; ":"; "."; "~"; "%"; "@"; "+"; "$"; "-"].

Fixpoint span_path (cs : list string) : list string * list string :=
  match cs with
  | c :: rest => if segment_char c || String.eqb c "/" then let '(t, r) := span_path rest in (c :: t, r) else ([], cs)
  | [] => ([], [])
  end.
(** One match of [_PATH_TOKEN].  The heads other than a slash consist of segment
    characters and a slash, and after its first segment character the expression
    takes every segment character and slash that follows: a token is an optional
    slash, a segment character and the longest run of both. *)
Definition match_token (cs : list string) : option (list string * list string) :=
  match cs with
  | c :: rest =>
      if segment_char c then Some (span_path cs)
      else if String.eqb c "/" then
        match rest with
        | d :: _ => if segment_char d then let '(t, r) := span_path rest in Some (c :: t, r) else None
        | [] => None
        end
      else None
  | [] => None
  end.
(** [finditer]: [previous] is the character before the position. *)
Fixpoint tokens (fuel : nat) (previous : option string) (cs : list string) : list (list string) :=
  match fuel, cs with
  | S fuel, c :: rest =>
      let free := match previous with Some p => negb (refuses_after p) | None => true end in
      match (if free then match_token cs else None) with
      | Some (t, r) => t :: tokens fuel (last t) r
      | None => tokens fuel (Some c) rest
      end
  | _, _ => []
  end.

(** A trailing dot is dropped unless a dot or a slash precedes it. *)
Definition drop_stop (t : list string) : list string :=
  match reverse t with
  | "." :: p :: _ => if elem_str p ["."; "/"] then t else removelast t
  | _ => t
  end.
Definition named_step (found : list string) (token : list string) : list string :=
  let t := drop_stop token in
  if elem_str "/" t then set_add (concat_strings t) found else found.
Definition paths_in_command (t : string) : list string :=
  fold_left named_step (tokens (S (String.length t)) None (utf8_chars t)) [].

Definition Command_from_text (started_ms : Z) (ended_ms : option Z) (t : string) (exit_code : option Z) (denial : bool)
    : Command := Build_Command started_ms ended_ms t exit_code (paths_in_command t) denial.
End paths.

(** ** The waiting step of a suite *)

Definition RUN_SCRIPT : string := "checks/run.sh".
Definition WAIT_MARKER_KEY : string := "wait_marker".
Definition ENTERED : string := "entered".
Definition NOT_ESTABLISHED : string := "not established".

Definition marker_of (task_metadata : dict) : option string :=
  match dget task_metadata WAIT_MARKER_KEY with
  | VStr s => if String.eqb (str_strip s) "" then None else Some s
  | _ => None
  end.
Definition holds_marker (output marker : string) : bool :=
  existsb (λ l, String.eqb (str_strip l) (str_strip marker)) (str_splitlines output).

(** The marker an argument states: the line, or the metadata that names it. *)
Definition marker_line (marker : string + dict) : option string :=
  match marker with inl s => Some s | inr d => marker_of d end.
(** What one recorded output shows: the evidence, and whether it holds the marker. *)
Definition entry_evidence (line : option string) (entry : dict) : string * bool :=
  let source := py_str (dget entry "source") in
  match dget entry "output", line with
  | VStr output, None => (source +:+ ": the harness recorded " +:+ nat_str (py_len output) +:+ " characters of output", false)
  | VStr output, Some l =>
      if holds_marker output l then (source +:+ ": the recorded output holds " +:+ str_repr l, true)
      else (source +:+ ": the recorded output, " +:+ nat_str (py_len output) +:+ " characters, does not hold " +:+ str_repr l, false)
  | _, _ => (source +:+ ": the harness recorded no output", false)
  end.
Record WaitEntry : Type := { entered : bool; entry_status : string; evidence : list string }.
Definition wait_entry (outputs : list dict) (marker : string + dict) : WaitEntry :=
  let line := marker_line marker in
  let entries := map (entry_evidence line) outputs in
  let entered := existsb snd entries in
  {| entered := entered;
     entry_status := if entered then ENTERED else NOT_ESTABLISHED;
     evidence :=
       (match line with Some _ => [] | None => ["the task states no " +:+ WAIT_MARKER_KEY +:+ ", so no recorded output can show the wait"] end)
       ++ map fst entries
       ++ match outputs with [] => ["no harness record holds an invocation of " +:+ RUN_SCRIPT] | _ => [] end |}.

(** ** The codec of a record *)

(** Decoding accepts what encoding gives of a well-formed record, and only
    well-formed records. *)
Class Codec (A : Type) := {
  encode : A → dict;
  decode : string → value → res A;
  wf : A → Prop;
  decode_encode prefix a : wf a → decode prefix (VDict (encode a)) = Ok a;
  decode_wf prefix v a : decode prefix v = Ok a → wf a;
}.

(** The readers on a field an encoder wrote. *)
Lemma require_present p d k v : assoc d k = Some v → require p (VDict d) k = Ok v.
Proof. intros H. unfold require, has_item, has_key, item, dict_index. by rewrite H. Qed.
Lemma get_or_present d k v w : assoc d k = Some v → get_or (VDict d) k w = Ok v.
Proof. intros H. unfold get_or, dget_or. by rewrite H. Qed.
Lemma optional_int_opt p d k o : assoc d k = Some (opt_int o) → optional_int p (VDict d) k = Ok o.
Proof. intros H. unfold optional_int, get. rewrite (get_or_present _ _ _ _ H). by destruct o. Qed.
Lemma optional_str_opt p d k o : assoc d k = Some (opt_str o) → optional_str p (VDict d) k = Ok o.
Proof. intros H. unfold optional_str, get. rewrite (get_or_present _ _ _ _ H). by destruct o. Qed.
Lemma int_field_int p d k z : assoc d k = Some (VInt z) → int_field p (VDict d) k = Ok z.
Proof. intros H. unfold int_field. by rewrite (require_present _ _ _ _ H). Qed.
Lemma str_field_str p d k s : assoc d k = Some (VStr s) → str_field p (VDict d) k = Ok s.
Proof. intros H. unfold str_field. by rewrite (require_present _ _ _ _ H). Qed.
Lemma flag_field_bool p d k b : assoc d k = Some (VBool b) → flag_field p (VDict d) k = Ok b.
Proof. intros H. unfold flag_field. by rewrite (get_or_present _ _ _ _ H). Qed.
Lemma choice_field_in p d k s choices :
  assoc d k = Some (VStr s) → s ∈ choices → choice_field p (VDict d) k choices = Ok s.
Proof.
  intros H Hs%elem_str_spec. unfold choice_field. rewrite (require_present _ _ _ _ H). cbn. by rewrite Hs.
Qed.

Lemma map_items {A B} (parse : string → value → res A) (f : B → value) (g : B → A) at_ l i :
  (∀ x p, x ∈ l → parse p (f x) = Ok (g x)) →
  map_res (λ iv, parse (at_ iv.1) iv.2) (enumerate_from i (map f l)) = Ok (map g l).
Proof.
  revert i. induction l as [|x l IH]; intros i H; [done|]. cbn [map enumerate_from map_res fst snd].
  rewrite H by apply list_elem_of_here. cbn. fold (map_res (λ iv, parse (at_ iv.1) iv.2)). rewrite IH; [done|].
  intros y p Hy. by apply H, list_elem_of_further.
Qed.

Lemma items_field_map {A B} (parse : string → value → res A) (f : B → value) (g : B → A) p d k l :
  assoc d k = Some (VList (map f l)) → (∀ x q, x ∈ l → parse q (f x) = Ok (g x)) →
  items_field parse p (VDict d) k = Ok (map g l).
Proof.
  intros H Hl. unfold items_field, list_field. rewrite (get_or_present _ _ _ _ H). cbn.
  by apply (map_items parse f g (λ i, at_key p k +:+ "[" +:+ nat_str i +:+ "]")).
Qed.

Lemma items_field_dicts `{Codec A} p d k (l : list A) :
  assoc d k = Some (dicts encode l) → Forall wf l → items_field decode p (VDict d) k = Ok l.
Proof.
  intros Hk Hl. rewrite list.Forall_forall in Hl.
  rewrite (items_field_map decode (λ x, VDict (encode x)) (λ x, x) p d k l Hk), map_id; [done|].
  intros x q Hx. by apply decode_encode, Hl.
Qed.

Lemma items_field_all {A} (parse : string → value → res A) (P : A → Prop) p v k l :
  (∀ q w a, parse q w = Ok a → P a) → items_field parse p v k = Ok l → Forall P l.
Proof.
  intros HP H. unfold items_field in H. apply res_bind_ok in H as (items & _ & H).
  apply map_res_Forall2, Forall2_flip in H. apply (Forall2_Forall_l _ _ _ _ H).
  apply list.Forall_forall. intros [i w] _ a Ha. by apply (HP _ _ _ Ha).
Qed.

(** One field of a decoder after the other, on an encoded record. *)
Ltac read_field :=
  first [ erewrite optional_int_opt by reflexivity | erewrite optional_str_opt by reflexivity
        | erewrite int_field_int by reflexivity | erewrite str_field_str by reflexivity
        | erewrite flag_field_bool by reflexivity
        | erewrite choice_field_in by (reflexivity || done) ];
  cbn [mbind res_bind].
Ltac read_fields := repeat read_field.

(** The fields a decoder read. *)
Ltac decoded H := repeat (apply res_bind_ok in H as (? & ? & H)); injection H as <-; cbn.

#[export] Program Instance ModelCall_codec : Codec ModelCall :=
  {| encode := ModelCall_to_dict; decode := ModelCall_from_dict; wf _ := True |}.
Next Obligation. intros p c _. unfold ModelCall_from_dict. read_fields. by destruct c. Qed.
Next Obligation. done. Qed.

#[export] Program Instance Command_codec : Codec Command :=
  {| encode := Command_to_dict; decode := Command_from_dict; wf _ := True |}.
Next Obligation.
  intros p c _. unfold Command_from_dict. read_fields.
  erewrite (items_field_map path_item VStr (λ s, s)) by done. cbn [mbind res_bind]. read_fields.
  rewrite map_id. by destruct c.
Qed.
Next Obligation. done. Qed.

#[export] Program Instance ToolCall_codec : Codec ToolCall :=
  {| encode := ToolCall_to_dict; decode := ToolCall_from_dict; wf _ := True |}.
Next Obligation. intros p c _. unfold ToolCall_from_dict. read_fields. by destruct c. Qed.
Next Obligation. done. Qed.

Lemma check_choice_ok p k v choices s : check_choice p k v choices = Ok s → s ∈ choices.
Proof. unfold check_choice. destruct v; try done. case_step; [|done]. intros [= <-]. by apply elem_str_spec. Qed.
Lemma choice_field_ok p v k choices s : choice_field p v k choices = Ok s → s ∈ choices.
Proof. unfold choice_field. intros (w & _ & H)%res_bind_ok. by apply check_choice_ok in H. Qed.

#[export] Program Instance FileChange_codec : Codec FileChange :=
  {| encode := FileChange_to_dict; decode := FileChange_from_dict;
     wf c := change_kind c ∈ CHANGE_KINDS ∧ via c ∈ CHANGE_VIAS |}.
Next Obligation. intros p c [Hk Hv]. unfold FileChange_from_dict. read_fields. by destruct c. Qed.
Next Obligation. intros p v c H. unfold FileChange_from_dict in H. decoded H. split; eauto using choice_field_ok. Qed.

#[export] Program Instance Compaction_codec : Codec Compaction :=
  {| encode := Compaction_to_dict; decode := Compaction_from_dict; wf _ := True |}.
Next Obligation. intros p c _. unfold Compaction_from_dict. read_fields. by destruct c. Qed.
Next Obligation. done. Qed.

#[export] Program Instance Outcome_codec : Codec Outcome :=
  {| encode := Outcome_to_dict; decode := Outcome_from_dict; wf o := status o ∈ OUTCOME_STATUSES ∧ ∃ c, code o = opt_str c |}.
Next Obligation.
  intros p o [Hs [c Hc]]. unfold Outcome_from_dict.
  rewrite (optional_str_opt p (Outcome_to_dict o) "code" c) by (cbn; by rewrite Hc). cbn [mbind res_bind]. read_fields. unfold get. erewrite get_or_present by reflexivity.
  cbn [mbind res_bind]. read_fields. rewrite <-Hc. by destruct o.
Qed.
Next Obligation. intros p v o H. unfold Outcome_from_dict in H. decoded H. eauto using choice_field_ok. Qed.

#[export] Program Instance Agent_codec : Codec Agent :=
  {| encode := Agent_to_dict; decode := Agent_from_dict; wf a := Forall wf (file_changes a) |}.
Next Obligation.
  assert (Htrue : ∀ A (l : list A), Forall (λ _, True) l) by (intros; by apply list.Forall_true).
  intros p a Ha. unfold Agent_from_dict. read_fields.
  assert (items_field ModelCall_from_dict p (VDict (Agent_to_dict a)) "model_calls" = Ok (model_calls a)) as ->
    by (apply (@items_field_dicts _ ModelCall_codec p (Agent_to_dict a)); [reflexivity|apply Htrue]). cbn [mbind res_bind].
  assert (items_field Command_from_dict p (VDict (Agent_to_dict a)) "commands" = Ok (commands a)) as ->
    by (apply (@items_field_dicts _ Command_codec p (Agent_to_dict a)); [reflexivity|apply Htrue]). cbn [mbind res_bind].
  assert (items_field FileChange_from_dict p (VDict (Agent_to_dict a)) "file_changes" = Ok (file_changes a)) as ->
    by (apply (@items_field_dicts _ FileChange_codec p (Agent_to_dict a)); [reflexivity|exact Ha]). cbn [mbind res_bind].
  assert (items_field Compaction_from_dict p (VDict (Agent_to_dict a)) "compactions" = Ok (compactions a)) as ->
    by (apply (@items_field_dicts _ Compaction_codec p (Agent_to_dict a)); [reflexivity|apply Htrue]). cbn [mbind res_bind].
  assert (items_field ToolCall_from_dict p (VDict (Agent_to_dict a)) "tool_calls" = Ok (tool_calls a)) as ->
    by (apply (@items_field_dicts _ ToolCall_codec p (Agent_to_dict a)); [reflexivity|apply Htrue]). cbn [mbind res_bind].
  by destruct a.
Qed.
Next Obligation.
  intros p v a H. unfold Agent_from_dict in H. decoded H. exact (items_field_all _ _ _ _ _ _ (@decode_wf _ FileChange_codec) ltac:(eassumption)). Qed.

Lemma count_nodup l x : NoDup l → x ∈ l → count x l = 1.
Proof.
  unfold count. induction 1 as [|y l Hy Hl IH]; [intros []%not_elem_of_nil|].
  intros [->|Hx]%elem_of_cons.
  - rewrite filter_cons_True by done. cbn. f_equal. apply length_zero_iff_nil, filter_none.
    intros z Hz <-. done.
  - rewrite filter_cons_False by (intros ->; done). auto.
Qed.

Lemma count_one_nodup l : (∀ x, x ∈ l → count x l ≤ 1) → NoDup l.
Proof.
  unfold count. induction l as [|y l IH]; intros H; [constructor|].
  constructor.
  - intros Hy. specialize (H y (list_elem_of_here _ _)). rewrite filter_cons_True in H by done.
    assert (y ∈ filter (y =.) l) as Hf by (apply list_elem_of_filter; done). cbn in H.
    destruct (filter (y =.) l) eqn:E; [by apply not_elem_of_nil in Hf|]. simpl in H. lia.
  - apply IH. intros x Hx. specialize (H x (list_elem_of_further _ _ _ Hx)).
    rewrite filter_cons in H. case_decide; simpl in H; lia.
Qed.

Lemma check_unique_ok p ids : check_unique p ids = Ok () ↔ NoDup ids.
Proof.
  unfold check_unique. destruct (find _ ids) as [x|] eqn:E.
  - apply find_some in E as [Hx Hc]. split; [done|]. intros Hn.
    rewrite (count_nodup ids x Hn) in Hc; [done|]. by apply list_elem_of_In.
  - split; [|done]. intros _. apply count_one_nodup. intros x Hx.
    apply list_elem_of_In in Hx. pose proof (find_none _ _ E x Hx) as Hc. by apply Nat.ltb_ge in Hc.
Qed.

(** A trajectory one of the harnesses can have written. *)
Definition wf_trajectory (t : Trajectory) : Prop :=
  harness t ∈ HARNESSES ∧ route t ∈ ROUTES ∧ wf (outcome t) ∧ Forall wf (agents t) ∧ NoDup (map agent_id (agents t)).

(** Claim C33. Decoding the JSON form of a trajectory gives it back exactly when
    the trajectory is well formed: its harness, route, outcome status and file
    changes are of the enumerated kinds, its outcome code is a string or absent
    and no two agents share an id.  And
    decoding any value gives a well-formed trajectory or an error, so that what
    was decoded once is written and read again without loss. *)
Theorem trajectory_round_trip p t :
  (Trajectory_from_dict p (VDict (Trajectory_to_dict t)) = Ok t ↔ wf_trajectory t) ∧
  (∀ v, Trajectory_from_dict p v = Ok t → wf_trajectory t).
Proof.
  assert (Hwf : ∀ v, Trajectory_from_dict p v = Ok t → wf_trajectory t).
  { intros v H. unfold Trajectory_from_dict in H. apply res_bind_ok in H as (i & Hi & H).
    apply res_bind_ok in H as (o & Ho & H). apply res_bind_ok in H as (l & Hl & H).
    apply res_bind_ok in H as ([] & Hu & H). apply res_bind_ok in H as (h & Hh & H).
    apply res_bind_ok in H as (out & Hout & H). apply res_bind_ok in H as (r & Hr & [= <-]).
    split; [|split; [|split; [|split]]]; cbn.
    - by eapply choice_field_ok.
    - by eapply choice_field_ok.
    - exact (@decode_wf _ Outcome_codec _ _ _ Hout).
    - exact (items_field_all _ _ _ _ _ _ (@decode_wf _ Agent_codec) Hl).
    - by apply check_unique_ok in Hu. }
  split; [|done]. split; [apply Hwf|]. intros (Hh & Hr & Ho & Ha & Hn). unfold Trajectory_from_dict.
  assert (identity_field p (VDict (Trajectory_to_dict t)) = Ok (identity t)) as -> by done. cbn [mbind res_bind].
  assert (outcome_field p (VDict (Trajectory_to_dict t)) = Ok (VDict (Outcome_to_dict (outcome t)))) as -> by done.
  cbn [mbind res_bind].
  assert (items_field Agent_from_dict p (VDict (Trajectory_to_dict t)) "agents" = Ok (agents t)) as ->
    by (apply (@items_field_dicts _ Agent_codec p (Trajectory_to_dict t)); [reflexivity|exact Ha]).
  cbn [mbind res_bind]. rewrite (proj2 (check_unique_ok _ _) Hn). cbn [mbind res_bind]. read_fields.
  assert (Outcome_from_dict (at_key p "outcome") (VDict (Outcome_to_dict (outcome t))) = Ok (outcome t)) as ->
    by (apply (@decode_encode _ Outcome_codec); exact Ho).
  cbn [mbind res_bind]. read_fields. by destruct t.
Qed.

(** ** What the totals say *)

Definition Zsum (l : list Z) : Z := fold_right Z.add 0%Z l.

Lemma sum_or_none_spec l n : sum_or_none l = Some n ↔ ∃ zs, l = map Some zs ∧ n = Zsum zs.
Proof.
  revert n. induction l as [|o l IH]; intros n.
  - split; [intros [= <-]; by exists []|intros ([|] & [=] & ->); done].
  - change (sum_or_none (o :: l)) with (match o, sum_or_none l with Some x, Some y => Some (x + y)%Z | _, _ => None end).
    split.
    + destruct o as [x|], (sum_or_none l) as [y|]; intros [= <-].
      destruct (proj1 (IH y) eq_refl) as (zs & -> & ->). by exists (x :: zs).
    + intros ([|x zs] & [= -> ->] & ->). by rewrite (proj2 (IH (Zsum zs)) (ex_intro _ zs (conj eq_refl eq_refl))).
Qed.

Lemma fold_max_spec l x :
  fold_left Z.max l x ∈ x :: l ∧ ∀ y, y ∈ x :: l → (y ≤ fold_left Z.max l x)%Z.
Proof.
  revert x. induction l as [|z l IH]; intros x; cbn [fold_left].
  - split; [apply list_elem_of_here|]. by intros y ->%list_elem_of_singleton.
  - destruct (IH (Z.max x z)) as [Hin Hle]. split.
    + apply elem_of_cons in Hin as [->|Hin]; [|by do 2 apply list_elem_of_further].
      destruct (Z.max_spec x z) as [[_ ->]|[_ ->]]; set_solver.
    + intros y Hy. pose proof (Hle _ (list_elem_of_here _ _)).
      apply elem_of_cons in Hy as [->|Hy]; [lia|]. apply elem_of_cons in Hy as [->|Hy]; [lia|].
      by apply Hle, list_elem_of_further.
Qed.

Lemma py_max_spec l m : py_max l = Some m ↔ m ∈ l ∧ ∀ y, y ∈ l → (y ≤ m)%Z.
Proof.
  destruct l as [|x l]; cbn [py_max]; [split; [done|intros [[]%not_elem_of_nil _]]|].
  destruct (fold_max_spec l x) as [Hin Hle]. split; [by intros [= <-]|].
  intros [Hm Hall]. f_equal. apply Z.le_antisymm; auto.
Qed.

Lemma fold_min_max l x : fold_left Z.min l x = (- fold_left Z.max (map Z.opp l) (- x))%Z.
Proof.
  revert x. induction l as [|z l IH]; intros x; cbn [fold_left map]; [lia|].
  rewrite IH. f_equal. f_equal. lia.
Qed.

Lemma py_min_spec l m : py_min l = Some m ↔ m ∈ l ∧ ∀ y, y ∈ l → (m ≤ y)%Z.
Proof.
  destruct l as [|x l]; cbn [py_min]; [split; [done|intros [[]%not_elem_of_nil _]]|].
  rewrite fold_min_max. destruct (fold_max_spec (map Z.opp l) (- x)) as [Hin Hle].
  change (- x :: map Z.opp l)%Z with (map Z.opp (x :: l)) in *.
  assert (Hin' : (- fold_left Z.max (map Z.opp l) (- x))%Z ∈ x :: l).
  { apply list_elem_of_fmap in Hin as (y & -> & Hy). by rewrite Z.opp_involutive. }
  assert (Hle' : ∀ y, y ∈ x :: l → (- fold_left Z.max (map Z.opp l) (- x) ≤ y)%Z).
  { intros y Hy. pose proof (Hle (- y)%Z). assert (- y ≤ fold_left Z.max (map Z.opp l) (- x))%Z; [|lia].
    apply H. apply (list_elem_of_fmap_2 Z.opp). done. }
  split; [by intros [= <-]|]. intros [Hm Hall]. f_equal. apply Z.le_antisymm; auto.
Qed.

(** How many calls carry a name. *)
Definition calls_named (n : string) (l : list ToolCall) : Z :=
  Z.of_nat (length (filter (λ c, tool_name c = n) l)).

Lemma by_name_fold l d n :
  default 0%Z (assoc (fold_left by_name_step l d) n) = (default 0 (assoc d n) + calls_named n l)%Z ∧
  (n ∈ keys (fold_left by_name_step l d) ↔ n ∈ keys d ∨ n ∈ map tool_name l).
Proof.
  revert d. induction l as [|c l IH]; intros d; cbn [fold_left map].
  { split; [unfold calls_named; simpl; lia|]. split; [by left|]. intros [?|H]; [done|by apply not_elem_of_nil in H]. }
  destruct (IH (by_name_step d c)) as [-> ->]. unfold by_name_step, calls_named. split.
  - rewrite filter_cons. case_decide as Hn.
    + subst n. rewrite assoc_dset_eq. cbn. lia.
    + rewrite assoc_dset_ne by congruence. done.
  - rewrite elem_of_cons. destruct (decide (tool_name c ∈ keys d)) as [Hd|Hd].
    + rewrite keys_dset_in by done. naive_solver.
    + rewrite keys_dset_notin by done. set_solver.
Qed.

Lemma assoc_map_key {A} (f : string → A) l n : assoc (map (λ k, (k, f k)) l) n = if elem_str n l then Some (f n) else None.
Proof.
  induction l as [|k l IH]; [done|]. unfold elem_str in *. cbn [map assoc existsb]. rewrite IH.
  destruct (String.eqb_spec k n) as [->|Hne]; [by rewrite String.eqb_refl|].
  by destruct (String.eqb_spec n k).
Qed.

Lemma filter_length_all {A} (f : A → bool) l : len (List.filter f l) = len l ↔ Forall (λ x, f x = true) l.
Proof.
  unfold len. split.
  - intros [= H%Nat2Z.inj]. induction l as [|x l IH]; [constructor|]. cbn in H.
    pose proof (filter_length_le f l). destruct (f x) eqn:E; cbn in H; [|lia].
    constructor; [done|]. apply IH. lia.
  - intros H. do 2 f_equal. induction H as [|x l Hx Hl IH]; [done|]. cbn. rewrite Hx. cbn. by rewrite IH.
Qed.

Lemma usage_totals l :
  Forall (λ c, has_usage c = true) l ↔
  ∃ i o, (∃ zs, map input_tokens l = map Some zs ∧ i = Zsum zs) ∧ (∃ zs, map output_tokens l = map Some zs ∧ o = Zsum zs).
Proof.
  split.
  - induction 1 as [|c l Hc Hl (i & o & (zi & Hi & ->) & zo & Ho & ->)].
    { by exists 0%Z, 0%Z; split; exists []. }
    unfold has_usage in Hc. destruct (input_tokens c) as [x|] eqn:Ex; [|done].
    destruct (output_tokens c) as [y|] eqn:Ey; [|done]. exists (x + Zsum zi)%Z, (y + Zsum zo)%Z.
    split; [exists (x :: zi)|exists (y :: zo)]; cbn; rewrite ?Ex, ?Ey, ?Hi, ?Ho; done.
  - intros (i & o & (zi & Hi & _) & zo & Ho & _). revert zi zo Hi Ho.
    induction l as [|c l IH]; intros [|x zi] [|y zo] Hi Ho; [constructor|discriminate..|].
    injection Hi as Hx Hi. injection Ho as Hy Ho. constructor; [unfold has_usage; by rewrite Hx, Hy|]. by eapply IH.
Qed.

(** The totals of a trajectory: a token total is known exactly when
    every model call of the tree reports that count, and is then their sum; the
    wall time is the latest end less the earliest start, known when there is an
    end and an agent; each tool name of the tree is listed with the number of its
    calls and no other name is; and every call carries usage exactly when the
    input and output totals are both known. *)
Theorem totals_exact t :
  (∀ name f, (name, f) ∈ [("input_tokens", input_tokens); ("output_tokens", output_tokens);
                          ("cache_read_tokens", cache_read_tokens); ("reasoning_tokens", reasoning_tokens)] →
     ∀ n, dget (totals t) name = VInt n ↔ ∃ zs, map f (all_calls t) = map Some zs ∧ n = Zsum zs) ∧
  (∀ w, dget (totals t) "wall_ms" = VInt w ↔ ∃ s e, w = (e - s)%Z ∧
     (e ∈ ends t ∧ ∀ y, y ∈ ends t → (y ≤ e)%Z) ∧
     (s ∈ map agent_started_ms (agents t) ∧ ∀ y, y ∈ map agent_started_ms (agents t) → (s ≤ y)%Z)) ∧
  (∃ names, dget (totals t) "tool_calls_by_name" = VDict names ∧ Sorted String.le (keys names) ∧
     ∀ n v, assoc names n = Some v ↔ n ∈ map tool_name (all_tool_calls t) ∧ v = VInt (calls_named n (all_tool_calls t))) ∧
  (dget (totals t) "responses_with_usage" = dget (totals t) "model_calls" ↔
     ∃ i o, dget (totals t) "input_tokens" = VInt i ∧ dget (totals t) "output_tokens" = VInt o).
Proof.
  assert (Hopt : ∀ o n, opt_int o = VInt n ↔ o = Some n) by (intros [z|] n; cbn; split; congruence).
  assert (Htok : ∀ l n, opt_int (sum_or_none l) = VInt n ↔ ∃ zs, l = map Some zs ∧ n = Zsum zs)
    by (intros; by rewrite Hopt, sum_or_none_spec).
  split_and!.
  - intros name f Hin n. rewrite !elem_of_cons in Hin.
    destruct Hin as [[= -> ->]|[[= -> ->]|[[= -> ->]|[[= -> ->]|[]%not_elem_of_nil]]]]; apply Htok.
  - intros w. change (dget (totals t) "wall_ms") with (opt_int (wall_ms t)). rewrite Hopt. unfold wall_ms. split.
    + destruct (py_max (ends t)) as [e|] eqn:Ee; [|done]. destruct (py_min _) as [s|] eqn:Es; [|done].
      intros [= <-]. exists s, e. apply py_max_spec in Ee. apply py_min_spec in Es. done.
    + intros (s & e & -> & He%py_max_spec & Hs%py_min_spec). by rewrite He, Hs.
  - eexists. split; [reflexivity|]. set (names := by_name _).
    assert (Hk : ∀ n, n ∈ keys names ↔ n ∈ map tool_name (all_tool_calls t)).
    { intros n. unfold names, by_name. rewrite (proj2 (by_name_fold _ [] n)).
      split; [intros [[]%not_elem_of_nil|?]; done|by right]. }
    split.
    + unfold keys at 1. rewrite map_map. cbn [fst]. rewrite map_id. apply Sorted_merge_sort, _.
    + intros n v. rewrite assoc_map_key. unfold names at 2. unfold by_name at 1.
      rewrite (proj1 (by_name_fold _ [] n)). rewrite <-Hk, <-elem_of_sorted_strings, <-elem_str_spec.
      destruct (elem_str n _); [|naive_solver]. split; [by intros [= <-]|by intros [_ ->]].
  - change (dget (totals t) "input_tokens") with (opt_int (sum_or_none (map input_tokens (all_calls t)))).
    change (dget (totals t) "output_tokens") with (opt_int (sum_or_none (map output_tokens (all_calls t)))).
    change (len (List.filter has_usage (all_calls t)) = len (all_calls t) ↔
      ∃ i o, opt_int (sum_or_none (map input_tokens (all_calls t))) = VInt i ∧
             opt_int (sum_or_none (map output_tokens (all_calls t))) = VInt o).
    transitivity (Forall (λ c, has_usage c = true) (all_calls t)); [apply filter_length_all|].
    setoid_rewrite Htok. apply usage_totals.
Qed.

(** ** Attribution *)

#[export] Instance change_le_trans : Transitive change_le.
Proof. intros x y z [H|[H L]] [H'|[H' L']]; unfold change_le; [left; lia..|right; split; [congruence|by etrans]]. Qed.
#[export] Instance change_le_total : Total change_le.
Proof.
  intros x y. unfold change_le. destruct (Z.lt_trichotomy x.2 y.2) as [H|[H|H]]; auto.
  destruct (total String.le x.1 y.1); auto.
Qed.

(** The change an agent gets for a file it wrote. *)
Definition wrote (before after : list (string * Z)) (a : Agent) (p : string) (at_time : Z) : Prop :=
  (p, at_time) ∈ after ∧ assoc before p ≠ Some at_time ∧
  ∃ c, c ∈ commands a ∧ (cmd_started_ms c ≤ at_time)%Z ∧
    ∀ e, (cmd_ended_ms c = Some e ∨ (cmd_ended_ms c = None ∧ agent_ended_ms a = Some e)) → (at_time ≤ e)%Z.

Lemma existsb_contains a at_time :
  existsb (contains at_time) (intervals a) = true ↔
  ∃ c, c ∈ commands a ∧ (cmd_started_ms c ≤ at_time)%Z ∧
    ∀ e, (cmd_ended_ms c = Some e ∨ (cmd_ended_ms c = None ∧ agent_ended_ms a = Some e)) → (at_time ≤ e)%Z.
Proof.
  unfold intervals. rewrite existsb_exists. setoid_rewrite in_map_iff. split.
  - intros (i & (c & <- & Hc) & [H1%Z.leb_le H2]%andb_true_iff). cbn in H1, H2.
    exists c. split; [by apply list_elem_of_In|]. split; [done|]. intros e [He|[Hc' He]].
    + rewrite He in H2. by apply Z.leb_le.
    + rewrite Hc', He in H2. by apply Z.leb_le.
  - intros (c & Hc%list_elem_of_In & H1 & H2). eexists. split; [by exists c|].
    apply andb_true_iff. split; [by apply Z.leb_le|]. cbn.
    destruct (cmd_ended_ms c); [apply Z.leb_le, H2; by left|].
    destruct (agent_ended_ms a); [apply Z.leb_le, H2; by right|done].
Qed.

Lemma attributed_spec before after a ch :
  ch ∈ attributed before after a ↔ ∃ p at_time, wrote before after a p at_time ∧ ch = attribution before (p, at_time).
Proof.
  unfold attributed, wrote. rewrite list_elem_of_fmap. split.
  - intros ([p t] & -> & H). apply list_elem_of_In, filter_In in H as [H1 H2%existsb_contains].
    apply list_elem_of_In in H1. rewrite merge_sort_Permutation in H1. apply list_elem_of_filter in H1 as [Hb Ha].
    by exists p, t.
  - intros (p & t & (Ha & Hb & Hc) & ->). exists (p, t). split; [done|].
    apply list_elem_of_In, filter_In. split; [|by apply existsb_contains].
    apply list_elem_of_In. rewrite merge_sort_Permutation. by apply list_elem_of_filter.
Qed.

Lemma sublist_list_filter {A} (f : A → bool) l : sublist (List.filter f l) l.
Proof. induction l as [|x l IH]; [done|]. cbn. destruct (f x); [by apply sublist_skip|by apply sublist_cons]. Qed.

Lemma NoDup_attributed before after a :
  NoDup (keys after) → NoDup (map change_path (attributed before after a)).
Proof.
  intros H. unfold attributed. rewrite map_map. cbn [change_path attribution].
  change (NoDup (keys (List.filter (λ pa, existsb (contains pa.2) (intervals a)) (merge_sort change_le (written before after))))).
  assert (Hs : NoDup (keys (merge_sort change_le (written before after)))).
  { unfold keys. rewrite merge_sort_Permutation. unfold written. eapply sublist_NoDup; [exact H|].
    apply (fmap_sublist fst), sublist_filter. }
  eapply sublist_NoDup; [exact Hs|]. apply (fmap_sublist fst), sublist_list_filter.
Qed.

Lemma attributed_sorted before after a : Sorted Z.le (map at_ms (attributed before after a)).
Proof.
  unfold attributed. rewrite map_map. cbn [at_ms attribution].
  assert (Hs : StronglySorted change_le (merge_sort change_le (written before after)))
    by (apply Sorted_StronglySorted, Sorted_merge_sort; apply _).
  apply StronglySorted_Sorted. induction Hs as [|x l Hs IH Hx]; [constructor|]. cbn [List.filter].
  destruct (existsb _ _); [|done]. cbn [map]. apply SSorted_cons; [done|].
  apply list.Forall_forall. intros z (y & -> & Hy)%list_elem_of_fmap.
  apply list_elem_of_In, filter_In in Hy as [Hy%list_elem_of_In _].
  destruct (proj1 (list.Forall_forall _ _) Hx y Hy) as [?|[? _]]; lia.
Qed.

(** Attributing shell writes adds to each agent, after its own changes
    and nothing else, one change per file that is new or has another time in the
    second snapshot and whose time lies within a command of the agent (which a
    command without an end extends to the end of the agent, or without bound):
    via the shell, a creation exactly when the first snapshot lacks the file, in
    order of time; the count is that of all additions. *)
Theorem attribution_exact t before after t' n :
  NoDup (keys after) → attribute_shell_writes t before after = (t', n) →
  harness t' = harness t ∧ identity t' = identity t ∧ outcome t' = outcome t ∧ route t' = route t ∧
  ∃ added, agents t' = zip_with with_changes (agents t) added ∧ length added = length (agents t) ∧
    n = sum_list_with length added ∧
    ∀ i a chs, agents t !! i = Some a → added !! i = Some chs →
      NoDup (map change_path chs) ∧ Sorted Z.le (map at_ms chs) ∧
      ∀ ch, ch ∈ chs ↔ ∃ p at_time, wrote before after a p at_time ∧
        ch = {| change_path := p; change_kind := if has_key before p then "edit" else "create";
                at_ms := at_time; via := "shell" |}.
Proof.
  intros Hn [= <- <-]. split_and!; try done. exists (map (attributed before after) (agents t)).
  split_and!.
  - cbn. induction (agents t) as [|a l IH]; [done|]. cbn. by rewrite IH.
  - by rewrite length_map.
  - induction (agents t) as [|a l IH]; [done|]. cbn. by rewrite IH.
  - intros i a chs Ha Hc. rewrite list_lookup_fmap, Ha in Hc. injection Hc as <-. split_and!.
    + by apply NoDup_attributed.
    + apply attributed_sorted.
    + apply attributed_spec.
Qed.

(** ** The waiting step *)

(** An attempt entered the wait exactly when the task states a marker
    and some recorded output of the suite has a line equal to it up to
    surrounding white space; nothing else, such as a missing output or a task
    without a marker, establishes it.  The evidence has one entry per recorded
    invocation, preceded by the lack of a marker and followed by the lack of an
    invocation. *)
Theorem wait_needs_marker outputs marker :
  let w := wait_entry outputs marker in
  (entered w = true ↔ ∃ line e out l, marker_line marker = Some line ∧ e ∈ outputs ∧ dget e "output" = VStr out ∧
     l ∈ str_splitlines out ∧ str_strip l = str_strip line) ∧
  entry_status w = (if entered w then ENTERED else NOT_ESTABLISHED) ∧
  length (evidence w) = length outputs + (match marker_line marker with Some _ => 0 | None => 1 end)
                        + (match outputs with [] => 1 | _ => 0 end).
Proof.
  intros w. split_and!; [|done|].
  - unfold w, wait_entry. cbn [entered]. rewrite existsb_exists. split.
    + intros (b & (e & <- & He%list_elem_of_In)%in_map_iff & Hb). unfold entry_evidence in Hb.
      destruct (dget e "output") as [| | | |out| |] eqn:Eo; try discriminate Hb.
      destruct (marker_line marker) as [line|]; [|discriminate Hb].
      destruct (holds_marker out line) eqn:Eh; [|discriminate Hb].
      apply existsb_exists in Eh as (l & Hl%list_elem_of_In & Hs%String.eqb_eq). by exists line, e, out, l.
    + intros (line & e & out & l & Hm & He & Ho & Hl & Hs). eexists. split.
      { apply in_map_iff. exists e. split; [reflexivity|by apply list_elem_of_In]. }
      unfold entry_evidence. rewrite Ho, Hm. assert (holds_marker out line = true) as ->; [|done].
      apply existsb_exists. exists l. split; [by apply list_elem_of_In|by apply String.eqb_eq].
  - unfold w, wait_entry. cbn [evidence]. rewrite !length_app, !length_map.
    destruct (marker_line marker), outputs; cbn; lia.
Qed.

(** ** Paths *)

(** Every path a command names holds a slash, and none is listed twice. *)
Lemma paths_named_once word t : NoDup (paths_in_command word t).
Proof.
  unfold paths_in_command. assert (H : NoDup (@nil string)) by constructor. revert H.
  generalize (@nil string) as found. generalize (tokens word (S (String.length t)) None (utf8_chars t)).
  intros l. induction l as [|x l IH]; intros found H; [done|]. cbn [fold_left]. apply IH.
  unfold named_step. case_step; [by apply NoDup_set_add|done].
Qed.

(** Calls whose arguments differ in the order of object keys have one digest. *)
Lemma digest_ignores_order v w : same_items v w → arguments_digest v = arguments_digest w.
Proof. intros H%sort_keys_same. unfold arguments_digest, canonical_json. by rewrite H. Qed.

(** ** Examples *)

Definition example_trajectory : Trajectory := {|
  harness := "foe"; identity := [("model", VStr "m")];
  agents := [{| agent_id := "a"; parent_id := None; depth := 0; role := "root"; agent_started_ms := 10; agent_ended_ms := Some 90%Z;
     model_calls := [Build_ModelCall (Some 2%Z) 11 (Some 12%Z) (Some 100%Z) (Some 7%Z) None None];
     commands := [Build_Command 20 None "make" None [] false];
     file_changes := [{| change_path := "x.py"; change_kind := "edit"; at_ms := 15; via := "tool" |}];
     compactions := []; tool_calls := [Build_ToolCall "bash" 20 None false None None] |};
   {| agent_id := "b"; parent_id := Some "a"; depth := 1; role := "worker"; agent_started_ms := 30; agent_ended_ms := None;
     model_calls := []; commands := []; file_changes := []; compactions := [];
     tool_calls := [Build_ToolCall "bash" 31 (Some 32%Z) false None None] |}];
  outcome := {| status := "completed"; code := VNone; outcome_value := VNone; outcome_ended_ms := Some 95%Z |};
  route := "subscription" |}.

Example example_totals :
  dget (totals example_trajectory) "wall_ms" = VInt 85 ∧
  dget (totals example_trajectory) "input_tokens" = VInt 100 ∧
  dget (totals example_trajectory) "cache_read_tokens" = VNone ∧
  dget (totals example_trajectory) "tool_calls_by_name" = VDict [("bash", VInt 2)].
Proof. by vm_compute. Qed.

Example example_decodes :
  Trajectory_from_dict "trajectory" (VDict (Trajectory_to_dict example_trajectory)) = Ok example_trajectory ∧
  Trajectory_from_dict "trajectory" (VDict [("outcome", VDict []); ("agents", VList [VDict [("id", VInt 3)]])]) =
    Err (ValueError "trajectory.agents[0].id: 3 is not a string").
Proof. by vm_compute. Qed.

(** The command of the root has no end: it runs to the end of its agent. *)
Definition example_before : list (string * Z) := [("x.py", 15); ("old", 1)]%Z.
Definition example_after : list (string * Z) := [("new", 50); ("x.py", 40); ("late", 91); ("old", 1)]%Z.

Lemma attribution_exact_witness :
  NoDup (keys example_after) ∧
  (attribute_shell_writes example_trajectory example_before example_after).2 = 2 ∧
  harness (attribute_shell_writes example_trajectory example_before example_after).1 = "foe".
Proof.
  assert (Hn : NoDup (keys example_after)) by (apply (bool_decide_eq_true_1 _); vm_compute; reflexivity).
  split; [exact Hn|]. split; [vm_compute; reflexivity|].
  destruct (attribution_exact example_trajectory example_before example_after _ _ Hn eq_refl) as [H _]. exact H.
Defined.
