(* ===== verification/Invocation.v ===== *)
(** * Which commands run the check suite

    [invokes_run_script] of src/evals/cross_harness/trajectory.py: whether a
    shell command runs [checks/run.sh] or only names it. *)

From Stdlib Require Import Ascii.
From stdpp Require Import base list strings.
From Stdlib Require Import Lia.
From S2P Require Import Prelude PyValue PyText PyJson PyUnicode PyPath JsonText Shlex Trajectory.

(** [_PREFIXES]. *)
Definition PREFIXES : list string := ["bash"; "sh"; "env"; "exec"; "nohup"; "time"; "command"; "stdbuf"].

(** [_SEGMENT.split(text)]: the text is cut at [||], [&&], and at one of [;|&()]
    or a line feed. *)
Definition cuts (c : ascii) : bool := existsb (Ascii.eqb c) [";"; "|"; "&"; newline; "("; ")"]%char.
Definition doubled (c d : ascii) : bool := Ascii.eqb c d && existsb (Ascii.eqb c) ["|"; "&"]%char.
Fixpoint segments (segment : string) (s : string) : list string :=
  match s with
  | EmptyString => [segment]
  | String c rest =>
      if cuts c then
        segment :: match rest with
                   | String d rest' => if doubled c d then segments "" rest' else segments "" rest
                   | EmptyString => segments "" rest
                   end
      else segments (segment +:+ String c "") rest
  end.

(** [_ASSIGNMENT.match(word)]. *)
Definition letter (c : ascii) : bool := byte_in 65 90 c || byte_in 97 122 c || Ascii.eqb c "_"%char.
Fixpoint name_then_equals (s : string) : bool :=
  match s with
  | String c s => Ascii.eqb c "="%char || (letter c || byte_in 48 57 c) && name_then_equals s
  | EmptyString => false
  end.
Definition assignment (word : string) : bool :=
  match word with String c s => letter c && name_then_equals s | EmptyString => false end.

(** [words[index]] where the loops of [index] stop: after leading assignments,
    each prefix program with its options, and [timeout] with its options and
    its duration. *)
Inductive skipping : Type := Assignments | Programs | PrefixOptions | TimeoutOptions.
Definition program (word : string) : string := default "" (last (split_on slash word)).
Fixpoint command_word (at_ : skipping) (words : list string) : option string :=
  match words with
  | [] => None
  | w :: words =>
      let here :=
        if elem_str (program w) PREFIXES then command_word PrefixOptions words
        else if String.eqb (program w) "timeout" then command_word TimeoutOptions words
        else Some w in
      match at_ with
      | Assignments => if assignment w then command_word Assignments words else here
      | PrefixOptions => if starts_with "-" w || assignment w then command_word PrefixOptions words else here
      | TimeoutOptions => if starts_with "-" w then command_word TimeoutOptions words else command_word Programs words
      | Programs => here
      end
  end.
Definition runs_suite (word : string) : bool :=
  elem_str word [RUN_SCRIPT; "./" +:+ RUN_SCRIPT] || ends_with ("/" +:+ RUN_SCRIPT) word.
Definition segment_words (segment : string) : list string :=
  match shell_split segment with Ok words => words | Err _ => split_words segment end.
Definition segment_runs (segment : string) : bool :=
  match command_word Assignments (segment_words segment) with Some w => runs_suite w | None => false end.
Definition invokes_run_script (text : string) : bool := existsb segment_runs (segments "" text).

Example invocations :
  forallb invokes_run_script ["sh checks/run.sh"; "A=1 timeout --signal=KILL 60 bash -x ./checks/run.sh && echo ok"; "cd w; /w/checks/run.sh | tail"] = true ∧
  existsb invokes_run_script ["cat checks/run.sh"; "diff a checks/run.sh"; "echo sh checks/run.sh"; "chmod +x checks/run.sh"] = false.
Proof. split; vm_compute; reflexivity. Qed.

(** The cut is made inside quotes too, so a command that prints the name after
    a semicolon counts as an invocation. *)
Example printed_name_invokes :
  invokes_run_script ("echo " +:+ String dquote ("first; checks/run.sh follows" +:+ String dquote "")) = true.
Proof. vm_compute. reflexivity. Qed.

(** An option's argument given as a word of its own is taken for the duration. *)
Example separate_option_hides : invokes_run_script "timeout -s KILL 60 sh checks/run.sh" = false.
Proof. vm_compute. reflexivity. Qed.

(** ** Commands given as a vector *)

Definition safe_word (w : string) : Prop := w ≠ "" ∧ all_chars safe_char w = true.

Lemma command_word_app m l more w : command_word m l = Some w → command_word m (l ++ more) = Some w.
Proof.
  revert m. induction l as [|x l IH]; intros m H; [done|]. cbn [app command_word] in *.
  destruct m; repeat (case_step; [by apply IH|]); try done; try by apply IH.
Qed.
Lemma segments_first y : ∀ seg, ∃ x rest, segments seg y = (seg +:+ x) :: rest ∧ ∃ t, y = x +:+ t.
Proof.
  induction y as [|c y IH]; intros seg; [exists "", []; rewrite str_app_nil_r; by eauto|]. cbn [segments]. destruct (cuts c).
  - exists "". rewrite str_app_nil_r. by eauto.
  - destruct (IH (seg +:+ String c "")) as (x & rest & -> & t & ->). exists (String c x), rest. rewrite str_app_assoc. by eauto.
Qed.
Lemma segments_uncut p y : ∀ seg, all_chars (λ c, negb (cuts c)) p = true → segments seg (p +:+ y) = segments (seg +:+ p) y.
Proof.
  induction p as [|c p IH]; intros seg H; [by rewrite str_app_nil_r|]. cbn [all_chars] in H. apply andb_true_iff in H as [Hc%negb_true_iff Hp].
  rewrite str_app_cons. cbn [segments]. rewrite Hc, IH by done. by rewrite str_app_assoc.
Qed.

Lemma safe_starts w y : all_chars safe_char w = true → starts_char y = true → starts_char (w +:+ y) = true.
Proof.
  destruct w as [|c w]; [done|]. cbn [all_chars]. rewrite str_app_cons. intros [Hc _]%andb_true_iff _. cbn [starts_char].
  destruct c as [[] [] [] [] [] [] [] []]; vm_compute in Hc; try discriminate Hc; by vm_compute.
Qed.
Lemma safe_not_blank c : safe_char c = true → space_char (String c "") = false ∧ cuts c = false.
Proof. intros H. destruct c as [[] [] [] [] [] [] [] []]; vm_compute in H; try discriminate H; by vm_compute. Qed.
Lemma words_from_safe w : ∀ acc y, all_chars safe_char w = true → starts_char y = true →
  words_from acc (utf8_chars (w +:+ y)) = words_from (reverse (utf8_chars w) ++ acc) (utf8_chars y).
Proof.
  induction w as [|c w IH]; intros acc y H Hy; [done|]. cbn [all_chars] in H. apply andb_true_iff in H as [Hc Hw].
  rewrite str_app_cons, utf8_chars_cons by by apply safe_starts. cbn [words_from]. rewrite (proj1 (safe_not_blank c Hc)), IH by done.
  rewrite utf8_chars_cons; [by rewrite reverse_cons, <-app_assoc|]. rewrite <-(str_app_nil_r w). by apply safe_starts.
Qed.
Lemma split_words_safe w y : safe_word w → starts_char y = true → split_words (w +:+ " " +:+ y) = w :: split_words y.
Proof.
  intros [Hne Hw] Hy. unfold split_words. change (" " +:+ y) with (String " " y).
  rewrite words_from_safe by done. rewrite app_nil_r, utf8_chars_cons by done.
  assert (∃ x r, reverse (utf8_chars w) = x :: r) as (x & r & E).
  { destruct w as [|c w]; [done|]. cbn [all_chars] in Hw. apply andb_true_iff in Hw as [_ Hw].
    rewrite utf8_chars_cons by (rewrite <-(str_app_nil_r w); by apply safe_starts). rewrite reverse_cons.
    destruct (reverse (utf8_chars w)); by eexists _, _. }
  assert (Hu : concat_strings (reverse (x :: r)) = w) by (rewrite <-E, reverse_involutive; apply concat_utf8_chars).
  rewrite E, <-Hu at 1. done.
Qed.
Lemma split_words_last w : safe_word w → split_words w = [w].
Proof.
  intros [Hne Hw]. unfold split_words. rewrite <-(str_app_nil_r w) at 1. rewrite words_from_safe by done. rewrite app_nil_r. cbn [utf8_chars words_from].
  rewrite <-(concat_utf8_chars w) at 2. destruct (reverse (utf8_chars w)) as [|x r] eqn:E.
  - apply (f_equal reverse) in E. rewrite reverse_involutive in E. apply (f_equal concat_strings) in E. by rewrite concat_utf8_chars in E.
  - by rewrite <-E, reverse_involutive.
Qed.

(** Reading a segment that begins with safe words and a blank. *)
Definition spaced (l : list string) (y : string) : string := foldr (λ w t, w +:+ " " +:+ t) y l.
Lemma segment_words_spaced l y : Forall safe_word l → starts_char y = true → ∃ more, segment_words (spaced l y) = l ++ more.
Proof.
  intros Hl Hy. unfold segment_words.
  assert (Hq : shell_split (spaced l y) = (m ← shell_split y; Ok (l ++ m))).
  { induction Hl as [|w l [Hne Hw] _ IH]; [change (spaced [] y) with y; by destruct (shell_split y)|]. cbn [spaced foldr]. fold (spaced l y).
    assert (w = shell_quote w) as E by (unfold shell_quote; rewrite Hw; by destruct (String.eqb_spec w "")).
    rewrite E at 1. rewrite lex_first, IH. by destruct (shell_split y). }
  rewrite Hq. destruct (shell_split y) as [m|]; [by exists m|]. cbn. exists (split_words y). clear Hq.
  induction Hl as [|w l Hw Hl IH]; [done|]. cbn [spaced foldr app]. fold (spaced l y). rewrite split_words_safe; [by rewrite IH|done|].
  destruct l as [|v l]; [done|]. cbn [spaced foldr]. apply Forall_cons in Hl as [[_ Hv] _]. apply safe_starts; [exact Hv|reflexivity].
Qed.

Lemma spaced_app l y : spaced l y = spaced l "" +:+ y.
Proof. induction l as [|w l IH]; [done|]. cbn [spaced foldr]. fold (spaced l y) (spaced l ""). by rewrite IH, !str_app_assoc. Qed.
Lemma all_chars_app f a b : all_chars f (a +:+ b) = all_chars f a && all_chars f b.
Proof. induction a as [|c a IH]; [done|]. rewrite str_app_cons. cbn [all_chars]. by rewrite IH, andb_assoc. Qed.
Lemma safe_uncut w : all_chars safe_char w = true → all_chars (λ c, negb (cuts c)) w = true.
Proof.
  induction w as [|c w IH]; [done|]. cbn [all_chars]. intros [Hc Hw]%andb_true_iff. rewrite (proj2 (safe_not_blank c Hc)). by apply IH.
Qed.
Lemma spaced_uncut l : Forall safe_word l → all_chars (λ c, negb (cuts c)) (spaced l "") = true.
Proof.
  induction 1 as [|w l [_ Hw] _ IH]; [done|]. cbn [spaced foldr]. fold (spaced l ""). rewrite all_chars_app, safe_uncut by done. exact IH.
Qed.
Lemma quote_starts w y : starts_char (shell_quote w +:+ y) = true.
Proof.
  unfold shell_quote. destruct (String.eqb_spec w "") as [->|Hne]; [done|]. destruct (all_chars safe_char w) eqn:Hs; [|done].
  destruct w as [|c w]; [done|]. rewrite str_app_cons. change (starts_char (String c "" +:+ "") = true). apply safe_starts; [|done].
  cbn [all_chars] in *. apply andb_true_iff in Hs as [-> _]. done.
Qed.
Lemma join_starts a args : starts_char (shell_join (a :: args)) = true.
Proof.
  unfold shell_join. cbn [map]. destruct args as [|b args]; [|apply (quote_starts a (" " +:+ join " " (map shell_quote (b :: args))))].
  pose proof (quote_starts a "") as H. by rewrite str_app_nil_r in H.
Qed.
Lemma join_spaced l a args : Forall safe_word l → shell_join (l ++ a :: args) = spaced l (shell_join (a :: args)).
Proof.
  induction 1 as [|w l [Hne Hw] _ IH]; [done|]. cbn [spaced foldr app]. fold (spaced l (shell_join (a :: args))). rewrite <-IH.
  assert (w = shell_quote w) as E by (unfold shell_quote; rewrite Hw; by destruct (String.eqb_spec w "")). rewrite E at 2.
  unfold shell_join. cbn [map]. by destruct l.
Qed.
Lemma safe_join l : Forall safe_word l → all_chars (λ c, negb (cuts c)) (shell_join l) = true.
Proof.
  intros H. destruct l as [|x l _] using rev_ind; [done|]. apply Forall_app in H as [Hl Hx]. apply Forall_cons in Hx as [Hx _]. rewrite join_spaced by done.
  rewrite spaced_app, all_chars_app, spaced_uncut by done. destruct Hx as [Hne Hx]. unfold shell_join. cbn. unfold shell_quote. rewrite Hx.
  destruct (String.eqb x ""); [done|by apply safe_uncut].
Qed.

(** Of a vector whose words need no quoting, the joined command is an
    invocation exactly when the first word after assignments, prefix programs
    and their options names the suite; and it stays one whatever arguments
    follow, however those are quoted and wherever the text is cut in them. *)
Theorem vector_invocation l args : Forall safe_word l →
  invokes_run_script (shell_join l) = match command_word Assignments l with Some w => runs_suite w | None => false end ∧
  (∀ w, command_word Assignments l = Some w → runs_suite w = true → invokes_run_script (shell_join (l ++ args)) = true).
Proof.
  intros Hl. unfold invokes_run_script.
  assert (Hw : existsb segment_runs (segments "" (shell_join l)) = match command_word Assignments l with Some w => runs_suite w | None => false end).
  { rewrite <-(str_app_nil_r (shell_join l)), segments_uncut by by apply safe_join. cbn [segments existsb].
    unfold segment_runs, segment_words. change ("" +:+ shell_join l) with (shell_join l). rewrite split_join_words. by rewrite orb_false_r. }
  split; [exact Hw|]. intros w Hc Hr. destruct args as [|a args]; [by rewrite app_nil_r, Hw, Hc|].
  rewrite join_spaced, spaced_app, segments_uncut by (try apply spaced_uncut; done).
  destruct (segments_first (shell_join (a :: args)) ("" +:+ spaced l "")) as (y & rest & -> & t & Hy). cbn [existsb]. apply orb_true_iff. left.
  change ("" +:+ spaced l "") with (spaced l ""). rewrite <-spaced_app. unfold segment_runs.
  destruct (segment_words_spaced l y Hl) as (more & ->); [|by rewrite (command_word_app _ _ more w Hc)].
  destruct y as [|c y]; [done|]. pose proof (join_starts a args) as Hs. by rewrite Hy in Hs.
Qed.
Lemma vector_invocation_witness :
  let l := ["timeout"; "60"; "sh"; "./checks/run.sh"] in
  command_word Assignments l = Some "./checks/run.sh" ∧ invokes_run_script (shell_join (l ++ ["a; b"; ""; "it's"])) = true.
Proof.
  split; [vm_compute; reflexivity|].
  apply (vector_invocation ["timeout"; "60"; "sh"; "./checks/run.sh"] ["a; b"; ""; "it's"]) with (w := "./checks/run.sh");
    [|vm_compute; reflexivity..]. repeat constructor; vm_compute; try reflexivity; discriminate.
Defined.
