(* ===== verification/Graphs.v ===== *)
(** * The documents the study runs

    src/evals/cross_harness/contracts/graphs.py: the survey, implement, assess,
    repair graph as a contract document, in its four variants.  A path is the
    text [str] gives of it. *)

From Stdlib Require Import Ascii.
From stdpp Require Import base list strings.
From Stdlib Require Import ZArith Lia.
From S2P Require Import Prelude PyValue PyText PyPath.

Definition CHECK : string := "check".
Definition CHECK_WRITES : list string := ["target"; ".check-tmp"].
Definition BLOCK : string := "block".
Definition WRITE_ROOTS : list string := ["crates"; "docs"; "examples"].
Definition EXECUTE_ROOTS : list string := ["/bin"; "/usr/bin"; "/usr/local/bin"].
Definition AUTONOMY_VARIANTS : list string := ["configured"; "ablated"; "unverified"; "lean"].
Definition ROOT_RETRIES : Z := 6.
Definition NODE_RETRIES : Z := 2.
Definition TERMINAL_FIRES : Z := ROOT_RETRIES + 1.
Definition VERIFIED_FIRES : Z := NODE_RETRIES + 1.
Definition NODE_CALLS : string := "unlimited".
Definition PLACEHOLDER_TASK : string := "Complete the task the run supplies in place of this sentence.".
Definition GRAPH_BUDGET_KEYS : list string := ["model_calls"; "seconds"; "input_tokens"; "output_tokens"].

Definition CONTRACT_TEXT : string :=
  "Treat the task text and the workspace checks as the source of truth. "
  +:+ "Limit changes to the files the task requires and preserve everything else, "
  +:+ "including history, archives, encodings, and any file the task names as protected. "
  +:+ "Validate through the strongest interface the task permits. "
  +:+ "Each tool result begins with its log sequence as `[seq N]`; "
  +:+ "cite a successful tool result for every completion-critical claim.".
Definition BLOCK_TEXT : string :=
  "When the task cannot be completed as stated, when it is ambiguous in a way the workspace does not settle, "
  +:+ "or when the goal is unreachable, call `block` with the code that names the reason rather than reporting completion.".
Definition CHECK_INSTRUCTION : string :=
  "Run `check` with no arguments after the final change and before reporting; report what it printed.".

(** ** What a node returns *)

Definition strs (l : list string) : value := VList (map VStr l).
(** The string type with its bounds. *)
Definition text_schema (bounds : dict) : value := VDict (("type", VStr "string") :: bounds).
(** [_string_list]. *)
Definition string_list (max_length max_items min_items : Z) : value :=
  VDict ([("type", VStr "array"); ("items", text_schema [("maxLength", VInt max_length)]); ("maxItems", VInt max_items)]
         ++ if (min_items =? 0)%Z then [] else [("minItems", VInt min_items)]).
(** [_cited]. *)
Definition cited (properties : dict) (required : list string) (min_items max_items : Z) : value :=
  VDict [("type", VStr "array"); ("minItems", VInt min_items); ("maxItems", VInt max_items);
         ("items", VDict [("type", VStr "object");
                          ("properties", VDict (dset properties "seq" (VDict [("type", VStr "integer"); ("minimum", VInt 0)])));
                          ("required", strs (required ++ ["seq"])); ("additionalProperties", VBool false)])].
Definition SUMMARY : value := text_schema [("minLength", VInt 1); ("maxLength", VInt 1000)].
Definition LEARNED : value := cited [("claim", text_schema [("minLength", VInt 1); ("maxLength", VInt 300)])] ["claim"] 1 8.
Definition CHANGED_PATHS : value := string_list 512 64 0.
Definition VALIDATION : value := string_list 1000 32 1.
(** [_report]. *)
Definition returned_report (properties : dict) : value :=
  VDict [("type", VStr "object"); ("properties", VDict properties); ("required", strs (keys properties)); ("additionalProperties", VBool false)].
Definition change_report (unresolved_max : Z) : value :=
  returned_report [("summary", SUMMARY); ("changed_paths", CHANGED_PATHS); ("validation", VALIDATION);
                   ("unresolved_risks", string_list 1000 unresolved_max 0); ("learned", LEARNED)].
Definition assessment_report : value :=
  returned_report [("summary", SUMMARY); ("findings", string_list 1000 32 0); ("validation", VALIDATION);
                   ("unresolved_risks", string_list 1000 16 0); ("learned", LEARNED)].
Definition survey_report : value :=
  returned_report [("summary", SUMMARY); ("unresolved_risks", string_list 1000 16 0); ("learned", LEARNED)].

(** ** The budget *)

(** [_positive]. *)
Definition positive (budget : dict) (key : string) : res (string * value) :=
  v ← dict_index budget key;
  match v with
  | VInt z => if (z <=? 0)%Z then Err (ValueError ("budget." +:+ key +:+ " is " +:+ py_repr v +:+ "; expected a positive integer")) else Ok (key, v)
  | _ => Err (ValueError ("budget." +:+ key +:+ " is " +:+ py_repr v +:+ "; expected a positive integer"))
  end.
Definition lacks (budget : dict) (key : string) : res () := raise_if (negb (has_key budget key)) (ValueError ("budget lacks " +:+ key)).
Definition int_of (v : value) : Z := default 0%Z (as_int v).
(** [_budget], and [check_budget]. *)
Definition check_budget (budget : dict) : res dict :=
  match sorted_set (List.filter (λ k, negb (elem_str k GRAPH_BUDGET_KEYS)) (keys budget)) with
  | unknown :: _ => Err (ValueError ("budget." +:+ unknown +:+ " is not one of " +:+ join ", " GRAPH_BUDGET_KEYS))
  | [] =>
      lacks budget "model_calls";; lacks budget "seconds";;
      limits ← map_res (positive budget) (List.filter (has_key budget) GRAPH_BUDGET_KEYS);
      raise_if (int_of (dget limits "seconds") <? 2)%Z
        (ValueError ("budget.seconds is " +:+ py_str (dget limits "seconds") +:+ "; the check timeout must fit below it, so at least 2 is required"));;
      Ok limits
  end.
Definition CHECK_TIMEOUT_FLOOR : Z := 90.
Definition check_timeout (seconds : Z) : Z := (1 `max` ((seconds - 1) `min` (CHECK_TIMEOUT_FLOOR `max` (seconds / 10))))%Z.

(** ** Paths *)

(** [_absolute]. *)
Definition absolute_path (path key : string) : res string :=
  if isabs path then Ok (path_str path) else Err (ValueError (key +:+ " is " +:+ str_repr (path_str path) +:+ "; expected an absolute path")).
(** [_write_root]. *)
Definition write_root (workspace root : string) : res string :=
  if String.eqb root "" || isabs root || match path_parts root with [] => true | parts => elem_str ".." parts end then
    Err (ValueError ("write_roots entry " +:+ str_repr root +:+ " is not a relative path to a directory below the workspace"))
  else Ok (path_join workspace root).

(** ** The shape of a document *)

Record Shape : Type := {
  workspace : string; check_script : string; limits : dict; write_roots : list string; execute : list string;
  stopping : bool; verified : bool;
}.
Definition check_def (s : Shape) : value :=
  VDict [("exec", VStr (check_script s));
         ("description", VStr ("Runs the workspace checks with no arguments. Prints one finding per line and nothing when every check passes; "
                               +:+ "the exit status is zero either way."));
         ("instruction", VStr CHECK_INSTRUCTION); ("timeout_seconds", VInt (check_timeout (int_of (dget (limits s) "seconds"))))].
Definition instructions (role : string) (stops : bool) : value :=
  VDict [("10-role", VStr role); ("20-contract", VStr (if stops then CONTRACT_TEXT +:+ " " +:+ BLOCK_TEXT else CONTRACT_TEXT))].
(** [with_check_writes]. *)
Definition covered (roots : list string) (path : string) : bool := elem_str path roots || existsb (is_relative_to path) roots.
Definition with_check_writes (s : Shape) (roots : list string) : list string :=
  roots ++ List.filter (λ path, negb (covered roots path)) (map (path_join (workspace s)) CHECK_WRITES).
Definition root_write (s : Shape) : list string := with_check_writes s (write_roots s).
(** [_Shape.tools]. *)
Definition offered (s : Shape) (names : list string) : list string := List.filter (λ n, stopping s || negb (String.eqb n BLOCK)) names.
(** What a node may write. *)
Definition node_writes (s : Shape) (selected : list string) : list string :=
  let write := if elem_str "edit" selected then write_roots s else [] in
  if elem_str CHECK selected then with_check_writes s write else write.
(** [_Shape.contract]. *)
Definition contract (s : Shape) (name role : string) (tools : list string) (returns : value) (budget : dict) : dict :=
  let selected := offered s tools in
  let write := node_writes s selected in
  [("name", VStr name); ("instructions", instructions role (elem_str BLOCK selected)); ("tools", strs selected);
   ("grants", VDict ([("read", strs [workspace s]); ("execute", strs (execute s))] ++ match write with [] => [] | _ => [("write", strs write)] end));
   ("budget", VDict (dupdate [("model_calls", VStr NODE_CALLS)] budget)); ("done_when", VDict [("returns", returns)])]
  ++ if elem_str CHECK selected then [("tool_defs", VDict [(CHECK, check_def s)])] else [].
(** [_Shape.node]. *)
Definition node (s : Shape) (model : dict) (follows : list string) (verify : bool) (extra : dict) : dict :=
  let n := [("model", VDict model); ("follows", strs follows)]
           ++ if verify && verified s then [("verify", VStr CHECK); ("retries", VInt NODE_RETRIES); ("max_fires", VInt VERIFIED_FIRES)] else [] in
  let n := dupdate n extra in
  if verified s then n else dpop n "max_fires".
(** [node.get("max_fires", 1)], which is added to a sum. *)
Definition fires (n : dict) : res Z :=
  let v := dget_or n "max_fires" (VInt 1) in
  match as_int v with
  | Some z => Ok z
  | None => Err (TypeError ("unsupported operand type(s) for +: 'int' and '" +:+ type_name v +:+ "'"))
  end.
Definition sum (l : list Z) : Z := foldr Z.add 0%Z l.
(** [_Shape.document]. *)
Definition document (s : Shape) (name role : string) (tools : list string) (nodes : list (string * dict)) (task : string) (budget : dict) : res dict :=
  counts ← map_res (λ n, fires n.2) nodes;
  Ok ([("version", VInt 4); ("name", VStr name); ("instructions", VDict [("10-role", VStr role)]); ("tools", strs (offered s tools));
       ("tool_defs", VDict [(CHECK, check_def s)]);
       ("grants", VDict [("read", strs [workspace s]); ("write", strs (root_write s)); ("execute", strs (execute s))]);
       ("budget", VDict (dupdate (dset (limits s) "max_episodes" (VInt (1 + sum counts))) budget))]
      ++ (if verified s then [("done_when", VDict [("verify", VStr CHECK); ("retries", VInt ROOT_RETRIES)])] else [])
      ++ [("workflow", VDict [("nodes", VDict (map (λ n, (n.1, VDict n.2)) nodes)); ("recovery", VDict [("enabled", VBool false)])]);
          ("task", VStr task)]).

(** The first write root given twice, of each root as given and as a path. *)
Fixpoint repeated (seen : list string) (l : list (string * string)) : option string :=
  match l with
  | [] => None
  | (given, path) :: l => if elem_str path seen then Some given else repeated (seen ++ [path]) l
  end.
(** [_shape]. *)
Definition shape (workspace check : string) (budget : dict) (root_files : bool) (roots execute : list string) (stopping verified : bool) : res Shape :=
  workspace ← absolute_path workspace "workspace";
  check ← absolute_path check "check";
  write ← (if root_files then Ok [workspace] else map_res (write_root workspace) roots);
  raise_if (match write with [] => true | _ => false end) (ValueError "write_roots is empty; a node that edits needs at least one write root");;
  match repeated [] (if root_files then [(workspace, workspace)] else zip roots write) with
  | Some root => Err (ValueError ("write_roots entry " +:+ str_repr root +:+ " repeats an earlier entry"))
  | None =>
      limits ← check_budget budget;
      Ok {| workspace := workspace; check_script := check; limits := limits; write_roots := write; execute := execute;
            stopping := stopping; verified := verified |}
  end.

(** ** The graph *)

Definition EDITING_TOOLS : list string := ["read"; "grep"; "edit"; "bash"; CHECK; "block"].
Definition CHANGE_CLOSING : string := "Report every changed path, the validation you observed, unresolved risks, and cited evidence.".
Definition survey_contract (s : Shape) : dict :=
  contract s "survey"
    ("Read the task and the workspace before anything changes. Find the files the task names, the checks that cover them, "
     +:+ "and the conventions the workspace states. Report what you found and what stays uncertain. Change nothing.")
    ["read"; "grep"; "bash"] survey_report [].
Definition implement_role (lean : bool) : string :=
  (if lean
   then "Read the task and the workspace before anything changes: the files the task names, the checks that cover them, "
        +:+ "and the conventions the workspace states. Then implement the task. Make the smallest sufficient change. "
   else "Implement the task in the workspace, using the survey. Make the smallest sufficient change. ") +:+ CHANGE_CLOSING.
Definition implement_contract (s : Shape) (lean : bool) : dict :=
  contract s "implement" (implement_role lean) EDITING_TOOLS (change_report 16) [].
Definition assess_contract (s : Shape) : dict :=
  contract s "assess"
    ("Assess whether the workspace satisfies the task. Treat the implementation report as unverified. "
     +:+ "Inspect and test without editing any file. For behavior the task parameterizes, test materially different valid inputs "
     +:+ "through the same public interface. Choose `accept` only with evidence for every requirement and no unresolved risk. "
     +:+ "Otherwise choose `repair` and return findings a reader can reproduce.")
    ["read"; "grep"; "bash"; CHECK] assessment_report [].
Definition repair_contract (s : Shape) : dict :=
  contract s "repair"
    ("Repair the assessment's findings. Treat every finding and unresolved risk as an obligation. "
     +:+ "Reproduce each finding before changing a file, then resolve it with the smallest sufficient change or show that it "
     +:+ "cannot affect a task requirement. Return no unresolved risks, every changed path, the validation you observed, "
     +:+ "and cited evidence.")
    EDITING_TOOLS (change_report 0) [].
Definition graph_nodes (s : Shape) (lean : bool) : list (string * dict) :=
  (if lean then [] else [("survey", node s (survey_contract s) ["task"] false [])])
  ++ [("implement", node s (implement_contract s lean) (if lean then ["task"] else ["task"; "survey"]) true []);
      ("assess", node s (assess_contract s) ["task"; "implement"] false
         [("branches", VDict [("accept", VList []); ("repair", strs ["repair"])]); ("max_fires", VInt TERMINAL_FIRES)]);
      ("repair", node s (repair_contract s) ["task"; "implement"; "assess"] true [("terminal", VBool true); ("max_fires", VInt TERMINAL_FIRES)])].
Definition stops_under (variant : string) : bool := negb (String.eqb variant "ablated").
Definition verifies_under (variant : string) : bool := negb (elem_str variant ["ablated"; "unverified"]).
(** The name of a variant's document. *)
Definition document_name (variant : string) : string := if String.eqb variant "configured" then "autonomy" else "autonomy-" +:+ variant.
Definition ROOT_ROLE : string := "Run the declared workflow against the task in the workspace.".
Definition autonomy (workspace check : string) (budget : dict) (variant : string) (root_files : bool) (roots execute : list string) (task : string) : res dict :=
  raise_if (negb (elem_str variant AUTONOMY_VARIANTS))
    (ValueError ("variant is " +:+ str_repr variant +:+ "; expected one of " +:+ join ", " AUTONOMY_VARIANTS));;
  let lean := String.eqb variant "lean" in
  s ← shape workspace check budget root_files roots execute (stops_under variant) (verifies_under variant);
  document s (document_name variant) ROOT_ROLE EDITING_TOOLS (graph_nodes s lean) task
    [("max_depth", VInt 1)].

(** ** The variants *)

(** The document under other mechanisms, everything else the same. *)
Definition with_mechanisms (s : Shape) (stops verifies : bool) : Shape :=
  {| workspace := workspace s; check_script := check_script s; limits := limits s; write_roots := write_roots s; execute := execute s;
     stopping := stops; verified := verifies |}.
Lemma shape_mechanisms ws ck b rf roots ex stops verifies :
  shape ws ck b rf roots ex stops verifies = (s ← shape ws ck b rf roots ex true true; Ok (with_mechanisms s stops verifies)).
Proof.
  unfold shape. destruct (absolute_path ws _) as [w|]; [|done]. cbn. destruct (absolute_path ck _) as [c|]; [|done]. cbn.
  destruct (if rf then _ else _) as [l|]; [|done]. cbn. destruct (raise_if _ _); [|done]. cbn. destruct (repeated _ _); [done|].
  by destruct (check_budget b).
Qed.

(** A document with its nodes, or one of its blocks, changed. *)
Definition at_key (k : string) (f : value → value) (d : dict) : dict := dset d k (f (dget d k)).
Definition in_dict (f : dict → dict) (v : value) : value := VDict (f (dict_or_empty v)).
Definition nodes_of (d : dict) : dict := dict_or_empty (dget (dict_or_empty (dget d "workflow")) "nodes").
Definition map_nodes (f : dict → dict) (d : dict) : dict :=
  at_key "workflow" (in_dict (at_key "nodes" (in_dict (map (λ n, (n.1, in_dict f n.2)))))) d.
Definition renamed (name : string) (d : dict) : dict := dset d "name" (VStr name).
(** Without the verifying mechanism: no verifier keys, and an episode for each node. *)
Definition without_verifier (d : dict) : dict :=
  at_key "budget" (in_dict (at_key "max_episodes" (λ _, VInt (1 + Z.of_nat (length (nodes_of d))))))
    (map_nodes (λ n, dpop (dpop (dpop n "verify") "retries") "max_fires") (dpop d "done_when")).
(** Without the stopping mechanism: no [block], and no instruction to call it. *)
Definition without_block (tools : value) : value :=
  VList (List.filter (λ t, negb (is_string BLOCK t)) (list_or_empty tools)).
Definition silenced (contract : dict) : dict :=
  at_key "instructions" (in_dict (at_key "20-contract" (λ _, VStr CONTRACT_TEXT))) (at_key "tools" without_block contract).
Definition without_stopping (d : dict) : dict :=
  at_key "tools" without_block (map_nodes (at_key "model" (in_dict silenced)) d).

(** Without the survey: the implementing node follows the task alone and reads
    the workspace itself, and the survey's episode is not counted. *)
Definition reads_itself (n : dict) : dict :=
  at_key "model" (in_dict (at_key "instructions" (in_dict (at_key "10-role" (λ _, VStr (implement_role true))))))
    (at_key "follows" (λ _, strs ["task"]) n).
Definition without_survey (d : dict) : dict :=
  at_key "budget" (in_dict (at_key "max_episodes" (λ v, VInt (int_of v - 1))))
    (at_key "workflow" (in_dict (at_key "nodes" (in_dict (λ nodes, at_key "implement" (in_dict reads_itself) (dpop nodes "survey"))))) d).

(** The limits a budget gives: the two required ones, and the token ceilings it states. *)
Definition limits_of (calls seconds : Z) (input output : option Z) : dict :=
  [("model_calls", VInt calls); ("seconds", VInt seconds)]
  ++ match input with Some z => [("input_tokens", VInt z)] | None => [] end
  ++ match output with Some z => [("output_tokens", VInt z)] | None => [] end.
Lemma positive_ok b k kv : positive b k = Ok kv → ∃ z, (0 < z)%Z ∧ assoc b k = Some (VInt z) ∧ kv = (k, VInt z).
Proof.
  unfold positive, dict_index. destruct (assoc b k) as [v|]; [|done]. cbn. destruct v as [| |z| | | |]; try done.
  destruct (Z.leb_spec z 0); [done|]. intros [= <-]. by exists z.
Qed.
Lemma budget_accepted b l : check_budget b = Ok l →
  (∀ k, k ∈ keys b → k ∈ GRAPH_BUDGET_KEYS) ∧
  ∃ c t i o, l = limits_of c t i o ∧ (0 < c ∧ 2 <= t)%Z ∧ (∀ z, i = Some z → (0 < z)%Z) ∧ (∀ z, o = Some z → (0 < z)%Z) ∧
    ∀ k, k ∈ GRAPH_BUDGET_KEYS → assoc l k = assoc b k.
Proof.
  unfold check_budget. destruct (sorted_set _) as [|u us] eqn:Eu; [|done]. intros H. split.
  { intros k Hk. destruct (elem_str k GRAPH_BUDGET_KEYS) eqn:Ek; [by apply elem_str_spec|]. exfalso.
    assert (Hin : k ∈ sorted_set (List.filter (λ k, negb (elem_str k GRAPH_BUDGET_KEYS)) (keys b))); [|by rewrite Eu in Hin; apply elem_of_nil in Hin].
    apply elem_of_sorted_set, list_elem_of_In, List.filter_In. by rewrite list_elem_of_In in Hk; rewrite Ek. }
  apply res_bind_ok in H as ([] & Hc%raise_if_ok%negb_false_iff & H). apply res_bind_ok in H as ([] & Hs%raise_if_ok%negb_false_iff & H).
  apply res_bind_ok in H as (l' & Hl & H). apply res_bind_ok in H as ([] & Hm%raise_if_ok%Z.ltb_ge & [= ->]).
  cbn [List.filter GRAPH_BUDGET_KEYS] in Hl. rewrite Hc, Hs in Hl.
  apply map_res_Forall2 in Hl. apply Forall2_cons_inv_l in Hl as (kc & l1 & (c & Hc0 & Hca & ->)%positive_ok & Hl & ->).
  apply Forall2_cons_inv_l in Hl as (ks & l2 & (t & Ht0 & Hta & ->)%positive_ok & Hl & ->).
  cbn in Hm. unfold has_key in *.
  destruct (assoc b "input_tokens") eqn:Hi; [apply Forall2_cons_inv_l in Hl as (ki & l3 & (i & Hi0 & Hia & ->)%positive_ok & Hl & ->); rewrite Hia in Hi|];
  (destruct (assoc b "output_tokens") eqn:Ho; [apply Forall2_cons_inv_l in Hl as (ko & l4 & (o & Ho0 & Hoa & ->)%positive_ok & Hl & ->); rewrite Hoa in Ho|]);
  apply Forall2_nil_inv_l in Hl as ->;
  [exists c, t, (Some i), (Some o)|exists c, t, (Some i), None|exists c, t, None, (Some o)|exists c, t, None, None];
  (split_and!; [done|done|done|by intros z [= <-]|by intros z [= <-]|]);
  intros k [->|[->|[->|[->|[]%elem_of_nil]%elem_of_cons]%elem_of_cons]%elem_of_cons]%elem_of_cons; by rewrite ?Hca, ?Hta, ?Hi, ?Ho.
Qed.
Lemma shape_ok ws ck b rf roots ex s : shape ws ck b rf roots ex true true = Ok s →
  isabs ws = true ∧ workspace s = path_str ws ∧ isabs ck = true ∧ check_script s = path_str ck ∧ execute s = ex ∧
  check_budget b = Ok (limits s) ∧ write_roots s ≠ [] ∧ NoDup (write_roots s) ∧
  if rf then write_roots s = [workspace s] else map_res (write_root (workspace s)) roots = Ok (write_roots s).
Proof.
  unfold shape, absolute_path. destruct (isabs ws); [|done]. destruct (isabs ck); [|done]. cbn. intros H.
  apply res_bind_ok in H as (w & Hw & H). apply res_bind_ok in H as (u & Hu & H). apply raise_if_ok in Hu.
  destruct (repeated _ _) eqn:Er; [done|]. apply res_bind_ok in H as (l & Hl & [= <-]). cbn.
  assert (Hn : w ≠ []) by by intros ->. split_and!; try done.
  - destruct rf; [injection Hw as <-; apply NoDup_singleton|].
    assert (Hz : ∀ l seen, repeated seen l = None → NoDup (map snd l) ∧ ∀ p, p ∈ map snd l → p ∉ seen).
    { clear. induction l as [|[g p] l IH]; intros seen; [by split; [constructor|intros ? ?%elem_of_nil]|]. cbn. destruct (elem_str p seen) eqn:E; [done|].
      apply elem_str_false in E. intros [Hl Hs]%IH. split.
      - constructor; [|done]. intros Hp%Hs. by destruct Hp; apply elem_of_app; right; left.
      - intros q [->|Hq]%elem_of_cons; [done|]. intros Hin. apply (Hs q Hq), elem_of_app. by left. }
    apply Hz in Er as [Er _]. rewrite snd_zip in Er; [done|]. apply map_res_Forall2, Forall2_length in Hw. lia.
  - destruct rf; [by injection Hw as <-|done].
Qed.

(** What [autonomy] builds on a shape. *)
Definition graph_on (s : Shape) (variant : string) (task : string) : res dict :=
  let t := with_mechanisms s (stops_under variant) (verifies_under variant) in
  document t (document_name variant) ROOT_ROLE EDITING_TOOLS (graph_nodes t (String.eqb variant "lean")) task [("max_depth", VInt 1)].
Lemma autonomy_on ws ck b variant rf roots ex task : variant ∈ AUTONOMY_VARIANTS →
  autonomy ws ck b variant rf roots ex task = (s ← shape ws ck b rf roots ex true true; graph_on s variant task).
Proof.
  intros Hv%elem_str_spec. unfold autonomy. rewrite Hv, shape_mechanisms. cbn [negb raise_if mbind res_bind].
  by destruct (shape ws ck b rf roots ex true true).
Qed.
Lemma autonomy_ok ws ck b variant rf roots ex task d : autonomy ws ck b variant rf roots ex task = Ok d →
  variant ∈ AUTONOMY_VARIANTS ∧ ∃ s, shape ws ck b rf roots ex true true = Ok s ∧ graph_on s variant task = Ok d.
Proof.
  intros H. assert (Hv : variant ∈ AUTONOMY_VARIANTS).
  { unfold autonomy in H. apply res_bind_ok in H as (u & Hu & _). by apply raise_if_ok, negb_false_iff, elem_str_spec in Hu. }
  split; [done|]. rewrite autonomy_on in H by done. apply res_bind_ok in H as (s & Hs & H). by exists s.
Qed.
Lemma variant_cases v (P : string → Prop) : v ∈ AUTONOMY_VARIANTS → P "configured" → P "ablated" → P "unverified" → P "lean" → P v.
Proof. by intros [->|[->|[->|[->|[]%elem_of_nil]%elem_of_cons]%elem_of_cons]%elem_of_cons]%elem_of_cons ????. Qed.

Lemma graph_variants s task c t i o : limits s = limits_of c t i o →
  ∃ d, graph_on s "configured" task = Ok d ∧
    graph_on s "unverified" task = Ok (renamed "autonomy-unverified" (without_verifier d)) ∧
    graph_on s "ablated" task = Ok (renamed "autonomy-ablated" (without_stopping (without_verifier d))) ∧
    graph_on s "lean" task = Ok (renamed "autonomy-lean" (without_survey d)).
Proof.
  destruct s as [ws ck L wr ex st ve]. cbn [limits]. intros ->. eexists. split; [reflexivity|].
  split_and!; destruct i, o; reflexivity.
Qed.

(** The variants differ in the two mechanisms and the survey alone:
    one input is accepted for all four or for none; the unverified document is
    the configured one without verifier keys and with an episode for each node;
    the ablated one is that one without [block] and without the instruction to
    call it; and the lean one is the configured one without the survey node,
    whose work the implementing node is told to do. *)
Theorem variants_isolate_mechanisms ws ck b rf roots ex task :
  let build v := autonomy ws ck b v rf roots ex task in
  (∀ v, v ∈ AUTONOMY_VARIANTS → is_ok (build v) = is_ok (build "configured")) ∧
  ∀ d, build "configured" = Ok d →
    build "unverified" = Ok (renamed "autonomy-unverified" (without_verifier d)) ∧
    build "ablated" = Ok (renamed "autonomy-ablated" (without_stopping (without_verifier d))) ∧
    build "lean" = Ok (renamed "autonomy-lean" (without_survey d)).
Proof.
  cbv beta zeta. rewrite !(autonomy_on ws ck b) by (apply elem_str_spec; reflexivity).
  assert (Hg : ∀ s, shape ws ck b rf roots ex true true = Ok s → ∃ c t i o, limits s = limits_of c t i o).
  { intros s (_ & _ & _ & _ & _ & (_ & c & t & i & o & Hl & _)%budget_accepted & _)%shape_ok. by exists c, t, i, o. }
  split.
  - intros v Hv. rewrite autonomy_on by done. destruct (shape ws ck b rf roots ex true true) as [s|] eqn:Es; [|done].
    cbn [mbind res_bind].
    destruct (Hg s eq_refl) as (c & t & i & o & Hl). destruct (graph_variants s task c t i o Hl) as (d & E1 & E2 & E3 & E4).
    rewrite E1. apply (variant_cases v (λ v, is_ok (graph_on s v task) = true)); [done|by rewrite E1|by rewrite E3|by rewrite E2|by rewrite E4].
  - intros d H. apply res_bind_ok in H as (s & Es & H). rewrite Es. cbn [mbind res_bind]. destruct (Hg s Es) as (c & t & i & o & Hl).
    destruct (graph_variants s task c t i o Hl) as (d' & E1 & E2 & E3 & E4). rewrite H in E1. injection E1 as <-. done.
Qed.

(** ** Grants *)

Definition str_list (v : value) : list string := omap as_str (list_or_empty v).
Definition grant_list (contract : dict) (key : string) : list string := str_list (dget (dict_or_empty (dget contract "grants")) key).
(** The contracts of a document: each node's by name. *)
Definition models_of (d : dict) : list (string * dict) :=
  map (λ n, (n.1, dict_or_empty (dget (dict_or_empty n.2) "model"))) (nodes_of d).

Lemma str_list_strs l : str_list (strs l) = l.
Proof. unfold str_list, strs, list_or_empty. cbn. induction l as [|x l IH]; [done|]. cbn. by f_equal. Qed.
Lemma dget_map_str d k : dget (map (λ n, (n.1, VDict n.2)) d) k = from_option VDict VNone (assoc d k).
Proof. unfold dget. induction d as [|[k' v] d IH]; [done|]. cbn. by destruct (String.eqb k' k). Qed.

(** What the contract of a node says, read back from the document. *)
Lemma contract_reads s name role tools returns budget : let m := contract s name role tools returns budget in
  grant_list m "read" = [workspace s] ∧ grant_list m "execute" = execute s ∧ grant_list m "write" = node_writes s (offered s tools).
Proof.
  unfold grant_list, contract. cbn -[strs str_list node_writes offered]. rewrite !str_list_strs. split_and!; [done|done|].
  set (w := node_writes _ _). clearbody w. destruct w as [|x w]; [done|]. change (str_list (strs (x :: w)) = x :: w). by rewrite str_list_strs.
Qed.
(** The nodes of a document, and its own grants. *)
Lemma document_reads t name role tools nodes task budget d : document t name role tools nodes task budget = Ok d →
  nodes_of d = map (λ n, (n.1, VDict n.2)) nodes ∧
  grant_list d "read" = [workspace t] ∧ grant_list d "execute" = execute t ∧ grant_list d "write" = root_write t.
Proof.
  unfold document. intros H. apply res_bind_ok in H as (counts & _ & [= <-]). unfold grant_list.
  destruct (verified t); cbn [app]; (split; [reflexivity|]); cbn -[strs str_list root_write]; by rewrite !str_list_strs.
Qed.
Lemma node_model s model follows verify extra : has_key extra "model" = false →
  dict_or_empty (dget (node s model follows verify extra) "model") = model.
Proof.
  intros H. unfold node. assert (Hd : ∀ e (n : dict), has_key e "model" = false → dget (dupdate n e) "model" = dget n "model").
  { clear. induction e as [|[k v] e IH]; intros n He; [done|]. unfold has_key in *. cbn [assoc] in He.
    change (dupdate n ((k, v) :: e)) with (dupdate (dset n k v) e).
    destruct (String.eqb_spec k "model") as [->|Hne]; [done|]. rewrite IH by done. unfold dget. by rewrite assoc_dset_ne. }
  assert (Hp : ∀ n : dict, dget (dpop n "max_fires") "model" = dget n "model").
  { clear. induction n as [|[k v] n IH]; [done|]. unfold dget in *. cbn. destruct (String.eqb_spec k "max_fires") as [->|]; [done|].
    cbn. by destruct (String.eqb k "model"). }
  destruct (verified s); rewrite ?Hp, Hd by done; by destruct verify.
Qed.

(** No grant lies inside another. *)
Fixpoint separate (l : list string) : Prop :=
  match l with
  | [] => True
  | p :: l => (∀ q, q ∈ l → is_relative_to p q = false ∧ is_relative_to q p = false) ∧ separate l
  end.
Lemma separate_app l m : separate (l ++ m) ↔
  separate l ∧ separate m ∧ ∀ p q, p ∈ l → q ∈ m → is_relative_to p q = false ∧ is_relative_to q p = false.
Proof.
  induction l as [|p l IH]; cbn.
  - split; [intros H; split_and!; [done|done|by intros ? ? ?%elem_of_nil]|by intros (_ & H & _)].
  - rewrite IH. split.
    + intros [Hp (Hl & Hm & Hx)]. split_and!; [intros q Hq; apply Hp, elem_of_app; by left|done|done|].
      intros a q [->|Ha]%elem_of_cons Hq; [apply Hp, elem_of_app; by right|by apply Hx].
    + intros ([Hp Hl] & Hm & Hx). split_and!; [|done|done|intros a q Ha Hq; apply Hx; [by right|done]].
      intros q [Hq|Hq]%elem_of_app; [by apply Hp|apply Hx; [by left|done]].
Qed.
Lemma separate_filter f l : separate l → separate (List.filter f l).
Proof.
  induction l as [|p l IH]; [done|]. cbn. intros [Hp Hl]. destruct (f p); [|by apply IH]. cbn. split; [|by apply IH].
  intros q Hq. apply Hp. apply list_elem_of_In, List.filter_In in Hq as [Hq _]. by apply list_elem_of_In.
Qed.
Lemma relative_parts p q : is_relative_to p q = true ↔ path_parts q `prefix_of` path_parts p.
Proof. unfold is_relative_to. apply bool_decide_eq_true. Qed.
Lemma relative_refl p : is_relative_to p p = true.
Proof. by apply relative_parts. Qed.

Definition check_dirs (s : Shape) : list string := map (path_join (workspace s)) CHECK_WRITES.
Lemma check_dirs_separate s : isabs (workspace s) = true → separate (check_dirs s).
Proof.
  intros Hw.
  assert (∀ a b, isabs a = false → isabs b = false → path_parts a = [a] → path_parts b = [b] → a ≠ b →
    is_relative_to (path_join (workspace s) a) (path_join (workspace s) b) = false) as H.
  { intros a b Ha Hb Pa Pb Hne. apply not_true_iff_false. rewrite relative_parts, !path_join_parts, Pa, Pb by done.
    intros [k E]. apply (f_equal (drop (length (path_parts (workspace s))))) in E. rewrite <-app_assoc, !drop_app_length in E. by injection E. }
  change (check_dirs s) with [path_join (workspace s) "target"; path_join (workspace s) ".check-tmp"]. cbn [separate].
  split_and!; [|by intros ? ?%elem_of_nil|done]. intros q ->%list_elem_of_singleton. split; apply H; done.
Qed.
Lemma with_checks_separate s roots : isabs (workspace s) = true → separate roots →
  (∀ p c, p ∈ roots → c ∈ check_dirs s → is_relative_to p c = true → p = c) → separate (with_check_writes s roots).
Proof.
  intros Hw Hr Hc. unfold with_check_writes. fold (check_dirs s). apply separate_app. split_and!; [done|by apply separate_filter, check_dirs_separate|].
  intros p q Hp Hq. apply list_elem_of_In, List.filter_In in Hq as [Hq Hn%negb_true_iff]. apply list_elem_of_In in Hq.
  unfold covered in Hn. apply orb_false_iff in Hn as [Hn Hx]. apply elem_str_false in Hn. split; apply not_true_iff_false; intros H.
  - apply (Hc p q Hp Hq) in H as ->. done.
  - assert (existsb (is_relative_to q) roots = true); [|congruence]. apply existsb_exists. exists p. by rewrite <-list_elem_of_In.
Qed.
Lemma check_covered s roots p : p ∈ check_dirs s → covered (with_check_writes s roots) p = true.
Proof.
  intros Hp. unfold covered, with_check_writes. fold (check_dirs s). destruct (covered roots p) eqn:E.
  - unfold covered in E. rewrite existsb_app. apply orb_true_iff in E as [E|E]; [|by rewrite E, orb_true_r].
    apply elem_str_spec in E. rewrite (proj2 (elem_str_spec p _)); [done|]. apply elem_of_app. by left.
  - rewrite (proj2 (elem_str_spec p _)); [done|]. apply elem_of_app. right. apply list_elem_of_In, List.filter_In.
    rewrite E. by rewrite <-list_elem_of_In.
Qed.

Lemma graph_models s variant task d : graph_on s variant task = Ok d →
  let t := with_mechanisms s (stops_under variant) (verifies_under variant) in let lean := String.eqb variant "lean" in
  models_of d = (if lean then [] else [("survey", survey_contract t)])
    ++ [("implement", implement_contract t lean); ("assess", assess_contract t); ("repair", repair_contract t)].
Proof.
  intros H. apply document_reads in H as (Hn & _). cbv zeta. unfold models_of. rewrite Hn. set (t := with_mechanisms _ _ _). clearbody t. clear.
  rewrite map_map. change (map (λ x : string * dict, (x.1, dict_or_empty (dget x.2 "model"))) (graph_nodes t (String.eqb variant "lean"))
    = (if String.eqb variant "lean" then [] else [("survey", survey_contract t)])
      ++ [("implement", implement_contract t (String.eqb variant "lean")); ("assess", assess_contract t); ("repair", repair_contract t)]).
  unfold graph_nodes. rewrite map_app. cbn [map fst snd]. rewrite !node_model by done. f_equal.
  destruct (String.eqb variant "lean"); cbn [map fst snd]; by rewrite ?node_model.
Qed.
Lemma offered_has t l n : n ≠ BLOCK → elem_str n (offered t l) = elem_str n l.
Proof.
  intros Hn. unfold offered. apply eq_true_iff_eq. rewrite !elem_str_spec, !list_elem_of_In, List.filter_In.
  rewrite (proj2 (String.eqb_neq n BLOCK) Hn), orb_true_r. naive_solver.
Qed.
(** What the node of each name may write. *)
Lemma editing_writes t : node_writes t (offered t EDITING_TOOLS) = root_write t.
Proof. unfold node_writes. by rewrite !offered_has by done. Qed.
Lemma checking_writes t : node_writes t (offered t ["read"; "grep"; "bash"; CHECK]) = with_check_writes t [].
Proof. unfold node_writes. by rewrite !offered_has by done. Qed.
Lemma reading_writes t : node_writes t (offered t ["read"; "grep"; "bash"]) = [].
Proof. unfold node_writes. by rewrite !offered_has by done. Qed.
(** The contract of a node grants what the document grants, to write: all of it,
    the directories of a check, or nothing. *)
Lemma model_grants s variant task d name m : graph_on s variant task = Ok d → (name, m) ∈ models_of d →
  let t := with_mechanisms s (stops_under variant) (verifies_under variant) in
  grant_list m "read" = [workspace s] ∧ grant_list m "execute" = execute s ∧
  (grant_list m "write" = root_write t ∨ grant_list m "write" = with_check_writes t [] ∨ grant_list m "write" = []).
Proof.
  intros H%graph_models. rewrite H. cbv zeta. clear H d. set (t := with_mechanisms _ _ _). intros Hm.
  assert (∃ nm role tools ret bud, m = contract t nm role tools ret bud ∧
    (node_writes t (offered t tools) = root_write t ∨ node_writes t (offered t tools) = with_check_writes t [] ∨ node_writes t (offered t tools) = [])) as
    (nm & role & tools & ret & bud & -> & Hw).
  { apply elem_of_app in Hm as [Hm|Hm].
    - destruct (String.eqb variant "lean"); [by apply elem_of_nil in Hm|]. apply list_elem_of_singleton in Hm as [= _ ->].
      do 5 eexists. split; [reflexivity|]. rewrite reading_writes. auto.
    - apply elem_of_cons in Hm as [[= _ ->]|[[= _ ->]|[= _ ->]%list_elem_of_singleton]%elem_of_cons];
        (do 5 eexists; split; [reflexivity|]); rewrite ?editing_writes, ?checking_writes; auto. }
  destruct (contract_reads t nm role tools ret bud) as (-> & -> & ->). done.
Qed.
Lemma write_roots_joined w roots l : map_res (write_root w) roots = Ok l → l = map (path_join w) roots ∧ ∀ r, r ∈ roots → isabs r = false.
Proof.
  intros H%map_res_Forall2. induction H as [|r p roots l Hr _ [-> IH]]; [split; [done|by intros ? ?%elem_of_nil]|].
  unfold write_root in Hr. destruct (_ || _) eqn:E; [done|]. injection Hr as <-. split; [done|]. intros x [->|Hx]%elem_of_cons; [|by apply IH].
  apply orb_false_iff in E as [E _]. by apply orb_false_iff in E as [_ E].
Qed.
Lemma relative_join w r : isabs w = true → isabs r = false → is_relative_to (path_join w r) w = true.
Proof. intros Hw Hr. apply relative_parts. rewrite path_join_parts by done. by apply prefix_app_r. Qed.

(** Claim C36. No node may do more than its document: it reads and executes what the
    document grants, writes only below the document's write grants, and those lie
    below the workspace.  When no write root asked for lies inside another, nor
    strictly inside a directory a check writes, no write grant of the document or
    of a node lies inside another; without that condition such documents are
    built ([nested_roots_accepted]). *)
Theorem grants_nested ws ck b variant rf roots ex task d : autonomy ws ck b variant rf roots ex task = Ok d →
  let asked := if rf then [path_str ws] else map (path_join (path_str ws)) roots in
  (∀ p, p ∈ grant_list d "write" → is_relative_to p ws = true) ∧
  (∀ name m, (name, m) ∈ models_of d →
     grant_list m "read" = grant_list d "read" ∧ grant_list m "execute" = grant_list d "execute" ∧
     ∀ p, p ∈ grant_list m "write" → covered (grant_list d "write") p = true) ∧
  (separate asked → (∀ p c, p ∈ asked → c ∈ map (path_join (path_str ws)) CHECK_WRITES → is_relative_to p c = true → p = c) →
     separate (grant_list d "write") ∧ ∀ name m, (name, m) ∈ models_of d → separate (grant_list m "write")).
Proof.
  intros (Hv & s & Hs & H)%autonomy_ok asked. apply shape_ok in Hs as (Hws & Hw & _ & _ & Hex & _ & _ & _ & Hr).
  pose proof (path_str_parts ws Hws) as [Hp Ha]. rewrite <-Hw in Hp, Ha.
  assert (write_roots s = asked ∧ ∀ p, p ∈ asked → is_relative_to p (workspace s) = true) as [Ew Hin].
  { subst asked. destruct rf; [split; [by rewrite Hr, Hw|]; rewrite <-Hw; intros p ->%list_elem_of_singleton; apply relative_refl|].
    apply write_roots_joined in Hr as [Hr Hi]. rewrite <-Hw. split; [done|]. intros p (r & -> & Hr')%list_elem_of_fmap. apply relative_join; auto. }
  rewrite <-Hw. clearbody asked. set (t := with_mechanisms s (stops_under variant) (verifies_under variant)).
  pose proof (document_reads _ _ _ _ _ _ _ _ H) as (_ & Dr & De & Dw).
  split_and!.
  - intros p Hpw. apply relative_parts. rewrite <-Hp. apply relative_parts. rewrite Dw in Hpw. unfold root_write, with_check_writes in Hpw.
    apply elem_of_app in Hpw as [Hpw|Hpw]; [apply Hin; by rewrite <-Ew|]. apply list_elem_of_In, List.filter_In in Hpw as [Hpw _].
    apply list_elem_of_In, list_elem_of_fmap in Hpw as (c & -> & Hc). apply relative_join; [done|].
    apply elem_of_cons in Hc as [->|Hc]; [done|]. by apply list_elem_of_singleton in Hc as ->.
  - intros name m Hm. destruct (model_grants _ _ _ _ _ _ H Hm) as (-> & -> & Hmw). rewrite Dr, De, Dw. split_and!; [done|done|].
    intros p Hpm. destruct Hmw as [E|[E|E]]; rewrite E in Hpm; [|apply check_covered|by apply elem_of_nil in Hpm].
    + apply orb_true_iff. left. by apply elem_str_spec.
    + unfold with_check_writes in Hpm. cbn [app] in Hpm. apply list_elem_of_In, List.filter_In in Hpm as [Hpm _]. by apply list_elem_of_In.
  - intros Hsep Hck. assert (Hroot : separate (root_write t)) by (apply with_checks_separate; [done|cbn; by rewrite Ew|cbn; by rewrite Ew]).
    rewrite Dw. split; [exact Hroot|]. intros name m Hm. destruct (model_grants _ _ _ _ _ _ H Hm) as (_ & _ & [E|[E|E]]); rewrite E; [exact Hroot| |done].
    apply with_checks_separate; [done|done|by intros ? ? ?%elem_of_nil].
Qed.

(** ** The graph *)

Definition node_dict (n : string * value) : dict := dict_or_empty n.2.
Definition model_of (n : string * value) : dict := dict_or_empty (dget (node_dict n) "model").
Definition tools_of (contract : dict) : list string := str_list (dget contract "tools").
Definition follows_of (n : string * value) : list string := str_list (dget (node_dict n) "follows").
Definition branch_targets (n : string * value) : list string := concat (map (λ b, str_list b.2) (dict_or_empty (dget (node_dict n) "branches"))).
Definition instruction_of (contract : dict) : value := dget (dict_or_empty (dget contract "instructions")) "20-contract".
Definition timeout_of (contract : dict) : value := dget (dict_or_empty (dget (dict_or_empty (dget contract "tool_defs")) CHECK)) "timeout_seconds".
(** The firings a node admits. *)
Definition firings_of (n : string * value) : Z := int_of (dget_or (node_dict n) "max_fires" (VInt 1)).
Definition budget_of (d : dict) (key : string) : value := dget (dict_or_empty (dget d "budget")) key.

Lemma check_timeout_bounds t : (2 <= t)%Z → (1 <= check_timeout t < t)%Z ∧ (CHECK_TIMEOUT_FLOOR < t → CHECK_TIMEOUT_FLOOR <= check_timeout t)%Z ∧
  (900 <= t → check_timeout t = t / 10)%Z.
Proof.
  intros H. assert (0 <= t / 10 < t)%Z by (Z.to_euclidean_division_equations; lia).
  assert (900 <= t → 90 <= t / 10)%Z by (Z.to_euclidean_division_equations; lia).
  unfold check_timeout, CHECK_TIMEOUT_FLOOR. split_and!; lia.
Qed.

(** What holds of the node at place [i] of a document of nodes [names]. *)
Definition node_coherent (variant : string) (names : list string) (i : nat) (n : string * value) : Prop :=
  let m := model_of n in
  dget m "name" = VStr n.1 ∧
  forallb (λ f, String.eqb f "task" || elem_str f (take i names)) (follows_of n) = true ∧
  forallb (λ b, elem_str b (drop (S i) names)) (branch_targets n) = true ∧
  elem_str BLOCK (tools_of m) = stops_under variant && elem_str "edit" (tools_of m) ∧
  instruction_of m = VStr (if elem_str BLOCK (tools_of m) then CONTRACT_TEXT +:+ " " +:+ BLOCK_TEXT else CONTRACT_TEXT) ∧
  has_key (node_dict n) "verify" = verifies_under variant && elem_str "edit" (tools_of m) ∧
  (elem_str CHECK (tools_of m) = false → has_key (node_dict n) "verify" = false) ∧
  (has_key (node_dict n) "max_fires" = true → verifies_under variant = true).
Lemma nodes_coherent s variant task d : variant ∈ AUTONOMY_VARIANTS → graph_on s variant task = Ok d →
  NoDup (keys (nodes_of d)) ∧ ∀ i n, nodes_of d !! i = Some n → node_coherent variant (keys (nodes_of d)) i n.
Proof.
  intros Hv H. apply document_reads in H as (-> & _). pattern variant. apply variant_cases; [exact Hv|..];
    (split; [apply (bool_decide_unpack _); vm_compute; exact I|]);
    intros [|[|[|[|i]]]] n; try discriminate; intros [= <-];
    (split_and!; [reflexivity..|intros; discriminate || reflexivity|intros; discriminate || reflexivity]).
Qed.
Lemma graph_budget s variant task d c t i o : variant ∈ AUTONOMY_VARIANTS → limits s = limits_of c t i o → graph_on s variant task = Ok d →
  budget_of d "max_episodes" = VInt (1 + sum (map firings_of (nodes_of d))) ∧
  (∀ k, k ∈ GRAPH_BUDGET_KEYS → budget_of d k = dget (limits s) k) ∧
  timeout_of d = VInt (check_timeout t) ∧
  forallb (λ n, negb (elem_str CHECK (tools_of (model_of n))) || match timeout_of (model_of n) with VInt z => (z =? check_timeout t)%Z | _ => false end) (nodes_of d) = true.
Proof.
  destruct s as [w ck L wr ex st ve]. cbn [limits]. intros Hv -> H.
  revert H. pattern variant. apply variant_cases; [exact Hv|..]; (intros [= <-]; split_and!;
    [destruct i, o; reflexivity
    |intros k Hk; repeat (apply elem_of_cons in Hk as [->|Hk]; [destruct i, o; reflexivity|]); by apply elem_of_nil in Hk
    |reflexivity|]);
    cbn -[check_timeout]; rewrite ?Z.eqb_refl; reflexivity.
Qed.

(** Claim C37. Every document [autonomy] builds holds together.  Its nodes have
    distinct names and follow the task or an earlier node, and branch to later
    ones, so the graph has no cycle; a node offers [block], and is told when to
    call it, exactly when the variant stops and the node edits; it declares the
    verifier exactly when the variant verifies and the node edits, holds the
    check it names, and only then has a bound on its firings; the document
    admits one episode more than the firings of its nodes; and its limits are
    those asked for, the check of every node ending strictly within them. *)
Theorem graph_coherent ws ck b variant rf roots ex task d : autonomy ws ck b variant rf roots ex task = Ok d →
  NoDup (keys (nodes_of d)) ∧ (∀ i n, nodes_of d !! i = Some n → node_coherent variant (keys (nodes_of d)) i n) ∧
  budget_of d "max_episodes" = VInt (1 + sum (map firings_of (nodes_of d))) ∧
  (∀ k, k ∈ GRAPH_BUDGET_KEYS → budget_of d k = dget b k) ∧
  ∃ t, budget_of d "seconds" = VInt t ∧ (1 <= check_timeout t < t)%Z ∧ timeout_of d = VInt (check_timeout t) ∧
    ∀ n, n ∈ nodes_of d → elem_str CHECK (tools_of (model_of n)) = true → timeout_of (model_of n) = VInt (check_timeout t).
Proof.
  intros (Hv & s & Hs & H)%autonomy_ok. apply shape_ok in Hs as (_ & _ & _ & _ & _ & Hb & _).
  apply budget_accepted in Hb as (_ & c & t & i & o & Hl & [_ Ht] & _ & _ & Hk).
  destruct (nodes_coherent s variant task d Hv H) as [Hn Hc]. destruct (graph_budget s variant task d c t i o Hv Hl H) as (He & Hbk & Hd & Hm).
  split_and!; [done|done|done|intros k Hkk; rewrite Hbk by done; unfold dget; by rewrite (Hk k Hkk)|]. exists t. split_and!.
  - rewrite Hbk by (apply elem_str_spec; reflexivity). by rewrite Hl.
  - by apply check_timeout_bounds.
  - by apply check_timeout_bounds.
  - exact Hd.
  - intros n Hin Hchk. rewrite forallb_forall in Hm. apply list_elem_of_In in Hin. apply Hm in Hin. rewrite Hchk in Hin. cbn [negb orb] in Hin.
    destruct (timeout_of (model_of n)); try done. by apply Z.eqb_eq in Hin as ->.
Qed.

(** ** Examples *)

Definition example_budget : dict := [("seconds", VInt 600); ("model_calls", VInt 40)].
Definition example_document (variant : string) : res dict := autonomy "/w/" "/c" example_budget variant false WRITE_ROOTS EXECUTE_ROOTS PLACEHOLDER_TASK.
Definition built (r : res dict) : dict := match r with Ok d => d | Err _ => [] end.
Definition example_configured : dict := Eval vm_compute in built (example_document "configured").

Lemma variants_isolate_mechanisms_witness :
  example_document "unverified" = Ok (renamed "autonomy-unverified" (without_verifier example_configured)) ∧
  budget_of (built (example_document "unverified")) "max_episodes" = VInt 5 ∧ budget_of example_configured "max_episodes" = VInt 19.
Proof.
  split; [|split; vm_compute; reflexivity].
  apply (variants_isolate_mechanisms "/w/" "/c" example_budget false WRITE_ROOTS EXECUTE_ROOTS PLACEHOLDER_TASK). vm_compute. reflexivity.
Defined.
Lemma graph_coherent_witness :
  NoDup (keys (nodes_of example_configured)) ∧ keys (nodes_of example_configured) = ["survey"; "implement"; "assess"; "repair"].
Proof.
  split; [|vm_compute; reflexivity].
  apply (graph_coherent "/w/" "/c" example_budget "configured" false WRITE_ROOTS EXECUTE_ROOTS PLACEHOLDER_TASK). vm_compute. reflexivity.
Defined.
Lemma grants_nested_witness :
  separate (grant_list example_configured "write") ∧
  grant_list example_configured "write" = ["/w/crates"; "/w/docs"; "/w/examples"; "/w/target"; "/w/.check-tmp"].
Proof.
  split; [|vm_compute; reflexivity].
  destruct (grants_nested "/w/" "/c" example_budget "configured" false WRITE_ROOTS EXECUTE_ROOTS PLACEHOLDER_TASK example_configured ltac:(vm_compute; reflexivity))
    as (_ & _ & H). apply H.
  - cbn [map separate WRITE_ROOTS]. split_and!; [|intros q ->%list_elem_of_singleton; split; vm_compute; reflexivity|by intros ? ?%elem_of_nil|done].
    intros q [->|Hq]%elem_of_cons; [|apply list_elem_of_singleton in Hq as ->]; split; vm_compute; reflexivity.
  - intros p c Hp Hc Hr. exfalso. revert Hr. apply elem_of_cons in Hc as [->|Hc]; [|apply list_elem_of_singleton in Hc as ->];
      repeat (apply elem_of_cons in Hp as [->|Hp]; [vm_compute; discriminate|]); by apply elem_of_nil in Hp.
Defined.

(** Write roots inside one another, or inside a directory a check writes, are
    accepted: the document grants a directory inside another grant. *)
Example nested_roots_accepted :
  (∃ d, autonomy "/w" "/c" example_budget "lean" false ["docs"; "docs/api"] EXECUTE_ROOTS PLACEHOLDER_TASK = Ok d ∧ ¬ separate (grant_list d "write")) ∧
  (∃ d, autonomy "/w" "/c" example_budget "lean" false ["target/doc"] EXECUTE_ROOTS PLACEHOLDER_TASK = Ok d ∧ ¬ separate (grant_list d "write")).
Proof.
  split; eexists; (split; [vm_compute; reflexivity|]).
  - intros [H _]. destruct (H "/w/docs/api") as [_ E]; [apply elem_str_spec; reflexivity|]. vm_compute in E. discriminate.
  - intros [H _]. destruct (H "/w/target") as [E _]; [apply elem_str_spec; reflexivity|]. vm_compute in E. discriminate.
Qed.
