(* ===== verification/RunText.v ===== *)
(** * Text and paths of the runner

    The operations of [str], of formatting and of [os.path] that the runner
    and the arms of the study use beside those of [PyText] and [PyPath]:
    replacing a text by another, normalising a path, and padded numbers. *)

From Stdlib Require Import Ascii.
From stdpp Require Import base list sets strings pretty.
From Stdlib Require Import ZArith Lia.
From S2P Require Import Prelude PyValue PyText PyPath.

(** [s.replace(old, new)] of a text [old] that is not empty: the occurrences
    from the left, none inside another.  [skip] is what is left of the last. *)
Fixpoint replace_from (skip : nat) (old new s : string) : string :=
  match s with
  | EmptyString => ""
  | String c t =>
      match skip with
      | S k => replace_from k old new t
      | 0 => if starts_with old s then new +:+ replace_from (String.length old - 1) old new t
             else String c (replace_from 0 old new t)
      end
  end.
Definition str_replace (old new s : string) : string := replace_from 0 old new s.

(** [os.path.normpath]: the components without the empty ones and [.], a [..]
    taking the one before it away, except at the start of a relative path and
    below another that stayed; two leading slashes stay two. *)
Definition initial_slashes (p : string) : string :=
  if isabs p then if starts_with "//" p && negb (starts_with "///" p) then "//" else "/" else "".
Definition norm_step (absolute : bool) (parts : list string) (c : string) : list string :=
  if String.eqb c "" || String.eqb c "." then parts
  else if negb (String.eqb c "..") || (negb absolute && match parts with [] => true | _ => false end)
          || match last parts with Some l => String.eqb l ".." | None => false end then parts ++ [c]
  else removelast parts.
Definition normpath (p : string) : string :=
  let parts := fold_left (norm_step (isabs p)) (split_on slash p) [] in
  match initial_slashes p +:+ join "/" parts with EmptyString => "." | s => s end.

(** [f"{n:02d}"] of a number that is not negative. *)
Definition pad2 (n : nat) : string := if n <? 10 then "0" +:+ nat_str n else nat_str n.


Example normalised : map normpath ["/usr//bin/"; "/usr/./lib/../bin"; "/../x"; "a/../../b"; "//net/x"; ""; "///x"; "a/.."] =
  ["/usr/bin"; "/usr/bin"; "/x"; "../b"; "//net/x"; "."; "/x"; "."].
Proof. vm_compute. reflexivity. Qed.
Example replaced_texts : str_replace "aa" "b" "aaaxaa" = "baxb" ∧ map pad2 [3; 12; 120] = ["03"; "12"; "120"].
Proof. split; vm_compute; reflexivity. Qed.

(** ** Replacing and replacing back *)

Lemma replace_skip old new s t : replace_from (String.length s) old new (s +:+ t) = replace_from 0 old new t.
Proof. induction s as [|c s IH]; [done|]. rewrite str_app_cons. cbn [String.length replace_from]. exact IH. Qed.
Lemma replace_here old new t : old ≠ "" → str_replace old new (old +:+ t) = new +:+ str_replace old new t.
Proof.
  intros Ho. destruct old as [|c old]; [done|]. unfold str_replace. rewrite str_app_cons. cbn [replace_from].
  rewrite <-str_app_cons, starts_with_app. cbn [String.length]. rewrite Nat.sub_succ, Nat.sub_0_r. by rewrite replace_skip.
Qed.
Lemma replace_past old new c t : starts_with old (String c t) = false →
  str_replace old new (String c t) = String c (str_replace old new t).
Proof. intros H. unfold str_replace. cbn [replace_from]. by rewrite H. Qed.

(** The first character of [P] stands nowhere else in it, so that no occurrence
    of it overlaps another. *)
Definition marked (P : string) : Prop := ∃ c q, P = String c q ∧ has_char c q = false.

Lemma starts_with_cons p c d s : starts_with (String d p) (String c s) = (Ascii.eqb d c && starts_with p s).
Proof.
  unfold starts_with. cbn. destruct (ascii_dec d c) as [->|Hne]; [by rewrite Ascii.eqb_refl|].
  apply Ascii.eqb_neq in Hne. by rewrite Hne.
Qed.
(** What stands in front of a text with the marks in it, and holds no mark itself, stood there before. *)
Lemma unmarked_prefix w c q r s : w ≠ "" → has_char c r = false →
  starts_with r (str_replace w (String c q) s) = true → starts_with r s = true.
Proof.
  intros Hw. revert s. induction r as [|d r IH]; intros s Hr H; [by destruct s|].
  cbn in Hr. apply orb_false_iff in Hr as [Hd Hr]. destruct s as [|e s]; [done|].
  destruct (starts_with w (String e s)) eqn:Es.
  - apply starts_with_inv in Es as [t Ht]. rewrite Ht, replace_here, str_app_cons, starts_with_cons in H by done.
    apply andb_true_iff in H as [H _]. apply Ascii.eqb_eq in H. subst d. by rewrite Ascii.eqb_refl in Hd.
  - rewrite replace_past, starts_with_cons in H by done. apply andb_true_iff in H as [H1 H2].
    rewrite starts_with_cons, H1. exact (IH s Hr H2).
Qed.
Lemma occurs_cons w c s : occurs w (String c s) = false → starts_with w (String c s) = false ∧ occurs w s = false.
Proof. cbn. by intros [? ?]%orb_false_iff. Qed.
Lemma occurs_app w a s : occurs w (a +:+ s) = false → occurs w s = false.
Proof. induction a as [|c a IH]; [done|]. rewrite str_app_cons. intros [_ H]%occurs_cons. auto. Qed.

(** Putting a mark that does not occur for a text, and the text for the mark
    again, changes nothing. *)
Lemma replace_back w P s : w ≠ "" → marked P → occurs P s = false → str_replace P w (str_replace w P s) = s.
Proof.
  intros Hw (c & q & -> & Hq). remember (String.length s) as n eqn:Hn. revert s Hn.
  induction (lt_wf n) as [n _ IH]. intros s -> Ho. destruct (starts_with w s) eqn:Es.
  - apply starts_with_inv in Es as [t ->]. rewrite !replace_here by done. f_equal. apply (IH (String.length t)); [|done|by eapply occurs_app].
    rewrite length_str_app. destruct w; [done|]. cbn. lia.
  - destruct s as [|d s]; [done|]. apply occurs_cons in Ho as [Hd Ho]. rewrite replace_past by done. rewrite replace_past.
    + f_equal. apply (IH (String.length s)); [cbn; lia|done|done].
    + rewrite starts_with_cons in *. destruct (Ascii.eqb c d); [|done]. cbn in *. apply not_true_is_false. intros H.
      apply unmarked_prefix in H; [by rewrite H in Hd|done|done].
Qed.
Lemma replace_none w n s : occurs w s = false → str_replace w n s = s.
Proof.
  induction s as [|c s IH]; [done|]. intros [H1 H2]%occurs_cons. rewrite replace_past by done. f_equal. auto.
Qed.
(** Where a text occurs its replacement does. *)
Lemma occurs_here w s : starts_with w s = true → occurs w s = true.
Proof. intros H. destruct s; cbn -[starts_with]; by rewrite H. Qed.
Lemma occurs_in_app w a s : occurs w s = true → occurs w (a +:+ s) = true.
Proof. intros H. induction a as [|c a IH]; [done|]. rewrite str_app_cons. cbn. by rewrite IH, orb_true_r. Qed.
Lemma replace_occurs w n s : w ≠ "" → occurs w s = true → occurs n (str_replace w n s) = true.
Proof.
  intros Hw. induction s as [|c s IH]; intros H.
  { destruct w; [done|]. by cbn in H. }
  destruct (starts_with w (String c s)) eqn:Es.
  - apply starts_with_inv in Es as [t Ht]. rewrite Ht, replace_here by done. apply occurs_here, starts_with_app.
  - rewrite replace_past by done. cbn -[starts_with] in H. rewrite Es in H. cbn -[starts_with]. by rewrite (IH H), orb_true_r.
Qed.
