(* ===== verification/FoeArm.v ===== *)
(** * The foe arm

    src/evals/cross_harness/arms/foe_arm.py: the document a run of foe gets, the
    command that runs it, and what its output and its end are reported as.  The
    process itself, its pipes and its clock are outside the model; what it
    printed and how it ended are arguments. *)

From Stdlib Require Import Ascii.
From stdpp Require Import base list sets strings pretty.
From Stdlib Require Import ZArith Lia.
From S2P Require Import Prelude PyValue PyText PyJson PyUnicode JsonText PyPath TaskProtocol RunText.

Definition FOE_HARNESS : string := "foe".
Definition OUTCOME_KINDS : list string := [COMPLETED; BLOCKED; EXHAUSTED; FAILED].
Definition WORKSPACE_PLACEHOLDER : string := "{workspace}".
Definition TIMEOUT_MARGIN_SECONDS : Z := 30.
Definition WORKSPACE_GRANT_KINDS : list string := ["read"; "write"].
Definition STDERR_TAIL_CHARACTERS : nat := 2000.
Definition REASONING_EFFORT_PROVIDERS : list string := ["openai"; "openai-codex"].

(** [reported]: the outcome an arm reports, a dictionary of three keys. *)
Definition outcome_dict (status : string) (code : value) (evidence : list string) : dict :=
  [("status", VStr status); ("code", code); ("evidence", VList (map VStr evidence))].
Definition reported (status : string) (code : value) (evidence : list string) : res dict :=
  raise_if (negb (elem_str status STATUSES))
    (ValueError ("reported status is " +:+ str_repr status +:+ "; expected one of " +:+ join ", " STATUSES));;
  Ok (outcome_dict status code evidence).

(** ** The route *)

Record ModelRoute : Type := { provider : string; model_name : string; base_url : option string }.
(** [self.base_url] as a condition. *)
Definition given (s : option string) : bool := match s with Some s => negb (String.eqb s "") | None => false end.
(** [ModelRoute.__post_init__]. *)
Definition make_route (r : ModelRoute) : res ModelRoute :=
  raise_if (String.eqb (provider r) "") (ValueError "route provider is empty");;
  raise_if (String.eqb (model_name r) "") (ValueError "route model is empty");;
  raise_if (String.eqb (provider r) "compatible-http" && negb (given (base_url r)))
    (ValueError "route provider compatible-http needs base_url; docs/models.md requires it");;
  Ok r.
(** [ModelRoute.block]. *)
Definition block (r : ModelRoute) (reasoning_effort : option string) : dict :=
  [("provider", VStr (provider r)); ("model", VStr (model_name r))]
  ++ match base_url r with Some u => if String.eqb u "" then [] else [("base_url", VStr u)] | None => [] end
  ++ match reasoning_effort with
     | Some e => if negb (String.eqb e "") && elem_str (provider r) REASONING_EFFORT_PROVIDERS then [("reasoning_effort", VStr e)] else []
     | None => []
     end.

(** ** The document of a run *)

Record FoeSpec : Type := {
  binary : string; spec_document : dict; spec_task : string; spec_workspace : string; log_dir : string; artifacts : string;
  route : ModelRoute; cap : Z; reasoning_effort : option string;
}.
(** [FoeSpec.__post_init__]. *)
Definition make_spec (s : FoeSpec) : res FoeSpec :=
  raise_if (cap s <=? 0)%Z (ValueError ("spec seconds is " +:+ Z_str (cap s) +:+ "; the cap is a positive integer"));;
  raise_if (String.eqb (str_strip (spec_task s)) "") (ValueError "spec task is empty");;
  Ok s.

(** [_substitute]: the value with every string changed, and how many were. *)
Definition nat_sum (l : list nat) : nat := foldr Nat.add 0 l.
Fixpoint substituted (old new : string) (v : value) : value * nat :=
  match v with
  | VStr s => if occurs old s then (VStr (str_replace old new s), 1) else (v, 0)
  | VList l => let r := map (substituted old new) l in (VList (map fst r), nat_sum (map snd r))
  | VDict d => let r := map (λ kv, (kv.1, substituted old new kv.2)) d in
      (VDict (map (λ e, (e.1, e.2.1)) r), nat_sum (map (λ e, e.2.2) r))
  | _ => (v, 0)
  end.
Definition substitute (v : value) (workspace : string) : value * nat := substituted WORKSPACE_PLACEHOLDER workspace v.

(** A grant the arm may add the workspace to is a list of strings. *)
Definition check_grant (grants : dict) (kind : string) : res () :=
  let paths := dget grants kind in
  raise_if (negb (is_none paths) && negb (is_list paths && forallb is_str (list_or_empty paths)))
    (ValueError ("document key grants." +:+ kind +:+ " is " +:+ py_repr paths +:+ "; docs/config.md types it as a list of strings")).
(** The workspace at the head of a grant that lacks it. *)
Definition place_in (workspace : string) (grants : dict) (kind : string) : dict :=
  let paths := list_or_empty (dget grants kind) in
  dset grants kind (VList (if existsb (is_string workspace) paths then paths else VStr workspace :: paths)).
(** The document's own limit against the cap. *)
Definition check_seconds (s : FoeSpec) (document : dict) : res () :=
  match dget document "budget" with
  | VDict budget =>
      match assoc budget "seconds" with
      | Some declared =>
          raise_if match declared with VInt z => negb (z <=? cap s)%Z | _ => true end
            (ValueError ("document key budget.seconds is " +:+ py_repr declared +:+ "; it must be an integer at most the cap of " +:+ Z_str (cap s)))
      | None => Ok ()
      end
  | _ => Ok ()
  end.
(** [prepare_document]. *)
Definition PLACED_BY_PLACEHOLDER : string := "placeholder".
Definition PLACED_IN_GRANTS : string := "grants".
Definition prepare_document (s : FoeSpec) : res (dict * string) :=
  match dget (spec_document s) "grants" with
  | VDict grants =>
      foldM (λ _ kind, check_grant grants kind) () WORKSPACE_GRANT_KINDS;;
      let named := snd (substitute (VDict grants) (spec_workspace s)) in
      let document := dict_or_empty (fst (substitute (VDict (spec_document s)) (spec_workspace s))) in
      let '(document, placement) :=
        if (0 <? named)%nat then (document, PLACED_BY_PLACEHOLDER)
        else (dset document "grants" (VDict (fold_left (place_in (spec_workspace s)) WORKSPACE_GRANT_KINDS (dict_or_empty (dget document "grants")))),
              PLACED_IN_GRANTS) in
      check_seconds s document;;
      Ok (dset (dset document "task" (VStr (spec_task s))) "model" (VDict (block (route s) (reasoning_effort s))), placement)
  | _ => Err (ValueError "document key grants is absent or not an object; docs/config.md requires it")
  end.

(** [command_line]. *)
Definition command_line (s : FoeSpec) (config : string) : list string :=
  [binary s; "--config"; config; "--log-dir"; log_dir s; "--viewer"; "off"].

(** ** What a run reports *)

(** The outcome a line states, if it states one. *)
Definition line_outcome (line : string) : option dict :=
  let text := str_strip line in
  if negb (starts_with "{" text) then None
  else match loads_str text with
       | inl (VDict d) => if is_str (dget d "kind") then Some d else None
       | _ => None
       end.
(** [outcome_line]: the last of them. *)
Definition outcome_line (stdout : string) : option dict := head (omap line_outcome (reverse (str_splitlines stdout))).

(** [learned_claims]. *)
Definition learned_claims (v : value) : list string :=
  match v with
  | VDict d => omap (λ item, match item with VDict i => if has_key i "claim" then Some (py_str (dget i "claim")) else None | _ => None end)
                 (list_or_empty (dget d "learned"))
  | _ => []
  end.
(** The last [n] characters. *)
Definition str_tail (n : nat) (s : string) : string :=
  let cs := utf8_chars s in concat_strings (drop (length cs - n) cs).
Definition stderr_tail (stderr : string) : string := str_tail STDERR_TAIL_CHARACTERS (str_strip stderr).

Definition exit_str (exit_status : option Z) : string := match exit_status with Some z => Z_str z | None => "None" end.
(** [interpret]. *)
Definition interpret (outcome : option dict) (killed : bool) (exit_status : option Z) (stderr : string) (timeout : Z) : res (dict * value) :=
  let report status code evidence (candidate : value) : res (dict * value) := r ← reported status code evidence; Ok (r, candidate) in
  if killed then report KILLED VNone ["the run exceeded the cap of " +:+ Z_str timeout +:+ " seconds and was terminated"] VNone
  else match outcome with
  | None =>
      let tail := stderr_tail stderr in
      report FAILED VNone (("no outcome line on standard output; exit status " +:+ exit_str exit_status)
                           :: (if String.eqb tail "" then [] else [tail])) VNone
  | Some o =>
      let kind := dget o "kind" in
      if is_string COMPLETED kind then report COMPLETED VNone (learned_claims (dget o "value")) (dget o "value")
      else if is_string BLOCKED kind then
        report BLOCKED (VStr (py_str (dget o "code"))) (if truthy (dget o "message") then [py_str (dget o "message")] else []) VNone
      else if is_string EXHAUSTED kind then
        let limit := py_str (dget o "limit") in report EXHAUSTED (VStr limit) ["the " +:+ limit +:+ " budget was exhausted"] VNone
      else if is_string FAILED kind then report FAILED VNone [py_str (py_or (dget o "error") (VStr ""))] VNone
      else report FAILED VNone ["outcome kind " +:+ py_repr kind +:+ " is not one of " +:+ join ", " OUTCOME_KINDS] VNone
  end.

(** [foe_build.announced_log_dir]. *)
Definition LOG_DIRECTORY_LINE : string := "foe: log ".
Definition announced_log_dir (stderr named : string) : string :=
  match find (starts_with LOG_DIRECTORY_LINE) (str_splitlines stderr) with
  | Some line => path_str (str_strip (str_drop (String.length LOG_DIRECTORY_LINE) line))
  | None => named
  end.

(** ** What an arm did *)

Record ArmResult : Type := {
  result_arm : string; result_harness : string; started_ms : Z; ended_ms : Z; exit_status : option Z;
  result_reported : dict; candidate : value; result_artifacts : string; result_record : dict;
}.
Definition option_value (z : option Z) : value := match z with Some z => VInt z | None => VNone end.
Definition ArmResult_to_dict (r : ArmResult) : dict :=
  [("arm_name", VStr (result_arm r)); ("harness", VStr (result_harness r)); ("started_ms", VInt (started_ms r));
   ("ended_ms", VInt (ended_ms r)); ("exit_status", option_value (exit_status r)); ("reported", VDict (result_reported r));
   ("candidate", candidate r); ("artifacts", VStr (result_artifacts r)); ("record", VDict (result_record r))].

(** The end of [run]: what the process left, as the result of the arm.  [there]
    says whether the announced directory holds an episode log. *)
Definition STDOUT_NAME : string := "stdout.txt".
Definition STDERR_NAME : string := "stderr.txt".
Definition EPISODE_LOG : string := "episode.jsonl".
Definition result_of (s : FoeSpec) (arm : string) (there : string → bool) (config : string) (document : dict) (placement : string)
    (started ended : Z) (exit : option Z) (killed : bool) (stdout stderr : string) : res ArmResult :=
  let timeout := (cap s + TIMEOUT_MARGIN_SECONDS)%Z in
  let episode := announced_log_dir stderr (log_dir s) in
  let outcome := outcome_line stdout in
  let model := dget document "model" in
  r ← interpret outcome killed exit stderr timeout;
  Ok {| result_arm := arm; result_harness := FOE_HARNESS; started_ms := started; ended_ms := ended; exit_status := exit;
        result_reported := r.1; candidate := r.2; result_artifacts := artifacts s;
        result_record :=
          [("harness", VStr FOE_HARNESS); ("commands", VList [VList (map VStr (command_line s config))]); ("cwd", VStr (spec_workspace s));
           ("codex_home", VNone); ("config", VStr config); ("log_dir", VStr (log_dir s)); ("episode_dir", VStr episode);
           ("episode_log_present", VBool (there (path_join episode EPISODE_LOG))); ("stdout", VStr (path_join (artifacts s) STDOUT_NAME));
           ("stderr", VStr (path_join (artifacts s) STDERR_NAME)); ("model", model);
           ("reasoning_effort_applied", VBool (has_key (dict_or_empty model) "reasoning_effort")); ("workspace_placement", VStr placement);
           ("cap_seconds", VInt (cap s)); ("timeout_seconds", VInt timeout); ("killed", VBool killed);
           ("exit_status", option_value exit); ("outcome", match outcome with Some o => VDict o | None => VNone end)] |}.

(** ** The outcome that is read *)

Lemma last_line before line : one_line line → ∃ ls, str_splitlines (before +:+ nl +:+ line +:+ nl) = ls ++ [line].
Proof.
  intros [Hs Hl]. assert (Hc : utf8_chars (before +:+ nl +:+ line +:+ nl) = utf8_chars before ++ nl :: utf8_chars line ++ [nl]).
  { rewrite utf8_chars_app by done. f_equal. unfold nl at 1. rewrite str_app_cons. change ("" +:+ line +:+ nl) with (line +:+ nl).
    rewrite utf8_chars_cons; [|by destruct line]. f_equal. by rewrite utf8_chars_app. }
  unfold str_splitlines. rewrite Hc. destruct (lines_split (utf8_chars before) (utf8_chars line ++ [nl]) []) as [ls ->].
  exists ls. f_equal. rewrite lines_one by done. change (reverse [] ++ utf8_chars line) with (utf8_chars line). by rewrite concat_utf8_chars.
Qed.
Lemma line_outcome_renders d line : renders (VDict d) (str_strip line) → is_str (dget d "kind") = true → line_outcome line = Some d.
Proof.
  intros Hr Hk. unfold line_outcome. assert (Hb : starts_with "{" (str_strip line) = true) by (inversion Hr; subst; apply (starts_with_app "{")).
  rewrite Hb. cbn [negb]. pose proof (loads_str_renders _ _ "" "" Hr eq_refl eq_refl) as Hl. rewrite str_app_nil_r in Hl.
  change ("" +:+ str_strip line) with (str_strip line) in Hl. by rewrite Hl, Hk.
Qed.
Lemma outcome_last before line d : one_line line → renders (VDict d) (str_strip line) → is_str (dget d "kind") = true →
  outcome_line (before +:+ nl +:+ line +:+ nl) = Some d.
Proof.
  intros H1 H2 H3. unfold outcome_line. destruct (last_line before line H1) as [ls ->]. rewrite reverse_app. cbn [reverse app].
  change (reverse [line] ++ reverse ls) with (line :: reverse ls). cbn [omap list_omap]. by rewrite (line_outcome_renders d).
Qed.

(** What an outcome of a kind is reported as: the code. *)
Definition outcome_code (o : dict) : value :=
  match dget o "kind" with
  | VStr k => if String.eqb k BLOCKED then VStr (py_str (dget o "code")) else if String.eqb k EXHAUSTED then VStr (py_str (dget o "limit")) else VNone
  | _ => VNone
  end.
Lemma reported_known status code evidence : elem_str status STATUSES = true → reported status code evidence = Ok (outcome_dict status code evidence).
Proof. intros H. unfold reported. by rewrite H. Qed.
Lemma interpreted o exit stderr timeout k : dget o "kind" = VStr k → ∃ e,
  interpret (Some o) false exit stderr timeout =
    Ok (outcome_dict (if elem_str k OUTCOME_KINDS then k else FAILED) (outcome_code o) e, if String.eqb k COMPLETED then dget o "value" else VNone).
Proof.
  intros Hk. unfold interpret, outcome_code. rewrite Hk. cbn [is_string].
  destruct (String.eqb_spec k COMPLETED) as [->|H1]; [eexists; by rewrite reported_known|].
  destruct (String.eqb_spec k BLOCKED) as [->|H2]; [eexists; by rewrite reported_known|].
  destruct (String.eqb_spec k EXHAUSTED) as [->|H3]; [eexists; by rewrite reported_known|].
  destruct (String.eqb_spec k FAILED) as [->|H4]; [eexists; by rewrite reported_known|].
  eexists. rewrite reported_known by done. cbn [mbind res_bind]. replace (elem_str k OUTCOME_KINDS) with false; [done|].
  symmetry. apply elem_str_false. unfold OUTCOME_KINDS. intros Hin. repeat (apply elem_of_cons in Hin as [->|Hin]; [done|]). by apply elem_of_nil in Hin.
Qed.

(** What the last line of the output states is what is reported.  An
    outcome printed on a line of its own, after whatever else was printed, is
    reported under its kind, with the code of a stop or the exhausted limit, and
    its value is the candidate exactly when it completed; a run that was
    terminated is killed whatever it printed; and one without an outcome failed. *)
Theorem printed_outcome_reported exit stderr timeout :
  (∀ before line d k, one_line line → renders (VDict d) (str_strip line) → dget d "kind" = VStr k → ∃ e,
    interpret (outcome_line (before +:+ nl +:+ line +:+ nl)) false exit stderr timeout =
      Ok (outcome_dict (if elem_str k OUTCOME_KINDS then k else FAILED) (outcome_code d) e, if String.eqb k COMPLETED then dget d "value" else VNone)) ∧
  (∀ o, ∃ e, interpret o true exit stderr timeout = Ok (outcome_dict KILLED VNone e, VNone)) ∧
  (∃ e, interpret None false exit stderr timeout = Ok (outcome_dict FAILED VNone e, VNone)).
Proof.
  split_and!.
  - intros before line d k H1 H2 Hk. rewrite (outcome_last before line d) by (done || by rewrite Hk). by apply interpreted.
  - intros o. eexists. unfold interpret. by rewrite reported_known.
  - eexists. unfold interpret. by rewrite reported_known.
Qed.

Definition quoted (s : string) : string := String dquote (s +:+ String dquote "").
Definition example_line (message : string) : string :=
  "{" +:+ quoted "kind" +:+ ":" +:+ quoted "blocked" +:+ "," +:+ quoted "code" +:+ ":" +:+ quoted "ambiguous-task" +:+ ","
  +:+ quoted "message" +:+ ":" +:+ quoted message +:+ "}".
Definition example_outcome (message : string) : dict := [("kind", VStr "blocked"); ("code", VStr "ambiguous-task"); ("message", VStr message)].
Example outcome_found : outcome_line ("working" +:+ nl +:+ example_line "which file" +:+ nl) = Some (example_outcome "which file").
Proof. vm_compute. reflexivity. Qed.
(** The outcome whose message holds a line separator, which the binary writes as
    it is, is not found: the attempt is reported as failed. *)
Example separator_loses_outcome :
  let message := "which" +:+ utf8_encode 8232 +:+ "file" in
  loads_str (example_line message) = inl (VDict (example_outcome message)) ∧ outcome_line (example_line message +:+ nl) = None.
Proof. split; vm_compute; reflexivity. Qed.
Lemma printed_outcome_reported_witness : ∃ e,
  interpret (outcome_line ("working" +:+ nl +:+ example_line "which file" +:+ nl)) false (Some 0%Z) "" 90 =
    Ok (outcome_dict BLOCKED (VStr "ambiguous-task") e, VNone).
Proof.
  destruct (printed_outcome_reported (Some 0%Z) "" 90) as [H _].
  refine (H "working" (example_line "which file") (example_outcome "which file") "blocked" _ _ eq_refl).
  - split; [reflexivity|]. repeat (constructor; [vm_compute; reflexivity|]). constructor.
  - replace (str_strip (example_line "which file")) with (dumps ("," +:+ "") (":" +:+ "") (VDict (example_outcome "which file"))) by (vm_compute; reflexivity).
    apply dumps_renders; vm_compute; reflexivity.
Defined.
