(* ===== verification/RunPlan.v ===== *)
(** * The plan of a run

    src/evals/cross_harness/run.py: the arms, which of them a run selects, the
    ceilings and the tool roots of an attempt, whether an arm can run a task at
    all, and the attempts in the order they are launched. *)

From Stdlib Require Import Ascii.
From stdpp Require Import base list sets strings pretty.
From Stdlib Require Import ZArith Lia.
From S2P Require Import Prelude PyValue PyText PyPath TaskProtocol Graphs RunText.

(** ** Arms *)

Record Arm : Type := { arm_name : string; harness : string; kind : string; variant : string }.
#[export] Instance Arm_eq_dec : EqDecision Arm.
Proof. solve_decision. Defined.
Definition AUTONOMY_ARMS : list Arm :=
  [{| arm_name := "foe-configured"; harness := "foe"; kind := "document"; variant := "configured" |};
   {| arm_name := "foe-ablated"; harness := "foe"; kind := "document"; variant := "ablated" |};
   {| arm_name := "foe-unverified"; harness := "foe"; kind := "document"; variant := "unverified" |};
   {| arm_name := "foe-lean"; harness := "foe"; kind := "document"; variant := "lean" |};
   {| arm_name := "foe-as-shipped"; harness := "foe"; kind := "builtin"; variant := "builtin:coding" |};
   {| arm_name := "codex-equivalent"; harness := "codex"; kind := "codex"; variant := "equivalent" |};
   {| arm_name := "codex-default"; harness := "codex"; kind := "codex"; variant := "default" |}].
Definition ARMS : list (string * list Arm) := [("autonomy", AUTONOMY_ARMS)].
(** [ARMS[family]]. *)
Definition arms_of (family : string) : res (list Arm) :=
  match assoc ARMS family with Some l => Ok l | None => Err (KeyError family) end.
Definition arm_names (l : list Arm) : string := join ", " (map arm_name l).
Definition arm_by_name (family name : string) : res Arm :=
  arms ← arms_of family;
  match find (λ a, String.eqb (arm_name a) name) arms with
  | Some a => Ok a
  | None => Err (ValueError ("key arms names " +:+ str_repr name +:+ ", which is not an arm of the " +:+ family
                             +:+ " family; the arms are " +:+ arm_names arms))
  end.
Definition select_arms (names : option (list string)) (family : string) : res (list Arm) :=
  match names with
  | None => arms_of family
  | Some [] => arms ← arms_of family;
      Err (ValueError ("key arms is []; expected at least one arm name from " +:+ arm_names arms))
  | Some names =>
      raise_if (negb (bool_decide (NoDup names))) (ValueError "key arms names an arm twice");;
      map_res (arm_by_name family) names
  end.

(** ** Settings and tasks *)

Record Settings : Type := {
  s_foe : string; s_codex : option string; s_family : string; s_attempts : nat; s_route : string; s_base_url : option string;
  s_model : string; s_effort : string; s_out : string; s_credential : option string; s_codex_wire_api : string;
  s_grader_timeout : Z; s_source_root : string; s_tool_roots : list string; s_budget_overrides : dict; s_canaries : dict;
}.
Definition option_str (s : option string) : value := match s with Some s => VStr s | None => VNone end.
Definition Settings_to_dict (s : Settings) : dict :=
  [("tool_roots", strs (s_tool_roots s)); ("budget_overrides", VDict (s_budget_overrides s)); ("canaries", VDict (s_canaries s));
   ("foe", VStr (s_foe s)); ("codex", option_str (s_codex s)); ("family", VStr (s_family s)); ("attempts", VInt (Z.of_nat (s_attempts s)));
   ("route", VStr (s_route s)); ("base_url", option_str (s_base_url s)); ("model", VStr (s_model s)); ("effort", VStr (s_effort s));
   ("out", VStr (s_out s)); ("credential", option_str (s_credential s)); ("codex_wire_api", VStr (s_codex_wire_api s));
   ("grader_timeout", VInt (s_grader_timeout s)); ("source_root", VStr (s_source_root s))].
Record Selected : Type := { directory : string; task : Task }.

(** [shared_family]: the first task of each family, in order. *)
Definition first_of (tasks : list Selected) : list (string * string) :=
  fold_left (λ d e, if has_key d (family (task e)) then d else dset d (family (task e)) (task_name (task e))) tasks [].
Definition shared_family (tasks : list Selected) (tasks_dir : string) : res string :=
  match first_of tasks with
  | (family_a, name_a) :: (family_b, name_b) :: _ =>
      Err (ValueError ("the selected tasks under " +:+ tasks_dir +:+ " span two families: " +:+ name_a +:+ " is " +:+ family_a +:+ " and "
                       +:+ name_b +:+ " is " +:+ family_b +:+ "; use select to name the tasks of one family"))
  | [(family, name)] =>
      if has_key ARMS family then Ok family
      else Err (ValueError ("the selected task " +:+ name +:+ " under " +:+ tasks_dir +:+ " is of the " +:+ family
                            +:+ " family, which has no arm; the runner holds arms for " +:+ join ", " (keys ARMS) +:+ " tasks alone"))
  | [] => Err StopIteration
  end.

(** [discover_tasks]: the task directories found, in path order, loaded. *)
Definition add_found (found : list (string * Selected)) (e : Selected) : res (list (string * Selected)) :=
  match assoc found (task_name (task e)) with
  | Some other => Err (ValueError (directory e +:+ " and " +:+ directory other +:+ " both declare the task " +:+ str_repr (task_name (task e))))
  | None => Ok (dset found (task_name (task e)) e)
  end.
Definition pick (found : list (string * Selected)) (tasks_dir name : string) : res Selected :=
  match assoc found name with
  | Some e => Ok e
  | None => Err (ValueError ("key select names " +:+ str_repr name +:+ ", which is not a task under " +:+ tasks_dir +:+ "; the tasks are "
                             +:+ match sorted_strings (keys found) with [] => "none" | l => join ", " l end))
  end.
Definition select_tasks (found : list (string * Selected)) (tasks_dir : string) (names : option (list string)) : res (list Selected) :=
  match names with
  | None => raise_if (match found with [] => true | _ => false end)
              (ValueError ("key tasks names " +:+ tasks_dir +:+ ", which holds no task directory"));; Ok (map snd found)
  | Some names => map_res (pick found tasks_dir) names
  end.

(** ** Ceilings *)

Definition effective_budget (s : Settings) (t : Task) : res dict :=
  map_res (λ key, stated ← dict_index (budget t) key; Ok (key, dget_or (s_budget_overrides s) key stated)) BUDGET_KEYS.
(** [codex_limits]. *)
Definition codex_limits (b : dict) : res dict :=
  let refused := ValueError ("the budget " +:+ py_repr (VDict b) +:+ " lacks a positive seconds ceiling; every Codex attempt needs one") in
  (match assoc b "seconds" with
   | None => Err refused
   | Some v => low ← py_compare num_leb "<=" v (VInt 0); raise_if low refused
   end);;
  i ← dict_index b "input_tokens"; o ← dict_index b "output_tokens"; t ← dict_index b "seconds";
  Ok [("input_tokens", i); ("output_tokens", o); ("seconds", t)].

(** ** Tool roots *)

Definition METADATA_TOOL_ROOTS : string := "tool_roots".
(** [if normalized not in roots: roots.append(normalized)]. *)
Definition add_root (roots : list string) (root : string) : list string := set_add (normpath root) roots.
Definition named_roots (t : Task) : value := py_or (dget (metadata t) METADATA_TOOL_ROOTS) (VList []).
Definition needed_tool_roots (s : Settings) (t : Task) : res (list string) :=
  named ← py_iter (named_roots t);
  Ok (fold_left add_root
        (List.filter (λ r, negb (elem_str (normpath r) EXECUTE_ROOTS)) (s_tool_roots s ++ map py_str named)) []).

Definition not_applicable (s : Settings) (a : Arm) (t : Task) : res (option string) :=
  if negb (String.eqb (kind a) "builtin") then Ok None else
  needed ← needed_tool_roots s t;
  match needed with
  | [] => Ok None
  | _ =>
      let document_roots := List.filter (λ r, negb (elem_str r EXECUTE_ROOTS)) (s_tool_roots s) in
      named ← py_iter (named_roots t);
      let sources :=
        match document_roots with [] => [] | l => ["the run document names under tool_roots: " +:+ join ", " l] end
        ++ match named with [] => [] | l => ["task " +:+ str_repr (task_name t) +:+ " names under metadata." +:+ METADATA_TOOL_ROOTS +:+ ": "
                                             +:+ join ", " (map py_str l)] end in
      Ok (Some ("the " +:+ arm_name a +:+ " arm runs the built-in document " +:+ variant a
                +:+ ", whose grants cannot take the tool roots " +:+ join ", and " sources
                +:+ "; the arm runs a task whose tools sit under the built-in execute roots " +:+ join ", " EXECUTE_ROOTS
                +:+ " and whose document names no tool roots"))
  end.

Section host.
(** Whether a path exists. *)
Context (exists_ : string → bool).

(** What the metadata names, when it is absent or a list of texts. *)
Definition stated_roots (t : Task) : option (list string) :=
  match dget (metadata t) METADATA_TOOL_ROOTS with
  | VNone => Some []
  | VList l => if forallb (λ x, is_str x && truthy x) l then Some (omap as_str l) else None
  | _ => None
  end.
Definition roots_error (t : Task) (rest : string) : exn :=
  ValueError ("task " +:+ str_repr (task_name t) +:+ ": metadata." +:+ METADATA_TOOL_ROOTS +:+ " " +:+ rest).
Definition root_step (t : Task) (named roots : list string) (root : string) : res (list string) :=
  raise_if (negb (isabs root)) (roots_error t ("names " +:+ str_repr root +:+ ", which is not an absolute path"));;
  raise_if (elem_str root named && negb (exists_ root)) (roots_error t ("names " +:+ str_repr root +:+ ", which does not exist"));;
  Ok (add_root roots root).
Definition tool_roots (s : Settings) (t : Task) : res (list string) :=
  match stated_roots t with
  | Some named => foldM (root_step t named) [] (EXECUTE_ROOTS ++ s_tool_roots s ++ named)
  | None => Err (roots_error t ("is " +:+ py_repr (dget (metadata t) METADATA_TOOL_ROOTS) +:+ "; expected a list of absolute paths"))
  end.
Definition recorded_tool_roots (s : Settings) (a : Arm) (t : Task) : res (list string) :=
  if String.eqb (kind a) "builtin" then Ok EXECUTE_ROOTS else tool_roots s t.
End host.

(** ** The attempts *)

Definition rotated (arms : list Arm) (attempt task_index : nat) : res (list Arm) :=
  match arms with
  | [] => Err (ZeroDivisionError "integer modulo by zero")
  | _ => let offset := (attempt - 1 + task_index) mod length arms in Ok (drop offset arms ++ take offset arms)
  end.
Abbreviation triple := (nat * Selected * Arm)%type.
(** [planned], attempts counting from one. *)
Definition planned_task (arms : list Arm) (attempt : nat) (entry : nat * Selected) : res (list triple) :=
  order ← rotated arms attempt entry.1; Ok (map (λ a, (attempt, entry.2, a)) order).
Definition planned_attempt (tasks : list Selected) (arms : list Arm) (attempt : nat) : res (list triple) :=
  l ← map_res (planned_task arms attempt) (enumerate tasks); Ok (concat l).
Definition planned (tasks : list Selected) (arms : list Arm) (attempts : nat) : res (list triple) :=
  l ← map_res (planned_attempt tasks arms) (seq 1 attempts); Ok (concat l).

(** What the plan says of an attempt. *)
Inductive row : Type :=
| Launches (t : triple) (ceilings : dict)
| Recorded (t : triple)
| NotApplicable (t : triple) (reason : string).
Definition plan_row (s : Settings) (resume : bool) (recorded : triple → bool) (t : triple) : res row :=
  if resume && recorded t then Ok (Recorded t) else
  reason ← not_applicable s t.2 (task t.1.2);
  match reason with
  | Some r => Ok (NotApplicable t r)
  | None => b ← effective_budget s (task t.1.2); Ok (Launches t b)
  end.
(** [totals[key] += budget[key]], of integers. *)
Definition add_ceilings (totals : list (string * Z)) (b : dict) : list (string * Z) :=
  map (λ kv, (kv.1, (kv.2 + int_of (dget b kv.1))%Z)) totals.
Definition row_ceilings (r : row) : list dict := match r with Launches _ b => [b] | _ => [] end.
Definition plan_rows (s : Settings) (tasks : list Selected) (arms : list Arm) (resume : bool) (recorded : triple → bool)
  : res (list row * list (string * Z)) :=
  triples ← planned tasks arms (s_attempts s);
  rows ← map_res (plan_row s resume recorded) triples;
  Ok (rows, fold_left add_ceilings (concat (map row_ceilings rows)) (map (λ k, (k, 0%Z)) BUDGET_KEYS)).

(** ** The order of the attempts *)

Lemma rotation_lookup {A} (l : list A) o j : o < length l → j < length l →
  (drop o l ++ take o l) !! j = l !! ((o + j) mod length l).
Proof.
  intros Ho Hj. destruct (decide (j < length l - o)) as [Hlt|Hge].
  - rewrite lookup_app_l by (rewrite length_drop; lia). by rewrite lookup_drop, Nat.mod_small by lia.
  - rewrite lookup_app_r by (rewrite length_drop; lia). rewrite length_drop, lookup_take_lt by lia. f_equal.
    assert (o + j = (o + j - length l) + 1 * length l) as -> by lia. rewrite Nat.Div0.mod_add, Nat.mod_small; lia.
Qed.
Lemma rotation_perm {A} (l : list A) o : drop o l ++ take o l ≡ₚ l.
Proof. by rewrite Permutation_app_comm, take_drop. Qed.
(** The items met from one place on, going round. *)
Lemma round {A} (l : list A) c : omap (λ d, l !! ((c + d) mod length l)) (seq 0 (length l)) ≡ₚ l.
Proof.
  destruct (decide (l = [])) as [->|Hl]; [done|]. assert (0 < length l) by (destruct l; [done|cbn; lia]).
  set (o := c mod length l). assert (Ho : o < length l) by (apply Nat.mod_upper_bound; lia).
  transitivity (drop o l ++ take o l); [|apply rotation_perm]. apply reflexive_eq.
  set (r := drop o l ++ take o l). assert (Hr : length r = length l) by (unfold r; rewrite length_app, length_drop, length_take; lia).
  rewrite <-(take_ge r (length l)) by lia. assert (Hle : length l ≤ length l) by lia. revert Hle. generalize (length l) at 1 4 5.
  intros n. induction n as [|n IH]; intros Hn; [done|].
  rewrite seq_S, omap_app, IH by lia. cbn [omap list_omap]. rewrite Nat.add_0_l.
  destruct (lookup_lt_is_Some_2 r n) as [x Hx]; [lia|]. rewrite (take_S_r r n x Hx). f_equal.
  unfold r in Hx. rewrite rotation_lookup in Hx by lia. unfold o in Hx. rewrite Nat.Div0.add_mod_idemp_l in Hx. by rewrite Hx.
Qed.

(** The arm in a place of the order of one attempt at one task. *)
Definition place_in_order (arms : list Arm) (attempt task_index place : nat) : option Arm :=
  match rotated arms attempt task_index with Ok order => order !! place | Err _ => None end.
Lemma place_of arms a i j : 1 ≤ a → j < length arms → place_in_order arms a i j = arms !! ((a - 1 + i + j) mod length arms).
Proof.
  intros Ha Hj. unfold place_in_order, rotated. destruct arms as [|x l]; [cbn in Hj; lia|]. set (arms := x :: l) in *. cbv zeta.
  rewrite rotation_lookup; [by rewrite Nat.Div0.add_mod_idemp_l|apply Nat.mod_upper_bound; unfold arms; cbn; lia|done].
Qed.

Lemma omap_same {A B} (f g : A → option B) (l : list A) : (∀ x, f x = g x) → omap f l = omap g l.
Proof. intros H. induction l as [|x l IH]; [done|]. cbn. by rewrite H, IH. Qed.

(** Every attempt of every task under every arm. *)
Definition all_attempts (tasks : list Selected) (arms : list Arm) (attempts : nat) : list triple :=
  concat (map (λ a, concat (map (λ e, map (λ m, (a, e, m)) arms) tasks)) (seq 1 attempts)).
Lemma map_res_total {A B} (f : A → res B) (g : A → B) l : (∀ x, x ∈ l → f x = Ok (g x)) → map_res f l = Ok (map g l).
Proof.
  induction l as [|x l IH]; intros H; [done|]. cbn. rewrite H by left. cbn. rewrite IH; [done|]. intros y Hy. apply H. by right.
Qed.
Lemma concat_perm {A B} (f g : A → list B) l : (∀ x, x ∈ l → f x ≡ₚ g x) → concat (map f l) ≡ₚ concat (map g l).
Proof.
  induction l as [|x l IH]; intros H; [done|]. cbn. f_equiv; [apply H; left|]. apply IH. intros y Hy. apply H. by right.
Qed.
Lemma concat_enumerate {A B} (f : A → list B) l i : concat (map (λ e, f e.2) (enumerate_from i l)) = concat (map f l).
Proof. revert i. induction l as [|x l IH]; intros i; [done|]. cbn. by rewrite IH. Qed.
Lemma planned_perm tasks arms n : arms ≠ [] → ∃ l, planned tasks arms n = Ok l ∧ l ≡ₚ all_attempts tasks arms n.
Proof.
  intros Hne. unfold planned.
  set (order := λ (a i : nat), drop ((a - 1 + i) mod length arms) arms ++ take ((a - 1 + i) mod length arms) arms).
  assert (Hr : ∀ a i, rotated arms a i = Ok (order a i)) by (intros a i; unfold rotated, order; by destruct arms).
  rewrite (map_res_total _ (λ a, concat (map (λ e : nat * Selected, map (λ m, (a, e.2, m)) (order a e.1)) (enumerate tasks)))).
  - eexists. split; [done|]. unfold all_attempts. apply concat_perm. intros a _.
    rewrite <-(concat_enumerate (λ e, map (λ m, (a, e, m)) arms) tasks 0). apply concat_perm. intros e _. apply Permutation_map, rotation_perm.
  - intros a _. unfold planned_attempt.
    rewrite (map_res_total _ (λ e : nat * Selected, map (λ m, (a, e.2, m)) (order a e.1))); [done|].
    intros e _. unfold planned_task. by rewrite Hr.
Qed.

(** The plan holds every attempt of every task under every arm exactly
    once, and no arm is favoured by the order: over as many consecutive attempts
    of a task, or consecutive tasks of an attempt, as there are arms, each place
    in the order is taken by every arm once. *)
Theorem schedule_balanced tasks arms n : arms ≠ [] →
  (∃ l, planned tasks arms n = Ok l ∧ l ≡ₚ all_attempts tasks arms n) ∧
  ∀ a i place, 1 ≤ a → place < length arms →
    omap (λ d, place_in_order arms (a + d) i place) (seq 0 (length arms)) ≡ₚ arms ∧
    omap (λ d, place_in_order arms a (i + d) place) (seq 0 (length arms)) ≡ₚ arms.
Proof.
  intros Hne. split; [by apply planned_perm|]. intros a i j Ha Hj. split.
  - etrans; [|exact (round arms (a - 1 + i + j))]. apply reflexive_eq, omap_same. intros k. rewrite place_of by lia. do 2 f_equal. lia.
  - etrans; [|exact (round arms (a - 1 + i + j))]. apply reflexive_eq, omap_same. intros k. rewrite place_of by lia. do 2 f_equal. lia.
Qed.
Lemma schedule_balanced_witness :
  (∃ l, planned [] AUTONOMY_ARMS 2 = Ok l ∧ l ≡ₚ all_attempts [] AUTONOMY_ARMS 2) ∧
  omap (λ d, place_in_order AUTONOMY_ARMS (1 + d) 0 0) (seq 0 7) ≡ₚ AUTONOMY_ARMS.
Proof.
  destruct (schedule_balanced [] AUTONOMY_ARMS 2) as [H1 H2]; [done|]. split; [exact H1|].
  exact (proj1 (H2 1 0 0 (le_n 1) ltac:(vm_compute; lia))).
Defined.

(** ** The roots of the arms *)

Lemma execute_roots_add : fold_left add_root EXECUTE_ROOTS [] = EXECUTE_ROOTS.
Proof. vm_compute. reflexivity. Qed.
Lemma add_roots_beyond E l acc : (∀ x, x ∈ acc → x ∉ E) →
  fold_left add_root l (E ++ acc) = E ++ fold_left add_root (List.filter (λ r, negb (elem_str (normpath r) E)) l) acc.
Proof.
  revert acc. induction l as [|r l IH]; intros acc Hacc; [done|]. cbn [fold_left List.filter].
  unfold add_root at 2, set_add. destruct (elem_str (normpath r) E) eqn:E1; cbn [negb].
  - apply elem_str_spec in E1. replace (elem_str (normpath r) (E ++ acc)) with true; [by apply IH|].
    symmetry. apply elem_str_spec, elem_of_app. by left.
  - cbn [fold_left]. unfold add_root at 3, set_add. destruct (elem_str (normpath r) acc) eqn:E2.
    + apply elem_str_spec in E2. replace (elem_str (normpath r) (E ++ acc)) with true; [by apply IH|].
      symmetry. apply elem_str_spec, elem_of_app. by right.
    + apply elem_str_false in E1, E2. replace (elem_str (normpath r) (E ++ acc)) with false.
      * rewrite <-app_assoc. apply IH. intros x [Hx|Hx]%elem_of_app; [auto|]. by apply list_elem_of_singleton in Hx as ->.
      * symmetry. apply elem_str_false. intros [?|?]%elem_of_app; done.
Qed.
Lemma root_steps exists_ t named l acc roots : foldM (root_step exists_ t named) acc l = Ok roots → roots = fold_left add_root l acc ∧ Forall (λ r, isabs r = true) l.
Proof.
  revert acc. induction l as [|r l IH]; intros acc; cbn [foldM fold_left]; [by intros [= ->]|].
  intros (x & Hx & H)%res_bind_ok. unfold root_step in Hx. apply res_bind_ok in Hx as (u & Hu%raise_if_ok & Hx).
  apply res_bind_ok in Hx as (v & _ & [= <-]). apply IH in H as [-> H]. split; [done|]. constructor; [|done].
  by apply negb_false_iff in Hu.
Qed.
Lemma stated_named t named : stated_roots t = Some named → py_iter (named_roots t) = Ok (map VStr named).
Proof.
  unfold stated_roots, named_roots. destruct (dget (metadata t) METADATA_TOOL_ROOTS) as [| | | | |l|]; try done; [by intros [= <-]|].
  destruct (forallb _ l) eqn:E; [|done]. intros [= <-]. destruct l as [|x l]; [done|].
  change (py_or (VList (x :: l)) (VList [])) with (VList (x :: l)). cbn [py_iter]. f_equal. revert E. generalize (x :: l). clear.
  intros l. induction l as [|x l IH]; [done|]. cbn [forallb]. intros [H1 H2]%andb_true_iff. destruct x; try done. cbn. f_equal. auto.
Qed.
Lemma roots_split exists_ s t roots : tool_roots exists_ s t = Ok roots →
  ∃ needed, needed_tool_roots s t = Ok needed ∧ roots = EXECUTE_ROOTS ++ needed.
Proof.
  unfold tool_roots. destruct (stated_roots t) as [named|] eqn:En; [|done]. intros [-> _]%root_steps. eexists. split.
  - unfold needed_tool_roots. rewrite (stated_named _ _ En). cbn [mbind res_bind]. rewrite map_map. cbn [py_str]. by rewrite map_id.
  - rewrite fold_left_app, execute_roots_add, <-(app_nil_r EXECUTE_ROOTS) at 1. apply add_roots_beyond. by intros x ?%elem_of_nil.
Qed.
Lemma add_roots_nodup l acc : NoDup acc → NoDup (fold_left add_root l acc).
Proof. revert acc. induction l as [|r l IH]; intros acc H; [done|]. cbn. apply IH. by apply NoDup_set_add. Qed.

(** Which roots an attempt runs under is told in one way.  Those of a
    document arm are the built-in roots and then the ones the task needs beyond
    them, each once; and the arm that runs the built-in document is applicable
    exactly where these are the built-in roots, the roots its record states. *)
Theorem roots_agree exists_ s t roots : tool_roots exists_ s t = Ok roots →
  NoDup roots ∧ needed_tool_roots s t = Ok (drop (length EXECUTE_ROOTS) roots) ∧ take (length EXECUTE_ROOTS) roots = EXECUTE_ROOTS ∧
  ∀ a, kind a = "builtin" →
    (not_applicable s a t = Ok None ↔ roots = EXECUTE_ROOTS) ∧
    (not_applicable s a t = Ok None → recorded_tool_roots exists_ s a t = tool_roots exists_ s t).
Proof.
  intros H. destruct (roots_split _ _ _ _ H) as (needed & Hn & Hr).
  assert (Hd : NoDup roots).
  { unfold tool_roots in H. destruct (stated_roots t); [|done]. apply root_steps in H as [-> _]. apply add_roots_nodup. constructor. }
  split; [done|]. rewrite Hr, drop_app_length, take_app_length. split_and!; [done|done|]. intros a Ha.
  assert (Hiff : not_applicable s a t = Ok None ↔ EXECUTE_ROOTS ++ needed = EXECUTE_ROOTS).
  { unfold not_applicable. rewrite Ha, Hn. cbn [String.eqb Ascii.eqb Bool.eqb negb mbind res_bind]. split.
    - destruct needed as [|r needed]; [by rewrite app_nil_r|]. intros (named & _ & [=])%res_bind_ok.
    - intros E. apply (f_equal length) in E. rewrite length_app in E. by destruct needed; [|cbn in E; lia]. }
  split; [done|]. intros Hna. apply Hiff in Hna. unfold recorded_tool_roots. rewrite Ha. by rewrite H, Hr, Hna.
Qed.
Definition example_task : Task :=
  {| task_name := "t"; family := "autonomy"; class_name := "solvable"; task_text := ""; correct_statuses := []; correct_codes := [];
     budget := [("model_calls", VInt 5); ("input_tokens", VInt 1000); ("output_tokens", VInt 100); ("seconds", VInt 60)];
     protected := []; metadata := [("tool_roots", VList [VStr "/opt/rust/"; VStr "/usr/bin/"])]; preserved_on_stop := [] |}.
Definition example_settings : Settings :=
  {| s_foe := "/foe"; s_codex := None; s_family := "autonomy"; s_attempts := 2; s_route := "subscription"; s_base_url := None;
     s_model := "m"; s_effort := "medium"; s_out := "/out"; s_credential := None; s_codex_wire_api := "chat"; s_grader_timeout := 60;
     s_source_root := "/foe"; s_tool_roots := ["/opt/rust"]; s_budget_overrides := [("seconds", VInt 90)]; s_canaries := [] |}.
Lemma roots_agree_witness :
  tool_roots (λ _, true) example_settings example_task = Ok (EXECUTE_ROOTS ++ ["/opt/rust"]) ∧
  needed_tool_roots example_settings example_task = Ok ["/opt/rust"].
Proof.
  assert (H : tool_roots (λ _, true) example_settings example_task = Ok (EXECUTE_ROOTS ++ ["/opt/rust"])) by (vm_compute; reflexivity).
  split; [exact H|]. exact (proj1 (proj2 (roots_agree _ _ _ _ H))).
Defined.
