(* ===== verification/RunDocs.v ===== *)
(** * What an attempt runs

    src/evals/cross_harness/run.py: the document a document arm runs, built by
    [Graphs], with the tool roots readable and the workspace named by a
    placeholder until [FoeArm] puts it back; the check command; the command of
    the built-in arm; and the text and the provider of a Codex arm. *)

From Stdlib Require Import Ascii.
From stdpp Require Import base list sets strings pretty.
From Stdlib Require Import ZArith Lia.
From S2P Require Import Prelude PyValue PyText PyUnicode PyPath Shlex TaskProtocol Graphs RunText FoeArm RunPlan.

Definition FOE_PROVIDERS : list (string * string) := [("subscription", "openai-codex"); ("compatible", "compatible-http")].
Definition CODEX_COMPATIBLE_PROVIDER : string := "compatible".
Definition CHECK_SUITE : string := "checks/run.sh".
Definition TESTS_DIR : string := "tests".
Definition METADATA_CHECK : string := "check".
Definition METADATA_WRITE_ROOTS : string := "write_roots".
Definition PHASES : string :=
  "Work in four phases. First, survey: before changing anything, read the task and the workspace, find the files the task "
  +:+ "names, the checks that cover them, and the conventions the workspace states, and run the checks once so their state "
  +:+ "before any change is known. Second, implement: make the smallest sufficient change. Third, assess: treat your own "
  +:+ "implementation as unverified, inspect and test without editing, and for behavior the task parameterizes test materially "
  +:+ "different valid inputs through the same public interface. Fourth, repair: reproduce every finding of the assessment "
  +:+ "before changing a file, then resolve it. When the task cannot be completed as stated, when it is ambiguous in a way the "
  +:+ "workspace does not settle, or when the goal is unreachable, report the status blocked with the code that names the "
  +:+ "reason rather than reporting completion. In your evidence, cite the command output that supports every claim on which "
  +:+ "completion rests.".

(** ** The document *)

(** [with_placeholder]. *)
Definition with_placeholder (document : dict) (workspace : string) : res dict :=
  let '(replaced, count) := substituted workspace WORKSPACE_PLACEHOLDER (VDict document) in
  raise_if (count =? 0)%nat (ValueError ("the document " +:+ py_repr (dget document "name") +:+ " names the workspace " +:+ workspace
                                         +:+ " nowhere; the grants cannot be placed"));;
  Ok (dict_or_empty replaced).

(** [with_read_roots]: the roots beyond the system's, in every read grant that lacks them. *)
Definition beyond_system (roots : list string) : list string := List.filter (λ r, negb (elem_str r EXECUTE_ROOTS)) roots.
Definition add_reads (extra : list string) (read : list value) : list value :=
  read ++ map VStr (List.filter (λ r, negb (existsb (is_string r) read)) extra).
Definition widen_grants (extra : list string) (d : dict) : dict :=
  match assoc d "grants" with
  | Some (VDict g) => match assoc g "read" with Some (VList r) => dset d "grants" (VDict (dset g "read" (VList (add_reads extra r)))) | _ => d end
  | _ => d
  end.
Fixpoint widen (extra : list string) (v : value) : value :=
  match v with
  | VDict d => VDict (widen_grants extra (map (λ kv, (kv.1, widen extra kv.2)) d))
  | VList l => VList (map (widen extra) l)
  | _ => v
  end.
Definition with_read_roots (document : dict) (roots : list string) : dict := dict_or_empty (widen (beyond_system roots) (VDict document)).

Section host.
(** Which paths are directories and files. *)
Context (is_dir is_file : string → bool).

(** [write_roots]: whether the whole workspace is written, and otherwise the roots. *)
Definition task_write_roots (t : Task) (workspace : string) : res (bool * list string) :=
  let named := dget (metadata t) METADATA_WRITE_ROOTS in
  let refused rest := Err (ValueError ("task " +:+ str_repr (task_name t) +:+ ": metadata." +:+ METADATA_WRITE_ROOTS +:+ " " +:+ rest)) in
  match named with
  | VNone => Ok (true, [])
  | VList (_ :: _ as l) =>
      if negb (forallb (λ x, is_str x && truthy x) l)
      then refused ("is " +:+ py_repr named +:+ "; expected a non-empty list of workspace-relative directories")
      else match find (λ r, negb (is_dir (path_join workspace r))) (omap as_str l) with
           | Some root => refused ("names " +:+ str_repr root +:+ ", which is not a directory under " +:+ workspace)
           | None => Ok (false, omap as_str l)
           end
  | _ => refused ("is " +:+ py_repr named +:+ "; expected a non-empty list of workspace-relative directories")
  end.

(** [foe_document]: the graph with the budget, the write roots and what it may
    execute, and the document made of it. *)
Definition graph_document (a : Arm) (t : Task) (workspace check : string) (tools : list string) (given_budget : option dict) : res dict :=
  roots ← task_write_roots t workspace;
  limits ← map_res (λ k, v ← dict_index (default (budget t) given_budget) k; Ok (k, v)) BUDGET_KEYS;
  autonomy workspace check limits (variant a) roots.1 (match roots.2 with [] => WRITE_ROOTS | l => l end)
    (tools ++ [path_str workspace]) PLACEHOLDER_TASK.
Definition foe_document (a : Arm) (t : Task) (workspace check : string) (tools : list string) (given_budget : option dict) : res dict :=
  document ← graph_document a t workspace check tools given_budget;
  with_placeholder (with_read_roots document tools) (path_str workspace).

(** [check_command]. *)
Definition check_command (t : Task) (workspace : string) : res (list string) :=
  match dget (metadata t) METADATA_CHECK with
  | VNone =>
      if is_file (path_join workspace CHECK_SUITE) then Ok ["/usr/bin/bash"; CHECK_SUITE]
      else if is_dir (path_join workspace TESTS_DIR)
      then Ok ["/usr/bin/python3"; "-B"; "-m"; "unittest"; "discover"; "-s"; TESTS_DIR; "-t"; "."]
      else Err (ValueError ("task " +:+ str_repr (task_name t) +:+ ": the workspace " +:+ workspace +:+ " has neither " +:+ CHECK_SUITE
                            +:+ " nor a " +:+ TESTS_DIR +:+ " directory, and metadata names no " +:+ METADATA_CHECK))
  | v =>
      match v with
      | VStr command => if String.eqb (str_strip command) "" then
            Err (ValueError ("task " +:+ str_repr (task_name t) +:+ ": metadata." +:+ METADATA_CHECK +:+ " is " +:+ py_repr v
                             +:+ "; expected a shell command string"))
          else Ok ["/usr/bin/bash"; "-c"; command]
      | _ => Err (ValueError ("task " +:+ str_repr (task_name t) +:+ ": metadata." +:+ METADATA_CHECK +:+ " is " +:+ py_repr v
                              +:+ "; expected a shell command string"))
      end
  end.
End host.

(** ** The check script *)

Definition SYSTEM_SEARCH_PATH : string := "/usr/local/sbin:/usr/local/bin:/usr/sbin:/usr/bin:/sbin:/bin".
Definition COMMAND_NOT_FOUND_STATUS : string := "127".
Definition CACHE_TAG_FILE : string := "CACHEDIR.TAG".
Definition CACHE_TAG_SIGNATURE : string := "Signature: 8a477f597d28d172789f06886806bc55".
Definition CHECK_SCRATCH_DIR : string := ".check-tmp".
Definition UNAVAILABLE : string := "the check suite could not run".
Definition in_quotes (s : string) : string := String dquote (s +:+ String dquote "").
(** The text [write_check_script] writes; [home] is the user's home directory. *)
Definition check_script (is_dir : string → bool) (home workspace : string) (command search_path : list string) : string :=
  let directories := List.filter (λ r, negb (elem_str r (split_on ":" SYSTEM_SEARCH_PATH)) && is_dir r) search_path in
  let joined := shell_join command in
  let scratch := shell_quote (path_join workspace CHECK_SCRATCH_DIR) in
  join nl
    ["#!/bin/sh";
     "# The check tool of a cross-harness foe document: the task's check suite, run from the workspace.";
     "PATH=" +:+ shell_quote (join ":" (SYSTEM_SEARCH_PATH :: directories));
     "LANG=C.UTF-8";
     "HOME=" +:+ shell_quote home;
     "TMPDIR=" +:+ scratch;
     "export PATH LANG HOME";
     "cd " +:+ shell_quote workspace +:+ " || { echo " +:+ shell_quote ("the workspace " +:+ workspace +:+ " cannot be entered") +:+ "; exit 0; }";
     "if mkdir -p " +:+ scratch +:+ " && printf '%s\n' " +:+ shell_quote CACHE_TAG_SIGNATURE +:+ " > " +:+ scratch +:+ "/" +:+ CACHE_TAG_FILE +:+ " 2>/dev/null; then";
     "  export TMPDIR";
     "else";
     "  unset TMPDIR";
     "fi";
     "output=$(" +:+ joined +:+ " 2>&1)";
     "status=$?";
     "if [ " +:+ in_quotes "$status" +:+ " -eq " +:+ COMMAND_NOT_FOUND_STATUS +:+ " ]; then";
     "  printf '%s\n' " +:+ in_quotes "$output" +:+ " | tail -n 40";
     "  echo " +:+ shell_quote (UNAVAILABLE +:+ ": " +:+ joined +:+ " exited " +:+ COMMAND_NOT_FOUND_STATUS
                                 +:+ ", so a command it names is absent from the search path") +:+ " " +:+ in_quotes "$PATH";
     "elif [ " +:+ in_quotes "$status" +:+ " -ne 0 ]; then";
     "  printf '%s\n' " +:+ in_quotes "$output" +:+ " | tail -n 40";
     "  echo " +:+ shell_quote ("the check suite " +:+ joined +:+ " exited") +:+ " " +:+ in_quotes "$status";
     "fi";
     "exit 0";
     ""].

(** ** The route and the prompt *)

(** [foe_route]. *)
Definition foe_route (s : Settings) : res ModelRoute :=
  match assoc FOE_PROVIDERS (s_route s) with
  | None => Err (KeyError (s_route s))
  | Some p =>
      if String.eqb (s_route s) "compatible" then
        raise_if (negb (given (s_base_url s)))
          (ValueError "the compatible route needs model.base_url; docs/models.md requires base_url for compatible-http");;
        make_route {| provider := p; model_name := s_model s; base_url := s_base_url s |}
      else make_route {| provider := p; model_name := s_model s; base_url := None |}
  end.
(** [codex_task_text]. *)
Definition codex_task_text (a : Arm) (t : Task) : string :=
  if String.eqb (variant a) "equivalent" then task_text t +:+ nl +:+ nl +:+ PHASES else task_text t.
(** [codex_providers]. *)
Definition codex_providers (s : Settings) : res (option dict) :=
  if negb (String.eqb (s_route s) "compatible") then Ok None else
  raise_if (negb (given (s_base_url s)))
    (ValueError "the compatible route needs model.base_url; the Codex provider override carries it as base_url");;
  Ok (Some [(CODEX_COMPATIBLE_PROVIDER, VDict [("name", VStr CODEX_COMPATIBLE_PROVIDER); ("base_url", option_str (s_base_url s));
                                               ("wire_api", VStr (s_codex_wire_api s))])]).
(** [builtin_command_line]. *)
Definition builtin_command_line (foe task document logs : string) (r : ModelRoute) : list string :=
  [foe; task; "--config"; document; "--log-dir"; logs; "--viewer"; "off"; "--model"; provider r +:+ "/" +:+ model_name r].

(** ** Replacing and replacing back, in a document *)

(** No string of the value holds the text. *)
Fixpoint lacks (P : string) (v : value) : bool :=
  match v with
  | VStr s => negb (occurs P s)
  | VList l => forallb (lacks P) l
  | VDict d => forallb (λ kv, lacks P kv.2) d
  | _ => true
  end.
Lemma placeholder_marked : marked WORKSPACE_PLACEHOLDER.
Proof. by exists "{"%char, "workspace}". Qed.
Lemma substituted_back w P v : w ≠ "" → marked P → lacks P v = true →
  substituted P w (substituted w P v).1 = (v, (substituted w P v).2).
Proof.
  intros Hw HP. induction v as [|b|z|f|s|l IH|d IH] using value_ind'; intros Hl; try done.
  - cbn in Hl |- *. apply negb_true_iff in Hl. destruct (occurs w s) eqn:Eo; cbn [fst snd substituted].
    + rewrite replace_occurs by done. by rewrite replace_back.
    + by rewrite Hl.
  - cbn in Hl |- *. cut (map (substituted P w) (map fst (map (substituted w P) l)) = map (λ v, (v, (substituted w P v).2)) l).
    { intros ->. rewrite !map_map. cbn [fst snd]. by rewrite map_id. }
    induction IH as [|v l Hv _ IHl]; [done|]. cbn in Hl |- *. apply andb_true_iff in Hl as [H1 H2]. by rewrite Hv, IHl by done.
  - cbn in Hl |- *.
    cut (map (λ kv : string * value, (kv.1, substituted P w kv.2)) (map (λ e : string * (value * nat), (e.1, e.2.1)) (map (λ kv, (kv.1, substituted w P kv.2)) d))
         = map (λ kv, (kv.1, (kv.2, (substituted w P kv.2).2))) d).
    { intros ->. rewrite !map_map. cbn [fst snd]. f_equal. f_equal. rewrite <-(map_id d) at 2. apply map_ext. by intros []. }
    induction IH as [|[k v] d Hv _ IHd]; [done|]. cbn in Hl, Hv |- *. apply andb_true_iff in Hl as [H1 H2]. by rewrite Hv, IHd by done.
Qed.

(** ** What the roots change *)

Lemma widen_strs e l : widen e (strs l) = strs l.
Proof. unfold strs. cbn. f_equal. induction l as [|x l IH]; [done|]. cbn. by f_equal. Qed.
Lemma assoc_values {A B} (f : A → B) (d : list (string * A)) k : assoc (map (λ kv, (kv.1, f kv.2)) d) k = f <$> assoc d k.
Proof. induction d as [|[k' v] d IH]; [done|]. cbn. by destruct (String.eqb k' k). Qed.
Lemma widen_grants_other e d k : k ≠ "grants" → assoc (widen_grants e d) k = assoc d k.
Proof.
  intros Hk. unfold widen_grants. destruct (assoc d "grants") as [[| | | | | |g]|]; try done. destruct (assoc g "read") as [[| | | | |r|]|]; try done.
  by apply assoc_dset_ne.
Qed.
(** Where a document is widened it says the same, widened, apart from its grants. *)
Lemma dget_widened d roots k : k ≠ "grants" → dget (with_read_roots d roots) k = widen (beyond_system roots) (dget d k).
Proof.
  intros Hk. unfold with_read_roots, dget.
  change (dict_or_empty (widen (beyond_system roots) (VDict d)))
    with (widen_grants (beyond_system roots) (map (λ kv, (kv.1, widen (beyond_system roots) kv.2)) d)).
  rewrite widen_grants_other, assoc_values by done. by destruct (assoc d k).
Qed.
(** The grants of a contract whose grants are lists of texts. *)
Definition grants_dict (read execute : list string) (more : list (string * list string)) : dict :=
  map (λ kv, (kv.1, strs kv.2)) (("read", read) :: more ++ [("execute", execute)]).
Definition plain_grants (d : dict) : Prop := ∃ g : list (string * list string), assoc d "grants" = Some (VDict (map (λ kv, (kv.1, strs kv.2)) g)) ∧
  (∃ r, assoc g "read" = Some r) ∧ assoc g "grants" = None.
Lemma grant_list_grants d g k : assoc d "grants" = Some (VDict (map (λ kv, (kv.1, strs kv.2)) g)) → grant_list d k = default [] (assoc g k).
Proof.
  intros H. unfold grant_list. replace (dget d "grants") with (VDict (map (λ kv, (kv.1, strs kv.2)) g)) by (unfold dget; by rewrite H).
  change (dict_or_empty (VDict (map (λ kv, (kv.1, strs kv.2)) g))) with (map (λ kv : string * list string, (kv.1, strs kv.2)) g).
  unfold dget. rewrite assoc_values. destruct (assoc g k) as [l|]; [exact (str_list_strs l)|done].
Qed.
Lemma add_reads_strs e l : VList (add_reads e (map VStr l)) = strs (l ++ List.filter (λ r, negb (elem_str r l)) e).
Proof.
  unfold add_reads, strs. rewrite map_app. do 3 f_equal. apply List.filter_ext. intros r. f_equal. unfold elem_str.
  induction l as [|x l IH]; [done|]. cbn [map existsb is_string]. by rewrite IH, String.eqb_sym.
Qed.
Lemma widened_grants e d : plain_grants d → ∃ g r, assoc d "grants" = Some (VDict (map (λ kv, (kv.1, strs kv.2)) g)) ∧ assoc g "read" = Some r ∧
  assoc (dict_or_empty (widen e (VDict d))) "grants"
  = Some (VDict (map (λ kv, (kv.1, strs kv.2)) (dset g "read" (r ++ List.filter (λ x, negb (elem_str x r)) e)))).
Proof.
  intros (g & Hg & (r & Hr) & Hn). exists g, r. split_and!; [done|done|].
  change (dict_or_empty (widen e (VDict d))) with (widen_grants e (map (λ kv, (kv.1, widen e kv.2)) d)). unfold widen_grants at 1. rewrite assoc_values, Hg. cbn [fmap option_fmap option_map widen].
  assert (Hw : widen_grants e (map (λ kv, (kv.1, widen e kv.2)) (map (λ kv, (kv.1, strs kv.2)) g)) = map (λ kv : string * list string, (kv.1, strs kv.2)) g).
  { rewrite map_map. rewrite (map_ext _ (λ kv : string * list string, (kv.1, strs kv.2))) by (intros [k v]; cbn [fst snd]; by rewrite widen_strs).
    unfold widen_grants. by rewrite assoc_values, Hn. }
  rewrite Hw, assoc_values, Hr. cbn [fmap option_fmap option_map]. unfold strs at 1. rewrite assoc_dset_eq, add_reads_strs. do 2 f_equal.
  revert Hr. clear. generalize (r ++ List.filter (λ x, negb (elem_str x r)) e). intros l. revert r. induction g as [|[k v] g IH]; intros r Hr; [done|].
  cbn in Hr |- *. destruct (String.eqb_spec k "read") as [->|]; [done|]. cbn. f_equal. by eapply IH.
Qed.
Lemma grants_widened e d : plain_grants d → let w := dict_or_empty (widen e (VDict d)) in
  grant_list w "read" = grant_list d "read" ++ List.filter (λ x, negb (elem_str x (grant_list d "read"))) e ∧
  (∀ k, k ≠ "read" → grant_list w k = grant_list d k) ∧ plain_grants w.
Proof.
  intros H. destruct (widened_grants e d H) as (g & r & Hg & Hr & Hw). cbv zeta. rewrite (grant_list_grants d g "read" Hg), Hr.
  rewrite (grant_list_grants _ _ "read" Hw), assoc_dset_eq. cbn [default]. split_and!; [done| |].
  - intros k Hk. rewrite (grant_list_grants _ _ k Hw), (grant_list_grants _ _ k Hg), assoc_dset_ne by done. done.
  - exists (dset g "read" (r ++ List.filter (λ x, negb (elem_str x r)) e)). split_and!; [done|rewrite assoc_dset_eq; eauto|].
    rewrite assoc_dset_ne by done. destruct H as (g' & Hg' & _ & Hn). rewrite Hg in Hg'. injection Hg' as Hg'.
    assert (Hn2 : (strs <$> assoc g "grants") = (strs <$> assoc g' "grants")) by (rewrite <-!assoc_values, Hg'; done).
    rewrite Hn in Hn2. by destruct (assoc g "grants").
Qed.

Lemma contract_plain s name role tools returns budget : plain_grants (contract s name role tools returns budget).
Proof.
  exists ([("read", [workspace s]); ("execute", execute s)]
          ++ match node_writes s (offered s tools) with [] => [] | l => [("write", l)] end).
  unfold contract. destruct (node_writes s (offered s tools)) as [|x l]; (split_and!; [reflexivity|by exists [workspace s]|reflexivity]).
Qed.
Lemma graph_plain s variant task d : graph_on s variant task = Ok d → plain_grants d ∧ ∀ name m, (name, m) ∈ models_of d → plain_grants m.
Proof.
  intros H. split.
  - unfold graph_on in H. cbv zeta in H. unfold document in H. apply res_bind_ok in H as (counts & _ & [= <-]).
    set (t := with_mechanisms _ _ _). exists [("read", [workspace t]); ("write", root_write t); ("execute", execute t)].
    split_and!; [reflexivity|by exists [workspace t]|reflexivity].
  - intros name m Hm. rewrite (graph_models _ _ _ _ H) in Hm. cbv zeta in Hm. set (t := with_mechanisms _ _ _) in Hm.
    apply elem_of_app in Hm as [Hm|Hm].
    { destruct (String.eqb variant "lean"); [by apply elem_of_nil in Hm|]. apply list_elem_of_singleton in Hm as [= -> ->]. apply contract_plain. }
    repeat (apply elem_of_cons in Hm as [[= -> ->]|Hm]; [apply contract_plain|]). by apply elem_of_nil in Hm.
Qed.
Lemma models_widened s variant task d roots : variant ∈ AUTONOMY_VARIANTS → graph_on s variant task = Ok d →
  models_of (with_read_roots d roots) = map (λ n, (n.1, with_read_roots n.2 roots)) (models_of d).
Proof.
  intros Hv H. revert H. pattern variant. apply variant_cases; [exact Hv|..]; intros [= <-]; reflexivity.
Qed.
Lemma graph_seconds s variant task d roots b : variant ∈ AUTONOMY_VARIANTS → check_budget b = Ok (limits s) → graph_on s variant task = Ok d →
  ∃ l, dget (with_read_roots d roots) "budget" = VDict l ∧ assoc l "seconds" = assoc b "seconds".
Proof.
  intros Hv (_ & c & z & i & o & Hl & _ & _ & _ & Hk)%budget_accepted H.
  assert (Hs : assoc b "seconds" = Some (VInt z)) by (rewrite <-Hk, Hl; [done|by apply elem_str_spec]).
  rewrite Hs. revert H. destruct s as [w ck L wr ex st ve]. cbn [limits] in Hl. subst L. pattern variant.
  apply variant_cases; [exact Hv|..]; (intros [= <-]; eexists; split; [reflexivity|destruct i, o; reflexivity]).
Qed.

(** ** Putting the workspace back *)

Definition replace_in (old new : string) (v : value) : value := (substituted old new v).1.
Lemma replaced_dict old new d : replace_in old new (VDict d) = VDict (map (λ kv, (kv.1, replace_in old new kv.2)) d).
Proof. unfold replace_in. cbn [substituted fst]. by rewrite map_map. Qed.
Lemma dget_replaced old new d k : dget (dict_or_empty (replace_in old new (VDict d))) k = replace_in old new (dget d k).
Proof.
  rewrite replaced_dict. unfold dget. change (dict_or_empty (VDict ?l)) with l. rewrite assoc_values. by destruct (assoc d k).
Qed.
Lemma replaced_strs old new l : ∃ l', replace_in old new (strs l) = strs l'.
Proof.
  exists (map (λ s, if occurs old s then str_replace old new s else s) l). unfold replace_in, strs. cbn [substituted fst]. f_equal.
  rewrite !map_map. apply map_ext. intros s. cbn [substituted]. by destruct (occurs old s).
Qed.
Lemma counted_dict old new d k v : assoc d k = Some v → 0 < (substituted old new v).2 → 0 < (substituted old new (VDict d)).2.
Proof.
  cbn [substituted snd]. rewrite map_map. cbn [snd]. induction d as [|[k' v'] d IH]; [done|]. cbn [map assoc fst snd nat_sum foldr].
  destruct (String.eqb k' k); [intros [= ->] ?; lia|]. intros H1 H2. specialize (IH H1 H2). unfold nat_sum in IH. lia.
Qed.
Lemma counted_head old new l : 0 < (substituted old new (strs (old :: l))).2.
Proof.
  unfold strs. cbn [substituted snd map]. replace (occurs old old) with true; [cbn; lia|].
  symmetry. apply occurs_here. rewrite <-(str_app_nil_r old) at 2. apply starts_with_app.
Qed.
Lemma lacks_dget P d k : lacks P (VDict d) = true → lacks P (dget d k) = true.
Proof.
  cbn [lacks]. unfold dget. induction d as [|[k' v] d IH]; [done|]. cbn. intros [H1 H2]%andb_true_iff. destruct (String.eqb k' k); auto.
Qed.
(** A document whose workspace was named by the placeholder is, prepared for
    that workspace, the document it was made of. *)
Lemma prepared_back w d doc s l r g : w ≠ "" → with_placeholder d w = Ok doc → lacks WORKSPACE_PLACEHOLDER (VDict d) = true →
  assoc d "grants" = Some (VDict (map (λ kv, (kv.1, strs kv.2)) g)) → assoc g "read" = Some (w :: r) →
  dget d "budget" = VDict l → assoc l "seconds" = Some (VInt (cap s)) →
  spec_document s = doc → spec_workspace s = w →
  prepare_document s = Ok (dset (dset d "task" (VStr (spec_task s))) "model" (VDict (block (route s) (reasoning_effort s))), PLACED_BY_PLACEHOLDER).
Proof.
  intros Hw Hd Hl Hg Hr Hb Hs E1 E2. unfold with_placeholder in Hd. destruct (substituted w _ _) as [v n] eqn:Ev.
  apply res_bind_ok in Hd as (u & _ & [= <-]).
  assert (Hv : v = replace_in w WORKSPACE_PLACEHOLDER (VDict d)) by (unfold replace_in; by rewrite Ev). clear Ev n.
  assert (Hgr : dget (dict_or_empty v) "grants" = replace_in w WORKSPACE_PLACEHOLDER (VDict (map (λ kv, (kv.1, strs kv.2)) g))).
  { rewrite Hv, dget_replaced. f_equal. unfold dget. by rewrite Hg. }
  assert (Hdict : VDict (dict_or_empty v) = v) by (rewrite Hv, replaced_dict; done).
  unfold prepare_document. rewrite E1, E2, Hgr. rewrite replaced_dict at 1. set (gr := map _ _).
  assert (Hck : ∀ k, check_grant gr k = Ok ()).
  { intros k. unfold check_grant, gr. unfold dget. rewrite !assoc_values. destruct (assoc g k) as [x|]; [|done]. cbn [fmap option_fmap option_map].
    destruct (replaced_strs w WORKSPACE_PLACEHOLDER x) as [x' ->]. cbn. replace (forallb is_str (map VStr x')) with true; [done|].
    clear. induction x'; done. }
  cbn [WORKSPACE_GRANT_KINDS foldM]. rewrite !Hck. cbn [mbind res_bind mret res_ret].
  assert (Hback : substitute (VDict gr) w = (VDict (map (λ kv, (kv.1, strs kv.2)) g),
                                              (substituted w WORKSPACE_PLACEHOLDER (VDict (map (λ kv, (kv.1, strs kv.2)) g))).2)).
  { unfold substitute, gr. rewrite <-replaced_dict. apply substituted_back; [done|apply placeholder_marked|].
    pose proof (lacks_dget _ _ "grants" Hl) as Hlg. unfold dget in Hlg. by rewrite Hg in Hlg. }
  rewrite Hback. cbn [snd].
  assert (Hpos : 0 < (substituted w WORKSPACE_PLACEHOLDER (VDict (map (λ kv, (kv.1, strs kv.2)) g))).2).
  { eapply (counted_dict _ _ _ "read" (strs (w :: r))); [by rewrite assoc_values, Hr|apply counted_head]. }
  apply Nat.ltb_lt in Hpos. rewrite Hpos. cbn [negb].
  rewrite Hdict. unfold substitute. rewrite Hv. unfold replace_in. rewrite substituted_back by (done || apply placeholder_marked). cbn [fst dict_or_empty as_dict default].
  change (id d) with d. unfold check_seconds. rewrite Hb, Hs, Z.leb_refl. reflexivity.
Qed.

(** ** The document of an attempt *)

Lemma indexed b ks l : map_res (λ k, v ← dict_index b k; Ok (k, v)) ks = Ok l → ∀ k, k ∈ ks → assoc l k = assoc b k.
Proof.
  revert l. induction ks as [|x ks IH]; intros l; [by intros _ k ?%elem_of_nil|]. cbn [map_res].
  intros (y & (v & Hv & [= <-])%res_bind_ok & (r & Hr & [= <-])%res_bind_ok)%res_bind_ok k Hk. cbn.
  destruct (String.eqb_spec x k) as [->|Hne]; [unfold dict_index in Hv; destruct (assoc b k); [by injection Hv as ->|done]|].
  apply elem_of_cons in Hk as [->|Hk]; [done|]. by eapply IH.
Qed.
Lemma graph_of a t is_dir ws check tools b g : graph_document is_dir a t ws check tools (Some b) = Ok g →
  isabs ws = true ∧ variant a ∈ AUTONOMY_VARIANTS ∧ ∃ s limits, graph_on s (variant a) PLACEHOLDER_TASK = Ok g ∧ workspace s = path_str ws ∧
    execute s = tools ++ [path_str ws] ∧ check_budget limits = Ok (Graphs.limits s) ∧ assoc limits "seconds" = assoc b "seconds".
Proof.
  intros H. unfold graph_document in H. apply res_bind_ok in H as (roots & _ & H). apply res_bind_ok in H as (limits & Hl & H).
  apply autonomy_ok in H as [Hv (s & Hs & H)]. apply shape_ok in Hs as (Ha & Hw & _ & _ & He & Hb & _). split_and!; [done|done|].
  exists s, limits. split_and!; [done|done|done|done|]. eapply indexed; [exact Hl|]. by apply elem_str_spec.
Qed.

Section launched.
Context (is_dir : string → bool) (a : Arm) (t : Task) (ws check : string) (tools : list string) (b : dict).
(** The document of the attempt, and the specification of its run: of the same
    workspace, with the seconds ceiling as its cap. *)
Context (doc : dict) (Hdoc : foe_document is_dir a t ws check tools (Some b) = Ok doc).
Context (s : FoeSpec) (Hd : spec_document s = doc) (Hw : spec_workspace s = path_str ws) (Hcap : assoc b "seconds" = Some (VInt (cap s))).

(** Claim C38. What foe is run with is the graph, with the tool roots readable, the
    task and the model in their places and nothing else changed: naming the
    workspace by the placeholder and putting it back loses nothing, whatever
    the path of the workspace, unless the document held the placeholder. *)
Theorem launched_document : (∀ g, graph_document is_dir a t ws check tools (Some b) = Ok g → lacks WORKSPACE_PLACEHOLDER (VDict (with_read_roots g tools)) = true) →
  ∃ g, graph_document is_dir a t ws check tools (Some b) = Ok g ∧
    prepare_document s = Ok (dset (dset (with_read_roots g tools) "task" (VStr (spec_task s))) "model" (VDict (block (route s) (reasoning_effort s))),
                             PLACED_BY_PLACEHOLDER).
Proof.
  intros Hl. apply res_bind_ok in Hdoc as (g & Hg & Hp). exists g. split; [done|]. specialize (Hl g Hg).
  apply graph_of in Hg as (Ha & Hv & sh & limits & Hgo & Hws & _ & Hb & Hsec).
  destruct (graph_plain _ _ _ _ Hgo) as [Hpl _]. destruct (graph_seconds _ _ _ _ tools _ Hv Hb Hgo) as (l & Hbl & Hls).
  destruct (widened_grants (beyond_system tools) g Hpl) as (gr & r & Hgr & Hr & Hwd).
  assert (Hread : r = [path_str ws]).
  { destruct (document_reads _ _ _ _ _ _ _ _ Hgo) as (_ & Hrd & _). rewrite (grant_list_grants _ _ _ Hgr), Hr in Hrd. change (default [] (Some r)) with r in Hrd. by rewrite Hrd, <-Hws. }
  eapply prepared_back; [|exact Hp|exact Hl|exact Hwd|rewrite assoc_dset_eq, Hread; reflexivity|exact Hbl|by rewrite Hls, Hsec|done|done].
  unfold path_str. by rewrite Ha.
Qed.

(** In the document foe is run with, every contract, the root and each
    node, reads the workspace and the tool roots beyond the system's, executes
    the tool roots and the workspace, and writes what the graph lets it write:
    what it may execute beyond the system directories it may also read. *)
Theorem launched_grants run placement g : graph_document is_dir a t ws check tools (Some b) = Ok g →
  lacks WORKSPACE_PLACEHOLDER (VDict (with_read_roots g tools)) = true → prepare_document s = Ok (run, placement) →
  keys (models_of run) = keys (models_of g) ∧
  ∀ name m, (name, m) ∈ ("root", run) :: models_of run → ∃ m', (name, m') ∈ ("root", g) :: models_of g ∧
    grant_list m "read" = path_str ws :: List.filter (λ r, negb (String.eqb r (path_str ws))) (beyond_system tools) ∧
    grant_list m "execute" = tools ++ [path_str ws] ∧ grant_list m "write" = grant_list m' "write" ∧
    ∀ p, p ∈ grant_list m "execute" → p ∈ EXECUTE_ROOTS ∨ p ∈ grant_list m "read".
Proof.
  intros Hg Hl Hrun. destruct launched_document as (g' & Hg' & Hp).
  { intros g' Hg'. rewrite Hg in Hg'. by injection Hg' as <-. }
  rewrite Hg in Hg'. injection Hg' as <-. rewrite Hrun in Hp. injection Hp as -> ->.
  apply graph_of in Hg as (Ha & Hv & sh & limits & Hgo & Hws & Hex & _).
  destruct (graph_plain _ _ _ _ Hgo) as [Hroot Hnodes]. set (w := with_read_roots g tools).
  assert (Hm : models_of (dset (dset w "task" (VStr (spec_task s))) "model" (VDict (block (route s) (reasoning_effort s)))) = models_of w).
  { unfold models_of, nodes_of, dget. by rewrite !assoc_dset_ne. }
  rewrite Hm. unfold w. rewrite (models_widened _ _ _ _ _ Hv Hgo). split; [unfold keys; by rewrite map_map|].
  assert (Hc : ∀ m', plain_grants m' → grant_list m' "read" = [path_str ws] → grant_list m' "execute" = tools ++ [path_str ws] →
    ∀ m, (∀ k, grant_list m k = grant_list (with_read_roots m' tools) k) →
    grant_list m "read" = path_str ws :: List.filter (λ r, negb (String.eqb r (path_str ws))) (beyond_system tools) ∧
    grant_list m "execute" = tools ++ [path_str ws] ∧ grant_list m "write" = grant_list m' "write" ∧
    ∀ p, p ∈ grant_list m "execute" → p ∈ EXECUTE_ROOTS ∨ p ∈ grant_list m "read").
  { intros m' Hpl Hr He m Hk. destruct (grants_widened (beyond_system tools) m' Hpl) as (Hr' & Ho & _).
    rewrite !Hk. fold (with_read_roots m' tools) in Hr', Ho. rewrite Hr', Hr, (Ho "execute"), (Ho "write") by done. rewrite He.
    assert (Hf : List.filter (λ x, negb (elem_str x [path_str ws])) (beyond_system tools)
                 = List.filter (λ r, negb (String.eqb r (path_str ws))) (beyond_system tools)).
    { apply List.filter_ext. intros x. unfold elem_str. cbn. by rewrite orb_false_r. }
    rewrite Hf. split_and!; [done|done|done|]. intros p [Hp|Hp]%elem_of_app; [|right; apply list_elem_of_singleton in Hp as ->; left].
    destruct (elem_str p EXECUTE_ROOTS) eqn:Ep; [left; by apply elem_str_spec|right].
    destruct (String.eqb_spec p (path_str ws)) as [->|Hne]; [left|]. right. apply list_elem_of_In, filter_In. split.
    - apply filter_In. split; [by apply list_elem_of_In|by rewrite Ep].
    - apply String.eqb_neq in Hne. by rewrite Hne. }
  destruct (document_reads _ _ _ _ _ _ _ _ Hgo) as (_ & Hrd & Hed & _).
  intros name m [Hin|Hin]%elem_of_cons.
  - injection Hin as -> ->. exists g. split; [left|]. apply (Hc g Hroot); [by rewrite Hrd; cbn; rewrite Hws|by rewrite Hed, <-Hex|].
    intros k. unfold grant_list, dget. by rewrite !assoc_dset_ne.
  - apply list_elem_of_fmap in Hin as ([n m'] & [= -> ->] & Hin). exists m'. split; [by right|].
    destruct (model_grants _ _ _ _ _ _ Hgo Hin) as (Hr & He & _). apply (Hc m' (Hnodes _ _ Hin)); [by rewrite Hr, Hws|by rewrite He, Hex|done].
Qed.
End launched.

(** ** Witnesses *)

Definition example_tools : list string := EXECUTE_ROOTS ++ ["/opt/rust"].
Definition example_budget : dict := [("model_calls", VInt 5); ("input_tokens", VInt 1000); ("output_tokens", VInt 100); ("seconds", VInt 90)].
Definition example_arm (n : nat) : Arm := nth n AUTONOMY_ARMS {| arm_name := ""; harness := ""; kind := ""; variant := "" |}.
Definition made (m : res dict) : dict := match m with Ok d => d | Err _ => [] end.
Definition example_graph : res dict := graph_document (λ _, true) (example_arm 0) example_task "/w" "/a/check" example_tools (Some example_budget).
Definition example_document : res dict := foe_document (λ _, true) (example_arm 0) example_task "/w" "/a/check" example_tools (Some example_budget).
Definition example_spec : FoeSpec :=
  {| binary := "/foe"; spec_document := made example_document; spec_task := "Fix it."; spec_workspace := "/w"; log_dir := "/a/log"; artifacts := "/a/artifacts";
     route := {| provider := "openai-codex"; model_name := "m"; base_url := None |}; cap := 90; reasoning_effort := Some "medium" |}.
Lemma made_ok m : is_ok m = true → m = Ok (made m).
Proof. by destruct m. Qed.
Lemma example_made : example_document = Ok (made example_document) ∧ example_graph = Ok (made example_graph).
Proof. split; apply made_ok; vm_compute; reflexivity. Qed.
Lemma example_lacks g : example_graph = Ok g → lacks WORKSPACE_PLACEHOLDER (VDict (with_read_roots g example_tools)) = true.
Proof.
  assert (H : lacks WORKSPACE_PLACEHOLDER (VDict (with_read_roots (made example_graph) example_tools)) = true) by (vm_compute; reflexivity).
  intros Hg. by rewrite Hg in H.
Qed.
Lemma launched_document_witness : ∃ g, example_graph = Ok g ∧ is_ok (prepare_document example_spec) = true.
Proof.
  destruct (launched_document (λ _, true) (example_arm 0) example_task "/w" "/a/check" example_tools example_budget
    (made example_document) (proj1 example_made) example_spec eq_refl eq_refl eq_refl example_lacks) as (g & Hg & Hp).
  exists g. split; [exact Hg|]. by rewrite Hp.
Defined.
Lemma launched_grants_witness :
  let g := made example_graph in let run := match prepare_document example_spec with Ok r => r.1 | Err _ => [] end in
  keys (models_of run) = keys (models_of g) ∧ grant_list run "read" = ["/w"; "/opt/rust"].
Proof.
  cbv zeta. destruct (prepare_document example_spec) as [[run placement]|e] eqn:E; [|by vm_compute in E].
  destruct (launched_grants (λ _, true) (example_arm 0) example_task "/w" "/a/check" example_tools example_budget
    (made example_document) (proj1 example_made) example_spec eq_refl eq_refl eq_refl run placement (made example_graph) (proj2 example_made)
    (example_lacks _ (proj2 example_made)) E) as [H1 H2].
  split; [exact H1|]. destruct (H2 "root" run (list_elem_of_here _ _)) as (m' & _ & Hr & _). exact Hr.
Defined.
