(* ===== verification/MeteringProxy.v ===== *)
(** * The metering proxy

    src/evals/cross_harness/metering_proxy.py: the usage a response reports, the
    meter with its budgets, which the handler threads share, the handling of one
    request from its path to its reply, and the relay of a response.  Threads
    interleave at the operations the lock of the meter makes atomic. *)

From Stdlib Require Import Ascii.
From stdpp Require Import base list strings pretty.
From Stdlib Require Import ZArith Lia.
From S2P Require Import Prelude PyValue PyText PyJson PyUnicode.

Definition DIMENSIONS : list string := ["input_tokens"; "output_tokens"].
Definition REDACTED : string := "<redacted>".
Definition UNFORWARDED : list string :=
  ["host"; "connection"; "keep-alive"; "proxy-connection"; "te"; "upgrade"; "transfer-encoding"; "content-length";
   "accept-encoding"].
Definition UNRELAYED : list string := ["connection"; "keep-alive"; "transfer-encoding"; "content-length"].
Definition CREDENTIAL_HEADERS : list string := ["authorization"; "x-api-key"; "api-key"].

(** ** Usage *)

Record Usage : Type := { input_tokens : Z; output_tokens : Z; cache_read_tokens : Z }.
Definition no_usage : Usage := {| input_tokens := 0; output_tokens := 0; cache_read_tokens := 0 |}.
Definition usage_add (u v : Usage) : Usage := {|
  input_tokens := input_tokens u + input_tokens v; output_tokens := output_tokens u + output_tokens v;
  cache_read_tokens := cache_read_tokens u + cache_read_tokens v |}.
Definition Usage_to_dict (u : Usage) : dict :=
  [("input_tokens", VInt (input_tokens u)); ("output_tokens", VInt (output_tokens u));
   ("cache_read_tokens", VInt (cache_read_tokens u))].

(** [_count]. *)
Fixpoint count_loop (usage : dict) (all keys : list string) : res Z :=
  match keys with
  | [] => Err (ValueError ("usage: none of " +:+ join ", " all +:+ " is present"))
  | key :: keys =>
      match dget usage key with
      | VNone => count_loop usage all keys
      | v =>
          let bad := ValueError ("usage." +:+ key +:+ ": expected a non-negative integer, found " +:+ py_repr v) in
          match v with VInt z => if (z <? 0)%Z then Err bad else Ok z | _ => Err bad end
      end
  end.
Definition count (usage : dict) (keys : list string) : res Z := count_loop usage keys keys.

(** [_cache_read]. *)
Fixpoint cache_read_loop (usage : dict) (keys : list string) : res Z :=
  match keys with
  | [] => Ok 0%Z
  | key :: keys =>
      match dget usage key with
      | VDict details =>
          if is_none (dget details "cached_tokens") then cache_read_loop usage keys else count details ["cached_tokens"]
      | _ => cache_read_loop usage keys
      end
  end.
Definition cache_read (usage : dict) : res Z :=
  cache_read_loop usage ["input_tokens_details"; "prompt_tokens_details"].

Definition usage_from_object (document : value) : res (option Usage) :=
  match document with
  | VDict d =>
      let usage := match dget d "usage" with
        | VNone => match dget d "response" with VDict r => dget r "usage" | _ => VNone end
        | v => v end in
      match usage with
      | VNone => Ok None
      | VDict u =>
          i ← count u ["input_tokens"; "prompt_tokens"];
          o ← count u ["output_tokens"; "completion_tokens"];
          c ← cache_read u;
          Ok (Some {| input_tokens := i; output_tokens := o; cache_read_tokens := c |})
      | v => Err (ValueError ("usage: expected an object, found " +:+ type_name v))
      end
  | _ => Ok None
  end.

Definition drop_cr (s : string) : string := match s with String "013"%char s => s | s => s end.
(** What follows a match of [\r?\n\r?\n] at the head of the text. *)
Definition after_separator (s : string) : option string :=
  match drop_cr s with
  | String "010"%char s => match drop_cr s with String "010"%char s => Some s | _ => None end
  | _ => None
  end.
(** [re.split]: the fuel is the length of the text. *)
Fixpoint split_blocks (fuel : nat) (block : string) (s : string) : list string :=
  match fuel, s with
  | S fuel, String c r =>
      match after_separator s with
      | Some rest => str_rev block :: split_blocks fuel "" rest
      | None => split_blocks fuel (String c block) r
      end
  | _, _ => [str_rev block]
  end.
(** The data of one event. *)
Definition event_data (block : string) : string :=
  join nl (omap (λ line, if starts_with "data:" line then Some (str_lstrip (str_drop 5 line)) else None)
                (str_splitlines block)).
(** The usage one event reports. *)
Definition event_usage (block : string) : res (option Usage) :=
  let data := event_data block in
  if String.eqb data "" || String.eqb (str_strip data) "[DONE]" then Ok None
  else match loads_str data with inl document => usage_from_object document | inr _ => Ok None end.
Definition sse_step (found : option Usage) (block : string) : res (option Usage) :=
  usage ← event_usage block;
  Ok match usage with Some u => Some u | None => found end.
Definition usage_from_sse (text : string) : res (option Usage) :=
  foldM sse_step None (split_blocks (String.length text) "" text).

(** [s.lower()]: of a header name or a media type, ASCII as HTTP has it. *)
Fixpoint lower (s : string) : string :=
  match s with
  | EmptyString => ""
  | String c s => String (if byte_in 65 90 c then ascii_of_nat (nat_of_ascii c + 32) else c) (lower s)
  end.
Definition usage_from_response (content_type body : string) : res (option Usage) :=
  let text := decode_replace body in
  let media := match split_on ";"%char content_type with m :: _ => m | [] => "" end in
  if String.eqb (lower (str_strip media)) "text/event-stream" then usage_from_sse text
  else match loads_str text with
       | inl document => usage_from_object document
       | inr e => Err (ValueError ("response body with content type " +:+ str_repr content_type +:+ " is not JSON: "
                                     +:+ load_error_str e))
       end.

(** ** Names *)

Definition alnum (c : ascii) : bool := byte_in 48 57 c || byte_in 65 90 c || byte_in 97 122 c.
Definition name_char (c : ascii) : bool := alnum c || Ascii.eqb c "."%char || Ascii.eqb c "_"%char || Ascii.eqb c "-"%char.
Fixpoint all_chars (f : ascii → bool) (s : string) : bool :=
  match s with EmptyString => true | String c s => f c && all_chars f s end.
(** [$] of an expression also matches before a final line feed. *)
Fixpoint before_final_newline (s : string) : string :=
  match s with
  | String "010"%char EmptyString => ""
  | String c s => String c (before_final_newline s)
  | EmptyString => ""
  end.
Definition attempt_name (name : string) : bool :=
  match before_final_newline name with
  | String c s => alnum c && all_chars name_char s && (String.length s <=? 127)
  | EmptyString => false
  end.
Definition check_attempt_name (name : string) : res string :=
  raise_if (negb (attempt_name name) || elem_str name ["."; ".."])
    (ValueError ("attempt " +:+ str_repr name +:+ ": a name is 1 to 128 characters of letters, digits, '.', '_', and '-', starting with a letter or digit"));;
  Ok name.

(** ** The meter *)

(** A budget per dimension: a dictionary over [DIMENSIONS]. *)
Record Budget : Type := { input_limit : option Z; output_limit : option Z }.
Definition limit_of (b : Budget) (dimension : string) : option Z :=
  if String.eqb dimension "input_tokens" then input_limit b else output_limit b.
Definition set_limit (b : Budget) (dimension : string) (v : option Z) : Budget :=
  if String.eqb dimension "input_tokens" then {| input_limit := v; output_limit := output_limit b |}
  else {| input_limit := input_limit b; output_limit := v |}.
Definition used_of (u : Usage) (dimension : string) : Z :=
  if String.eqb dimension "input_tokens" then input_tokens u else output_tokens u.

Definition budget_step (b : Budget) (kv : string * value) : res Budget :=
  let '(key, v) := kv in
  raise_if (negb (elem_str key DIMENSIONS))
    (ValueError ("control document: unknown key " +:+ str_repr key +:+ "; the keys are " +:+ join ", " DIMENSIONS));;
  let bad := ValueError ("control document: " +:+ key +:+ " must be a non-negative integer or null, found " +:+ py_repr v) in
  match v with
  | VNone => Ok (set_limit b key None)
  | VInt z => if (z <? 0)%Z then Err bad else Ok (set_limit b key (Some z))
  | _ => Err bad
  end.
Definition budget_from_document (document : value) (current : Budget) : res Budget :=
  match document with
  | VDict d => foldM budget_step current d
  | _ => Err (ValueError "control document: expected an object with input_tokens and output_tokens")
  end.

Record Attempt : Type := {
  name : string;
  budget : Budget;
  used : Usage;
  requests : nat;
  refused : nat;
  metered : nat;
  unmetered : nat;
}.
Definition new_attempt (n : string) (b : Budget) : Attempt :=
  {| name := n; budget := b; used := no_usage; requests := 0; refused := 0; metered := 0; unmetered := 0 |}.
Definition over (a : Attempt) (dimension : string) : bool :=
  match limit_of (budget a) dimension with Some l => (l <=? used_of (used a) dimension)%Z | None => false end.
Definition exhausted (a : Attempt) : option string := find (over a) DIMENSIONS.
Definition opt_limit (o : option Z) : value := match o with Some z => VInt z | None => VNone end.
Definition Attempt_to_dict (a : Attempt) : dict :=
  ("attempt", VStr (name a)) :: Usage_to_dict (used a) ++
  [("budget", VDict [("input_tokens", opt_limit (input_limit (budget a))); ("output_tokens", opt_limit (output_limit (budget a)))]);
   ("requests", VInt (Z.of_nat (requests a))); ("refused", VInt (Z.of_nat (refused a)));
   ("metered", VInt (Z.of_nat (metered a))); ("unmetered", VInt (Z.of_nat (unmetered a)));
   ("exhausted", match exhausted a with Some d => VStr d | None => VNone end)].

Definition with_budget (b : Budget) (a : Attempt) : Attempt := {| name := name a; budget := b; used := used a;
  requests := requests a; refused := refused a; metered := metered a; unmetered := unmetered a |}.
Definition forward_one (a : Attempt) : Attempt := {| name := name a; budget := budget a; used := used a;
  requests := S (requests a); refused := refused a; metered := metered a; unmetered := unmetered a |}.
Definition refuse_one (a : Attempt) : Attempt := {| name := name a; budget := budget a; used := used a;
  requests := requests a; refused := S (refused a); metered := metered a; unmetered := unmetered a |}.
Definition meter_one (u : Usage) (a : Attempt) : Attempt := {| name := name a; budget := budget a; used := usage_add (used a) u;
  requests := requests a; refused := refused a; metered := S (metered a); unmetered := unmetered a |}.
Definition unmeter_one (a : Attempt) : Attempt := {| name := name a; budget := budget a; used := used a;
  requests := requests a; refused := refused a; metered := metered a; unmetered := S (unmetered a) |}.

Record Meter : Type := { default_budget : Budget; attempts : list (string * Attempt) }.
Definition new_meter (b : Budget) : Meter := {| default_budget := b; attempts := [] |}.
(** [_attempt]: the attempt of a name, made when it is new. *)
Definition attempt_of (m : Meter) (n : string) : Attempt :=
  default (new_attempt n (default_budget m)) (assoc (attempts m) n).
Definition put_attempt (n : string) (a : Attempt) (m : Meter) : Meter :=
  {| default_budget := default_budget m; attempts := dset (attempts m) n a |}.

(** The operations of the meter, each under its lock. *)
Definition set_budget (m : Meter) (n : string) (document : value) : Meter * res dict :=
  let a := attempt_of m n in
  match budget_from_document document (budget a) with
  | Ok b => (put_attempt n (with_budget b a) m, Ok (Attempt_to_dict (with_budget b a)))
  | Err e => (put_attempt n a m, Err e)
  end.
Definition usage (m : Meter) (n : string) : Meter * dict :=
  let a := attempt_of m n in (put_attempt n a m, Attempt_to_dict a).
Definition open_request (m : Meter) (n : string) : Meter * (nat * option string) :=
  let a := attempt_of m n in
  let e := exhausted a in
  let a := match e with None => forward_one a | Some _ => refuse_one a end in
  (put_attempt n a m, (requests a + refused a, e)).
Definition charge (m : Meter) (n : string) (u : option Usage) (succeeded : bool) : Meter :=
  let a := attempt_of m n in
  put_attempt n (match u with Some u => meter_one u a | None => if succeeded then unmeter_one a else a end) m.

(** ** Requests *)

(** [record_path], below the record directory: the number has four digits or more. *)
Definition four_digits (n : nat) : string :=
  let d := nat_str n in
  (if n <? 10 then "000" else if n <? 100 then "00" else if n <? 1000 then "0" else "") +:+ d.
Definition record_path (n : string) (number : nat) (kind : string) : list string :=
  [n; four_digits number +:+ "." +:+ kind].

Abbreviation headers := (list (string * string)).
(** [headers.get]: the first value of a name in any case. *)
Definition header (h : headers) (key : string) : option string :=
  snd <$> find (λ kv, String.eqb (lower kv.1) (lower key)) h.
(** [HTTPResponse.getheader]: the values of a name, joined. *)
Definition getheader (h : headers) (key : string) : option string :=
  match List.filter (λ kv, String.eqb (lower kv.1) (lower key)) h with
  | [] => None | l => Some (join ", " (map snd l)) end.

(** A reply the proxy writes itself: a status and a JSON body. *)
Record Reply : Type := { reply_status : Z; payload : dict }.
Definition error_body (message kind : string) (fields : dict) : dict :=
  [("error", VDict ([("message", VStr message); ("type", VStr kind)] ++ fields))].
Definition error_reply (status : Z) (message : string) : Reply :=
  {| reply_status := status; payload := error_body message "proxy_error" [] |}.

(** [_read_body]: the body of the announced length, which [rfile] gives. *)
Definition read_body (path : string) (h : headers) (rfile : Z → string) : string + Reply :=
  match header h "Content-Length" with
  | None =>
      match header h "Transfer-Encoding" with
      | Some t => if String.eqb t "" then inl "" else
          inr (error_reply 411 (path +:+ ": the proxy reads a request body by its Content-Length; a chunked request body is refused"))
      | None => inl ""
      end
  | Some length =>
      let size := default (-1)%Z (int_of_str length) in
      if (size <? 0)%Z then
        inr (error_reply 400 (path +:+ ": Content-Length " +:+ str_repr length +:+ " is not a non-negative integer"))
      else inl (rfile size)
  end.

Fixpoint up_to_slash (s : string) : string * string :=
  match s with
  | EmptyString => ("", "")
  | String "/"%char _ => ("", s)
  | String c r => let '(a, b) := up_to_slash r in (String c a, b)
  end.
Definition strip_prefix (p s : string) : option string :=
  if starts_with p s then Some (str_drop (String.length p) s) else None.
(** [_CONTROL_PATH] and [_MODEL_PATH]. *)
Definition control_path (path : string) : option string :=
  rest ← strip_prefix "/control/attempt/" path;
  let '(n, r) := up_to_slash rest in
  if String.eqb n "" || negb (String.eqb r "") then None else Some n.
Definition model_path (path : string) : option (string * string) :=
  rest ← strip_prefix "/attempt/" path;
  let '(n, r) := up_to_slash rest in
  endpoint ← strip_prefix "/v1/" r;
  let endpoint := before_final_newline endpoint in
  if String.eqb n "" || String.eqb endpoint "" || has_char newline endpoint then None else Some (n, endpoint).

(** [do_GET]. *)
Definition do_GET (m : Meter) (path : string) : Meter * Reply :=
  match control_path path with
  | None => (m, error_reply 404 (path +:+ ": no such path; GET serves /control/attempt/<id>"))
  | Some raw =>
      match check_attempt_name raw with
      | Err e => (m, error_reply 400 (exn_str e))
      | Ok n => let '(m, d) := usage m n in (m, {| reply_status := 200; payload := d |})
      end
  end.

(** [_control]. *)
Definition control (m : Meter) (path : string) (h : headers) (rfile : Z → string) (raw : string) : Meter * Reply :=
  match read_body path h rfile with
  | inr r => (m, r)
  | inl body =>
      let bad text := error_reply 400 (path +:+ ": " +:+ text) in
      match check_attempt_name raw with
      | Err e => (m, bad (exn_str e))
      | Ok n =>
          match utf8_fault false body with
          | Some f => (m, bad (decode_fault_str f))
          | None =>
              match loads_str body with
              | inr e => (m, bad (load_error_str e))
              | inl document =>
                  let '(m, r) := set_budget m n document in
                  (m, match r with Ok d => {| reply_status := 200; payload := d |} | Err e => bad (exn_str e) end)
              end
          end
      end
  end.

(** The headers sent on, as a dictionary, and the record of a request. *)
Definition forwarded_headers (h : headers) (body : string) : headers :=
  dset (fold_left (λ d kv, if elem_str (lower kv.1) UNFORWARDED then d else dset d kv.1 kv.2) h [])
    "Content-Length" (nat_str (String.length body)).
Definition redact (kv : string * string) : string * value :=
  (kv.1, VStr (if elem_str (lower kv.1) CREDENTIAL_HEADERS then REDACTED else kv.2)).
Definition request_record (n path upstream : string) (number : nat) (h : headers) (body : string)
    (refused : option string) : dict :=
  [("attempt", VStr n); ("number", VInt (Z.of_nat number)); ("method", VStr "POST"); ("path", VStr path);
   ("upstream", VStr upstream); ("headers", VDict (map redact h));
   ("body", match loads_str (decode_replace body) with inl v => v | inr _ => VStr (decode_replace body) end);
   ("refused", match refused with Some d => VStr d | None => VNone end)].

(** The refusal of an exhausted attempt, of what [usage] then says. *)
Definition refusal (m : Meter) (n dimension : string) : Reply :=
  let a := attempt_of m n in
  let limit := opt_limit (limit_of (budget a) dimension) in
  let spent := VInt (used_of (used a) dimension) in
  {| reply_status := 429;
     payload := error_body ("attempt " +:+ n +:+ ": the " +:+ dimension +:+ " budget of " +:+ py_str limit
                            +:+ " is exhausted, " +:+ py_str spent +:+ " used") "budget_exhausted"
       [("attempt", VStr n); ("dimension", VStr dimension); ("budget", limit); ("used", spent)] |}.

(** ** The response *)

(** What the upstream answers: nothing, or a response whose body arrives in
    chunks and may break off with an exception. *)
Record Response : Type := {
  status : Z;
  reason : string;
  response_headers : headers;
  chunks : list string;
  broken : option string;
}.
Inductive answer : Type := Unreachable (why : string) | Answered (r : Response).

(** The client of a response: whether the head reaches it, and whether each
    write after that does. *)
Record client : Type := { head_reaches : bool; writes : list bool }.

Inductive relay_event : Type := Head | Chunk (c : string) | Settle (received : string) (ended_early : option string).
Record relay_state : Type := { held : option string; client_open : bool; pending : list bool; sent : list relay_event }.

(** [send] of the chunk held back, if any. *)
Definition send_held (st : relay_state) : relay_state :=
  match held st with
  | None => st
  | Some c =>
      if client_open st then
        match pending st with
        | false :: w => {| held := None; client_open := false; pending := w; sent := sent st |}
        | w => {| held := None; client_open := true; pending := tail w; sent := sent st ++ [Chunk c] |}
        end
      else {| held := None; client_open := false; pending := pending st; sent := sent st |}
  end.
Definition hold (c : string) (st : relay_state) : relay_state :=
  {| held := Some c; client_open := client_open st; pending := pending st; sent := sent st |}.
Definition record_event (e : relay_event) (st : relay_state) : relay_state :=
  {| held := held st; client_open := client_open st; pending := pending st; sent := sent st ++ [e] |}.

(** The chunks [read1] returns before an empty one. *)
Fixpoint arrived (l : list string) : list string :=
  match l with [] => [] | c :: l => if String.eqb c "" then [] else c :: arrived l end.
Definition declared (r : Response) : option Z :=
  match getheader (response_headers r) "Content-Length", getheader (response_headers r) "Transfer-Encoding" with
  | Some l, None => if negb (String.eqb l "") && all_chars (byte_in 48 57) l then int_of_str l else None
  | _, _ => None
  end.
Definition received (r : Response) : string := join "" (arrived (chunks r)).
Definition ended_early (r : Response) : option string :=
  match (if forallb (λ c, negb (String.eqb c "")) (chunks r) then broken r else None) with
  | Some e => Some e
  | None =>
      match declared r with
      | Some d =>
          let n := String.length (received r) in
          if (Z.of_nat n <? d)%Z then Some (nat_str n +:+ " of the declared " +:+ Z_str d +:+ " bytes arrived") else None
      | None => None
      end
  end.

(** [_relay]: what reaches the client and, in between, the call of [settle].
    Writing the head is outside the guard of [send]: when it fails the relay
    ends at once. *)
Definition relay (r : Response) (c : client) : list relay_event :=
  if head_reaches c then
    let st := {| held := None; client_open := true; pending := writes c; sent := [Head] |} in
    let st := fold_left (λ st c, hold c (send_held st)) (arrived (chunks r)) st in
    sent (send_held (record_event (Settle (received r) (ended_early r)) st))
  else [].

Definition succeeded (r : Response) : bool := ((200 <=? status r) && (status r <? 300))%Z.
(** The usage [settle] charges. *)
Definition settled_usage (r : Response) (bytes : string) : option Usage :=
  if succeeded r then
    match usage_from_response (default "" (getheader (response_headers r) "Content-Type")) bytes with
    | Ok u => u | Err _ => None end
  else None.
Definition settle_bytes (l : list relay_event) : option string :=
  match omap (λ e, match e with Settle b _ => Some b | _ => None end) l with b :: _ => Some b | [] => None end.
(** What a forwarded request charges, if it charges at all. *)
Definition charged (a : answer) (c : client) : option (option Usage * bool) :=
  match a with
  | Unreachable _ => Some (None, false)
  | Answered r => (λ bytes, (settled_usage r bytes, succeeded r)) <$> settle_bytes (relay r c)
  end.

(** ** Threads *)

(** The meter and the forwarded requests whose thread has not charged yet. *)
Record world : Type := { meter : Meter; flights : list (string * nat) }.

Inductive event : Type :=
| Refused (n : string) (number : nat) (dimension : string)
| Forwarded (n : string) (number : nat)
| Charged (n : string) (number : nat) (u : option Usage) (ok : bool)
| Lost (n : string) (number : nat)
| BudgetSet (n : string) (document : value)
| Asked (n : string).

(** One operation of some handler thread. *)
Inductive step : world → event → world → Prop :=
| step_refuse w n m number d :
    open_request (meter w) n = (m, (number, Some d)) →
    step w (Refused n number d) {| meter := m; flights := flights w |}
| step_forward w n m number :
    open_request (meter w) n = (m, (number, None)) →
    step w (Forwarded n number) {| meter := m; flights := flights w ++ [(n, number)] |}
| step_charge w n number l1 l2 a c u ok :
    flights w = l1 ++ (n, number) :: l2 → charged a c = Some (u, ok) →
    step w (Charged n number u ok) {| meter := charge (meter w) n u ok; flights := l1 ++ l2 |}
| step_lose w n number l1 l2 a c :
    flights w = l1 ++ (n, number) :: l2 → charged a c = None →
    step w (Lost n number) {| meter := meter w; flights := l1 ++ l2 |}
| step_budget w n document :
    step w (BudgetSet n document) {| meter := (set_budget (meter w) n document).1; flights := flights w |}
| step_ask w n :
    step w (Asked n) {| meter := (usage (meter w) n).1; flights := flights w |}.

Inductive steps : world → list event → world → Prop :=
| steps_nil w : steps w [] w
| steps_cons w e w' es w'' : step w e w' → steps w' es w'' → steps w (e :: es) w''.

Definition start (b : Budget) : world := {| meter := new_meter b; flights := [] |}.

(** ** The meter under interleaving *)

Lemma attempt_of_put_eq n a m : attempt_of (put_attempt n a m) n = a.
Proof. unfold attempt_of, put_attempt. cbn. by rewrite assoc_dset_eq. Qed.
Lemma attempt_of_put_ne n n' a m : n' ≠ n → attempt_of (put_attempt n a m) n' = attempt_of m n'.
Proof. intros H. unfold attempt_of, put_attempt. cbn. by rewrite assoc_dset_ne. Qed.

(** What an event does to the attempt of its name. *)
Definition applied (e : event) (a : Attempt) : Attempt :=
  match e with
  | Refused _ _ _ => refuse_one a
  | Forwarded _ _ => forward_one a
  | Charged _ _ (Some u) _ => meter_one u a
  | Charged _ _ None ok => if ok then unmeter_one a else a
  | Lost _ _ | Asked _ => a
  | BudgetSet _ d => match budget_from_document d (budget a) with Ok b => with_budget b a | Err _ => a end
  end.
Definition event_name (e : event) : string :=
  match e with Refused n _ _ | Forwarded n _ | Charged n _ _ _ | Lost n _ | BudgetSet n _ | Asked n => n end.

Lemma step_attempt w e w' n :
  step w e w' →
  attempt_of (meter w') n =
    if String.eqb (event_name e) n then applied e (attempt_of (meter w) n) else attempt_of (meter w) n.
Proof.
  assert (Hput : ∀ k a b, (k = n → a = b) → attempt_of (put_attempt k a (meter w)) n =
      if String.eqb k n then b else attempt_of (meter w) n).
  { intros k a b Hb. destruct (String.eqb_spec k n) as [->|Hk].
    - rewrite attempt_of_put_eq. auto.
    - by apply attempt_of_put_ne. }
  intros H. inversion H; subst; cbn [meter event_name].
  - unfold open_request in *. simplify_eq. apply Hput. intros ->. by rewrite H1.
  - unfold open_request in *. simplify_eq. apply Hput. intros ->. by rewrite H1.
  - apply Hput. intros ->. done.
  - cbn. by destruct (String.eqb n0 n).
  - unfold set_budget. destruct (budget_from_document _ _) as [b|e] eqn:E; cbn [fst]; apply Hput; intros ->; cbn; by rewrite E.
  - apply Hput. intros ->. done.
Qed.

Lemma step_forwarded w n k w' :
  step w (Forwarded n k) w' →
  exhausted (attempt_of (meter w) n) = None ∧ k = S (requests (attempt_of (meter w) n) + refused (attempt_of (meter w) n)).
Proof.
  intros H. inversion H; subst. unfold open_request in *. simplify_eq.
  match goal with H : exhausted _ = _ |- _ => rewrite H end. done.
Qed.
Lemma step_refused w n k d w' :
  step w (Refused n k d) w' →
  exhausted (attempt_of (meter w) n) = Some d ∧ k = S (requests (attempt_of (meter w) n) + refused (attempt_of (meter w) n)).
Proof.
  intros H. inversion H; subst. unfold open_request in *. simplify_eq.
  match goal with H : exhausted _ = _ |- _ => rewrite H end. split; [done|]. cbn. lia.
Qed.

(** The events of one name, its record numbers and its charges. *)
Definition of_name (n : string) (es : list event) : list event := List.filter (λ e, String.eqb (event_name e) n) es.
Definition number_of (e : event) : option nat := match e with Refused _ k _ | Forwarded _ k => Some k | _ => None end.
Definition numbers (n : string) (es : list event) : list nat := omap number_of (of_name n es).
Definition charge_of (e : event) : option Usage := match e with Charged _ _ u _ => u | _ => None end.
Definition charges (n : string) (es : list event) : list Usage := omap charge_of (of_name n es).
Definition is_forwarded (e : event) : bool := match e with Forwarded _ _ => true | _ => false end.
Definition is_refused (e : event) : bool := match e with Refused _ _ _ => true | _ => false end.
Definition is_metered (e : event) : bool := match e with Charged _ _ (Some _) _ => true | _ => false end.
Definition is_unmetered (e : event) : bool := match e with Charged _ _ None true => true | _ => false end.
Definition is_settled (e : event) : bool := match e with Charged _ _ _ _ | Lost _ _ => true | _ => false end.
Definition many (f : event → bool) (n : string) (es : list event) : nat := length (List.filter f (of_name n es)).
Definition flights_of (n : string) (w : world) : nat := length (List.filter (λ x, String.eqb x.1 n) (flights w)).

(** The attempt of a name at the end of a trace, from the one at its start. *)
Lemma steps_attempt w es w' n :
  steps w es w' →
  attempt_of (meter w') n = fold_left (λ a e, applied e a) (of_name n es) (attempt_of (meter w) n).
Proof.
  induction 1 as [w|w e w1 es w2 H Hs IH]; [done|]. rewrite IH, (step_attempt _ _ _ n H). unfold of_name. cbn [List.filter].
  by destruct (String.eqb (event_name e) n).
Qed.

Lemma steps_numbers w es w' n :
  steps w es w' →
  numbers n es = seq (S (requests (attempt_of (meter w) n) + refused (attempt_of (meter w) n))) (length (numbers n es)).
Proof.
  induction 1 as [w|w e w1 es w2 H Hs IH]; [done|]. unfold numbers, of_name in *. cbn [List.filter].
  rewrite (step_attempt _ _ _ n H) in IH. destruct (String.eqb_spec (event_name e) n) as [<-|Hn]; [|exact IH].
  destruct e; cbn [applied event_name] in IH |- *; cbn [omap list_omap number_of length] in IH |- *; try exact IH.
  - apply step_refused in H as [_ ->]. cbn [seq]. f_equal. rewrite IH at 1. f_equal. cbn. lia.
  - apply step_forwarded in H as [_ ->]. cbn [seq]. f_equal. exact IH.
  - destruct u as [u|]; [|destruct ok]; exact IH.
  - by destruct (budget_from_document _ _).
Qed.

Lemma tally n es a :
  let a' := fold_left (λ a e, applied e a) (of_name n es) a in
  used a' = fold_left usage_add (charges n es) (used a) ∧
  requests a' = requests a + many is_forwarded n es ∧ refused a' = refused a + many is_refused n es ∧
  metered a' = metered a + many is_metered n es ∧ unmetered a' = unmetered a + many is_unmetered n es ∧
  many is_forwarded n es + many is_refused n es = length (numbers n es).
Proof.
  unfold many, charges, numbers. generalize (of_name n es) as l. intros l. revert a.
  induction l as [|e l IH]; intros a; [cbn; split_and!; done || lia|]. cbn [fold_left]. specialize (IH (applied e a)). cbn beta zeta in IH.
  destruct IH as (-> & -> & -> & -> & -> & IH).
  destruct e as [| |? ? [u|] []| |? d|];
    cbn [omap list_omap charge_of number_of fold_left List.filter is_forwarded is_refused is_metered is_unmetered
         applied length used requests refused metered unmetered meter_one unmeter_one forward_one refuse_one];
    try (destruct (budget_from_document d (budget a)); cbn [used requests refused metered unmetered with_budget]);
    split_and!; try done; lia.
Qed.

Lemma flights_step w e w' n :
  step w e w' →
  flights_of n w' + (if String.eqb (event_name e) n && is_settled e then 1 else 0) =
  flights_of n w + (if String.eqb (event_name e) n && is_forwarded e then 1 else 0).
Proof.
  unfold flights_of. intros H. inversion H; subst; cbn [flights event_name is_settled is_forwarded];
    rewrite ?andb_false_r, ?andb_true_r; try lia.
  - rewrite List.filter_app, length_app. cbn. destruct (String.eqb n0 n); cbn; lia.
  - match goal with H : flights _ = _ |- _ => rewrite H end. rewrite !List.filter_app, !length_app. cbn.
    destruct (String.eqb n0 n); cbn; lia.
  - match goal with H : flights _ = _ |- _ => rewrite H end. rewrite !List.filter_app, !length_app. cbn.
    destruct (String.eqb n0 n); cbn; lia.
Qed.

Lemma flights_steps w es w' n :
  steps w es w' → flights_of n w' + many is_settled n es = flights_of n w + many is_forwarded n es.
Proof.
  induction 1 as [w|w e w1 es w2 H Hs IH]; [done|]. pose proof (flights_step _ _ _ n H) as H1.
  unfold many, of_name in *. cbn [List.filter].
  destruct (String.eqb (event_name e) n); cbn [andb List.filter] in *; [|lia].
  destruct (is_settled e), (is_forwarded e); cbn [length] in *; lia.
Qed.

(** Claim C31. Whatever the interleaving of the handler threads, the account of
    an attempt is exact: the sums are those of the usages its responses were
    charged, the counters count the requests forwarded and refused and the
    responses with and without usage, every forwarded request is in flight, or
    was charged once, or its thread ended without a charge; and its record
    numbers are 1, 2, 3, ... in order of arrival, refused requests included. *)
Theorem account_exact b es w n :
  steps (start b) es w →
  let a := attempt_of (meter w) n in
  used a = fold_left usage_add (charges n es) no_usage ∧
  requests a = many is_forwarded n es ∧ refused a = many is_refused n es ∧
  metered a = many is_metered n es ∧ unmetered a = many is_unmetered n es ∧
  flights_of n w + many is_settled n es = requests a ∧
  numbers n es = seq 1 (requests a + refused a).
Proof.
  intros H a. unfold a. rewrite (steps_attempt _ _ _ n H).
  change (attempt_of (meter (start b)) n) with (new_attempt n b).
  destruct (tally n es (new_attempt n b)) as (-> & -> & -> & -> & -> & Hn).
  pose proof (flights_steps _ _ _ n H) as Hf. cbn. split_and!; try done.
  rewrite Hn. apply (steps_numbers _ _ _ n H).
Qed.

(** ** Budgets *)

Lemma exhausted_none a :
  exhausted a = None ↔ ∀ d, d ∈ DIMENSIONS → over a d = false.
Proof.
  unfold exhausted. split.
  - intros H d Hd. apply (find_none _ _ H). by apply list_elem_of_In.
  - intros H. cbn. rewrite (H "input_tokens"), (H "output_tokens"); [done| |]; repeat constructor.
Qed.

Definition usage_nonneg (u : Usage) : Prop := (0 ≤ input_tokens u)%Z ∧ (0 ≤ output_tokens u)%Z.

Lemma count_nonneg d keys z : count d keys = Ok z → (0 ≤ z)%Z.
Proof.
  unfold count. generalize keys at 1. intros all. induction keys as [|k keys IH]; [done|]. cbn [count_loop].
  destruct (dget d k) as [| |x| | | |]; try done. destruct (Z.ltb_spec x 0); [done|]. by intros [= <-].
Qed.

Lemma usage_object_nonneg v u : usage_from_object v = Ok (Some u) → usage_nonneg u.
Proof.
  unfold usage_from_object. destruct v as [| | | | | |d]; try done.
  generalize (match dget d "usage" with VNone => match dget d "response" with VDict r => dget r "usage" | _ => VNone end
              | v => v end).
  intros found. destruct found as [| | | | | |o']; try done. intros (i & Hi & H)%res_bind_ok. apply res_bind_ok in H as (o & Ho & H). apply res_bind_ok in H as (c & _ & [= <-]).
  by split; [apply (count_nonneg _ _ _ Hi)|apply (count_nonneg _ _ _ Ho)].
Qed.

Lemma sse_nonneg text u : usage_from_sse text = Ok (Some u) → usage_nonneg u.
Proof.
  unfold usage_from_sse. intros H.
  refine (foldM_ok_ind sse_step (λ _ o, ∀ u, o = Some u → usage_nonneg u) _ _ _ _ _ H u eq_refl); [done|].
  intros done_ block o o' _ Hp Hs. unfold sse_step in Hs. apply res_bind_ok in Hs as (r & Hr & [= <-]). destruct r as [v|]; [|exact Hp].
  intros u' [= <-]. unfold event_usage in Hr. destruct (_ || _); [done|]. destruct (loads_str _); [|done]. by apply usage_object_nonneg in Hr.
Qed.

Lemma charged_nonneg a c u ok : charged a c = Some (Some u, ok) → usage_nonneg u.
Proof.
  destruct a as [why|r]; [done|]. cbn. destruct (settle_bytes _) as [bytes|]; [|done]. intros [= Hu _].
  unfold settled_usage in Hu. destruct (succeeded r); [|done].
  destruct (usage_from_response _ bytes) as [o|] eqn:E; [|done]. subst o. unfold usage_from_response in E.
  destruct (String.eqb _ _); [by apply sse_nonneg in E|].
  destruct (loads_str _); [by apply usage_object_nonneg in E|done].
Qed.

(** A request other than setting the budget leaves an exhausted attempt exhausted. *)
Lemma over_stays w e w' n d :
  step w e w' → (∀ doc, e ≠ BudgetSet n doc) → over (attempt_of (meter w) n) d = true → over (attempt_of (meter w') n) d = true.
Proof.
  intros H Hb Ho. rewrite (step_attempt _ _ _ n H). destruct (String.eqb_spec (event_name e) n) as [Hn|]; [|done].
  assert (Hmeter : ∀ u a, usage_nonneg u → over a d = true → over (meter_one u a) d = true).
  { intros u a [Hi Ho']. unfold over. cbn [budget used meter_one]. destruct (limit_of (budget a) d) as [l|]; [|done].
    rewrite !Z.leb_le. unfold used_of. destruct (String.eqb d "input_tokens"); cbn; lia. }
  destruct e as [| |n0 k [u|] ok| |n0 doc|]; cbn [applied]; try done.
  - inversion H; subst. apply Hmeter; [|done]. by eapply charged_nonneg.
  - by destruct ok.
  - cbn in Hn. subst n0. by destruct (Hb doc).
Qed.

Lemma exhausted_some a d : over a d = true → d ∈ DIMENSIONS → is_Some (exhausted a).
Proof.
  intros Ho Hd. unfold exhausted. destruct (find (over a) DIMENSIONS) as [x|] eqn:E; [by eexists|].
  apply list_elem_of_In in Hd. by rewrite (find_none _ _ E _ Hd) in Ho.
Qed.
Lemma exhausted_over a d : exhausted a = Some d → over a d = true ∧ d ∈ DIMENSIONS.
Proof. unfold exhausted. intros [Hd Ho]%find_some. split; [done|by apply list_elem_of_In]. Qed.

(** Claim C32. Budgets hold under every interleaving: a request of an attempt is
    forwarded only when each sum is below its limit, and once a sum has reached
    its limit every later request of the attempt is refused until its budget is
    set anew, whatever the threads in flight still charge. *)
Theorem budget_enforced w es w' n d l :
  steps w es w' → d ∈ DIMENSIONS →
  (∀ k w1, step w (Forwarded n k) w1 → limit_of (budget (attempt_of (meter w) n)) d = Some l →
     (used_of (used (attempt_of (meter w) n)) d < l)%Z) ∧
  (limit_of (budget (attempt_of (meter w) n)) d = Some l → (l ≤ used_of (used (attempt_of (meter w) n)) d)%Z →
   (∀ doc, BudgetSet n doc ∉ es) →
   (∀ k, Forwarded n k ∉ es) ∧ requests (attempt_of (meter w') n) = requests (attempt_of (meter w) n)).
Proof.
  intros H Hd. split.
  - intros k w1 [Hn _]%step_forwarded Hl. specialize (proj1 (exhausted_none _) Hn d Hd) as Ho. unfold over in Ho.
    rewrite Hl in Ho. by apply Z.leb_gt.
  - intros Hl Hu. assert (Ho : over (attempt_of (meter w) n) d = true) by (unfold over; rewrite Hl; by apply Z.leb_le).
    clear l Hl Hu. revert Ho. induction H as [w|w e w1 es w2 H Hs IH]; intros Ho Hb.
    { split; [intros k []%not_elem_of_nil|done]. }
    assert (He : ∀ doc, e ≠ BudgetSet n doc) by (intros doc ->; apply (Hb doc), list_elem_of_here).
    destruct (IH (over_stays _ _ _ _ _ H He Ho)) as [Hf Hr].
    { intros doc Hin. by apply (Hb doc), list_elem_of_further. }
    assert (Hne : ∀ k, e ≠ Forwarded n k).
    { intros k ->. apply step_forwarded in H as [Hx _]. destruct (exhausted_some _ _ Ho Hd) as [x E]. congruence. }
    split; [intros k [Heq|Hin]%elem_of_cons; [by apply (Hne k)|by apply (Hf k)]|].
    rewrite Hr, (step_attempt _ _ _ n H). destruct (String.eqb_spec (event_name e) n) as [Hn|]; [|done].
    destruct e as [| |n0 k [u|] []| |n0 doc|]; cbn [applied]; try done.
    + cbn in Hn. subst n0. by destruct (Hne number).
    + cbn in Hn. subst n0. by destruct (He doc).
Qed.

(** ** The relay *)

Definition chunk_bytes (l : list relay_event) : list string := omap (λ e, match e with Chunk c => Some c | _ => None end) l.

(** The state of the relay after some chunks: what was sent is a prefix of all
    but the last, and all of them as long as the client reads. *)
Definition relaying (done_ : list string) (st : relay_state) : Prop :=
  held st = last done_ ∧ ∃ pre, sent st = Head :: map Chunk pre ∧
    pre `prefix_of` removelast done_ ∧ (client_open st = true → pre = removelast done_).

Lemma removelast_snoc {A} (l : list A) x : removelast (l ++ [x]) = l.
Proof. apply removelast_last. Qed.

Lemma last_removelast {A} (l : list A) x : last l = Some x → l = removelast l ++ [x].
Proof. intros (k & ->)%last_Some. by rewrite removelast_snoc. Qed.

Lemma send_held_relaying l st :
  relaying l st → ∃ pre, sent (send_held st) = Head :: map Chunk pre ∧ pre `prefix_of` l ∧
    (client_open (send_held st) = true → pre = l) ∧ held (send_held st) = None.
Proof.
  intros (Hh & pre & Hs & Hp & Ho). unfold send_held. rewrite Hh. destruct (last l) as [x|] eqn:E.
  - apply last_Some in E as [k ->]. rewrite removelast_snoc in *. assert (Hpk : pre `prefix_of` k ++ [x]) by by apply prefix_app_r.
    destruct (client_open st); [|by exists pre]. specialize (Ho eq_refl). subst pre.
    assert (Hsent : sent st ++ [Chunk x] = Head :: map Chunk (k ++ [x])) by (by rewrite Hs, map_app).
    destruct (pending st) as [|[] w]; [by exists (k ++ [x])|by exists (k ++ [x])|by exists k].
  - apply last_None in E. subst. apply prefix_nil_inv in Hp. subst. by exists [].
Qed.

Lemma relay_loop l k st :
  relaying k st → relaying (k ++ l) (fold_left (λ st c, hold c (send_held st)) l st).
Proof.
  revert k st. induction l as [|c l IH]; intros k st H; [by rewrite app_nil_r|]. cbn [fold_left].
  replace (k ++ c :: l) with ((k ++ [c]) ++ l) by (by rewrite <-app_assoc).
  apply IH. destruct (send_held_relaying _ _ H) as (pre & Hs & Hp & Ho & _).
  split; [by rewrite last_snoc|]. exists pre. rewrite removelast_snoc. by split_and!.
Qed.

(** A client whose writes all succeed stays open. *)
Definition reading (st : relay_state) : Prop := client_open st = true ∧ Forall (λ b, b = true) (pending st).
Lemma send_held_reading st : reading st → reading (send_held st).
Proof.
  intros [Ho Hp]. unfold send_held, reading. destruct (held st); [|done]. rewrite Ho.
  destruct (pending st) as [|b w]; [done|]. apply Forall_cons in Hp as [-> Hw]. done.
Qed.
Lemma relay_loop_reading l st : reading st → reading (fold_left (λ st c, hold c (send_held st)) l st).
Proof. revert st. induction l as [|c l IH]; intros st H; [done|]. cbn [fold_left]. apply IH. by apply send_held_reading in H. Qed.

(** The end of the relay: what is held is sent after the event. *)
Lemma relay_end l st e :
  relaying l st →
  ∃ before after, sent (send_held (record_event e st)) = Head :: map Chunk before ++ [e] ++ map Chunk after ∧
    (before ++ after) `prefix_of` l ∧ length after ≤ 1 ∧
    (reading st → before ++ after = l ∧ (l ≠ [] → length after = 1)).
Proof.
  intros (Hh & pre & Hs & Hp & Ho). unfold send_held, record_event. cbn [held client_open pending sent]. rewrite Hh, Hs.
  destruct (last l) as [x|] eqn:E.
  - apply last_Some in E as [k ->]. rewrite removelast_snoc in *.
    assert (Hstop : (pre ++ []) `prefix_of` k ++ [x]) by (rewrite app_nil_r; by apply prefix_app_r).
    unfold reading. destruct (client_open st); [|exists pre, []; split_and!; [done|done|cbn; lia|by intros []]].
    specialize (Ho eq_refl). subst pre.
    destruct (pending st) as [|[] w].
    + exists k, [x]. cbn. rewrite <-app_assoc. by split_and!.
    + exists k, [x]. cbn. rewrite <-app_assoc. by split_and!.
    + exists k, []. split_and!; [done|done|cbn; lia|]. intros [_ Hw]. by apply Forall_cons in Hw as [? _].
  - apply last_None in E. subst. apply prefix_nil_inv in Hp. subst. exists [], []. split_and!; [done|done|cbn; lia|done].
Qed.

(** The relay passes the body on and settles exactly once: when the head
    reaches the client, the client gets the chunks of the upstream in order, up
    to the first write that fails, and the settlement, with every byte that
    arrived and the reason the body ended early, comes before the last chunk;
    the response is charged what those bytes report whether or not the client
    stays.  When the head does not reach the client nothing is settled and
    nothing is charged. *)
Theorem relay_settles_once r c :
  if head_reaches c then
    ∃ before after, relay r c = Head :: map Chunk before ++ [Settle (received r) (ended_early r)] ++ map Chunk after ∧
      (before ++ after) `prefix_of` arrived (chunks r) ∧ length after ≤ 1 ∧
      (Forall (λ b, b = true) (writes c) → before ++ after = arrived (chunks r) ∧
         (arrived (chunks r) ≠ [] → length after = 1)) ∧
      charged (Answered r) c = Some (settled_usage r (received r), succeeded r)
  else relay r c = [] ∧ charged (Answered r) c = None.
Proof.
  unfold relay. destruct (head_reaches c) eqn:Eh; [|by unfold charged, relay; rewrite Eh].
  set (st0 := {| held := None; client_open := true; pending := writes c; sent := [Head] |}).
  assert (H0 : relaying [] st0) by (split; [done|]; by exists []).
  pose proof (relay_loop (arrived (chunks r)) [] st0 H0) as H1. rewrite app_nil_l in H1.
  destruct (relay_end _ _ (Settle (received r) (ended_early r)) H1) as (before & after & Hs & Hp & Hl & Hr).
  exists before, after. split_and!; [done|done|done| |].
  - intros Hw. apply Hr, relay_loop_reading. by split.
  - unfold charged, relay. rewrite Eh. fold st0. rewrite Hs. clear. unfold settle_bytes. cbn.
    by induction before as [|x before IH].
Qed.

(** ** The usage of an event stream *)

Lemma sse_fold l found r :
  foldM sse_step found l = Ok r ↔
  ∃ us, Forall2 (λ b u, event_usage b = Ok u) l us ∧ r = match last (omap (λ u, u) us) with Some u => Some u | None => found end.
Proof.
  revert found. induction l as [|b l IH]; intros found; cbn [foldM].
  - split; [intros [= <-]; by exists []|]. intros (us & H%Forall2_nil_inv_l & ->). by subst.
  - rewrite res_bind_ok. setoid_rewrite IH. unfold sse_step. setoid_rewrite res_bind_ok. split.
    + intros (s & (u & Hu & [= <-]) & us & Hus & ->). exists (u :: us). split; [by constructor|].
      cbn. destruct u as [u|]; [|done]. change (u :: omap (λ u, u) us) with ([u] ++ omap (λ u, u) us).
      rewrite last_app. by destruct (last (omap _ us)).
    + intros (us0 & H & ->). apply Forall2_cons_inv_l in H as (u & us & Hu & Hus & ->).
      exists (match u with Some v => Some v | None => found end). split; [by exists u|]. exists us. split; [done|].
      cbn. destruct u as [u|]; [|done]. change (u :: omap (λ u, u) us) with ([u] ++ omap (λ u, u) us).
      rewrite last_app. by destruct (last (omap _ us)).
Qed.

(** The usage of an event stream is that of its last event that reports
    one; events without data, the [DONE] sentinel and data that is not JSON
    report none, and one event with a malformed usage makes the whole stream
    unreadable. *)
Theorem sse_last_usage text r :
  (usage_from_sse text = Ok r ↔
   ∃ us, Forall2 (λ b u, event_usage b = Ok u) (split_blocks (String.length text) "" text) us ∧ r = last (omap (λ u, u) us)) ∧
  (∀ block, event_data block = "" ∨ str_strip (event_data block) = "[DONE]" ∨ (∃ e, loads_str (event_data block) = inr e) →
     event_usage block = Ok None).
Proof.
  split.
  - unfold usage_from_sse. rewrite sse_fold. split; intros (us & H & ->); exists us; split; try done; by destruct (last _).
  - intros block H. unfold event_usage.
    destruct (String.eqb_spec (event_data block) ""); [done|].
    destruct (String.eqb_spec (str_strip (event_data block)) "[DONE]"); [done|].
    destruct H as [?|[?|[e ->]]]; done.
Qed.

(** ** Names *)

Lemma no_slash s : all_chars name_char s = true → has_char "/"%char s = false.
Proof.
  induction s as [|c s IH]; [done|]. cbn [all_chars has_char]. intros [Hc Hs]%andb_true_iff. rewrite IH by done.
  destruct (Ascii.eqb_spec "/"%char c) as [<-|Hne]; [vm_compute in Hc|]; done.
Qed.

Lemma has_char_before_newline s c : c ≠ "010"%char → has_char c (before_final_newline s) = has_char c s.
Proof.
  intros Hc. induction s as [|d s IH]; [done|].
  assert (Hgen : has_char c (String d (before_final_newline s)) = has_char c (String d s)) by (cbn; by rewrite IH).
  destruct (Ascii.eqb_spec d "010"%char) as [->|Hd].
  - destruct s as [|e s]; [|exact Hgen]. cbn [has_char before_final_newline].
    destruct (Ascii.eqb_spec c "010"%char); [by subst|done].
  - replace (before_final_newline (String d s)) with (String d (before_final_newline s)); [exact Hgen|].
    destruct d as [[] [] [] [] [] [] [] []]; try done; by destruct s.
Qed.

(** A name the proxy accepts is one component of a path: it is not empty,
    not the directory itself or its parent, and holds no slash, so that every
    record of the attempt lies directly below its own directory. *)
Theorem names_confined n r :
  check_attempt_name n = Ok r →
  r = n ∧ n ≠ "" ∧ n ≠ "." ∧ n ≠ ".." ∧ has_char "/"%char n = false ∧
  ∀ k kind, record_path n k kind = [n; four_digits k +:+ "." +:+ kind].
Proof.
  unfold check_attempt_name. intros ([] & H%raise_if_ok & [= <-])%res_bind_ok.
  apply orb_false_iff in H as [Hn%negb_false_iff He%elem_str_false].
  unfold attempt_name in Hn. split_and!; try done.
  - by intros ->.
  - intros ->. apply He, list_elem_of_here.
  - intros ->. apply He. repeat constructor.
  - rewrite <-has_char_before_newline by done. destruct (before_final_newline n) as [|c s]; [done|].
    apply andb_true_iff in Hn as [[Hc Hs]%andb_true_iff _]. apply no_slash. cbn [all_chars]. unfold name_char at 1. by rewrite Hc.
Qed.

(** The expression for names ends in [$], which accepts a final line feed the
    message rules out. *)
Example name_with_newline : check_attempt_name ("run" +:+ nl) = Ok ("run" +:+ nl).
Proof. by vm_compute. Qed.

(** ** Examples *)

Definition example_budget : Budget := {| input_limit := Some 100%Z; output_limit := None |}.
Definition example_body : string :=
  dumps_default (VDict [("usage", VDict [("prompt_tokens", VInt 120); ("completion_tokens", VInt 7);
                                         ("prompt_tokens_details", VDict [("cached_tokens", VInt 64)])])]).
Definition example_response : Response := {|
  status := 200; reason := "OK"; response_headers := [("Content-Type", "application/json; charset=utf-8")];
  chunks := [str_take 20 example_body; str_drop 20 example_body]; broken := None |}.
Definition example_usage : Usage := {| input_tokens := 120; output_tokens := 7; cache_read_tokens := 64 |}.

Example example_charge :
  charged (Answered example_response) {| head_reaches := true; writes := [true; false] |} = Some (Some example_usage, true) ∧
  relay example_response {| head_reaches := true; writes := [true; false] |} =
    [Head; Chunk (str_take 20 example_body); Settle example_body None].
Proof. by vm_compute. Qed.

(** A client that is gone before the head was written costs nothing: the request
    is counted and its usage is neither read nor charged. *)
Example head_lost_uncharged : charged (Answered example_response) {| head_reaches := false; writes := [] |} = None.
Proof. by vm_compute. Qed.

(** Two requests in flight at once, charged in the other order, and a third refused. *)
Definition example_events : list event :=
  [Forwarded "a" 1; Forwarded "a" 2; Charged "a" 2 (Some example_usage) true; Lost "a" 1; Refused "a" 3 "input_tokens"].
Definition example_world : world := {|
  meter := {| default_budget := example_budget;
    attempts := [("a", {| name := "a"; budget := example_budget; used := example_usage; requests := 2; refused := 1;
                          metered := 1; unmetered := 0 |})] |};
  flights := [] |}.
Lemma example_steps : steps (start example_budget) example_events example_world.
Proof.
  eapply steps_cons; [by apply step_forward|]. eapply steps_cons; [by apply step_forward|].
  eapply steps_cons; [apply (step_charge _ "a" 2 [("a", 1)] [] (Answered example_response) {| head_reaches := true; writes := [] |});
    [reflexivity|vm_compute; reflexivity]|].
  eapply steps_cons; [apply (step_lose _ "a" 1 [] [] (Answered example_response) {| head_reaches := false; writes := [] |});
    [reflexivity|vm_compute; reflexivity]|].
  eapply steps_cons; [by apply step_refuse|]. apply steps_nil.
Qed.

Lemma account_exact_witness :
  used (attempt_of (meter example_world) "a") = fold_left usage_add (charges "a" example_events) no_usage ∧
  numbers "a" example_events = [1; 2; 3].
Proof.
  destruct (account_exact example_budget example_events example_world "a" example_steps) as (H & _ & _ & _ & _ & _ & Hn).
  split; [exact H|exact Hn].
Defined.

Lemma budget_enforced_witness :
  (∀ k, Forwarded "a" k ∉ [Refused "a" 4 "input_tokens"]) ∧ refused (attempt_of (meter example_world) "a") = 1.
Proof.
  split; [|reflexivity].
  refine (proj1 (proj2 (budget_enforced example_world [Refused "a" 4 "input_tokens"] _ "a" "input_tokens" 100 _ _) _ _ _)).
  - eapply steps_cons; [by apply step_refuse|apply steps_nil].
  - apply list_elem_of_here.
  - reflexivity.
  - vm_compute. discriminate.
  - intros doc H. apply list_elem_of_singleton in H. discriminate H.
Defined.

Lemma names_confined_witness : check_attempt_name "task-1.a" = Ok "task-1.a" ∧ has_char "/"%char "task-1.a" = false.
Proof.
  split; [vm_compute; reflexivity|].
  destruct (names_confined "task-1.a" "task-1.a" ltac:(vm_compute; reflexivity)) as (_ & _ & _ & _ & H & _). exact H.
Defined.
