(* ===== verification/Pairing.v ===== *)
(** * Opening and closing records

    A loop that appends a record for each opening, remembers its position under
    an id, and closes the remembered one when the id comes back.  The reference
    reads the same trace forwards: a record is closed by the first closing of
    its id that comes before another opening of it. *)

From stdpp Require Import base list strings.
From Stdlib Require Import Lia.
From S2P Require Import Prelude PyValue.

Section pairing.
Context {A : Type}.

Inductive op : Type :=
| Open (id : string) (a : A)
| Put (a : A)
| Close (id : string) (f : A → A).

(** The records, and the positions of the open ones. *)
Definition op_step (st : list A * list (string * nat)) (o : op) : list A * list (string * nat) :=
  match o with
  | Open id a => (st.1 ++ [a], dset st.2 id (length st.1))
  | Put a => (st.1 ++ [a], st.2)
  | Close id f =>
      match assoc st.2 id with
      | Some i => (alter f i st.1, dpop st.2 id)
      | None => (st.1, dpop st.2 id)
      end
  end.

(** How the rest of the trace leaves a record open under an id. *)
Fixpoint closed_by (id : string) (ops : list op) (a : A) : A :=
  match ops with
  | [] => a
  | Open id' _ :: ops => if String.eqb id' id then a else closed_by id ops a
  | Put _ :: ops => closed_by id ops a
  | Close id' f :: ops => if String.eqb id' id then f a else closed_by id ops a
  end.
Fixpoint closed_all (ops : list op) : list A :=
  match ops with
  | [] => []
  | Open id a :: ops => closed_by id ops a :: closed_all ops
  | Put a :: ops => a :: closed_all ops
  | Close _ _ :: ops => closed_all ops
  end.

(** Each open id is that of one record. *)
Definition positions (n : nat) (open : list (string * nat)) : Prop :=
  NoDup (keys open) ∧ (∀ id i, assoc open id = Some i → i < n) ∧
  (∀ id id' i, assoc open id = Some i → assoc open id' = Some i → id = id').

Lemma positions_set n open id : positions n open → positions (S n) (dset open id n).
Proof.
  intros (Hn & Hlt & Hinj). split_and!.
  - by apply dset_nodup.
  - intros id' i. destruct (decide (id = id')) as [<-|Hne].
    + rewrite assoc_dset_eq. intros [= <-]. lia.
    + rewrite assoc_dset_ne by done. intros Hi%Hlt. lia.
  - intros id1 id2 i. destruct (decide (id = id1)) as [<-|H1], (decide (id = id2)) as [<-|H2]; try done;
      rewrite ?assoc_dset_eq, ?assoc_dset_ne by done.
    + intros [= <-] Hi%Hlt. lia.
    + intros Hi%Hlt [= <-]. lia.
    + apply Hinj.
Qed.

Lemma positions_more n open : positions n open → positions (S n) open.
Proof. intros (? & Hlt & ?). split_and!; try done. intros id i Hi%Hlt. lia. Qed.

Lemma positions_pop n open id : positions n open → positions n (dpop open id).
Proof.
  intros (Hn & Hlt & Hinj). assert (Hsub : ∀ k i, assoc (dpop open id) k = Some i → assoc open k = Some i).
  { intros k i. destruct (decide (id = k)) as [<-|Hne]; [by rewrite assoc_dpop_eq|by rewrite assoc_dpop_ne]. }
  split_and!; [by apply dpop_nodup| |]; eauto.
Qed.

(** The loop from any state: the open records are closed by the rest of the
    trace, the others stay, and new ones follow. *)
Lemma run_from ops l open :
  positions (length l) open →
  let l' := (fold_left op_step ops (l, open)).1 in
  drop (length l) l' = closed_all ops ∧ length l ≤ length l' ∧
  (∀ id i a, assoc open id = Some i → l !! i = Some a → l' !! i = Some (closed_by id ops a)) ∧
  (∀ i a, (∀ id, assoc open id ≠ Some i) → l !! i = Some a → l' !! i = Some a).
Proof.
  revert l open. induction ops as [|o ops IH]; intros l open Hp; cbn [fold_left fst].
  { rewrite drop_all. by split_and!. }
  destruct o as [id a|a|id f]; cbn [op_step fst snd].
  - destruct (IH (l ++ [a]) (dset open id (length l))) as (Hd & Hlen & Ho & Hn).
    { rewrite length_app, Nat.add_1_r. by apply positions_set. }
    rewrite length_app, Nat.add_1_r in Hd, Hlen. cbn zeta. split_and!.
    + cbn [closed_all]. rewrite <-Hd. apply drop_S. apply (Ho id); [by rewrite assoc_dset_eq|].
      by rewrite lookup_app_r, Nat.sub_diag.
    + lia.
    + intros id' i b Hi Hb. assert (Hlt : i < length l) by (destruct Hp as (_ & Hlt & _); eauto). cbn [closed_by].
      destruct (String.eqb_spec id id') as [->|Hne].
      * apply Hn; [|by apply lookup_app_l_Some]. intros k. destruct (decide (id' = k)) as [<-|Hk].
        -- rewrite assoc_dset_eq. intros [= Heq]. lia.
        -- rewrite assoc_dset_ne by done. intros Hk'. apply Hk. destruct Hp as (_ & _ & Hinj). by eapply Hinj.
      * apply Ho; [by rewrite assoc_dset_ne|by apply lookup_app_l_Some].
    + intros i b Hi Hb. apply Hn; [|by apply lookup_app_l_Some]. intros k.
      destruct (decide (id = k)) as [<-|Hk]; [|by rewrite assoc_dset_ne].
      rewrite assoc_dset_eq. intros [= Heq]. apply lookup_lt_Some in Hb. lia.
  - destruct (IH (l ++ [a]) open) as (Hd & Hlen & Ho & Hn).
    { rewrite length_app, Nat.add_1_r. by apply positions_more. }
    rewrite length_app, Nat.add_1_r in Hd, Hlen. cbn zeta. split_and!.
    + cbn [closed_all]. rewrite <-Hd. apply drop_S. apply Hn; [|by rewrite lookup_app_r, Nat.sub_diag].
      intros k Hk. destruct Hp as (_ & Hlt & _). apply Hlt in Hk. lia.
    + lia.
    + intros id' i b Hi Hb. by apply Ho; [|apply lookup_app_l_Some].
    + intros i b Hi Hb. by apply Hn; [|apply lookup_app_l_Some].
  - assert (Hpop : ∀ k j, assoc (dpop open id) k = Some j → k ≠ id ∧ assoc open k = Some j).
    { intros k j Hk. destruct Hp as (Hn & _). destruct (decide (id = k)) as [<-|Hne].
      - by rewrite assoc_dpop_eq in Hk.
      - by rewrite assoc_dpop_ne in Hk. }
    destruct (assoc open id) as [i0|] eqn:E; cbn [closed_all closed_by].
    + destruct (IH (alter f i0 l) (dpop open id)) as (Hd & Hlen & Ho & Hn).
      { rewrite length_alter. by apply positions_pop. }
      rewrite length_alter in Hd, Hlen. cbn zeta. split_and!; [done|done| |].
      * intros id' i b Hi Hb. destruct (String.eqb_spec id id') as [<-|Hne].
        -- rewrite E in Hi. injection Hi as <-. apply Hn; [|by rewrite list_lookup_alter_eq, Hb].
           intros k [Hk Hk']%Hpop. apply Hk. destruct Hp as (_ & _ & Hinj). by eapply Hinj.
        -- apply Ho; [by rewrite assoc_dpop_ne|]. rewrite list_lookup_alter_ne; [done|].
           intros ->. apply Hne. destruct Hp as (_ & _ & Hinj). by eapply Hinj.
      * intros i b Hi Hb. apply Hn; [by intros k [_ Hk]%Hpop; apply (Hi k)|].
        rewrite list_lookup_alter_ne; [done|]. intros ->. by apply (Hi id).
    + destruct (IH l (dpop open id)) as (Hd & Hlen & Ho & Hn); [by apply positions_pop|].
      cbn zeta. split_and!; [done|done| |].
      * intros id' i b Hi Hb. destruct (String.eqb_spec id id') as [<-|Hne]; [congruence|].
        apply Ho; [by rewrite assoc_dpop_ne|done].
      * intros i b Hi Hb. apply Hn; [|done]. by intros k [_ Hk]%Hpop; apply (Hi k).
Qed.

Lemma run_closed ops : (fold_left op_step ops ([], [])).1 = closed_all ops.
Proof.
  destruct (run_from ops [] []) as (H & _); [|by rewrite drop_0 in H].
  split_and!; [constructor|done|done].
Qed.
End pairing.
Arguments op : clear implicits.
