(* ===== verification/NormalizeFoe.v ===== *)
(** * Normalising an episode tree

    src/evals/cross_harness/normalize_foe.py: the logs of an episode and of its
    children, reduced to a trajectory.  The events of a log are read into
    records; the objects the code keeps in a list and in a dictionary at once
    are positions in the list.  The directories are a finite tree. *)

From Stdlib Require Import Ascii.
From stdpp Require Import base list sets strings pretty sorting.
From Stdlib Require Import ZArith Lia.
From S2P Require Import Prelude PyValue PyText PyJson PyUnicode PyPath Trajectory Pairing.

Definition LOG_NAME : string := "episode.jsonl".
Definition CHILDREN_DIR : string := "children".
Definition VERIFIER_TOOL : string := "check".
Definition VERIFICATION_NAME : string := "verification/result".
Definition BLOCK_TOOL : string := "block".
Definition PATH_TOOLS : list string := ["read"; "grep"; "edit"].
Definition SUBSCRIPTION_PROVIDERS : list string := ["openai-codex"].
Definition CREDENTIAL_OPTIONS : list string := ["api_key_file"; "token_file"; "credentials_file"].
Definition LOG_VERSION : Z := 3.
Definition OUTCOME_KINDS : list string := ["blocked"; "completed"; "exhausted"; "failed"].

(** ** Reading a log *)

(** An event whose four keys have been checked. *)
Record event : Type := { seq : Z; time : Z; type : string; data : dict }.

Definition line_error (log : string) (number : nat) (text : string) : exn :=
  ValueError (log +:+ ":" +:+ nat_str number +:+ ": " +:+ text).

(** [_check_version]. *)
Definition check_version (log : string) (number : nat) (first : dict) : res () :=
  match assoc first "version" with
  | None => Ok ()
  | Some (VInt stated) =>
      raise_if (negb (stated =? LOG_VERSION)%Z)
        (line_error log number ("the log states format version " +:+ Z_str stated
                                +:+ ", and this reader reads version " +:+ Z_str LOG_VERSION))
  | Some _ => Err (line_error log number "version is not an integer")
  end.

Definition integer_key (log : string) (number : nat) (e : dict) (key : string) : res Z :=
  match dget e key with
  | VInt z => Ok z
  | _ => Err (line_error log number (key +:+ " is not an integer"))
  end.

(** The event one decoded line states. *)
Definition checked_event (log : string) (number : nat) (first : bool) (v : value) : res event :=
  let bad := line_error log number "the event is not an object with a data object" in
  match v with
  | VDict e =>
      match dget e "data" with
      | VDict d =>
          (if first then check_version log number e else Ok ());;
          s ← integer_key log number e "seq";
          t ← integer_key log number e "time";
          match dget e "type" with
          | VStr ty => Ok {| seq := s; time := t; type := ty; data := d |}
          | _ => Err (line_error log number "type is not a string")
          end
      | _ => Err bad
      end
  | _ => Err bad
  end.

(** The loop over the lines; [complete] says that the text ends with a line end. *)
Fixpoint read_lines (log : string) (complete : bool) (number : nat) (events : list event) (lines : list string)
    : res (list event) :=
  match lines with
  | [] => Ok events
  | line :: rest =>
      if String.eqb (str_strip line) "" then read_lines log complete (S number) events rest
      else
        match loads_str line with
        | inr e =>
            match rest with
            | [] => if complete then Err (line_error log number ("the line is not JSON: " +:+
                                            match e with NotJson m _ => m | Undecodable t => t end))
                    else Ok events
            | _ => Err (line_error log number ("the line is not JSON: " +:+
                                            match e with NotJson m _ => m | Undecodable t => t end))
            end
        | inl v =>
            e ← checked_event log number (match events with [] => true | _ => false end) v;
            read_lines log complete (S number) (events ++ [e]) rest
        end
  end.

(** [read_events], given the bytes of the file or the error of reading it. *)
Definition read_events (log : string) (file : res string) : res (list event) :=
  match file with
  | Err e => Err (ValueError (log +:+ ": the log cannot be read: " +:+ exn_str e))
  | Ok bytes =>
      match utf8_fault false bytes with
      | Some f => Err (ValueError (decode_fault_str f))
      | None =>
          let text := universal_newlines bytes in
          events ← read_lines log (ends_with nl text) 1 [] (str_splitlines text);
          match events with
          | e :: _ => raise_if (negb (String.eqb (type e) "episode/start"))
                        (ValueError (log +:+ ": the first event is not episode/start"));; Ok events
          | [] => Err (ValueError (log +:+ ": the first event is not episode/start"))
          end
      end
  end.

(** ** What ran *)

Definition route_for (provider : value) : string :=
  match provider with VStr p => if elem_str p SUBSCRIPTION_PROVIDERS then "subscription" else "compatible"
                    | _ => "compatible" end.

(** [_model_named]. *)
Definition model_named (start : dict) (events : list event) : dict :=
  match dget (dict_or_empty (dget start "contract")) "model" with
  | VDict m => m
  | _ =>
      match List.filter (λ e, String.eqb (type e) "request/header" && is_dict (dget (data e) "model")) events with
      | e :: _ => dict_or_empty (dget (data e) "model")
      | [] => []
      end
  end.

Definition identity_of (start : dict) (events : list event) : dict :=
  let runtime := dict_or_empty (dget start "runtime") in
  let sandbox := dict_or_empty (dget start "sandbox") in
  let contract := dict_or_empty (dget start "contract") in
  let model := model_named start events in
  [("episode_id", dget start "id"); ("runtime_version", dget runtime "version"); ("runtime_build", dget runtime "build");
   ("contract_name", dget contract "name"); ("contract_fingerprint", dget start "contract_fingerprint");
   ("model_provider", dget model "provider"); ("model", dget model "model");
   ("reasoning_effort", dget model "reasoning_effort");
   ("model_options", VDict (List.filter (λ kv, negb (elem_str kv.1 ["provider"; "model"])
                                            && negb (elem_str kv.1 CREDENTIAL_OPTIONS)) model));
   ("sandbox_mode", dget sandbox "mode"); ("landlock_abi", dget sandbox "landlock_abi")].

(** [outcome_of] of the last event. *)
Definition outcome_of (end_ : event) (log : string) : res Outcome :=
  if negb (String.eqb (type end_) "episode/end") then
    Ok {| status := "killed"; code := VNone; outcome_value := VNone; outcome_ended_ms := None |}
  else
    let bad := ValueError (log +:+ ": episode/end at seq " +:+ Z_str (seq end_) +:+ ": outcome.kind is not one of "
                           +:+ join ", " OUTCOME_KINDS) in
    match dget (data end_) "outcome" with
    | VDict o =>
        known ← in_set (dget o "kind") OUTCOME_KINDS;
        match dget o "kind" with
        | VStr kind =>
            raise_if (negb known) bad;;
            Ok {| status := kind;
                  code := if String.eqb kind "blocked" then dget o "code"
                          else if String.eqb kind "exhausted" then dget o "limit" else VNone;
                  outcome_value := if String.eqb kind "completed" then dget o "value"
                                   else if String.eqb kind "failed" then dget o "error" else VNone;
                  outcome_ended_ms := Some (time end_) |}
        | _ => Err bad
        end
    | _ => Err bad
    end.

(** ** Calls to the model *)

(** [_int_or_none]. *)
Definition int_or_none (v : value) : option Z := match v with VInt z => Some z | _ => None end.

(** [dict.pop(key, None)]. *)
Definition pop {A} (d : list (string * A)) (k : string) : option A * list (string * A) := (assoc d k, dpop d k).

(** The closing of a model call: the end and the usage of the message. *)
Definition answer_call (e : event) (c : ModelCall) : ModelCall :=
  let count key := match dget (data e) "usage" with VDict u => int_or_none (dget u key) | _ => None end in
  {| call_seq := call_seq c; call_started_ms := call_started_ms c; call_ended_ms := Some (time e);
     input_tokens := count "input"; output_tokens := count "output"; cache_read_tokens := count "cache_read";
     reasoning_tokens := reasoning_tokens c |}.
Definition request_id (e : event) : string := py_str (dget (data e) "request_id").
Definition open_model_call (e : event) : ModelCall :=
  Build_ModelCall (Some (seq e)) (time e) None None None None None.

(** One event: the calls so far, and the positions of the open ones by id. *)
Definition model_call_step (st : list ModelCall * list (string * nat)) (e : event)
    : list ModelCall * list (string * nat) :=
  let '(calls, open) := st in
  if String.eqb (type e) "model/request" then
    (calls ++ [open_model_call e], dset open (request_id e) (length calls))
  else if String.eqb (type e) "assistant/message" then
    match pop open (request_id e) with
    | (Some i, open) => (alter (answer_call e) i calls, open)
    | (None, open) => (calls, open)
    end
  else st.
Definition model_calls_of (events : list event) : list ModelCall :=
  (fold_left model_call_step events ([], [])).1.

(** ** Commands and file changes *)

(** [_opened_calls]. *)
Definition opened_calls (e : event) : list dict :=
  if String.eqb (type e) "assistant/message" then
    match dget (data e) "tool_calls" with VList l => omap as_dict l | _ => [] end
  else if String.eqb (type e) "tool/inner-call" then [data e]
  else [].
Definition opened_id (e : event) (call : dict) : string :=
  py_str (if String.eqb (type e) "assistant/message" then dget call "id" else dget call "call_id").
Definition args_of (call : dict) : dict := dict_or_empty (dget call "args").

(** [_is_denial]. *)
Definition is_denial (d : dict) : bool :=
  match dget d "value" with VDict v => is_string "possible" (dget v "permission_denial") | _ => false end
  || (truthy (dget d "is_error")
      && match dget d "failure" with VDict f => is_string "capability-denied" (dget f "code") | _ => false end).

(** The state of the loop: the opened calls with their times, the commands, the
    positions of the open commands by call and by session, the changes. *)
Record commands_state : Type := {
  opened : list (string * (dict * Z));
  cmds : list Command;
  command_by_id : list (string * nat);
  session_by_id : list (string * nat);
  changes : list FileChange;
}.

Section commands.
(** The letters and digits of Unicode, for the paths a command names. *)
Context (word : string → bool).

Definition is_command (call : dict) : bool :=
  is_string "bash" (dget call "name")
  || (is_string "session" (dget call "name") && is_string "start" (dget (args_of call) "action")).
Definition open_command (e : event) (st : commands_state) (call : dict) : commands_state :=
  let id := opened_id e call in
  let opened' := dset (opened st) id (call, time e) in
  if is_command call then
    {| opened := opened';
       cmds := cmds st ++ [Command_from_text word (time e) None (py_str (dget_or (args_of call) "command" (VStr ""))) None false];
       command_by_id := dset (command_by_id st) id (length (cmds st));
       session_by_id := session_by_id st; changes := changes st |}
  else {| opened := opened'; cmds := cmds st; command_by_id := command_by_id st; session_by_id := session_by_id st;
          changes := changes st |}.

Definition start_command (started : Z) (c : Command) : Command :=
  Build_Command started (cmd_ended_ms c) (text c) (exit_code c) (paths_named c) (denial c).
Definition end_command (ended : Z) (code : option Z) (denied : bool) (c : Command) : Command :=
  Build_Command (cmd_started_ms c) (Some ended) (text c) code (paths_named c) denied.

(** The part of a result that closes a command or a session. *)
Definition close_command (e : event) (call : dict) (opened_ms : Z) (value_ : dict) (st : commands_state)
    : commands_state :=
  let d := data e in
  let failed := truthy (dget d "is_error") in
  let id := py_str (dget d "call_id") in
  match assoc (command_by_id st) id with
  | Some i =>
      let started := match int_or_none (dget d "duration_ms") with
        | Some n => Z.max opened_ms (time e - n) | None => opened_ms end in
      let running := is_string "session" (dget d "name") && negb failed in
      {| opened := opened st;
         cmds := alter (λ c, let c := start_command started c in
           if running then c
           else end_command (time e) (if failed then None else int_or_none (dget value_ "exit_code")) (is_denial d) c) i (cmds st);
         command_by_id := dpop (command_by_id st) id;
         session_by_id := if running then dset (session_by_id st) (py_str (dget value_ "session")) i else session_by_id st;
         changes := changes st |}
  | None =>
      if is_string "session" (dget d "name")
         && (is_string "poll" (dget (args_of call) "action") || is_string "stop" (dget (args_of call) "action"))
         && negb failed && negb (match dget value_ "alive" with VBool true => true | _ => false end) then
        let session := py_str (dget (args_of call) "session") in
        {| opened := opened st;
           cmds := match assoc (session_by_id st) session with
             | Some i => alter (end_command (time e) (int_or_none (dget value_ "exit_code")) (is_denial d)) i (cmds st)
             | None => cmds st end;
           command_by_id := command_by_id st;
           session_by_id := dpop (session_by_id st) session; changes := changes st |}
      else st
  end.

(** The change a successful edit records. *)
Definition edit_change (e : event) (call value_ : dict) : option FileChange :=
  let d := data e in
  if is_string "edit" (dget d "name") && negb (truthy (dget d "is_error")) then
    let args := args_of call in
    let created := match list_or_empty (dget args "edits") with
      | [VDict x] => is_string "" (dget x "old_text") | _ => false end in
    match (match dget value_ "path" with VStr p => VStr p | _ => dget args "path" end) with
    | VStr p => Some {| change_path := p; change_kind := if created then "create" else "edit"; at_ms := time e; via := "tool" |}
    | _ => None
    end
  else None.
Definition add_changes (l : list FileChange) (st : commands_state) : commands_state :=
  {| opened := opened st; cmds := cmds st; command_by_id := command_by_id st; session_by_id := session_by_id st;
     changes := changes st ++ l |}.

Definition commands_step (st : commands_state) (e : event) : commands_state :=
  let st := fold_left (open_command e) (opened_calls e) st in
  if String.eqb (type e) "tool/result" then
    let '(call, opened_ms) := default ([], time e) (assoc (opened st) (py_str (dget (data e) "call_id"))) in
    let value_ := dict_or_empty (dget (data e) "value") in
    add_changes (match edit_change e call value_ with Some c => [c] | None => [] end)
      (close_command e call opened_ms value_ st)
  else st.
Definition commands_and_changes (events : list event) : list Command * list FileChange :=
  let st := fold_left commands_step events
    {| opened := []; cmds := []; command_by_id := []; session_by_id := []; changes := [] |} in
  (cmds st, changes st).
End commands.

(** ** Tool calls *)

(** [_findings_phrase] and [_printed_findings]. *)
Definition findings_phrase (count : nat) : string := if count =? 1 then "1 finding" else nat_str count +:+ " findings".
Definition printed_findings (value_ : dict) : nat :=
  match dget value_ "stdout" with
  | VStr out => length (List.filter (λ l, negb (String.eqb (str_strip l) "")) (str_splitlines out))
  | _ => 0
  end.
(** [_summary_from_args] and [_summary_from_result]. *)
Definition code_or_path (name : string) (d : dict) : option string :=
  match (if String.eqb name BLOCK_TOOL then as_str (dget d "code") else None) with
  | Some c => Some c
  | None => if elem_str name PATH_TOOLS then as_str (dget d "path") else None
  end.
Definition summary_from_args (name : string) (args : dict) : option string := code_or_path name args.
Definition summary_from_result (name : string) (value_ : dict) : option string :=
  match code_or_path name value_ with
  | Some s => Some s
  | None =>
      if String.eqb name VERIFIER_TOOL && has_key value_ "exit_code" then
        Some (findings_phrase (printed_findings value_) +:+ ", exit "
              +:+ match int_or_none (dget value_ "exit_code") with Some z => Z_str z | None => "none" end)
      else None
  end.

(** [_verification_call]. *)
Definition verification_call (e : event) : ToolCall :=
  let d := data e in
  let status := default "unknown" (as_str (dget d "status")) in
  {| tool_name := VERIFICATION_NAME;
     tool_started_ms := match int_or_none (dget d "duration_ms") with Some n => (time e - n)%Z | None => time e end;
     tool_ended_ms := Some (time e);
     is_error := String.eqb status "failed";
     tool_digest := as_str (dget d "candidate_sha256");
     summary := Some (if String.eqb status "failed" then status
                      else findings_phrase (length (list_or_empty (dget d "findings"))) +:+ ", " +:+ status) |}.

(** The record of a call as it opens. *)
Definition open_record (e : event) (call : dict) : res ToolCall :=
  let name := py_str (dget call "name") in
  digest ← match dget call "args" with VDict a => d ← arguments_digest (VDict a); Ok (Some d) | _ => Ok None end;
  Ok {| tool_name := name; tool_started_ms := time e; tool_ended_ms := None; is_error := false;
        tool_digest := digest; summary := summary_from_args name (args_of call) |}.
Definition open_tool_call (e : event) (st : list ToolCall * list (string * nat)) (call : dict)
    : res (list ToolCall * list (string * nat)) :=
  r ← open_record e call;
  Ok (st.1 ++ [r], dset st.2 (opened_id e call) (length st.1)).
Definition close_tool_call (e : event) (c : ToolCall) : ToolCall :=
  {| tool_name := tool_name c; tool_started_ms := tool_started_ms c; tool_ended_ms := Some (time e);
     is_error := truthy (dget (data e) "is_error"); tool_digest := tool_digest c;
     summary := match summary_from_result (tool_name c) (dict_or_empty (dget (data e) "value")) with
       | Some s => Some s | None => summary c end |}.
Definition tool_call_step (st : list ToolCall * list (string * nat)) (e : event)
    : res (list ToolCall * list (string * nat)) :=
  st ← foldM (open_tool_call e) st (opened_calls e);
  Ok (if String.eqb (type e) "verification/result" then (st.1 ++ [verification_call e], st.2)
      else if String.eqb (type e) "tool/result" then
        match pop st.2 (py_str (dget (data e) "call_id")) with
        | (Some i, open) => (alter (close_tool_call e) i st.1, open)
        | (None, open) => (st.1, open)
        end
      else st).
Definition tool_calls_of (events : list event) : res (list ToolCall) :=
  st ← foldM tool_call_step ([], []) events; Ok st.1.

(** ** Compactions *)

Definition compaction_step (st : list (value * option Z) * list Compaction) (e : event)
    : res (list (value * option Z) * list Compaction) :=
  let '(projected, done_) := st in
  let step := dget (data e) "step" in
  if String.eqb (type e) "compaction/start" then
    raise_if (negb (hashable step)) (unhashable step);;
    Ok (vset projected step (int_or_none (dget (data e) "projected_tokens")), done_)
  else if String.eqb (type e) "compaction/end" && match dget (data e) "ok" with VBool true => true | _ => false end then
    before ← vget projected step;
    Ok (projected, done_ ++ [{| compacted_ms := time e; tokens_before := default None before |}])
  else Ok st.
Definition compactions_of (events : list event) : res (list Compaction) :=
  st ← foldM compaction_step ([], []) events; Ok st.2.

(** ** Agents *)

(** A directory of the tree: its path, its log (absent, or its bytes or the error
    of reading it), the error of listing its children, if any, and the child
    directories in the order of their paths. *)
Inductive directory : Type :=
  Directory (path : string) (log : option (res string)) (unlisted : option exn) (children : list directory).
Definition dir_path (d : directory) : string := let '(Directory p _ _ _) := d in p.
Definition dir_log (d : directory) : option (res string) := let '(Directory _ l _ _) := d in l.
Definition log_path (d : directory) : string := dir_path d +:+ "/" +:+ LOG_NAME.

(** [_read_episode]. *)
Definition read_episode (d : directory) : res (list event) :=
  match dir_log d with
  | Some file => read_events (log_path d) file
  | None => Err (ValueError (dir_path d +:+ ": the episode directory has no " +:+ LOG_NAME))
  end.

Section collect.
Context (word : string → bool).

(** The first event of a log, and the last. *)
Definition start_of (events : list event) : event :=
  default {| seq := 0; time := 0; type := ""; data := [] |} (head events).
Definition end_of (events : list event) : event := default (start_of events) (last events).

(** [agent_of]. *)
Definition agent_of (events : list event) (depth : Z) (role : string) : res Agent :=
  let start := data (start_of events) in
  let cc := commands_and_changes word events in
  comps ← compactions_of events;
  tools ← tool_calls_of events;
  Ok {| agent_id := py_str (dget start "id"); parent_id := as_str (dget start "parent_id"); depth := depth; role := role;
        agent_started_ms := time (start_of events);
        agent_ended_ms := if String.eqb (type (end_of events)) "episode/end" then Some (time (end_of events)) else None;
        model_calls := model_calls_of events; commands := cc.1; file_changes := cc.2; compactions := comps;
        tool_calls := tools |}.

(** The role of an agent: the name of its contract below the root. *)
Definition role_of (start : dict) (depth : Z) : string :=
  if (depth =? 0)%Z then "root"
  else py_str (py_or (dget (dict_or_empty (dget start "contract")) "name") (VStr "child")).
Definition check_parent (d : directory) (start : dict) (parent : option string) : res () :=
  match parent with
  | Some p => raise_if (negb (is_string p (dget start "parent_id")))
      (ValueError (log_path d +:+ ": episode/start.parent_id is " +:+ py_repr (dget start "parent_id")
                   +:+ ", and the directory holding it belongs to " +:+ str_repr p))
  | None => Ok ()
  end.
(** [_child_logs]: every child directory has a log. *)
Definition child_logs (d : directory) : res () :=
  let '(Directory p _ unlisted children) := d in
  let where_ := p +:+ "/" +:+ CHILDREN_DIR in
  match unlisted with
  | Some e => Err (ValueError (where_ +:+ ": the children directory cannot be listed: " +:+ exn_str e))
  | None => foldM (λ _ c, match dir_log c with
      | Some _ => Ok ()
      | None => Err (ValueError (dir_path c +:+ ": the child episode directory has no " +:+ LOG_NAME)) end) () children
  end.

(** The order in which children follow their parent: by start, then by path. *)
Definition child_le {A} (x y : Z * string * A) : Prop :=
  (x.1.1 < y.1.1)%Z ∨ (x.1.1 = y.1.1 ∧ String.le x.1.2 y.1.2).
#[export] Instance child_le_dec {A} (x y : Z * string * A) : Decision (child_le x y).
Proof. unfold child_le. apply _. Defined.

(** [_collect]: the agent of a directory, then those of its children, whose logs
    are all read before the first of them is collected. *)
Fixpoint collect (d : directory) (events : list event) (depth : Z) (parent : option string) {struct d}
    : res (list Agent) :=
  let start := data (start_of events) in
  check_parent d start parent;;
  agent ← agent_of events depth (role_of start depth);
  child_logs d;;
  let '(Directory _ _ _ children) := d in
  read ← map_res (λ c, events ← read_episode c;
    Ok (time (start_of events), log_path c, collect c events (depth + 1)%Z (Some (agent_id agent)))) children;
  below ← map_res (λ x, x.2) (merge_sort child_le read);
  Ok (agent :: concat below).

(** [normalize]. *)
Definition normalize (d : directory) (route_given : option string) : res Trajectory :=
  events ← read_episode d;
  agents ← collect d events 0 None;
  let identity := identity_of (data (start_of events)) events in
  outcome ← outcome_of (end_of events) (log_path d);
  Ok {| harness := "foe"; identity := identity; agents := agents; outcome := outcome;
        route := match route_given with Some r => r | None => route_for (dget identity "model_provider") end |}.
End collect.

(** ** Calls and their closings *)

(** The message that answers a request: the first of its id, unless the id is
    requested again before. *)
Fixpoint reply (id : string) (events : list event) : option event :=
  match events with
  | [] => None
  | e :: events =>
      if String.eqb (type e) "model/request" && String.eqb (request_id e) id then None
      else if String.eqb (type e) "assistant/message" && String.eqb (request_id e) id then Some e
      else reply id events
  end.
Fixpoint answered (events : list event) : list ModelCall :=
  match events with
  | [] => []
  | e :: events =>
      if String.eqb (type e) "model/request" then
        match reply (request_id e) events with Some m => answer_call m (open_model_call e) | None => open_model_call e end
        :: answered events
      else answered events
  end.

Definition model_ops (e : event) : list (op ModelCall) :=
  if String.eqb (type e) "model/request" then [Open (request_id e) (open_model_call e)]
  else if String.eqb (type e) "assistant/message" then [Close (request_id e) (answer_call e)]
  else [].

Lemma model_step_ops st e : model_call_step st e = fold_left op_step (model_ops e) st.
Proof.
  destruct st as [calls open]. unfold model_call_step, model_ops, pop.
  destruct (String.eqb (type e) "model/request"); [done|]. destruct (String.eqb (type e) "assistant/message"); [|done].
  cbn. by destruct (assoc open (request_id e)).
Qed.

Lemma fold_ops {E A} (step : list A * list (string * nat) → E → list A * list (string * nat)) (ops : E → list (op A)) es st :
  (∀ st e, step st e = fold_left op_step (ops e) st) →
  fold_left step es st = fold_left op_step (flat_map ops es) st.
Proof.
  intros H. revert st. induction es as [|e es IH]; intros st; [done|]. cbn. by rewrite fold_left_app, IH, H.
Qed.

Lemma closed_reply id es a :
  closed_by id (flat_map model_ops es) a = match reply id es with Some m => answer_call m a | None => a end.
Proof.
  induction es as [|e es IH]; [done|]. cbn [flat_map reply]. unfold model_ops at 1.
  destruct (String.eqb (type e) "model/request") eqn:E1.
  - cbn [app closed_by andb]. destruct (String.eqb (request_id e) id); [done|].
    apply String.eqb_eq in E1. rewrite E1. exact IH.
  - destruct (String.eqb (type e) "assistant/message"); cbn [app closed_by andb]; [|exact IH].
    by destruct (String.eqb (request_id e) id).
Qed.

(** The model calls of a log are its requests in order, each with its
    sequence number and time, and each ended, with the usage reported, by the
    first message that answers its request id, unless the id was requested again
    before that message. *)
Theorem model_calls_exact events : model_calls_of events = answered events.
Proof.
  unfold model_calls_of. rewrite (fold_ops _ model_ops _ _ model_step_ops), run_closed.
  induction events as [|e es IH]; [done|]. cbn [flat_map answered]. unfold model_ops at 1.
  destruct (String.eqb (type e) "model/request"); [cbn; by rewrite closed_reply, IH|].
  by destruct (String.eqb (type e) "assistant/message").
Qed.

(** The result that settles a call: the first of its id, unless a call opens
    under the id before. *)
Definition opens (id : string) (e : event) : bool := existsb (λ c, String.eqb (opened_id e c) id) (opened_calls e).
Definition result_id (e : event) : string := py_str (dget (data e) "call_id").
Fixpoint settled (id : string) (events : list event) : option event :=
  match events with
  | [] => None
  | e :: events =>
      if opens id e then None
      else if String.eqb (type e) "tool/result" && String.eqb (result_id e) id then Some e
      else settled id events
  end.
(** The records of the calls one event opens, given the events after it. *)
Fixpoint call_records (e : event) (calls : list dict) (after : list event) : res (list ToolCall) :=
  match calls with
  | [] => Ok []
  | c :: calls =>
      r ← open_record e c;
      rs ← call_records e calls after;
      Ok ((if existsb (λ c', String.eqb (opened_id e c') (opened_id e c)) calls then r
           else match settled (opened_id e c) after with Some m => close_tool_call m r | None => r end) :: rs)
  end.
Fixpoint recorded (events : list event) : res (list ToolCall) :=
  match events with
  | [] => Ok []
  | e :: events =>
      calls ← call_records e (opened_calls e) events;
      rest ← recorded events;
      Ok (calls ++ (if String.eqb (type e) "verification/result" then [verification_call e] else []) ++ rest)
  end.

Definition close_ops (e : event) : list (op ToolCall) :=
  if String.eqb (type e) "verification/result" then [Put (verification_call e)]
  else if String.eqb (type e) "tool/result" then [Close (result_id e) (close_tool_call e)] else [].
Definition open_ops (e : event) (calls : list dict) (rs : list ToolCall) : list (op ToolCall) :=
  zip_with (λ c r, Open (opened_id e c) r) calls rs.
Definition tool_ops (e : event) : res (list (op ToolCall)) :=
  rs ← map_res (open_record e) (opened_calls e);
  Ok (open_ops e (opened_calls e) rs ++ close_ops e).

Lemma open_calls_ops e calls st :
  foldM (open_tool_call e) st calls =
  (rs ← map_res (open_record e) calls; Ok (fold_left op_step (open_ops e calls rs) st)).
Proof.
  revert st. induction calls as [|c calls IH]; intros st; [done|]. cbn [foldM map_res].
  rewrite (eq_refl : open_tool_call e st c = (r ← open_record e c; Ok (st.1 ++ [r], dset st.2 (opened_id e c) (length st.1)))).
  destruct (open_record e c) as [r|x]; [|done]. cbn [mbind res_bind]. rewrite IH.
  fold (map_res (open_record e) calls). by destruct (map_res (open_record e) calls).
Qed.

Lemma tool_step_ops e st :
  tool_call_step st e = (ops ← tool_ops e; Ok (fold_left op_step ops st)).
Proof.
  unfold tool_call_step, tool_ops. rewrite open_calls_ops.
  destruct (map_res (open_record e) (opened_calls e)) as [rs|x]; [|done]. cbn [mbind res_bind].
  rewrite fold_left_app. destruct (fold_left op_step (open_ops e (opened_calls e) rs) st) as [l open]. unfold close_ops, pop.
  destruct (String.eqb (type e) "verification/result"); [done|].
  destruct (String.eqb (type e) "tool/result"); [|done]. unfold result_id. cbn. by destruct (assoc open _).
Qed.

Lemma tool_fold_ops es st :
  foldM tool_call_step st es = (opss ← map_res tool_ops es; Ok (fold_left op_step (concat opss) st)).
Proof.
  revert st. induction es as [|e es IH]; intros st; [done|]. cbn [foldM map_res]. rewrite tool_step_ops.
  destruct (tool_ops e) as [ops|x]; [|done]. cbn [mbind res_bind]. rewrite IH. fold (map_res tool_ops es).
  destruct (map_res tool_ops es); [|done]. cbn. by rewrite fold_left_app.
Qed.

Lemma opens_no_result id e : opens id e = true → close_ops e = [].
Proof.
  unfold opens, opened_calls, close_ops. destruct (String.eqb_spec (type e) "assistant/message") as [->|]; [done|].
  by destruct (String.eqb_spec (type e) "tool/inner-call") as [->|].
Qed.

Lemma closed_open_ops e calls rs id rest a :
  length rs = length calls →
  closed_by id (open_ops e calls rs ++ rest) a =
    if existsb (λ c, String.eqb (opened_id e c) id) calls then a else closed_by id rest a.
Proof.
  revert rs. induction calls as [|c calls IH]; intros [|r rs] H; try done. cbn.
  destruct (String.eqb (opened_id e c) id); [done|]. apply IH. by injection H.
Qed.

Lemma closed_settled id es opss a :
  map_res tool_ops es = Ok opss →
  closed_by id (concat opss) a = match settled id es with Some m => close_tool_call m a | None => a end.
Proof.
  revert opss. induction es as [|e es IH]; intros opss H; [by injection H as <-|]. cbn [map_res] in H.
  apply res_bind_ok in H as (ops & Ho & H). apply res_bind_ok in H as (opss' & Hes & [= <-]).
  unfold tool_ops in Ho. apply res_bind_ok in Ho as (rs & Hrs & [= <-]).
  cbn [concat settled]. rewrite <-app_assoc, closed_open_ops.
  2: { by apply map_res_Forall2, Forall2_length in Hrs. }
  fold (opens id e). destruct (opens id e); [done|]. unfold close_ops.
  destruct (String.eqb_spec (type e) "verification/result") as [->|]; [cbn; by apply IH|].
  destruct (String.eqb (type e) "tool/result"); [|cbn; by apply IH]. cbn [app closed_by andb].
  destruct (String.eqb (result_id e) id); [done|]. by apply IH.
Qed.

Lemma open_ops_all e calls rs after opss :
  map_res (open_record e) calls = Ok rs → map_res tool_ops after = Ok opss →
  (∀ c id, c ∈ calls → closed_by id (close_ops e ++ concat opss) = closed_by id (concat opss)) →
  call_records e calls after = Ok (take (length calls) (closed_all (open_ops e calls rs ++ close_ops e ++ concat opss))) ∧
  drop (length calls) (closed_all (open_ops e calls rs ++ close_ops e ++ concat opss)) = closed_all (close_ops e ++ concat opss).
Proof.
  intros Hrs Ha Hc. revert rs Hrs. induction calls as [|c calls IH]; intros rs Hrs; cbn [map_res] in Hrs.
  { injection Hrs as <-. by rewrite drop_0. }
  apply res_bind_ok in Hrs as (r & Hr & Hrs). apply res_bind_ok in Hrs as (rs' & Hrs & [= <-]).
  destruct (IH (λ c' id Hin, Hc c' id (list_elem_of_further _ _ _ Hin)) rs' Hrs) as [IH1 IH2].
  cbn [call_records open_ops zip_with app closed_all length take drop]. fold (open_ops e calls rs').
  rewrite Hr, IH1. split; [|exact IH2]. cbn [mbind res_bind]. do 2 f_equal.
  rewrite closed_open_ops by (by apply map_res_Forall2, Forall2_length in Hrs).
  destruct (existsb _ calls); [done|]. rewrite (Hc c _ (list_elem_of_here _ _)). by rewrite (closed_settled _ _ _ _ Ha).
Qed.

Lemma call_records_err e calls after x :
  map_res (open_record e) calls = Err x → call_records e calls after = Err x.
Proof.
  induction calls as [|c calls IH]; [done|]. cbn [map_res call_records].
  destruct (open_record e c) as [r|y]; [|done]. cbn [mbind res_bind]. fold (map_res (open_record e) calls).
  destruct (map_res (open_record e) calls) as [rs|y]; [done|]. intros [= <-]. by rewrite IH.
Qed.

(** The records of the calls of an event, whatever the events after it: those of
    the opening, or closed. *)
Lemma call_records_ok e calls after rs :
  map_res (open_record e) calls = Ok rs → ∃ rs', call_records e calls after = Ok rs'.
Proof.
  revert rs. induction calls as [|c calls IH]; intros rs; [by eexists|]. cbn [map_res call_records].
  intros (r & -> & H)%res_bind_ok. apply res_bind_ok in H as (rs1 & H1 & _). destruct (IH rs1 H1) as [rs' ->]. by eexists.
Qed.

Lemma recorded_ops es :
  recorded es = (opss ← map_res tool_ops es; Ok (closed_all (concat opss))).
Proof.
  induction es as [|e es IH]; [done|]. cbn [recorded map_res].
  rewrite (eq_refl : tool_ops e = (rs ← map_res (open_record e) (opened_calls e); Ok (open_ops e (opened_calls e) rs ++ close_ops e))).
  destruct (map_res (open_record e) (opened_calls e)) as [rs|x] eqn:Hrs.
  2: { by rewrite (call_records_err _ _ _ _ Hrs). }
  cbn [mbind res_bind]. rewrite IH. fold (map_res tool_ops es). destruct (map_res tool_ops es) as [opss|x] eqn:Ha.
  2: { destruct (call_records_ok e (opened_calls e) es rs Hrs) as [rs' E]. rewrite E. done. }
  destruct (open_ops_all e (opened_calls e) rs es opss Hrs Ha) as [H1 H2].
  { intros c id Hc. rewrite (opens_no_result (opened_id e c) e); [done|].
    apply existsb_exists. exists c. by rewrite String.eqb_refl, <-list_elem_of_In. }
  rewrite H1. cbn [mbind res_bind concat]. f_equal. rewrite <-app_assoc.
  etrans; [|apply (take_drop (length (opened_calls e)))].
  f_equal. rewrite H2. unfold close_ops. destruct (String.eqb (type e) "verification/result"); [done|].
  by destruct (String.eqb (type e) "tool/result").
Qed.

(** The tool calls of a log are the calls its messages and inner calls
    open, in order, and its verifications where they occur; each call is closed
    by the first result of its call id, unless another call opens under the id
    before, and then carries the end, the error flag and the summary of that
    result.  When a call's arguments cannot be digested, that is the error of
    the whole log. *)
Theorem tool_calls_exact events : tool_calls_of events = recorded events.
Proof.
  unfold tool_calls_of. rewrite tool_fold_ops, recorded_ops. destruct (map_res tool_ops events); [|done].
  cbn. by rewrite run_closed.
Qed.

(** ** The tree of agents *)

(** Agents in the order their directories are visited: one, then those below
    each of its children, which name it as their parent, are one deeper, and
    follow each other by the time they started. *)
Inductive nested : option string → Z → list Agent → Prop :=
| nest parent n a below :
    (∀ p, parent = Some p → parent_id a = Some p) → depth a = n →
    Forall (nested (Some (agent_id a)) (n + 1)%Z) below →
    Sorted Z.le (map (λ l, default 0%Z (agent_started_ms <$> head l)) below) →
    nested parent n (a :: concat below).

Fixpoint logs (d : directory) : nat := let '(Directory _ _ _ children) := d in S (sum_list_with logs children).

Section directory_ind.
Variable P : directory → Prop.
Hypothesis H : ∀ p log unlisted children, Forall P children → P (Directory p log unlisted children).
Fixpoint directory_ind' (d : directory) : P d :=
  match d with
  | Directory p log unlisted children =>
      H p log unlisted children
        ((fix go (l : list directory) : Forall P l :=
            match l with [] => Forall_nil_2 _ | x :: l => Forall_cons_2 _ _ _ (directory_ind' x) (go l) end) children)
  end.
End directory_ind.

Lemma length_concat' {A} (l : list (list A)) : length (concat l) = sum_list_with length l.
Proof. induction l as [|x l IH]; [done|]. cbn. by rewrite length_app, IH. Qed.

Section tree.
Context (word : string → bool).

Lemma agent_of_fields events n role a :
  agent_of word events n role = Ok a →
  depth a = n ∧ agent_started_ms a = time (start_of events) ∧
  parent_id a = as_str (dget (data (start_of events)) "parent_id").
Proof. unfold agent_of. intros (c & _ & H)%res_bind_ok. by apply res_bind_ok in H as (t & _ & [= <-]). Qed.

#[export] Instance child_le_trans {A} : Transitive (@child_le A).
Proof. intros x y z [H|[H L]] [H'|[H' L']]; unfold child_le; [left; lia..|right; split; [congruence|by etrans]]. Qed.
#[export] Instance child_le_total {A} : Total (@child_le A).
Proof.
  intros x y. unfold child_le. destruct (Z.lt_trichotomy x.1.1 y.1.1) as [H|[H|H]]; auto.
  destruct (total String.le x.1.2 y.1.2); auto.
Qed.

Lemma collect_head d events n parent agents :
  collect word d events n parent = Ok agents → ∃ a below, agents = a :: below ∧ agent_started_ms a = time (start_of events).
Proof.
  destruct d as [p log unlisted children]. cbn [collect]. intros (u & _ & H)%res_bind_ok.
  apply res_bind_ok in H as (a & Ha & H). apply res_bind_ok in H as (u' & _ & H).
  apply res_bind_ok in H as (rd & _ & H). apply res_bind_ok in H as (below & _ & [= <-]).
  apply agent_of_fields in Ha as (_ & Hs & _). eauto.
Qed.

Lemma sorted_heads {A} (sorted : list (Z * string * res A)) (l : list A) (f : A → Z) :
  Sorted child_le sorted → Forall2 (λ x b, x.2 = Ok b) sorted l → Forall2 (λ x b, x.1.1 = f b) sorted l →
  Sorted Z.le (map f l).
Proof.
  intros Hs. revert l. induction Hs as [|x s Hs IH Hx]; intros l H1 H2.
  { apply Forall2_nil_inv_l in H1 as ->. constructor. }
  apply Forall2_cons_inv_l in H1 as (b & l' & Hb & H1 & ->). apply Forall2_cons in H2 as [Hf H2]. cbn.
  constructor; [by apply IH|]. destruct Hx as [|y s Hxy]; [apply Forall2_nil_inv_l in H1 as ->; constructor|].
  apply Forall2_cons_inv_l in H1 as (b' & l'' & Hb' & H1 & ->). apply Forall2_cons in H2 as [Hf' _]. cbn. constructor.
  rewrite <-Hf, <-Hf'. destruct Hxy as [?|[? _]]; lia.
Qed.

(** What is read of the children before they are collected. *)
Definition collected (d : directory) : Prop :=
  ∀ events n parent agents, collect word d events n parent = Ok agents → nested parent n agents ∧ length agents = logs d.
Definition child_ok (id : string) (n : Z) (x : Z * string * res (list Agent)) : Prop :=
  ∀ b, x.2 = Ok b → nested (Some id) n b ∧ x.1.1 = default 0%Z (agent_started_ms <$> head b).
Lemma read_children id n children rd :
  Forall collected children →
  Forall2 (λ c y, (events ← read_episode c;
    Ok (time (start_of events), log_path c, collect word c events n (Some id))) = Ok y) children rd →
  Forall (child_ok id n) rd ∧
  ∀ bs, Forall2 (λ x b, x.2 = Ok b) rd bs → sum_list_with length bs = sum_list_with logs children.
Proof.
  intros IH Hrd. induction Hrd as [|c x children rd Hc Hrd IHr].
  { split; [constructor|]. intros bs Hbs. by apply Forall2_nil_inv_l in Hbs as ->. }
  apply Forall_cons in IH as [IHc IH]. destruct (IHr IH) as [IH1 IH2].
  apply res_bind_ok in Hc as (ev & _ & [= <-]). split.
  - constructor; [|done]. intros b Hcb. cbn [fst snd] in *. split; [by apply IHc in Hcb as [? _]|].
    by apply collect_head in Hcb as (a' & b' & -> & <-).
  - intros bs Hbs. apply Forall2_cons_inv_l in Hbs as (b & bs' & Hb & Hbs & ->). cbn [snd] in Hb. cbn.
    apply IHc in Hb as [_ ->]. by rewrite (IH2 bs' Hbs).
Qed.

Lemma collect_nested d events n parent agents :
  collect word d events n parent = Ok agents → nested parent n agents ∧ length agents = logs d.
Proof.
  revert events n parent agents. change (collected d). induction d as [p log unlisted children IH] using directory_ind'.
  intros events n parent agents. cbn [collect]. intros (u & Hpar & H)%res_bind_ok.
  apply res_bind_ok in H as (a & Ha & H). apply res_bind_ok in H as (u' & _ & H).
  apply res_bind_ok in H as (rd & Hrd & H). apply res_bind_ok in H as (below & Hb & [= <-]).
  apply agent_of_fields in Ha as (Hd & Hs & Hp).
  apply map_res_Forall2 in Hrd. apply map_res_Forall2 in Hb.
  set (sorted := merge_sort child_le rd) in *.
  assert (Hperm : sorted ≡ₚ rd) by apply merge_sort_Permutation.
  destruct (read_children _ _ _ _ IH Hrd) as [Hrd1 Hrd2].
  assert (Hsorted : Forall (child_ok (agent_id a) (n + 1)) sorted) by (by rewrite Hperm).
  split.
  - apply nest; [|done| |].
    + intros q ->. rewrite Hp. unfold check_parent in Hpar. apply raise_if_ok, negb_false_iff, is_string_spec in Hpar.
      by rewrite Hpar.
    + clear -Hb Hsorted. induction Hb as [|x b s below Hx Hb IHb]; [constructor|].
      apply Forall_cons in Hsorted as [Hh Hsorted]. constructor; [by apply Hh|by apply IHb].
    + apply (sorted_heads sorted); [apply Sorted_merge_sort, _|done|].
      clear -Hb Hsorted. induction Hb as [|x b s below Hx Hb IHb]; [constructor|].
      apply Forall_cons in Hsorted as [Hh Hsorted]. constructor; [by apply Hh|by apply IHb].
  - cbn [length logs]. f_equal. rewrite length_concat'.
    destruct (Permutation_Forall2 Hperm Hb) as (bs & Hbp & Hbs).
    rewrite <-(Hrd2 bs Hbs). by rewrite Hbp.
Qed.
(** The agents of a normalised run are those of its logs, one each, in
    the order of a walk from the root: every agent below names the agent whose
    directory holds it as its parent, is one deeper, and siblings follow each
    other by the time they started. *)
Theorem agents_nested d r t :
  normalize word d r = Ok t → nested None 0 (agents t) ∧ length (agents t) = logs d.
Proof.
  unfold normalize. intros (ev & _ & H)%res_bind_ok. apply res_bind_ok in H as (l & Hl & H).
  apply res_bind_ok in H as (o & _ & [= <-]). by apply collect_nested in Hl.
Qed.

(** ** Well-formed trajectories *)

Lemma edit_change_wf e call v c : edit_change e call v = Some c → wf c.
Proof.
  unfold edit_change. intros H. repeat case_match; simplify_eq; split; apply elem_str_spec; reflexivity.
Qed.

Lemma close_command_changes e call o v st : changes (close_command e call o v st) = changes st.
Proof. unfold close_command. destruct (assoc _ _); [done|]. by destruct (_ && _). Qed.
Lemma open_commands_changes e calls st : changes (fold_left (open_command word e) calls st) = changes st.
Proof.
  revert st. induction calls as [|c calls IH]; intros st; [done|]. cbn [fold_left]. rewrite IH.
  unfold open_command. by destruct (is_command c).
Qed.

Lemma changes_wf events : Forall wf (commands_and_changes word events).2.
Proof.
  unfold commands_and_changes. cbn [snd].
  set (st0 := {| opened := []; cmds := []; command_by_id := []; session_by_id := []; changes := [] |}).
  assert (H : Forall wf (changes st0)) by constructor. revert H. generalize st0. clear st0.
  induction events as [|e es IH]; intros st H; [done|]. cbn [fold_left]. apply IH. unfold commands_step.
  pose proof (open_commands_changes e (opened_calls e) st) as Ho.
  destruct (fold_left (open_command word e) (opened_calls e) st) as [op cm ci si ch]. cbn in Ho. subst ch.
  destruct (String.eqb (type e) "tool/result"); [|done]. destruct (default _ _) as [call o].
  unfold add_changes. cbn [changes]. rewrite close_command_changes. apply Forall_app. split; [done|].
  destruct (edit_change e call _) as [c|] eqn:E; [|constructor]. apply edit_change_wf in E. by apply list.Forall_singleton.
Qed.

Lemma collect_wf d events n parent l : collect word d events n parent = Ok l → Forall wf l.
Proof.
  revert events n parent l. induction d as [p log unlisted children IH] using directory_ind'.
  intros events n parent l. cbn [collect]. intros (u & _ & H)%res_bind_ok.
  apply res_bind_ok in H as (a & Ha & H). apply res_bind_ok in H as (u' & _ & H).
  apply res_bind_ok in H as (rd & Hrd & H). apply res_bind_ok in H as (below & Hb & [= <-]).
  constructor.
  - unfold agent_of in Ha. apply res_bind_ok in Ha as (c & _ & Ha). apply res_bind_ok in Ha as (tl & _ & [= <-]).
    apply changes_wf.
  - apply map_res_Forall2 in Hrd. apply map_res_Forall2 in Hb.
    assert (Hall : Forall (λ x, ∀ b, x.2 = Ok b → Forall wf b) rd).
    { clear Hb. induction Hrd as [|c x children rd Hc Hrd IHr]; [constructor|].
      apply Forall_cons in IH as [IHc IH]. apply res_bind_ok in Hc as (ev & _ & [= <-]).
      constructor; [|by apply IHr]. cbn. intros b Hcb. by apply IHc in Hcb. }
    assert (Hall' : Forall (λ x, ∀ b, x.2 = Ok b → Forall wf b) (merge_sort child_le rd))
      by (by rewrite merge_sort_Permutation).
    clear -Hb Hall'. induction Hb as [|x b s below Hx Hb IHb]; [constructor|].
    apply Forall_cons in Hall' as [Hh Hall']. cbn. apply Forall_app. split; [by apply Hh|by apply IHb].
Qed.

Lemma outcome_status e log o : outcome_of e log = Ok o → status o ∈ OUTCOME_STATUSES.
Proof.
  unfold outcome_of. destruct (negb _); [intros [= <-]; repeat constructor|].
  destruct (dget (data e) "outcome") as [| | | | | |d]; try done. intros (known & Hk & H)%res_bind_ok.
  destruct (dget d "kind") as [| | | |kind| |]; try done. apply res_bind_ok in H as (u & Hu%raise_if_ok & [= <-]). cbn.
  apply negb_false_iff in Hu. subst known. apply in_set_ok in Hk as (s & [= <-] & Hs).
  unfold OUTCOME_KINDS in Hs. rewrite !elem_of_cons in Hs.
  destruct Hs as [->|[->|[->|[->|[]%not_elem_of_nil]]]]; apply elem_str_spec; reflexivity.
Qed.

(** What normalising yields is a trajectory the schema reads back: its
    outcome status and file changes are of the enumerated kinds and its route is
    one of the two (the one given, or the one the provider derives), so it is
    well formed exactly when the code of its outcome is a string or absent and
    no two logs state one id, which normalising does not check. *)
Theorem normalized_well_formed d r t :
  (∀ q, r = Some q → q ∈ ROUTES) → normalize word d r = Ok t →
  (wf_trajectory t ↔ (∃ c, code (outcome t) = opt_str c) ∧ NoDup (map agent_id (agents t))).
Proof.
  intros Hr. unfold normalize. intros (ev & _ & H)%res_bind_ok. apply res_bind_ok in H as (l & Hl & H).
  apply res_bind_ok in H as (o & Ho & [= <-]). unfold wf_trajectory. cbn [harness route outcome agents].
  apply collect_wf in Hl. apply outcome_status in Ho. split; [by intros (_ & _ & [_ ?] & _ & ?)|].
  intros [Hc Hn]. split; [repeat constructor|]. split; [|by split_and!]. destruct r as [q|]; [by apply Hr|].
  unfold route_for. destruct (dget _ "model_provider"); try (apply elem_str_spec; reflexivity).
  destruct (elem_str s _); apply elem_str_spec; reflexivity.
Qed.
End tree.

(** ** The lines of a log *)

(** The event a line states. *)
Definition states (line : string) (e : event) : Prop :=
  ∃ o, loads_str line = inl (VDict o) ∧ dget o "seq" = VInt (seq e) ∧ dget o "time" = VInt (time e) ∧
       dget o "type" = VStr (type e) ∧ dget o "data" = VDict (data e).
Definition nonblank (lines : list string) : list string :=
  List.filter (λ l, negb (String.eqb (str_strip l) "")) lines.
(** A line an append left unfinished. *)
Definition cut_short (text line : string) : Prop :=
  ends_with nl text = false ∧ (∃ before, str_splitlines text = before ++ [line]) ∧ ∃ e, loads_str line = inr e.

Lemma checked_event_states log n first v e line :
  loads_str line = inl v → checked_event log n first v = Ok e → states line e.
Proof.
  intros Hl. unfold checked_event. destruct v as [| | | | | |o]; try done.
  destruct (dget o "data") as [| | | | | |d] eqn:Hd; try done. intros (u & _ & H)%res_bind_ok.
  apply res_bind_ok in H as (s & Hs & H). apply res_bind_ok in H as (t & Ht & H).
  destruct (dget o "type") as [| | | |ty| |] eqn:Hty; try done. injection H as <-. exists o.
  unfold integer_key in Hs, Ht. by repeat case_match; simplify_eq.
Qed.

Lemma checked_event_version log n v e :
  checked_event log n true v = Ok e →
  ∃ o, v = VDict o ∧ (assoc o "version" = None ∨ assoc o "version" = Some (VInt LOG_VERSION)).
Proof.
  unfold checked_event. destruct v as [| | | | | |o]; try done. destruct (dget o "data"); try done.
  intros (u & Hv & _)%res_bind_ok. exists o. split; [done|]. unfold check_version in Hv.
  destruct (assoc o "version") as [[| |z| | | |]|]; try done; [|by left].
  apply raise_if_ok, negb_false_iff, Z.eqb_eq in Hv as ->. by right.
Qed.

Lemma read_lines_states log text complete n events lines before es :
  complete = ends_with nl text → str_splitlines text = before ++ lines →
  read_lines log complete n events lines = Ok es →
  ∃ new, es = events ++ new ∧
    (Forall2 states (nonblank lines) new ∨
     ∃ kept line, nonblank lines = kept ++ [line] ∧ cut_short text line ∧ Forall2 states kept new).
Proof.
  intros -> . revert n events before. induction lines as [|l lines IH]; intros n events before Ht H.
  { injection H as <-. exists []. rewrite app_nil_r. split; [done|]. left. constructor. }
  cbn [read_lines nonblank List.filter] in *. fold (nonblank lines).
  assert (Ht' : str_splitlines text = (before ++ [l]) ++ lines) by (by rewrite <-app_assoc).
  destruct (String.eqb (str_strip l) ""); cbn [negb]; [by eapply IH|].
  destruct (loads_str l) as [v|x] eqn:Hl.
  - apply res_bind_ok in H as (e & He & H). destruct (IH _ _ _ Ht' H) as (new & -> & Hn).
    exists (e :: new). rewrite <-app_assoc. split; [done|]. pose proof (checked_event_states _ _ _ _ _ _ Hl He).
    destruct Hn as [Hn|(kept & c & -> & Hc & Hn)]; [left; by constructor|].
    right. exists (l :: kept), c. split_and!; [done..|by constructor].
  - destruct lines; [|done]. destruct (ends_with nl text) eqn:Hc; [done|]. injection H as <-.
    exists []. rewrite app_nil_r. split; [done|]. right. exists [], l. cbn. split_and!; [done| |constructor].
    split_and!; eauto.
Qed.

Lemma read_lines_keeps log complete n events lines es :
  read_lines log complete n events lines = Ok es → ∃ new, es = events ++ new.
Proof.
  revert n events. induction lines as [|l lines IH]; intros n events; cbn [read_lines].
  { intros [= <-]. exists []. by rewrite app_nil_r. }
  destruct (String.eqb _ _); [apply IH|]. destruct (loads_str l).
  - intros (e & _ & H)%res_bind_ok. apply IH in H as [new ->]. exists (e :: new). by rewrite <-app_assoc.
  - destruct lines, complete; try done. intros [= <-]. exists []. by rewrite app_nil_r.
Qed.

Lemma read_lines_first log complete n lines e es :
  read_lines log complete n [] lines = Ok (e :: es) →
  ∃ line rest v m, nonblank lines = line :: rest ∧ loads_str line = inl v ∧ checked_event log m true v = Ok e.
Proof.
  revert n. induction lines as [|l lines IH]; intros n; [done|]. cbn [read_lines nonblank List.filter].
  fold (nonblank lines). destruct (String.eqb (str_strip l) ""); cbn [negb]; [apply IH|].
  destruct (loads_str l) as [v|x] eqn:Hl; [|by destruct lines, complete].
  intros (e' & He & H)%res_bind_ok. apply read_lines_keeps in H as [new [= -> ->]]. eauto 10.
Qed.

(** A log that reads is UTF-8 whose nonblank lines each state one event,
    in order, with an integer sequence number and time, a string type and object
    data; only a last line without a line end that is not JSON is dropped; the
    first event is an episode/start and its line states no format version but 3. *)
Theorem log_lines_exact log bytes es :
  read_events log (Ok bytes) = Ok es →
  utf8_fault false bytes = None ∧
  ∃ kept cut, nonblank (str_splitlines (universal_newlines bytes)) = kept ++ cut ∧
    Forall2 states kept es ∧
    (cut = [] ∨ ∃ line, cut = [line] ∧ cut_short (universal_newlines bytes) line) ∧
    ∃ start rest line, es = start :: rest ∧ head kept = Some line ∧ type start = "episode/start" ∧
      ∃ o, loads_str line = inl (VDict o) ∧ dget_or o "version" (VInt LOG_VERSION) = VInt LOG_VERSION.
Proof.
  unfold read_events. destruct (utf8_fault false bytes); [done|]. intros (events & H & He)%res_bind_ok. split; [done|].
  set (text := universal_newlines bytes) in *.
  destruct events as [|e events]; [done|]. apply res_bind_ok in He as (u & Hs%raise_if_ok & [= <-]).
  apply negb_false_iff, String.eqb_eq in Hs. destruct (read_lines_first _ _ _ _ _ _ H) as (l & r & v & m & Hl & Hv & Hc).
  apply checked_event_version in Hc as (o & -> & Ho).
  assert (Hver : dget_or o "version" (VInt LOG_VERSION) = VInt LOG_VERSION) by (unfold dget_or; by destruct Ho as [->| ->]).
  destruct (read_lines_states _ text _ _ _ _ [] _ eq_refl eq_refl H) as (new & Hnew & Hn). cbn in Hnew. subst new.
  destruct Hn as [Hn|(kept & c & Hk & Hcut & Hn)].
  - exists (nonblank (str_splitlines text)), []. rewrite app_nil_r. split_and!; [done|done|by left|].
    exists e, events, l. rewrite Hl. eauto 10.
  - exists kept, [c]. split_and!; [done|done|by eauto|]. exists e, events, l. split_and!; eauto.
    destruct kept; [by inversion Hn|]. rewrite Hk in Hl. by injection Hl as -> _.
Qed.

(** ** An example *)

(** A line of a log, as the runtime writes it. *)
Definition log_line (n t : Z) (ty : string) (d : dict) : string :=
  dumps_compact (VDict [("seq", VInt n); ("time", VInt t); ("type", VStr ty); ("data", VDict d)]) +:+ nl.
Definition ended (kind : string) : dict := [("outcome", VDict [("kind", VStr kind); ("value", VInt 3)])].
Definition root_log : string :=
  log_line 0 10 "episode/start" [("id", VStr "r")] +:+
  log_line 1 11 "model/request" [("request_id", VStr "q1")] +:+
  log_line 2 14 "assistant/message" [("request_id", VStr "q1"); ("usage", VDict [("input", VInt 7)]);
    ("tool_calls", VList [VDict [("id", VStr "c1"); ("name", VStr "edit");
       ("args", VDict [("path", VStr "a.py"); ("edits", VList [VDict [("old_text", VStr "")]])])]])] +:+
  log_line 3 16 "tool/result" [("call_id", VStr "c1"); ("name", VStr "edit"); ("value", VDict [])] +:+
  log_line 4 20 "episode/end" (ended "completed").
Definition child_log (id : string) (t : Z) : string :=
  log_line 0 t "episode/start" [("id", VStr id); ("parent_id", VStr "r"); ("contract", VDict [("name", VStr "sub")])] +:+
  "{'seq".
Definition example_dir : directory :=
  Directory "/e" (Some (Ok root_log)) None
    [Directory "/e/children/b" (Some (Ok (child_log "b" 15))) None [];
     Directory "/e/children/c" (Some (Ok (child_log "c" 12))) None []].
Definition no_word (_ : string) : bool := false.

Example example_normalised :
  (λ t, (map (λ a, (agent_id a, parent_id a, depth a, agent_ended_ms a)) (agents t), status (outcome t), route t,
         flat_map file_changes (agents t), map (λ c, (call_ended_ms c, input_tokens c)) (flat_map model_calls (agents t))))
    <$> match normalize no_word example_dir None with Ok t => Some t | Err _ => None end
  = Some ([("r", None, 0%Z, Some 20%Z); ("c", Some "r", 1%Z, None); ("b", Some "r", 1%Z, None)],
          "completed", "compatible",
          [{| change_path := "a.py"; change_kind := "create"; at_ms := 16; via := "tool" |}], [(Some 14%Z, Some 7%Z)]).
Proof. vm_compute. reflexivity. Qed.

Definition example_trajectory : Trajectory :=
  match normalize no_word example_dir None with
  | Ok t => t
  | Err _ => {| harness := ""; identity := []; agents := []; outcome := {| status := ""; code := VNone; outcome_value := VNone; outcome_ended_ms := None |}; route := "" |}
  end.

Lemma agents_nested_witness : nested None 0 (agents example_trajectory) ∧ length (agents example_trajectory) = 3.
Proof. apply (agents_nested no_word example_dir None). vm_compute. reflexivity. Defined.

Lemma normalized_well_formed_witness : wf_trajectory example_trajectory.
Proof.
  apply (normalized_well_formed no_word example_dir None); [discriminate|vm_compute; reflexivity|].
  split; [exists None; vm_compute; reflexivity|]. apply (bool_decide_unpack _). vm_compute. exact I.
Defined.

Lemma log_lines_exact_witness :
  ∃ es, length es = 1 ∧ read_events "l" (Ok (child_log "b" 15)) = Ok es ∧
    ∃ kept line, nonblank (str_splitlines (universal_newlines (child_log "b" 15))) = kept ++ [line] ∧ Forall2 states kept es.
Proof.
  eexists. split; [|split; [vm_compute; reflexivity|]]; [reflexivity|].
  destruct (log_lines_exact "l" (child_log "b" 15) _ ltac:(vm_compute; reflexivity))
    as (_ & kept & cut & Hn & Hs & [->|(line & -> & _)] & _).
  - exfalso. apply Forall2_length in Hs. apply (f_equal length) in Hn. rewrite app_nil_r in Hn.
    revert Hs. rewrite <-Hn. vm_compute. discriminate.
  - by exists kept, line.
Defined.

(** A line end of Unicode inside a string, which JSON allows and the runtime
    writes as it is, splits the line: the event is JSON and the log does not read. *)
Definition separator : string := utf8_encode 8232.
Definition separated_line : string :=
  let q := String dquote "" in
  str_take (String.length (log_line 0 10 "episode/start" []) - 3) (log_line 0 10 "episode/start" []) +:+
  q +:+ "id" +:+ q +:+ ":" +:+ q +:+ "a" +:+ separator +:+ "b" +:+ q +:+ "}}" +:+ nl.
Example separator_splits_line :
  (∃ o, loads_str separated_line = inl (VDict o) ∧ dget (dict_or_empty (dget o "data")) "id" = VStr ("a" +:+ separator +:+ "b")) ∧
  read_events "l" (Ok separated_line) = Err (ValueError "l:1: the line is not JSON: Unterminated string starting at").
Proof. split; [eexists; split|]; vm_compute; reflexivity. Qed.

(** A last line cut inside a character of several bytes, which is not dropped. *)
Example cut_character_refused :
  read_events "l" (Ok (log_line 0 10 "episode/start" [] +:+ "{" +:+ str_take 2 separator)) =
  Err (ValueError "'utf-8' codec can't decode bytes in position 54-55: unexpected end of data").
Proof. vm_compute. reflexivity. Qed.
