(* ===== verification/NormalizeCodex.v ===== *)
(** * Normalising a Codex run

    src/evals/cross_harness/normalize_codex.py: the session files of a run's
    threads and its event stream, reduced to a trajectory.  The files below the
    sessions directory are a list in path order; the file of a path is what
    every reading of it gives. *)

From Stdlib Require Import Ascii.
From stdpp Require Import base list sets strings pretty sorting.
From Stdlib Require Import ZArith Lia.
From S2P Require Import Prelude PyValue PyText PyJson PyUnicode PyPath JsonText Shlex Trajectory.

Definition DENIAL_TEXTS : list string := ["Permission denied"; "Operation not permitted"; "Read-only file system"].
Definition CODEX_CHANGE_KINDS : list (string * string) := [("add", "create"); ("update", "edit"); ("delete", "delete")].
Definition TOOL_CALL_ITEMS : list (string * string) :=
  [("CommandExecution", "command_execution"); ("McpToolCall", "mcp_tool_call"); ("CollabToolCall", "collab_tool_call")].

(** ** Session files *)

Record SessionHead : Type := {
  h_path : string; thread_id : string; h_parent : option string; h_depth : Z; agent_path : option string; meta : dict;
}.
Record Session : Type := { s_head : SessionHead; records : list dict; truncated : bool }.
Definition session_path (s : Session) : string := h_path (s_head s).

Definition line_at (path : string) (number : nat) (what : string) : exn := ValueError (path +:+ ":" +:+ nat_str number +:+ ": " +:+ what).
(** One decoded line. *)
Definition checked_record (path : string) (number : nat) (v : value) : res dict :=
  match v with
  | VDict r =>
      match dget r "payload" with
      | VNone | VDict _ => Ok r
      | p => Err (line_at path number ("payload " +:+ py_repr p +:+ " is not an object"))
      end
  | _ => Err (line_at path number "the record is not an object")
  end.
(** [_parse_records]: the lines left, and whether a cut line is a fault. *)
Fixpoint parse_lines (path : string) (unterminated first_only : bool) (number : nat) (lines : list string) : res (list dict * bool) :=
  match lines with
  | [] => Ok ([], false)
  | line :: rest =>
      if String.eqb (str_strip line) "" then parse_lines path unterminated first_only (S number) rest
      else
        match loads_str line with
        | inr e =>
            if unterminated && match rest with [] => true | _ => false end then Ok ([], true)
            else Err (line_at path number ("the line is not JSON: " +:+ load_error_str e))
        | inl v =>
            r ← checked_record path number v;
            if first_only then Ok ([r], false)
            else more ← parse_lines path unterminated first_only (S number) rest; Ok (r :: more.1, more.2)
        end
  end.
Definition parse_records (path text : string) (first_only : bool) : res (list dict * bool) :=
  parse_lines path (negb (String.eqb text "") && negb (ends_with nl text)) first_only 1 (str_splitlines text).

(** [record.get("payload") or {}], of a record whose payload was checked. *)
Definition payload (r : dict) : dict := dict_or_empty (dget r "payload").
(** [v or {}], whose [.get] raises on anything but an object. *)
Definition or_object (v : value) : res dict := as_mapping (py_or v (VDict [])).
Definition spawn_of (m : dict) : res (option dict) :=
  match dget m "source" with
  | VDict source => sub ← or_object (dget source "subagent"); Ok (as_dict (dget sub "thread_spawn"))
  | _ => Ok None
  end.
Definition SPAWN : string := "session_meta.payload.source.subagent.thread_spawn.".
(** [_head_of]. *)
Definition head_of (path : string) (r : dict) : res SessionHead :=
  if negb (is_string "session_meta" (dget r "type")) then Err (ValueError (path +:+ ": the first record is not a session_meta")) else
  let m := payload r in
  match dget m "id" with
  | VStr id =>
      raise_if (String.eqb id "") (ValueError (path +:+ ": session_meta.payload.id is missing"));;
      spawn ← spawn_of m;
      match spawn with
      | None => Ok {| h_path := path; thread_id := id; h_parent := None; h_depth := 0; agent_path := None; meta := m |}
      | Some s =>
          parent ← (match dget s "parent_thread_id" with
                    | VStr p => if String.eqb p "" then Err (ValueError (path +:+ ": " +:+ SPAWN +:+ "parent_thread_id is missing")) else Ok p
                    | _ => Err (ValueError (path +:+ ": " +:+ SPAWN +:+ "parent_thread_id is missing"))
                    end);
          match dget_or s "depth" (VInt 1) with
          | VInt d => Ok {| h_path := path; thread_id := id; h_parent := Some parent; h_depth := d;
                            agent_path := as_str (dget s "agent_path"); meta := m |}
          | d => Err (ValueError (path +:+ ": " +:+ SPAWN +:+ "depth " +:+ py_repr d +:+ " is not an integer"))
          end
      end
  | _ => Err (ValueError (path +:+ ": session_meta.payload.id is missing"))
  end.
Definition read_session (path : string) (file : res string) : res Session :=
  text ← read_text file;
  parsed ← parse_records path text false;
  match parsed.1 with
  | [] => Err (ValueError (path +:+ ": the first record is not a session_meta"))
  | r :: _ => h ← head_of path r; Ok {| s_head := h; records := parsed.1; truncated := parsed.2 |}
  end.
Definition session_head (path : string) (file : res string) : res (option SessionHead) :=
  text ← read_text file;
  parsed ← parse_records path text true;
  match parsed.1 with [] => Ok None | r :: _ => h ← head_of path r; Ok (Some h) end.
(** The files below [sessions], or nothing where that is no directory. *)
Definition sessions_under (codex_home : string) (files : option (list (string * res string))) : res (list SessionHead) :=
  match files with
  | None => Err (OSError (codex_home +:+ "/sessions: no sessions directory; the run wrote no session file"))
  | Some files => heads ← map_res (λ pf, session_head pf.1 pf.2) files; Ok (omap id (heads : list (option SessionHead)))
  end.

Section codex.
(** [fromisoformat] with the zone it defaults to, rounded to milliseconds. *)
Context (iso_ms : string → option Z) (word : string → bool).

Definition timestamp_ms (v : value) (where_ : string) : res Z :=
  match v with
  | VStr s => match iso_ms s with Some t => Ok t | None => Err (ValueError (where_ +:+ ": " +:+ str_repr s +:+ " is not an ISO 8601 timestamp")) end
  | v => Err (ValueError (where_ +:+ ": " +:+ py_repr v +:+ " is not a timestamp string"))
  end.
Definition record_ms (s : Session) (number : nat) (r : option dict) : res Z :=
  timestamp_ms (dget (default [] r) "timestamp") (session_path s +:+ ":" +:+ nat_str number +:+ " timestamp").
Definition started_ms (s : Session) : res Z := record_ms s 1 (head (records s)).
Definition ended_ms (s : Session) : res Z := record_ms s (length (records s)) (last (records s)).
Definition ordinal_ms (s : Session) (r : dict) : res Z :=
  timestamp_ms (dget r "timestamp") (session_path s +:+ " ordinal " +:+ py_str (dget r "ordinal") +:+ " timestamp").

(** ** The threads of a run *)

Definition file_at (files : list (string * res string)) (path : string) : res string :=
  match assoc files path with Some f => f | None => Err (OSError (path +:+ ": no such file")) end.
Definition session_of (files : list (string * res string)) (h : SessionHead) : res Session :=
  read_session (h_path h) (file_at files (h_path h)).
(** Each head under its thread, unless a thread has two. *)
Definition add_head (by_id : list (string * SessionHead)) (h : SessionHead) : res (list (string * SessionHead)) :=
  match assoc by_id (thread_id h) with
  | Some other => Err (ValueError (h_path h +:+ ": the thread " +:+ str_repr (thread_id h) +:+ " is also recorded by " +:+ h_path other))
  | None => Ok (dset by_id (thread_id h) h)
  end.
Definition is_child_of (id : string) (h : SessionHead) : bool := match h_parent h with Some p => String.eqb p id | None => false end.
Definition starts_before (x y : Z * Session) : Prop := (x.1 <= y.1)%Z.
#[local] Instance starts_before_dec x y : Decision (starts_before x y).
Proof. unfold starts_before. apply _. Defined.
Definition descendants (files : list (string * res string)) (heads : list SessionHead) (id : string) : res (list Session) :=
  found ← map_res (session_of files) (List.filter (is_child_of id) heads);
  timed ← map_res (λ s, t ← started_ms s; Ok (t, s)) found;
  Ok (map snd (merge_sort starts_before timed)).
Fixpoint walk (files : list (string * res string)) (heads : list SessionHead) (fuel : nat) (seen : list string) (queue : list SessionHead)
    : res (list Session) :=
  match fuel with
  | O => Err OutOfFuel
  | S fuel =>
      match queue with
      | [] => Ok []
      | h :: queue =>
          raise_if (elem_str (thread_id h) seen)
            (ValueError (h_path h +:+ ": the thread " +:+ str_repr (thread_id h) +:+ " is linked as its own descendant through parent_thread_id"));;
          s ← session_of files h;
          below ← descendants files heads (thread_id h);
          rest ← walk files heads fuel (seen ++ [thread_id h]) (queue ++ map s_head below);
          Ok (s :: rest)
      end
  end.
Definition run_sessions (files : list (string * res string)) (heads : list SessionHead) (root codex_home : string) : res (list Session) :=
  by_id ← foldM add_head [] heads;
  match assoc by_id root with
  | None => Err (ValueError (codex_home +:+ "/sessions: no session file records the thread " +:+ str_repr root))
  | Some h => walk files heads (2 + length heads) [] [h]
  end.

(** ** The facts of one session *)

Definition event_kind (r : dict) : bool := is_string "event_msg" (dget r "type").
Definition is_token_count (r : dict) : bool := event_kind r && is_string "token_count" (dget (payload r) "type").
Definition is_usage_record (r : dict) : bool := is_string "token_usage_record" (dget r "type").
(** [_usage] and [_total_tokens]: counts that are integers and no booleans. *)
Definition usage_count (usage : value) (key : string) : option Z := plain_int (dget (dict_or_empty usage) key).
Definition total_tokens (usage : value) : option Z := usage_count usage "total_tokens".
Definition usage_record (r : dict) : res (dict * value) := Ok (r, dget (payload r) "usage").
Definition last_usage (r : dict) : res value := info ← or_object (dget (payload r) "info"); Ok (dget info "last_token_usage").
Definition count_record (r : dict) : res (dict * value) := u ← last_usage r; Ok (r, u).
Definition usage_records (s : Session) : res (list (dict * value)) :=
  match List.filter is_usage_record (records s) with
  | [] => map_res count_record (List.filter is_token_count (records s))
  | l => map_res usage_record l
  end.
(** One call: it starts where the one before it ended. *)
Definition model_call (s : Session) (started : Z) (ru : dict * value) : res ModelCall :=
  ended ← ordinal_ms s ru.1;
  Ok {| call_seq := as_int (dget ru.1 "ordinal"); call_started_ms := started; call_ended_ms := Some ended;
        input_tokens := usage_count ru.2 "input_tokens"; output_tokens := usage_count ru.2 "output_tokens";
        cache_read_tokens := usage_count ru.2 "cached_input_tokens"; reasoning_tokens := usage_count ru.2 "reasoning_output_tokens" |}.
Fixpoint calls_from (s : Session) (started : Z) (l : list (dict * value)) : res (list ModelCall) :=
  match l with
  | [] => Ok []
  | ru :: l =>
      c ← model_call s started ru;
      rest ← calls_from s (default started (call_ended_ms c)) l;
      Ok (c :: rest)
  end.
Definition session_calls (s : Session) : res (list ModelCall) :=
  l ← usage_records s; started ← started_ms s; calls_from s started l.

(** [_completed_items]: the payload and the item of each completed one. *)
Definition completed_item (item_types : list string) (r : dict) : res (option (dict * dict)) :=
  if negb (event_kind r && is_string "item_completed" (dget (payload r) "type")) then Ok None
  else item ← or_object (dget (payload r) "item");
       Ok (if existsb (λ t, is_string t (dget item "type")) item_types then Some (payload r, item) else None).
Definition completed_items (s : Session) (item_types : list string) : res (list (dict * dict)) :=
  l ← map_res (completed_item item_types) (records s); Ok (omap id (l : list (option (dict * dict)))).
Definition item_at (s : Session) (item : dict) : string := session_path s +:+ " item " +:+ py_str (dget item "id").
(** [_interval]. *)
Definition interval (p : dict) (where_ : string) : res (Z * option Z) :=
  match dget p "started_at_ms" with
  | VInt z => Ok (z, plain_int (dget p "completed_at_ms"))
  | v => Err (ValueError (where_ +:+ ": started_at_ms " +:+ py_repr v +:+ " is not an integer"))
  end.

(** [json.dumps(v)]. *)
Fixpoint dumps_ascii (v : value) : string :=
  match v with
  | VNone => "null"
  | VBool b => if b then "true" else "false"
  | VInt z => Z_str z
  | VFloat f => json_float f
  | VStr s => ascii_string s
  | VList l => "[" +:+ join ", " (map dumps_ascii l) +:+ "]"
  | VDict d => "{" +:+ join ", " (map (λ kv, ascii_string kv.1 +:+ ": " +:+ dumps_ascii kv.2) d) +:+ "}"
  end.
Definition strings_of (v : value) : option (list string) :=
  match v with VList l => if forallb is_str l then Some (omap as_str l) else None | _ => None end.
Definition command_text (command : value) : string :=
  match command with
  | VStr s => s
  | _ => match strings_of command with
         | None => dumps_ascii command
         | Some [_; flag; script] => if elem_str flag ["-lc"; "-c"] then script else shell_join (default [] (strings_of command))
         | Some l => shell_join l
         end
  end.
Definition refused (output : string) : bool := existsb (λ t, occurs t output) DENIAL_TEXTS.
Definition item_exit_code (item : dict) : option Z := plain_int (dget item "exit_code").
Definition item_output (item : dict) : string :=
  match dget item "aggregated_output" with
  | VStr s => s
  | _ => py_str (py_or (dget item "stdout") (VStr "")) +:+ py_str (py_or (dget item "stderr") (VStr ""))
  end.
Definition command_of (s : Session) (pi : dict * dict) : res Command :=
  span ← interval pi.1 (item_at s pi.2);
  let code := item_exit_code pi.2 in
  Ok (Command_from_text word span.1 span.2 (command_text (dget pi.2 "command")) code
        (negb (match code with Some z => (z =? 0)%Z | None => false end) && refused (item_output pi.2))).
Definition session_commands (s : Session) : res (list Command) :=
  items ← completed_items s ["CommandExecution"]; map_res (command_of s) items.

Definition change_kind_of (change : value) : res string :=
  let kind := dget (dict_or_empty change) "type" in
  if hashable kind then Ok (match kind with VStr k => default "unknown" (assoc CODEX_CHANGE_KINDS k) | _ => "unknown" end)
  else Err (unhashable kind).
Definition changes_of (s : Session) (pi : dict * dict) : res (list FileChange) :=
  if negb (is_string "completed" (dget pi.2 "status")) then Ok [] else
  span ← interval pi.1 (item_at s pi.2);
  match dget pi.2 "changes" with
  | VDict changes =>
      map_res (λ kv, kind ← change_kind_of kv.2;
                     Ok {| change_path := kv.1; change_kind := kind; at_ms := default span.1 span.2; via := "tool" |}) changes
  | v => Err (ValueError (item_at s pi.2 +:+ ": changes " +:+ py_repr v +:+ " is not an object keyed by path"))
  end.
Definition session_changes (s : Session) : res (list FileChange) :=
  items ← completed_items s ["FileChange"]; l ← map_res (changes_of s) items; Ok (concat l).

(** [_call_name] and [_call_arguments]. *)
Definition item_type (item : dict) : string := default "" (as_str (dget item "type")).
Definition is_execution (item : dict) : bool := String.eqb (item_type item) "CommandExecution".
Definition call_name (item : dict) : string :=
  let default_name := default "" (assoc TOOL_CALL_ITEMS (item_type item)) in
  if is_execution item then default_name else
  match (match dget item "tool" with VStr t => VStr t | _ => dget item "name" end) with
  | VStr tool =>
      if String.eqb tool "" then default_name else
      match dget item "server" with VStr server => if String.eqb server "" then tool else server +:+ "/" +:+ tool | _ => tool end
  | _ => default_name
  end.
Definition call_arguments (item : dict) : value :=
  if is_execution item then VDict [("command", dget item "command"); ("cwd", dget item "cwd")] else dget item "arguments".
Definition tool_call_of (s : Session) (pi : dict * dict) : res ToolCall :=
  span ← interval pi.1 (item_at s pi.2);
  let status := dget pi.2 "status" in
  let failed := is_string "failed" status in
  let code := item_exit_code pi.2 in
  digest ← (match call_arguments pi.2 with VNone => Ok None | v => d ← arguments_digest v; Ok (Some d) end);
  Ok {| tool_name := call_name pi.2; tool_started_ms := span.1; tool_ended_ms := span.2;
        is_error := if is_execution pi.2 then failed && match code with None => true | Some _ => false end else failed;
        tool_digest := digest;
        summary := if is_execution pi.2 then Some ("exit " +:+ match code with Some z => Z_str z | None => "none" end)
                   else match status with VStr t => Some ("status " +:+ t) | _ => None end |}.
Definition session_tool_calls (s : Session) : res (list ToolCall) :=
  items ← completed_items s (keys TOOL_CALL_ITEMS); map_res (tool_call_of s) items.

(** The total of the last response, and the compactions so far. *)
Definition compaction_record (s : Session) (st : option Z * list Compaction) (r : dict) : res (option Z * list Compaction) :=
  if is_usage_record r then Ok (total_tokens (dget (payload r) "usage"), st.2)
  else if is_token_count r then u ← last_usage r; Ok (total_tokens u, st.2)
  else if is_string "compacted" (dget r "type") then
    at_ ← ordinal_ms s r;
    latest ← or_object (dget (payload r) "latest_token_usage_record");
    Ok (st.1, st.2 ++ [{| compacted_ms := at_;
                          tokens_before := match total_tokens (dget latest "usage") with Some n => Some n | None => st.1 end |}])
  else Ok st.
Definition session_compactions (s : Session) : res (list Compaction) :=
  st ← foldM (compaction_record s) (None, []) (records s); Ok st.2.

(** [(agent_path or "/child").rstrip("/").rsplit("/", 1)[-1] or "child"]. *)
Fixpoint drop_slashes (s : string) : string := match s with String "/"%char s => drop_slashes s | s => s end.
Definition last_name (path : string) : string := default "" (last (split_on slash (str_rev (drop_slashes (str_rev path))))).
Definition session_role (h : SessionHead) : string :=
  match h_parent h with
  | None => "root"
  | Some _ =>
      let path := match agent_path h with Some p => if String.eqb p "" then "/child" else p | None => "/child" end in
      if String.eqb (last_name path) "" then "child" else last_name path
  end.
Definition agent_from_session (s : Session) : res Agent :=
  started ← started_ms s;
  ended ← ended_ms s;
  calls ← session_calls s;
  cmds ← session_commands s;
  changes ← session_changes s;
  comps ← session_compactions s;
  tools ← session_tool_calls s;
  Ok {| agent_id := thread_id (s_head s); parent_id := h_parent (s_head s); depth := h_depth (s_head s); role := session_role (s_head s);
        agent_started_ms := started; agent_ended_ms := Some ended; model_calls := calls; commands := cmds; file_changes := changes;
        compactions := comps; tool_calls := tools |}.

(** ** The event stream and the outcome *)

Record EventStream : Type := { root_thread : string; turns_completed : nat; failures : list string; problems : list string }.
Record stream_state : Type := { st_thread : option string; st_turns : nat; st_failures : list string; st_problems : list string }.
Definition text_or (v : value) (otherwise : string) : string := match v with VNone => otherwise | v => py_str v end.
Definition stream_event (path : string) (number : nat) (st : stream_state) (e : dict) : res stream_state :=
  let fail text := {| st_thread := st_thread st; st_turns := st_turns st; st_failures := st_failures st ++ [text]; st_problems := st_problems st |} in
  if is_string "thread.started" (dget e "type") then
    match dget e "thread_id" with
    | VStr id => Ok {| st_thread := Some id; st_turns := st_turns st; st_failures := st_failures st; st_problems := st_problems st |}
    | _ => Err (line_at path number "thread.started has no thread_id")
    end
  else if is_string "turn.completed" (dget e "type") then
    Ok {| st_thread := st_thread st; st_turns := S (st_turns st); st_failures := st_failures st; st_problems := st_problems st |}
  else if is_string "turn.failed" (dget e "type") then
    let message := match dget e "error" with VDict d => dget d "message" | v => v end in
    Ok (fail (text_or message "turn.failed without an error message"))
  else if is_string "error" (dget e "type") then
    Ok (fail (py_str (py_or (dget e "message") (VStr "error event without a message"))))
  else Ok st.
Definition stream_line (path : string) (st : stream_state) (nl_ : nat * string) : res stream_state :=
  let problem text := {| st_thread := st_thread st; st_turns := st_turns st; st_failures := st_failures st;
                         st_problems := st_problems st ++ [path +:+ ":" +:+ nat_str nl_.1 +:+ ": " +:+ text] |} in
  if String.eqb (str_strip nl_.2) "" then Ok st else
  match loads_str nl_.2 with
  | inr e => Ok (problem ("the line is not JSON: " +:+ load_error_str e))
  | inl (VDict e) => stream_event path nl_.1 st e
  | inl _ => Ok (problem "the line is not an event object")
  end.
Definition read_stream (path : string) (file : res string) : res EventStream :=
  text ← read_text file;
  st ← foldM (stream_line path) {| st_thread := None; st_turns := 0; st_failures := []; st_problems := [] |}
         (enumerate_from 1 (str_splitlines text));
  match st_thread st with
  | Some id => Ok {| root_thread := id; turns_completed := st_turns st; failures := st_failures st; problems := st_problems st |}
  | None => Err (ValueError (path +:+ ": no thread.started event names the root thread"))
  end.

(** The final message: nothing asked for, no file, or what reading it gives. *)
Inductive message_file : Type := NoMessage | Missing (path : string) | Message (path : string) (file : res string).
Fixpoint drop_newlines (s : string) : string :=
  match s with String c s' => if Ascii.eqb c newline then drop_newlines s' else s | EmptyString => "" end.
Definition completed_with (path text : string) (ended : option Z) : res Outcome :=
  let plain := {| status := "completed"; code := VNone; outcome_value := VStr (str_rev (drop_newlines (str_rev text))); outcome_ended_ms := ended |} in
  match loads_str text with
  | inl (VDict typed) =>
      match assoc typed "status" with
      | None => Ok plain
      | Some (VStr s) =>
          if elem_str s OUTCOME_STATUSES then
            match dget typed "code" with
            | VNone | VStr _ => Ok {| status := s; code := dget typed "code"; outcome_value := dget typed "evidence"; outcome_ended_ms := ended |}
            | c => Err (ValueError (path +:+ ": code " +:+ py_repr c +:+ " is not a string or null"))
            end
          else Err (ValueError (path +:+ ": status " +:+ str_repr s +:+ " is not one of " +:+ join ", " OUTCOME_STATUSES))
      | Some v => Err (ValueError (path +:+ ": status " +:+ py_repr v +:+ " is not one of " +:+ join ", " OUTCOME_STATUSES))
      end
  | _ => Ok plain
  end.
Definition run_outcome (output : message_file) (exit_status : option Z) (limit : option string) (failed : list string) (ended : option Z) : res Outcome :=
  let ends status code := Ok {| status := status; code := code; outcome_value := VNone; outcome_ended_ms := ended |} in
  match exit_status with
  | None => ends "exhausted" (opt_str limit)
  | Some z =>
      if (z <? 0)%Z then ends "killed" (VStr ("signal " +:+ Z_str (- z)))
      else match failed with
           | f :: _ => ends "failed" (VStr f)
           | [] =>
               if negb (z =? 0)%Z then ends "failed" (VStr ("exit status " +:+ Z_str z)) else
               match output with
               | NoMessage => ends "completed" VNone
               | Missing path => Err (OSError (path +:+ ": the run exited 0 but wrote no final message file"))
               | Message path file => text ← read_text file; completed_with path text ended
               end
           end
  end.

(** ** The trajectory *)

(** [path.relative_to(codex_home)], of a path below it. *)
Definition below_home (codex_home path : string) : value := VStr (str_drop (S (String.length codex_home)) path).
Definition run_identity (root : Session) (sessions : list Session) (codex_home : string) (events : EventStream) : res dict :=
  let context := match List.filter (λ r, is_string "turn_context" (dget r "type")) (records root) with r :: _ => payload r | [] => [] end in
  mode ← or_object (dget context "collaboration_mode");
  settings ← or_object (dget mode "settings");
  let m := meta (s_head root) in
  Ok [("cli_version", dget m "cli_version"); ("model", py_or (dget context "model") (dget settings "model"));
      ("model_provider", dget m "model_provider");
      ("reasoning_effort", py_or (dget settings "reasoning_effort") (dget context "effort"));
      ("sandbox_policy", match dget context "sandbox_policy" with VDict d => dget d "type" | v => v end);
      ("approval_policy", dget context "approval_policy"); ("cwd", dget m "cwd"); ("thread_id", VStr (thread_id (s_head root)));
      ("codex_home", VStr codex_home);
      ("session_files", VList (map (λ s, below_home codex_home (session_path s)) sessions));
      ("truncated_session_files", VList (map (λ s, below_home codex_home (session_path s)) (List.filter truncated sessions)));
      ("turns_completed", VInt (Z.of_nat (turns_completed events))); ("event_problems", VList (map VStr (problems events)))].
Definition normalize_codex (codex_home : string) (files : option (list (string * res string))) (events_path : string) (events_file : res string)
    (output : message_file) (exit_status : option Z) (rt : string) (limit : option string) : res Trajectory :=
  raise_if (negb (elem_str rt ROUTES)) (ValueError ("route " +:+ str_repr rt +:+ " is not one of " +:+ join ", " ROUTES));;
  events ← read_stream events_path events_file;
  heads ← sessions_under codex_home files;
  sessions ← run_sessions (default [] files) heads (root_thread events) codex_home;
  match sessions with
  | [] => Err (IndexError "list index out of range")
  | root :: _ =>
      agents ← map_res agent_from_session sessions;
      ended ← (match py_max (omap agent_ended_ms agents) with Some z => Ok z | None => Err (ValueError "max() arg is an empty sequence") end);
      identity ← run_identity root sessions codex_home events;
      outcome ← run_outcome output exit_status limit (failures events) (Some ended);
      Ok {| harness := "codex"; identity := identity; agents := agents; outcome := outcome; route := rt |}
  end.
End codex.

(** ** Which lines are records *)

(** Reading the first record only is reading the first of the records. *)
Lemma parse_first path u n lines rs t : parse_lines path u false n lines = Ok (rs, t) →
  ∃ t', parse_lines path u true n lines = Ok (take 1 rs, t').
Proof.
  revert n rs t. induction lines as [|line lines IH]; intros n rs t H; [injection H as <- <-; by eexists|]. cbn [parse_lines] in *.
  destruct (String.eqb (str_strip line) ""); [by eapply IH|]. destruct (loads_str line) as [v|e].
  - apply res_bind_ok in H as (r & Hr & H). rewrite Hr. cbn [mbind res_bind]. apply res_bind_ok in H as (more & _ & [= <- <-]). by eexists.
  - destruct (u && match lines with [] => true | _ => false end); [|done]. injection H as <- <-. by eexists.
Qed.
Lemma session_head_first path file s : read_session path file = Ok s → session_head path file = Ok (Some (s_head s)).
Proof.
  unfold read_session, session_head. intros H. apply res_bind_ok in H as (text & Ht & H). apply res_bind_ok in H as ([rs t] & Hp & H).
  rewrite Ht. cbn [mbind res_bind fst] in *. unfold parse_records in *. apply parse_first in Hp as [t' ->]. cbn [mbind res_bind fst].
  destruct rs as [|r rs]; [done|]. cbn [take]. apply res_bind_ok in H as (h & Hh & [= <-]). rewrite Hh. done.
Qed.
Lemma session_head_path path file h : session_head path file = Ok (Some h) → h_path h = path.
Proof.
  unfold session_head. intros H. apply res_bind_ok in H as (text & _ & H). apply res_bind_ok in H as ([rs t] & _ & H). cbn in H.
  destruct rs as [|r rs]; [done|]. apply res_bind_ok in H as (h' & Hh & [= ->]). unfold head_of in Hh.
  destruct (negb _); [done|]. destruct (dget (payload r) "id"); try done. apply res_bind_ok in Hh as (_ & _ & Hh).
  apply res_bind_ok in Hh as ([sp|] & _ & Hh); [|by injection Hh as <-]. apply res_bind_ok in Hh as (p & _ & Hh).
  destruct (dget_or sp "depth" (VInt 1)); try done. by injection Hh as <-.
Qed.

(** ** The threads of a run *)

(** A thread the root spawned, directly or through others. *)
Inductive descends (heads : list SessionHead) (root : string) : string → Prop :=
| descends_root : descends heads root root
| descends_child h p : descends heads root p → h ∈ heads → h_parent h = Some p → descends heads root (thread_id h).
Definition tid (s : Session) : string := thread_id (s_head s).

(** The root is linked below itself: its parent is itself or a thread it spawned. *)
Definition own_descendant (heads : list SessionHead) (root : string) : Prop :=
  ∃ h p, h ∈ heads ∧ thread_id h = root ∧ h_parent h = Some p ∧ descends heads root p.
(** The error that names a thread met twice. *)
Definition linked (h : SessionHead) : exn :=
  ValueError (h_path h +:+ ": the thread " +:+ str_repr (thread_id h) +:+ " is linked as its own descendant through parent_thread_id").
(** Every file reads to its end and says when its thread started. *)
Definition readable (iso_ms : string → option Z) (files : list (string * res string)) (heads : list SessionHead) : Prop :=
  ∀ h, h ∈ heads → ∃ s t, session_of files h = Ok s ∧ started_ms iso_ms s = Ok t.

(** *** Reading ends *)

Lemma bind_settles {A B} (m : res A) (f : A → res B) :
  m ≠ Err OutOfFuel → (∀ a, m = Ok a → f a ≠ Err OutOfFuel) → m ≫= f ≠ Err OutOfFuel.
Proof. destruct m as [a|e]; cbn; [intros _ H; by apply H|]. by intros H _ [= ->]. Qed.
Lemma map_res_settles {A B} (f : A → res B) l : (∀ x, x ∈ l → f x ≠ Err OutOfFuel) → map_res f l ≠ Err OutOfFuel.
Proof.
  induction l as [|x l IH]; intros H; [done|]. cbn. apply bind_settles; [apply H; by left|]. intros y _.
  apply bind_settles; [apply IH; intros z Hz; apply H; by right|done].
Qed.
Lemma parse_lines_settles path u first n l : parse_lines path u first n l ≠ Err OutOfFuel.
Proof.
  revert n. induction l as [|line l IH]; intros n; [done|]. cbn [parse_lines]. destruct (String.eqb _ _); [apply IH|].
  destruct (loads_str line) as [v|e]; [|by destruct (u && _)].
  apply bind_settles; [unfold checked_record; destruct v; try done; by destruct (dget _ _)|]. intros r _.
  destruct first; [done|]. by apply bind_settles; [apply IH|].
Qed.
Lemma head_of_settles path r : head_of path r ≠ Err OutOfFuel.
Proof.
  unfold head_of. destruct (negb _); [done|]. destruct (dget (payload r) "id") as [| | | |i| |]; try done.
  apply bind_settles; [by destruct (String.eqb i "")|]. intros _ _. apply bind_settles.
  - unfold spawn_of, or_object, as_mapping. destruct (dget _ "source"); try done. by destruct (py_or _ _).
  - intros [sp|] _; [|done]. apply bind_settles; [destruct (dget sp _); try done; by destruct (String.eqb _ _)|].
    intros p _. by destruct (dget_or sp _ _).
Qed.
Lemma read_session_settles path file text : read_text file = Ok text → read_session path file ≠ Err OutOfFuel.
Proof.
  intros Ht. unfold read_session. apply bind_settles; [by rewrite Ht|]. intros t _. apply bind_settles; [apply parse_lines_settles|].
  intros [[|r l] u] _; [done|].
  by apply bind_settles; [apply head_of_settles|].
Qed.
Lemma started_settles iso_ms s : started_ms iso_ms s ≠ Err OutOfFuel.
Proof. unfold started_ms, record_ms, timestamp_ms. destruct (dget _ _); try done. by destruct (iso_ms _). Qed.

Section threads.
Context (iso_ms : string → option Z) (files : list (string * res string)) (heads : list SessionHead).
(** Each head is that of its file, and threads are recorded once. *)
Hypothesis Hfiles : ∀ h s, h ∈ heads → session_of files h = Ok s → s_head s = h.
Hypothesis Hids : NoDup (map thread_id heads).

Lemma is_child_of_spec id h : is_child_of id h = true ↔ h_parent h = Some id.
Proof.
  unfold is_child_of. destruct (h_parent h) as [p|]; [|done]. rewrite String.eqb_eq. split; [by intros ->|by intros [= ->]].
Qed.
Lemma sessions_heads l found : (∀ h, h ∈ l → h ∈ heads) → map_res (session_of files) l = Ok found → map s_head found = l.
Proof.
  rewrite map_res_Forall2. intros Hl. induction 1 as [|h s l found Hs Hf IH]; [done|]. cbn. f_equal; [apply Hfiles; [apply Hl; by left|done]|].
  apply IH. intros x Hx. apply Hl. by right.
Qed.
Lemma descendants_heads id l : descendants iso_ms files heads id = Ok l → map s_head l ≡ₚ List.filter (is_child_of id) heads.
Proof.
  unfold descendants. intros H. apply res_bind_ok in H as (found & Hf & H). apply res_bind_ok in H as (timed & Ht & [= <-]).
  apply sessions_heads in Hf; [|by intros h [Hh _]%list_elem_of_In%List.filter_In; apply list_elem_of_In].
  rewrite <-Hf. rewrite merge_sort_Permutation. assert (map snd timed = found) as ->; [|done].
  apply map_res_Forall2 in Ht. clear Hf. induction Ht as [|s ts found timed Hs _ IH]; [done|].
  apply res_bind_ok in Hs as (t & _ & [= <-]). cbn. by rewrite IH.
Qed.

Lemma walk_spec fuel seen queue l : (∀ h, h ∈ queue → h ∈ heads) → walk iso_ms files heads fuel seen queue = Ok l →
  NoDup (map tid l) ∧ (∀ id, id ∈ map tid l → id ∉ seen) ∧ (∀ h, h ∈ queue → h ∈ map s_head l) ∧ (∀ s, s ∈ l → s_head s ∈ heads) ∧
  (∀ i s, l !! i = Some s → s_head s ∈ queue ∨ ∃ j t, j < i ∧ l !! j = Some t ∧ h_parent (s_head s) = Some (tid t)) ∧
  (∀ i s h, l !! i = Some s → h ∈ heads → h_parent h = Some (tid s) → ∃ j t, i < j ∧ l !! j = Some t ∧ s_head t = h).
Proof.
  revert seen queue l. induction fuel as [|fuel IH]; intros seen queue l Hq H; [done|]. cbn [walk] in H. destruct queue as [|h queue].
  { injection H as <-. cbn. split_and!; try done; [constructor|by intros id ?%elem_of_nil|by intros s ?%elem_of_nil]. }
  apply res_bind_ok in H as ([] & Hseen & H). apply raise_if_ok, elem_str_false in Hseen.
  apply res_bind_ok in H as (s & Hs & H). apply res_bind_ok in H as (below & Hb & H). apply res_bind_ok in H as (rest & Hr & [= <-]).
  pose proof (Hq h ltac:(by left)) as Hh. apply Hfiles in Hs; [|done]. apply descendants_heads in Hb.
  assert (Hsub : ∀ x, x ∈ queue ++ map s_head below → x ∈ heads).
  { intros x [Hx|Hx]%elem_of_app; [apply Hq; by right|]. rewrite Hb in Hx. apply list_elem_of_In, List.filter_In in Hx as [Hx _]. by apply list_elem_of_In. }
  destruct (IH _ _ _ Hsub Hr) as (R1 & R2 & R3 & R4 & R5 & R6). clear IH.
  assert (Ht : tid s = thread_id h) by (unfold tid; by rewrite Hs). split_and!.
  - cbn. apply NoDup_cons. split; [|done]. intros Hin%R2. rewrite Ht in Hin. destruct Hin. apply elem_of_app. right. by left.
  - cbn. intros id [->|Hin]%elem_of_cons; [by rewrite Ht|]. apply R2 in Hin. intros Hx. apply Hin, elem_of_app. by left.
  - intros x [->|Hx]%elem_of_cons; [rewrite <-Hs; by left|]. cbn. right. apply R3, elem_of_app. by left.
  - intros x [->|Hx]%elem_of_cons; [by rewrite Hs|by apply R4].
  - intros [|i] x Hx; cbn in Hx; [injection Hx as <-; left; rewrite Hs; by left|].
    destruct (R5 i x Hx) as [[Hin|Hin]%elem_of_app|(j & t & Hj & Hl & Hp)].
    + left. by right.
    + right. exists 0, s. split_and!; [lia|done|]. rewrite Hb in Hin. apply list_elem_of_In, List.filter_In in Hin as [_ Hin].
      apply is_child_of_spec in Hin. by rewrite Ht.
    + right. exists (S j), t. split_and!; [lia|done|done].
  - intros [|i] x y Hx Hy Hp; cbn in Hx.
    + injection Hx as <-. assert (Hin : y ∈ map s_head rest).
      { apply R3, elem_of_app. right. rewrite Hb. apply list_elem_of_In, List.filter_In. split; [by apply list_elem_of_In|].
        apply is_child_of_spec. by rewrite <-Ht. }
      apply list_elem_of_fmap in Hin as (t & -> & Hin). apply list_elem_of_lookup in Hin as [j Hj]. exists (S j), t. split_and!; [lia|done|done].
    + destruct (R6 i x y Hx Hy Hp) as (j & t & Hj & Hl & Hd). exists (S j), t. split_and!; [lia|done|done].
Qed.

(** As many rounds as there are heads, and more never matter. *)
Definition unseen (seen : list string) : nat := length (List.filter (λ h, negb (elem_str (thread_id h) seen)) heads).
Lemma elem_str_snoc x y seen : elem_str x (seen ++ [y]) = elem_str x seen || String.eqb x y.
Proof. unfold elem_str. rewrite existsb_app. cbn. by rewrite orb_false_r. Qed.
Lemma unseen_less seen h : h ∈ heads → thread_id h ∉ seen → unseen (seen ++ [thread_id h]) < unseen seen.
Proof.
  intros Hh Hs%elem_str_false. unfold unseen. clear Hids Hfiles. rewrite (List.filter_ext _ (λ y, negb (elem_str (thread_id y) seen || String.eqb (thread_id y) (thread_id h)))) by (intros y; by rewrite elem_str_snoc).
  induction heads as [|x l IH]; [by apply elem_of_nil in Hh|].
  assert (Hle : length (List.filter (λ y, negb (elem_str (thread_id y) seen || String.eqb (thread_id y) (thread_id h))) l)
                ≤ length (List.filter (λ y, negb (elem_str (thread_id y) seen)) l)).
  { clear. induction l as [|y l IH]; [done|]. cbn. destruct (elem_str (thread_id y) seen); cbn; [done|]. destruct (String.eqb _ _); cbn; lia. }
  cbn. apply elem_of_cons in Hh as [->|Hh].
  - rewrite Hs, String.eqb_refl. cbn. lia.
  - specialize (IH Hh). destruct (elem_str (thread_id x) seen); cbn; [done|]. destruct (String.eqb _ _); cbn; lia.
Qed.
Lemma walk_enough fuel seen queue more : (∀ h, h ∈ queue → h ∈ heads) → 2 + unseen seen ≤ fuel →
  walk iso_ms files heads (fuel + more) seen queue = walk iso_ms files heads fuel seen queue.
Proof.
  revert seen queue. induction fuel as [|fuel IH]; intros seen queue Hq Hf; [lia|]. cbn [walk Nat.add]. destruct queue as [|h queue]; [done|].
  destruct (elem_str (thread_id h) seen) eqn:Hs; [done|]. apply elem_str_false in Hs. cbn [raise_if mbind res_bind].
  pose proof (Hq h ltac:(by left)) as Hh. destruct (session_of files h) as [s|]; [|done]. cbn [mbind res_bind].
  destruct (descendants iso_ms files heads (thread_id h)) as [below|] eqn:Hb; [|done]. cbn [mbind res_bind]. apply descendants_heads in Hb.
  pose proof (unseen_less seen h Hh Hs). rewrite IH; [done| |lia].
  intros x [Hx|Hx]%elem_of_app; [apply Hq; by right|]. rewrite Hb in Hx. apply list_elem_of_In, List.filter_In in Hx as [Hx _]. by apply list_elem_of_In.
Qed.

Lemma in_queue queue l id : (∀ h, h ∈ queue → h ∈ heads) → descendants iso_ms files heads id = Ok l →
  ∀ h, h ∈ queue ++ map s_head l → h ∈ heads.
Proof.
  intros Hq Hl%descendants_heads x [Hx|Hx]%elem_of_app; [by apply Hq|]. rewrite Hl in Hx.
  apply list_elem_of_In, List.filter_In in Hx as [Hx _]. by apply list_elem_of_In.
Qed.
(** The walk ends, when it may take as many rounds as heads are left and two. *)
Lemma walk_settles fuel seen queue : (∀ h, h ∈ heads → session_of files h ≠ Err OutOfFuel) →
  (∀ h, h ∈ queue → h ∈ heads) → 2 + unseen seen ≤ fuel → walk iso_ms files heads fuel seen queue ≠ Err OutOfFuel.
Proof.
  intros Hread. revert seen queue. induction fuel as [|fuel IH]; intros seen queue Hq Hf; [lia|]. cbn [walk]. destruct queue as [|h queue]; [done|].
  destruct (elem_str (thread_id h) seen) eqn:Hs; [done|]. apply elem_str_false in Hs. cbn [raise_if mbind res_bind].
  pose proof (Hq h ltac:(by left)) as Hh. apply bind_settles; [by apply Hread|]. intros s _. apply bind_settles.
  - unfold descendants. apply bind_settles.
    { apply map_res_settles. intros x [Hx _]%list_elem_of_In%List.filter_In. by apply Hread, list_elem_of_In. }
    intros found _. apply bind_settles; [|done]. apply map_res_settles. intros x _. by apply bind_settles; [apply started_settles|].
  - intros below Hb. apply bind_settles; [|done]. pose proof (unseen_less seen h Hh Hs). apply IH; [|lia].
    eapply in_queue; [|exact Hb]. intros x Hx. apply Hq. by right.
Qed.

(** Of files that all read, a thread's sessions are found. *)
Lemma descendants_found id : readable iso_ms files heads → ∃ l, descendants iso_ms files heads id = Ok l.
Proof.
  intros Hr. unfold descendants.
  assert (∀ l, (∀ h, h ∈ l → h ∈ heads) → ∃ found timed, map_res (session_of files) l = Ok found ∧
    map_res (λ s, t ← started_ms iso_ms s; Ok (t, s)) found = Ok timed) as Hall.
  { induction l as [|h l IH]; intros Hl; [by exists [], []|]. destruct IH as (found & timed & Hf & Ht); [intros x Hx; apply Hl; by right|].
    destruct (Hr h (Hl h ltac:(by left))) as (s & t & Hs & Hst). exists (s :: found), ((t, s) :: timed). cbn. rewrite Hs. cbn. rewrite Hf. cbn. rewrite Hst. cbn. by rewrite Ht. }
  destruct (Hall (List.filter (is_child_of id) heads)) as (found & timed & Hf & Ht).
  { intros h [Hh _]%list_elem_of_In%List.filter_In. by apply list_elem_of_In. }
  rewrite Hf. cbn. rewrite Ht. by eexists.
Qed.
(** Such a walk gives the sessions, or names a thread met twice. *)
Lemma walk_or_linked fuel seen queue : readable iso_ms files heads → (∀ h, h ∈ queue → h ∈ heads) → 2 + unseen seen ≤ fuel →
  (∃ l, walk iso_ms files heads fuel seen queue = Ok l) ∨ (∃ h, h ∈ heads ∧ walk iso_ms files heads fuel seen queue = Err (linked h)).
Proof.
  intros Hread. revert seen queue. induction fuel as [|fuel IH]; intros seen queue Hq Hf; [lia|]. cbn [walk]. destruct queue as [|h queue]; [left; by eexists|].
  pose proof (Hq h ltac:(by left)) as Hh. destruct (elem_str (thread_id h) seen) eqn:Hs; [right; by exists h|]. apply elem_str_false in Hs. cbn [raise_if mbind res_bind].
  destruct (Hread h Hh) as (s & _ & -> & _). destruct (descendants_found (thread_id h) Hread) as [below Hb]. rewrite Hb. cbn [mbind res_bind].
  pose proof (unseen_less seen h Hh Hs). destruct (IH (seen ++ [thread_id h]) (queue ++ map s_head below)) as [[l ->]|(x & Hx & ->)]; [|lia|left; by eexists|right; by exists x].
  eapply in_queue; [|exact Hb]. intros x Hx. apply Hq. by right.
Qed.

(** What holds of a walk from a root that is not below itself: no thread is met
    twice, and every thread met but the root has its parent among those done. *)
Record walked (root : string) (seen : list string) (queue : list SessionHead) : Prop := {
  walked_queue : ∀ h, h ∈ queue → h ∈ heads;
  walked_once : NoDup (seen ++ map thread_id queue);
  walked_parent : ∀ h, h ∈ heads → thread_id h ∈ seen ++ map thread_id queue → thread_id h = root ∨ ∃ p, h_parent h = Some p ∧ p ∈ seen;
  walked_below : ∀ id, id ∈ seen ++ map thread_id queue → descends heads root id;
}.
Lemma head_unique h h' : h ∈ heads → h' ∈ heads → thread_id h = thread_id h' → h = h'.
Proof.
  intros [i Hi]%list_elem_of_lookup [j Hj]%list_elem_of_lookup He. assert (i = j) as ->; [|congruence].
  eapply NoDup_lookup; [exact Hids|..]; rewrite list_lookup_fmap; [by rewrite Hi|rewrite Hj; cbn; by rewrite He].
Qed.
Lemma walked_step root seen h queue below : ¬ own_descendant heads root → walked root seen (h :: queue) →
  map s_head below ≡ₚ List.filter (is_child_of (thread_id h)) heads →
  walked root (seen ++ [thread_id h]) (queue ++ map s_head below).
Proof.
  intros Hown [Hq Hn Hp Hd] Hb. pose proof (Hq h ltac:(by left)) as Hh.
  assert (Hchild : ∀ x, x ∈ map s_head below ↔ x ∈ heads ∧ h_parent x = Some (thread_id h)).
  { intros x. rewrite Hb, list_elem_of_In, List.filter_In, <-list_elem_of_In. by rewrite is_child_of_spec. }
  assert (Hmem : ∀ id, id ∈ (seen ++ [thread_id h]) ++ map thread_id (queue ++ map s_head below) ↔
    id ∈ seen ++ map thread_id (h :: queue) ∨ ∃ x, x ∈ map s_head below ∧ id = thread_id x).
  { intros id. rewrite map_app, !elem_of_app, list_elem_of_singleton. cbn [map]. rewrite elem_of_cons.
    assert (Hf : id ∈ map thread_id (map s_head below) ↔ ∃ x, x ∈ map s_head below ∧ id = thread_id x).
    { split; [intros (x & -> & Hx)%list_elem_of_fmap; by exists x|]. intros (x & Hx & ->). by apply (list_elem_of_fmap_2 thread_id). }
    tauto. }
  assert (Hnew : ∀ x, x ∈ map s_head below → thread_id x ∉ seen ++ map thread_id (h :: queue)).
  { intros x [Hx Hpx]%Hchild Hin. assert (thread_id x ≠ root) as Hr.
    { intros Hr. apply Hown. exists x, (thread_id h). split_and!; [done|done|done|]. apply Hd, elem_of_app. right. by left. }
    destruct (Hp x Hx Hin) as [?|(p & Hpp & Hps)]; [done|]. rewrite Hpx in Hpp. injection Hpp as <-.
    apply NoDup_app in Hn as (_ & Hn & _). apply (Hn _ Hps). by left. }
  split.
  - intros x [Hx|Hx]%elem_of_app; [apply Hq; by right|]. by apply Hchild in Hx as [? _].
  - assert (seen ++ map thread_id (h :: queue) = (seen ++ [thread_id h]) ++ map thread_id queue) as Hperm by (cbn; by rewrite <-app_assoc).
    rewrite Hperm in Hn. rewrite map_app, app_assoc. apply NoDup_app. split_and!; [done| |].
    + intros id Hin Hbad. apply list_elem_of_fmap in Hbad as (x & -> & Hx). apply (Hnew x Hx). by rewrite Hperm.
    + rewrite Hb. assert (Hsub : sublist (map thread_id (List.filter (is_child_of (thread_id h)) heads)) (map thread_id heads)).
      { clear. induction heads as [|x l IH]; [constructor|]. cbn. destruct (is_child_of _ x); cbn; by constructor. }
      eapply sublist_NoDup; [exact Hids|exact Hsub].
  - intros x Hx [Hin|(y & Hy & He)]%Hmem.
    + destruct (Hp x Hx Hin) as [?|(p & ? & ?)]; [by left|]. right. exists p. split; [done|]. apply elem_of_app. by left.
    + right. exists (thread_id h). apply Hchild in Hy as [Hy Hpy]. rewrite (head_unique x y Hx Hy He). split; [done|]. apply elem_of_app. right. by left.
  - intros id [Hin|(x & Hx & ->)]%Hmem; [by apply Hd|]. apply Hchild in Hx as [Hx Hpx]. eapply descends_child; [|done|done].
    apply Hd, elem_of_app. right. by left.
Qed.
Lemma walk_acyclic root fuel seen queue : readable iso_ms files heads → ¬ own_descendant heads root → walked root seen queue →
  2 + unseen seen ≤ fuel → ∃ l, walk iso_ms files heads fuel seen queue = Ok l.
Proof.
  intros Hread Hown. revert seen queue. induction fuel as [|fuel IH]; intros seen queue Hw Hf; [lia|]. cbn [walk]. destruct queue as [|h queue]; [by eexists|].
  pose proof (walked_queue _ _ _ Hw h ltac:(by left)) as Hh. assert (Hs : thread_id h ∉ seen).
  { pose proof (walked_once _ _ _ Hw) as (_ & Hn & _)%NoDup_app. intros Hin. apply (Hn _ Hin). by left. }
  pose proof (unseen_less seen h Hh Hs). apply elem_str_false in Hs. rewrite Hs. cbn [raise_if mbind res_bind].
  destruct (Hread h Hh) as (s & _ & -> & _). destruct (descendants_found (thread_id h) Hread) as [below Hb]. rewrite Hb. cbn [mbind res_bind].
  apply descendants_heads in Hb. destruct (IH (seen ++ [thread_id h]) (queue ++ map s_head below)) as [l ->]; [by apply walked_step|lia|by eexists].
Qed.
End threads.

Lemma sessions_under_spec home files heads : NoDup (map fst files) → sessions_under home (Some files) = Ok heads →
  ∀ h, h ∈ heads → session_head (h_path h) (file_at files (h_path h)) = Ok (Some h).
Proof.
  intros Hn H h Hh. cbn in H. apply res_bind_ok in H as (found & Hf & [= <-]). apply list_elem_of_omap in Hh as (o & Ho & E). cbn in E. subst o.
  apply map_res_Forall2 in Hf. apply list_elem_of_lookup in Ho as [i Hi]. destruct (Forall2_lookup_r _ _ _ _ _ Hf Hi) as ([p f] & Hp & Hs). cbn in Hs.
  pose proof (session_head_path _ _ _ Hs) as ->. unfold file_at. rewrite (elem_assoc files p f); [done|exact Hn|by eapply list_elem_of_lookup_2].
Qed.
Lemma session_of_head home files heads h s : NoDup (map fst files) → sessions_under home (Some files) = Ok heads → h ∈ heads →
  session_of files h = Ok s → s_head s = h.
Proof.
  intros Hn Hu Hh Hs. pose proof (sessions_under_spec _ _ _ Hn Hu h Hh) as E. unfold session_of in Hs. apply session_head_first in Hs.
  rewrite E in Hs. by injection Hs.
Qed.
Lemma add_heads heads by_id : foldM add_head [] heads = Ok by_id →
  keys by_id = map thread_id heads ∧ NoDup (map thread_id heads) ∧ ∀ k h, assoc by_id k = Some h → h ∈ heads ∧ thread_id h = k.
Proof.
  intros H. refine (foldM_ok_ind add_head (λ l d, keys d = map thread_id l ∧ NoDup (map thread_id l) ∧ ∀ k h, assoc d k = Some h → h ∈ l ∧ thread_id h = k)
    heads [] by_id _ _ H); [split_and!; [done|constructor|done]|]. clear. intros l h d d' _ (Hk & Hn & Ha) E. unfold add_head in E.
  destruct (assoc d (thread_id h)) eqn:En; [done|]. injection E as <-. apply assoc_none in En. split_and!.
  - by rewrite keys_dset_notin, Hk, map_app.
  - rewrite map_app. apply NoDup_app. split_and!; [done| |apply NoDup_singleton]. intros x Hx ->%list_elem_of_singleton. by rewrite Hk in En.
  - intros k x. destruct (decide (thread_id h = k)) as [<-|Hne].
    + rewrite assoc_dset_eq. intros [= <-]. split; [|done]. apply elem_of_app. right. by left.
    + rewrite assoc_dset_ne by done. intros [Hx Hk']%Ha. split; [|done]. apply elem_of_app. by left.
Qed.

Lemma run_threads iso_ms home files heads root l : NoDup (map fst files) → sessions_under home (Some files) = Ok heads →
  run_sessions iso_ms files heads root home = Ok l →
  head (map tid l) = Some root ∧ NoDup (map tid l) ∧ (∀ id, id ∈ map tid l ↔ descends heads root id) ∧
  (∀ i j s t, l !! i = Some s → l !! j = Some t → h_parent (s_head t) = Some (tid s) → i < j) ∧
  (∀ s, s ∈ l → session_head (session_path s) (file_at files (session_path s)) = Ok (Some (s_head s))).
Proof.
  intros Hn Hu. assert (Hfiles : ∀ h s, h ∈ heads → session_of files h = Ok s → s_head s = h) by (intros; by eapply session_of_head).
  intros H. unfold run_sessions in H. apply res_bind_ok in H as (by_id & Hb & H). apply add_heads in Hb as (_ & Hids & Ha).
    destruct (assoc by_id root) as [h|] eqn:Er; [|done]. apply Ha in Er as [Hh Ht].
    destruct (walk_spec iso_ms files heads Hfiles (2 + length heads) [] [h] l ltac:(by intros x ->%list_elem_of_singleton) H) as (R1 & _ & R3 & R4 & R5 & R6).
    assert (H0 : head (map tid l) = Some root).
    { cbn [walk Nat.add elem_str existsb raise_if] in H. apply res_bind_ok in H as (u & _ & H). apply res_bind_ok in H as (s & Hs & H). apply res_bind_ok in H as (below & _ & H).
      apply res_bind_ok in H as (rest & _ & [= <-]). cbn. unfold tid. by rewrite (Hfiles h s Hh Hs), Ht. }
    split_and!; [done|done| | |].
  - intros id. split.
    + intros Hid. apply list_elem_of_fmap in Hid as (s & -> & Hs). apply list_elem_of_lookup in Hs as [i Hi]. revert s Hi.
        induction (lt_wf i) as [i _ IH]. intros s Hi. destruct (R5 i s Hi) as [Hq%list_elem_of_singleton|(j & t & Hj & Hl & Hp)].
      * unfold tid. rewrite Hq, Ht. constructor.
      * apply (descends_child _ _ _ (tid t)); [by apply (IH j Hj)|apply R4; by eapply list_elem_of_lookup_2|done].
    + induction 1 as [|x p Hp IH Hx Hpar].
      * destruct (map tid l) as [|y ys]; [done|]. injection H0 as ->. by left.
      * apply list_elem_of_fmap in IH as (s & -> & Hs). apply list_elem_of_lookup in Hs as [i Hi].
           destruct (R6 i s x Hi Hx Hpar) as (j & t & _ & Hl & <-). apply (list_elem_of_fmap_2 tid). by eapply list_elem_of_lookup_2.
  - intros i j s t Hi Hj Hp. destruct (R6 i s (s_head t) Hi (R4 t ltac:(by eapply list_elem_of_lookup_2)) Hp) as (k & u & Hk & Hl & Hd).
      assert (j = k) as ->; [|done]. eapply NoDup_lookup; [exact R1|..]; rewrite list_lookup_fmap; [by rewrite Hj|rewrite Hl; cbn; unfold tid; by rewrite Hd].
  - intros s Hs. by apply (sessions_under_spec home files heads Hn Hu), R4.
Qed.

Lemma head_read home files heads h : NoDup (map fst files) → sessions_under home (Some files) = Ok heads → h ∈ heads →
  session_of files h ≠ Err OutOfFuel.
Proof.
  intros Hn Hu Hh. pose proof (sessions_under_spec _ _ _ Hn Hu h Hh) as E. unfold session_head in E.
  apply res_bind_ok in E as (text & Ht & _). by eapply read_session_settles.
Qed.
Lemma unseen_none heads : unseen heads [] ≤ length heads.
Proof. unfold unseen. apply List.filter_length_le. Qed.
Lemma add_head_settles heads by_id : foldM add_head by_id heads ≠ Err OutOfFuel.
Proof.
  revert by_id. induction heads as [|h l IH]; intros by_id; [done|]. cbn [foldM]. apply bind_settles; [|intros; apply IH].
  unfold add_head. by destruct (assoc _ _).
Qed.
Lemma add_heads_ok heads by_id : NoDup (map thread_id heads) → (∀ h, h ∈ heads → assoc by_id (thread_id h) = None) →
  ∃ d, foldM add_head by_id heads = Ok d ∧
    ∀ k, assoc d k = None → assoc by_id k = None ∧ k ∉ map thread_id heads.
Proof.
  revert by_id. induction heads as [|h l IH]; intros by_id Hn Ha; [exists by_id; split; [done|]; intros k Hk; split; [done|apply not_elem_of_nil]|].
  apply NoDup_cons in Hn as [Hh Hn]. cbn [foldM].
  assert (add_head by_id h = Ok (dset by_id (thread_id h) h)) as -> by (unfold add_head; by rewrite (Ha h ltac:(by left))). cbn [mbind res_bind].
  destruct (IH (dset by_id (thread_id h) h) Hn) as (d & Hd & Hk).
  { intros x Hx. rewrite assoc_dset_ne; [apply Ha; by right|]. intros E. apply Hh. rewrite E. by apply (list_elem_of_fmap_2 thread_id). }
  exists d. split; [done|]. intros k [Hk1 Hk2]%Hk. destruct (decide (thread_id h = k)) as [<-|Hne]; [by rewrite assoc_dset_eq in Hk1|].
  rewrite assoc_dset_ne in Hk1 by done. split; [done|]. intros [->|Hin]%elem_of_cons; [done|by apply Hk2].
Qed.

(** Claim C24. The sessions of a run.  Those returned are the root thread's and exactly
    those of the threads it spawned, directly or through others: each once, as its
    whole file reads, a parent before its children; a session of another run is
    left out.  The walk always ends: within two rounds more than there are files it
    gives a list or raises, and more rounds change nothing.  When every file
    reads and no thread is recorded twice, the list is given unless the root is
    linked below itself (no other cycle is reachable from it, a thread having one
    parent), and then the error names a thread linked as its own descendant. *)
Theorem threads_exact iso_ms home files heads root : NoDup (map fst files) → sessions_under home (Some files) = Ok heads →
  run_sessions iso_ms files heads root home ≠ Err OutOfFuel ∧
  (∀ l, run_sessions iso_ms files heads root home = Ok l →
    head (map tid l) = Some root ∧ NoDup (map tid l) ∧ (∀ id, id ∈ map tid l ↔ descends heads root id) ∧
    (∀ i j s t, l !! i = Some s → l !! j = Some t → h_parent (s_head t) = Some (tid s) → i < j) ∧
    (∀ s, s ∈ l → session_head (session_path s) (file_at files (session_path s)) = Ok (Some (s_head s)))) ∧
  (∀ h more, NoDup (map thread_id heads) → h ∈ heads →
    walk iso_ms files heads (2 + length heads + more) [] [h] = walk iso_ms files heads (2 + length heads) [] [h]) ∧
  (NoDup (map thread_id heads) → root ∈ map thread_id heads → readable iso_ms files heads →
    (¬ own_descendant heads root → ∃ l, run_sessions iso_ms files heads root home = Ok l) ∧
    (own_descendant heads root → ∃ h, h ∈ heads ∧ run_sessions iso_ms files heads root home = Err (linked h))).
Proof.
  intros Hn Hu. pose proof (λ h s, session_of_head home files heads h s Hn Hu) as Hfiles. pose proof (unseen_none heads) as Hfuel.
  assert (Hsub : ∀ h : SessionHead, h ∈ heads → ∀ x, x ∈ [h] → x ∈ heads) by by intros h Hh x ->%list_elem_of_singleton.
  split_and!.
  - unfold run_sessions. apply bind_settles; [apply add_head_settles|]. intros by_id Hb. apply add_heads in Hb as (_ & Hids & Ha).
    destruct (assoc by_id root) as [h|] eqn:Er; [|done]. apply Ha in Er as [Hh _].
    apply walk_settles; [done| |by apply Hsub|lia]. intros x. by apply (head_read home).
  - intros l. by apply run_threads.
  - intros h more Hids Hh. apply walk_enough; [done|by apply Hsub|lia].
  - intros Hids Hroot Hread. assert (∃ h, h ∈ heads ∧ thread_id h = root ∧
      run_sessions iso_ms files heads root home = walk iso_ms files heads (2 + length heads) [] [h]) as (h & Hh & Hr & ->).
    { destruct (add_heads_ok heads [] Hids ltac:(done)) as (d & Hd & Hk). pose proof (add_heads _ _ Hd) as (_ & _ & Ha). unfold run_sessions. rewrite Hd. cbn [mbind res_bind].
      destruct (assoc d root) as [h|] eqn:Er; [|by destruct (Hk root Er)]. destruct (Ha _ _ Er). by exists h. }
    split; intros Hown.
    + eapply walk_acyclic; [done|done|done|exact Hown| |lia]. split.
      * by apply Hsub.
      * cbn. apply NoDup_singleton.
      * intros x Hx Hin. left. cbn in Hin. apply list_elem_of_singleton in Hin. congruence.
      * cbn. intros id ->%list_elem_of_singleton. rewrite Hr. constructor.
    + destruct (walk_or_linked iso_ms files heads Hfiles (2 + length heads) [] [h] Hread (Hsub h Hh) ltac:(lia)) as [[l Hl]|Hx]; [|done].
      destruct (run_threads iso_ms home files heads root l Hn Hu) as (R1 & R2 & R3 & R4 & _).
      { destruct (add_heads_ok heads [] Hids ltac:(done)) as (d & Hd & Hk). pose proof (add_heads _ _ Hd) as (_ & _ & Ha). unfold run_sessions. rewrite Hd. cbn [mbind res_bind].
        destruct (assoc d root) as [h'|] eqn:Er; [|by destruct (Hk root Er)]. destruct (Ha _ _ Er) as [Hh' Hr'].
        by rewrite (head_unique heads Hids h' h Hh' Hh ltac:(congruence)). }
      exfalso. destruct Hown as (x & p & Hx & Hxr & Hxp & Hp). apply R3 in Hp. apply list_elem_of_fmap in Hp as (s & Es & Hs). apply list_elem_of_lookup in Hs as [i Hi].
      destruct l as [|t l]; [done|]. injection R1 as Ht. assert (Ex : s_head t = x); [|by destruct (Nat.nlt_0_r i (R4 i 0 s t Hi eq_refl ltac:(by rewrite Ex, Hxp, Es)))].
      apply (head_unique heads Hids); [|done|unfold tid in Ht; congruence].
      destruct (walk_spec iso_ms files heads Hfiles _ _ _ _ (Hsub h Hh) Hl) as (_ & _ & _ & W & _). apply W. by left.
Qed.

(** ** The trajectory of a run *)

(** Calls that follow one another without a gap. *)
Fixpoint consecutive (from : Z) (calls : list ModelCall) : Prop :=
  match calls with
  | [] => True
  | c :: rest => call_started_ms c = from ∧ ∃ e, call_ended_ms c = Some e ∧ consecutive e rest
  end.
Lemma calls_consecutive iso_ms s from l calls : calls_from iso_ms s from l = Ok calls → consecutive from calls.
Proof.
  revert from calls. induction l as [|ru l IH]; intros from calls H; [by injection H as <-|]. cbn [calls_from] in H.
  apply res_bind_ok in H as (c & Hc & H). apply res_bind_ok in H as (rest & Hr & [= <-]). unfold model_call in Hc.
  apply res_bind_ok in Hc as (e & _ & [= <-]). cbn in *. split; [done|]. exists e. split; [done|]. by apply IH.
Qed.
Lemma change_kind_listed v kind : change_kind_of v = Ok kind → kind ∈ CHANGE_KINDS.
Proof.
  unfold change_kind_of. destruct (hashable _); [|done]. intros [= <-]. apply elem_str_spec.
  destruct (dget (dict_or_empty v) "type") as [| | | |k| |]; try reflexivity. unfold CODEX_CHANGE_KINDS, assoc.
  by repeat case_step.
Qed.
Lemma session_changes_wf s changes : session_changes s = Ok changes → Forall wf changes.
Proof.
  unfold session_changes. intros H. apply res_bind_ok in H as (items & _ & H). apply res_bind_ok in H as (l & Hl & [= <-]).
  apply map_res_Forall2 in Hl. apply Forall_concat. clear - Hl. induction Hl as [|pi cs items l Hc _ IH]; [constructor|]. constructor; [|done].
  unfold changes_of in Hc. destruct (negb _); [injection Hc as <-; constructor|]. apply res_bind_ok in Hc as (span & _ & Hc).
  destruct (dget pi.2 "changes") as [| | | | | |d]; try done. apply map_res_Forall2 in Hc. clear - Hc. induction Hc as [|kv c d cs Hk _ IH]; constructor; [|done].
  apply res_bind_ok in Hk as (kind & Hk & [= <-]). split; cbn; [by eapply change_kind_listed|set_solver].
Qed.
Lemma agent_of_session iso_ms word s a : agent_from_session iso_ms word s = Ok a →
  agent_id a = tid s ∧ wf a ∧ consecutive (agent_started_ms a) (model_calls a) ∧ ∃ e, agent_ended_ms a = Some e.
Proof.
  unfold agent_from_session. intros H. apply res_bind_ok in H as (started & Hst & H). apply res_bind_ok in H as (ended & _ & H).
  apply res_bind_ok in H as (calls & Hc & H). apply res_bind_ok in H as (cmds & _ & H). apply res_bind_ok in H as (changes & Hch & H).
  apply res_bind_ok in H as (comps & _ & H). apply res_bind_ok in H as (tools & _ & [= <-]). cbn. split_and!.
  - done.
  - by eapply session_changes_wf.
  - unfold session_calls in Hc. apply res_bind_ok in Hc as (l & _ & Hc). rewrite Hst in Hc. cbn in Hc. by eapply calls_consecutive.
  - by eexists.
Qed.
Lemma outcome_wf output exit_status limit failed ended o : run_outcome output exit_status limit failed ended = Ok o → wf o.
Proof.
  assert (Hc : ∀ st (c : option string) v, st ∈ OUTCOME_STATUSES → wf {| status := st; code := opt_str c; outcome_value := v; outcome_ended_ms := ended |})
    by (intros; split; cbn; eauto).
  unfold run_outcome. destruct exit_status as [z|]; [|intros [= <-]; apply Hc; cbn; set_solver].
  destruct (z <? 0)%Z; [intros [= <-]; apply (Hc _ (Some _)); cbn; set_solver|].
  destruct failed as [|f failed]; [|intros [= <-]; apply (Hc _ (Some _)); cbn; set_solver].
  destruct (negb _); [intros [= <-]; apply (Hc _ (Some _)); cbn; set_solver|].
  destruct output as [|path|path file]; [intros [= <-]; apply (Hc _ None); cbn; set_solver|done|].
  intros H. apply res_bind_ok in H as (text & _ & H). unfold completed_with in H.
  assert (Hp : ∀ v, wf {| status := "completed"; code := VNone; outcome_value := v; outcome_ended_ms := ended |}) by (intros; apply (Hc _ None); cbn; set_solver).
  destruct (loads_str text) as [[| | | | | |typed]|]; try (injection H as <-; apply Hp).
  destruct (assoc typed "status") as [[| | | |st| |]|]; try done; [|injection H as <-; apply Hp].
  destruct (elem_str st OUTCOME_STATUSES) eqn:Es; [|done]. apply elem_str_spec in Es.
  destruct (dget typed "code") as [| | | |c| |]; try done; injection H as <-; [apply (Hc _ None)|apply (Hc _ (Some c))]; done.
Qed.

(** What a Codex run is normalised to is well formed, so that its JSON
    form reads back as itself; its agents are exactly the root thread the event
    stream names and the threads it spawned, the root first; and the model calls
    of each agent follow one another from its start without a gap. *)
Theorem codex_trajectory_well_formed iso_ms word home files events_path events_file output exit_status rt limit t :
  NoDup (map fst files) →
  normalize_codex iso_ms word home (Some files) events_path events_file output exit_status rt limit = Ok t →
  wf_trajectory t ∧ ∃ events heads,
    read_stream events_path events_file = Ok events ∧ sessions_under home (Some files) = Ok heads ∧
    head (map agent_id (agents t)) = Some (root_thread events) ∧
    (∀ id, id ∈ map agent_id (agents t) ↔ descends heads (root_thread events) id) ∧
    Forall (λ a, consecutive (agent_started_ms a) (model_calls a)) (agents t).
Proof.
  intros Hn H. unfold normalize_codex in H. apply res_bind_ok in H as ([] & Hr & H). apply raise_if_ok, negb_false_iff, elem_str_spec in Hr.
  apply res_bind_ok in H as (events & Hev & H). apply res_bind_ok in H as (heads & Hh & H). apply res_bind_ok in H as (sessions & Hs & H).
  destruct sessions as [|root rest] eqn:Es; [done|]. rewrite <-Es in *. clear Es. apply res_bind_ok in H as (agents & Ha & H).
  apply res_bind_ok in H as (ended & _ & H). apply res_bind_ok in H as (identity & _ & H). apply res_bind_ok in H as (outcome & Ho & [= <-]).
  destruct (run_threads iso_ms home files heads _ _ Hn Hh Hs) as (T1 & T2 & T3 & _).
  apply map_res_Forall2 in Ha. assert (Hids : map agent_id agents = map tid sessions).
  { clear - Ha. induction Ha as [|s a ss l Hsa _ IH]; [done|]. cbn. rewrite IH. f_equal. by apply agent_of_session in Hsa as (-> & _). }
  assert (Hall : Forall (λ a, wf a ∧ consecutive (agent_started_ms a) (model_calls a)) agents).
  { clear - Ha. induction Ha as [|s a ss l Hsa _ IH]; constructor; [|done]. by apply agent_of_session in Hsa as (_ & ? & ? & _). }
  split.
  - split_and!; cbn; [set_solver|done|by eapply outcome_wf| |by rewrite Hids]. eapply Forall_impl; [exact Hall|]. by intros a [? _].
  - exists events, heads. cbn. rewrite Hids. split_and!; [done..|]. eapply Forall_impl; [exact Hall|]. by intros a [_ ?].
Qed.

(** ** Examples *)

(** Two threads of a run, the later file by path the root's, and a thread of
    another run. *)
Definition example_ms (s : string) : option Z :=
  assoc [("09:00:00", 0%Z); ("09:00:01", 1000%Z); ("09:00:02", 2000%Z); ("09:00:03", 3000%Z)] s.
Definition example_line (at_ : string) (ordinal : Z) (type_ : string) (p : dict) : string :=
  dumps_ascii (VDict [("timestamp", VStr at_); ("ordinal", VInt ordinal); ("type", VStr type_); ("payload", VDict p)]) +:+ nl.
Definition example_usage (at_ : string) (ordinal input : Z) : string :=
  example_line at_ ordinal "token_usage_record" [("usage", VDict [("input_tokens", VInt input); ("total_tokens", VInt input)])].
Definition spawned_by (id : string) : dict :=
  [("source", VDict [("subagent", VDict [("thread_spawn", VDict [("parent_thread_id", VStr id); ("depth", VInt 1); ("agent_path", VStr "/root/reader")])])])].
Definition example_files : list (string * res string) :=
  [("h/sessions/a", Ok (example_line "09:00:01" 0 "session_meta" (("id", VStr "t1") :: spawned_by "t0")
                        +:+ example_usage "09:00:02" 1 7));
   ("h/sessions/b", Ok (example_line "09:00:00" 0 "session_meta" [("id", VStr "t0")]
                        +:+ example_usage "09:00:01" 1 5 +:+ example_usage "09:00:03" 2 9));
   ("h/sessions/c", Ok (example_line "09:00:00" 0 "session_meta" [("id", VStr "other")]))].
Definition example_stream : res string :=
  Ok (dumps_ascii (VDict [("type", VStr "thread.started"); ("thread_id", VStr "t0")]) +:+ nl
      +:+ dumps_ascii (VDict [("type", VStr "turn.completed")]) +:+ nl).
Definition example_codex : res Trajectory :=
  normalize_codex example_ms (λ _, true) "h" (Some example_files) "e" example_stream NoMessage (Some 0%Z) "compatible" None.
Definition result_or {A} (d : A) (r : res A) : A := match r with Ok x => x | Err _ => d end.
Definition example_heads : list SessionHead := result_or [] (sessions_under "h" (Some example_files)).
Definition example_run : list Session := result_or [] (run_sessions example_ms example_files example_heads "t0" "h").

(** The root of this run is recorded as spawned by the thread it spawned. *)
Definition cyclic_files : list (string * res string) :=
  [("h/sessions/a", Ok (example_line "09:00:01" 0 "session_meta" (("id", VStr "t1") :: spawned_by "t0")));
   ("h/sessions/b", Ok (example_line "09:00:00" 0 "session_meta" (("id", VStr "t0") :: spawned_by "t1")))].
Definition cyclic_heads : list SessionHead := result_or [] (sessions_under "h" (Some cyclic_files)).

Lemma threads_exact_witness :
  (map tid example_run = ["t0"; "t1"] ∧ head (map tid example_run) = Some "t0" ∧ ¬ descends example_heads "t0" "other") ∧
  ∃ h, h ∈ cyclic_heads ∧ run_sessions example_ms cyclic_files cyclic_heads "t0" "h" = Err (linked h).
Proof.
  assert (E : map tid example_run = ["t0"; "t1"]) by (vm_compute; reflexivity). split; [split; [exact E|]|].
  - destruct (threads_exact example_ms "h" example_files example_heads "t0") as (_ & H & _).
    { apply (bool_decide_unpack _). vm_compute. exact I. }
    { vm_compute. reflexivity. }
    destruct (H example_run ltac:(vm_compute; reflexivity)) as (H1 & _ & H3 & _). split; [exact H1|].
    intros Hd. apply H3 in Hd. rewrite E in Hd. apply elem_str_spec in Hd. discriminate.
  - destruct (threads_exact example_ms "h" cyclic_files cyclic_heads "t0") as (_ & _ & _ & H).
    { apply (bool_decide_unpack _). vm_compute. exact I. }
    { vm_compute. reflexivity. }
    assert (Hh : ∃ a b, cyclic_heads = [a; b] ∧ thread_id a = "t1" ∧ h_parent a = Some "t0" ∧ thread_id b = "t0" ∧ h_parent b = Some "t1").
    { eexists _, _. split; [vm_compute; reflexivity|]. repeat split. }
    destruct Hh as (a & b & Hab & Ha & Hpa & Hb & Hpb). apply H.
    + apply (bool_decide_unpack _). vm_compute. exact I.
    + apply (bool_decide_unpack _). vm_compute. exact I.
    + intros h Hin. assert (Hc : forallb (λ h, match session_of cyclic_files h with Ok s => is_ok (started_ms example_ms s) | Err _ => false end) cyclic_heads = true) by (vm_compute; reflexivity).
      rewrite forallb_forall in Hc. apply list_elem_of_In, Hc in Hin. destruct (session_of cyclic_files h) as [s|]; [|discriminate].
      destruct (started_ms example_ms s) as [t|] eqn:Et; [|discriminate]. exists s, t. by split.
    + exists b, "t1". split_and!; [rewrite Hab; right; left|exact Hb|exact Hpb|]. rewrite <-Ha.
      eapply descends_child; [constructor|rewrite Hab; left|exact Hpa].
Defined.

Lemma codex_trajectory_well_formed_witness :
  match example_codex with
  | Ok t => wf_trajectory t ∧ map model_calls (agents t) ≠ [] ∧ Forall (λ a, consecutive (agent_started_ms a) (model_calls a)) (agents t)
  | Err _ => False
  end.
Proof.
  destruct example_codex as [t|e] eqn:E; [|vm_compute in E; discriminate].
  destruct (codex_trajectory_well_formed example_ms (λ _, true) "h" example_files "e" example_stream NoMessage (Some 0%Z) "compatible" None t)
    as (H & events & heads & _ & _ & Hh & _ & Hf).
  { apply (bool_decide_unpack _). vm_compute. exact I. }
  { exact E. }
  split; [exact H|]. split; [|exact Hf]. intros Hn. destruct (agents t); [discriminate Hh|discriminate Hn].
Defined.

(** A line end of Unicode inside a string, which JSON allows raw, splits the
    line: the record is JSON and the session file does not read. *)
Definition separated_record : string :=
  let q := String dquote "" in
  "{" +:+ q +:+ "type" +:+ q +:+ ":" +:+ q +:+ "a" +:+ utf8_encode 8232 +:+ "b" +:+ q +:+ "}" +:+ nl.
Example separator_splits_record :
  loads_str separated_record = inl (VDict [("type", VStr ("a" +:+ utf8_encode 8232 +:+ "b"))]) ∧
  parse_records "p" separated_record false = Err (ValueError "p:1: the line is not JSON: Unterminated string starting at: line 1 column 9 (char 8)").
Proof. split; vm_compute; reflexivity. Qed.
