(* ===== verification/CodexArm.v ===== *)
(** * The Codex arm

    src/evals/cross_harness/arms/codex_arm.py, but for the credential and the
    run (see [CodexRun]): the schema of the final message, the command line, the
    event stream and what a run reports. *)

From Stdlib Require Import Ascii.
From stdpp Require Import base list sets strings pretty.
From Stdlib Require Import ZArith Lia.
From S2P Require Import Prelude PyValue PyText PyJson PyUnicode JsonText PyPath TaskProtocol BudgetWatcher NormalizeCodex Graphs RunText FoeArm.

Definition CODEX_HARNESS : string := "codex".
Definition SANDBOX_MODES : list string := ["read-only"; "workspace-write"; "danger-full-access"].
Definition BLOCKED_CODES : list string := ["goal-unreachable"; "ambiguous-task"; "missing-capability"].

(** ** The schema of the final message *)

Definition typed (t : string) (more : dict) : value := VDict (("type", VStr t) :: more).
Definition DEFAULT_PROPERTIES : dict :=
  [("status", typed "string" [("enum", strs [COMPLETED; BLOCKED])]);
   ("code", VDict [("type", strs ["string"; "null"]); ("enum", VList (map VStr BLOCKED_CODES ++ [VNone]))]);
   ("evidence", typed "array" [("items", typed "string" [])])].
Definition DEFAULT_REQUIRED : list string := ["status"; "code"; "evidence"].
Definition object_schema (properties : dict) (required : list value) : dict :=
  [("type", VStr "object"); ("properties", VDict properties); ("required", VList required); ("additionalProperties", VBool false)].
Definition DEFAULT_SCHEMA : dict := object_schema DEFAULT_PROPERTIES (map VStr DEFAULT_REQUIRED).

(** [key in properties], of what iterating over [required] gives. *)
Definition names_property (properties : dict) (key : value) : res bool :=
  raise_if (negb (hashable key)) (unhashable key);;
  Ok match key with VStr k => has_key properties k | _ => false end.
Fixpoint filter_res {A} (f : A → res bool) (l : list A) : res (list A) :=
  match l with
  | [] => Ok []
  | x :: l => keep ← f x; rest ← filter_res f l; Ok (if (keep : bool) then x :: rest else rest)
  end.
Definition schema_for (returns : option dict) : res dict :=
  match returns with
  | None => Ok DEFAULT_SCHEMA
  | Some returns =>
      let refused := ValueError ("the returned shape is " +:+ str_take 200 (dumps_ascii (VDict returns))
                                 +:+ "; expected an object schema with a non-empty properties") in
      if negb (is_string "object" (dget returns "type")) then Err refused else
      match dget returns "properties" with
      | VDict ((_ :: _) as properties) =>
          let taken := sorted_strings (List.filter (λ k, has_key DEFAULT_PROPERTIES k) (keys properties)) in
          raise_if (match taken with [] => false | _ => true end)
            (ValueError ("the returned shape names " +:+ join ", " taken +:+ ", which the final message already carries as the reported outcome"));;
          named ← py_iter (dget_or returns "required" (strs (sorted_strings (keys properties))));
          required ← filter_res (names_property properties) named;
          Ok (object_schema (dupdate DEFAULT_PROPERTIES properties) (map VStr DEFAULT_REQUIRED ++ required))
      | _ => Err refused
      end
  end.

(** ** The command line *)

Record CodexSpec : Type := {
  c_arm_name : string; codex : string; c_task : string; c_workspace : string; c_artifacts : string; sandbox : string; c_model : string;
  c_reasoning_effort : string; credential_source : string; limits : dict; agents_enabled : bool; max_threads : option Z;
  output_schema : option dict; model_providers : option (list (string * dict)); environment : option (list (string * string));
  keep_credential : bool; config_canary : option string;
}.
(** [CodexSpec.__post_init__]. *)
Definition make_codex_spec (s : CodexSpec) : res CodexSpec :=
  raise_if (negb (elem_str (sandbox s) SANDBOX_MODES))
    (ValueError ("spec sandbox is " +:+ str_repr (sandbox s) +:+ "; expected one of " +:+ join ", " SANDBOX_MODES));;
  raise_if (String.eqb (c_model s) "") (ValueError "spec model is empty");;
  raise_if (String.eqb (c_reasoning_effort s) "") (ValueError "spec reasoning_effort is empty");;
  raise_if (String.eqb (str_strip (c_task s)) "") (ValueError "spec task is empty");;
  match max_threads s with
  | Some n => raise_if (n <=? 0)%Z (ValueError ("spec max_threads is " +:+ Z_str n +:+ "; expected a positive integer or None"))
  | None => Ok ()
  end;;
  match model_providers s with
  | Some l => raise_if (negb (length l =? 1)) (ValueError ("spec model_providers names " +:+ nat_str (length l) +:+ " providers; a run uses exactly one"))
  | None => Ok ()
  end;;
  match config_canary s with
  | Some c => raise_if (String.eqb (str_strip c) "") (ValueError "spec config_canary is empty; the canary is one sentence, or None to plant none")
  | None => Ok ()
  end;;
  check_limits (limits s);;
  Ok s.
Definition schema_of (s : CodexSpec) : dict := default DEFAULT_SCHEMA (output_schema s).

(** [toml_value]. *)
Definition del : string := String (ascii_of_nat 127) "".
Definition toml_string (s : string) : string := str_replace del "\u007F" (json_string s).
Definition toml_value (v : value) (key : string) : res string :=
  match v with
  | VBool b => Ok (if b then "true" else "false")
  | VInt _ | VFloat _ => Ok (py_repr v)
  | VStr s => Ok (toml_string s)
  | v => Err (ValueError ("override " +:+ key +:+ " is " +:+ type_name v +:+ "; expected a string, number, or boolean"))
  end.
Definition provider_override (name : string) (option_ : string * value) : res (list string) :=
  let key := "model_providers." +:+ name +:+ "." +:+ option_.1 in
  v ← toml_value option_.2 key; Ok ["-c"; key +:+ "=" +:+ v].
Definition provider_overrides (providers : option (list (string * dict))) : res (list string) :=
  match providers with
  | None | Some [] => Ok []
  | Some [(name, options)] =>
      overrides ← map_res (provider_override name) options;
      Ok (concat overrides ++ ["-c"; "model_provider=" +:+ toml_string name])
  | Some (_ :: _ :: _) => Err (ValueError "too many values to unpack (expected 1)")
  end.
Definition codex_command (s : CodexSpec) (schema last : string) : res (list string) :=
  providers ← provider_overrides (model_providers s);
  Ok ([codex s; "exec"; "--json"; "--skip-git-repo-check"; "--ignore-rules"; "--ignore-user-config"; "-s"; sandbox s; "-m"; c_model s;
       "-c"; "model_reasoning_effort=" +:+ toml_string (c_reasoning_effort s);
       "-c"; "approval_policy=" +:+ String dquote ("never" +:+ String dquote "");
       "-C"; c_workspace s; "-o"; last; "--output-schema"; schema]
      ++ (if negb (agents_enabled s) then ["-c"; "agents.enabled=false"]
          else match max_threads s with
               | Some n => ["-c"; "agents.max_concurrent_threads_per_session=" +:+ Z_str n]
               | None => []
               end)
      ++ providers ++ ["--"; c_task s]).

(** ** The event stream *)

Definition EVENTS_NAME : string := "events.jsonl".
Definition event_line (st : list dict * list string) (nl_ : nat * string) : list dict * list string :=
  let problem text := (st.1, st.2 ++ [EVENTS_NAME +:+ ":" +:+ nat_str nl_.1 +:+ ": " +:+ text]) in
  if String.eqb (str_strip nl_.2) "" then st else
  match loads_str nl_.2 with
  | inr e => problem (load_error_str e)
  | inl (VDict e) => if is_str (dget e "type") then (st.1 ++ [e], st.2) else problem "not an event object"
  | inl _ => problem "not an event object"
  end.
Definition parse_events (text : string) : list dict * list string :=
  fold_left event_line (enumerate_from 1 (str_splitlines text)) ([], []).

Record Summary : Type := {
  thread : option string; turns : nat; usage : Usage; errors : list string; items : list (string * nat); summary_problems : list string;
}.
Definition add_error (text : string) (s : Summary) : Summary :=
  {| thread := thread s; turns := turns s; usage := usage s; errors := errors s ++ [text]; items := items s; summary_problems := summary_problems s |}.
Definition next_turn (s : Summary) : Summary :=
  {| thread := thread s; turns := S (turns s); usage := usage s; errors := errors s; items := items s; summary_problems := summary_problems s |}.
Definition add_turn_usage (u : value) (s : Summary) : res Summary :=
  let with_usage total problems := {| thread := thread s; turns := turns s; usage := total; errors := errors s; items := items s; summary_problems := problems |} in
  match parse_usage u (EVENTS_NAME +:+ " turn.completed") with
  | Ok p => Ok (with_usage (add_usage (usage s) p) (summary_problems s))
  | Err (ValueError m) => Ok (with_usage (usage s) (summary_problems s ++ [m]))
  | Err e => Err e
  end.
Definition count_item (kind : string) (s : Summary) : Summary :=
  {| thread := thread s; turns := turns s; usage := usage s; errors := errors s;
     items := dset (items s) kind (S (default 0 (assoc (items s) kind))); summary_problems := summary_problems s |}.
Definition summarize_event (s : Summary) (event : dict) : res Summary :=
  let kind := dget event "type" in
  let stated d := py_str (py_or (dget d "message") (VDict d)) in
  if is_string "thread.started" kind && is_str (dget event "thread_id") then
    Ok {| thread := as_str (dget event "thread_id"); turns := turns s; usage := usage s; errors := errors s; items := items s;
          summary_problems := summary_problems s |}
  else if is_string "turn.completed" kind then
    if is_dict (dget event "usage") then add_turn_usage (dget event "usage") (next_turn s) else Ok (next_turn s)
  else if is_string "turn.failed" kind then
    Ok (add_error (py_str (match dget event "error" with VDict d => dget d "message" | v => v end)) (next_turn s))
  else if is_string "error" kind then Ok (add_error (stated event) s)
  else match dget event "item" with
       | VDict d =>
           if negb (is_string "item.completed" kind) then Ok s else
           let item_type := py_str (dget d "type") in
           Ok (if String.eqb item_type "error" then add_error (stated d) (count_item item_type s) else count_item item_type s)
       | _ => Ok s
       end.
Definition summarize_events (events : list dict) : res Summary :=
  foldM summarize_event {| thread := None; turns := 0; usage := empty_usage; errors := []; items := []; summary_problems := [] |} events.

(** ** What a run reports *)

(** [x in container], of a value. *)
Definition value_in (x container : value) : res bool :=
  match container with
  | VList l => Ok (existsb (py_eq x) l)
  | VDict d => raise_if (negb (hashable x)) (unhashable x);; Ok match x with VStr k => has_key d k | _ => false end
  | VStr s => match x with
              | VStr w => Ok (occurs w s)
              | v => Err (TypeError ("'in <string>' requires string as left operand, not " +:+ type_name v))
              end
  | v => Err (TypeError ("argument of type '" +:+ type_name v +:+ "' is not iterable"))
  end.
(** [schema.get("properties", {}).get(name, {}).get("enum")]. *)
Definition enumeration (schema : dict) (name : string) : res value :=
  properties ← get_or (VDict schema) "properties" (VDict []); shape ← get_or properties name (VDict []); get shape "enum".
Definition shown_values (v : value) : res string := l ← py_iter v; Ok (join ", " (map py_str l)).

(** The status and the code of a message, each with the problem found. *)
Definition message_status (last : string) (schema message : dict) : res (value * list string) :=
  let status := dget message "status" in
  stated ← enumeration schema "status";
  let allowed := py_or stated (strs [COMPLETED; BLOCKED]) in
  known ← value_in status allowed;
  if (known : bool) then Ok (status, []) else
  words ← shown_values allowed;
  Ok (VStr FAILED, [last +:+ ": status is " +:+ py_repr status +:+ "; the schema allows " +:+ words]).
Definition message_code (last : string) (schema message : dict) (status : value) : res (value * list string) :=
  let code := dget message "code" in
  codes ← enumeration schema "code";
  if negb (is_none code) && negb (is_string BLOCKED status) then
    Ok (VNone, [last +:+ ": code " +:+ py_repr code +:+ " is set while the status is " +:+ py_repr status +:+ " rather than " +:+ str_repr BLOCKED])
  else if negb (is_none code) && negb (is_none codes) then
    known ← value_in code codes;
    if (known : bool) then Ok (VStr (py_str code), []) else
    words ← shown_values codes;
    Ok (VNone, [last +:+ ": code " +:+ py_repr code +:+ " is outside the codes the schema allows: " +:+ words])
  else Ok (if is_none code then VNone else VStr (py_str code), []).
Definition message_evidence (last : string) (raw : value) : list string * list string :=
  match raw with
  | VList l => (map py_str l, [])
  | VNone => ([], [])
  | v => ([py_str v], [last +:+ ": evidence is a " +:+ type_name v +:+ " rather than a list"])
  end.

(** [read_last_message]: [file] is what stands at the path, if a file does. *)
Definition read_last_message (last : string) (file : option (res string)) (schema : dict) : res (option dict * value * list string) :=
  match file with
  | None => Ok (None, VNone, [last +:+ " is absent; the run wrote no last message"])
  | Some file =>
      text ← read_text file;
      match loads_str text with
      | inr e => Ok (None, VStr text, [last +:+ ": the last message is not JSON: " +:+ load_error_str e])
      | inl (VDict message) =>
          status ← message_status last schema message;
          code ← message_code last schema message status.1;
          let evidence := message_evidence last (dget message "evidence") in
          outcome ← reported (py_str status.1) code.1 evidence.1;
          Ok (Some outcome, VDict message, status.2 ++ code.2 ++ evidence.2)
      | inl v => Ok (None, v, [last +:+ ": the last message is a " +:+ type_name v +:+ " rather than an object"])
      end
  end.

(** [interpret]: a run that ended by itself, and any run. *)
Definition interpret_ended (exit : option Z) (last : string) (file : option (res string)) (schema : dict) (summary : Summary) (stderr : string)
  : res (dict * value * list string) :=
  r ← read_last_message last file schema;
  let '(outcome, candidate, problems) := r in
  match outcome with
  | Some outcome => Ok (outcome, candidate, problems)
  | None =>
      let tail := stderr_tail stderr in
      r ← reported FAILED VNone (problems ++ ["exit status " +:+ exit_str exit] ++ errors summary ++ (if String.eqb tail "" then [] else [tail]));
      Ok (r, candidate, problems)
  end.
Definition interpret_codex (stop : option Stop) (exit : option Z) (last : string) (file : option (res string)) (schema : dict)
    (summary : Summary) (stderr : string) : res (dict * value * list string) :=
  let ended status code evidence := r ← reported status code evidence; Ok (r, VNone, []) in
  match stop, exit with
  | Some s, _ => ended EXHAUSTED (VStr (stop_dimension s)) [reason s]
  | None, Some z => if (z <? 0)%Z then ended KILLED VNone ["the run ended by signal " +:+ Z_str (- z)]
                    else interpret_ended exit last file schema summary stderr
  | None, None => interpret_ended exit last file schema summary stderr
  end.

(** ** Literals of configuration overrides *)

(** TOML's basic strings: [toml_reads s t] when [t] between quotes denotes [s]. *)
Definition toml_raw (c : ascii) : bool :=
  (Ascii.eqb c "009"%char || byte_in 32 126 c || byte_in 128 255 c) && negb (Ascii.eqb c dquote) && negb (Ascii.eqb c "\"%char).
Definition toml_escape (e : ascii) : option ascii := if Ascii.eqb e slash then None else simple_escape e.
Inductive toml_reads : string → string → Prop :=
| toml_empty : toml_reads "" ""
| toml_plain c s t : toml_raw c = true → toml_reads s t → toml_reads (String c s) (String c t)
| toml_escaped e c s t : toml_escape e = Some c → toml_reads s t → toml_reads (String c s) (String "\"%char (String e t))
| toml_unicode h n s t : String.length h = 4 → hex4 h = Some n → in_range 55296 57343 n = false → toml_reads s t →
    toml_reads (utf8_encode n +:+ s) ("\u" +:+ h +:+ t).

Lemma replace_byte d new s : str_replace (String d "") new s = concat_map_string (λ c, if Ascii.eqb c d then new else String c "") s.
Proof.
  induction s as [|c s IH]; [done|]. cbn [concat_map_string]. rewrite <-IH. destruct (Ascii.eqb_spec c d) as [->|Hn].
  - change (String d s) with (String d "" +:+ s). by apply replace_here.
  - apply replace_past. rewrite starts_with_cons. destruct (Ascii.eqb_spec d c) as [->|]; done.
Qed.
Lemma concat_map_app f a b : concat_map_string f (a +:+ b) = concat_map_string f a +:+ concat_map_string f b.
Proof. induction a as [|c a IH]; [done|]. rewrite str_app_cons. cbn [concat_map_string]. by rewrite IH, str_app_assoc. Qed.
Lemma concat_map_twice f g s : concat_map_string f (concat_map_string g s) = concat_map_string (λ c, concat_map_string f (g c)) s.
Proof. induction s as [|c s IH]; [done|]. cbn [concat_map_string]. by rewrite concat_map_app, IH. Qed.

(** What one byte of a text is written as. *)
Definition toml_byte (c : ascii) : string := concat_map_string (λ c, if Ascii.eqb c (ascii_of_nat 127) then "\u007F" else String c "") (json_escape c).
Lemma toml_body s : toml_string s = String dquote (concat_map_string toml_byte s +:+ String dquote "").
Proof.
  unfold toml_string, json_string, del. rewrite str_app_cons, replace_byte. cbn [concat_map_string]. rewrite concat_map_app.
  f_equal. f_equal. apply concat_map_twice.
Qed.
Lemma toml_byte_forms c : toml_byte c = String c "" ∧ toml_raw c = true ∧ unescaped c = true ∨
  (∃ e, toml_byte c = String "\"%char (String e "") ∧ toml_escape e = Some c ∧ simple_escape e = Some c) ∨
  (∃ h n, toml_byte c = "\u" +:+ h ∧ String.length h = 4 ∧ hex4 h = Some n ∧ in_range 55296 57343 n = false ∧ utf8_encode n = String c "").
Proof.
  bits c; first [left; split_and!; reflexivity|right; left; eexists; split_and!; reflexivity
    |right; right; eexists (String _ (String _ (String _ (String _ "")))), _; split_and!; reflexivity].
Qed.

(** The literal an override carries for a text denotes that text, read as
    TOML, whose strings allow no control character, and read as JSON. *)
Theorem toml_literal_exact s key : ∃ u, toml_value (VStr s) key = Ok (String dquote (u +:+ String dquote "")) ∧ toml_reads s u ∧
  loads_str (String dquote (u +:+ String dquote "")) = inl (VStr s).
Proof.
  exists (concat_map_string toml_byte s). cbn [toml_value]. rewrite toml_body. split; [done|].
  assert (H : toml_reads s (concat_map_string toml_byte s) ∧ chars_of s (concat_map_string toml_byte s)).
  { induction s as [|c s [IH1 IH2]]; [split; constructor|]. cbn [concat_map_string].
    destruct (toml_byte_forms c) as [(-> & H1 & H2)|[(e & -> & H1 & H2)|(h & n & -> & H1 & H2 & H3 & H4)]].
    - split; by constructor.
    - split; by constructor.
    - rewrite str_app_assoc. change (String c s) with (String c "" +:+ s). rewrite <-H4. split; by constructor. }
  split; [apply H|]. set (t := String dquote _).
  assert (Hr : renders (VStr s) t) by (constructor; eexists; split; [apply H|done]).
  pose proof (loads_str_renders _ _ "" "" Hr eq_refl eq_refl) as Hl. by rewrite str_app_nil_r in Hl.
Qed.

(** ** What is reported *)

(** A file that is absent or holds a text. *)
Definition readable (file : option (res string)) : Prop := ∀ f, file = Some f → is_ok (read_text f) = true.
Lemma reported_ok status code evidence : status ∈ STATUSES → reported status code evidence = Ok (outcome_dict status code evidence).
Proof. intros H%elem_str_spec. unfold reported. by rewrite H. Qed.

(** The code of a reported outcome, under the default schema: a stop may state
    one of three codes, the watcher its dimension, and nothing else a code. *)
Definition code_fits (stop : option Stop) (status : string) (code : value) : Prop :=
  match stop with
  | Some s => status = EXHAUSTED ∧ code = VStr (stop_dimension s)
  | None => (status = BLOCKED ∧ (code = VNone ∨ ∃ c, c ∈ BLOCKED_CODES ∧ code = VStr c)) ∨ (status ∈ [COMPLETED; FAILED; KILLED] ∧ code = VNone)
  end.
Lemma eq_string v s : py_eq v (VStr s) = true → v = VStr s.
Proof. destruct v; cbn; try done; try (by destruct f). intros H%String.eqb_eq. by subst. Qed.
Lemma default_status last m : ∃ s p, message_status last DEFAULT_SCHEMA m = Ok (VStr s, p) ∧
  s ∈ [COMPLETED; BLOCKED; FAILED] ∧ (s = FAILED ↔ p ≠ []) ∧ (p = [] → dget m "status" = VStr s).
Proof.
  unfold message_status. change (enumeration DEFAULT_SCHEMA "status") with (Ok (strs [COMPLETED; BLOCKED])). cbn [mbind res_bind].
  change (py_or (strs [COMPLETED; BLOCKED]) (strs [COMPLETED; BLOCKED])) with (VList [VStr COMPLETED; VStr BLOCKED]).
  cbn [value_in existsb]. rewrite orb_false_r. destruct (py_eq (dget m "status") (VStr COMPLETED)) eqn:E1.
  { apply eq_string in E1 as ->. cbn [orb mbind res_bind]. exists COMPLETED, []. split_and!; [done|set_solver|by split|done]. }
  destruct (py_eq (dget m "status") (VStr BLOCKED)) eqn:E2.
  { apply eq_string in E2 as ->. cbn [orb mbind res_bind]. exists BLOCKED, []. split_and!; [done|set_solver|by split|done]. }
  cbn [orb mbind res_bind]. eexists FAILED, _. split_and!; [reflexivity|set_solver|by split|done].
Qed.
Lemma default_code last m s : ∃ c p, message_code last DEFAULT_SCHEMA m (VStr s) = Ok (c, p) ∧
  (c = VNone ∨ s = BLOCKED ∧ ∃ k, k ∈ BLOCKED_CODES ∧ c = VStr k ∧ dget m "code" = VStr k).
Proof.
  unfold message_code. change (enumeration DEFAULT_SCHEMA "code") with (Ok (VList (map VStr BLOCKED_CODES ++ [VNone]))). cbn [mbind res_bind].
  destruct (is_none (dget m "code")) eqn:En; cbn [negb andb].
  { eexists _, _. split; [reflexivity|by left]. }
  cbn [is_string]. destruct (String.eqb_spec s BLOCKED) as [->|]; cbn [negb]; [|eexists _, _; split; [reflexivity|by left]].
  cbn [is_none negb andb value_in]. destruct (existsb _ _) eqn:Ex; cbn [mbind res_bind].
  - eexists _, _. split; [reflexivity|]. right. split; [done|]. apply existsb_exists in Ex as (v & Hv & Hc).
    apply in_app_or in Hv as [Hv|[<-|[]]]; [|destruct (dget m "code") as [| | |f| | |]; try done; by destruct f].
    apply in_map_iff in Hv as (k & <- & Hk). apply eq_string in Hc as ->. exists k. by split; [apply list_elem_of_In|].
  - eexists _, _. split; [reflexivity|by left].
Qed.
Lemma default_message last file : readable file → ∃ o c p, read_last_message last file DEFAULT_SCHEMA = Ok (o, c, p) ∧
  ∀ d, o = Some d → ∃ s k e, d = outcome_dict s k e ∧ s ∈ [COMPLETED; BLOCKED; FAILED] ∧
    (k = VNone ∨ s = BLOCKED ∧ ∃ b, b ∈ BLOCKED_CODES ∧ k = VStr b).
Proof.
  intros Hf. destruct file as [f|]; [|eexists _, _, _; by split]. cbn [read_last_message]. specialize (Hf f eq_refl).
  destruct (read_text f) as [text|]; [|done]. cbn [mbind res_bind]. destruct (loads_str text) as [v|e]; [|eexists _, _, _; by split].
  destruct v as [| | | | | |m]; [eexists _, _, _; by split..|].
  destruct (default_status last m) as (s & p & -> & Hs & _). cbn [mbind res_bind fst snd].
  destruct (default_code last m s) as (c & q & -> & Hc). cbn [mbind res_bind fst snd]. change (py_str (VStr s)) with s.
  rewrite reported_ok by set_solver. cbn [mbind res_bind]. eexists _, _, _. split; [reflexivity|]. intros d [= <-].
  eexists _, _, _. split; [reflexivity|]. split; [done|]. destruct Hc as [?|(? & k & ? & ? & _)]; [by left|right]. eauto.
Qed.

Lemma ended_reported exit last file summary stderr : readable file → ∃ status code evidence candidate problems,
  interpret_ended exit last file DEFAULT_SCHEMA summary stderr = Ok (outcome_dict status code evidence, candidate, problems) ∧
  code_fits None status code ∧ status ≠ KILLED.
Proof.
  intros Hf. unfold interpret_ended. destruct (default_message last file Hf) as (o & c & p & -> & Ho). cbn [mbind res_bind]. destruct o as [d|].
  - destruct (Ho d eq_refl) as (s & k & e & -> & Hs & Hk). eexists _, _, _, _, _. split; [reflexivity|]. split; [|by intros ->; set_solver].
    destruct Hk as [->|(-> & b & Hb & ->)]; [|left; eauto].
    cbn. destruct (decide (s = BLOCKED)) as [->|]; [by left; auto|right]. split; [set_solver|done].
  - cbv zeta. rewrite reported_ok by set_solver. cbn [mbind res_bind]. eexists _, _, _, _, _. split; [reflexivity|]. split; [|done].
    right. split; [set_solver|done].
Qed.

(** Under the default schema a run whose last message is absent or holds a
    text is always reported: exhausted with the dimension the watcher crossed
    whatever else happened, killed after a signal, as the message says when it is
    an object with a status the schema allows, and otherwise failed; and only a
    stop carries one of the three codes a model may report. *)
Theorem codex_outcome_typed stop exit last file summary stderr : readable file →
  ∃ status code evidence candidate problems,
    interpret_codex stop exit last file DEFAULT_SCHEMA summary stderr = Ok (outcome_dict status code evidence, candidate, problems) ∧
    code_fits stop status code ∧ (status = KILLED ↔ stop = None ∧ ∃ z, exit = Some z ∧ (z < 0)%Z).
Proof.
  intros Hf. unfold interpret_codex. destruct stop as [s|].
  { rewrite reported_ok by set_solver. cbn [mbind res_bind]. eexists _, _, _, _, _. split; [reflexivity|]. split; [by split|].
    split; [done|by intros [? _]]. }
  destruct (ended_reported exit last file summary stderr Hf) as (s & c & e & ca & p & Hu & Hc & Hs).
  destruct exit as [z|]; [destruct (Z.ltb_spec z 0) as [Hz|Hz]|].
  - rewrite reported_ok by set_solver. cbn [mbind res_bind]. eexists _, _, _, _, _. split; [reflexivity|]. split; [right; split; [set_solver|done]|].
    split; [eauto|done].
  - exists s, c, e, ca, p. split_and!; [done..|]. split; [done|]. intros (_ & z' & [= <-] & ?). lia.
  - exists s, c, e, ca, p. split_and!; [done..|]. split; [done|]. by intros (_ & z' & ? & _).
Qed.
Definition example_message : option (res string) :=
  Some (Ok (dumps_default (VDict [("status", VStr "blocked"); ("code", VStr "ambiguous-task"); ("evidence", VList [VStr "two readings"])]))).
Definition no_events : Summary := {| thread := None; turns := 0; usage := empty_usage; errors := []; items := []; summary_problems := [] |}.
Lemma codex_outcome_typed_witness : ∃ status code evidence candidate problems,
  interpret_codex None (Some 0%Z) "/a/last.txt" example_message DEFAULT_SCHEMA no_events "" = Ok (outcome_dict status code evidence, candidate, problems) ∧
  code_fits None status code.
Proof.
  assert (Hr : readable example_message) by (intros f [= <-]; vm_compute; reflexivity).
  destruct (codex_outcome_typed None (Some 0%Z) "/a/last.txt" example_message no_events "" Hr) as (s & c & e & ca & p & H & Hc & _).
  exists s, c, e, ca, p. by split.
Defined.
Example message_reported :
  interpret_codex None (Some 0%Z) "/a/last.txt" example_message DEFAULT_SCHEMA no_events "" =
    Ok (outcome_dict "blocked" (VStr "ambiguous-task") ["two readings"],
        VDict [("status", VStr "blocked"); ("code", VStr "ambiguous-task"); ("evidence", VList [VStr "two readings"])], []).
Proof. vm_compute. reflexivity. Qed.
(** A last message that is no text ends the run of the arm instead of
    reporting that it failed. *)
Example unreadable_message_escapes :
  interpret_codex None (Some 1%Z) "/a/last.txt" (Some (Ok (String (ascii_of_nat 255) ""))) DEFAULT_SCHEMA no_events "" =
    Err (ValueError "'utf-8' codec can't decode byte 0xff in position 0: invalid start byte").
Proof. vm_compute. reflexivity. Qed.
