(* ===== verification/RunOutcome.v ===== *)
(** * What an attempt came to

    src/evals/cross_harness/run.py: an arm's report in the grader's form, the
    reduction of the harness's records to a trajectory and the faults that stop
    it, a check suite that could not run, the paths of the grader a trajectory
    names, and the provider outages that end an attempt. *)

From Stdlib Require Import Ascii.
From stdpp Require Import base list sets strings pretty.
From Stdlib Require Import ZArith Lia.
From S2P Require Import Prelude PyValue PyText PyJson PyUnicode JsonText PyPath Trajectory NormalizeFoe NormalizeCodex TaskProtocol RunText Graphs FoeArm RunPlan.

Definition RECOVERY_EXHAUSTED : string := "recovery-exhausted".
Definition WORKFLOW_RECOVERY_BOUNDS : list string := ["max_fires"; "recovery.max_interventions"].
Definition CHECK_SCRIPT_NAME : string := "check".
Definition CHECK_SUITE_UNAVAILABLE : string := "the check suite could not run".
Definition GRADER_DIRECTORY : string := "grader".

(** [protocol_reported]. *)
Definition protocol_reported (r : dict) : res Reported :=
  s ← dict_index r "status";
  let status := py_str s in
  lines ← py_iter (py_or (dget r "evidence") (VList []));
  let evidence := map py_str lines in
  let code := dget r "code" in
  let '(code, evidence) :=
    if negb (is_none code) && negb (String.eqb status BLOCKED) then (VNone, (status +:+ ": " +:+ py_str code) :: evidence)
    else (code, evidence) in
  make_reported {| status := status; code := match code with VNone => VNone | v => VStr (py_str v) end; evidence := join nl evidence |}.

(** ** From records to a trajectory *)

(** What the paths a result names hold: the episode's directory, the standard
    error and the report of the trace check, or the session files, the event
    stream and the last message. *)
Inductive readings : Type :=
| FoeFiles (episode : NormalizeFoe.directory) (stderr_text : res string) (conformance : res value)
| CodexFiles (sessions : option (list (string * res string))) (events : res string) (last_message : NormalizeCodex.message_file).

Section normalize.
(** The letters and digits of Unicode, the reading of ISO timestamps, and the
    name of the class of an exception. *)
Context (word : string → bool) (iso_ms : string → option Z) (class_of : exn → string).

Definition reducible (e : exn) : bool :=
  match e with ValueError _ | OSError _ | KeyError _ | IndexError _ | AttributeError _ | TypeError _ => true | _ => false end.
Definition irreducible (r : ArmResult) (e : exn) : string :=
  "the " +:+ result_harness r +:+ " records could not be reduced to a trajectory: " +:+ class_of e +:+ ": " +:+ exn_str e.
(** The body of the [try]: the trajectory and the report, or the fault of an absent log. *)
Definition reduce (route : string) (r : ArmResult) (f : readings) : res (Trajectory.Trajectory * value + string) :=
  match f with
  | FoeFiles episode stderr_text conformance =>
      there ← dict_index (result_record r) "episode_log_present";
      if negb (truthy there) then
        text ← read_text stderr_text;
        let tail := stderr_tail text in
        Ok (inr ("foe wrote no episode log under " +:+ NormalizeFoe.dir_path episode +:+ ": "
                 +:+ if String.eqb tail "" then "exit status " +:+ exit_str (exit_status r) else tail))
      else
        t ← NormalizeFoe.normalize word episode (Some route);
        report ← match conformance with
                 | Err (RuntimeError m) => Ok (VDict [("valid", VNone); ("error", VStr m)])
                 | c => c
                 end;
        Ok (inl (t, report))
  | CodexFiles sessions events last_message =>
      let stop := dget (result_record r) "stop" in
      let limit := match stop with VDict d => match dget d "dimension" with VNone => None | v => Some (py_str v) end | _ => None end in
      home ← dict_index (result_record r) "codex_home"; stream ← dict_index (result_record r) "events";
      t ← NormalizeCodex.normalize_codex iso_ms word (py_str home) sessions (py_str stream) events last_message (exit_status r) route limit;
      Ok (inl (t, VNone))
  end.
(** [sum(1 for agent ... for call ... if call.ended_ms is not None)]. *)
Definition answered_calls (t : Trajectory.Trajectory) : nat :=
  length (List.filter (λ c, match Trajectory.call_ended_ms c with Some _ => true | None => false end)
            (concat (map Trajectory.model_calls (Trajectory.agents t)))).
(** [normalize_result]: trajectory, report and fault. *)
Definition normalize_result (route : string) (r : ArmResult) (f : readings) : res (option Trajectory.Trajectory * value * option string) :=
  match reduce route r f with
  | Err e => if reducible e then Ok (None, VNone, Some (irreducible r e)) else Err e
  | Ok (inr fault) => Ok (None, VNone, Some fault)
  | Ok (inl (t, report)) =>
      if answered_calls t =? 0 then
        evidence ← dict_index (result_reported r) "evidence";
        Ok (Some t, report, Some ("no model response reached the " +:+ result_harness r +:+ " run: "
              +:+ match evidence with VList (e :: _) => py_str e | _ => "the run reported no evidence" end))
      else Ok (Some t, report, None)
  end.
End normalize.

(** [outcomes_side_by_side]. *)
Definition outcomes_side_by_side (reported : dict) (t : option Trajectory.Trajectory) : res dict :=
  s ← dict_index reported "status";
  let arm := VDict [("status", s); ("code", dget reported "code")] in
  match t with
  | None => Ok [("arm", arm); ("trajectory", VNone); ("agree", VNone)]
  | Some t =>
      let reduced := VDict [("status", VStr (Trajectory.status (Trajectory.outcome t))); ("code", Trajectory.code (Trajectory.outcome t))] in
      Ok [("arm", arm); ("trajectory", reduced); ("agree", VBool (py_eq arm reduced))]
  end.

(** ** A check suite that could not run *)

Definition unavailable_line (log : string) (e : NormalizeFoe.event) : option string :=
  let data := NormalizeFoe.data e in
  if negb (String.eqb (NormalizeFoe.type e) "tool/result") || negb (is_string CHECK_SCRIPT_NAME (dget data "name")) || truthy (dget data "is_error") then None
  else match dget (dict_or_empty (dget data "value")) "stdout" with
       | VStr stdout =>
           match find (starts_with CHECK_SUITE_UNAVAILABLE) (str_splitlines stdout) with
           | Some line => Some (line +:+ " (" +:+ log +:+ " seq " +:+ Z_str (NormalizeFoe.seq e) +:+ ")")
           | None => None
           end
       | _ => None
       end.
Definition log_fault (log : string * res string) : res (option string) :=
  match NormalizeFoe.read_events log.1 log.2 with
  | Ok events => Ok (head (omap (unavailable_line log.1) events))
  | Err (ValueError _) => Ok None
  | Err e => Err e
  end.
(** [check_suite_fault], of the logs below the episode in path order. *)
Fixpoint check_suite_fault (logs : list (string * res string)) : res (option string) :=
  match logs with
  | [] => Ok None
  | log :: logs => fault ← log_fault log; match fault with Some f => Ok (Some f) | None => check_suite_fault logs end
  end.

(** ** Paths of the grader *)

(** [PARENT_STEPS_TO_GRADER.match]. *)
Fixpoint after_steps (fuel : nat) (s : string) : string :=
  match fuel with
  | S fuel => if starts_with "../" s then after_steps fuel (str_drop 3 s) else s
  | 0 => s
  end.
Definition steps_to_grader (s : string) : bool :=
  let rest := after_steps (String.length s) s in
  starts_with "../" s && starts_with GRADER_DIRECTORY rest
  && match str_drop (String.length GRADER_DIRECTORY) rest with
     | EmptyString => true
     | String c t => Ascii.eqb c slash || (Ascii.eqb c newline && String.eqb t "")
     end.
Section grader.
Context (realpath : string → string).
(** The texts an agent named: by a command, a file change or a tool call. *)
Definition named_by (agent : value) : res (list value) :=
  let items key := v ← get_or agent key (VList []); py_iter v in
  commands ← items "commands";
  paths ← map_res (λ c, v ← get_or c "paths_named" (VList []); py_iter v) commands;
  changes ← items "file_changes"; changed ← map_res (λ c, get c "path") changes;
  calls ← items "tool_calls"; summaries ← map_res (λ c, get c "summary") calls;
  Ok (concat paths ++ changed ++ summaries).
(** [os.path.join(workspace, candidate)]. *)
Definition resolved (workspace candidate : string) : string := realpath (if isabs candidate then candidate else workspace +:+ "/" +:+ candidate).
Definition names_grader (grader workspace candidate : string) : bool :=
  (negb (isabs candidate) && steps_to_grader candidate)
  || starts_with (grader +:+ "/") (resolved workspace candidate +:+ "/").
Definition grader_step (grader workspace : string) (named : list string) (candidate : value) : list string :=
  match candidate with
  | VStr c => if String.eqb c "" || elem_str c named then named
              else if names_grader grader workspace c then named ++ [c] else named
  | _ => named
  end.
Definition grader_paths_named (trajectory : option dict) (root : string) : res (list string) :=
  match trajectory with
  | None => Ok []
  | Some t =>
      let grader := realpath (path_join root GRADER_DIRECTORY) in
      let workspace := realpath (path_join root "workspace") in
      agents ← py_iter (dget_or t "agents" (VList []));
      candidates ← map_res named_by agents;
      Ok (fold_left (grader_step grader workspace) (concat candidates) [])
  end.
End grader.

(** ** Provider outages *)

(** The pieces of the patterns: a character in either case, an optional space,
    underscore or hyphen, and a word boundary. *)
Inductive piece : Type := Letter (c : ascii) | Joint | Edge.
Fixpoint letters (s : string) : list piece := match s with String c s => Letter c :: letters s | EmptyString => [] end.
Definition PROVIDER_FAULT_PATTERNS : list (string * list (list piece)) :=
  let code s := Edge :: letters s ++ [Edge] in
  [("a rate limit", [letters "rate" ++ Joint :: letters "limit"; code "429"; letters "too many requests"; letters "usage limit"; letters "quota"]);
   ("a server fault", map code ["500"; "502"; "503"; "504"]
      ++ [letters "server" ++ Joint :: letters "error"; letters "service unavailable"; letters "bad gateway"; letters "gateway timeout"; letters "overloaded"]);
   ("an authentication failure", map code ["401"; "403"]
      ++ [letters "unauthorized"; letters "forbidden"; letters "authentication"; letters "invalid" ++ Joint :: letters "api" ++ Joint :: letters "key";
          letters "not logged in"])].
Section outage.
Context (word : string → bool).
Fixpoint pieces_match (p : list piece) (before : option string) (cs : list string) : bool :=
  match p with
  | [] => true
  | Letter a :: p => match cs with c :: cs => letter_matches a c && pieces_match p (Some c) cs | [] => false end
  | Joint :: p => match cs with c :: cs => elem_str c [" "; "_"; "-"] && pieces_match p (Some c) cs | [] => false end || pieces_match p before cs
  | Edge :: p => at_edge word before (head cs) && pieces_match p before cs
  end.
Fixpoint pieces_search (p : list piece) (before : option string) (cs : list string) : bool :=
  pieces_match p before cs || match cs with c :: cs => pieces_search p (Some c) cs | [] => false end.
(** [re.search(pattern, line, re.IGNORECASE)], of alternatives. *)
Definition pattern_found (alternatives : list (list piece)) (line : string) : bool :=
  existsb (λ p, pieces_search p None (utf8_chars line)) alternatives.

(** [model_authored_evidence]: [read] gives the text of a file. *)
Definition model_authored_evidence (read : string → res string) (r : ArmResult) : res bool :=
  match dget (result_record r) "last_message" with
  | VStr path =>
      if String.eqb path "" then Ok true else
      match read_text (read path) with
      | Ok text => Ok match loads_str text with inl (VDict _) => true | _ => false end
      | Err (OSError _) | Err (ValueError _) => Ok false
      | Err e => Err e
      end
  | _ => Ok true
  end.
Definition line_condition (line : string) : option string :=
  match find (λ c, pattern_found c.2 line) PROVIDER_FAULT_PATTERNS with
  | Some c => Some ("the provider ended the attempt with " +:+ c.1 +:+ ": " +:+ str_strip line)
  | None => None
  end.
(** [provider_outage]. *)
Definition provider_outage (read : string → res string) (r : ArmResult) : res (option string) :=
  let status := py_str (dget (result_reported r) "status") in
  lines ← py_iter (py_or (dget (result_reported r) "evidence") (VList []));
  let evidence := map py_str lines in
  if String.eqb (result_harness r) FOE_HARNESS then
    if negb (String.eqb status BLOCKED) || negb (is_string RECOVERY_EXHAUSTED (dget (result_reported r) "code")) then Ok None else
    let message := match str_strip (join " " evidence) with EmptyString => "the run reported no evidence" | m => m end in
    if existsb (λ bound, occurs bound message) WORKFLOW_RECOVERY_BOUNDS then Ok None
    else Ok (Some ("the provider ended the attempt: foe reported " +:+ BLOCKED +:+ " with the code " +:+ RECOVERY_EXHAUSTED +:+ ": " +:+ message))
  else if negb (String.eqb status FAILED) then Ok None else
  authored ← model_authored_evidence read r;
  errors ← py_iter (py_or (dget (result_record r) "errors") (VList []));
  Ok (head (omap line_condition ((if (authored : bool) then [] else evidence) ++ map py_str errors))).
End outage.

(** ** Reports that can be graded *)

Lemma py_iter_strs l : py_iter (py_or (VList (map VStr l)) (VList [])) = Ok (map VStr l).
Proof. by destruct l. Qed.
(** Every outcome an arm reports reaches the grader: its status stays, a
    code stays with a stop and otherwise begins the evidence, under the status,
    and nothing is refused. *)
Theorem reports_gradable status code evidence : status ∈ STATUSES →
  protocol_reported (outcome_dict status code evidence) =
    Ok (if negb (is_none code) && negb (String.eqb status BLOCKED)
        then {| TaskProtocol.status := status; TaskProtocol.code := VNone;
                TaskProtocol.evidence := join nl ((status +:+ ": " +:+ py_str code) :: evidence) |}
        else {| TaskProtocol.status := status; TaskProtocol.code := match code with VNone => VNone | v => VStr (py_str v) end;
                TaskProtocol.evidence := join nl evidence |}).
Proof.
  intros Hs%elem_str_spec. unfold protocol_reported. change (dict_index (outcome_dict status code evidence) "status") with (Ok (VStr status)).
  cbn [mbind res_bind]. change (dget (outcome_dict status code evidence) "evidence") with (VList (map VStr evidence)).
  change (dget (outcome_dict status code evidence) "code") with code. rewrite py_iter_strs. cbn [mbind res_bind].
  rewrite map_map. change (λ x : string, py_str (VStr x)) with (λ x : string, x). rewrite map_id.
  change (py_str (VStr status)) with status.
  destruct (is_none code) eqn:En; cbn [negb andb].
  - destruct code; try done. unfold make_reported. cbn [TaskProtocol.status TaskProtocol.code]. by rewrite Hs.
  - destruct (String.eqb status BLOCKED) eqn:Eb; cbn [negb]; unfold make_reported; cbn [TaskProtocol.status TaskProtocol.code]; rewrite Hs; cbn.
    + rewrite Eb. by destruct code.
    + done.
Qed.
Lemma reports_gradable_witness :
  protocol_reported (outcome_dict EXHAUSTED (VStr "seconds") ["stopped"]) =
    Ok {| TaskProtocol.status := EXHAUSTED; TaskProtocol.code := VNone; TaskProtocol.evidence := "exhausted: seconds" +:+ nl +:+ "stopped" |}.
Proof. apply (reports_gradable EXHAUSTED (VStr "seconds") ["stopped"]). by apply elem_str_spec. Defined.

(** ** The paths that name the grader *)

(** Components, each with a slash behind it. *)
Definition slashed (l : list string) : string := foldr (λ c s, c +:+ "/" +:+ s) "" l.
Lemma slash_app s : "/" +:+ s = String slash s.
Proof. done. Qed.
Lemma slashed_join l : l ≠ [] → join "/" l +:+ "/" = slashed l.
Proof.
  induction l as [|x [|y l] IH]; [done|done|]. intros _. change (join "/" (x :: y :: l)) with (x +:+ "/" +:+ join "/" (y :: l)).
  rewrite !str_app_assoc, IH by done. done.
Qed.
Lemma slashed_prefix g p : Forall good_part g → Forall good_part p → starts_with (slashed g) (slashed p) = true ↔ g `prefix_of` p.
Proof.
  intros Hg. revert p. induction Hg as [|x g (_ & _ & Hx) _ IH]; intros p Hp.
  { split; [intros _; apply prefix_nil|]. by destruct (slashed p). }
  destruct Hp as [|y p (_ & _ & Hy) Hp]; [split; [by destruct x|by intros ?%prefix_nil_inv]|]. specialize (IH p Hp).
  change (slashed (x :: g)) with (x +:+ "/" +:+ slashed g). change (slashed (y :: p)) with (y +:+ "/" +:+ slashed p).
  assert (H : ∀ x y, has_char slash x = false → has_char slash y = false →
    starts_with (x +:+ "/" +:+ slashed g) (y +:+ "/" +:+ slashed p) = true ↔ x = y ∧ starts_with (slashed g) (slashed p) = true).
  { clear. induction x as [|c x IHx]; intros [|d y] Hx Hy.
    - rewrite !str_app_nil_l, !slash_app, starts_with_cons, Ascii.eqb_refl. naive_solver.
    - cbn [has_char] in Hy. apply orb_false_iff in Hy as [Hd _]. rewrite str_app_nil_l, !slash_app, str_app_cons.
      rewrite starts_with_cons, Hd. naive_solver.
    - cbn [has_char] in Hx. apply orb_false_iff in Hx as [Hc _]. rewrite str_app_nil_l, !slash_app, str_app_cons.
      rewrite starts_with_cons, Ascii.eqb_sym, Hc. naive_solver.
    - cbn [has_char] in Hx, Hy. apply orb_false_iff in Hx as [_ Hx], Hy as [_ Hy]. rewrite !str_app_cons, starts_with_cons.
      destruct (Ascii.eqb_spec c d) as [->|Hne]; cbn [andb]; [rewrite IHx by done; naive_solver|]. split; [done|]. by intros [[= ->] _]. }
  rewrite H, IH by done. split; [intros [-> Hp']; by apply prefix_cons|]. intros Hpre.
  split; [by apply prefix_cons_inv_1 in Hpre|by apply prefix_cons_inv_2 in Hpre].
Qed.
Lemma below_grader p g : normal p → normal g → g ≠ "/" → starts_with (g +:+ "/") (p +:+ "/") = is_relative_to p g.
Proof.
  intros (pp & -> & Hp) (gp & -> & Hg) Hne. unfold is_relative_to. rewrite !path_parts_absolute by done.
  assert (Hgp : gp ≠ []) by (by intros ->). apply Bool.eq_iff_eq_true. rewrite bool_decide_eq_true, <-slashed_prefix by done. unfold absolute.
  rewrite !str_app_assoc, slashed_join, !slash_app by done. rewrite starts_with_cons, Ascii.eqb_refl. cbn [andb].
  destruct pp as [|x pp]; [|by rewrite slashed_join]. destruct gp as [|y gp]; [done|]. cbn [join].
  apply Forall_cons in Hg as [(Hy & _ & Hs) _]. destruct y as [|c y]; [done|].
  change (slashed (String c y :: gp)) with (String c (y +:+ "/" +:+ slashed gp)). change ("" +:+ "/") with (String slash "").
  rewrite starts_with_cons. cbn [has_char] in Hs. apply orb_false_iff in Hs as [Hs _]. rewrite Ascii.eqb_sym, Hs. by split.
Qed.
Section named.
Context (realpath : string → string) (Hreal : ∀ p, normal (realpath p)).
Lemma grader_steps grader workspace l acc : NoDup acc →
  NoDup (fold_left (grader_step realpath grader workspace) l acc) ∧
  ∀ c, c ∈ fold_left (grader_step realpath grader workspace) l acc ↔
    c ∈ acc ∨ (VStr c ∈ l ∧ c ≠ "" ∧ names_grader realpath grader workspace c = true).
Proof.
  revert acc. induction l as [|v l IH]; intros acc Hd; cbn [fold_left].
  { split; [done|]. intros c. split; [by left|]. intros [H|(H & _)]; [done|by apply elem_of_nil in H]. }
  assert (Hstep : (grader_step realpath grader workspace acc v = acc ∧ ∀ c, v = VStr c → c = "" ∨ c ∈ acc ∨ names_grader realpath grader workspace c = false)
    ∨ ∃ c, v = VStr c ∧ c ≠ "" ∧ c ∉ acc ∧ names_grader realpath grader workspace c = true ∧ grader_step realpath grader workspace acc v = acc ++ [c]).
  { destruct v as [| | | |s| |]; try (left; split; [done|by intros]). cbn [grader_step]. destruct (String.eqb_spec s "") as [->|Hs]; cbn [orb].
    { left. split; [done|]. intros c [= <-]. by left. }
    destruct (elem_str s acc) eqn:Es. { left. split; [done|]. intros c [= <-]. right; left. by apply elem_str_spec. }
    apply elem_str_false in Es. destruct (names_grader realpath grader workspace s) eqn:En; [right; by exists s|].
    left. split; [done|]. intros c [= <-]. by right; right. }
  destruct Hstep as [[-> Hv]|(s & -> & Hs & Hn & Hg & ->)].
  - destruct (IH acc Hd) as [H1 H2]. split; [done|]. intros c. rewrite H2, elem_of_cons. split; [naive_solver|].
    intros [H|([He|H] & Hc & Hg)]; [by left| |by right]. destruct (Hv c (eq_sym He)) as [?|[?|Hf]]; [done|by left|]. by rewrite Hf in Hg.
  - destruct (IH (acc ++ [s])) as [H1 H2].
    { apply NoDup_app. split_and!; [done| |apply NoDup_singleton]. intros x Hx Hx'. by apply list_elem_of_singleton in Hx' as ->. }
    split; [done|]. intros c. rewrite H2, elem_of_cons, elem_of_app, list_elem_of_singleton. split.
    + intros [[H| ->]|(H & Hc & Hg')]; [by left|right; by split_and!; [left|..]|right; by split_and!; [right|..]].
    + intros [H|([[= ->]|H] & Hc & Hg')]; [by left; left|by left; right|by right].
Qed.

(** Every path listed was named and leads to the grader, and every one that
    was named and does is listed, once: an absolute path when it resolves to the
    grader directory or below it, a relative one when it does from the workspace,
    or when it steps out of its directory into one named like the grader's. *)
Theorem grader_paths_exact t root named : grader_paths_named realpath (Some t) root = Ok named →
  realpath (path_join root GRADER_DIRECTORY) ≠ "/" →
  ∃ agents texts, py_iter (dget_or t "agents" (VList [])) = Ok agents ∧ map_res named_by agents = Ok texts ∧ NoDup named ∧
    ∀ c, c ∈ named ↔ VStr c ∈ concat texts ∧ c ≠ "" ∧
      ((isabs c = false ∧ steps_to_grader c = true) ∨
       is_relative_to (realpath (if isabs c then c else realpath (path_join root "workspace") +:+ "/" +:+ c)) (realpath (path_join root GRADER_DIRECTORY)) = true).
Proof.
  intros H Hne. unfold grader_paths_named in H. apply res_bind_ok in H as (agents & Ha & H). apply res_bind_ok in H as (texts & Ht & [= <-]).
  exists agents, texts. split; [done|]. split; [done|]. set (g := realpath (path_join root GRADER_DIRECTORY)) in *.
  destruct (grader_steps g (realpath (path_join root "workspace")) (concat texts) [] (NoDup_nil_2)) as [Hd Hs]. split; [done|].
  intros c. rewrite Hs. assert (Hn : names_grader realpath g (realpath (path_join root "workspace")) c = true ↔
    (isabs c = false ∧ steps_to_grader c = true) ∨
    is_relative_to (realpath (if isabs c then c else realpath (path_join root "workspace") +:+ "/" +:+ c)) g = true).
  { unfold names_grader, resolved. rewrite below_grader by (done || apply Hreal). by rewrite orb_true_iff, andb_true_iff, negb_true_iff. }
  rewrite Hn. split; [intros [?%elem_of_nil|?]; done|by right].
Qed.
End named.
Definition example_agents : dict :=
  [("agents", VList [VDict [("commands", VList [VDict [("paths_named", strs ["../../grader/tests"; "src/lib.rs"; "/r/grader/oracle"])]]);
                            ("file_changes", VList [VDict [("path", VStr "/r/grader/oracle")]; VDict [("path", VStr "/r/graders")]])]])].
(** Paths resolved without links and without leaving a directory. *)
Definition plain_realpath (p : string) : string := absolute (path_parts p).
Lemma plain_realpath_normal p : normal (plain_realpath p).
Proof. exists (path_parts p). split; [done|apply path_parts_good]. Qed.
Lemma grader_paths_exact_witness :
  grader_paths_named plain_realpath (Some example_agents) "/r" = Ok ["../../grader/tests"; "/r/grader/oracle"] ∧ NoDup ["../../grader/tests"; "/r/grader/oracle"].
Proof.
  assert (H : grader_paths_named plain_realpath (Some example_agents) "/r" = Ok ["../../grader/tests"; "/r/grader/oracle"]) by (vm_compute; reflexivity).
  split; [exact H|]. assert (Hne : plain_realpath (path_join "/r" GRADER_DIRECTORY) ≠ "/") by (vm_compute; discriminate).
  destruct (grader_paths_exact plain_realpath plain_realpath_normal _ _ _ H Hne) as (agents & texts & _ & _ & Hd & _). exact Hd.
Defined.
