(* ===== verification/RunLaunch.v ===== *)
(** * Launching the attempts

    src/evals/cross_harness/run.py, the second half of [main]: which planned
    attempts are pending, how what an interrupted run left is set aside, the run
    file, the canary in the configuration directory, and the records written as
    the attempts run.  The file system is the one of [TaskRoot]; the run of an
    attempt is an argument. *)

From Stdlib Require Import Ascii.
From stdpp Require Import base gmap sets list strings pretty sorting.
From Stdlib Require Import ZArith Lia.
From S2P Require Import Prelude PyValue PyText PyUnicode JsonText PyPath Sha256 TaskProtocol TaskRoot RunText RunPlan.

Definition RECORDS_DIR : string := "records".
Definition ATTEMPTS_DIR : string := "attempts".
Definition RUN_FILE : string := "run".
Definition INTERRUPTED_SUFFIX : string := "-interrupted-".
Definition CANARY_FILE : string := "AGENTS.md".
Definition CANARY_PREFIX : string := "This sentence is the ".

(** ** Paths and files *)

(** [base / name]. *)
Definition join_at (base : path) (name : string) : path := if isabs name then path_parts name else base ++ path_parts name.
Definition record_path (out : path) (task_ arm : string) (attempt : nat) : path :=
  join_at (join_at (join_at (out ++ [RECORDS_DIR]) task_) arm) (pad2 attempt +:+ ".json").
Definition attempt_path (out : path) (task_ arm : string) (attempt : nat) : path :=
  join_at (join_at (join_at (out ++ [ATTEMPTS_DIR]) task_) arm) (pad2 attempt).
Definition record_of (out : path) (t : triple) : path := record_path out (task_name (task t.1.2)) (arm_name t.2) t.1.1.
Definition attempt_of (out : path) (t : triple) : path := attempt_path out (task_name (task t.1.2)) (arm_name t.2) t.1.1.

(** [path.mkdir(parents=True, exist_ok=True)]. *)
Definition ensure_folders (p : path) : io () :=
  there ← look (λ t, is_folder t p);
  if there : bool then mret () else make_folders p.
(** [write_json]. *)
Definition write_json (p : path) (v : value) : io () :=
  ensure_folders (parent_of p);;
  write_file p (dumps_indented (sort_keys v) +:+ nl).
(** [os.rename] of a directory to a path that does not exist. *)
Definition rename (src dst : path) : io () :=
  call (λ _ t, t) (λ t, if negb (exists_at t src) then (Err (no_such src), t)
                        else if exists_at t dst then (Err (already dst), t)
                        else (Ok (), place dst (subtree src t) (without src t))).

(** [set_aside]: the first free number.  Only so many names can be taken as
    there are entries, so that many rounds and one more find a free one. *)
Definition aside_path (directory : path) (number : nat) : path :=
  parent_of directory ++ [default "" (last directory) +:+ INTERRUPTED_SUFFIX +:+ pad2 number].
Fixpoint set_aside_from (rounds number : nat) (directory : path) : io path :=
  match rounds with
  | 0 => raise OutOfFuel
  | S rounds =>
      let aside := aside_path directory number in
      taken ← look (λ t, exists_at t aside);
      if taken : bool then set_aside_from rounds (S number) directory else rename directory aside;; mret aside
  end.
Definition set_aside (directory : path) : io path :=
  t ← look id; set_aside_from (S (size t)) 1 directory.

(** [run_file_path]: [run.json], or the first free [run-NN.json]. *)
Definition numbered_run_file (out : path) (number : nat) : path := out ++ [RUN_FILE +:+ "-" +:+ pad2 number +:+ ".json"].
Fixpoint free_run_file (rounds number : nat) (out : path) (t : tree) : res path :=
  match rounds with
  | 0 => Err OutOfFuel
  | S rounds => if exists_at t (numbered_run_file out number) then free_run_file rounds (S number) out t else Ok (numbered_run_file out number)
  end.
Definition run_file_path (out : path) : io path :=
  t ← look id;
  if exists_at t (out ++ [RUN_FILE +:+ ".json"]) then lift (free_run_file (S (size t)) 2 out t) else mret (out ++ [RUN_FILE +:+ ".json"]).

(** ** The canary in foe's configuration directory *)

(** [plant_foe_canary], [planted_foe_canary], [foe_canary_present], [remove_foe_canary]. *)
Definition plant_foe_canary (config_dir : path) (sentence : string) : io path :=
  let p := config_dir ++ [CANARY_FILE] in
  t ← look id;
  ours ← (if negb (exists_at t p) then mret true
          else if is_file t p then text ← read_text_at p; mret (starts_with CANARY_PREFIX text) else mret false);
  unless ours (ValueError ("key foe_config_dir names " +:+ shown config_dir +:+ ", and " +:+ shown p
    +:+ " exists there without a canary sentence of this runner; move it or name another directory"));;
  ensure_folders config_dir;;
  write_file p (sentence +:+ nl);;
  mret p.
Definition planted_foe_canary (p : path) (sentence : string) : io dict := λ w,
  match read_file p w with
  | (Err (OSError m), w) => (Err (ValueError ("the foe canary " +:+ shown p +:+ " cannot be read back after planting: " +:+ m)), w)
  | (Err e, w) => (Err e, w)
  | (Ok data, w) =>
      if String.eqb data (sentence +:+ nl) then (Ok [("path", VStr (shown p)); ("sha256", VStr (sha256_hex data))], w)
      else (Err (ValueError ("the foe canary " +:+ shown p +:+ " does not hold the run's sentence after planting")), w)
  end.
Definition foe_canary_present (p : path) (sentence : string) : io bool := λ w,
  match read_text_at p w with
  | (Ok text, w) => (Ok (String.eqb text (sentence +:+ nl)), w)
  | (Err (OSError _), w) | (Err (ValueError _), w) => (Ok false, w)
  | (Err e, w) => (Err e, w)
  end.
Definition remove_foe_canary (p : path) (sentence : string) : io bool :=
  there ← look (λ t, is_file t p);
  if there : bool then
    text ← read_text_at p;
    if String.eqb text (sentence +:+ nl) then unlink false p;; mret true else mret false
  else mret false.

(** ** The attempts *)

(** What is printed before [main] returns 2, nothing launched. *)
Definition refuse {A} (message : string) : io A := raise (RuntimeError message).
Definition refusing {A} (m : io A) (f : exn → option string) : io A := λ w,
  match m w with
  | (Err e, w') => match f e with Some message => refuse message w' | None => (Err e, w') end
  | r => r
  end.
Definition os_error (e : exn) : bool := match e with OSError _ => true | _ => false end.
Definition value_error (e : exn) : bool := match e with ValueError _ => true | _ => false end.

(** One planned attempt: skipped, refused, or pending. *)
Definition pending_step (resume : bool) (out : path) (st : list triple * nat) (t : triple) : io (list triple * nat) :=
  recorded ← look (λ tr, exists_at tr (record_of out t));
  if recorded : bool then
    if resume then mret (st.1, S st.2) else refuse ("a record already exists: " +:+ shown (record_of out t))
  else
    leftover ← look (λ tr, exists_at tr (attempt_of out t));
    (if leftover : bool then
       if resume then
         refusing (set_aside (attempt_of out t))
           (λ e, if os_error e then Some ("the attempt directory " +:+ shown (attempt_of out t) +:+ " could not be set aside: " +:+ exn_str e) else None);;
         mret ()
       else refuse ("an attempt directory already exists without a record: " +:+ shown (attempt_of out t) +:+ "; remove it or choose another out")
     else mret ());;
    mret (st.1 ++ [t], st.2).
Definition pending_of (resume : bool) (out : path) (triples : list triple) : io (list triple * nat) :=
  foldM (pending_step resume out) ([], 0) triples.

(** [try: ... finally: ...]. *)
Definition finally {A B} (m : io A) (c : io B) : io A := λ w,
  match m w with
  | (r, w) => match c w with (Ok _, w) => (r, w) | (Err e, w) => (Err e, w) end
  end.

Section run.
(** The run of an attempt, and whether its record states a deployment fault. *)
Context (run : triple → io dict).
Definition is_fault (record : dict) : bool :=
  is_none (dget record "not_applicable") && negb (is_none (dget record "infrastructure_error")).
Definition run_step (out : path) (faults : nat) (t : triple) : io nat :=
  record ← run t;
  write_json (record_of out t) (VDict record);;
  mret (if is_fault record then S faults else faults).
(** What [main] does after its checks: the pending attempts, how many were
    skipped, and how many attempts had a deployment fault. *)
Definition launch (resume : bool) (out config_dir : path) (sentence : string) (provenance : res dict) (document : tree → dict → dict → res dict) (triples : list triple)
  : io (list triple * nat * nat) :=
  st ← pending_of resume out triples;
  ensure_folders out;;
  stated ← refusing (lift provenance) (λ e, if value_error e then Some (exn_str e) else None);
  run_file ← run_file_path out;
  canary ← refusing (plant_foe_canary config_dir sentence) (λ e, if os_error e || value_error e then Some (exn_str e) else None);
  planted ← (λ w, match planted_foe_canary canary sentence w with
                  | (Err (ValueError m), w) => (remove_foe_canary canary sentence;; refuse m) w
                  | r => r
                  end);
  content ← look (λ t, document t stated planted);
  content ← lift content;
  write_json run_file (VDict content);;
  faults ← finally (foldM (run_step out) 0 st.1) (remove_foe_canary canary sentence);
  mret (st.1, st.2, faults).
End run.

(** ** Numbers and free names *)

Lemma nat_str_first n : 0 < n → ∃ d t, nat_str n = String (pretty_N_char d) t ∧ (0 < d < 10)%N.
Proof.
  intros Hn. unfold nat_str, pretty, pretty_nat, pretty, pretty_N. rewrite decide_False by lia. apply pretty_first. lia.
Qed.
Lemma pad2_inj n m : pad2 n = pad2 m → n = m.
Proof.
  assert (Hz : ∀ s k, 0 < k → "0" +:+ s ≠ nat_str k).
  { intros s k Hk. destruct (nat_str_first k Hk) as (d & t & -> & Hd). intros [= H _].
    assert (Hc : d = 1%N ∨ d = 2%N ∨ d = 3%N ∨ d = 4%N ∨ d = 5%N ∨ d = 6%N ∨ d = 7%N ∨ d = 8%N ∨ d = 9%N) by lia.
    repeat destruct Hc as [->|Hc]; try discriminate H. subst d. discriminate H. }
  unfold pad2. destruct (Nat.ltb_spec n 10), (Nat.ltb_spec m 10); intros Hp.
  - injection Hp as Hp. by apply (inj pretty).
  - by apply Hz in Hp; [|lia].
  - symmetry in Hp. by apply Hz in Hp; [|lia].
  - by apply (inj pretty).
Qed.
Lemma str_app_inj a b c : a +:+ b = a +:+ c → b = c.
Proof. induction a as [|x a IH]; [done|]. rewrite !str_app_cons. intros [= H]. auto. Qed.
Lemma aside_path_inj d n m : aside_path d n = aside_path d m → n = m.
Proof. unfold aside_path. intros H%app_inj_2; [|done]. destruct H as [_ [= H]]. by apply str_app_inj, str_app_inj, pad2_inj in H. Qed.

(** Only so many distinct paths exist. *)
Lemma taken_paths (t : tree) (f : nat → path) i n : (∀ a b, f a = f b → a = b) → (∀ k, i ≤ k < i + n → exists_at t (f k) = true) → n ≤ size t.
Proof.
  intros Hinj Hk. assert (Hsub : (list_to_set (map f (seq i n)) : gset path) ⊆ dom t).
  { intros p. rewrite elem_of_list_to_set, list_elem_of_fmap. intros (k & -> & Hin%elem_of_seq). apply elem_of_dom.
    specialize (Hk k Hin). unfold exists_at in Hk. by destruct (t !! f k). }
  apply subseteq_size in Hsub. rewrite size_dom, size_list_to_set, length_map, length_seq in Hsub; [done|].
  apply (NoDup_fmap_2 f (Inj0 := Hinj)), NoDup_seq.
Qed.

(** ** Setting an attempt aside *)

Lemma rename_fuel src dst w w' : rename src dst w ≠ (Err OutOfFuel, w').
Proof.
  unfold rename, call. destruct (faults w) as [|[x|] fs]; [|done|];
    (destruct (negb _); [done|]; by destruct (exists_at (files w) dst)).
Qed.
Lemma rename_ok src dst w u w' : rename src dst w = (Ok u, w') →
  exists_at (files w) src = true ∧ exists_at (files w) dst = false ∧ files w' = place dst (subtree src (files w)) (without src (files w)).
Proof.
  unfold rename, call. destruct (faults w) as [|[x|] fs]; [|done|];
    (destruct (exists_at (files w) src); [|done]; destruct (exists_at (files w) dst) eqn:Ed; [done|]; by intros [= _ <-]).
Qed.
Lemma rename_err src dst w e w' : rename src dst w = (Err e, w') → files w' = files w.
Proof.
  unfold rename, call. destruct (faults w) as [|[x|] fs]; [|by intros [= _ <-]|];
    (destruct (negb _); [by intros [= _ <-]|]; destruct (exists_at (files w) dst); [by intros [= _ <-]|done]).
Qed.
Lemma set_aside_from_spec d rounds : ∀ i w r w', set_aside_from rounds i d w = (r, w') →
  (∃ k, i ≤ k < i + rounds ∧ exists_at (files w) (aside_path d k) = false ∧
    ((r = Ok (aside_path d k) ∧ exists_at (files w) d = true ∧ files w' = place (aside_path d k) (subtree d (files w)) (without d (files w))) ∨
     (∃ e, r = Err e ∧ e ≠ OutOfFuel ∧ files w' = files w))) ∨
  (∀ k, i ≤ k < i + rounds → exists_at (files w) (aside_path d k) = true).
Proof.
  induction rounds as [|rounds IH]; intros i w r w' H; [right; lia|]. cbn [set_aside_from] in H.
  unfold mbind, io_bind in H. cbn [look] in H. destruct (exists_at (files w) (aside_path d i)) eqn:Ei.
  - apply IH in H as [(k & Hk & H)|H]; [left; exists k; split; [lia|done]|right]. intros k Hk.
    destruct (decide (k = i)) as [->|]; [done|]. apply H. lia.
  - left. exists i. split; [lia|]. split; [done|]. destruct (rename d (aside_path d i) w) as [[u|e] w1] eqn:Er.
    + apply rename_ok in Er as (H1 & _ & H2). injection H as <- <-. left. by split_and!.
    + pose proof Er as Hf. apply rename_err in Hf. injection H as <- <-. right. exists e. split_and!; [done| |done]. intros ->. by apply rename_fuel in Er.
Qed.
Lemma set_aside_cases d w r w' : set_aside d w = (r, w') → ∃ k, exists_at (files w) (aside_path d k) = false ∧
  ((r = Ok (aside_path d k) ∧ exists_at (files w) d = true ∧ files w' = place (aside_path d k) (subtree d (files w)) (without d (files w))) ∨
   (∃ e, r = Err e ∧ e ≠ OutOfFuel ∧ files w' = files w)).
Proof.
  intros H. unfold set_aside in H. unfold mbind, io_bind in H. cbn [look] in H.
  apply set_aside_from_spec in H as [(k & _ & H)|H]; [by exists k|]. exfalso.
  pose proof (taken_paths (files w) (aside_path d) 1 (S (size (files w))) (aside_path_inj d) H). lia.
Qed.
Lemma parent_length (d : path) : d ≠ [] → length (parent_of d) = length d - 1.
Proof. intros H. unfold parent_of. destruct (exists_last H) as (l & x & ->). rewrite removelast_last, length_app. cbn. lia. Qed.

(** Setting an interrupted attempt aside always ends, at a name that was
    free; the directory then stands there whole, nothing else changed, and if
    the renaming fails nothing changed at all. *)
Theorem set_aside_preserves d w r w' : d ≠ [] → set_aside d w = (r, w') → ∃ k, exists_at (files w) (aside_path d k) = false ∧
  ((r = Ok (aside_path d k) ∧
    (∀ q, files w' !! (aside_path d k ++ q) = files w !! (d ++ q)) ∧
    (∀ q, files w' !! (d ++ q) = None) ∧
    (∀ q, (∀ x, q ≠ d ++ x) → (∀ x, q ≠ aside_path d k ++ x) → files w' !! q = files w !! q)) ∨
   (∃ e, r = Err e ∧ e ≠ OutOfFuel ∧ files w' = files w)).
Proof.
  intros Hd H. destruct (set_aside_cases d w r w' H) as (k & Hk & Hr). exists k. split; [done|].
  destruct Hr as [(-> & _ & Hf)|Hr]; [left|by right]. split; [done|]. rewrite Hf.
  assert (Hlen : length (aside_path d k) = length d).
  { unfold aside_path. rewrite length_app, (parent_length d Hd). cbn. destruct d; [done|cbn; lia]. }
  assert (Hne : aside_path d k ≠ d).
  { intros E. apply (f_equal last) in E. unfold aside_path in E. rewrite last_snoc in E. destruct (last d) as [n|]; [|done].
    injection E as E. apply (f_equal String.length) in E. cbn [default] in E. unfold id in E. rewrite !length_str_app in E. cbn in E. lia. }
  assert (Hap : ∀ q x, d ++ q = aside_path d k ++ x → False).
  { intros q x E. apply app_inj_1 in E as [E _]; [by symmetry in E|done]. }
  split_and!.
  - intros q. rewrite lookup_place, strip_prefix_app. by rewrite lookup_subtree.
  - intros q. rewrite lookup_place. replace (strip_prefix (aside_path d k) (d ++ q)) with (@None path).
    + by rewrite lookup_without, strip_prefix_app.
    + symmetry. apply strip_prefix_none. intros x E. by eapply Hap.
  - intros q Hq Ha. rewrite lookup_place. replace (strip_prefix (aside_path d k) q) with (@None path) by (symmetry; by apply strip_prefix_none).
    rewrite lookup_without. by replace (strip_prefix d q) with (@None path) by (symmetry; by apply strip_prefix_none).
Qed.

(** ** Where the records and the attempts stand *)

Lemma digits_lack c x s : (∀ d, pretty_N_char d ≠ c) → has_char c (pretty_N_go x s) = has_char c s.
Proof.
  intros Hc. revert s. induction (N.lt_wf_0 x) as [x _ IH]; intros s. destruct (decide (x = 0%N)) as [->|Hx]; [by rewrite pretty_N_go_0|].
  rewrite pretty_N_go_step by lia. rewrite IH by (apply N.div_lt; lia). cbn [has_char].
  destruct (Ascii.eqb_spec c (pretty_N_char (x mod 10))) as [E|]; [by destruct (Hc (x mod 10)%N)|done].
Qed.
Lemma digit_chars d : pretty_N_char d ≠ "-"%char ∧ pretty_N_char d ≠ slash.
Proof. destruct d as [|[[[[]|[]|]|[[]|[]|]|]|[[[]|[]|]|[[]|[]|]|]|]]; by vm_compute. Qed.
Lemma pad2_lacks c n : (∀ d, pretty_N_char d ≠ c) → has_char c (pad2 n) = false.
Proof.
  intros Hc. assert (H : has_char c (nat_str n) = false).
  { unfold nat_str, pretty, pretty_nat, pretty, pretty_N. case_decide; [|by rewrite digits_lack].
    cbn. destruct (Ascii.eqb_spec c "0"%char) as [->|]; [by destruct (Hc 0%N)|done]. }
  unfold pad2. destruct (n <? 10); [|done]. rewrite str_app_cons. cbn [has_char]. change ("" +:+ nat_str n) with (nat_str n).
  destruct (Ascii.eqb_spec c "0"%char) as [->|]; [by destruct (Hc 0%N)|done].
Qed.
Lemma has_char_app c a b : has_char c (a +:+ b) = has_char c a || has_char c b.
Proof. induction a as [|d a IH]; [done|]. rewrite str_app_cons. cbn [has_char]. by rewrite IH, orb_assoc. Qed.
Lemma pad2_good n s : has_char slash s = false → good_part (pad2 n +:+ s).
Proof.
  intros Hs. split_and!.
  - unfold pad2. destruct (Nat.ltb_spec n 10); [done|]. destruct (nat_str_first n) as (d & t & -> & _); [lia|done].
  - unfold pad2. destruct (Nat.ltb_spec n 10); [done|]. destruct (nat_str_first n) as (d & t & -> & _); [lia|]. rewrite str_app_cons.
    intros [= Hd _]. destruct d as [|[[[[]|[]|]|[[]|[]|]|]|[[[]|[]|]|[[]|[]|]|]|]]; by vm_compute in Hd.
  - rewrite has_char_app, Hs, orb_false_r. apply pad2_lacks, digit_chars.
Qed.
Lemma join_at_good base name : good_part name → join_at base name = base ++ [name].
Proof.
  intros H. unfold join_at. replace (isabs name) with false.
  - f_equal. rewrite <-(path_parts_absolute [name]) by by constructor. unfold absolute. cbn [join].
    unfold path_parts. change (split_on slash ("/" +:+ name)) with ("" :: split_on slash name). by rewrite filter_cons_False.
  - destruct H as (_ & _ & H). destruct name as [|c name]; [done|]. unfold isabs. rewrite starts_with_cons. cbn [has_char] in H.
    apply orb_false_iff in H as [H _]. change "/"%char with slash. by rewrite H.
Qed.

(** The names of a planned attempt are those of directories. *)
Definition plain_names (t : triple) : Prop := good_part (task_name (task t.1.2)) ∧ good_part (arm_name t.2).
Definition key_of (t : triple) : string * string * nat := (task_name (task t.1.2), arm_name t.2, t.1.1).
Lemma record_at out t : plain_names t → record_of out t = out ++ [RECORDS_DIR; (key_of t).1.1; (key_of t).1.2; pad2 (key_of t).2 +:+ ".json"].
Proof.
  intros [H1 H2]. unfold record_of, record_path. rewrite !join_at_good by (done || by apply pad2_good). by rewrite <-!app_assoc.
Qed.
Lemma attempt_at out t : plain_names t → attempt_of out t = out ++ [ATTEMPTS_DIR; (key_of t).1.1; (key_of t).1.2; pad2 (key_of t).2].
Proof.
  intros [H1 H2]. assert (good_part (pad2 t.1.1)) by (rewrite <-(str_app_nil_r (pad2 _)); by apply pad2_good).
  unfold attempt_of, attempt_path. rewrite !join_at_good by done. by rewrite <-!app_assoc.
Qed.
Lemma aside_at out t k : plain_names t → aside_path (attempt_of out t) k =
  out ++ [ATTEMPTS_DIR; (key_of t).1.1; (key_of t).1.2; pad2 (key_of t).2 +:+ INTERRUPTED_SUFFIX +:+ pad2 k].
Proof.
  intros H. rewrite (attempt_at out t H). unfold aside_path, parent_of. change [ATTEMPTS_DIR; ?a; ?b; ?c] with ([ATTEMPTS_DIR; a; b] ++ [c]).
  rewrite app_assoc, removelast_last, last_snoc. by rewrite <-app_assoc.
Qed.
Lemma same_place (out : path) (a b c d a' b' c' d' : string) r r' :
  out ++ [a; b; c; d] ++ r = out ++ [a'; b'; c'; d'] ++ r' → a = a' ∧ b = b' ∧ c = c' ∧ d = d' ∧ r = r'.
Proof. intros H%app_inv_head. by injection H as -> -> -> -> ->. Qed.
Lemma str_app_inj_r a b c : a +:+ c = b +:+ c → a = b.
Proof.
  revert b. induction a as [|x a IH]; intros [|y b]; [done|..].
  - intros H. apply (f_equal String.length) in H. rewrite !length_str_app in H. cbn in H. lia.
  - intros H. apply (f_equal String.length) in H. rewrite !length_str_app in H. cbn in H. lia.
  - rewrite !str_app_cons. intros [= -> H]. f_equal. auto.
Qed.
Lemma record_apart out t t' r r' : plain_names t → plain_names t' → record_of out t ++ r = record_of out t' ++ r' → key_of t = key_of t' ∧ r = r'.
Proof.
  intros H H'. rewrite !record_at by done. rewrite <-!app_assoc. intros (_ & H1 & H2 & H3%str_app_inj_r%pad2_inj & ->)%same_place.
  split; [|done]. destruct (key_of t) as [[]], (key_of t') as [[]]. cbn in *. by subst.
Qed.
Lemma attempt_apart out t t' r r' : plain_names t → plain_names t' → attempt_of out t ++ r = attempt_of out t' ++ r' → key_of t = key_of t' ∧ r = r'.
Proof.
  intros H H'. rewrite !attempt_at by done. rewrite <-!app_assoc. intros (_ & H1 & H2 & H3%pad2_inj & ->)%same_place.
  split; [|done]. destruct (key_of t) as [[]], (key_of t') as [[]]. cbn in *. by subst.
Qed.
Lemma aside_apart out t t' k r r' : plain_names t → plain_names t' → attempt_of out t ++ r ≠ aside_path (attempt_of out t') k ++ r'.
Proof.
  intros H H'. rewrite attempt_at, aside_at by done. rewrite <-!app_assoc. intros (_ & _ & _ & E & _)%same_place.
  apply (f_equal (has_char "-")) in E. rewrite pad2_lacks in E by apply digit_chars.
  rewrite !has_char_app in E. by rewrite orb_true_r in E.
Qed.
Lemma record_not_attempt out t t' r r' : plain_names t → plain_names t' → record_of out t ++ r ≠ attempt_of out t' ++ r'.
Proof. intros H H'. rewrite record_at, attempt_at by done. rewrite <-!app_assoc. by intros (? & _)%same_place. Qed.
Lemma record_not_aside out t t' k r r' : plain_names t → plain_names t' → record_of out t ++ r ≠ aside_path (attempt_of out t') k ++ r'.
Proof. intros H H'. rewrite record_at, aside_at by done. rewrite <-!app_assoc. by intros (? & _)%same_place. Qed.

(** ** Which attempts are pending *)

Section pending.
Context (resume : bool) (out : path) (w0 : world).
Abbreviation recorded t := (exists_at (files w0) (record_of out t)).
Abbreviation left t := (exists_at (files w0) (attempt_of out t)).
(** What was left of an attempt stands beside it, whole. *)
Definition set_beside (t : triple) (w : world) : Prop :=
  ∃ k, ∀ q, files w !! (aside_path (attempt_of out t) k ++ q) = files w0 !! (attempt_of out t ++ q).

Record sorted_out (done rest : list triple) (st : list triple * nat) (w : world) : Prop := {
  so_pending : st.1 = List.filter (λ t, negb (recorded t)) done;
  so_skipped : (st.2 + length st.1)%nat = length done;
  so_resume : resume = false → st.1 = done ∧ ∀ t, t ∈ done → left t = false;
  so_records : ∀ t q, plain_names t → files w !! (record_of out t ++ q) = files w0 !! (record_of out t ++ q);
  so_rest : ∀ t q, t ∈ rest → files w !! (attempt_of out t ++ q) = files w0 !! (attempt_of out t ++ q);
  so_beside : ∀ t, t ∈ done → recorded t = false → left t = true → set_beside t w }.

Lemma refusing_ok {A} (m : io A) f w a w' : refusing m f w = (Ok a, w') → m w = (Ok a, w').
Proof. unfold refusing. destruct (m w) as [[b|e] w1]; [done|]. by destruct (f e). Qed.

Lemma pending_one done t rest st w st' w' : plain_names t → (∀ x, x ∈ done ++ rest → plain_names x) → NoDup (map key_of (done ++ t :: rest)) →
  sorted_out done (t :: rest) st w → pending_step resume out st t w = (Ok st', w') → sorted_out (done ++ [t]) rest st' w'.
Proof.
  intros Hp Hall Hd [H1 H2 H3 H4 H5 H6] H. unfold pending_step in H.
  apply io_bind_ok in H as (rc & w1 & [-> ->]%look_ok & H).
  assert (Erc : exists_at (files w) (record_of out t) = recorded t).
  { unfold exists_at. pose proof (H4 t [] Hp) as E. rewrite !app_nil_r in E. by rewrite E. }
  assert (Elf : exists_at (files w) (attempt_of out t) = left t).
  { unfold exists_at. pose proof (H5 t [] (list_elem_of_here _ _)) as E. rewrite !app_nil_r in E. by rewrite E. }
  assert (Hfresh : ∀ x, x ∈ done ++ rest → key_of x ≠ key_of t).
  { intros x Hx E. rewrite map_app in Hd. cbn [map] in Hd. rewrite NoDup_app in Hd. destruct Hd as (_ & Hdr & Hdt).
    apply elem_of_app in Hx as [Hx|Hx].
    - apply (Hdr (key_of x)); [by apply list_elem_of_fmap_2|]. rewrite E. left.
    - apply NoDup_cons in Hdt as [Hn _]. apply Hn. rewrite <-E. by apply list_elem_of_fmap_2. }
  rewrite Erc in H. destruct (recorded t) eqn:Er.
  - destruct resume eqn:Ers; [|done]. injection H as <- <-. split; cbn [fst snd].
    + rewrite H1, List.filter_app. cbn [List.filter]. by rewrite Er, app_nil_r.
    + rewrite length_app. cbn. lia.
    + intros E. by rewrite E in Ers.
    + exact H4.
    + intros x q Hx. apply H5. by right.
    + intros x [Hx|Hx]%elem_of_app; [by apply H6|]. apply list_elem_of_singleton in Hx as ->. by rewrite Er.
  - apply io_bind_ok in H as (lf & w1 & [-> ->]%look_ok & H). rewrite Elf in H. apply io_bind_ok in H as (u & w2 & Hs & [-> ->]%mret_ok).
    assert (Hgoal : (∀ x q, plain_names x → files w2 !! (record_of out x ++ q) = files w !! (record_of out x ++ q)) →
      (∀ x q, x ∈ rest → files w2 !! (attempt_of out x ++ q) = files w !! (attempt_of out x ++ q)) →
      (∀ x, x ∈ done → recorded x = false → left x = true → set_beside x w2) →
      (left t = true → set_beside t w2) → (resume = false → left t = false) → sorted_out (done ++ [t]) rest (st.1 ++ [t], st.2) w2).
    { intros G1 G2 G3 G4 G5. split; cbn [fst snd].
      - rewrite H1, List.filter_app. cbn [List.filter]. by rewrite Er.
      - rewrite !length_app. cbn. lia.
      - intros Hr. destruct (H3 Hr) as [E1 E2]. rewrite E1. split; [done|]. intros x [Hx|Hx]%elem_of_app; [by apply E2|].
        apply list_elem_of_singleton in Hx as ->. by apply G5.
      - intros x q Hx. by rewrite G1, H4.
      - intros x q Hx. rewrite G2 by done. apply H5. by right.
      - intros x [Hx|Hx]%elem_of_app; [by apply G3|]. apply list_elem_of_singleton in Hx as ->. intros _. apply G4. }
    destruct (left t) eqn:El.
    + destruct resume eqn:Ers; [|done]. apply io_bind_ok in Hs as (aside & w3 & Hs & [-> ->]%mret_ok). apply refusing_ok in Hs.
      assert (Hne : attempt_of out t ≠ []) by (rewrite attempt_at by done; by destruct out).
      assert (Hsa := Hs). destruct (set_aside_cases _ _ _ _ Hs) as (k & Hk & [([= ->] & _ & Hf)|(e & [=] & _)]).
      assert (Hin : ∀ x, strip_prefix (aside_path (attempt_of out t) k) (attempt_of out t ++ x) = None).
      { intros x. apply strip_prefix_none. intros y. by apply aside_apart. }
      assert (Hout : ∀ p, (∀ x, p ≠ attempt_of out t ++ x) → (∀ x, p ≠ aside_path (attempt_of out t) k ++ x) → files w3 !! p = files w !! p).
      { intros p Hp1 Hp2. rewrite Hf, lookup_place. apply strip_prefix_none in Hp1, Hp2. by rewrite Hp2, lookup_without, Hp1. }
      apply Hgoal; [..|intros E; by rewrite E in Ers].
      * intros x q Hx. apply Hout; intros y; [by apply record_not_attempt|by apply record_not_aside].
      * intros x q Hx. assert (Hpx : plain_names x) by (apply Hall, elem_of_app; by right). apply Hout; intros y; [|by apply aside_apart].
        intros [E _]%attempt_apart; [|done..]. by apply (Hfresh x); [apply elem_of_app; right|].
      * intros x Hx Hxr Hxl. destruct (H6 x Hx Hxr Hxl) as [k' Hk']. exists k'. intros q. rewrite <-Hk'.
        assert (Hpx : plain_names x) by (apply Hall, elem_of_app; by left). apply Hout; intros y.
        { intros E. by apply (aside_apart out t x k' y q). }
        intros E. assert (Hkey : key_of x = key_of t); [|by apply (Hfresh x); [apply elem_of_app; left|]].
        assert (aside_path (attempt_of out x) k' = aside_path (attempt_of out t) k) as Ea.
        { apply app_inj_1 in E as [E _]; [done|]. rewrite !aside_at by done. by rewrite !length_app. }
        exfalso. unfold exists_at in Hk, Hxl. specialize (Hk' []). rewrite !app_nil_r, Ea in Hk'. rewrite Hk' in Hk. by destruct (files w0 !! attempt_of out x).
      * intros _. exists k. intros q. rewrite Hf, lookup_place, strip_prefix_app, lookup_subtree. apply H5. by left.
    + apply mret_ok in Hs as [_ ->]. apply Hgoal; done.
Qed.
Lemma pending_all triples st w : (∀ t, t ∈ triples → plain_names t) → NoDup (map key_of triples) →
  pending_of resume out triples w0 = (Ok st, w) → sorted_out triples [] st w.
Proof.
  intros Hall Hd. unfold pending_of. assert (H0 : sorted_out [] triples ([], 0) w0).
  { split; try done; [intros _; split; [done|]|]; by intros ? ?%elem_of_nil. }
  assert (Hgen : ∀ rest done st0 w1, (∀ t, t ∈ done ++ rest → plain_names t) → NoDup (map key_of (done ++ rest)) → sorted_out done rest st0 w1 →
    foldM (pending_step resume out) st0 rest w1 = (Ok st, w) → sorted_out (done ++ rest) [] st w).
  { intros rest. induction rest as [|t rest IH]; intros done st0 w1 Hn Hk Hs H; [injection H as <- <-; by rewrite app_nil_r|].
    cbn [foldM] in H. apply io_bind_ok in H as (st1 & w2 & Hstep & H). change (t :: rest) with ([t] ++ rest). rewrite app_assoc.
    apply (IH (done ++ [t]) st1 w2); [by rewrite <-app_assoc|by rewrite <-app_assoc| |done].
    apply (pending_one done t rest st0 w1); [apply Hn, elem_of_app; right; left| |done..].
    intros x [Hx|Hx]%elem_of_app; apply Hn, elem_of_app; [by left|by right; right]. }
  apply (Hgen triples []); done.
Qed.
End pending.

(** ** What the rest of the launch may change *)

Lemma touches_weaken {A} (P Q : path → Prop) (m : io A) : touches P m → (∀ q, P q → Q q) → touches Q m.
Proof. intros Hm H w r w' E q Hq. eapply Hm; [exact E|]. intros Hp. by apply Hq, H. Qed.
Lemma touches_read {A} (P : path → Prop) (m : io A) : (∀ w r w', m w = (r, w') → files w' = files w) → touches P m.
Proof. intros H w r w' E q _. by rewrite (H _ _ _ E). Qed.
Lemma call_same {A : Type} (g : tree → res A) w r w' : call (λ _ t, t) (λ t, (g t, t)) w = (r, w') → files w' = files w.
Proof. unfold call. intros H. by destruct (faults w) as [|[x|] fs]; injection H as _ <-. Qed.
Lemma read_same p w r w' : read_file p w = (r, w') → files w' = files w.
Proof. apply call_same. Qed.
Lemma read_text_same p w r w' : read_text_at p w = (r, w') → files w' = files w.
Proof.
  unfold read_text_at, mbind, io_bind. destruct (read_file p w) as [[c|e] w1] eqn:E; intros [= _ <-]; by eapply read_same.
Qed.
(** At, above or below a path. *)
Definition around (p q : path) : Prop := above p q ∨ ∃ r, q = p ++ r.
Lemma above_parent (p q : path) : p ≠ [] → q = parent_of p ∨ above (parent_of p) q → above p q.
Proof.
  intros Hp. destruct (exists_last Hp) as (l & x & ->). unfold parent_of. rewrite removelast_last. intros [->|(y & r & ->)].
  - by exists x, [].
  - exists y, (r ++ [x]). by rewrite <-app_assoc.
Qed.
Lemma touches_ensure p : touches (λ q, q = p ∨ above p q) (ensure_folders p).
Proof.
  intros w r w' H. unfold ensure_folders, mbind, io_bind in H. cbn [look] in H. destruct (is_folder (files w) p); [by injection H as <- <-|].
  destruct r as [u|e]; [by apply make_folders_ok in H as [H _]|]. apply make_folders_err in H. intros q Hq. apply H. intros ?. apply Hq. by right.
Qed.
Lemma touches_json p v : p ≠ [] → touches (around p) (write_json p v).
Proof.
  intros Hp. apply keeps_bind; [apply _|..].
  - eapply touches_weaken; [apply touches_ensure|]. intros q Hq. left. by apply above_parent.
  - intros _. eapply touches_weaken; [apply (touches_write (λ q, ∃ r, q = p ++ r)); intros r; by exists r|]. intros q Hq. by right.
Qed.
Lemma write_json_ok p v w u w' : write_json p v w = (Ok u, w') → ∃ text, files w' !! p = Some (File text).
Proof.
  intros (x & w1 & _ & H)%io_bind_ok. apply write_file_ok in H. destruct H as [-> _]. eexists. apply lookup_insert_eq.
Qed.
Lemma touches_finally {A B} P (m : io A) (c : io B) : touches P m → touches P c → touches P (finally m c).
Proof.
  intros Hm Hc w r w' H q Hq. unfold finally in H. destruct (m w) as [r1 w1] eqn:E1. destruct (c w1) as [r2 w2] eqn:E2.
  assert (w' = w2) as -> by (destruct r2; by injection H as <- <-). by rewrite (Hc _ _ _ E2 q Hq), (Hm _ _ _ E1 q Hq).
Qed.
Lemma finally_ok {A B} (m : io A) (c : io B) w a w' : finally m c w = (Ok a, w') → ∃ w1 b, m w = (Ok a, w1) ∧ c w1 = (Ok b, w').
Proof.
  unfold finally. destruct (m w) as [r1 w1]. destruct (c w1) as [[b|e] w2] eqn:E; [|done]. intros [= -> ->]. by exists w1, b.
Qed.
Lemma touches_remove_canary p s : touches (λ q, q = p) (remove_foe_canary p s).
Proof.
  unfold remove_foe_canary. apply keeps_bind; [apply _|apply keeps_look, _|]. intros [|]; [|apply keeps_ret, _].
  apply keeps_bind; [apply _|apply keeps_text, _|]. intros text. destruct (String.eqb _ _); [|apply keeps_ret, _].
  apply keeps_bind; [apply _|by apply touches_unlink|]. intros []. apply keeps_ret, _.
Qed.
Lemma touches_plant dir s : touches (λ q, q = dir ∨ above dir q ∨ ∃ r, q = dir ++ CANARY_FILE :: r) (plant_foe_canary dir s).
Proof.
  unfold plant_foe_canary. cbv zeta. apply keeps_bind; [apply _|apply keeps_look, _|]. intros t. apply keeps_bind; [apply _|..].
  - destruct (negb _); [apply keeps_ret, _|]. destruct (is_file _ _); [|apply keeps_ret, _].
    apply keeps_bind; [apply _|apply keeps_text, _|]. intros ?. apply keeps_ret, _.
  - intros ours. apply keeps_bind; [apply _|apply keeps_unless, _|]. intros []. apply keeps_bind; [apply _|..].
    { eapply touches_weaken; [apply touches_ensure|]. intros q [->|H]; [by left|by right; left]. }
    intros []. apply keeps_bind; [apply _| |intros ?; apply keeps_ret, _].
    eapply touches_weaken; [apply (touches_write (λ q, ∃ r, q = (dir ++ [CANARY_FILE]) ++ r)); intros r; by exists r|].
    intros q (r & ->). right; right. exists r. by rewrite <-app_assoc.
Qed.
Lemma plant_at dir s w p w' : plant_foe_canary dir s w = (Ok p, w') → p = dir ++ [CANARY_FILE].
Proof.
  intros (t & w1 & _ & (o & w2 & _ & (u & w3 & _ & (u2 & w4 & _ & (u3 & w5 & _ & [-> _]%mret_ok)%io_bind_ok)%io_bind_ok)%io_bind_ok)%io_bind_ok)%io_bind_ok.
  done.
Qed.
Lemma planted_same p s w d w' : planted_foe_canary p s w = (d, w') → files w' = files w.
Proof.
  unfold planted_foe_canary. destruct (read_file p w) as [[c|e] w1] eqn:E; apply read_same in E.
  - by destruct (String.eqb _ _); intros [= _ <-].
  - by destruct e; intros [= _ <-].
Qed.
Lemma free_run_at rounds number out t p : free_run_file rounds number out t = Ok p → ∃ k, p = numbered_run_file out k.
Proof.
  revert number. induction rounds as [|rounds IH]; intros number; [done|]. cbn [free_run_file]. destruct (exists_at _ _); [apply IH|].
  intros [= <-]. by exists number.
Qed.
Lemma run_file_at out w p w' : run_file_path out w = (Ok p, w') → w' = w ∧ ∃ s, p = out ++ [s] ∧ s ≠ RECORDS_DIR ∧ s ≠ ATTEMPTS_DIR.
Proof.
  intros (t & w1 & [-> ->]%look_ok & H)%io_bind_ok. destruct (exists_at (id (files w)) _).
  - apply lift_ok in H as [(k & ->)%free_run_at ->]. split; [done|]. by eexists.
  - apply mret_ok in H as [-> ->]. split; [done|]. by eexists.
Qed.

(** ** The records *)

(** Where records and attempts are kept below the output directory. *)
Definition kept (out q : path) : Prop := ∃ x r, q = out ++ x :: r ∧ (x = RECORDS_DIR ∨ x = ATTEMPTS_DIR).
Lemma record_kept out t r : plain_names t → kept out (record_of out t ++ r).
Proof. intros H. rewrite record_at by done. rewrite <-app_assoc. eexists RECORDS_DIR, _. split; [reflexivity|by left]. Qed.
Lemma aside_kept out t k r : plain_names t → kept out (aside_path (attempt_of out t) k ++ r).
Proof. intros H. rewrite aside_at by done. rewrite <-app_assoc. eexists ATTEMPTS_DIR, _. split; [reflexivity|by right]. Qed.

Section records.
Context (run : triple → io dict) (out : path).
(** What an attempt may touch: its directory and what is above it, and anything
    that is not kept below the output directory. *)
Definition within (t : triple) (q : path) : Prop := around (attempt_of out t) q ∨ ¬ kept out q.
Definition affected (t : triple) (q : path) : Prop := within t q ∨ around (record_of out t) q.
Lemma record_nonempty t : plain_names t → record_of out t ≠ [] ∧ attempt_of out t ≠ [].
Proof. intros H. rewrite record_at, attempt_at by done. by destruct out. Qed.
Lemma same_length (p q : path) x r : length p = length q → p ≠ q ++ x :: r.
Proof. intros H E. apply (f_equal length) in E. rewrite length_app in E. cbn in E. lia. Qed.
(** No other record, and nothing set aside, is affected. *)
Lemma record_unaffected t t' : plain_names t → plain_names t' → key_of t ≠ key_of t' → ¬ affected t' (record_of out t).
Proof.
  intros H H' Hk. assert (Hl : length (record_of out t') = length (record_of out t) ∧ length (attempt_of out t') = length (record_of out t)).
  { rewrite !record_at, attempt_at by done. rewrite !length_app. done. }
  intros [[[(x & r & E)|(r & E)]|Hn]|[(x & r & E)|(r & E)]].
  - by eapply (same_length (attempt_of out t') (record_of out t) x r); [apply Hl|].
  - apply (record_not_attempt out t t' [] r H H'). by rewrite app_nil_r.
  - apply Hn. rewrite <-(app_nil_r (record_of out t)). by apply record_kept.
  - by eapply (same_length (record_of out t') (record_of out t) x r); [apply Hl|].
  - rewrite <-(app_nil_r (record_of out t)) in E. by apply record_apart in E as [E _].
Qed.
Lemma aside_unaffected t t' k q : plain_names t → plain_names t' → ¬ affected t' (aside_path (attempt_of out t) k ++ q).
Proof.
  intros H H'. assert (Hl : length (record_of out t') = length (aside_path (attempt_of out t) k) ∧ length (attempt_of out t') = length (aside_path (attempt_of out t) k)).
  { rewrite aside_at, record_at, attempt_at by done. rewrite !length_app. done. }
  intros [[[(x & r & E)|(r & E)]|Hn]|[(x & r & E)|(r & E)]].
  - rewrite <-app_assoc in E. apply (f_equal length) in E. rewrite !length_app in E. destruct Hl as [_ Hl]. rewrite Hl in E. cbn in E. lia.
  - symmetry in E. by apply aside_apart in E.
  - by apply Hn, aside_kept.
  - rewrite <-app_assoc in E. apply (f_equal length) in E. rewrite !length_app in E. destruct Hl as [Hl _]. rewrite Hl in E. cbn in E. lia.
  - symmetry in E. by apply record_not_aside in E.
Qed.
Lemma run_all l n w m w' : (∀ t, t ∈ l → plain_names t ∧ touches (within t) (run t)) → NoDup (map key_of l) →
  foldM (run_step run out) n l w = (Ok m, w') →
  (∀ t, t ∈ l → ∃ text, files w' !! record_of out t = Some (File text)) ∧
  (∀ q, (∀ t, t ∈ l → ¬ affected t q) → files w' !! q = files w !! q) ∧ n ≤ m ≤ n + length l.
Proof.
  revert n w. induction l as [|t l IH]; intros n w Hl Hd H; cbn [foldM] in H.
  { injection H as <- <-. split_and!; [by intros t ?%elem_of_nil|done|lia..]. }
  apply io_bind_ok in H as (n1 & w1 & Hs & H). cbn [map] in Hd. apply NoDup_cons in Hd as [Hn Hd].
  destruct (IH n1 w1) as (H1 & H2 & H3); [|done..|]. { intros x Hx. apply Hl. by right. }
  destruct (Hl t (list_elem_of_here _ _)) as [Hp Ht].
  apply io_bind_ok in Hs as (rec & wr & Hr & Hs). apply io_bind_ok in Hs as (u & wj & Hj & [-> ->]%mret_ok).
  split_and!.
  - intros x [->|Hx]%elem_of_cons; [|by apply H1]. destruct (write_json_ok _ _ _ _ _ Hj) as [text E]. exists text.
    rewrite H2; [done|]. intros y Hy. apply record_unaffected; [done|by apply Hl; right|]. intros E'. apply Hn. rewrite E'. by apply list_elem_of_fmap_2.
  - intros q Hq. rewrite H2 by (intros x Hx; apply Hq; by right). assert (Hqt : ¬ affected t q) by (apply Hq; left).
    rewrite (touches_json _ _ (proj1 (record_nonempty t Hp)) _ _ _ Hj q) by (intros ?; apply Hqt; by right).
    apply (Ht _ _ _ Hr q). intros ?. apply Hqt. by left.
  - destruct (is_fault rec); lia.
  - cbn [length]. destruct (is_fault rec); lia.
Qed.
End records.

(** ** A run that is resumed *)

Lemma kept_not_out out q : kept out q → ¬ (q = out ∨ above out q).
Proof.
  intros (x & r & -> & _) [E|(y & s & E)].
  - apply (f_equal length) in E. rewrite length_app in E. cbn in E. lia.
  - apply (f_equal length) in E. rewrite !length_app in E. cbn in E. lia.
Qed.
Lemma kept_not_run_file out s q : s ≠ RECORDS_DIR → s ≠ ATTEMPTS_DIR → kept out q → ¬ around (out ++ [s]) q.
Proof.
  intros H1 H2 (x & r & -> & Hx) [(y & u & E)|(u & E)].
  - apply (f_equal length) in E. rewrite !length_app in E. cbn in E. lia.
  - rewrite <-app_assoc in E. apply app_inv_head in E. injection E as -> _. by destruct Hx.
Qed.
Lemma kept_not_canary out dir q : (∀ r, dir ≠ out ++ r) → (∀ r, out ≠ dir ++ CANARY_FILE :: r) → kept out q →
  ¬ (q = dir ∨ above dir q ∨ ∃ r, q = dir ++ CANARY_FILE :: r).
Proof.
  intros H1 H2 (x & r & -> & _) [E|[(y & s & E)|(s & E)]].
  - by apply (H1 (x :: r)).
  - apply (H1 (x :: r ++ y :: s)). by rewrite E, <-app_assoc.
  - apply app_eq_app in E as (l & [[E1 E2]|[E1 E2]]).
    + destruct l as [|y l]; [apply (H1 []); by rewrite app_nil_r in *|]. injection E2 as <- _. by apply (H2 l).
    + by apply (H1 l).
Qed.
Lemma launch_steps run resume out config_dir sentence provenance document triples w pending skipped faults w' :
  launch run resume out config_dir sentence provenance document triples w = (Ok (pending, skipped, faults), w') →
  (∀ r, config_dir ≠ out ++ r) → (∀ r, out ≠ config_dir ++ CANARY_FILE :: r) →
  ∃ w1 w2 w3, pending_of resume out triples w = (Ok (pending, skipped), w1) ∧ foldM (run_step run out) 0 pending w2 = (Ok faults, w3) ∧
    (∀ q, kept out q → files w2 !! q = files w1 !! q) ∧ (∀ q, kept out q → files w' !! q = files w3 !! q).
Proof.
  intros H Hc1 Hc2. unfold launch in H. apply io_bind_ok in H as ([pend sk] & w1 & Hp & H). apply io_bind_ok in H as (u & wa & Ha & H).
  apply io_bind_ok in H as (stated & wp & Hpv & H). apply refusing_ok, lift_ok in Hpv as [_ ->].
  apply io_bind_ok in H as (rf & wb & Hb & H). apply run_file_at in Hb as (-> & s & -> & Hs1 & Hs2).
  apply io_bind_ok in H as (canary & wc & Hcn & H). apply refusing_ok in Hcn. assert (Hat := Hcn). apply plant_at in Hat as ->.
  apply io_bind_ok in H as (planted & wd & Hd & H). apply io_bind_ok in H as (made & ? & [_ ->]%look_ok & H).
  apply io_bind_ok in H as (content & ? & [_ ->]%lift_ok & H). apply io_bind_ok in H as (u2 & we & He & H).
  apply io_bind_ok in H as (n & wf & Hf & H). cbn [fst snd] in H. apply mret_ok in H as [E ->]. injection E as -> -> ->.
  apply finally_ok in Hf as (wg & b & Hg & Hrm). assert (Hne : out ++ [s] ≠ []) by (by destruct out).
  exists w1, we, wg. split_and!; [done|done|..].
  - intros q Hq. rewrite (touches_json _ _ Hne _ _ _ He q) by by apply kept_not_run_file.
    assert (files wd = files wc) as ->.
    { destruct (planted_foe_canary _ sentence wc) as [r x] eqn:E. pose proof (planted_same _ _ _ _ _ E) as Hs.
      destruct r as [d|e]; [by injection Hd as <- <-|]. destruct e; try discriminate Hd.
      apply io_bind_ok in Hd as (? & ? & _ & Hd). done. }
    rewrite (touches_plant _ _ _ _ _ Hcn q) by by apply (kept_not_canary out).
    by apply (touches_ensure _ _ _ _ Ha q), (kept_not_out out).
  - intros q Hq. apply (touches_remove_canary _ _ _ _ _ Hrm q). intros ->. apply (kept_not_canary out config_dir _ Hc1 Hc2 Hq). right; right. by exists [].
Qed.

(** What a launch that succeeded has done: it ran the planned attempts that had
    no record, in their order, and no other; every record that was there stays as
    it was, and every planned attempt has one at the end; what an interrupted
    attempt left stands beside it, whole, also after the attempt ran again; and
    unless the run is to be resumed there was no record at all. *)
Record resumed (resume : bool) (out : path) (triples : list triple) (w : world) (pending : list triple) (skipped faults : nat) (w' : world) : Prop := {
  ran_unrecorded : pending = List.filter (λ t, negb (exists_at (files w) (record_of out t))) triples;
  counted : skipped + length pending = length triples ∧ faults ≤ length pending;
  none_recorded : resume = false → pending = triples;
  all_recorded : ∀ t, t ∈ triples →
    if exists_at (files w) (record_of out t) then files w' !! record_of out t = files w !! record_of out t
    else ∃ text, files w' !! record_of out t = Some (File text);
  left_aside : ∀ t, t ∈ pending → exists_at (files w) (attempt_of out t) = true → set_beside out w t w';
}.
(** A run that is started, interrupted and started again loses nothing and
    repeats nothing, whatever its attempts do, as long as of what is kept below the
    output directory each touches its own directory only. *)
Lemma launch_resumes run resume out config_dir sentence provenance document triples w pending skipped faults w' :
  launch run resume out config_dir sentence provenance document triples w = (Ok (pending, skipped, faults), w') →
  (∀ t, t ∈ triples → plain_names t ∧ touches (within out t) (run t)) → NoDup (map key_of triples) →
  (∀ r, config_dir ≠ out ++ r) → (∀ r, out ≠ config_dir ++ CANARY_FILE :: r) →
  resumed resume out triples w pending skipped faults w'.
Proof.
  intros H Hrun Hd Hc1 Hc2. destruct (launch_steps _ _ _ _ _ _ _ _ _ _ _ _ _ H Hc1 Hc2) as (w1 & w2 & w3 & Hp & Hr & H12 & H3).
  assert (Hplain : ∀ t, t ∈ triples → plain_names t) by (intros t Ht; by apply Hrun).
  destruct (pending_all resume out w triples (pending, skipped) w1 Hplain Hd Hp) as [P1 P2 P3 P4 _ P6]. cbn [fst snd] in *.
  assert (Hin : ∀ t, t ∈ pending ↔ exists_at (files w) (record_of out t) = false ∧ t ∈ triples).
  { intros t. rewrite P1, list_elem_of_In, filter_In, <-list_elem_of_In, negb_true_iff. tauto. }
  assert (Hdp : NoDup (map key_of pending)).
  { rewrite P1. revert Hd. generalize triples. intros l. induction l as [|x l IH]; [done|]. cbn [map List.filter]. intros [Hn Hl]%NoDup_cons.
    destruct (negb _); [|by apply IH]. cbn [map]. apply NoDup_cons. split; [|by apply IH]. intros (y & E & Hy)%list_elem_of_fmap.
    apply Hn. rewrite E. apply list_elem_of_fmap_2. by apply list_elem_of_In, filter_In in Hy as [Hy%list_elem_of_In _]. }
  destruct (run_all run out pending 0 w2 faults w3) as (R1 & R2 & R3); [|done|done|]. { intros t Ht. by apply Hrun, Hin. }
  assert (Hrec : ∀ t r, plain_names t → files w2 !! (record_of out t ++ r) = files w !! (record_of out t ++ r)).
  { intros t r Ht. rewrite H12 by by apply record_kept. by apply P4. }
  split; [done|lia|intros Hf; by apply P3| |].
  - intros t Ht. assert (Hk : kept out (record_of out t)) by (rewrite <-(app_nil_r (record_of out t)); by apply record_kept, Hplain).
    destruct (exists_at (files w) (record_of out t)) eqn:Er; rewrite (H3 _ Hk).
    + rewrite R2; [by pose proof (Hrec t [] (Hplain t Ht)) as E; rewrite !app_nil_r in E|].
      intros x Hx. apply record_unaffected; [by apply Hplain|by apply Hplain, Hin|].
      intros E. apply Hin in Hx as [Hx1 Hx2]. unfold record_of, key_of in *. injection E as E1 E2 E3. rewrite <-E1, <-E2, <-E3 in Hx1. by rewrite Hx1 in Er.
    + apply R1, Hin. done.
  - intros t Ht Hl. apply Hin in Ht as [Er Ht]. destruct (P6 t Ht Er Hl) as [k Hk]. exists k. intros q. rewrite <-Hk.
    rewrite H3 by by apply aside_kept, Hplain. rewrite R2 by (intros x Hx; apply aside_unaffected; [by apply Hplain|by apply Hplain, Hin]).
    by apply H12, aside_kept, Hplain.
Qed.

(** ** An example *)

(** Two attempts are planned; one has a record, and the other was interrupted
    and left a log. *)
Definition named_task (n : string) : Task :=
  {| task_name := n; family := "autonomy"; class_name := "solvable"; task_text := ""; correct_statuses := []; correct_codes := [];
     budget := []; protected := []; metadata := []; preserved_on_stop := [] |}.
Definition first_arm : Arm := {| arm_name := "codex-default"; harness := "codex"; kind := "codex"; variant := "default" |}.
Definition demo_triple (n : string) : triple := (1, {| directory := "/t"; task := named_task n |}, first_arm).
Definition demo_out : path := ["out"].
Definition demo_launched : world := {| faults := []; leftovers := []; files := list_to_map (
  map (λ p, (p, Folder)) [[]; ["out"]; ["out"; "records"]; ["out"; "records"; "a"]; ["out"; "records"; "a"; "codex-default"];
    ["out"; "attempts"]; ["out"; "attempts"; "b"]; ["out"; "attempts"; "b"; "codex-default"]; attempt_of demo_out (demo_triple "b"); ["config"]] ++
  [(record_of demo_out (demo_triple "a"), File "{}"); (attempt_of demo_out (demo_triple "b") ++ ["log"], File "spent")]) |}.
Definition demo_run (t : triple) : io dict := ensure_folders (attempt_of demo_out t);; mret [("not_applicable", VNone); ("infrastructure_error", VNone)].
Definition demo_triples : list triple := [demo_triple "a"; demo_triple "b"].
Definition demo_launch : res (list triple * nat * nat) * world :=
  launch demo_run true demo_out ["config"] "This sentence is the canary." (Ok []) (λ _ _ planted, Ok [("canary", VDict planted)]) demo_triples demo_launched.
Lemma demo_launch_ran : demo_launch = (Ok ([demo_triple "b"], 1, 0), demo_launch.2).
Proof. refine (ran_ok demo_launch _ _). vm_compute. reflexivity. Qed.
Lemma demo_names : plain_names (demo_triple "a") ∧ plain_names (demo_triple "b").
Proof. by vm_compute. Qed.
Lemma demo_run_within t : touches (around (attempt_of demo_out t)) (demo_run t).
Proof.
  apply keeps_bind; [apply _| |intros ?; apply keeps_ret, _]. eapply touches_weaken; [apply touches_ensure|].
  intros q [->|H]; [right; exists []; by rewrite app_nil_r|by left].
Qed.
Definition demo_left : path := attempt_of demo_out (demo_triple "b").
Definition demo_aside : res path * world := set_aside demo_left demo_launched.
Lemma demo_aside_ran : demo_aside = (Ok (aside_path demo_left 1), demo_aside.2).
Proof. refine (ran_ok demo_aside _ _). vm_compute. reflexivity. Qed.
Lemma demo_left_nonempty : demo_left ≠ [].
Proof. discriminate. Qed.
Lemma set_aside_preserves_witness : ∃ k, exists_at (files demo_launched) (aside_path demo_left k) = false.
Proof.
  destruct (set_aside_preserves demo_left demo_launched _ demo_aside.2 demo_left_nonempty demo_aside_ran) as [k [Hk _]]. by exists k.
Defined.
