(* ===== verification/Rescore.v ===== *)
(** * Scoring committed attempts again

    src/evals/cross_harness/rescore.py: the fixture of an attempt rebuilt from its
    recipe, the preserved files a stop changed, and the cell of an attempt under
    the second scoring version beside the committed one.  The files are those of
    [TaskRoot]; what git archives and what a patch makes of a tree are
    arguments.  The paths given to the tool are absolute. *)

From Stdlib Require Import Ascii.
From stdpp Require Import base gmap sets list strings pretty.
From Stdlib Require Import ZArith Lia.
From S2P Require Import Prelude PyValue PyText PyJson PyUnicode JsonText PyPath Sha256 StateRoot TaskProtocol TaskRoot RunLaunch.

Definition RESCORED_VERSION : Z := 2.

(** ** The preserved paths *)

Definition preserved_paths (t : Task) : list value :=
  match preserved_on_stop t with
  | [] =>
      if is_str (dget (metadata t) "artifact") && has_key (metadata t) "generator" then [dget (metadata t) "artifact"]
      else if is_str (dget (metadata t) "module") && has_key (metadata t) "frozen_root" then [dget (metadata t) "module"]
      else []
  | l => l
  end.
Definition with_preserved (t : Task) (l : list value) : Task :=
  {| task_name := task_name t; family := family t; class_name := class_name t; task_text := task_text t; correct_statuses := correct_statuses t;
     correct_codes := correct_codes t; budget := budget t; protected := protected t; metadata := metadata t; preserved_on_stop := l |}.

(** ** Fixtures *)

(** What identifies a fixture: the repository, the base commit and the digest of
    the patch. *)
Abbreviation recipe := (string * string * string)%type.
Abbreviation built := (list (recipe * path)).
Definition built_at (b : built) (k : recipe) : option path := snd <$> find (λ kd : recipe * path, bool_decide (kd.1 = k)) b.

Section rescore.
Context (word : string → bool) (has_commit : string → string → res bool) (git_archive : string → string → res tree)
        (git_apply : string → tree → res tree).
(** The directory below which fixtures are rebuilt, and the repository of a task
    that names none. *)
Section fixtures.
Context (scratch : path) (default_repo : string).
Definition source_base (prefix : string) (t : Task) : res (dict * string) :=
  match dget (metadata t) SOURCE_KEY with
  | VDict source =>
      match py_or (dget source "parent") (dget source "commit") with
      | VStr (String _ _ as base) => Ok (source, base)
      | _ => Err (ValueError (prefix +:+ ".commit is " +:+ py_repr (dget source "commit") +:+ "; expected a commit hash"))
      end
  | v => Err (ValueError (prefix +:+ " is " +:+ py_repr v +:+ "; the fixture cannot be rebuilt without a base commit"))
  end.
Definition patch_of (root : path) : path := root ++ [GRADER; WORKSPACE_PATCH].
Definition fixture_at (n : nat) : path := scratch ++ ["fixture-" +:+ nat_str n].
(** [Fixtures.workspace]: the fixture, and what is built after it. *)
Definition workspace (b : built) (root : path) (t : Task) : io (path * built) :=
  let prefix := shown (root ++ [TASK_FILE]) +:+ ": key metadata." +:+ SOURCE_KEY in
  source ← lift (source_base prefix t);
  let base := source.2 in
  let repo := match dget source.1 "repo" with VStr r => path_str r | _ => default_repo end in
  there ← look (λ t, is_file t (patch_of root));
  unless there (OSError (shown (patch_of root) +:+ " is absent; the fixture of " +:+ shown root +:+ " is rebuilt from it"));;
  digest ← sha256_file (patch_of root);
  let key := (repo, base, digest) in
  match built_at b key with
  | Some d => mret (d, b)
  | None =>
      held ← lift (has_commit repo base);
      unless held (ValueError (prefix +:+ " names the base commit " +:+ base +:+ ", which the repository " +:+ repo +:+ " does not contain"));;
      let destination := fixture_at (length b) in
      archive git_archive repo base destination;;
      apply_patch git_apply (patch_of root) destination;;
      mret (destination, b ++ [(key, destination)])
  end.
End fixtures.

(** [changed_preserved]: each file with both digests. *)
Definition digest_value (h : list (string * string)) (k : string) : value := match assoc h k with Some d => VStr d | None => VNone end.
Definition changed_entry (expected observed : list (string * string)) (k : string) : dict :=
  [("path", VStr k); ("fixture_sha256", digest_value expected k); ("observed_sha256", digest_value observed k)].
Definition changed_preserved (fixture workspace_ : path) (paths : list value) : io (list dict) :=
  expected ← hashes_under fixture paths;
  observed ← hashes_under workspace_ paths;
  changed ← lift (changed_files (hashes_value expected) observed);
  mret (map (changed_entry expected observed) changed).

(** ** One attempt *)

Definition SUMMARY_KEYS : list string := ["task"; "arm"; "attempt"; "cell"; "reported"; "grade"; "record"].
Definition label_of (summary : dict) : string :=
  py_str (dget summary "task") +:+ " / " +:+ py_str (dget summary "arm") +:+ " / " +:+ py_str (dget summary "attempt").
Definition recorded_path (v : value) : res string :=
  match v with VStr s => Ok s | v => Err (AttributeError ("'" +:+ type_name v +:+ "' object has no attribute 'startswith'")) end.
(** The grader's form of the report: a code only with a blocked status. *)
Definition reported_in (summary : dict) : res Reported :=
  let reported := dget summary "reported" in
  status_ ← item reported "status"; code_ ← get_or reported "code" VNone;
  make_reported {| status := py_str status_;
                   code := if negb (is_none code_) && String.eqb (py_str status_) BLOCKED then VStr (py_str code_) else VNone; evidence := "" |}.
(** The committed grade; of its lists the cell is told by whether they are empty. *)
Definition texts_of (v : value) : res (list string) := l ← py_iter v; Ok (map py_str l).
Definition graded_in (summary : dict) (changed : list dict) : res GradeResult :=
  let g := dget summary "grade" in
  passed_ ← item g "passed"; findings_ ← item g "findings"; findings_ ← texts_of findings_;
  damage_ ← item g "damage"; damage_ ← texts_of damage_;
  Ok {| passed := truthy passed_; findings := findings_; damage_found := damage_;
        preserved_changed_found := map (λ c, py_str (dget c "path")) changed |}.
Definition rescored (summary : dict) (t : Task) (changed : list dict) : res dict :=
  reported ← reported_in summary; g ← graded_in summary changed;
  recomputed ← classify t reported g 1;
  raise_if (negb (py_eq (VStr recomputed) (dget summary "cell")))
    (ValueError ("attempt " +:+ label_of summary +:+ ": key cell is " +:+ py_repr (dget summary "cell") +:+ ", while scoring version 1 gives "
       +:+ str_repr recomputed +:+ " from the committed grade; the committed cell does not describe the committed grade"));;
  cell ← classify t reported g RESCORED_VERSION;
  Ok [("task", dget summary "task"); ("arm", dget summary "arm"); ("attempt", dget summary "attempt"); ("cell_scoring_1", dget summary "cell");
      ("cell_scoring_2", VStr cell); ("preserved_changed", VList (map VDict changed)); ("scoring_version", VInt RESCORED_VERSION)].
(** Where the attempt of a summary lies, read from its full record. *)
Definition attempt_root (summary : dict) (state_root home : string) : io path :=
  named ← lift (recorded_path (dget summary "record"));
  let record_path := under_state_root named state_root home in
  text ← read_text_at (path_parts record_path);
  record ← lift match loads_str text with inl v => Ok v | inr e => Err (ValueError (load_error_str e)) end;
  paths ← lift (get_or record "paths" VNone);
  recorded_root ← lift (get_or (py_or paths (VDict [])) "root" VNone);
  match recorded_root with
  | VStr r => mret (path_parts (under_state_root r state_root home))
  | v => raise (ValueError (record_path +:+ ": key paths.root is " +:+ py_repr v +:+ "; expected the attempt root"))
  end.
Definition rescore_attempt (scratch : path) (default_repo : string) (state_root home : string) (b : built) (summary : dict) : io (dict * built) :=
  match find (λ k, negb (has_key summary k)) SUMMARY_KEYS with
  | Some k => raise (ValueError ("attempt " +:+ label_of summary +:+ ": key " +:+ k +:+ " is absent from the committed summary"))
  | None =>
      root ← attempt_root summary state_root home;
      t ← load_at word root;
      let paths := preserved_paths t in
      found ← (match paths with
               | [] => mret ([], b)
               | _ =>
                   fixture ← workspace scratch default_repo b root t;
                   changed ← changed_preserved fixture.1 (root ++ [WORKSPACE]) paths;
                   mret (changed, fixture.2)
               end);
      entry ← lift (rescored summary (with_preserved t paths) found.1);
      mret (entry, found.2)
  end.

(** ** The committed array *)

(** A summary that is no object has no [get]. *)
Definition as_summary (v : value) : res dict :=
  match v with VDict d => Ok d | v => Err (AttributeError ("'" +:+ type_name v +:+ "' object has no attribute 'get'")) end.
Definition rescore_step (scratch : path) (default_repo state_root home : string) (st : list dict * built) (v : value) : io (list dict * built) :=
  summary ← lift (as_summary v);
  done_ ← rescore_attempt scratch default_repo state_root home st.2 summary;
  mret (st.1 ++ [done_.1], done_.2).
(** [rescore], in a fresh directory that is removed again. *)
Definition clear_temporary (p : path) : io () := call (λ x t, place p (left_behind x) t) (λ t, (Ok (), without p t)).
Definition rescore_in (temporary : path) (state_root home default_repo : string) (summaries : list value) : io (list dict) :=
  make_folder temporary;;
  st ← finally (foldM (rescore_step temporary default_repo state_root home) ([], []) summaries) (clear_temporary temporary);
  mret st.1.
Definition rescore (records : path) (state_root home default_repo : string) (fresh : tree → path) : io (list dict) :=
  text ← read_text_at records;
  data ← lift match loads_str text with inl v => Ok v | inr e => Err (ValueError (load_error_str e)) end;
  match data with
  | VList summaries => temporary ← look fresh; rescore_in temporary state_root home default_repo summaries
  | _ => raise (ValueError (shown records +:+ ": the document is not an array of attempt summaries"))
  end.
(** [main], of the paths its arguments name: the status, and the entries
    written. *)
Definition rescore_main (records out : path) (state_root home default_repo : string) (fresh : tree → path) : io Z :=
  if bool_decide (out = records) then mret 2%Z else
  λ w, match rescore records state_root home default_repo fresh w with
       | (Err (OSError _), w') | (Err (ValueError _), w') | (Err (KeyError _), w') => (Ok 2%Z, w')
       | (Err e, w') => (Err e, w')
       | (Ok entries, w') =>
           (ensure_folders (parent_of out);; write_file out (dumps_indented (VList (map VDict entries)) +:+ nl);; mret 0%Z) w'
       end.
End rescore.

(** ** One attempt is scored again *)

Definition stopped_status (status_ : string) : bool := negb (elem_str status_ [COMPLETED; KILLED]).
(** What the second version makes of a cell of the first. *)
Lemma rescored_versions t r g c1 c2 : classify t r g 1 = Ok c1 → classify t r g RESCORED_VERSION = Ok c2 →
  c2 = if stopped_status (status r) && nonempty (preserved_changed_found g) then DAMAGE else c1.
Proof.
  unfold classify, stopped_status, RESCORED_VERSION. cbn [SCORING_VERSIONS existsb Z.eqb Pos.eqb orb negb raise_if mbind res_bind Z.leb Z.compare Pos.compare Pos.compare_cont andb].
  destruct (nonempty (damage_found g)); [intros [= <-] [= <-]; by destruct (_ && _)|].
  intros H1. destruct (negb _ && nonempty _); [by intros [= <-]|]. rewrite H1. by intros [= <-].
Qed.

Lemma cell_text c v : py_eq (VStr c) v = true → v = VStr c.
Proof.
  unfold py_eq. destruct v as [| |z|f|s|l|d]; cbn [item_eq]; try done.
  - by destruct f.
  - intros H%String.eqb_eq. congruence.
Qed.
(** The cells an entry states: the committed one, and the second version's. *)
Record cells (summary entry : dict) (changed : list dict) : Prop := {
  named : ∀ k, k ∈ ["task"; "arm"; "attempt"] → dget entry k = dget summary k;
  first_cell : dget entry "cell_scoring_1" = dget summary "cell";
  changes_stated : dget entry "preserved_changed" = VList (map VDict changed);
  second_cell : ∃ status_, item (dget summary "reported") "status" = Ok status_ ∧
    dget entry "cell_scoring_2" = if stopped_status (py_str status_) && nonempty changed then VStr DAMAGE else dget summary "cell";
}.
Lemma rescored_cells summary t changed entry : rescored summary t changed = Ok entry → cells summary entry changed.
Proof.
  unfold rescored. intros (reported & Hr & (g & Hg & (c1 & H1 & (u & Hu%raise_if_ok%negb_false_iff%cell_text & (c2 & H2 & [= <-])%res_bind_ok)%res_bind_ok)%res_bind_ok)%res_bind_ok)%res_bind_ok.
  pose proof (rescored_versions _ _ _ _ _ H1 H2) as Hc. unfold reported_in in Hr. apply res_bind_ok in Hr as (st & Hst & (cd & _ & Hr)%res_bind_ok).
  unfold make_reported in Hr. apply res_bind_ok in Hr as (u1 & _ & (u2 & _ & [= <-])%res_bind_ok). cbn [status] in Hc.
  unfold graded_in in Hg. apply res_bind_ok in Hg as (p & _ & (f & _ & (f' & _ & (d & _ & (d' & _ & [= <-])%res_bind_ok)%res_bind_ok)%res_bind_ok)%res_bind_ok).
  cbn [preserved_changed_found] in Hc. split; [|done|done|].
  - intros k [->|[->|[->|?%elem_of_nil]%elem_of_cons]%elem_of_cons]%elem_of_cons; [reflexivity..|done].
  - exists st. split; [done|]. change (VStr c2 = if stopped_status (py_str st) && nonempty changed then VStr DAMAGE else dget summary "cell").
    rewrite Hc, Hu. destruct changed as [|x changed]; cbn [map nonempty]; by destruct (stopped_status (py_str st)).
Qed.

(** ** Trees below a directory *)

Definition below (d q : path) : Prop := ∃ r, q = d ++ r.
Definition agrees (tmp : path) (w w' : world) : Prop := ∀ q, ¬ below tmp q → files w' !! q = files w !! q.
Lemma subtree_place (d : path) (s t : tree) : subtree d (place d s t) = s.
Proof. apply map_eq. intros q. by rewrite lookup_subtree, lookup_place, strip_prefix_app. Qed.
Lemma parent_app (d r : path) x : parent_of (d ++ r ++ [x]) = d ++ r.
Proof. unfold parent_of. by rewrite app_assoc, removelast_last. Qed.
Lemma wf_place (d : path) (s t : tree) : wf_tree t → wf_tree s → s !! [] = Some Folder → Forall good_part d → d ≠ [] →
  t !! parent_of d = Some Folder → wf_tree (place d s t).
Proof.
  intros Ht Hs H0 Hd Hne Hp q e. rewrite lookup_place. destruct (strip_prefix d q) as [r|] eqn:Er.
  - apply strip_prefix_spec in Er as ->. intros He. destruct (Hs _ _ He) as [Hg Hpar]. split; [by apply Forall_app|]. right.
    rewrite lookup_place. destruct (exists_last (l := d ++ r)) as (l & x & El); [by destruct d|].
    destruct r as [|y r _] using rev_ind.
    + rewrite app_nil_r. replace (strip_prefix d (parent_of d)) with (@None path); [done|]. symmetry. apply strip_prefix_none. intros r E.
      apply (f_equal length) in E. unfold parent_of in E. destruct (exists_last Hne) as (l' & z & ->). rewrite removelast_last, !length_app in E. cbn in E. lia.
    + rewrite parent_app, strip_prefix_app. destruct Hpar as [Hpar|Hpar]; [by destruct r|]. unfold parent_of in Hpar. by rewrite removelast_last in Hpar.
  - intros He. destruct (Ht _ _ He) as [Hg Hpar]. split; [done|]. destruct Hpar as [Hpar|Hpar]; [by left|right]. rewrite lookup_place.
    destruct (strip_prefix d (parent_of q)) as [r|] eqn:E2; [|done]. apply strip_prefix_spec in E2.
    destruct q as [|y q _] using rev_ind; [|].
    + unfold parent_of in E2. cbn in E2. destruct d; [done|]. discriminate.
    + unfold parent_of in E2. rewrite removelast_last in E2. subst q. rewrite <-app_assoc, strip_prefix_app in Er. discriminate.
Qed.

(** ** Fixtures are what git makes of their recipe *)

Section fixtures_hold.
Context (word : string → bool) (has_commit : string → string → res bool) (git_archive : string → string → res tree)
        (git_apply : string → tree → res tree).
(** git makes directories of what it archives and patches. *)
Definition makes_directories : Prop :=
  (∀ r c s, git_archive r c = Ok s → wf_tree s ∧ s !! [] = Some Folder) ∧ (∀ p s s', git_apply p s = Ok s' → wf_tree s' ∧ s' !! [] = Some Folder).
(** A tree of a recipe: the base commit with a patch of that digest over it. *)
Definition made_of (k : recipe) (s : tree) : Prop :=
  ∃ content text data, sha256_hex content = k.2 ∧ read_text (Ok content) = Ok text ∧ git_archive k.1.1 k.1.2 = Ok data ∧
    if String.eqb (str_strip text) "" then s = data else git_apply text data = Ok s.
(** The recipe of an attempt's fixture. *)
Definition recipe_for (default_repo : string) (t : tree) (root : path) (task_ : Task) (k : recipe) : Prop :=
  ∃ prefix source, source_base prefix task_ = Ok (source, k.1.2) ∧
    k.1.1 = (match dget source "repo" with VStr r => path_str r | _ => default_repo end) ∧ digest_at t (patch_of root) = Some k.2.

Section attempts.
Context (tmp : path) (default_repo state_root home : string) (Htmp : Forall good_part tmp) (Hmakes : makes_directories).
Record standing (w0 : world) (b : built) (w : world) : Prop := {
  apart_same : agrees tmp w0 w;
  well_formed : wf_tree (files w);
  tmp_there : files w !! tmp = Some Folder;
  built_here : ∀ k d, (k, d) ∈ b → (∃ n, n < length b ∧ d = fixture_at tmp n) ∧ made_of k (subtree d (files w));
  free_ahead : ∀ n r, length b ≤ n → files w !! (fixture_at tmp n ++ r) = None }.

Lemma fixture_good n : good_part ("fixture-" +:+ nat_str n).
Proof.
  split_and!; [by rewrite str_app_cons|by rewrite str_app_cons|]. rewrite has_char_app. change (has_char slash "fixture-") with false. cbn [orb].
  unfold nat_str, pretty, pretty_nat, pretty, pretty_N. case_decide; [done|]. by rewrite digits_lack by apply digit_chars.
Qed.
Lemma fixture_apart m n q r : fixture_at tmp m ++ q = fixture_at tmp n ++ r → m = n.
Proof.
  unfold fixture_at. rewrite <-!app_assoc. intros H%app_inv_head. pose proof (f_equal (hd "") H) as Hs. cbn [hd app] in Hs.
  apply str_app_inj in Hs. unfold nat_str in Hs. by apply (inj pretty) in Hs.
Qed.
Lemma reads_same {A} (m : io A) P w0 b w a w' : reads m P → standing w0 b w → m w = (Ok a, w') → standing w0 b w' ∧ files w' = files w ∧ P (files w) a.
Proof.
  intros Hm [H1 H2 H3 H4 H5] H. apply Hm in H as (E & _ & HP). split; [|done]. split; unfold agrees; rewrite ?E; done.
Qed.
(** Placing a made tree as a new fixture. *)
Lemma place_standing (b : built) w s : wf_tree (files w) → files w !! tmp = Some Folder → wf_tree s → s !! [] = Some Folder →
  (∀ k d, (k, d) ∈ b → ∃ n, n < length b ∧ d = fixture_at tmp n) →
  let t := place (fixture_at tmp (length b)) s (files w) in
  wf_tree t ∧ t !! tmp = Some Folder ∧ (∀ q, ¬ below tmp q → t !! q = files w !! q) ∧ (∀ k d, (k, d) ∈ b → subtree d t = subtree d (files w)) ∧
  subtree (fixture_at tmp (length b)) t = s.
Proof.
  intros Hwf Ht Hs H0 Hb t. subst t. split_and!.
  - apply wf_place; try done.
    + apply Forall_app. split; [done|]. constructor; [apply fixture_good|done].
    + by destruct tmp.
    + unfold fixture_at, parent_of. by rewrite removelast_last.
  - rewrite lookup_place. replace (strip_prefix _ tmp) with (@None path); [done|]. symmetry. apply strip_prefix_none. intros r E.
    apply (f_equal length) in E. unfold fixture_at in E. rewrite !length_app in E. cbn in E. lia.
  - intros q Hq. rewrite lookup_place. destruct (strip_prefix _ q) as [r|] eqn:E; [|done]. apply strip_prefix_spec in E as ->.
    destruct Hq. unfold fixture_at. rewrite <-app_assoc. by eexists.
  - intros k d Hin. destruct (Hb k d Hin) as (n & Hn & ->). apply map_eq. intros q. rewrite !lookup_subtree, lookup_place.
    destruct (strip_prefix _ _) as [r|] eqn:E; [|done]. apply strip_prefix_spec in E. exfalso.
    apply fixture_apart in E. lia.
  - apply subtree_place.
Qed.

Lemma archive_ok repo base dest w u w' : archive git_archive repo base dest w = (Ok u, w') →
  ∃ data, git_archive repo base = Ok data ∧ files w' = place dest data (files w).
Proof.
  unfold archive. intros (data & w1 & [Hd ->]%lift_ok & H)%io_bind_ok. exists data. split; [done|]. revert H. unfold call.
  destruct (faults w) as [|[x|] fs]; cbn; [|done|]; by intros [= _ <-].
Qed.
Lemma apply_patch_ok patch dest w u w' : apply_patch git_apply patch dest w = (Ok u, w') →
  ∃ content text, files w !! patch = Some (File content) ∧ read_text (Ok content) = Ok text ∧
    if String.eqb (str_strip text) "" then files w' = files w
    else ∃ s, git_apply text (subtree dest (files w)) = Ok s ∧ files w' = place dest s (files w).
Proof.
  unfold apply_patch. intros (text & w1 & H1 & H)%io_bind_ok. unfold read_text_at in H1. apply io_bind_ok in H1 as (content & w2 & Hc & [Ht ->]%lift_ok).
  apply reads_file in Hc as (E & _ & Hc). exists content, text. split; [done|]. split; [done|]. destruct (String.eqb _ _).
  - apply mret_ok in H as [_ ->]. done.
  - revert H. rewrite <-E. unfold call. destruct (faults w2) as [|[x|] fs]; cbn; [|done|];
      (destruct (git_apply text _) as [s|e]; [intros [= _ <-]; by exists s|done]).
Qed.
Lemma built_at_in (b : built) k d : built_at b k = Some d → (k, d) ∈ b.
Proof.
  unfold built_at. destruct (find _ b) as [[k' d']|] eqn:E; [|done]. intros [= <-]. apply find_some in E as [Hin Hk].
  apply bool_decide_eq_true in Hk. cbn in Hk. subst k'. by apply list_elem_of_In.
Qed.

(** What stands after a new fixture is built. *)
Lemma new_standing w0 b w w1 k data s : standing w0 b w → git_archive k.1.1 k.1.2 = Ok data →
  files w1 = place (fixture_at tmp (length b)) s (place (fixture_at tmp (length b)) data (files w)) → wf_tree s → s !! [] = Some Folder → made_of k s →
  standing w0 (b ++ [(k, fixture_at tmp (length b))]) w1.
Proof.
  intros [H1 H2 H3 H4 H5] Hd Hf Hs H0 Hmade. destruct (proj1 Hmakes _ _ _ Hd) as [Hdw Hd0].
  assert (Hb : ∀ k d, (k, d) ∈ b → ∃ n, n < length b ∧ d = fixture_at tmp n) by (intros k' d' Hin; by apply H4 in Hin as [? _]).
  destruct (place_standing b w data H2 H3 Hdw Hd0 Hb) as (P1 & P2 & P3 & P4 & _).
  set (w2 := with_files (place (fixture_at tmp (length b)) data (files w)) w).
  destruct (place_standing b w2 s P1 P2 Hs H0 Hb) as (Q1 & Q2 & Q3 & Q4 & Q5). cbn [files w2 with_files] in *. rewrite <-Hf in *.
  split; [|done|done|..].
  - intros q Hq. rewrite Q3, P3 by done. by apply H1.
  - intros k' d' [Hin|Hin]%elem_of_app.
    + rewrite (Q4 _ _ Hin), (P4 _ _ Hin). destruct (H4 _ _ Hin) as [(n & Hn & ->) Hm]. split; [|done]. exists n. split; [rewrite length_app; cbn; lia|done].
    + apply list_elem_of_singleton in Hin. injection Hin as -> ->. rewrite Q5. split; [|done]. exists (length b). split; [rewrite length_app; cbn; lia|done].
  - intros n r Hn. rewrite length_app in Hn. cbn in Hn. rewrite Hf, !lookup_place.
    replace (strip_prefix (fixture_at tmp (length b)) (fixture_at tmp n ++ r)) with (@None path); [apply H5; lia|].
    symmetry. apply strip_prefix_none. intros r' E%fixture_apart. lia.
Qed.
Lemma workspace_ok w0 b root t w d b' w' : standing w0 b w → workspace has_commit git_archive git_apply tmp default_repo b root t w = (Ok (d, b'), w') →
  standing w0 b' w' ∧ ∃ k, recipe_for default_repo (files w) root t k ∧ made_of k (subtree d (files w')).
Proof.
  intros Hst. unfold workspace. cbv zeta. intros ([source base] & wa & [Hs ->]%lift_ok & H)%io_bind_ok. cbn [fst snd] in H.
  apply io_bind_ok in H as (there & wa & [-> ->]%look_ok & H). apply io_bind_ok in H as (u & wa & [Hthere ->]%unless_ok & H).
  apply io_bind_ok in H as (digest & w1 & Hdg & H). eapply reads_same in Hdg as (Hst1 & E1 & Hdg); [|apply reads_sha256|exact Hst].
  set (repo := match dget source "repo" with VStr r => path_str r | _ => default_repo end) in *.
  assert (Hrec : recipe_for default_repo (files w) root t (repo, base, digest)) by (by eexists _, source).
  destruct (built_at b (repo, base, digest)) as [d'|] eqn:Eb.
  { apply mret_ok in H as [[= -> ->] ->]. split; [done|]. exists (repo, base, digest). split; [done|]. by apply built_at_in, (built_here _ _ _ Hst1) in Eb as [_ ?]. }
  apply io_bind_ok in H as (held & wa & [_ ->]%lift_ok & H). apply io_bind_ok in H as (u1 & wa & [_ ->]%unless_ok & H).
  apply io_bind_ok in H as (u2 & w2 & Ha & H). apply archive_ok in Ha as (data & Hd & E2).
  apply io_bind_ok in H as (u3 & w3 & Hp & H). apply mret_ok in H as [[= -> ->] ->].
  apply apply_patch_ok in Hp as (content & text & Hc & Ht & Hp).
  assert (Hpatch : files w !! patch_of root = Some (File content)).
  { rewrite E2, E1, lookup_place in Hc. destruct (strip_prefix _ (patch_of root)) as [r|] eqn:E; [|done]. apply strip_prefix_spec in E.
    unfold digest_at in Hdg. rewrite E, (free_ahead _ _ _ Hst) in Hdg by done. done. }
  assert (Hdig : sha256_hex content = digest) by (unfold digest_at in Hdg; rewrite Hpatch in Hdg; by injection Hdg).
  assert (Hmk : ∀ s, (if String.eqb (str_strip text) "" then s = data else git_apply text data = Ok s) → made_of (repo, base, digest) s) by (intros s Hs'; by exists content, text, data).
  destruct (String.eqb (str_strip text) "") eqn:Eblank.
  - assert (Hnew : standing w0 (b ++ [((repo, base, digest), fixture_at tmp (length b))]) w3).
    { apply (new_standing w0 b w1 w3 (repo, base, digest) data data Hst1 Hd); [|by apply (proj1 Hmakes _ _ _ Hd)..|by apply Hmk].
      rewrite Hp, E2. apply map_eq. intros q. rewrite !lookup_place. by destruct (strip_prefix _ q). }
    split; [done|]. exists (repo, base, digest). split; [done|]. apply (built_here _ _ _ Hnew). apply elem_of_app. right. by apply list_elem_of_singleton.
  - destruct Hp as (s & Hs' & E3). rewrite E2, subtree_place in Hs'.
    assert (Hnew : standing w0 (b ++ [((repo, base, digest), fixture_at tmp (length b))]) w3).
    { apply (new_standing w0 b w1 w3 (repo, base, digest) data s Hst1 Hd); [by rewrite E3, E2|by apply (proj2 Hmakes _ _ _ Hs')..|by apply Hmk]. }
    split; [done|]. exists (repo, base, digest). split; [done|]. apply (built_here _ _ _ Hnew). apply elem_of_app. right. by apply list_elem_of_singleton.
Qed.

(** The changed files of an attempt are those whose digests differ. *)
Definition changed_names (l : list dict) : list string := map (λ c, py_str (dget c "path")) l.
Definition differs (paths : list value) (fixture workspace_ : path → option string) (q : path) : Prop :=
  below_entry paths q ∧ workspace_ q ≠ fixture q.
Lemma changed_ok w0 b fixture ws paths w l w' : standing w0 b w → changed_preserved fixture ws paths w = (Ok l, w') →
  standing w0 b w' ∧ files w' = files w ∧
  ∀ s, s ∈ changed_names l ↔ ∃ q, s = as_posix q ∧ differs paths (λ q, digest_at (files w) (fixture ++ q)) (λ q, digest_at (files w) (ws ++ q)) q.
Proof.
  intros Hst H. unfold changed_preserved in H. apply io_bind_ok in H as (ex & w1 & He & H).
  eapply reads_same in He as (Hst1 & E1 & He); [|apply reads_hashes_under|exact Hst].
  apply io_bind_ok in H as (ob & w2 & Ho & H). eapply reads_same in Ho as (Hst2 & E2 & Ho); [|apply reads_hashes_under|exact Hst1].
  apply io_bind_ok in H as (ch & w3 & [Hch ->]%lift_ok & H). apply mret_ok in H as [-> ->]. split; [done|]. split; [congruence|].
  pose proof (well_formed _ _ _ Hst) as Hwf. rewrite E1 in Ho. specialize (He Hwf). specialize (Ho Hwf). intros s.
  assert (changed_names (map (changed_entry ex ob) ch) = ch) as -> by (unfold changed_names; rewrite map_map; by apply map_id).
  rewrite (changed_files_spec _ _ _ _ (records_hashes _ _ _ _ He) Hch).
  rewrite (assoc_differ (assoc ex) ob (files w) ws (below_entry paths) (λ q, digest_at (files w) (fixture ++ q))); [|apply He|exact Ho|done|].
  - unfold differs. naive_solver.
  - intros q [d Hq]. by eapply digest_good.
Qed.

(** ** Every entry *)

(** What an entry says of its attempt, whose files are as they were before the
    tool ran. *)
Definition scored_again (w0 : world) (summary entry : dict) : Prop :=
  ∃ root task_ changed w1 w2 w3,
    agrees tmp w0 w1 ∧ attempt_root summary state_root home w1 = (Ok root, w2) ∧ load_at word root w2 = (Ok task_, w3) ∧
    cells summary entry changed ∧
    if nonempty (preserved_paths task_) then
      ∃ k fixture, recipe_for default_repo (files w1) root task_ k ∧ made_of k fixture ∧
        (¬ below tmp root → ¬ below root tmp →
         ∀ s, s ∈ changed_names changed ↔
           ∃ q, s = as_posix q ∧ differs (preserved_paths task_) (digest_at fixture) (λ q, digest_at (files w0) ((root ++ [WORKSPACE]) ++ q)) q)
    else changed = [].
Lemma attempt_ok w0 b summary w entry b' w' : standing w0 b w →
  rescore_attempt word has_commit git_archive git_apply tmp default_repo state_root home b summary w = (Ok (entry, b'), w') →
  standing w0 b' w' ∧ scored_again w0 summary entry.
Proof.
  intros Hst. unfold rescore_attempt. destruct (find _ SUMMARY_KEYS); [done|]. intros (root & w1 & Hr & H)%io_bind_ok.
  assert (Hread : reads (attempt_root summary state_root home) (λ _ _, True)).
  { unfold attempt_root. eapply reads_bind; [apply reads_lift|]. intros ? named_ _ w2 a w3 H2. cbv zeta in H2.
    assert (Hr' : files w3 = files w2 ∧ leftovers w3 = leftovers w2); [|by destruct Hr'].
    apply io_bind_ok in H2 as (text & w4 & Ht & H2). unfold read_text_at in Ht. apply io_bind_ok in Ht as (c & w5 & Hc & [_ ->]%lift_ok).
    apply reads_file in Hc as (Ef & El & _). rewrite <-Ef, <-El. apply io_bind_ok in H2 as (? & ? & [_ ->]%lift_ok & H2).
    apply io_bind_ok in H2 as (? & ? & [_ ->]%lift_ok & H2). apply io_bind_ok in H2 as (rr & ? & [_ ->]%lift_ok & H2).
    destruct rr; try discriminate H2. by apply mret_ok in H2 as [_ ->]. }
  assert (Hr0 := Hr). eapply reads_same in Hr as (Hst1 & E1 & _); [|exact Hread|exact Hst].
  apply io_bind_ok in H as (task_ & w2 & Hl & H). assert (Hl0 := Hl).
  assert (Hload : reads (load_at word root) (λ _ _, True)).
  { unfold load_at. eapply reads_bind; [apply reads_look|]. intros ? there _ w3 a w4 H3. destruct there.
    - apply io_bind_ok in H3 as (c & w5 & Hc & [_ ->]%lift_ok). by apply reads_file in Hc as (? & ? & _).
    - by apply lift_ok in H3 as [_ ->]. }
  eapply reads_same in Hl as (Hst2 & E2 & _); [|exact Hload|exact Hst1]. cbv zeta in H.
  apply io_bind_ok in H as ([changed b1] & w3 & Hf & H). apply io_bind_ok in H as (en & w4 & [Hres ->]%lift_ok & H). apply mret_ok in H as [[= -> ->] ->].
  cbn [fst snd] in *. apply rescored_cells in Hres. destruct (preserved_paths task_) as [|p ps] eqn:Ep.
  { apply mret_ok in Hf as [[= -> ->] ->]. split; [done|]. exists root, task_, [], w, w1, w2. split_and!; try done; [apply Hst|]. by rewrite Ep. }
  rewrite <-Ep in Hf. apply io_bind_ok in Hf as ([fx b2] & w4 & Hw & Hf). apply (workspace_ok w0) in Hw as (Hst3 & k & Hrec & Hmk); [|done].
  cbn [fst snd] in Hf. apply io_bind_ok in Hf as (ch & w5 & Hc & Hf). apply mret_ok in Hf as [[= -> ->] ->].
  apply (changed_ok w0 b2) in Hc as (Hst4 & E4 & Hc); [|done]. split; [done|].
  exists root, task_, ch, w, w1, w2. split_and!; try done; [apply Hst|]. rewrite Ep. cbn [nonempty]. rewrite <-Ep.
  exists k, (subtree fx (files w4)). split; [by rewrite <-E1, <-E2|]. split; [done|]. intros Hout Hin s. rewrite Hc.
  assert (Hag : ∀ q, digest_at (files w4) ((root ++ [WORKSPACE]) ++ q) = digest_at (files w0) ((root ++ [WORKSPACE]) ++ q)).
  { intros q. unfold digest_at. rewrite (apart_same _ _ _ Hst3); [done|]. intros (r & E). rewrite <-!app_assoc in E.
    destruct (app_eq_app _ _ _ _ E) as (l & [[El _]|[El _]]); [apply Hout|apply Hin]; by exists l. }
  assert (Hfx : ∀ q, digest_at (subtree fx (files w4)) q = digest_at (files w4) (fx ++ q)) by (intros q; unfold digest_at; by rewrite lookup_subtree).
  unfold differs. setoid_rewrite Hag. setoid_rewrite Hfx. done.
Qed.
End attempts.
End fixtures_hold.

(** ** The committed array, scored again *)

Section array.
Context (word : string → bool) (has_commit : string → string → res bool) (git_archive : string → string → res tree)
        (git_apply : string → tree → res tree) (default_repo state_root home : string).
Abbreviation attempt tmp := (rescore_attempt word has_commit git_archive git_apply tmp default_repo state_root home).
Abbreviation step tmp := (rescore_step word has_commit git_archive git_apply tmp default_repo state_root home).
Abbreviation again tmp := (scored_again word git_archive git_apply tmp default_repo state_root home).
Abbreviation rescored_array := (rescore word has_commit git_archive git_apply).

(** Whatever fails, only the fresh directory is written. *)
Lemma touches_step tmp st v : touches (below tmp) (step tmp st v).
Proof.
  assert (Hown : ∀ n, owns (below tmp) (fixture_at tmp n)) by (intros n r; unfold fixture_at; rewrite <-app_assoc; by eexists).
  assert (Ha : ∀ n r c, touches (below tmp) (archive git_archive r c (fixture_at tmp n))).
  { intros n r c. unfold archive. apply keeps_bind; [apply _|apply keeps_lift, _|]. intros data. apply touches_call; intros; by apply (place_outside (below tmp)). }
  assert (Hp : ∀ n p, touches (below tmp) (apply_patch git_apply p (fixture_at tmp n))).
  { intros n p. unfold apply_patch. apply keeps_bind; [apply _|apply keeps_text, _|]. intros text. destruct (String.eqb _ _); [apply keeps_ret, _|].
    apply touches_call; intros; [by apply (place_outside (below tmp))|]. destruct (git_apply _ _); [by apply (place_outside (below tmp))|done]. }
  unfold rescore_step, rescore_attempt, attempt_root, workspace, changed_preserved, sha256_file. keep.
Qed.
Lemma touches_clear tmp : touches (below tmp) (clear_temporary tmp).
Proof.
  apply touches_call; intros; [apply (place_outside (below tmp)); [intros r; by exists r|done]|]. cbn. rewrite lookup_without.
  destruct (strip_prefix tmp q) as [r|] eqn:E; [|done]. apply strip_prefix_spec in E as ->. destruct H. by exists r.
Qed.
Lemma touches_rescore tmp summaries : touches (below tmp) (rescore_in word has_commit git_archive git_apply tmp state_root home default_repo summaries).
Proof.
  unfold rescore_in. apply keeps_bind; [apply _|apply touches_folder; exists []; by rewrite app_nil_r|intros u].
  apply keeps_bind; [apply _| |intros st; apply keeps_ret, _].
  apply touches_finally; [apply keeps_loop; [apply _|intros s v; apply touches_step]|apply touches_clear].
Qed.
(** Whatever fails, nothing beside the fresh directory is written. *)
Lemma rescore_touches records fresh w r w' : rescored_array records state_root home default_repo fresh w = (r, w') →
  ∀ q, ¬ below (fresh (files w)) q → files w' !! q = files w !! q.
Proof.
  unfold rescore. intros H q Hq. unfold mbind at 1, io_bind at 1 in H.
  destruct (read_text_at records w) as [[text|e] w1] eqn:Er; pose proof (read_text_same _ _ _ _ Er) as Es; [|injection H as _ <-; by rewrite Es].
  rewrite <-Es in *. unfold mbind at 1, io_bind at 1 in H. unfold lift at 1 in H. destruct (loads_str text) as [v|le]; [|by injection H as _ <-].
  destruct v; try by injection H as _ <-. exact (touches_rescore (fresh (files w1)) l _ _ _ H q Hq).
Qed.

(** Claim C40. A committed array that is scored again has one entry for every attempt, in its
    order.  An entry keeps the committed cell, and the second cell differs from it
    only in being damage, for a stop that changed a preserved file; the changed files
    are exactly those below the preserved paths whose bytes are not those of the
    fixture, the tree git makes of the base commit and a patch of the digest of
    the attempt's, however many attempts share a fixture.  Nothing beside the
    fresh directory is written, and that is removed. *)
Theorem rescore_exact records fresh w entries w' :
  rescored_array records state_root home default_repo fresh w = (Ok entries, w') →
  wf_tree (files w) → Forall good_part (fresh (files w)) → fresh (files w) ≠ [] → makes_directories git_archive git_apply →
  (∀ q, files w' !! q = if decide (is_Some (strip_prefix (fresh (files w)) q)) then None else files w !! q) ∧
  ∃ content text summaries, files w !! records = Some (File content) ∧ read_text (Ok content) = Ok text ∧ loads_str text = inl (VList (map VDict summaries)) ∧
    Forall2 (again (fresh (files w)) w) summaries entries.
Proof.
  intros H Hwf Hgood Hne Hmk. set (tmp := fresh (files w)) in *. unfold rescore in H.
  apply io_bind_ok in H as (text & w1 & Ht & H). unfold read_text_at in Ht. apply io_bind_ok in Ht as (content & wc & Hc & [Htext ->]%lift_ok).
  apply reads_file in Hc as (Ec & _ & Hc). apply io_bind_ok in H as (data & w2 & [Hd ->]%lift_ok & H).
  destruct (loads_str text) as [v|le] eqn:El; [|done]. injection Hd as ->. destruct data as [| | | | |summaries|]; try done.
  apply io_bind_ok in H as (tm & w2 & [-> ->]%look_ok & H). rewrite Ec in H. fold tmp in H. unfold rescore_in in H.
  apply io_bind_ok in H as (u & w3 & Hmf & H). apply io_bind_ok in H as (st & w4 & Hf & H). apply mret_ok in H as [-> ->].
  apply finally_ok in Hf as (w5 & u2 & Hf & Hclear).
  assert (Hmade : files w3 = <[tmp := Folder]> (files w) ∧ files w !! tmp = None ∧ files w !! parent_of tmp = Some Folder).
  { unfold make_folder, call in Hmf. rewrite Ec in Hmf. unfold exists_at, is_folder in Hmf.
    destruct (faults wc) as [|[x|] fs]; [|done|]; (destruct (files w !! tmp) eqn:E1; [done|]); destruct (files w !! parent_of tmp) as [[]|] eqn:E2; try done;
      injection Hmf as _ <-; cbn; by rewrite ?Ec. }
  destruct Hmade as (E3 & Hnone & Hpar).
  assert (Hst : standing git_archive git_apply tmp w [] w3).
  { split.
    - intros q Hq. rewrite E3. apply lookup_insert_ne. intros <-. apply Hq. exists []. by rewrite app_nil_r.
    - rewrite E3. intros q e Hq. destruct (decide (q = tmp)) as [->|Hn].
      + split; [done|right]. rewrite lookup_insert_ne; [done|]. intros E. apply (f_equal length) in E. rewrite parent_length in E by done. destruct tmp; [done|cbn in E; lia].
      + rewrite lookup_insert_ne in Hq by done. destruct (Hwf _ _ Hq) as [Hg Hp]. split; [done|]. destruct Hp as [Hp|Hp]; [by left|right].
        destruct (decide (parent_of q = tmp)) as [->|Hn2]; [apply lookup_insert_eq|by rewrite lookup_insert_ne].
    - rewrite E3. apply lookup_insert_eq.
    - by intros ? ? ?%elem_of_nil.
    - intros n r _. rewrite E3, lookup_insert_ne.
      + unfold fixture_at. rewrite <-app_assoc. by apply nothing_below.
      + intros E. apply (f_equal length) in E. unfold fixture_at in E. rewrite !length_app in E. cbn in E. lia. }
  assert (Hall : ∀ l st0 wa wb st1, standing git_archive git_apply tmp w st0.2 wa → foldM (step tmp) st0 l wa = (Ok st1, wb) →
    standing git_archive git_apply tmp w st1.2 wb ∧ ∃ ds es, l = map VDict ds ∧ st1.1 = st0.1 ++ es ∧ Forall2 (again tmp w) ds es).
  { clear -Hgood Hmk. induction l as [|v l IH]; intros st0 wa wb st1 Hs Hl.
    - apply mret_ok in Hl as [-> ->]. split; [done|]. exists [], []. by rewrite app_nil_r.
    - cbn [foldM] in Hl. apply io_bind_ok in Hl as (st2 & wc & H1 & Hl). unfold rescore_step in H1.
      apply io_bind_ok in H1 as (d & wd & [Hv ->]%lift_ok & H1). apply io_bind_ok in H1 as ([en b'] & we & H1 & H2). apply mret_ok in H2 as [-> ->].
      apply (attempt_ok word has_commit git_archive git_apply tmp default_repo state_root home Hgood Hmk w) in H1 as [Hs1 Hag]; [|done].
      apply IH in Hl as (Hs2 & ds & es & -> & E & Hfa); [|done]. split; [done|]. exists (d :: ds), (en :: es).
      split; [by destruct v; try done; injection Hv as ->|]. split; [rewrite E; cbn [fst]; by rewrite <-app_assoc|by constructor]. }
  apply Hall in Hf as (Hst5 & ds & es & -> & E & Hfa); [|done]. cbn [fst app] in E. rewrite E. split.
  - assert (Ew : files w4 = without tmp (files w5)).
    { unfold clear_temporary, call in Hclear. destruct (faults w5) as [|[x|] fs]; [|done|]; by injection Hclear as _ <-. }
    intros q. rewrite Ew, lookup_without. destruct (strip_prefix tmp q) as [r|] eqn:Es.
    + by rewrite decide_True by by eexists.
    + rewrite decide_False by by intros []. apply (apart_same _ _ _ _ _ _ Hst5). intros [r ->]. by rewrite strip_prefix_app in Es.
  - exists content, text, ds. rewrite <-Ec in *. by split_and!.
Qed.
End array.

(** ** An example *)

(** Two attempts of one task, one that stopped and one that claimed completion,
    both with a preserved file changed. *)
Definition demo_tree_of (content : string) : tree := list_to_map [([], Folder); (["src"], Folder); (["src"; "x.py"], File content)].
Definition demo_archive (repo commit : string) : res tree := Ok (demo_tree_of "old").
Definition demo_apply (patch : string) (s : tree) : res tree := Ok (demo_tree_of "new").
Definition demo_under (name : string) : value := VStr (RECORDED_STATE_ROOT +:+ "/" +:+ name).
Definition demo_summary (n : Z) (status_ cell : string) : dict :=
  [("task", VStr "t"); ("arm", VStr "a"); ("attempt", VInt n); ("cell", VStr cell);
   ("reported", VDict [("status", VStr status_); ("code", if String.eqb status_ BLOCKED then VStr "cannot" else VNone)]);
   ("grade", VDict [("passed", VBool true); ("findings", VList []); ("damage", VList [])]); ("record", demo_under "rec.json")].
Definition demo_summaries : list dict := [demo_summary 1 BLOCKED CORRECT_STOP; demo_summary 2 COMPLETED FALSE_COMPLETION].
Definition demo_task_json : string := match task_document example_task with Ok s => s | Err _ => "" end.
Definition demo_records : world :=
  {| files := list_to_map
       [([], Folder); (["c.json"], File (dumps_compact (VList (map VDict demo_summaries)))); (["tmp"], Folder); (["s"], Folder);
        (["s"; "rec.json"], File (dumps_compact (VDict [("paths", VDict [("root", demo_under "a")])]))); (["s"; "a"], Folder);
        (["s"; "a"; TASK_FILE], File demo_task_json); (["s"; "a"; GRADER], Folder); (["s"; "a"; GRADER; WORKSPACE_PATCH], File "diff");
        (["s"; "a"; WORKSPACE], Folder); (["s"; "a"; WORKSPACE; "src"], Folder); (["s"; "a"; WORKSPACE; "src"; "x.py"], File "odd")];
     faults := []; leftovers := [] |}.
Definition demo_fresh (t : tree) : path := ["tmp"; "rescore-0"].
Definition demo_rescored : res (list dict) * world :=
  rescore ascii_word (λ _ _, Ok true) demo_archive demo_apply ["c.json"] "/s" "/home" "/repo" demo_fresh demo_records.
Definition entries_of (r : res (list dict)) : list dict := match r with Ok l => l | Err _ => [] end.
Example demo_cells :
  map (λ e, (dget e "cell_scoring_1", dget e "cell_scoring_2")) (entries_of demo_rescored.1) =
  [(VStr CORRECT_STOP, VStr DAMAGE); (VStr FALSE_COMPLETION, VStr FALSE_COMPLETION)].
Proof. vm_compute. reflexivity. Qed.
Lemma demo_rescored_ok : demo_rescored = (Ok (entries_of demo_rescored.1), demo_rescored.2).
Proof. refine (ran_ok demo_rescored _ _). vm_compute. reflexivity. Qed.
Lemma demo_records_wf : wf_tree (files demo_records).
Proof. refine (decided _ _). vm_compute. reflexivity. Qed.
Lemma demo_tree_wf c : wf_tree (demo_tree_of c) ∧ demo_tree_of c !! [] = Some Folder.
Proof.
  split; [|done]. intros q e Hq. apply elem_of_list_to_map_2 in Hq.
  assert (Hg : ∀ l, bool_decide (Forall good_part l) = true → Forall good_part l) by (intros l; apply bool_decide_eq_true_1).
  repeat (apply elem_of_cons in Hq as [Hq|Hq]); [injection Hq as -> ->..|by apply elem_of_nil in Hq]; (split; [by apply Hg|]); [by left|by right..].
Qed.
Lemma rescore_exact_witness :
  (∀ q, files demo_rescored.2 !! q = if decide (is_Some (strip_prefix (demo_fresh (files demo_records)) q)) then None else files demo_records !! q) ∧
  ∃ content text summaries, files demo_records !! ["c.json"] = Some (File content) ∧ read_text (Ok content) = Ok text ∧
    loads_str text = inl (VList (map VDict summaries)) ∧
    Forall2 (scored_again ascii_word demo_archive demo_apply (demo_fresh (files demo_records)) "/repo" "/s" "/home" demo_records) summaries (entries_of demo_rescored.1).
Proof.
  refine (rescore_exact ascii_word (λ _ _, Ok true) demo_archive demo_apply "/repo" "/s" "/home" ["c.json"] demo_fresh demo_records _ _ demo_rescored_ok
            demo_records_wf _ _ _).
  - apply (bool_decide_eq_true_1 _). vm_compute. reflexivity.
  - discriminate.
  - split; [intros r c s [= <-]|intros p s s' [= <-]]; apply demo_tree_wf.
Defined.
