(* ===== verification/RunDocument.v ===== *)
(** * The document of a run

    src/evals/cross_harness/run.py: the run document, read key by key and
    resolved, and the tasks below the directory it names.  What is executable,
    what stands on the search path and the home directories are arguments. *)

From Stdlib Require Import Ascii.
From stdpp Require Import base gmap sets list strings pretty sorting.
From Stdlib Require Import ZArith Lia.
From S2P Require Import Prelude PyValue PyText PyJson PyUnicode JsonText PyPath BudgetWatcher Trajectory Graphs RunText RunPlan TaskProtocol TaskRoot RunLaunch.

Definition DOCUMENT_KEYS : list string :=
  ["tasks"; "select"; "arms"; "attempts"; "resume"; "model"; "budget"; "tool_roots"; "harnesses"; "out"; "grader_timeout"; "source_root"; "foe_config_dir"].
Definition MODEL_KEYS : list string := ["route"; "name"; "effort"; "base_url"; "codex_wire_api"].
Definition HARNESS_KEYS : list string := ["foe"; "codex"; "credential"].
Definition CODEX_WIRE_APIS : list string := ["chat"; "responses"].
Definition DEFAULT_EFFORT : string := "medium".
Definition DEFAULT_GRADER_TIMEOUT_SECONDS : Z := 1320.
Definition DEFAULT_FOE : string := "target/debug/foe".
Definition DEFAULT_CODEX : string := "codex".
Definition DEFAULT_CREDENTIAL : string := "~/.codex/auth.json".
Definition DEFAULT_OUT_ROOT : string := "~/.local/state/foe/cross-harness".
Definition DEFAULT_FOE_CONFIG_DIR : string := "~/.config/foe".
Definition DEFAULT_CODEX_WIRE_API : string := "chat".
Definition GIT_ENTRY : string := ".git".

(** ** Typed reads *)

Record Keyed : Type := { document : path; keyed_data : dict; key_prefix : string }.
Section keyed.
Context (k : Keyed).
(** [Keyed.error]. *)
Definition key_error (key rule : string) : exn := ValueError (shown (document k) +:+ ": key " +:+ key_prefix k +:+ key +:+ " " +:+ rule).
Definition refuse_unknown (known : list string) : res () :=
  match find (λ key, negb (elem_str key known)) (keys (keyed_data k)) with
  | Some key => Err (key_error key ("is unknown; the keys are " +:+ join ", " known))
  | None => Ok ()
  end.
Definition from_choices (choices : option (list string)) : string := match choices with Some l => " from " +:+ join ", " l | None => "" end.
Definition string_at (key : string) (default_ : option string) (choices : option (list string)) (required : bool) : res (option string) :=
  match dget_or (keyed_data k) key (option_str default_) with
  | VNone => if required then Err (key_error key ("is absent; expected a non-empty string" +:+ from_choices choices)) else Ok None
  | v =>
      match v with
      | VStr (String _ _ as s) =>
          match choices with
          | Some l => if elem_str s l then Ok (Some s) else Err (key_error key ("is " +:+ py_repr v +:+ "; expected one of " +:+ join ", " l))
          | None => Ok (Some s)
          end
      | v => Err (key_error key ("is " +:+ py_repr v +:+ "; expected a non-empty string"))
      end
  end.
Definition required_string (key : string) (choices : option (list string)) : res string :=
  s ← string_at key None choices true; Ok (default "" s).
Definition boolean_at (key : string) (default_ : bool) : res bool :=
  match dget_or (keyed_data k) key (VBool default_) with
  | VBool b => Ok b
  | v => Err (key_error key ("is " +:+ py_repr v +:+ "; expected true or false"))
  end.
Definition positive_integer (key : string) (default_ : Z) : res Z :=
  let refused v := Err (key_error key ("is " +:+ py_repr v +:+ "; expected a positive integer")) in
  match dget_or (keyed_data k) key (VInt default_) with
  | VInt z => if (z <? 1)%Z then refused (VInt z) else Ok z
  | v => refused v
  end.
Definition strings_at (key : string) : res (option (list string)) :=
  let refused v := Err (key_error key ("is " +:+ py_repr v +:+ "; expected a list of non-empty strings")) in
  match dget (keyed_data k) key with
  | VNone => Ok None
  | VList l => if forallb (λ x, is_str x && truthy x) l then Ok (Some (omap as_str l)) else refused (VList l)
  | v => refused v
  end.
Definition obj (key : string) (known : list string) (required : bool) : res (path * dict * string) :=
  let expected := "expected an object with the keys " +:+ join ", " known in
  data ← (match dget (keyed_data k) key with
          | VNone => if required then Err (key_error key ("is absent; " +:+ expected)) else Ok []
          | VDict d => Ok d
          | v => Err (key_error key ("is " +:+ py_repr v +:+ "; " +:+ expected))
          end);
  Ok (document k, data, key_prefix k +:+ key +:+ ".").
End keyed.
(** [Keyed.obj]: the nested reads, with no unknown key. *)
Definition nested (k : Keyed) (key : string) (known : list string) (required : bool) : res Keyed :=
  o ← obj k key known required;
  let n := {| document := o.1.1; keyed_data := o.1.2; key_prefix := o.2 |} in
  refuse_unknown n known;; Ok n.

(** [parse_budget]. *)
Definition parse_budget (v : value) (document_ : string) : res dict :=
  match v with
  | VNone => Ok []
  | VDict d =>
      map_res (λ kv : string * value,
        raise_if (negb (elem_str kv.1 BUDGET_KEYS))
          (ValueError (document_ +:+ ": key budget." +:+ kv.1 +:+ " is not a budget key; the keys are " +:+ join ", " BUDGET_KEYS));;
        raise_if (match kv.2 with VInt z => (z <=? 0)%Z | _ => true end)
          (ValueError (document_ +:+ ": key budget." +:+ kv.1 +:+ " is " +:+ py_repr kv.2 +:+ "; expected a positive integer"));;
        Ok kv) d
  | v => Err (ValueError (document_ +:+ ": key budget is " +:+ py_repr v +:+ "; expected an object over the keys " +:+ join ", " BUDGET_KEYS))
  end.

(** ** Paths the document names *)

Section host.
(** The home directory of a user, the caller for no name; what can be executed;
    the search path; the working directory; and the files. *)
Context (home_of_user : string → option string) (executable : path → bool) (which : string → option string) (cwd : path) (t : tree).

(** [Path.expanduser] and [Path.resolve], of paths without links. *)
Definition expanduser (p : string) : res string :=
  match path_parts p with
  | String "~" user :: rest =>
      if isabs p then Ok p else
      match home_of_user user with
      | Some home => Ok (join "/" (home :: rest))
      | None => Err (RuntimeError "Could not determine home directory.")
      end
  | _ => Ok p
  end.
Definition resolve_at (base : path) (p : string) : path := path_parts (normpath (if isabs p then p else shown base +:+ "/" +:+ p)).
(** [document_path]: beside the document, unless absolute. *)
Definition document_path (k : Keyed) (v : string) : res path :=
  expanded ← expanduser v; Ok (resolve_at (parent_of (document k)) expanded).
(** [path.stem]. *)
Definition dot : ascii := "."%char.
Definition stem_of (name : string) : string :=
  match split_on dot name with
  | [_] | [] => name
  | parts => let stem := join "." (removelast parts) in
             if String.eqb stem "" || String.eqb (default "" (last parts)) "" then name else stem
  end.
Definition document_out (k : Keyed) : res path :=
  named ← string_at k "out" None None false;
  match named with
  | None => base ← expanduser DEFAULT_OUT_ROOT; Ok (resolve_at cwd (base +:+ "/" +:+ stem_of (default "" (last (document k)))))
  | Some named => document_path k named
  end.
(** [checkout_root]. *)
Definition checkout_root (start : path) : option path := find (λ p, exists_at t (p ++ [GIT_ENTRY])) (ancestors (reverse start)).

(** [read_document]. *)
Definition strerror (e : option entry) : string := match e with Some _ => "Is a directory" | None => "No such file or directory" end.
Definition read_document (p : string) : res Keyed :=
  let resolved := resolve_at cwd p in
  let named := "the run document " +:+ shown resolved in
  match t !! resolved with
  | Some (File content) =>
      text ← read_text (Ok content);
      match loads_str text with
      | inr e => Err (ValueError (named +:+ " is not JSON: " +:+ load_error_str e))
      | inl (VDict d) => let k := {| document := resolved; keyed_data := d; key_prefix := "" |} in refuse_unknown k DOCUMENT_KEYS;; Ok k
      | inl _ => Err (ValueError (named +:+ " is not an object; the keys are " +:+ join ", " DOCUMENT_KEYS))
      end
  | e => Err (OSError (named +:+ " cannot be read: " +:+ strerror e))
  end.

(** ** The document *)

Record Document : Type := {
  doc_path : path; doc_tasks : path; doc_select : option (list string); doc_arms : option (list string); doc_attempts : Z; doc_resume : bool;
  doc_route : string; doc_model : string; doc_effort : string; doc_base_url : option string; doc_wire_api : string; doc_budget : dict;
  doc_tool_roots : list string; doc_foe : path; codex_named : string; doc_codex : option path; doc_credential : path; doc_out : path;
  doc_grader_timeout : Z; doc_source_root : path; doc_config_dir : path;
}.
Definition runnable (p : path) : bool := is_file t p && executable p.
Definition codex_fault (d : Document) : option string :=
  match doc_codex d with
  | None => Some ("key harnesses.codex names " +:+ str_repr (codex_named d) +:+ ", which is absent from PATH")
  | Some c => if runnable c then None else Some ("key harnesses.codex names " +:+ shown c +:+ ", which is not an executable file")
  end.
Definition credential_fault (d : Document) : option string :=
  if is_file t (doc_credential d) then None
  else Some ("key harnesses.credential names " +:+ shown (doc_credential d) +:+ ", which is not a file").
Definition option_strs (l : option (list string)) : value := match l with Some l => strs l | None => VNone end.
Definition Document_to_dict (d : Document) : dict :=
  [("path", VStr (shown (doc_path d))); ("tasks", VStr (shown (doc_tasks d))); ("select", option_strs (doc_select d)); ("arms", option_strs (doc_arms d));
   ("attempts", VInt (doc_attempts d)); ("resume", VBool (doc_resume d));
   ("model", VDict [("route", VStr (doc_route d)); ("name", VStr (doc_model d)); ("effort", VStr (doc_effort d)); ("base_url", option_str (doc_base_url d));
                    ("codex_wire_api", VStr (doc_wire_api d))]);
   ("budget", VDict (doc_budget d)); ("tool_roots", strs (doc_tool_roots d));
   ("harnesses", VDict [("foe", VStr (shown (doc_foe d))); ("codex", option_str (shown <$> doc_codex d)); ("codex_named", VStr (codex_named d));
                        ("credential", VStr (shown (doc_credential d)))]);
   ("out", VStr (shown (doc_out d))); ("grader_timeout", VInt (doc_grader_timeout d)); ("source_root", VStr (shown (doc_source_root d)));
   ("foe_config_dir", VStr (shown (doc_config_dir d)))].

(** What the route admits beside the model. *)
Definition check_route (model : Keyed) (route : string) (base_url wire_api : option string) : res () :=
  if String.eqb route "compatible" then
    raise_if (is_none (option_str base_url)) (key_error model "base_url" "is absent; the compatible route needs the server's base URL, ending in /v1")
  else
    (match base_url with
     | Some u => Err (key_error model "base_url" ("is " +:+ str_repr u +:+ "; the " +:+ route
                   +:+ " route reaches the model without a base URL, so the key is refused there"))
     | None => Ok ()
     end);;
    match wire_api with
    | Some w => Err (key_error model "codex_wire_api" ("is " +:+ str_repr w +:+ "; the key names the compatible server's wire format and is refused on the "
                   +:+ route +:+ " route"))
    | None => Ok ()
    end.
Definition tool_root_at (k : Keyed) (root : string) : res string :=
  resolved ← document_path k root;
  raise_if (negb (exists_at t resolved)) (key_error k "tool_roots" ("names " +:+ str_repr root +:+ ", which resolves to " +:+ shown resolved +:+ " and does not exist"));;
  Ok (shown resolved).
Definition foe_binary (k harnesses : Keyed) : res path :=
  named ← string_at harnesses "foe" None None false;
  foe ← (match named with
         | Some named => document_path k named
         | None =>
             match (match checkout_root (parent_of (document k)) with Some c => Some c | None => checkout_root cwd end) with
             | Some checkout => Ok (checkout ++ path_parts DEFAULT_FOE)
             | None => Err (key_error harnesses "foe" ("is absent, and neither the document's directory " +:+ shown (parent_of (document k))
                         +:+ " nor the current directory " +:+ shown cwd +:+ " is inside a git checkout, so the default " +:+ DEFAULT_FOE
                         +:+ " has no checkout to resolve against"))
             end
         end);
  raise_if (negb (runnable foe)) (key_error harnesses "foe" ("names " +:+ shown foe +:+ ", which is not an executable file"));;
  Ok foe.
Definition codex_binary (k : Keyed) (named : string) : res (option path) :=
  if has_char slash named then p ← document_path k named; Ok (Some p) else Ok (resolve_at cwd <$> which named).

(** [load_document]: the document as read, and every key of it. *)
Definition resolve_document (k : Keyed) : res Document :=
  tasks ← (named ← required_string k "tasks" None; document_path k named);
  select ← strings_at k "select";
  raise_if (match select with Some [] => true | _ => false end)
    (key_error k "select" "is []; expected at least one task name, or no select key to run every task");;
  arms ← strings_at k "arms";
  attempts ← positive_integer k "attempts" 1;
  resume ← boolean_at k "resume" false;
  model ← nested k "model" MODEL_KEYS true;
  route ← required_string model "route" (Some ROUTES);
  name ← required_string model "name" None;
  effort ← string_at model "effort" (Some DEFAULT_EFFORT) None false;
  base_url ← string_at model "base_url" None None false;
  wire_api ← string_at model "codex_wire_api" None (Some CODEX_WIRE_APIS) false;
  check_route model route base_url wire_api;;
  b ← parse_budget (dget (keyed_data k) "budget") (shown (document k));
  named_roots ← strings_at k "tool_roots";
  roots ← map_res (tool_root_at k) (default [] named_roots);
  harnesses ← nested k "harnesses" HARNESS_KEYS false;
  foe ← foe_binary k harnesses;
  codex ← string_at harnesses "codex" (Some DEFAULT_CODEX) None false;
  let codex := default DEFAULT_CODEX codex in
  binary ← codex_binary k codex;
  credential ← string_at harnesses "credential" (Some DEFAULT_CREDENTIAL) None false;
  credential ← document_path k (default DEFAULT_CREDENTIAL credential);
  source ← string_at k "source_root" None None false;
  config ← string_at k "foe_config_dir" None None false;
  out ← document_out k;
  timeout ← positive_integer k "grader_timeout" DEFAULT_GRADER_TIMEOUT_SECONDS;
  source_root ← (match source with Some source => document_path k source | None => Ok foe end);
  config_dir ← document_path k (default DEFAULT_FOE_CONFIG_DIR config);
  Ok {| doc_path := document k; doc_tasks := tasks; doc_select := select; doc_arms := arms; doc_attempts := attempts; doc_resume := resume;
        doc_route := route; doc_model := name; doc_effort := default DEFAULT_EFFORT effort; doc_base_url := base_url;
        doc_wire_api := default DEFAULT_CODEX_WIRE_API wire_api; doc_budget := b; doc_tool_roots := roots; doc_foe := foe; codex_named := codex;
        doc_codex := binary; doc_credential := credential; doc_out := out; doc_grader_timeout := timeout; doc_source_root := source_root;
        doc_config_dir := config_dir |}.
Definition load_document (p : string) : res Document := k ← read_document p; resolve_document k.

(** ** The tasks *)

(** [discover_tasks], of the directories that hold a task document. *)
Definition task_directories (p : path) : list path := List.filter (λ d, is_file t (d ++ [TASK_FILE])) (child_folders t p).
Definition load_task_at (word : string → bool) (d : path) : res Selected :=
  task ← load_task word (shown (d ++ [TASK_FILE])) (match t !! (d ++ [TASK_FILE]) with Some (File c) => Some (Ok c) | _ => None end);
  Ok {| directory := shown d; task := task |}.
Definition discover_tasks (word : string → bool) (p : path) (names : option (list string)) : res (list Selected) :=
  raise_if (negb (is_folder t p)) (OSError ("key tasks names " +:+ shown p +:+ ", which is not a directory"));;
  found ← foldM (λ found d, e ← load_task_at word d; add_found found e) [] (task_directories p);
  select_tasks found (shown p) names.
End host.

(** ** What a refusal names *)

Section refusals.
Context (home_of_user : string → option string) (executable : path → bool) (which : string → option string) (cwd : path) (t : tree).
(** An error that names the document and a key of it, or that a home directory
    is unknown. *)
Definition names_key (doc : path) (e : exn) : Prop :=
  (∃ r, e = ValueError (shown doc +:+ ": key " +:+ r)) ∨ e = RuntimeError "Could not determine home directory.".
Definition keyed_errors (doc : path) {A} (m : res A) : Prop := ∀ e, m = Err e → names_key doc e.
Lemma keyed_bind doc {A B} (m : res A) (f : A → res B) : keyed_errors doc m → (∀ a, keyed_errors doc (f a)) → keyed_errors doc (m ≫= f).
Proof. intros Hm Hf e. destruct m as [a|e']; [apply Hf|]. intros [= <-]. by apply Hm. Qed.
Lemma keyed_bind_ok doc {A B} (m : res A) (f : A → res B) : keyed_errors doc m → (∀ a, m = Ok a → keyed_errors doc (f a)) → keyed_errors doc (m ≫= f).
Proof. intros Hm Hf e. destruct m as [a|e']; [by apply Hf|]. intros [= <-]. by apply Hm. Qed.
Lemma keyed_ok doc {A} (a : A) : keyed_errors doc (Ok a).
Proof. done. Qed.
Lemma keyed_error k key rule {A} : keyed_errors (document k) (Err (key_error k key rule) : res A).
Proof. intros e [= <-]. left. by eexists. Qed.
Lemma keyed_if k c key rule : keyed_errors (document k) (raise_if c (key_error k key rule)).
Proof. unfold raise_if. destruct c; [apply keyed_error|apply keyed_ok]. Qed.
Lemma keyed_map doc {A B} (f : A → res B) l : (∀ x, keyed_errors doc (f x)) → keyed_errors doc (map_res f l).
Proof.
  intros Hf. induction l as [|x l IH]; [apply keyed_ok|]. cbn [map_res]. apply keyed_bind; [apply Hf|]. intros y.
  apply keyed_bind; [apply IH|]. intros ys. apply keyed_ok.
Qed.
Lemma keyed_expand doc p : keyed_errors doc (expanduser home_of_user p).
Proof. intros e H. unfold expanduser in H. repeat case_match; try done. injection H as <-. by right. Qed.
Lemma keyed_path doc k v : keyed_errors doc (document_path home_of_user k v).
Proof. apply keyed_bind; [apply keyed_expand|]. intros a. apply keyed_ok. Qed.
End refusals.
Create HintDb refusals discriminated.
#[export] Hint Resolve keyed_bind keyed_ok keyed_error keyed_if keyed_map keyed_expand keyed_path : refusals.
Ltac refused :=
  repeat first
    [ solve [auto with refusals]
    | progress intros
    | match goal with |- keyed_errors _ (match ?x with _ => _ end) => destruct x end
    | apply keyed_bind ].
Section reads.
Context (home_of_user : string → option string) (executable : path → bool) (which : string → option string) (cwd : path) (t : tree).
Lemma keyed_string k key d c r : keyed_errors (document k) (string_at k key d c r).
Proof. unfold string_at. refused. Qed.
Lemma keyed_required k key c : keyed_errors (document k) (required_string k key c).
Proof. pose proof keyed_string. unfold required_string. refused. Qed.
Lemma keyed_boolean k key d : keyed_errors (document k) (boolean_at k key d).
Proof. unfold boolean_at. refused. Qed.
Lemma keyed_positive k key d : keyed_errors (document k) (positive_integer k key d).
Proof. unfold positive_integer. cbv zeta. refused. Qed.
Lemma keyed_strings k key : keyed_errors (document k) (strings_at k key).
Proof. unfold strings_at. cbv zeta. refused. Qed.
#[local] Hint Resolve keyed_string keyed_required keyed_boolean keyed_positive keyed_strings : refusals.
Lemma keyed_unknown k known : keyed_errors (document k) (refuse_unknown k known).
Proof. unfold refuse_unknown. refused. Qed.
Lemma nested_document k key known r n : nested k key known r = Ok n → document n = document k.
Proof.
  unfold nested. intros (o & Ho & (u & _ & [= <-])%res_bind_ok)%res_bind_ok. unfold obj in Ho. by apply res_bind_ok in Ho as (d & _ & [= <-]).
Qed.
Lemma keyed_nested k key known r : keyed_errors (document k) (nested k key known r).
Proof.
  unfold nested. apply keyed_bind_ok; [unfold obj; refused|]. intros o Ho. unfold obj in Ho. apply res_bind_ok in Ho as (d & _ & [= <-]).
  apply keyed_bind; [apply (keyed_unknown {| document := document k; keyed_data := d; key_prefix := key_prefix k +:+ key +:+ "." |})|]. refused.
Qed.
Lemma keyed_route k model route b w : document model = document k → keyed_errors (document k) (check_route model route b w).
Proof. intros <-. unfold check_route. refused. Qed.
Lemma keyed_budget k v : keyed_errors (document k) (parse_budget v (shown (document k))).
Proof.
  assert (He : ∀ r, names_key (document k) (ValueError (shown (document k) +:+ ": key budget" +:+ r))).
  { intros r. left. by exists ("budget" +:+ r). }
  destruct v as [| | | | | |d]; try (intros e [= <-]; apply He). apply keyed_map. intros [key v]. cbn [fst snd].
  apply keyed_bind; [unfold raise_if; destruct (negb _); [intros e [= <-]; apply (He ("." +:+ _))|apply keyed_ok]|intros _].
  apply keyed_bind; [unfold raise_if|intros _; apply keyed_ok]. destruct (match v with VInt _ => _ | _ => _ end); [|apply keyed_ok].
  intros e [= <-]. apply (He ("." +:+ _)).
Qed.
Lemma keyed_out k : keyed_errors (document k) (document_out home_of_user cwd k).
Proof. unfold document_out. refused. Qed.
Lemma keyed_root k root : keyed_errors (document k) (tool_root_at home_of_user t k root).
Proof. unfold tool_root_at. refused. Qed.
Lemma keyed_foe k harnesses : document harnesses = document k → keyed_errors (document k) (foe_binary home_of_user executable cwd t k harnesses).
Proof. intros E. unfold foe_binary. rewrite <-E. refused. Qed.
Lemma keyed_codex k named : keyed_errors (document k) (codex_binary home_of_user which cwd k named).
Proof. unfold codex_binary. refused. Qed.

Lemma keyed_resolve k : keyed_errors (document k) (resolve_document home_of_user executable which cwd t k).
Proof.
  pose proof (keyed_out k). pose proof (keyed_root k). pose proof (keyed_budget k). pose proof (keyed_codex k). unfold resolve_document.
  do 3 (apply keyed_bind; [refused|intros ?]). do 3 (apply keyed_bind; [refused|intros ?]).
  apply keyed_bind_ok; [apply keyed_nested|]. intros model Hm%nested_document. pose proof (λ r, keyed_route k model r).
  assert (∀ key d c r, keyed_errors (document k) (string_at model key d c r)) by (rewrite <-Hm; apply keyed_string).
  assert (∀ key c, keyed_errors (document k) (required_string model key c)) by (rewrite <-Hm; apply keyed_required).
  do 9 (apply keyed_bind; [refused|intros ?]).
  apply keyed_bind_ok; [apply keyed_nested|]. intros harnesses Hh%nested_document. pose proof (keyed_foe k harnesses Hh).
  assert (∀ key d c r, keyed_errors (document k) (string_at harnesses key d c r)) by (rewrite <-Hh; apply keyed_string).
  refused.
Qed.

(** Every refusal of a run document names it and the key at fault, or the
    document that cannot be read, is not JSON, or is not an object; what escapes
    is a document that is not UTF-8 and a path below the home of a user without
    one. *)
Theorem refusals_name_the_key p e : load_document home_of_user executable which cwd t p = Err e →
  let resolved := resolve_at cwd p in
  names_key resolved e ∨
  (∃ r, e = ValueError ("the run document " +:+ shown resolved +:+ r) ∨ e = OSError ("the run document " +:+ shown resolved +:+ r)) ∨
  (∃ content, t !! resolved = Some (File content) ∧ read_text (Ok content) = Err e).
Proof.
  cbv zeta. unfold load_document. intros H. destruct (read_document cwd t p) as [k|e'] eqn:Er.
  - left. assert (document k = resolve_at cwd p) as <-; [|by apply keyed_resolve in H].
    unfold read_document in Er. destruct (t !! resolve_at cwd p) as [[c|]|]; try done. apply res_bind_ok in Er as (text & _ & Er).
    destruct (loads_str text) as [[]|]; try done. by apply res_bind_ok in Er as (u & _ & [= <-]).
  - injection H as ->. unfold read_document in Er. destruct (t !! resolve_at cwd p) as [[c|]|] eqn:Et.
    + destruct (read_text (Ok c)) as [text|e'] eqn:Ec; [|injection Er as ->; right; right; by exists c]. cbn [mbind res_bind] in Er.
      destruct (loads_str text) as [v|le]; [|injection Er as <-; right; left; eexists; by left].
      destruct v as [| | | | | |d]; try (injection Er as <-; right; left; eexists; by left).
      left. destruct (refuse_unknown _ DOCUMENT_KEYS) as [u|e'] eqn:Eu; [done|]. injection Er as ->. by apply keyed_unknown in Eu.
    + injection Er as <-. right; left. eexists. by right.
    + injection Er as <-. right; left. eexists. by right.
Qed.
End reads.

(** ** A document that loads *)

Section loads.
Context (home_of_user : string → option string) (executable : path → bool) (which : string → option string) (cwd : path) (t : tree).
Lemma string_choice k key d l r s : string_at k key d (Some l) r = Ok (Some s) → elem_str s l = true.
Proof.
  unfold string_at. destruct (dget_or _ _ _) as [| | | |[|c x]| |]; try (by destruct r); try done.
  destruct (elem_str (String c x) l) eqn:E; [|done]. by intros [= <-].
Qed.
Lemma string_present k key d c r s : string_at k key d c r = Ok (Some s) → s ≠ "".
Proof.
  unfold string_at. destruct (dget_or _ _ _) as [| | | |[|a x]| |]; try (by destruct r); try done. destruct c as [l|].
  - by destruct (elem_str _ l); [intros [= <-]|].
  - by intros [= <-].
Qed.
Lemma required_present k key c s : required_string k key c = Ok s → string_at k key None c true = Ok (Some s).
Proof.
  unfold required_string. intros (x & H & [= <-])%res_bind_ok. destruct x as [x|]; [done|].
  unfold string_at in H. destruct (dget_or _ _ _) as [| | | |[|a y]| |]; try done. destruct c as [l|]; [by destruct (elem_str _ l)|done].
Qed.
Lemma positive_loads k key d z : positive_integer k key d = Ok z → (0 < z)%Z.
Proof.
  unfold positive_integer. cbv zeta. destruct (dget_or _ _ _); try done. destruct (Z.ltb_spec z0 1); [done|]. intros [= <-]. lia.
Qed.
(** A budget of a document. *)
Definition budget_sound (b : dict) : Prop := Forall (λ kv : string * value, elem_str kv.1 BUDGET_KEYS = true ∧ ∃ z, kv.2 = VInt z ∧ (0 < z)%Z) b.
Lemma budget_loads v doc b : parse_budget v doc = Ok b → budget_sound b.
Proof.
  destruct v as [| | | | | |d]; try done; cbn [parse_budget]; [intros [= <-]; constructor|]. intros H%map_res_Forall2. unfold budget_sound.
  induction H as [|kv kv' d d' Hkv H IH]; constructor; [|done].
  apply res_bind_ok in Hkv as (u & Hk%raise_if_ok & (u' & Hv%raise_if_ok & [= <-])%res_bind_ok). split; [by apply negb_false_iff in Hk|].
  destruct (kv.2); try done. eexists. split; [done|]. apply Z.leb_gt in Hv. lia.
Qed.
Lemma foe_runs k h foe : foe_binary home_of_user executable cwd t k h = Ok foe → runnable executable t foe = true.
Proof.
  unfold foe_binary. intros (named & _ & (f & _ & (u & Hf%raise_if_ok & [= <-])%res_bind_ok)%res_bind_ok)%res_bind_ok. by apply negb_false_iff in Hf.
Qed.
Lemma roots_stand k roots l : map_res (tool_root_at home_of_user t k) roots = Ok l → Forall (λ r, ∃ p, r = shown p ∧ exists_at t p = true) l.
Proof.
  intros H%map_res_Forall2. induction H as [|x y l l' Hx H IH]; constructor; [|done].
  unfold tool_root_at in Hx. apply res_bind_ok in Hx as (p & _ & (u & Hp%raise_if_ok & [= <-])%res_bind_ok). exists p. split; [done|]. by apply negb_false_iff in Hp.
Qed.
Lemma route_agrees m route b w u : check_route m route b w = Ok u →
  if String.eqb route "compatible" then is_Some b else b = None ∧ w = None.
Proof. unfold check_route, raise_if. destruct (String.eqb route _), b, w; try done; by eexists. Qed.

(** What a document that loads promises the run. *)
Record sound (d : Document) : Prop := {
  some_selected : doc_select d ≠ Some [];
  attempts_positive : (0 < doc_attempts d)%Z;
  route_known : elem_str (doc_route d) ROUTES = true;
  model_named : doc_model d ≠ "";
  base_url_routed : if String.eqb (doc_route d) "compatible" then is_Some (doc_base_url d) else doc_base_url d = None ∧ doc_wire_api d = DEFAULT_CODEX_WIRE_API;
  wire_known : elem_str (doc_wire_api d) CODEX_WIRE_APIS = true;
  budget_positive : budget_sound (doc_budget d);
  roots_exist : Forall (λ r, ∃ p, r = shown p ∧ exists_at t p = true) (doc_tool_roots d);
  foe_runnable : runnable executable t (doc_foe d) = true;
  timeout_positive : (0 < doc_grader_timeout d)%Z;
}.

(** Claim C15. A document that loads has at least one task to select and one attempt, a
    known route with a base URL exactly where the route needs one, a budget of
    positive numbers under known keys, tool roots that exist and a Foe binary
    that runs. *)
Theorem loaded_document_sound p d : load_document home_of_user executable which cwd t p = Ok d → sound d.
Proof.
  unfold load_document. intros (k & _ & H)%res_bind_ok. unfold resolve_document in H.
  apply res_bind_ok in H as (tasks & _ & (select & _ & (u & Hsel%raise_if_ok & (arms & _ & (attempts & Hat%positive_loads & (resume & _ &
    (m & _ & (route & Hr%required_present & (name & Hn%required_present%string_present & (effort & _ & (base & _ & (wire & Hw &
    (u' & Hroute%route_agrees & (b & Hb%budget_loads & (named & _ & (roots & Hroots%roots_stand & (h & _ & (foe & Hfoe%foe_runs & H)%res_bind_ok)%res_bind_ok)%res_bind_ok)%res_bind_ok
    )%res_bind_ok)%res_bind_ok)%res_bind_ok)%res_bind_ok)%res_bind_ok)%res_bind_ok)%res_bind_ok)%res_bind_ok)%res_bind_ok)%res_bind_ok)%res_bind_ok)%res_bind_ok)%res_bind_ok).
  apply res_bind_ok in H as (codex & _ & (binary & _ & (cred & _ & (cred' & _ & (source & _ & (config & _ & (out & _ & (timeout & Ht%positive_loads &
    (sr & _ & (cd & _ & [= <-])%res_bind_ok)%res_bind_ok)%res_bind_ok)%res_bind_ok)%res_bind_ok)%res_bind_ok)%res_bind_ok)%res_bind_ok)%res_bind_ok).
  split; cbn; try done.
  - by intros ->.
  - by eapply (string_choice _ _ _ ROUTES).
  - destruct (String.eqb route "compatible"); [done|]. by destruct Hroute as [-> ->].
  - destruct wire as [w|]; [by eapply (string_choice _ _ _ CODEX_WIRE_APIS)|done].
Qed.
End loads.

(** ** A document on disk *)

Definition demo_home (user : string) : option string := match user with "" => Some "/h" | _ => None end.
Definition demo_executable (p : path) : bool := bool_decide (p = ["s"; "foe"]).
Definition demo_keys (attempts : Z) (foe credential : string) : dict :=
  [("tasks", VStr "tasks"); ("attempts", VInt attempts); ("model", VDict [("route", VStr "subscription"); ("name", VStr "m")]);
   ("budget", VDict [("seconds", VInt 10)]); ("tool_roots", strs ["."]); ("harnesses", VDict [("foe", VStr foe); ("credential", VStr credential)])].
Definition demo_tree (content : string) : tree :=
  <[["s"; "run.json"] := File content]> (<[["s"; "foe"] := File "!"]> (<[["s"] := Folder]> ∅)).
Definition demo_load (content : string) : res Document :=
  load_document demo_home demo_executable (λ _, None) ["w"] (demo_tree content) "/s/run.json".
Definition demo_resolved (attempts : Z) (foe credential : string) : res Document := demo_load (dumps_compact (VDict (demo_keys attempts foe credential))).
Definition document_or (d : Document) (r : res Document) : Document := match r with Ok d => d | Err _ => d end.
Definition error_or (r : res Document) : exn := match r with Ok _ => StopIteration | Err e => e end.
Definition no_document : Document :=
  Build_Document [] [] None None 0 false "" "" "" None "" [] [] [] "" None [] [] 0 [] [].

Example demo_document_paths :
  (λ d, (doc_tasks d, doc_out d, doc_credential d, doc_config_dir d, doc_tool_roots d)) (document_or no_document (demo_resolved 2 "foe" "~/c")) =
  (["s"; "tasks"], ["h"; ".local"; "state"; "foe"; "cross-harness"; "run"], ["h"; "c"], ["h"; ".config"; "foe"], ["/s"]).
Proof. vm_compute. reflexivity. Qed.
Example demo_document_refused :
  error_or (demo_resolved 0 "foe" "~/c") = ValueError "/s/run.json: key attempts is 0; expected a positive integer".
Proof. vm_compute. reflexivity. Qed.

(** A document that is not UTF-8 is refused with the decoder's words, which name
    neither the document nor a key. *)
Example undecodable_document_unnamed :
  demo_load (String "255"%char EmptyString) = Err (ValueError "'utf-8' codec can't decode byte 0xff in position 0: invalid start byte").
Proof. vm_compute. reflexivity. Qed.
(** A path below the home directory of an unknown user escapes as a
    [RuntimeError]. *)
Example unknown_home_escapes :
  demo_resolved 1 "foe" "~nobody/auth.json" = Err (RuntimeError "Could not determine home directory.").
Proof. vm_compute. reflexivity. Qed.

Lemma loaded_document_sound_witness :
  demo_resolved 2 "foe" "~/c" = Ok (document_or no_document (demo_resolved 2 "foe" "~/c")) ∧
  sound demo_executable (demo_tree (dumps_compact (VDict (demo_keys 2 "foe" "~/c")))) (document_or no_document (demo_resolved 2 "foe" "~/c")).
Proof.
  assert (demo_resolved 2 "foe" "~/c" = Ok (document_or no_document (demo_resolved 2 "foe" "~/c"))) as H by (vm_compute; reflexivity).
  split; [exact H|].
  apply (loaded_document_sound demo_home demo_executable (λ _, None) ["w"] (demo_tree (dumps_compact (VDict (demo_keys 2 "foe" "~/c")))) "/s/run.json").
  exact H.
Defined.
Lemma refusals_name_the_key_witness :
  demo_resolved 0 "foe" "~/c" = Err (ValueError "/s/run.json: key attempts is 0; expected a positive integer") ∧
  (let resolved := resolve_at ["w"] "/s/run.json" in
   names_key resolved (ValueError "/s/run.json: key attempts is 0; expected a positive integer") ∨
   (∃ r, ValueError "/s/run.json: key attempts is 0; expected a positive integer" = ValueError ("the run document " +:+ shown resolved +:+ r) ∨
         ValueError "/s/run.json: key attempts is 0; expected a positive integer" = OSError ("the run document " +:+ shown resolved +:+ r)) ∨
   (∃ content, demo_tree (dumps_compact (VDict (demo_keys 0 "foe" "~/c"))) !! resolved = Some (File content) ∧
      read_text (Ok content) = Err (ValueError "/s/run.json: key attempts is 0; expected a positive integer"))).
Proof.
  assert (demo_resolved 0 "foe" "~/c" = Err (ValueError "/s/run.json: key attempts is 0; expected a positive integer")) as H by (vm_compute; reflexivity).
  split; [exact H|].
  apply (refusals_name_the_key demo_home demo_executable (λ _, None) ["w"] (demo_tree (dumps_compact (VDict (demo_keys 0 "foe" "~/c")))) "/s/run.json").
  exact H.
Defined.
