(* ===== verification/FoeBuild.v ===== *)
(** * The build an evaluation used

    src/evals/foe_build.py and, of src/evals/cross_harness/run.py, the provenance
    of a run: the source tree and the binary a record names, and what a study
    accepts as such a name.  What git prints is an argument, and so are the links
    of the file system. *)

From Stdlib Require Import Ascii.
From stdpp Require Import base gmap sets list strings pretty.
From Stdlib Require Import ZArith NArith Lia.
From S2P Require Import Prelude PyValue PyText PyUnicode PyJson JsonText PyPath Sha256 TraceEvidence BudgetWatcher Graphs TaskProtocol TaskRoot RunPlan FoeArm.

(** How a git command ended. *)
Record git_end : Type := { git_status : Z; git_out : string; git_err : string }.

Section build.
(** A git command run in a directory, or the [OSError] of starting it; whether it
    takes longer than a minute; the path behind the links; and the files. *)
Context (git : string → list string → res git_end) (slow : string → list string → bool) (real_path : string → string) (t : tree).
Definition is_file_at (p : string) : bool := is_file t (path_parts p).

(** [foe_build._git]. *)
Definition git_lines (root : string) (args : list string) : res string :=
  e ← git root args;
  raise_if (negb (git_status e =? 0)%Z)
    (ValueError ("cannot identify Foe source tree at " +:+ root +:+ ": git " +:+ join " " args +:+ ": "
       +:+ match str_strip (git_err e) with
           | "" => match str_strip (git_out e) with "" => "exit status " +:+ Z_str (git_status e) | out => out end
           | err => err
           end));;
  Ok (str_strip (git_out e)).
Definition PORCELAIN : list string := ["status"; "--porcelain=v1"; "--untracked-files=all"].
Definition checkout_at (p : string) : string := let resolved := real_path p in if is_file_at resolved then shown (parent_of (path_parts resolved)) else resolved.
Definition clean_source_tree (p : string) : res string :=
  top ← git_lines (checkout_at p) ["rev-parse"; "--show-toplevel"];
  let root := real_path top in
  status ← git_lines root PORCELAIN;
  raise_if (negb (String.eqb status "")) (ValueError ("Foe source tree is not clean at " +:+ root +:+ ":" +:+ nl +:+ status));;
  format ← git_lines root ["rev-parse"; "--show-object-format"];
  tree_ ← git_lines root ["rev-parse"; "HEAD^{tree}"];
  Ok ("git-tree-" +:+ format +:+ ":" +:+ tree_).
Definition sha256_file (p : string) : res string :=
  match t !! path_parts (real_path p) with
  | Some (File content) => Ok ("sha256:" +:+ sha256_hex content)
  | _ => Err (ValueError ("Foe runtime binary does not exist: " +:+ real_path p))
  end.
Definition evaluated_foe (source binary : string) : res dict :=
  tree_ ← clean_source_tree source; digest ← sha256_file binary;
  Ok [("source_tree", VStr tree_); ("runtime_binary", VStr digest)].

(** ** The provenance of a run *)

(** [git_output] of run.py, which gives up after a minute. *)
Definition git_output (root : string) (args : list string) : res (option string) :=
  if slow root args then Ok None else
  match git root args with
  | Ok e => Ok (if (git_status e =? 0)%Z then Some (git_out e) else None)
  | Err (OSError _) => Ok None
  | Err e => Err e
  end.
(** [line[n:]], in code points. *)
Definition continues (c : ascii) : bool := byte_in 128 191 c.
Fixpoint drop_points (n : nat) (s : string) : string :=
  match s with
  | String c r => if continues c then drop_points n r else match n with 0 => s | S n => drop_points n r end
  | EmptyString => ""
  end.
Definition changed_in (status : string) : list string := map (drop_points 3) (List.filter (λ l, 3 <? py_len l) (str_splitlines status)).
Definition non_empty (s : string) : option string := match s with "" => None | s => Some s end.
Definition foe_provenance (source_root binary : string) : res dict :=
  digest ← sha256_file binary;
  let root := checkout_at source_root in
  head ← git_output root ["rev-parse"; "HEAD"];
  let head := s ← head; non_empty (str_strip s) in
  status ← (match head with Some _ => git_output root PORCELAIN | None => Ok None end);
  let changed := changed_in (default "" status) in
  let dirty := match head, status with Some _, Some _ => VBool (negb (match changed with [] => true | _ => false end)) | _, _ => VNone end in
  found ← (match evaluated_foe source_root binary with
           | Ok d => Ok (dget d "source_tree", None)
           | Err (ValueError m) => Ok (VNone, Some m)
           | Err e => Err e
           end);
  let error :=
    match head, status with
    | Some _, None =>
        Some ("git status failed in " +:+ root +:+ ", so whether the tree is dirty is unknown"
              +:+ match found.2 with Some (String _ _ as e) => "; " +:+ e | _ => "" end)
    | _, _ => found.2
    end in
  Ok [("source_tree", found.1); ("runtime_binary", VStr digest); ("git_head", option_str head); ("dirty", dirty); ("changed_paths", strs changed);
      ("source_tree_error", option_str error)].

(** [provenance_of]: what the Codex binary prints as its version is an
    argument, and so is the time. *)
Definition provenance_of (codex_version : string → option string) (now_ms : Z) (s : Settings) (needs_codex : bool) : res dict :=
  foe ← foe_provenance (s_source_root s) (s_foe s);
  Ok [("foe", VDict foe); ("foe_binary", VStr (s_foe s)); ("codex", option_str (s_codex s));
      ("codex_version", option_str (if needs_codex then c ← s_codex s; codex_version c else None));
      ("route", VStr (s_route s)); ("base_url", option_str (s_base_url s)); ("model", VStr (s_model s)); ("reasoning_effort", VStr (s_effort s));
      ("recorded_at_ms", VInt now_ms)].
End build.

(** ** What a study accepts *)

Definition unless_prefix (p s : string) : option string := if starts_with p s then Some (str_drop (String.length p) s) else None.
(** [re.fullmatch("git-tree-(sha1|sha256):([0-9a-f]+)", s)]: the digits' expected length
    and the digits. *)
Definition hex_digits (s : string) : bool := negb (String.eqb s "") && all_hex s.
Definition tree_digits (s : string) : option (nat * string) :=
  rest ← unless_prefix "git-tree-" s;
  found ← (match unless_prefix "sha1:" rest with
           | Some digits => Some (40, digits)
           | None => digits ← unless_prefix "sha256:" rest; Some (64, digits)
           end);
  if hex_digits found.2 then Some found else None.
(** [re.fullmatch("sha256:[0-9a-f]{64}", s)]. *)
Definition digest_named (s : string) : bool :=
  match unless_prefix "sha256:" s with Some d => (String.length d =? 64) && all_hex d | None => false end.
Definition require_evaluated_foe (v : value) (context : string) : res dict :=
  match v with
  | VDict d =>
      let malformed key := ValueError (context +:+ " evaluated_foe." +:+ key +:+ " is missing or malformed") in
      match (match dget d "source_tree" with VStr s => n ← tree_digits s; Some (n, s) | _ => None end) with
      | None => Err (malformed "source_tree")
      | Some (expected, digits, source) =>
          raise_if (negb (String.length digits =? expected)) (malformed "source_tree");;
          match dget d "runtime_binary" with
          | VStr binary => if digest_named binary then Ok [("source_tree", VStr source); ("runtime_binary", VStr binary)] else Err (malformed "runtime_binary")
          | _ => Err (malformed "runtime_binary")
          end
      end
  | _ => Err (ValueError (context +:+ " lacks evaluated_foe"))
  end.

(** ** The names a build is given are accepted *)

Lemma be_bytes_spec n x : length (be_bytes n x) = n ∧ Forall (λ b, b < 256)%N (be_bytes n x).
Proof.
  revert x. induction n as [|n IH]; intros x; [done|]. cbn [be_bytes]. destruct (IH (x / 256)%N) as [Hl Hf]. split.
  - rewrite length_app, Hl. cbn. lia.
  - apply Forall_app. split; [done|]. constructor; [|done]. by apply N.mod_lt.
Qed.
Lemma step_length st kw : length (step st kw) = length st.
Proof. unfold step. do 9 (destruct st as [|? st]; try done). Qed.
Lemma blocks_length fuel h ws : length (blocks fuel h ws) = length h.
Proof.
  revert h ws. induction fuel as [|fuel IH]; intros h ws; [done|]. cbn [blocks]. destruct ws as [|w ws]; [done|]. rewrite IH.
  unfold compress. rewrite length_zip_with. assert (length (fold_left step (combine round_constants (rev (schedule 48 (rev (firstn 16 (w :: ws)))))) h) = length h) as ->; [|lia].
  generalize (combine round_constants (rev (schedule 48 (rev (firstn 16 (w :: ws)))))). intros l. revert h.
  induction l as [|kw l IHl]; intros h; [done|]. cbn. by rewrite IHl, step_length.
Qed.
Lemma hex_digit_hex n : n < 16 → is_hex (hex_digit n) = true.
Proof. intros H. do 16 (destruct n as [|n]; [done|]). lia. Qed.
Lemma hex_bytes_hex l : Forall (λ b, b < 256)%N l →
  all_hex (String.concat "" (map hex_byte l)) = true ∧ String.length (String.concat "" (map hex_byte l)) = 2 * length l.
Proof.
  assert (Happ : ∀ a b, all_hex (a +:+ b) = all_hex a && all_hex b).
  { induction a as [|c a IH]; intros b; [done|]. rewrite str_app_cons. cbn [all_hex]. by rewrite IH, andb_assoc. }
  assert (Hcons : ∀ x l, String.concat "" (x :: l) = x +:+ String.concat "" l) by (intros x [|y r]; cbn; [by rewrite str_app_nil_r|done]).
  induction 1 as [|b l Hb Hl [IH1 IH2]]; [done|]. cbn [map]. rewrite Hcons, Happ, length_str_app, IH1, IH2. split.
  - rewrite andb_true_r. unfold hex_byte. cbn [all_hex]. rewrite !hex_digit_hex; [done|..].
    + assert (b mod 16 < 16)%N by (by apply N.mod_lt). lia.
    + assert (b / 16 < 16)%N by (apply N.Div0.div_lt_upper_bound; lia). lia.
  - cbn. lia.
Qed.
Lemma sha256_hex_digits content : all_hex (sha256_hex content) = true ∧ String.length (sha256_hex content) = 64.
Proof.
  unfold sha256_hex. cbv zeta. set (h := blocks _ _ _). assert (Hh : length h = 8) by (unfold h; by rewrite blocks_length).
  destruct (hex_bytes_hex (flat_map (be_bytes 4) h)) as [H1 H2].
  - clearbody h. clear Hh. induction h as [|x h IH]; [done|]. cbn [flat_map]. apply Forall_app. split; [apply be_bytes_spec|done].
  - split; [done|]. rewrite H2. assert (Hl : length (flat_map (be_bytes 4) h) = 4 * length h); [|lia].
    clearbody h. clear. induction h as [|x h IH]; [done|]. cbn [flat_map]. rewrite length_app, IH, (proj1 (be_bytes_spec 4 x)). cbn. lia.
Qed.
Lemma unless_prefix_app p s : unless_prefix p (p +:+ s) = Some s.
Proof. unfold unless_prefix. by rewrite starts_with_app, str_drop_length. Qed.

(** git prints one of its two object formats, and the name of a tree in it. *)
Definition names_trees (git : string → list string → res git_end) : Prop :=
  ∀ root f e, git root ["rev-parse"; "--show-object-format"] = Ok f → git root ["rev-parse"; "HEAD^{tree}"] = Ok e →
    git_status f = 0%Z → git_status e = 0%Z →
    ∃ n, (str_strip (git_out f), n) ∈ [("sha1", 40); ("sha256", 64)] ∧ String.length (str_strip (git_out e)) = n ∧ all_hex (str_strip (git_out e)) = true.

(** What an evaluation records of its build is accepted wherever a study requires
    a build, and accepted as the same: the name of the tree and the digest of the
    binary have the form that is required. *)
Theorem recorded_build_accepted git real_path t source binary context d : names_trees git →
  evaluated_foe git real_path t source binary = Ok d → require_evaluated_foe (VDict d) context = Ok d.
Proof.
  intros Hgit. unfold evaluated_foe. intros (tree_ & Ht & (digest & Hd & [= <-])%res_bind_ok)%res_bind_ok.
  assert (Hb : digest_named digest = true).
  { unfold sha256_file in Hd. destruct (t !! _) as [[content|]|]; try done. injection Hd as <-. destruct (sha256_hex_digits content) as [H1 H2].
    unfold digest_named. by rewrite unless_prefix_app, H1, H2. }
  unfold clean_source_tree in Ht. apply res_bind_ok in Ht as (top & _ & (status & _ & (u & _ & (format & Hf & (id_ & Hi & [= <-])%res_bind_ok)%res_bind_ok)%res_bind_ok)%res_bind_ok).
  unfold git_lines in Hf, Hi. apply res_bind_ok in Hf as (f & Hf & (u1 & Hfs%raise_if_ok%negb_false_iff%Z.eqb_eq & [= <-])%res_bind_ok).
  apply res_bind_ok in Hi as (e & Hi & (u2 & Hes%raise_if_ok%negb_false_iff%Z.eqb_eq & [= <-])%res_bind_ok).
  destruct (Hgit _ _ _ Hf Hi Hfs Hes) as (n & Hin & Hl & Hx).
  set (digits := str_strip (git_out e)) in *. set (format := str_strip (git_out f)) in *.
  assert (Ht : tree_digits ("git-tree-" +:+ format +:+ ":" +:+ digits) = Some (n, digits)).
  { unfold tree_digits. rewrite unless_prefix_app. cbn [mbind option_bind].
    assert (Hhex : hex_digits digits = true).
    { unfold hex_digits. rewrite Hx, andb_true_r. destruct digits; [|done]. cbn in Hl. subst n.
      repeat (apply elem_of_cons in Hin as [Hin|Hin]; [congruence|]). by apply elem_of_nil in Hin. }
    apply elem_of_cons in Hin as [Hin|Hin].
    - injection Hin as -> ->. change ("sha1" +:+ ":" +:+ digits) with ("sha1:" +:+ digits). rewrite unless_prefix_app. cbn. by rewrite Hhex.
    - apply list_elem_of_singleton in Hin. injection Hin as -> ->. change ("sha256" +:+ ":" +:+ digits) with ("sha256:" +:+ digits).
      change (unless_prefix "sha1:" ("sha256:" +:+ digits)) with (@None string). rewrite unless_prefix_app. cbn. by rewrite Hhex. }
  unfold require_evaluated_foe. cbv beta iota zeta. set (d := [("source_tree", _); _]).
  assert (dget d "source_tree" = VStr ("git-tree-" +:+ format +:+ ":" +:+ digits)) as -> by reflexivity.
  assert (dget d "runtime_binary" = VStr digest) as -> by reflexivity. cbv beta iota. rewrite Ht. unfold mbind, option_bind, raise_if. cbv beta iota.
  by rewrite Hl, Nat.eqb_refl, Hb.
Qed.

(** ** An example *)

Definition demo_tree_id : string := "0123456789abcdef0123456789abcdef01234567".
Definition demo_git (root : string) (args : list string) : res git_end :=
  let printed out := Ok {| git_status := 0; git_out := out +:+ nl; git_err := "" |} in
  match args with
  | ["rev-parse"; "--show-toplevel"] => printed "/s"
  | ["rev-parse"; "--show-object-format"] => printed "sha1"
  | ["rev-parse"; "HEAD^{tree}"] => printed demo_tree_id
  | ["rev-parse"; "HEAD"] => printed "c0ffee"
  | _ => Ok {| git_status := 0; git_out := ""; git_err := "" |}
  end.
Definition demo_binary : tree := {[ ["s"; "foe"] := File "foe" ]}.
Example demo_provenance :
  (λ d, map (dget d) ["git_head"; "dirty"; "changed_paths"; "source_tree_error"])
    (match foe_provenance demo_git (λ _ _, false) id demo_binary "/s/foe" "/s/foe" with Ok d => d | Err _ => [] end) =
  [VStr "c0ffee"; VBool false; VList []; VNone].
Proof. vm_compute. reflexivity. Qed.
Example changed_paths_read : changed_in (" M a.rs" +:+ nl +:+ "?? b c" +:+ nl +:+ "") = ["a.rs"; "b c"].
Proof. vm_compute. reflexivity. Qed.
Definition demo_evaluated : res dict := evaluated_foe demo_git id demo_binary "/s/foe" "/s/foe".
Definition result_or_nothing (r : res dict) : dict := match r with Ok d => d | Err _ => [] end.
Lemma recorded_build_accepted_witness :
  demo_evaluated = Ok (result_or_nothing demo_evaluated) ∧ require_evaluated_foe (VDict (result_or_nothing demo_evaluated)) "record" = Ok (result_or_nothing demo_evaluated).
Proof.
  assert (H : demo_evaluated = Ok (result_or_nothing demo_evaluated)) by (vm_compute; reflexivity).
  split; [exact H|]. refine (recorded_build_accepted demo_git id demo_binary "/s/foe" "/s/foe" "record" _ _ H).
  intros root f e [= <-] [= <-] _ _. exists 40. split; [left|]. split; vm_compute; reflexivity.
Defined.
