(* ===== verification/Candidates.v ===== *)
(** * Sealed candidates of the benchmark campaigns

    src/evals/terminal_bench/workflow_candidate.py, instruction_candidate.py and
    tool_candidate.py: a proposed change, the build it was evaluated on and the
    evidence it rests on, sealed by a digest of the rest. *)

From Stdlib Require Import Ascii.
From stdpp Require Import base list strings pretty.
From Stdlib Require Import ZArith NArith Lia.
From S2P Require Import Prelude PyValue PyText PyUnicode PyJson JsonText Sha256 TraceEvidence Trajectory FoeBuild.

(** ** The seal *)

(** [json.dumps(v, separators=(",", ":"))], whose strings are ASCII. *)
Fixpoint ascii_compact (v : value) : string :=
  match v with
  | VNone => "null"
  | VBool b => if b then "true" else "false"
  | VInt z => Z_str z
  | VFloat f => json_float f
  | VStr s => ascii_string s
  | VList l => "[" +:+ join "," (map ascii_compact l) +:+ "]"
  | VDict d => "{" +:+ join "," (map (λ kv, ascii_string kv.1 +:+ ":" +:+ ascii_compact kv.2) d) +:+ "}"
  end.
Definition candidate_digest (body : dict) : string := "sha256:" +:+ sha256_hex (ascii_compact (sort_keys (VDict body))).

Definition has_fingerprint_shape (v : value) (prefix : string) (digits : nat) : bool :=
  match v with
  | VStr s => match unless_prefix prefix s with Some rest => Nat.eqb (String.length rest) digits && all_hex rest | None => false end
  | _ => false
  end.
(** [set(value) == names]. *)
Definition has_exactly (names : list string) (d : dict) : bool := forallb (has_key d) names && forallb (λ k, elem_str k names) (keys d).
(** The object [v], with exactly these keys. *)
Definition exactly (names : list string) (message : string) (v : value) : res dict :=
  match v with VDict d => if has_exactly names d then Ok d else Err (ValueError message) | _ => Err (ValueError message) end.
Definition picked (names : list string) (d : dict) : dict := map (λ k, (k, dget d k)) names.
Definition one_of (names : list string) (v : value) : bool := existsb (λ n, is_string n v) names.

Definition require_sha256 (label : string) (v : value) : res value :=
  if has_fingerprint_shape v "sha256:" 64 then Ok v else Err (ValueError (label +:+ " is invalid")).
Definition EVALUATED_KEYS : list string := ["runtime_binary"; "source_tree"].
Definition validate_evaluated_foe (v : value) (evaluated : option dict) (label : string) : res dict :=
  d ← exactly EVALUATED_KEYS (label +:+ " evaluated_foe is invalid") v;
  raise_if (negb (has_fingerprint_shape (dget d "source_tree") "git-tree-sha1:" 40 || has_fingerprint_shape (dget d "source_tree") "git-tree-sha256:" 64))
    (ValueError (label +:+ " evaluated_foe.source_tree is invalid"));;
  raise_if (negb (has_fingerprint_shape (dget d "runtime_binary") "sha256:" 64)) (ValueError (label +:+ " evaluated_foe.runtime_binary is invalid"));;
  raise_if (match evaluated with Some e => negb (py_eq (VDict d) (VDict e)) | None => false end)
    (ValueError (label +:+ " evaluates a different Foe source or binary"));;
  Ok (picked EVALUATED_KEYS d).

(** ** Workflow candidates *)

Definition SCHEMA_VERSION : Z := 1.
Definition WORKFLOW_KIND : string := "independent-audit-workflow".
Definition REASONING_EFFORTS : list string := ["low"; "medium"; "high"; "xhigh"].
Definition MIN_AUDIT_MODEL_CALLS : Z := 6.
Definition MAX_AUDIT_MODEL_CALLS : Z := 120.

Definition validate_independent_audit (v : value) : res dict :=
  d ← exactly ["reasoning_effort"; "model_calls"] "workflow candidate independent_audit must contain reasoning_effort and model_calls" v;
  raise_if (negb (one_of REASONING_EFFORTS (dget d "reasoning_effort"))) (ValueError "workflow candidate independent_audit.reasoning_effort is invalid");;
  raise_if (match plain_int (dget d "model_calls") with
            | Some n => negb ((MIN_AUDIT_MODEL_CALLS <=? n) && (n <=? MAX_AUDIT_MODEL_CALLS))%Z
            | None => true
            end)
    (ValueError ("workflow candidate independent_audit.model_calls must be between " +:+ Z_str MIN_AUDIT_MODEL_CALLS +:+ " and " +:+ Z_str MAX_AUDIT_MODEL_CALLS));;
  Ok (picked ["reasoning_effort"; "model_calls"] d).
Definition BASE_KEYS : list string := ["model"; "reasoning_effort"; "service_tier"; "token_policy"].
Definition validate_base_configuration (v : value) : res dict :=
  d ← exactly BASE_KEYS "workflow candidate base_configuration must contain model, reasoning_effort, service_tier, and token_policy" v;
  raise_if (match dget d "model" with VStr m => negb (occurs "/" m) | _ => true end) (ValueError "workflow candidate base_configuration.model is invalid");;
  raise_if (negb (one_of REASONING_EFFORTS (dget d "reasoning_effort"))) (ValueError "workflow candidate base_configuration.reasoning_effort is invalid");;
  raise_if (negb (one_of ["default"; "priority"] (dget d "service_tier"))) (ValueError "workflow candidate base_configuration.service_tier is invalid");;
  raise_if (negb (one_of ["measurement_only"; "hard"] (dget d "token_policy"))) (ValueError "workflow candidate base_configuration.token_policy is invalid");;
  Ok (picked BASE_KEYS d).

(** [{**body, "digest": candidate_digest(body)}]. *)
Definition sealed (body : dict) : dict := dset body "digest" (VStr (candidate_digest body)).
Definition candidate_body (kind change : string) (evaluated : dict) (evidence : value) (base changed : dict) : dict :=
  [("schema_version", VInt SCHEMA_VERSION); ("candidate_kind", VStr kind); ("evaluated_foe", VDict evaluated); ("evidence_sha256", evidence);
   ("base_configuration", VDict base); (change, VDict changed)].
Definition workflow_create (evaluated : dict) (evidence : value) (base audit : value) : res dict :=
  base_ ← validate_base_configuration base; audit_ ← validate_independent_audit audit;
  Ok (sealed (candidate_body WORKFLOW_KIND "independent_audit" evaluated evidence base_ audit_)).
Definition candidate_keys (change : string) : list string :=
  ["schema_version"; "candidate_kind"; "evaluated_foe"; "evidence_sha256"; "base_configuration"; change; "digest"].
(** What every kind checks before its own change. *)
Definition candidate_shape (label kind change : string) (v : value) : res dict :=
  d ← exactly (candidate_keys change) (label +:+ " has unknown or missing fields") v;
  raise_if (negb (py_eq (dget d "schema_version") (VInt SCHEMA_VERSION))) (ValueError (label +:+ " schema_version must be " +:+ Z_str SCHEMA_VERSION));;
  raise_if (negb (py_eq (dget d "candidate_kind") (VStr kind))) (ValueError (label +:+ " candidate_kind must be " +:+ kind));;
  Ok d.
Definition check_seal (label : string) (d : dict) : res () :=
  raise_if (negb (py_eq (dget d "digest") (VStr (candidate_digest (dpop d "digest"))))) (ValueError (label +:+ " digest does not match its contents")).
Definition workflow_validate (v : value) (evaluated : option dict) : res dict :=
  d ← candidate_shape "workflow candidate" WORKFLOW_KIND "independent_audit" v;
  e ← validate_evaluated_foe (dget d "evaluated_foe") evaluated "workflow candidate";
  evidence ← require_sha256 "workflow candidate evidence_sha256" (dget d "evidence_sha256");
  check_seal "workflow candidate" d;;
  base ← validate_base_configuration (dget d "base_configuration");
  audit ← validate_independent_audit (dget d "independent_audit");
  workflow_create (dict_or_empty (dget d "evaluated_foe")) evidence (VDict base) (VDict audit).
Definition require_matching_run (candidate : dict) (model reasoning_effort service_tier token_policy : string) : res value :=
  base ← item (VDict candidate) "base_configuration";
  observed ← validate_base_configuration
    (VDict [("model", VStr model); ("reasoning_effort", VStr reasoning_effort); ("service_tier", VStr service_tier); ("token_policy", VStr token_policy)]);
  raise_if (negb (py_eq base (VDict observed))) (ValueError "workflow candidate base configuration differs from the requested run");;
  item (VDict candidate) "independent_audit".

(** ** Instruction candidates *)

Definition INSTRUCTION_KIND : string := "instruction-revision".
Definition REVISION_FIELDS : list string := ["document"; "new_text"; "old_text"; "section"].
(** The instruction texts under a section key, of a contract and of those it holds. *)
Definition own_text (section : string) (d : dict) : list string :=
  match dget d "instructions" with VDict i => match dget i section with VStr s => [s] | _ => [] end | _ => [] end.
Fixpoint section_texts (section : string) (v : value) : list string :=
  match v with
  | VDict d =>
      own_text section d
      ++ (fix children (d : dict) : list string :=
            match d with
            | [] => []
            | (k, x) :: rest =>
                if String.eqb k "child_contracts" then
                  match x with
                  | VDict cs => (fix each (cs : dict) : list string := match cs with [] => [] | (_, c) :: cs => section_texts section c ++ each cs end) cs
                  | _ => []
                  end
                else children rest
            end) d
      ++ (fix workflow (d : dict) : list string :=
            match d with
            | [] => []
            | (k, x) :: rest =>
                if String.eqb k "workflow" then
                  match x with
                  | VDict w =>
                      (fix nodes (w : dict) : list string :=
                         match w with
                         | [] => []
                         | (k, x) :: rest =>
                             if String.eqb k "nodes" then
                               match x with
                               | VDict ns =>
                                   (fix each (ns : dict) : list string :=
                                      match ns with
                                      | [] => []
                                      | (_, VDict node) :: ns =>
                                          (fix model (n : dict) : list string :=
                                             match n with
                                             | [] => []
                                             | (k, x) :: rest => if String.eqb k "model" then section_texts section x else model rest
                                             end) node ++ each ns
                                      | _ :: ns => each ns
                                      end) ns
                               | _ => []
                               end
                             else nodes rest
                         end) w
                  | _ => []
                  end
                else workflow rest
            end) d
  | _ => []
  end.
Definition resolve_section (document : value) (section : string) : res string :=
  match section_texts section document with
  | [t] => Ok t
  | _ => Err (ValueError ("instruction candidate section " +:+ str_repr section +:+ " must name exactly one instruction section"))
  end.
(** [s.count(w)] of a text [w] that is not empty. *)
Fixpoint count_in (fuel : nat) (w s : string) : nat :=
  match fuel with
  | O => 0
  | S fuel =>
      match s with
      | EmptyString => 0
      | String _ rest => if starts_with w s then S (count_in fuel w (str_drop (String.length w) s)) else count_in fuel w rest
      end
  end.
Definition count_of (w s : string) : nat := count_in (String.length s) w s.
Definition nonempty_string (v : value) : bool := match v with VStr (String _ _) => true | _ => false end.
Definition text_at (d : dict) (k : string) : string := match dget d k with VStr s => s | _ => "" end.
Definition validate_revision (v : value) (documents : dict) : res dict :=
  d ← exactly REVISION_FIELDS "instruction candidate revision must contain document, section, old_text, and new_text" v;
  raise_if (negb (forallb (λ k, nonempty_string (dget d k)) REVISION_FIELDS)) (ValueError "instruction candidate revision fields must be nonempty strings");;
  raise_if (negb (has_key documents (text_at d "document")))
    (ValueError ("instruction candidate document must be one of: " +:+ join ", " (sorted_strings (keys documents))));;
  section ← resolve_section (dget documents (text_at d "document")) (text_at d "section");
  raise_if (negb (Nat.eqb (count_of (text_at d "old_text") section) 1)) (ValueError "instruction candidate old_text must occur exactly once in the named section");;
  raise_if (String.eqb (text_at d "new_text") (text_at d "old_text")) (ValueError "instruction candidate new_text must differ from old_text");;
  Ok (picked REVISION_FIELDS d).
Definition instruction_create (evaluated evidence base revision : value) (documents : dict) : res dict :=
  e ← validate_evaluated_foe evaluated None "instruction candidate";
  ev ← require_sha256 "instruction candidate evidence_sha256" evidence;
  base_ ← validate_base_configuration base; revision_ ← validate_revision revision documents;
  Ok (sealed (candidate_body INSTRUCTION_KIND "revision" e ev base_ revision_)).
Definition instruction_validate (v : value) (documents : dict) (evaluated : option dict) : res dict :=
  d ← candidate_shape "instruction candidate" INSTRUCTION_KIND "revision" v;
  e ← validate_evaluated_foe (dget d "evaluated_foe") evaluated "instruction candidate";
  check_seal "instruction candidate" d;;
  base ← validate_base_configuration (dget d "base_configuration");
  revision ← validate_revision (dget d "revision") documents;
  instruction_create (VDict e) (dget d "evidence_sha256") (VDict base) (VDict revision) documents.

(** ** Tool candidates *)

Definition TOOL_KIND : string := "tool-definition".
Definition small_letter (c : ascii) : bool := byte_in 97 122 c.
Definition tool_char (c : ascii) : bool := small_letter c || byte_in 48 57 c || (c =? "_")%char || (c =? "-")%char.
(** [TOOL_NAME.fullmatch]. *)
Definition tool_name (s : string) : bool :=
  match s with
  | String c rest => small_letter c && forallb tool_char (String.list_ascii_of_string rest) && (String.length rest <=? 63)
  | EmptyString => false
  end.
Definition executable_digest (content : string) : string := "sha256:" +:+ sha256_hex content.
Definition DEFINITION_FIELDS : list string := ["description"; "executable"; "executable_sha256"; "name"].
Definition validate_definition (v : value) : res dict :=
  d ← exactly DEFINITION_FIELDS "tool candidate definition must contain name, description, executable, and executable_sha256" v;
  raise_if (negb (forallb (λ k, nonempty_string (dget d k)) DEFINITION_FIELDS)) (ValueError "tool candidate definition fields must be nonempty strings");;
  raise_if (negb (tool_name (text_at d "name"))) (ValueError "tool candidate name must be a lowercase tool identifier");;
  content ← encode_utf8 (text_at d "executable");
  raise_if (negb (String.eqb (text_at d "executable_sha256") (executable_digest content)))
    (ValueError "tool candidate executable_sha256 does not match the executable content");;
  Ok (picked DEFINITION_FIELDS d).
Definition TOOL_FIELDS : list string := ["description"; "executable_sha256"; "name"].
Definition tool_create (evaluated evidence base tool : value) : res dict :=
  d ← exactly TOOL_FIELDS "tool candidate tool must contain name, description, and executable_sha256" tool;
  raise_if (negb (forallb (λ k, nonempty_string (dget d k)) TOOL_FIELDS)) (ValueError "tool candidate tool fields must be nonempty strings");;
  raise_if (negb (tool_name (text_at d "name"))) (ValueError "tool candidate name must be a lowercase tool identifier");;
  e ← validate_evaluated_foe evaluated None "tool candidate";
  ev ← require_sha256 "tool candidate evidence_sha256" evidence;
  base_ ← validate_base_configuration base;
  Ok (sealed (candidate_body TOOL_KIND "tool" e ev base_ (picked TOOL_FIELDS d))).
Definition tool_validate (v : value) (executable : string) (evaluated : option dict) : res dict :=
  d ← candidate_shape "tool candidate" TOOL_KIND "tool" v;
  e ← validate_evaluated_foe (dget d "evaluated_foe") evaluated "tool candidate";
  tool ← match dget d "tool" with VDict tool => Ok tool | _ => Err (ValueError "tool candidate tool is invalid") end;
  raise_if (negb (py_eq (dget tool "executable_sha256") (VStr (executable_digest executable))))
    (ValueError "tool candidate executable_sha256 does not match the retained file");;
  check_seal "tool candidate" d;;
  base ← validate_base_configuration (dget d "base_configuration");
  tool_create (VDict e) (dget d "evidence_sha256") (VDict base) (VDict tool).

(** ** Sealed candidates are stable *)

Lemma exactly_ok names m v d : exactly names m v = Ok d ↔ v = VDict d ∧ has_exactly names d = true.
Proof.
  unfold exactly. split.
  - destruct v; try done. destruct (has_exactly names _) eqn:E; [|done]. by intros [= ->].
  - by intros [-> ->].
Qed.
Lemma exactly_again names m d : has_exactly names d = true → exactly names m (VDict d) = Ok d.
Proof. intros H. by apply exactly_ok. Qed.
Ltac read_exactly H d := apply res_bind_ok in H as (d & [-> _]%exactly_ok & H).
Ltac guarded H E := apply res_bind_ok in H as ([] & E%raise_if_ok & H).

Lemma dget_picked ks d k : elem_str k ks = true → dget (picked ks d) k = dget d k.
Proof.
  unfold dget. induction ks as [|k' ks IH]; [done|]. cbn. destruct (String.eqb_spec k k') as [->|E]; intros H.
  - by rewrite String.eqb_refl.
  - destruct (String.eqb_spec k' k) as [->|]; [done|]. by apply IH.
Qed.
Lemma picked_exact ks d : has_exactly ks (picked ks d) = true.
Proof.
  assert (keys (picked ks d) = ks) as E by (unfold keys, picked; rewrite map_map; apply map_id). unfold has_exactly. rewrite E.
  apply andb_true_iff. split; apply forallb_forall; intros k Hk; [|by apply elem_str_spec, list_elem_of_In].
  apply has_key_elem. rewrite E. by apply list_elem_of_In.
Qed.
(** What a validation picks validates again. *)
Lemma ok_inj {A} (x y : A) : Ok x = Ok y → x = y.
Proof. congruence. Qed.
Lemma base_stable v b : validate_base_configuration v = Ok b → validate_base_configuration (VDict b) = Ok b.
Proof.
  intros H. unfold validate_base_configuration in H. read_exactly H d. guarded H E1. guarded H E2. guarded H E3. guarded H E4. apply ok_inj in H as <-.
  unfold validate_base_configuration. rewrite (exactly_again _ _ _ (picked_exact _ _)). cbn [mbind res_bind].
  rewrite !dget_picked, E1, E2, E3, E4 by reflexivity. cbn. reflexivity.
Qed.
Lemma audit_stable v a : validate_independent_audit v = Ok a → validate_independent_audit (VDict a) = Ok a.
Proof.
  intros H. unfold validate_independent_audit in H. read_exactly H d. guarded H E1. guarded H E2. apply ok_inj in H as <-.
  unfold validate_independent_audit. rewrite (exactly_again _ _ _ (picked_exact _ _)). cbn [mbind res_bind]. rewrite !dget_picked, E1, E2 by reflexivity. reflexivity.
Qed.
(** An evaluated build that is accepted, as it is kept. *)
Lemma evaluated_stable v e label r : validate_evaluated_foe v e label = Ok r →
  ∃ d, v = VDict d ∧ has_exactly EVALUATED_KEYS d = true ∧ r = picked EVALUATED_KEYS d
       ∧ validate_evaluated_foe (VDict d) e label = Ok r ∧ ∀ l, validate_evaluated_foe (VDict r) None l = Ok r.
Proof.
  intros H. pose proof H as H0. unfold validate_evaluated_foe in H. apply res_bind_ok in H as (d & [-> Hd]%exactly_ok & H). guarded H E1. guarded H E2. guarded H E3.
  apply ok_inj in H as <-. exists d. split; [done|]. split; [done|]. split; [done|]. split; [done|]. intros l.
  unfold validate_evaluated_foe. rewrite (exactly_again _ _ _ (picked_exact _ _)). cbn [mbind res_bind]. rewrite !dget_picked, E1, E2 by reflexivity. reflexivity.
Qed.
Lemma text_at_picked ks d k : elem_str k ks = true → text_at (picked ks d) k = text_at d k.
Proof. intros H. unfold text_at. by rewrite dget_picked. Qed.
Lemma nonempty_picked ks d : forallb (λ k, nonempty_string (dget (picked ks d) k)) ks = forallb (λ k, nonempty_string (dget d k)) ks.
Proof.
  apply eq_true_iff_eq. rewrite !forallb_forall. split; intros H k Hk; specialize (H k Hk); revert H; (rewrite dget_picked; [done|by apply elem_str_spec, list_elem_of_In]).
Qed.
(** An accepted revision changes one place of one section of a known document. *)
Definition revises (documents : dict) (r : dict) : Prop :=
  has_key documents (text_at r "document") = true ∧ text_at r "new_text" ≠ text_at r "old_text"
  ∧ ∃ text, section_texts (text_at r "section") (dget documents (text_at r "document")) = [text] ∧ count_of (text_at r "old_text") text = 1.
Lemma revision_stable v documents r : validate_revision v documents = Ok r → validate_revision (VDict r) documents = Ok r ∧ revises documents r.
Proof.
  intros H. unfold validate_revision in H. read_exactly H d. guarded H E1. guarded H E2. apply res_bind_ok in H as (text & Ht & H).
  guarded H E3. guarded H E4. apply ok_inj in H as <-. split.
  - unfold validate_revision. rewrite (exactly_again _ _ _ (picked_exact _ _)). cbn [mbind res_bind].
    rewrite nonempty_picked, !text_at_picked, E1, E2 by reflexivity. cbn [raise_if]. rewrite Ht. cbn [mbind res_bind]. by rewrite E3, E4.
  - unfold revises. rewrite !text_at_picked by reflexivity. split; [by apply negb_false_iff in E2|]. split; [by apply String.eqb_neq in E4|].
    exists text. unfold resolve_section in Ht. destruct (section_texts _ _) as [|t [|]]; try done. apply ok_inj in Ht as ->. split; [done|].
    by apply negb_false_iff, Nat.eqb_eq in E3.
Qed.

Lemma sealed_parts body : has_key body "digest" = false →
  dget (sealed body) "digest" = VStr (candidate_digest body) ∧ dpop (sealed body) "digest" = body ∧ ∀ k, k ≠ "digest" → dget (sealed body) k = dget body k.
Proof.
  intros H. unfold sealed. split; [apply dget_dset_eq|]. split.
  - revert H. generalize (VStr (candidate_digest body)). intros v. induction body as [|[k x] body IH]; [done|]. intros H.
    unfold has_key in *. cbn in *. destruct (String.eqb k "digest") eqn:Hk; [done|]. cbn. rewrite Hk. by rewrite (IH H).
  - intros k Hk. by apply dget_dset_ne.
Qed.
(** The seal of a candidate is the digest of the rest of it. *)
Definition is_sealed (c : dict) : Prop := dget c "digest" = VStr (candidate_digest (dpop c "digest")).
Lemma sealed_is_sealed body : has_key body "digest" = false → is_sealed (sealed body).
Proof. intros H. unfold is_sealed. destruct (sealed_parts body H) as (-> & -> & _). done. Qed.
Lemma sealed_checks label body : has_key body "digest" = false → check_seal label (sealed body) = Ok ().
Proof.
  intros H. unfold check_seal. destruct (sealed_parts body H) as (-> & -> & _). unfold py_eq. cbn. by rewrite String.eqb_refl.
Qed.

(** What a candidate keeps of the document it was accepted from. *)
Definition kept_under (key : string) (ks : list string) (d c : dict) : Prop :=
  ∀ k, elem_str k ks = true → dget (dict_or_empty (dget c key)) k = dget (dict_or_empty (dget d key)) k.
Definition keeps (change : string) (ks : list string) (d c : dict) : Prop :=
  dget c "evidence_sha256" = dget d "evidence_sha256" ∧ kept_under "evaluated_foe" EVALUATED_KEYS d c
  ∧ kept_under "base_configuration" BASE_KEYS d c ∧ kept_under change ks d c.
Lemma base_kept v b k : validate_base_configuration v = Ok b → elem_str k BASE_KEYS = true → dget b k = dget (dict_or_empty v) k.
Proof.
  intros H Hk. unfold validate_base_configuration in H. read_exactly H d. guarded H E1. guarded H E2. guarded H E3. guarded H E4. apply ok_inj in H as <-.
  by apply dget_picked.
Qed.
Lemma audit_kept v a k : validate_independent_audit v = Ok a → elem_str k ["reasoning_effort"; "model_calls"] = true → dget a k = dget (dict_or_empty v) k.
Proof.
  intros H Hk. unfold validate_independent_audit in H. read_exactly H d. guarded H E1. guarded H E2. apply ok_inj in H as <-. by apply dget_picked.
Qed.
Definition CHANGES : list string := ["independent_audit"; "revision"; "tool"].
Lemma body_reads kind change e ev base x : change ∈ CHANGES →
  let c := sealed (candidate_body kind change e ev base x) in
  dget c "evaluated_foe" = VDict e ∧ dget c "evidence_sha256" = ev ∧ dget c "base_configuration" = VDict base ∧ dget c change = VDict x
  ∧ is_sealed c ∧ (∀ label, check_seal label c = Ok ()) ∧ (∀ label, candidate_shape label kind change (VDict c) = Ok c).
Proof.
  intros Hc c. assert (has_key (candidate_body kind change e ev base x) "digest" = false) as Hd.
  { unfold CHANGES in Hc. rewrite !elem_of_cons, elem_of_nil in Hc. by destruct Hc as [->|[->|[->|[]]]]. }
  destruct (sealed_parts _ Hd) as (_ & _ & Hk).
  assert (dget c "schema_version" = VInt SCHEMA_VERSION ∧ dget c "candidate_kind" = VStr kind ∧ has_exactly (candidate_keys change) c = true
          ∧ dget c change = VDict x) as (H1 & H2 & H3 & H4).
  { split; [by apply Hk|]. split; [by apply Hk|]. subst c. unfold CHANGES in Hc. rewrite !elem_of_cons, elem_of_nil in Hc.
    destruct Hc as [->|[->|[->|[]]]]; (split; [reflexivity|]); by apply Hk. }
  split; [by apply Hk|]. split; [by apply Hk|]. split; [by apply Hk|]. split; [done|]. split; [by apply sealed_is_sealed|].
  split; [intros label; by apply sealed_checks|]. intros label. unfold candidate_shape. rewrite exactly_again by done. cbn [mbind res_bind].
  rewrite H1, H2. unfold py_eq. cbn. by rewrite String.eqb_refl.
Qed.
Lemma shape_inv label kind change v d : candidate_shape label kind change v = Ok d → v = VDict d.
Proof. intros H. unfold candidate_shape in H. read_exactly H d'. guarded H E1. guarded H E2. by apply ok_inj in H as ->. Qed.
Lemma sha256_inv label v r : require_sha256 label v = Ok r → r = v.
Proof. unfold require_sha256. destruct (has_fingerprint_shape _ _ _); [|done]. by intros [= ->]. Qed.

Lemma dict_itself d : dict_or_empty (VDict d) = d.
Proof. done. Qed.
Lemma picked_from v e label r k : validate_evaluated_foe v e label = Ok r → elem_str k EVALUATED_KEYS = true → dget r k = dget (dict_or_empty v) k.
Proof. intros (d & -> & _ & -> & _)%evaluated_stable Hk. by apply dget_picked. Qed.
Lemma revision_kept v documents r k : validate_revision v documents = Ok r → elem_str k REVISION_FIELDS = true → dget r k = dget (dict_or_empty v) k.
Proof.
  intros H Hk. unfold validate_revision in H. read_exactly H d. guarded H E1. guarded H E2. apply res_bind_ok in H as (text & _ & H).
  guarded H E3. guarded H E4. apply ok_inj in H as <-. by apply dget_picked.
Qed.
(** What is created validates to itself. *)
Lemma workflow_created fd ev base audit c e r label l : workflow_create fd ev base audit = Ok c →
  validate_evaluated_foe (VDict fd) e label = Ok r → require_sha256 l ev = Ok ev →
  is_sealed c ∧ (label = "workflow candidate" → workflow_validate (VDict c) e = Ok c)
  ∧ dget c "evidence_sha256" = ev ∧ dget c "evaluated_foe" = VDict fd
  ∧ kept_under "base_configuration" BASE_KEYS [("base_configuration", base)] c
  ∧ kept_under "independent_audit" ["reasoning_effort"; "model_calls"] [("independent_audit", audit)] c.
Proof.
  intros H He Hev. unfold workflow_create in H. apply res_bind_ok in H as (b & Hb & (a & Ha & H)%res_bind_ok). apply ok_inj in H as <-.
  edestruct (body_reads WORKFLOW_KIND "independent_audit" fd ev b a) as (R1 & R2 & R3 & R4 & R5 & R6 & R7); [by left|].
  split; [done|]. split; [|split; [done|split; [done|unfold kept_under; rewrite R3, R4, !dict_itself; split; intros k Hk; [by apply base_kept|by apply audit_kept]]]].
  intros ->. unfold workflow_validate, workflow_create. rewrite R7. cbn [mbind res_bind]. rewrite R1, R2, R3, R4, R6, He. cbn [mbind res_bind].
  assert (∀ l', require_sha256 l' ev = Ok ev) as -> by (intros l'; unfold require_sha256 in *; by destruct (has_fingerprint_shape _ _ _)).
  cbn [mbind res_bind]. rewrite (base_stable _ _ Hb), (audit_stable _ _ Ha). cbn [mbind res_bind]. rewrite dict_itself.
  by rewrite (base_stable _ _ (base_stable _ _ Hb)), (audit_stable _ _ (audit_stable _ _ Ha)).
Qed.
Lemma instruction_created ef ev base revision documents c : instruction_create ef ev base revision documents = Ok c →
  is_sealed c ∧ instruction_validate (VDict c) documents None = Ok c ∧ revises documents (dict_or_empty (dget c "revision"))
  ∧ dget c "evidence_sha256" = ev ∧ kept_under "evaluated_foe" EVALUATED_KEYS [("evaluated_foe", ef)] c
  ∧ kept_under "base_configuration" BASE_KEYS [("base_configuration", base)] c ∧ kept_under "revision" REVISION_FIELDS [("revision", revision)] c.
Proof.
  intros H. unfold instruction_create in H.
  apply res_bind_ok in H as (e & He & (ev' & Hev & (b & Hb & (r & Hr & H)%res_bind_ok)%res_bind_ok)%res_bind_ok). apply ok_inj in H as <-.
  pose proof (sha256_inv _ _ _ Hev) as ->. destruct (evaluated_stable _ _ _ _ He) as (_ & _ & _ & _ & _ & Hagain). destruct (revision_stable _ _ _ Hr) as [Hr2 Hrev].
  edestruct (body_reads INSTRUCTION_KIND "revision" e ev b r) as (R1 & R2 & R3 & R4 & R5 & R6 & R7); [by right; left|].
  split; [done|]. split; [|split; [by rewrite R4, dict_itself|split; [done|unfold kept_under; rewrite R1, R3, R4, !dict_itself]]].
  - unfold instruction_validate, instruction_create. rewrite R7. cbn [mbind res_bind]. rewrite R1, R2, R3, R4, R6, Hagain.
    cbn [mbind res_bind]. rewrite (base_stable _ _ Hb), Hr2. cbn [mbind res_bind]. rewrite Hagain. cbn [mbind res_bind]. rewrite Hev. cbn [mbind res_bind].
    by rewrite (base_stable _ _ Hb), Hr2.
  - split; [intros k Hk; by eapply picked_from|]. split; intros k Hk; [by apply base_kept|by eapply revision_kept].
Qed.
Lemma tool_created ef ev base tool c executable : tool_create ef ev base tool = Ok c →
  py_eq (dget (dict_or_empty tool) "executable_sha256") (VStr (executable_digest executable)) = true →
  is_sealed c ∧ tool_validate (VDict c) executable None = Ok c
  ∧ dget c "evidence_sha256" = ev ∧ kept_under "evaluated_foe" EVALUATED_KEYS [("evaluated_foe", ef)] c
  ∧ kept_under "base_configuration" BASE_KEYS [("base_configuration", base)] c ∧ kept_under "tool" TOOL_FIELDS [("tool", tool)] c.
Proof.
  intros H Hx. unfold tool_create in H. read_exactly H t. guarded H E1. guarded H E2.
  apply res_bind_ok in H as (e & He & (ev' & Hev & (b & Hb & H)%res_bind_ok)%res_bind_ok). apply ok_inj in H as <-.
  pose proof (sha256_inv _ _ _ Hev) as ->. destruct (evaluated_stable _ _ _ _ He) as (_ & _ & _ & _ & _ & Hagain).
  edestruct (body_reads TOOL_KIND "tool" e ev b (picked TOOL_FIELDS t)) as (R1 & R2 & R3 & R4 & R5 & R6 & R7); [by right; right; left|].
  split; [done|]. split; [|split; [done|unfold kept_under; rewrite R1, R3, R4, !dict_itself]].
  - unfold tool_validate, tool_create. rewrite R7. cbn [mbind res_bind]. rewrite R1, R2, R3, R4, R6, Hagain.
    cbn [mbind res_bind]. rewrite dget_picked by reflexivity. rewrite dict_itself in Hx. rewrite Hx. cbn [negb raise_if mbind res_bind]. rewrite (base_stable _ _ Hb).
    cbn [mbind res_bind]. rewrite (exactly_again _ _ _ (picked_exact _ _)). cbn [mbind res_bind].
    rewrite nonempty_picked, !text_at_picked, E1, E2, Hagain by reflexivity.
    cbn [raise_if mbind res_bind]. rewrite Hev. cbn [mbind res_bind]. rewrite (base_stable _ _ Hb). cbn [mbind res_bind]. by do 3 f_equal.
  - split; [intros k Hk; by eapply picked_from|]. split; intros k Hk; [by apply base_kept|by apply dget_picked].
Qed.
Lemma kept_again key ks d c x : kept_under key ks [(key, x)] c → (∀ k, elem_str k ks = true → dget (dict_or_empty x) k = dget (dict_or_empty (dget d key)) k) →
  kept_under key ks d c.
Proof. intros H E k Hk. rewrite H, <-E by done. unfold dget at 2. cbn. by rewrite String.eqb_refl. Qed.
Lemma kept_base key d c v b : validate_base_configuration (dget d key) = Ok b → v = VDict b → kept_under key BASE_KEYS [(key, v)] c → kept_under key BASE_KEYS d c.
Proof. intros Hb -> H. apply (kept_again _ _ _ _ _ H). intros k Hk. rewrite dict_itself. by apply base_kept. Qed.

(** Claim C39. A candidate that is accepted, of a workflow, an instruction or a tool, is sealed:
    its digest is that of the rest of it, so that no part of it can be changed and
    the seal kept but by a collision; it is accepted again and stays what it is; it
    keeps the evidence, the build, the settings and the change of the document it was
    read from; a revision changes the one place its old text has in one section of a
    known document; and a tool's digest is that of the bytes retained. *)
Theorem candidates_sealed :
  (∀ v e c, workflow_validate v e = Ok c → is_sealed c ∧ workflow_validate (VDict c) e = Ok c
     ∧ ∃ d, v = VDict d ∧ keeps "independent_audit" ["reasoning_effort"; "model_calls"] d c)
  ∧ (∀ v documents e c, instruction_validate v documents e = Ok c → is_sealed c ∧ instruction_validate (VDict c) documents None = Ok c
     ∧ (∃ d, v = VDict d ∧ keeps "revision" REVISION_FIELDS d c) ∧ revises documents (dict_or_empty (dget c "revision")))
  ∧ (∀ v executable e c, tool_validate v executable e = Ok c → is_sealed c ∧ tool_validate (VDict c) executable None = Ok c
     ∧ (∃ d, v = VDict d ∧ keeps "tool" TOOL_FIELDS d c)
     ∧ py_eq (dget (dict_or_empty (dget c "tool")) "executable_sha256") (VStr (executable_digest executable)) = true).
Proof.
  split; [|split].
  - intros v e c H. unfold workflow_validate in H. apply res_bind_ok in H as (d & ->%shape_inv & H).
    apply res_bind_ok in H as (ef & He & (ev & Hev & ([] & _ & (base & Hb & (audit & Ha & H)%res_bind_ok)%res_bind_ok)%res_bind_ok)%res_bind_ok).
    destruct (evaluated_stable _ _ _ _ He) as (fd & Efd & _ & _ & Hfd & _). rewrite Efd, dict_itself in H.
    pose proof (sha256_inv _ _ _ Hev) as Eev. rewrite <-Eev in Hev.
    destruct (workflow_created _ _ _ _ _ _ _ _ _ H Hfd Hev) as (H1 & H2 & H3 & H4 & H5 & H6). split; [done|]. split; [by apply H2|].
    exists d. split; [done|]. split; [by rewrite H3|]. split; [intros k Hk; by rewrite H4, Efd|]. split; [by eapply kept_base|].
    apply (kept_again _ _ _ _ _ H6). intros k Hk. rewrite dict_itself. by apply audit_kept.
  - intros v documents e c H. unfold instruction_validate in H. apply res_bind_ok in H as (d & ->%shape_inv & H).
    apply res_bind_ok in H as (ef & He & ([] & _ & (base & Hb & (revision & Hr & H)%res_bind_ok)%res_bind_ok)%res_bind_ok).
    destruct (instruction_created _ _ _ _ _ _ H) as (H1 & H2 & H3 & H4 & H5 & H6 & H7). split; [done|]. split; [done|]. split; [|done].
    exists d. split; [done|]. split; [done|]. split; [|split; [by eapply kept_base|]].
    + apply (kept_again _ _ _ _ _ H5). intros k Hk. rewrite dict_itself. by eapply picked_from.
    + apply (kept_again _ _ _ _ _ H7). intros k Hk. rewrite dict_itself. by eapply revision_kept.
  - intros v executable e c H. unfold tool_validate in H. apply res_bind_ok in H as (d & ->%shape_inv & H).
    apply res_bind_ok in H as (ef & He & (tool & Ht & ([] & Hx%raise_if_ok%negb_false_iff & ([] & _ & (base & Hb & H)%res_bind_ok)%res_bind_ok)%res_bind_ok)%res_bind_ok).
    assert (dget d "tool" = VDict tool) as Etool by (destruct (dget d "tool"); try done; by apply ok_inj in Ht as ->).
    destruct (tool_created _ _ _ _ _ _ H Hx) as (H1 & H2 & H3 & H4 & H5 & H6). split; [done|]. split; [done|]. split.
    + exists d. split; [done|]. split; [done|]. split; [|split; [by eapply kept_base|]].
      * apply (kept_again _ _ _ _ _ H4). intros k Hk. rewrite dict_itself. by eapply picked_from.
      * apply (kept_again _ _ _ _ _ H6). intros k Hk. by rewrite dict_itself, Etool.
    + rewrite H6 by done. unfold dget at 2. cbn [assoc]. by rewrite String.eqb_refl.
Qed.

(** ** A candidate *)

Definition demo_build : dict :=
  [("source_tree", VStr ("git-tree-sha1:" +:+ str_take 40 (sha256_hex "tree"))); ("runtime_binary", VStr ("sha256:" +:+ sha256_hex "binary"))].
Definition demo_base : value :=
  VDict [("model", VStr "openai-codex/model"); ("reasoning_effort", VStr "low"); ("service_tier", VStr "priority"); ("token_policy", VStr "hard")].
Definition demo_document : value :=
  VDict [("instructions", VDict [("10-role", VStr "Work. Work carefully.")]);
         ("workflow", VDict [("nodes", VDict [("plan", VDict [("model", VDict [("instructions", VDict [("20-plan", VStr "Plan first.")])])])])])].
Definition demo_revision : value :=
  VDict [("document", VStr "agent"); ("section", VStr "20-plan"); ("old_text", VStr "first"); ("new_text", VStr "second")].
Definition demo_candidate (r : res dict) : dict := match r with Ok c => c | Err _ => [] end.
Definition demo_instruction : dict :=
  demo_candidate (instruction_create (VDict demo_build) (VStr ("sha256:" +:+ sha256_hex "evidence")) demo_base demo_revision [("agent", demo_document)]).
Lemma candidates_sealed_witness :
  instruction_validate (VDict demo_instruction) [("agent", demo_document)] (Some demo_build) = Ok demo_instruction
  ∧ is_sealed demo_instruction.
Proof.
  assert (instruction_validate (VDict demo_instruction) [("agent", demo_document)] (Some demo_build) = Ok demo_instruction) as E by (vm_compute; reflexivity).
  split; [exact E|]. exact (proj1 (proj1 (proj2 candidates_sealed) _ _ _ _ E)).
Defined.
(** A section named twice, a text that occurs twice, and a changed part. *)
Example demo_refusals :
  (resolve_section demo_document "20-plan", count_of "Work" "Work. Work carefully.",
   match instruction_validate (VDict (dset demo_instruction "evidence_sha256" (VStr ("sha256:" +:+ sha256_hex "other")))) [("agent", demo_document)] None with
   | Err (ValueError m) => m | _ => "" end)
  = (Ok "Plan first.", 2, "instruction candidate digest does not match its contents").
Proof. vm_compute. reflexivity. Qed.
