(* ===== verification/CodexRun.v ===== *)
(** * The credential and the run of the Codex arm

    src/evals/cross_harness/arms/codex_arm.py: the credential copy a run holds,
    how it is written back and removed, and the run of the arm.  The file system
    is the one of [TaskRoot]; paths are resolved, the name of a temporary file,
    the clock and the watched process are arguments. *)

From Stdlib Require Import Ascii.
From stdpp Require Import base gmap sets list strings pretty sorting.
From Stdlib Require Import ZArith Lia.
From S2P Require Import Prelude PyValue PyText PyJson PyUnicode JsonText PyPath Sha256 BudgetWatcher Graphs FoeArm CodexArm TaskProtocol TaskRoot RunLaunch.

Definition CODEX_HOME_NAME : string := "codex-home".
Definition CREDENTIAL_NAME : string := "auth.json".
Definition CONFIG_CANARY_NAME : string := "config.toml".
Definition CONFIG_CANARY_KEY : string := "developer_instructions".
Definition SCHEMA_NAME : string := "schema.json".
Definition LAST_NAME : string := "last.txt".
Definition CODEX_STDERR_NAME : string := "stderr.txt".
Definition WRITE_BACK_UNCHANGED : string := "unchanged".
Definition WRITE_BACK_WRITTEN : string := "written".
Definition WRITE_BACK_REFUSED : string := "refused".
Definition WRITE_BACK_ABSENT : string := "absent".
Definition WRITE_BACK_FAILED : string := "failed".

(** ** System calls *)

(** [os.open(p, O_WRONLY | O_CREAT | O_EXCL)]. *)
Definition create_file (p : path) : io () :=
  call (λ _ t, t)
    (λ t, if exists_at t p then (Err (already p), t)
          else if is_folder t (parent_of p) then (Ok (), <[p := File ""]> t) else (Err (no_such p), t)).
Definition chmod (p : path) : io () := call (λ _ t, t) (λ t, (if exists_at t p then Ok () else Err (no_such p), t)).
Definition fsync (p : path) : io () := call (λ _ t, t) (λ t, (if exists_at t p then Ok () else Err (no_such p), t)).
(** [os.replace] of a file. *)
Definition replace_file (src dst : path) : io () :=
  call (λ _ t, t)
    (λ t, match t !! src with
          | Some (File c) => if is_folder t dst then (Err (is_a_folder dst), t)
                             else if is_folder t (parent_of dst) then (Ok (), <[dst := File c]> (delete src t)) else (Err (no_such dst), t)
          | _ => (Err (no_such src), t)
          end).
(** [try: ... except Exception as exc: ...], of a handler that gives a value. *)
Definition catching {A} (m : io A) (f : exn → option A) : io A := λ w,
  match m w with
  | (Err e, w) => match f e with Some a => (Ok a, w) | None => (Err e, w) end
  | r => r
  end.
(** [try: a = ... finally: b = ...]. *)
Definition settling {A B} (m : io A) (c : io B) : io (A * B) := λ w,
  let '(r, w) := m w in
  match c w with
  | (Ok b, w) => (match r with Ok a => Ok (a, b) | Err e => Err e end, w)
  | (Err e, w) => (Err e, w)
  end.

(** ** The credential copy *)

Record CredentialCopy : Type := { source : path; copy : path; source_digest : string }.
Fixpoint key_paths (prefix : string) (v : value) : list string :=
  match v with
  | VDict d => concat (map (λ kv, (prefix +:+ kv.1) :: key_paths (prefix +:+ kv.1 +:+ ".") kv.2) d)
  | _ => []
  end.
Definition config_canary_text (sentence : string) : string :=
  "# Planted by the cross-harness evaluation. The run passes --ignore-user-config, so this file must never be loaded;" +:+ nl +:+
  "# a model request that carries the sentence below shows that it was." +:+ nl +:+
  CONFIG_CANARY_KEY +:+ " = " +:+ toml_string (str_strip sentence) +:+ nl.
(** [prepare_home]. *)
Definition home_of (s : CodexSpec) : path := path_parts (c_artifacts s) ++ [CODEX_HOME_NAME].
Definition credential_of (s : CodexSpec) : path := path_parts (credential_source s).
Definition prepare_home (s : CodexSpec) : io CredentialCopy :=
  let home := home_of s in
  let copy := home ++ [CREDENTIAL_NAME] in
  t ← look id;
  unless (is_file t (credential_of s)) (OSError ("credential source " +:+ shown (credential_of s) +:+ " is not a file"));;
  unless (negb (exists_at t home)) (OSError (shown home +:+ " exists; a run needs a fresh CODEX_HOME, so give each run its own artifacts directory"));;
  make_folders home;;
  data ← read_file (credential_of s);
  create_file copy;;
  write_file copy data;;
  chmod copy;;
  match config_canary s with
  | Some sentence => write_file (home ++ [CONFIG_CANARY_NAME]) (config_canary_text sentence)
  | None => mret ()
  end;;
  mret {| source := credential_of s; copy := copy; source_digest := sha256_hex data |}.

Definition write_back_record (state reason : string) (source_ : path) : dict :=
  [("state", VStr state); ("written", VBool (String.eqb state WRITE_BACK_WRITTEN)); ("reason", VStr reason); ("source", VStr (shown source_))].

(** What stands in the way of a rewritten copy: an unusable file, by name, or
    the keys it lacks. *)
Definition object_in (name : string) (p : path) (data : string) : dict + string :=
  let but := "the credential " +:+ name +:+ " " +:+ shown p in
  match utf8_fault false data with
  | Some f => inr (but +:+ " is not valid UTF-8 at byte offset " +:+ nat_str f.1.1.1 +:+ ", so the copy is not written back")
  | None =>
      match loads_str data with
      | inr e => inr (but +:+ " does not parse as JSON (" +:+ load_error_str e +:+ "), so the copy is not written back")
      | inl (VDict d) => inl d
      | inl v => inr (but +:+ " is a " +:+ type_name v +:+ " rather than a JSON object, so the copy is not written back")
      end
  end.
Definition missing_keys (held given_ : dict) : list string :=
  sorted_set (List.filter (λ k, negb (elem_str k (key_paths "" (VDict given_)))) (key_paths "" (VDict held))).
Definition write_back_refusal (c : CredentialCopy) (source_bytes copy_bytes : string) : option string :=
  match object_in "source" (source c) source_bytes, object_in "copy" (copy c) copy_bytes with
  | inr reason, _ | inl _, inr reason => Some reason
  | inl held, inl kept =>
      match missing_keys held kept with
      | [] => None
      | l => Some ("the credential copy " +:+ shown (copy c) +:+ " lacks the keys " +:+ join ", " l +:+ " that " +:+ shown (source c)
                   +:+ " holds, so the copy is not written back")
      end
  end.

Section credential.
(** The part of a temporary file's name that is made up. *)
Context (fresh : tree → string).
Definition temporary_path (c : CredentialCopy) (t : tree) : path :=
  parent_of (source c) ++ ["." +:+ default "" (last (source c)) +:+ "." +:+ fresh t +:+ ".write-back"].
(** The write itself: a temporary file, flushed, then renamed over the source. *)
Definition staged (tmp : path) (copy_bytes : string) : io () := write_file tmp copy_bytes;; fsync tmp;; chmod tmp.
Definition replace_source (c : CredentialCopy) (copy_bytes : string) : io () :=
  temporary ← look (temporary_path c);
  create_file temporary;;
  on_error (staged temporary copy_bytes;; replace_file temporary (source c)) (unlink true temporary);;
  catching (fsync (parent_of (source c))) (λ e, if os_error e then Some () else None).
(** [write_back]. *)
Definition write_back (c : CredentialCopy) : io dict :=
  let says state reason := mret (write_back_record state reason (source c)) in
  let s := shown (source c) in let p := shown (copy c) in
  there ← look (λ t, is_file t (copy c));
  if negb there then says WRITE_BACK_ABSENT ("the credential copy " +:+ p +:+ " is absent after the run, so nothing is written back") else
  copy_bytes ← read_file (copy c);
  source_bytes ← read_file (source c);
  if String.eqb copy_bytes source_bytes then
    says WRITE_BACK_UNCHANGED ("the credential copy " +:+ p +:+ " holds what " +:+ s +:+ " holds, so nothing is written back")
  else if negb (String.eqb (sha256_hex source_bytes) (source_digest c)) then
    if String.eqb (sha256_hex copy_bytes) (source_digest c) then
      says WRITE_BACK_UNCHANGED ("the credential copy " +:+ p +:+ " holds what " +:+ s +:+ " held when the copy was made, and another process wrote "
        +:+ s +:+ " while the run held the copy, so nothing is written back")
    else says WRITE_BACK_REFUSED ("the credential source " +:+ s +:+ " changed while the run held the copy " +:+ p
        +:+ ", so the rewritten copy is not written back; another process holds the same credential")
  else match write_back_refusal c source_bytes copy_bytes with
       | Some reason => says WRITE_BACK_REFUSED reason
       | None =>
           replace_source c copy_bytes;;
           says WRITE_BACK_WRITTEN ("the credential copy " +:+ p +:+ " differs from " +:+ s +:+ " and was written back to it")
       end.

(** [remove_credential] and [settle_credential]. *)
Definition remove_credential (home : path) : io () := λ w,
  let p := home ++ [CREDENTIAL_NAME] in
  match unlink true p w with
  | (Err (OSError m), w) => (Err (OSError ("the credential copy " +:+ shown p +:+ " could not be removed: " +:+ m)), w)
  | r => r
  end.
Definition removal_of (c : CredentialCopy) (keep : bool) : io value :=
  if keep then mret VNone
  else catching (remove_credential (parent_of (copy c));; mret VNone) (λ e, if os_error e then Some (VStr (exn_str e)) else None).
Definition write_back_state (c : CredentialCopy) : io dict :=
  catching (write_back c)
    (λ e, Some (write_back_record WRITE_BACK_FAILED ("the credential copy " +:+ shown (copy c) +:+ " could not be written back to "
                 +:+ shown (source c) +:+ ": " +:+ exn_str e) (source c))).
Definition settle_credential (c : CredentialCopy) (keep : bool) : io dict :=
  state ← write_back_state c;
  removal ← removal_of c keep;
  mret (state ++ [("copy_removal_failure", removal)]).
End credential.

(** ** The run of the arm *)

Definition usage_dict (u : Usage) : dict :=
  [("input_tokens", VInt (input_tokens u)); ("cached_input_tokens", VInt (cached_input_tokens u));
   ("cache_write_input_tokens", VInt (cache_write_input_tokens u)); ("output_tokens", VInt (output_tokens u));
   ("reasoning_output_tokens", VInt (reasoning_output_tokens u))].
Definition session_files (t : tree) (home : path) : list path :=
  if is_folder t (home ++ ["sessions"]) then
    List.filter (λ p, ends_with ".jsonl" (default "" (last p))) (files_under t (home ++ ["sessions"]))
  else [].
Definition read_if_file (p : path) : io (option (res string)) :=
  there ← look (λ t, is_file t p);
  if there : bool then content ← read_file p; mret (Some (Ok content)) else mret None.
Definition opt_text (s : option string) : value := match s with Some s => VStr s | None => VNone end.

Section run.
Context (fresh : tree → string) (os_environ : list (string * string)) (executable : tree → path → bool) (started ended : Z).
(** [codex_budget_watcher.run_with_watcher]: the command under the watcher, with
    what it printed and what it left of the file system. *)
Context (watched : list string → path → dict → path → list (string * string) → tree → res (option Z * option Stop * string * string) * tree).

Definition artifact (s : CodexSpec) (name : string) : path := path_parts (c_artifacts s) ++ [name].
Definition run_watched (s : CodexSpec) : io (list string * (option Z * option Stop * string * string)) :=
  write_file (artifact s SCHEMA_NAME) (dumps_indented (VDict (schema_of s)) +:+ nl);;
  unlink true (artifact s LAST_NAME);;
  command ← lift (codex_command s (shown (artifact s SCHEMA_NAME)) (shown (artifact s LAST_NAME)));
  let env := dset (default os_environ (environment s)) "CODEX_HOME" (shown (home_of s)) in
  result ← call (λ _ t, t) (watched command (home_of s) (limits s) (path_parts (c_workspace s)) env);
  mret (command, result).
Definition codex_record (s : CodexSpec) (c : CredentialCopy) (t : tree) (command : list string) (exit : option Z) (stop : option Stop)
    (settled : dict) (summary : Summary) (problems : list string) : dict :=
  [("harness", VStr CODEX_HARNESS); ("commands", VList [strs command]); ("cwd", VStr (c_workspace s)); ("codex_home", VStr (shown (home_of s)));
   ("credential_source", VStr (credential_source s)); ("credential_copy", VStr (shown (copy c)));
   ("credential_removed", VBool (negb (exists_at t (copy c)))); ("credential_written_back", dget settled "written");
   ("credential_write_back", VDict settled);
   ("config_canary_file", match config_canary s with Some _ => VStr (shown (home_of s ++ [CONFIG_CANARY_NAME])) | None => VNone end);
   ("schema", VStr (shown (artifact s SCHEMA_NAME))); ("last_message", VStr (shown (artifact s LAST_NAME)));
   ("events", VStr (shown (artifact s EVENTS_NAME))); ("stderr", VStr (shown (artifact s CODEX_STDERR_NAME)));
   ("session_files", strs (map shown (session_files t (home_of s)))); ("sandbox", VStr (sandbox s)); ("model", VStr (c_model s));
   ("reasoning_effort", VStr (c_reasoning_effort s)); ("agents_enabled", VBool (agents_enabled s));
   ("max_threads", if agents_enabled s then option_value (max_threads s) else VNone); ("limits", VDict (limits s));
   ("stop", match stop with Some x => VDict (Stop_to_dict x) | None => VNone end); ("thread_id", opt_text (thread summary));
   ("turns", VInt (Z.of_nat (turns summary))); ("usage", VDict (usage_dict (usage summary)));
   ("items", VDict (map (λ kv, (kv.1, VInt (Z.of_nat kv.2))) (items summary))); ("errors", strs (errors summary));
   ("problems", strs problems); ("exit_status", option_value exit)].
(** What follows the run: the streams are kept and read, and the outcome told. *)
Definition report_run (s : CodexSpec) (c : CredentialCopy) (ran : list string * (option Z * option Stop * string * string) * dict) : io ArmResult :=
  let '(command, (exit, stop, out, err), settled) := ran in
  let stdout := decode_replace out in let stderr := decode_replace err in
  write_file (artifact s EVENTS_NAME) stdout;;
  write_file (artifact s CODEX_STDERR_NAME) stderr;;
  let '(events, event_problems) := parse_events stdout in
  summary ← lift (summarize_events events);
  file ← (if match stop, exit with None, Some z => (0 <=? z)%Z | None, None => true | Some _, _ => false end
          then read_if_file (artifact s LAST_NAME) else mret None);
  told ← lift (interpret_codex stop exit (shown (artifact s LAST_NAME)) file (schema_of s) summary stderr);
  let '(outcome, candidate, problems) := told in
  t ← look id;
  mret {| result_arm := c_arm_name s; result_harness := CODEX_HARNESS; started_ms := started; ended_ms := ended; exit_status := exit;
          result_reported := outcome; FoeArm.candidate := candidate; result_artifacts := c_artifacts s;
          result_record := codex_record s c t command exit stop settled summary (event_problems ++ summary_problems summary ++ problems) |}.
(** [run]: up to the credential copy, and from there. *)
Definition begin_run (s : CodexSpec) : io CredentialCopy :=
  t ← look id;
  unless (executable t (path_parts (codex s))) (OSError ("codex binary " +:+ codex s +:+ " is not an executable file"));;
  unless (is_folder t (path_parts (c_workspace s))) (OSError ("workspace " +:+ c_workspace s +:+ " is not a directory"));;
  ensure_folders (path_parts (c_artifacts s));;
  prepare_home s.
Definition codex_run (s : CodexSpec) : io ArmResult :=
  c ← begin_run s;
  ran ← settling (run_watched s) (settle_credential fresh c (keep_credential s));
  report_run s c ran.
End run.

(** ** What the settling of a credential does *)

Lemma call_ok {A : Type} (failed : failure → tree → tree) (f : tree → res A * tree) w a w' : call failed f w = (Ok a, w') →
  f (files w) = (Ok a, files w') ∧ leftovers w' = leftovers w.
Proof. unfold call. destruct (faults w) as [|[x|] fs]; [|done|]; destruct (f (files w)) as [r t]; by intros [= -> <-]. Qed.
Lemma call_err {A : Type} (failed : failure → tree → tree) (f : tree → res A * tree) w e w' : call failed f w = (Err e, w') → leftovers w' = leftovers w ∧
  (f (files w) = (Err e, files w') ∨ ∃ x, files w' = failed x (files w)).
Proof.
  unfold call. destruct (faults w) as [|[x|] fs].
  - destruct (f (files w)) as [r t]. intros [= -> <-]. by split; [|left].
  - intros [= _ <-]. split; [done|right]. by exists x.
  - destruct (f (files w)) as [r t]. intros [= -> <-]. by split; [|left].
Qed.
Lemma create_file_cases p w r w' : create_file p w = (r, w') → leftovers w' = leftovers w ∧
  (r = Ok () ∧ files w !! p = None ∧ files w' = <[p := File ""]> (files w) ∨ (∃ e, r = Err e) ∧ files w' = files w).
Proof.
  intros H. destruct r as [[]|e].
  - apply call_ok in H as [H ->]. split; [done|left]. unfold exists_at in H.
    destruct (files w !! p) eqn:Ep; [done|]. destruct (is_folder _ _); [|done]. by injection H as <-.
  - apply call_err in H as [-> [H|[x H]]]; (split; [done|right; split; [by eexists|]]); [|done].
    destruct (exists_at _ _); [by injection H as _ <-|]. destruct (is_folder _ _); by injection H.
Qed.
Lemma replace_file_cases src dst w r w' : replace_file src dst w = (r, w') → leftovers w' = leftovers w ∧
  (r = Ok () ∧ (∃ c, files w !! src = Some (File c) ∧ files w' = <[dst := File c]> (delete src (files w))) ∨ (∃ e, r = Err e) ∧ files w' = files w).
Proof.
  intros H. destruct r as [[]|e].
  - apply call_ok in H as [H ->]. split; [done|left]. destruct (files w !! src) as [[c|]|]; try done.
    destruct (is_folder _ dst); [done|]. destruct (is_folder _ _); [|done]. injection H as <-. split; [done|]. by exists c.
  - apply call_err in H as [-> [H|[x H]]]; (split; [done|right; split; [by eexists|]]); [|done].
    destruct (files w !! src) as [[c|]|]; [|by injection H as _ <-..].
    destruct (is_folder _ dst); [by injection H as _ <-|]. by destruct (is_folder _ _); injection H.
Qed.
Lemma unlink_cases p w r w' : unlink true p w = (r, w') →
  (∀ q, q ≠ p → files w' !! q = files w !! q) ∧
  (r = Ok () ∧ files w' !! p = None ∧ leftovers w' = leftovers w ∨ (∃ m, r = Err (OSError m)) ∧ files w' = files w ∧ p ∈ leftovers w') ∧
  (∀ x, x ∈ leftovers w → x ∈ leftovers w').
Proof.
  unfold unlink. set (m := call _ _). destruct (m w) as [[[]|e] w1] eqn:E.
  - intros [= <- <-]. apply call_ok in E as [E El]. rewrite El. destruct (files w !! p) as [[c|]|] eqn:Ep; [|done|];
      injection E as E; rewrite <-E; (split_and!; [|left|done]).
    + intros q Hq. by apply lookup_delete_ne.
    + by rewrite lookup_delete_eq.
    + done.
    + by rewrite Ep.
  - intros [= <- <-]. assert (∃ s, e = OSError s) as [s ->].
    { unfold m, call in E. destruct (faults w) as [|[x|] fs]; [|injection E as <- _; by eexists|];
        (destruct (files w !! p) as [[c|]|]; [done| |done]; injection E as <- _; by eexists). }
    apply call_err in E as [El E]. assert (Ef : files w1 = files w).
    { destruct E as [E|[x E]]; [|done]. by destruct (files w !! p) as [[c|]|]; injection E. }
    cbn [files leftovers leave]. rewrite Ef, El. split_and!; [done|right|set_solver]. split; [by eexists|]. split; [done|set_solver].
Qed.

Section settled.
Context (fresh : tree → string) (c : CredentialCopy).
Abbreviation temporary t := (temporary_path fresh c t).
Lemma parent_snoc (p : path) x : parent_of (p ++ [x]) = p.
Proof. apply removelast_last. Qed.
Lemma temporary_beside t : source c ≠ [] → length (temporary t) = length (source c) ∧ temporary t ≠ source c.
Proof.
  intros Hne. unfold temporary_path. split.
  - rewrite length_app, parent_length by done. cbn. destruct (source c); [done|cbn; lia].
  - intros E. apply (f_equal last) in E. rewrite last_snoc in E. destruct (last (source c)) as [n|]; [|done].
    injection E as E. apply (f_equal String.length) in E. cbn [default] in E. unfold id in E. rewrite str_app_cons in E.
    cbn [String.length] in E. change ("" +:+ n +:+ "." +:+ fresh t +:+ ".write-back") with (n +:+ "." +:+ fresh t +:+ ".write-back") in E.
    rewrite !length_str_app in E. cbn in E. lia.
Qed.

(** Nothing but the temporary file and the source changes; the temporary file
    is gone again unless it could not be removed; and the source is as it was or
    holds the given bytes, the latter exactly when the call succeeds. *)
Definition beside (tmp : path) (q : path) : Prop := ∃ r, q = tmp ++ r.
Lemma flush_ok p w : ∃ w', catching (fsync p) (λ e, if os_error e then Some () else None) w = (Ok (), w') ∧ files w' = files w ∧ leftovers w' = leftovers w.
Proof.
  unfold catching. destruct (fsync p w) as [[[]|e] w1] eqn:E; exists w1.
  - apply call_ok in E as [E ->]. split_and!; [done| |done]. by destruct (exists_at _ _); injection E.
  - assert (Ho : os_error e = true).
    { unfold fsync, call in E. destruct (faults w) as [|[x|] fs]; try destruct (exists_at _ _); try discriminate E; by injection E as <- _. }
    rewrite Ho. split; [done|]. apply call_err in E as [-> [E|[x E]]]; (split; [|done]); [by injection E|done].
Qed.
Lemma keeps_fsync R `{!Silent R} p : keeps R (fsync p).
Proof. by apply keeps_reading. Qed.
Lemma keeps_chmod R `{!Silent R} p : keeps R (chmod p).
Proof. by apply keeps_reading. Qed.
Lemma staged_touches tmp b : touches (beside tmp) (staged tmp b).
Proof.
  apply keeps_bind; [apply _|apply touches_write; intros r; by exists r|]. intros _. apply keeps_bind; [apply _|apply keeps_fsync, _|].
  intros _. apply keeps_chmod, _.
Qed.
Lemma staged_leftovers tmp b w r w' : staged tmp b w = (r, w') → leftovers w' = leftovers w.
Proof.
  assert (Hc : ∀ A failed (f : tree → res A * tree) w r w', call failed f w = (r, w') → leftovers w' = leftovers w).
  { intros A failed f u [a|e] u' H; [by apply call_ok in H as [_ H]|by apply call_err in H as [H _]]. }
  intros H. unfold staged in H. unfold mbind, io_bind in H. destruct (write_file tmp b w) as [[u|e] w1] eqn:E1; apply Hc in E1 as <-; [|by injection H as _ <-].
  destruct (fsync tmp w1) as [[u2|e] w2] eqn:E2; apply Hc in E2 as <-; [|by injection H as _ <-]. by apply Hc in H.
Qed.
Lemma staged_ok tmp b w u w' : staged tmp b w = (Ok u, w') → files w' = <[tmp := File b]> (files w).
Proof.
  intros (u1 & w1 & [H1 _]%write_file_ok & (u2 & w2 & [H2 _]%call_ok & [H3 _]%call_ok)%io_bind_ok)%io_bind_ok.
  injection H2 as _ H2. injection H3 as _ H3. by rewrite <-H3, <-H2.
Qed.

(** Nothing but the temporary file and the source changes; the temporary file
    is gone again unless it could not be removed; and the source holds the given
    bytes when the call succeeds and is as it was when it fails. *)
Lemma replace_source_cases copy_bytes w r w' : source c ≠ [] → replace_source fresh c copy_bytes w = (r, w') →
  (r = Ok () ∧ files w' !! source c = Some (File copy_bytes) ∨ (∃ e, r = Err e) ∧ files w' !! source c = files w !! source c) ∧
  (∀ q, q ≠ source c → ¬ beside (temporary (files w)) q → files w' !! q = files w !! q) ∧
  (files w' !! temporary (files w) = files w !! temporary (files w) ∨ temporary (files w) ∈ leftovers w') ∧
  (∀ p, p ∈ leftovers w → p ∈ leftovers w') ∧
  (exists_at (files w) (temporary (files w)) = true → files w' = files w).
Proof.
  intros Hne H. destruct (temporary_beside (files w) Hne) as [Hlen Hdiff]. set (tmp := temporary (files w)) in *.
  assert (Hsb : ¬ beside tmp (source c)).
  { intros [x E]. pose proof (f_equal length E) as El. rewrite length_app in El. destruct x; [rewrite app_nil_r in E; by symmetry in E|cbn in El; lia]. }
  assert (Hts : beside tmp tmp) by (exists []; by rewrite app_nil_r).
  unfold replace_source in H. unfold mbind at 1, io_bind at 1 in H. cbn [look] in H. fold tmp in H.
  unfold mbind at 1, io_bind at 1 in H. destruct (create_file tmp w) as [[[]|e] w1] eqn:E1; apply create_file_cases in E1 as [El1 E1].
  2: { injection H as <- <-. destruct E1 as [[? _]|[_ Ef]]; [done|]. rewrite Ef, El1. split_and!; [right; eauto|done|by left|done|done]. }
  destruct E1 as [(_ & Hnew & Ef1)|[[? ?] _]]; [|done]. unfold mbind at 1, io_bind at 1 in H. unfold on_error in H.
  assert (Hfree : exists_at (files w) tmp = false) by (unfold exists_at; by rewrite Hnew).
  set (m := staged tmp copy_bytes ≫= λ _, replace_file tmp (source c)) in H.
  destruct (m w1) as [[[]|e] w2] eqn:Em.
  - apply io_bind_ok in Em as (u & w3 & Hst & Hrp). assert (Hl := staged_leftovers _ _ _ _ _ Hst). apply staged_ok in Hst.
    apply replace_file_cases in Hrp as [El2 [(_ & b & Hb & Ef2)|[[? ?] _]]]; [|done].
    destruct (flush_ok (parent_of (source c)) w2) as (w4 & Hfl & Ef4 & El4). change (mbind (λ _ : (), _)) with (mbind (λ _ : (), catching (fsync (parent_of (source c))) (λ e, if os_error e then Some () else None))) in H.
    rewrite Hfl in H. injection H as <- <-.
    rewrite Hst in Hb. rewrite lookup_insert_eq in Hb. injection Hb as <-. rewrite Ef4, Ef2, El4, El2, Hl, El1. split_and!.
    + left. by rewrite lookup_insert_eq.
    + intros q Hq Hb. rewrite lookup_insert_ne by done. assert (q ≠ tmp) by (by intros ->).
      rewrite lookup_delete_ne by done. by rewrite Hst, Ef1, !lookup_insert_ne by done.
    + left. rewrite lookup_insert_ne by done. by rewrite lookup_delete_eq.
    + done.
    + by rewrite Hfree.
  - assert (frame (beside tmp) w1 w2 ∧ leftovers w2 = leftovers w1) as [Hfr Hl].
    { apply io_bind_err in Em as [Hst|(u & w3 & Hst & Hrp)].
      - split; [by apply staged_touches in Hst|by apply staged_leftovers in Hst].
      - apply replace_file_cases in Hrp as [El2 [[? _]|[_ Ef2]]]; [done|].
        split; [intros q Hq; rewrite Ef2; by apply (staged_touches tmp copy_bytes _ _ _ Hst)|by rewrite El2; apply staged_leftovers in Hst]. }
    assert (Hkept : ∀ q, ¬ beside tmp q → files w2 !! q = files w !! q).
    { intros q Hq. rewrite Hfr, Ef1 by done. apply lookup_insert_ne. by intros <-. }
    destruct (unlink true tmp w2) as [r3 w3] eqn:Eu. apply unlink_cases in Eu as (Hother & Eu & Hmore).
    assert (w' = w3 ∧ ∃ e', r = Err e') as [-> [e' ->]].
    { destruct r3 as [?|?]; injection H as <- <-; (split; [done|by eexists]). }
    split_and!.
    + right. split; [by eexists|]. rewrite Hother by done. by apply Hkept.
    + intros q Hq Hb. rewrite Hother by (by intros ->). by apply Hkept.
    + destruct Eu as [(_ & Hn & _)|(_ & _ & Hin)]; [left; by rewrite Hn, Hnew|by right].
    + intros p Hp. apply Hmore. by rewrite Hl, El1.
    + by rewrite Hfree.
Qed.

(** The outcomes of the write-back. *)
Definition replaced (w w' : world) : Prop := ∃ s d, files w !! source c = Some (File s) ∧ files w !! copy c = Some (File d) ∧
  sha256_hex s = source_digest c ∧ s ≠ d ∧
  (∃ held kept, loads_str s = inl (VDict held) ∧ loads_str d = inl (VDict kept) ∧ key_paths "" (VDict held) ⊆ key_paths "" (VDict kept)) ∧
  files w' !! source c = Some (File d).
Definition nothing_else (w w' : world) : Prop :=
  (∀ q, q ≠ source c → ¬ beside (temporary (files w)) q → files w' !! q = files w !! q) ∧
  (files w' !! temporary (files w) = files w !! temporary (files w) ∨ temporary (files w) ∈ leftovers w') ∧
  (∀ p, p ∈ leftovers w → p ∈ leftovers w') ∧
  (exists_at (files w) (temporary (files w)) = true → files w' = files w).
Lemma nothing_changed w w' : files w' = files w → leftovers w' = leftovers w → nothing_else w w'.
Proof. intros Hf Hl. unfold nothing_else. rewrite Hf, Hl. split_and!; [done|by left|done|done]. Qed.
Lemma object_in_ok name p data d : object_in name p data = inl d → loads_str data = inl (VDict d).
Proof. unfold object_in. destruct (utf8_fault _ _); [done|]. destruct (loads_str data) as [v|]; [|done]. destruct v; try done. by intros [= ->]. Qed.
Lemma refusal_none s d : write_back_refusal c s d = None →
  ∃ held kept, loads_str s = inl (VDict held) ∧ loads_str d = inl (VDict kept) ∧ key_paths "" (VDict held) ⊆ key_paths "" (VDict kept).
Proof.
  unfold write_back_refusal. destruct (object_in "source" _ _) as [held|] eqn:E1; [|done]. destruct (object_in "copy" _ _) as [kept|] eqn:E2; [|done].
  destruct (missing_keys held kept) eqn:Em; [|done]. intros _. exists held, kept. split_and!; [by eapply object_in_ok..|].
  intros k Hk. apply elem_str_spec. destruct (elem_str k _) eqn:E; [done|]. exfalso.
  assert (Hin : k ∈ missing_keys held kept); [|rewrite Em in Hin; by apply elem_of_nil in Hin].
  unfold missing_keys. apply elem_of_sorted_set, list_elem_of_In, filter_In. split; [by apply list_elem_of_In|by rewrite E].
Qed.
Lemma read_leftovers p w r w' : read_file p w = (r, w') → leftovers w' = leftovers w.
Proof. intros H. destruct r; [by apply call_ok in H as [_ H]|by apply call_err in H as [H _]]. Qed.
Lemma read_content p w x w' : read_file p w = (Ok x, w') → files w !! p = Some (File x).
Proof. intros (_ & _ & H)%reads_file. done. Qed.
Definition written_back (w : world) (r : res dict) (w' : world) : Prop :=
  (∃ reason, r = Ok (write_back_record WRITE_BACK_WRITTEN reason (source c)) ∧ replaced w w') ∨
  (∃ state reason, r = Ok (write_back_record state reason (source c)) ∧ state ≠ WRITE_BACK_WRITTEN ∧ files w' !! source c = files w !! source c) ∨
  ((∃ e, r = Err e) ∧ files w' !! source c = files w !! source c).
Lemma write_back_cases w r w' : source c ≠ [] → write_back fresh c w = (r, w') → written_back w r w' ∧ nothing_else w w'.
Proof.
  intros Hne H. unfold write_back in H. unfold mbind at 1, io_bind at 1 in H. cbn [look] in H.
  assert (Hsay : ∀ state reason (u : world), state ≠ WRITE_BACK_WRITTEN → files u = files w → leftovers u = leftovers w →
    (mret (write_back_record state reason (source c)) : io dict) u = (r, w') → written_back w r w' ∧ nothing_else w w').
  { intros state reason u Hs Hf Hl [= <- <-]. split; [|by apply nothing_changed]. right; left. exists state, reason. by rewrite Hf. }
  destruct (is_file (files w) (copy c)); cbn [negb] in H; [|by eapply Hsay in H].
  unfold mbind at 1, io_bind at 1 in H. destruct (read_file (copy c) w) as [[d|e] w1] eqn:E1.
  2: { injection H as <- <-. pose proof (read_same _ _ _ _ E1) as Hf. pose proof (read_leftovers _ _ _ _ E1) as Hl.
       split; [right; right; split; [by eexists|by rewrite Hf]|by apply nothing_changed]. }
  assert (Hd := read_content _ _ _ _ E1). apply read_same in E1 as Hf1. apply read_leftovers in E1 as Hl1. clear E1.
  unfold mbind at 1, io_bind at 1 in H. destruct (read_file (source c) w1) as [[s|e] w2] eqn:E2.
  2: { injection H as <- <-. apply read_same in E2 as Hf2. apply read_leftovers in E2 as Hl2.
       split; [right; right; split; [by eexists|by rewrite Hf2, Hf1]|apply nothing_changed; congruence]. }
  assert (Hs := read_content _ _ _ _ E2). apply read_same in E2 as Hf2. apply read_leftovers in E2 as Hl2. clear E2.
  rewrite Hf1 in Hs, Hf2. rewrite Hl1 in Hl2.
  destruct (String.eqb_spec d s) as [->|Hds]; [by eapply Hsay in H|].
  destruct (String.eqb_spec (sha256_hex s) (source_digest c)) as [Hdig|]; cbn [negb] in H; [|by destruct (String.eqb _ _); eapply Hsay in H].
  destruct (write_back_refusal c s d) as [reason|] eqn:Er; [by eapply Hsay in H|].
  unfold mbind at 1, io_bind at 1 in H. destruct (replace_source fresh c d w2) as [r3 w3] eqn:E3.
  apply replace_source_cases in E3 as (Hr & Ho & Ht & Hm & Hx); [|done]. rewrite Hf2, ?Hl2 in *.
  assert (Hw : w' = w3) by (by destruct r3; injection H as <- <-). subst w'.
  split; [|by split_and!].
  destruct Hr as [[-> Hr]|[[e ->] Hr]]; injection H as <-.
  - left. eexists. split; [reflexivity|]. exists s, d. split_and!; [done|done|done|by intros ->|by apply refusal_none in Er|done].
  - right; right. split; [by eexists|done].
Qed.

Lemma temporary_not_copy home t : copy c = home ++ [CREDENTIAL_NAME] → temporary t ≠ copy c.
Proof. intros -> E. apply (f_equal last) in E. unfold temporary_path in E. rewrite !last_snoc in E. injection E as E. discriminate E. Qed.

Definition removed (keep : bool) (removal : value) (w w' : world) : Prop :=
  if keep then removal = VNone ∧ files w' !! copy c = files w !! copy c
  else (removal = VNone ∧ files w' !! copy c = None) ∨ (∃ m, removal = VStr m ∧ copy c ∈ leftovers w').

Lemma copy_kept home w r w' : source c ≠ [] → copy c = home ++ [CREDENTIAL_NAME] → copy c ≠ source c → wf_tree (files w) →
  write_back fresh c w = (r, w') → files w' !! copy c = files w !! copy c.
Proof.
  intros Hne Hcopy Hcs Hwf H. destruct (files w !! copy c) as [e|] eqn:Ec.
  - apply write_back_cases in H as [_ (Ho & _ & _ & Hx)]; [|done].
    destruct (strip_prefix (temporary (files w)) (copy c)) as [x|] eqn:Es.
    + apply strip_prefix_spec in Es. destruct x as [|x y]; [rewrite app_nil_r in Es; by destruct (temporary_not_copy home (files w) Hcopy)|].
      rewrite Es in Ec. apply wf_ancestor in Ec as Ht; [|done]. rewrite Hx, Es, Ec; [done|]. unfold exists_at. by rewrite Ht.
    + rewrite Ho, Ec; [done..|]. intros [x E]. by rewrite E, strip_prefix_app in Es.
  - unfold write_back in H. unfold mbind at 1, io_bind at 1 in H. cbn [look] in H. unfold is_file in H. rewrite Ec in H. cbn [negb] in H.
    by injection H as _ <-.
Qed.

Lemma write_back_states w r w' : source c ≠ [] → write_back_state fresh c w = (r, w') → nothing_else w w' ∧
  ∃ state reason, r = Ok (write_back_record state reason (source c)) ∧
    (if String.eqb state WRITE_BACK_WRITTEN then replaced w w' else files w' !! source c = files w !! source c).
Proof.
  intros Hne H. unfold write_back_state, catching in H. destruct (write_back fresh c w) as [r1 w1] eqn:E.
  assert (w' = w1) as -> by (by destruct r1; injection H as <- <-).
  apply write_back_cases in E as [Hwb Hn]; [|done]. split; [done|].
  destruct Hwb as [(reason & -> & Hrep)|[(state & reason & -> & Hs & Hsrc)|[[e ->] Hsrc]]]; injection H as <-.
  - exists WRITE_BACK_WRITTEN, reason. by split.
  - exists state, reason. split; [done|]. apply String.eqb_neq in Hs. by rewrite Hs.
  - by eexists WRITE_BACK_FAILED, _.
Qed.
Lemma removal_cases home keep w0 w : copy c = home ++ [CREDENTIAL_NAME] → files w !! copy c = files w0 !! copy c →
  ∃ removal w', removal_of c keep w = (Ok removal, w') ∧ removed keep removal w0 w' ∧
    (∀ q, q ≠ copy c → files w' !! q = files w !! q) ∧ (∀ p, p ∈ leftovers w → p ∈ leftovers w').
Proof.
  intros Hcopy Hcp. unfold removal_of, removed. destruct keep; [by exists VNone, w|].
  unfold catching, remove_credential, mbind, io_bind. rewrite Hcopy, parent_snoc, <-Hcopy. destruct (unlink true (copy c) w) as [r2 w2] eqn:Eu.
  apply unlink_cases in Eu as (Hu1 & Hu2 & Hu3). destruct Hu2 as [(-> & Hn & _)|([x ->] & _ & Hin)];
    (eexists _, _; split; [reflexivity|]; split_and!; [|done..]); [by left|right; by eexists].
Qed.

(** Claim C16. Settling the credential of a run never fails, whatever system call does.
    The source is replaced exactly when the record says so, and then by the whole
    copy: a copy that differs from a source nobody else wrote, is a JSON object
    and has every key of it.  Otherwise the source is as it was.  The copy is gone
    unless it is to be kept or its removal failed, which the record says.  No
    other file changes, and no temporary file stays unless its removal failed. *)
Theorem credential_settled keep home w r w' : source c ≠ [] → copy c = home ++ [CREDENTIAL_NAME] → copy c ≠ source c → wf_tree (files w) →
  settle_credential fresh c keep w = (r, w') →
  ∃ state reason removal, r = Ok (write_back_record state reason (source c) ++ [("copy_removal_failure", removal)]) ∧
    (if String.eqb state WRITE_BACK_WRITTEN then replaced w w' else files w' !! source c = files w !! source c) ∧
    removed keep removal w w' ∧
    (∀ q, q ≠ source c → q ≠ copy c → ¬ beside (temporary (files w)) q → files w' !! q = files w !! q) ∧
    (files w' !! temporary (files w) = files w !! temporary (files w) ∨ temporary (files w) ∈ leftovers w').
Proof.
  intros Hne Hcopy Hcs Hwf H. unfold settle_credential in H. unfold mbind at 1, io_bind at 1 in H.
  destruct (write_back_state fresh c w) as [r1 w1] eqn:E1.
  assert (Hcp : files w1 !! copy c = files w !! copy c).
  { unfold write_back_state, catching in E1. destruct (write_back fresh c w) as [r2 w2] eqn:E2. apply (copy_kept home) in E2; [|done..].
    assert (w1 = w2) as -> by (by destruct r2; injection E1 as <- <-). done. }
  apply write_back_states in E1 as [(Ho & Ht & Hm & _) (state & reason & -> & Hst)]; [|done].
  destruct (removal_cases home keep w w1 Hcopy Hcp) as (removal & w2 & Hr & Hrem & Hsame & Hmore).
  unfold mbind, io_bind in H. rewrite Hr in H. injection H as <- <-. exists state, reason, removal.
  assert (Hsc : source c ≠ copy c) by by apply not_eq_sym. split_and!; [done| |done|..].
  - destruct (String.eqb state WRITE_BACK_WRITTEN); [|by rewrite Hsame].
    destruct Hst as (s & d & H1 & H2 & H3 & H4 & H5 & H6). exists s, d. split_and!; try done. by rewrite Hsame.
  - intros q Hq1 Hq2 Hq3. rewrite Hsame by done. by apply Ho.
  - assert (temporary (files w) ≠ copy c) by by eapply temporary_not_copy. destruct Ht as [Ht|Ht]; [left; by rewrite Hsame|right; by apply Hmore].
Qed.
End settled.

(** ** No credential is left behind *)

Lemma prepare_home_ok s w c w' : prepare_home s w = (Ok c, w') → source c = credential_of s ∧ copy c = home_of s ++ [CREDENTIAL_NAME].
Proof.
  intros (t & w1 & _ & (u1 & w2 & _ & (u2 & w3 & _ & (u3 & w4 & _ & (d & w5 & _ & (u4 & w6 & _ & (u5 & w7 & _ & (u6 & w8 & _ &
    (u7 & w9 & _ & [-> _]%mret_ok)%io_bind_ok)%io_bind_ok)%io_bind_ok)%io_bind_ok)%io_bind_ok)%io_bind_ok)%io_bind_ok)%io_bind_ok)%io_bind_ok.
  done.
Qed.
Lemma begin_run_ok executable s w c w' : begin_run executable s w = (Ok c, w') → source c = credential_of s ∧ copy c = home_of s ++ [CREDENTIAL_NAME].
Proof.
  intros (? & ? & _ & (? & ? & _ & (? & ? & _ & (? & ? & _ & H)%io_bind_ok)%io_bind_ok)%io_bind_ok)%io_bind_ok. by apply prepare_home_ok in H.
Qed.
(** The copy is gone, or its removal failed. *)
Definition cleared (p : path) (w : world) : Prop := files w !! p = None ∨ p ∈ leftovers w.
Lemma settle_clears fresh c home w r w' : source c ≠ [] → copy c = home ++ [CREDENTIAL_NAME] → settle_credential fresh c false w = (r, w') →
  (∃ d, r = Ok d) ∧ cleared (copy c) w'.
Proof.
  intros Hne Hc H. unfold settle_credential in H. unfold mbind at 1, io_bind at 1 in H.
  destruct (write_back_state fresh c w) as [r1 w1] eqn:E1. apply write_back_states in E1 as [_ (state & reason & -> & _)]; [|done].
  destruct (removal_cases c home false w1 w1 Hc eq_refl) as (removal & w2 & Hr & Hrem & _ & _).
  unfold mbind, io_bind in H. rewrite Hr in H. injection H as <- <-. split; [by eexists|].
  destruct Hrem as [[_ Hn]|(m & _ & Hin)]; [by left|by right].
Qed.
Lemma cleared_kept P p w w' : frame P w w' → ¬ P p → more w w' → cleared p w → cleared p w'.
Proof. intros Hf Hp [l Hl] [H|H]; [left; by rewrite Hf|right]. rewrite Hl. apply elem_of_app. by left. Qed.
Lemma settling_cases {A B} (m : io A) (d : io B) w r w' : settling m d w = (r, w') → ∃ r1 w1 r2, m w = (r1, w1) ∧ d w1 = (r2, w').
Proof. unfold settling. destruct (m w) as [r1 w1]. destruct (d w1) as [[b|e] w2] eqn:E; intros [= _ <-]; by eexists _, _, _. Qed.

Section left_behind.
Context (fresh : tree → string) (os_environ : list (string * string)) (executable : tree → path → bool) (started ended : Z).
Context (watched : list string → path → dict → path → list (string * string) → tree → res (option Z * option Stop * string * string) * tree).
Abbreviation run := (codex_run fresh os_environ executable started ended watched).
Lemma report_touches s c ran : touches (λ q, ∃ n r, q = artifact s n ++ r ∧ n ≠ CODEX_HOME_NAME) (report_run started ended s c ran) ∧
  grows (report_run started ended s c ran).
Proof.
  assert (Ho : ∀ n, n ≠ CODEX_HOME_NAME → owns (λ q, ∃ n r, q = artifact s n ++ r ∧ n ≠ CODEX_HOME_NAME) (artifact s n)) by (intros n Hn r; by exists n, r).
  destruct ran as [[command [[[exit stop] out] err]] settled]. split; unfold report_run, read_if_file.
  - keep; apply touches_write, Ho; discriminate.
  - unfold write_file. keep.
Qed.

(** Claim C17. However a run ends, whatever the process did and whichever system call
    failed, the credential copy is gone once it was prepared, unless its removal
    failed; and the record of a run that succeeds says whether a copy stands there. *)
Theorem no_credential_left s w r w' : credential_of s ≠ [] → keep_credential s = false → run s w = (r, w') →
  (∃ e, r = Err e ∧ begin_run executable s w = (Err e, w')) ∨
  (cleared (home_of s ++ [CREDENTIAL_NAME]) w' ∧
   ∀ a, r = Ok a → dget (result_record a) "credential_removed" = VBool (negb (exists_at (files w') (home_of s ++ [CREDENTIAL_NAME])))).
Proof.
  intros Hne Hk H. unfold codex_run in H. unfold mbind at 1, io_bind at 1 in H. destruct (begin_run executable s w) as [[c|e] w1] eqn:E1.
  2: { injection H as <- <-. left. by exists e. }
  right. assert (Hc : source c = credential_of s ∧ copy c = home_of s ++ [CREDENTIAL_NAME]).
  { by apply begin_run_ok in E1. }
  destruct Hc as [Hs Hcopy]. rewrite Hk in H. unfold mbind at 1, io_bind at 1 in H.
  destruct (settling (run_watched _ _ s) _ w1) as [r2 w2] eqn:E2. destruct (settling_cases _ _ _ _ _ E2) as (r3 & w3 & r4 & _ & Hst).
  apply (settle_clears fresh c (home_of s)) in Hst as [_ Hcl]; [|by rewrite Hs|done]. rewrite Hcopy in Hcl.
  destruct r2 as [ran|e]; [|injection H as <- <-; by split].
  assert (Hnot : ¬ ∃ n r, home_of s ++ [CREDENTIAL_NAME] = artifact s n ++ r ∧ n ≠ CODEX_HOME_NAME).
  { intros (n & q & E & Hn). unfold home_of, artifact in E. rewrite <-!app_assoc in E. apply app_inv_head in E. by injection E as <- _. }
  split.
  - destruct (report_touches s c ran) as [Ht Hg]. by apply (cleared_kept _ _ w2 w' (Ht _ _ _ H) Hnot (Hg _ _ _ H)).
  - intros a ->. destruct ran as [[command [[[exit stop] out] err]] settled]. unfold report_run in H. cbv zeta in H.
    apply io_bind_ok in H as (? & ? & _ & H). apply io_bind_ok in H as (? & ? & _ & H). destruct (parse_events _) as [events event_problems].
    apply io_bind_ok in H as (summary & ? & _ & H). apply io_bind_ok in H as (file & ? & _ & H).
    apply io_bind_ok in H as ([[outcome candidate] problems] & ? & _ & H). apply io_bind_ok in H as (t & w9 & [-> ->]%look_ok & [-> ->]%mret_ok).
    cbn [result_record]. unfold codex_record. rewrite Hcopy. reflexivity.
Qed.
End left_behind.

(** ** An example *)

Definition demo_credential (token : string) : string := dumps_default (VDict [("id", VStr "u"); ("tokens", VDict [("refresh", VStr token)])]).
Definition demo_codex_world : world := {| faults := []; leftovers := []; files := list_to_map (
  map (λ p, (p, Folder)) [[]; ["c"]; ["w"]; ["a"]] ++ [(["c"; "auth.json"], File (demo_credential "one")); (["codex"], File "elf")]) |}.
Definition demo_codex_spec : CodexSpec :=
  {| c_arm_name := "codex-default"; codex := "/codex"; c_task := "do it"; c_workspace := "/w"; c_artifacts := "/a"; sandbox := "workspace-write";
     c_model := "m"; c_reasoning_effort := "medium"; credential_source := "/c/auth.json"; limits := [("seconds", VInt 60)];
     agents_enabled := false; max_threads := None; output_schema := None; model_providers := None; environment := Some [];
     keep_credential := false; config_canary := Some "This sentence is the canary." |}.
(** A process that refreshes the credential and reports a stop. *)
Definition demo_process (command : list string) (home : path) (lim : dict) (cwd : path) (env : list (string * string)) (t : tree)
  : res (option Z * option Stop * string * string) * tree :=
  (Ok (Some 0%Z, None, "", ""),
   <[["a"; "last.txt"] := File (dumps_default (VDict [("status", VStr "blocked"); ("code", VStr "ambiguous-task"); ("evidence", VList [])]))]>
     (<[home ++ [CREDENTIAL_NAME] := File (demo_credential "two")]> t)).
Definition demo_codex_run (w : world) : res ArmResult * world :=
  codex_run (λ _, "tmp") [] (λ t p, is_file t p) 1 2 demo_process demo_codex_spec w.

Definition demo_copied : world :=
  with_files (<[["a"; "codex-home"] := Folder]> (<[["a"; "codex-home"; "auth.json"] := File (demo_credential "two")]> (files demo_codex_world))) demo_codex_world.
Definition demo_copy : CredentialCopy :=
  {| source := ["c"; "auth.json"]; copy := ["a"; "codex-home"; "auth.json"]; source_digest := sha256_hex (demo_credential "one") |}.
Definition demo_settled : res dict * world := settle_credential (λ _, "tmp") demo_copy false demo_copied.
Lemma demo_copied_wf : wf_tree (files demo_copied).
Proof. refine (decided _ _). vm_compute. reflexivity. Qed.
Lemma demo_settled_states : (∃ reason, demo_settled.1 = Ok (write_back_record WRITE_BACK_WRITTEN reason (source demo_copy) ++ [("copy_removal_failure", VNone)])) ∧
  leftovers demo_settled.2 = [].
Proof. split; [|vm_compute; reflexivity]. eexists. vm_compute. reflexivity. Qed.
Lemma credential_settled_witness : replaced demo_copy demo_copied demo_settled.2 ∧ files demo_settled.2 !! copy demo_copy = None.
Proof.
  destruct (credential_settled (λ _, "tmp") demo_copy false ["a"; "codex-home"] demo_copied demo_settled.1 demo_settled.2
    ltac:(discriminate) eq_refl ltac:(discriminate) demo_copied_wf (surjective_pairing _)) as (state & reason & removal & Hr & Hs & Hrm & _).
  destruct demo_settled_states as [[reason' Hd] Hl]. rewrite Hd in Hr. injection Hr as Hst _ _ Hn. rewrite <-Hst in Hs. split; [exact Hs|].
  destruct Hrm as [[_ H]|(m & _ & H)]; [exact H|]. exfalso. rewrite Hl in H. exact (proj1 (elem_of_nil _) H).
Defined.
Lemma demo_run_ran : (demo_codex_run demo_codex_world).1 ≠ Err OutOfFuel ∧ is_ok (demo_codex_run demo_codex_world).1 = true ∧
  leftovers (demo_codex_run demo_codex_world).2 = [].
Proof. split_and!; [|vm_compute; reflexivity..]. vm_compute. discriminate. Qed.
Lemma no_credential_left_witness : files (demo_codex_run demo_codex_world).2 !! ["a"; "codex-home"; "auth.json"] = None.
Proof.
  destruct (no_credential_left (λ _, "tmp") [] (λ t p, is_file t p) 1 2 demo_process demo_codex_spec demo_codex_world
    (demo_codex_run demo_codex_world).1 (demo_codex_run demo_codex_world).2 ltac:(discriminate) eq_refl (surjective_pairing _)) as [(e & He & _)|[[H|H] _]].
  - destruct demo_run_ran as (_ & Ho & _). exfalso. rewrite He in Ho. discriminate Ho.
  - exact H.
  - destruct demo_run_ran as (_ & _ & Hl). exfalso. rewrite Hl in H. exact (proj1 (elem_of_nil _) H).
Defined.

(** A write that fails while the home is prepared leaves the copy: nothing
    removes it, and nothing says that it stands there. *)
Definition demo_full_disk : world :=
  {| files := files demo_codex_world; leftovers := []; faults := replicate 5 None ++ [Some {| message := "disk full"; left_behind := ∅ |}] |}.
Example copy_left_by_preparation :
  (demo_codex_run demo_full_disk).1 = Err (OSError "disk full") ∧ leftovers (demo_codex_run demo_full_disk).2 = [] ∧
  files (demo_codex_run demo_full_disk).2 !! ["a"; "codex-home"; "auth.json"] = Some (File (demo_credential "one")).
Proof. by vm_compute. Qed.
