(* ===== verification/Conditions.v ===== *)
(** * Whether an attempt reached the condition its arm tests

    src/evals/cross_harness/conditions.py: the condition of each arm, read from
    an attempt's record, the document it ran and the output the harness
    recorded of each run of the check suite.  The files are parameters. *)

From Stdlib Require Import Ascii.
From stdpp Require Import base list strings pretty sorting.
From Stdlib Require Import ZArith Lia.
From S2P Require Import Prelude PyValue PyText PyJson PyUnicode PyPath StateRoot JsonText Shlex Trajectory Invocation NormalizeFoe NormalizeCodex Graphs.

Definition VERIFIER_INVOKED : string := "runtime verifier invoked".
Definition VERIFIER_ABSENT : string := "verifier absent, stop available".
Definition STOP_ABSENT : string := "stop mechanism absent".
Definition WAIT_ENTERED : string := "wait entered".
Definition NONE_DECLARED : string := "none declared".
Definition ARM_CONDITIONS : list (string * string) :=
  [("foe-configured", VERIFIER_INVOKED); ("foe-lean", VERIFIER_INVOKED); ("foe-undivided", VERIFIER_INVOKED);
   ("foe-unverified", VERIFIER_ABSENT); ("foe-ablated", STOP_ABSENT)].
Definition NON_TERMINATING : string := "non-terminating".
Definition BLOCK_INSTRUCTION : string := "call `" +:+ BLOCK_TOOL +:+ "`".
Definition VERIFY_KEY : string := "verify".
Definition CODEX_COMMAND_ITEM : string := "CommandExecution".

(** ** Reading records *)

(** [v or {}]. *)
Definition or_empty (v : value) : value := py_or v (VDict []).
(** [v.values()]. *)
Definition py_values (v : value) : res (list value) :=
  match v with
  | VDict d => Ok (map snd d)
  | _ => Err (AttributeError ("'" +:+ type_name v +:+ "' object has no attribute 'values'"))
  end.
Definition count_true (l : list bool) : nat := length (List.filter id l).
Definition verifications (trajectory : value) : res nat :=
  if negb (truthy trajectory) then Ok 0 else
  agents ← get_or trajectory "agents" (VList []);
  agents ← py_iter agents;
  named ← map_res (λ agent,
    calls ← get_or agent "tool_calls" (VList []);
    calls ← py_iter calls;
    map_res (λ call, name ← get call "name"; Ok (is_string VERIFICATION_NAME name)) calls) agents;
  Ok (count_true (concat named)).
(** [(record.get("arm_result") or {}).get("record") or {}]. *)
Definition arm_record (record : dict) : res value :=
  r ← get (or_empty (dget record "arm_result")) "record"; Ok (or_empty r).

(** ** The contracts of a document *)

(** A contract with its path and the workflow node that holds it. *)
Definition held := (string * dict * option dict)%type.
Definition node_contract (path : string) (kv : string * value) : option held :=
  match kv.2 with
  | VDict node => match dget node "model" with VDict m => Some (path +:+ ".nodes." +:+ kv.1, m, Some node) | _ => None end
  | _ => None
  end.
Definition child_contract (path : string) (kv : string * value) : option held :=
  match kv.2 with VDict child => Some (path +:+ ".child_contracts." +:+ kv.1, child, None) | _ => None end.
(** The contracts a contract holds. *)
Definition held_by (h : held) : res (list held) :=
  let '(path, contract, _) := h in
  nodes ← get_or (or_empty (dget contract "workflow")) "nodes" (VDict []);
  nodes ← py_items nodes;
  children ← py_items (or_empty (dget contract "child_contracts"));
  Ok (omap (node_contract path) nodes ++ omap (child_contract path) children).
Fixpoint contracts_from (fuel : nat) (pending : list held) : res (list held) :=
  match fuel with
  | O => Err OutOfFuel
  | S fuel =>
      match pending with
      | [] => Ok []
      | h :: pending => below ← held_by h; rest ← contracts_from fuel (pending ++ below); Ok (h :: rest)
      end
  end.
(** A contract and the contracts below it are no more than the values it holds. *)
Fixpoint value_size (v : value) : nat :=
  match v with
  | VList l => S (list_sum (map value_size l))
  | VDict d => S (list_sum (map (λ kv, value_size kv.2) d))
  | _ => 1
  end.
Definition contracts_of (document : dict) : res (list held) := contracts_from (S (value_size (VDict document))) [("root", document, None)].

Definition offers_block (h : held) : res bool := has_item (dget_or h.1.2 "tools" (VList [])) BLOCK_TOOL.
Definition instructs_block (h : held) : res bool :=
  texts ← py_values (or_empty (dget h.1.2 "instructions"));
  Ok (existsb (λ t, match t with VStr s => occurs BLOCK_INSTRUCTION s | _ => false end) texts).
(** The paths of the contracts a test holds of. *)
Definition paths_where (test : held → res bool) (document : dict) : res (list string) :=
  l ← contracts_of document;
  kept ← map_res (λ h, b ← test h; Ok (if (b : bool) then [h.1.1] else [])) l;
  Ok (concat (kept : list (list string))).
Definition contracts_offering_block : dict → res (list string) := paths_where offers_block.
Definition contracts_instructing_block : dict → res (list string) := paths_where instructs_block.
(** Where a contract, or the node that holds it, declares a verifier. *)
Definition verifiers_at (h : held) : list string :=
  (match dget h.1.2 "done_when" with VDict d => if is_none (dget d VERIFY_KEY) then [] else [h.1.1 +:+ ".done_when." +:+ VERIFY_KEY] | _ => [] end)
  ++ match h.2 with Some node => if is_none (dget node VERIFY_KEY) then [] else [h.1.1 +:+ "." +:+ VERIFY_KEY] | None => [] end.
Definition declared_verifiers (document : dict) : res (list string) := l ← contracts_of document; Ok (concat (map verifiers_at l)).

(** ** The arm's condition *)

Record Condition : Type := { condition : string; reached : option bool; shown_by : list string }.
Definition stated_or (l : list string) (some none : string) : string := match l with [] => none | _ => some +:+ join ", " l end.
Definition unreached (c : string) (evidence : list string) : Condition := {| condition := c; reached := Some false; shown_by := evidence |}.

Section conditions.
(** The text of a file; whether a path is a file; and the logs below an episode
    directory, in path order, each with its directory relative to the parent. *)
Context (read : string → res string) (is_a_file : string → bool) (logs_below : string → list (string * res string)).

Definition document_of (record : dict) : res (option dict) :=
  arm ← arm_record record;
  path ← get arm "config";
  match path with
  | VStr p =>
      match read_text (read p) with
      | Ok text => Ok (match loads_str text with inl (VDict d) => Some d | _ => None end)
      | Err (OSError _) | Err (ValueError _) => Ok None
      | Err e => Err e
      end
  | _ => Ok None
  end.
Definition arm_condition (record : dict) (document : option dict) : res Condition :=
  match assoc ARM_CONDITIONS (py_str (dget record "arm")) with
  | None => Ok {| condition := NONE_DECLARED; reached := None;
                  shown_by := ["the arm " +:+ py_str (dget record "arm") +:+ " declares no controlled mechanism"] |}
  | Some c =>
      let trajectory := dget record "trajectory" in
      if negb (truthy trajectory) then Ok (unreached c ["the record holds no normalized trajectory"]) else
      count ← verifications trajectory;
      let counted := nat_str count +:+ " " +:+ VERIFICATION_NAME +:+ " calls in the normalized trajectory" in
      if String.eqb c VERIFIER_INVOKED then Ok {| condition := c; reached := Some (0 <? count); shown_by := [counted] |} else
      document ← (match document with Some d => Ok (Some d) | None => document_of record end);
      match document with
      | None => Ok (unreached c [counted; "the document the attempt ran cannot be read from arm_result.record.config"])
      | Some d =>
          offering ← contracts_offering_block d;
          instructing ← contracts_instructing_block d;
          verifiers ← declared_verifiers d;
          let stated := stated_or offering "block offered by " "block offered by no contract" in
          let told := stated_or instructing "the call to block instructed by " "no contract instructs a call to block" in
          let declared := stated_or verifiers "verifiers declared at " "no verifier declared" in
          if String.eqb c VERIFIER_ABSENT then
            let nodes := List.filter (λ p, negb (String.eqb p "root")) offering in
            let uninstructed := List.filter (λ p, negb (elem_str p instructing)) nodes in
            Ok {| condition := c;
                  reached := Some ((count =? 0) && match nodes with [] => false | _ => true end
                                   && match uninstructed with [] => true | _ => false end && match verifiers with [] => true | _ => false end);
                  shown_by := [counted; stated; told; declared]
                    ++ match uninstructed with [] => [] | l => ["block offered without its instruction by " +:+ join ", " l] end |}
          else
            Ok {| condition := c;
                  reached := Some (match offering, instructing, verifiers with [], [], [] => true | _, _, _ => false end);
                  shown_by := [stated; told; declared] |}
      end
  end.

(** ** The recorded output of the suite *)

(** [_read_jsonl]: the objects of a file, a line that is none skipped. *)
Definition read_jsonl (file : res string) : res (list dict) :=
  text ← read_text file;
  Ok (omap (λ line, match loads_str line with inl (VDict d) => Some d | _ => None end) (str_splitlines text)).
Definition joined_streams (d : dict) : option string :=
  match omap (λ key, as_str (dget d key)) ["stdout"; "stderr"] with
  | [] => None
  | streams => Some (join nl (List.filter (λ s, negb (String.eqb s "")) streams))
  end.
(** [_result_output]. *)
Definition result_output (data : dict) : option string :=
  match joined_streams (dict_or_empty (dget data "value")) with Some s => Some s | None => as_str (dget data "rendered") end.
Definition recorded (source : string) (output : option string) : dict := [("source", VStr source); ("output", opt_str output)].

Record log_state : Type := { opened : list (string * dict); sessions : list (string * string); outputs : list dict }.
Definition add_output (st : log_state) (source : string) (output : option string) : log_state :=
  {| opened := opened st; sessions := sessions st; outputs := outputs st ++ [recorded source output] |}.
Definition open_call (st : log_state) (id : value) (call : dict) : log_state :=
  {| opened := dset (opened st) (py_str id) call; sessions := sessions st; outputs := outputs st |}.
Definition call_args (st : log_state) (data : dict) : dict :=
  dict_or_empty (dget (default [] (assoc (opened st) (py_str (dget data "call_id")))) "args").
Definition runs_script (args : dict) : bool := match dget args "command" with VStr c => invokes_run_script c | _ => false end.
Definition one_of (names : list string) (v : value) : bool := existsb (λ n, is_string n v) names.
Definition result_event (here : string) (st : log_state) (data : dict) : log_state :=
  let name := dget data "name" in
  let args := call_args st data in
  let action := dget args "action" in
  let output := result_output data in
  if is_string CHECK name then add_output st (here +:+ ", check call") output
  else if is_string "bash" name && runs_script args then add_output st (here +:+ ", bash call") output
  else if is_string "session" name && runs_script args && is_string "start" action then
    {| opened := opened st; outputs := outputs st;
       sessions := dset (sessions st) (py_str (dget (dict_or_empty (dget data "value")) "session")) here |}
  else if is_string "session" name && one_of ["poll"; "stop"] action then
    match assoc (sessions st) (py_str (dget args "session")) with
    | Some started => add_output st (here +:+ ", " +:+ py_str action +:+ " of the session started at " +:+ started) output
    | None => st
    end
  else st.
Definition log_event (where_ : string) (st : log_state) (event : dict) : res log_state :=
  let data := dict_or_empty (dget event "data") in
  let kind := dget event "type" in
  let here := where_ +:+ " seq " +:+ py_str (dget event "seq") in
  if is_string "assistant/message" kind then
    calls ← py_iter (py_or (dget data "tool_calls") (VList []));
    Ok (fold_left (λ st call, match call with VDict c => open_call st (dget c "id") c | _ => st end) calls st)
  else if is_string "tool/inner-call" kind then Ok (open_call st (dget data "call_id") data)
  else if is_string VERIFICATION_NAME kind then
    findings ← py_iter (py_or (dget data "findings") (VList []));
    let text := join nl ((match dget data "error" with VStr e => [e] | _ => [] end) ++ map py_str findings) in
    Ok (add_output st (here +:+ ", runtime verification") (Some text))
  else if is_string "tool/result" kind then Ok (result_event here st data)
  else Ok st.
Definition log_outputs (log : string * res string) : res (list dict) :=
  events ← read_jsonl log.2;
  st ← foldM (log_event log.1) {| opened := []; sessions := []; outputs := [] |} events;
  Ok (outputs st).
Definition foe_suite_outputs (logs : list (string * res string)) : res (list dict) := l ← map_res log_outputs logs; Ok (concat l).

Definition codex_output (path : string) (r : dict) : list dict :=
  let payload := dict_or_empty (dget r "payload") in
  let item := dict_or_empty (dget payload "item") in
  if negb (is_string "event_msg" (dget r "type") && is_string "item_completed" (dget payload "type") && is_string CODEX_COMMAND_ITEM (dget item "type")) then []
  else if negb (invokes_run_script (command_text (dget item "command"))) then []
  else [recorded ("session " +:+ path_name path +:+ " item " +:+ py_str (dget item "id"))
          (match dget item "aggregated_output" with VStr s => Some s | _ => joined_streams item end)].
Definition codex_suite_outputs (paths : list string) : res (list dict) :=
  l ← map_res (λ path, rs ← read_jsonl (read path); Ok (concat (map (codex_output path) rs))) paths;
  Ok (concat (l : list (list dict))).
Definition unreadable (harness : value) (r : res (list dict)) : res (list dict * list string) :=
  match r with
  | Ok l => Ok (l, [])
  | Err (OSError m) | Err (ValueError m) => Ok ([], ["the " +:+ py_str harness +:+ " records of the attempt cannot be read: " +:+ m])
  | Err e => Err e
  end.
Definition suite_outputs (record : dict) : res (list dict * list string) :=
  arm ← arm_record record;
  named ← (if truthy (dget record "harness") then Ok VNone else get arm "harness");
  let harness := py_or (dget record "harness") named in
  if is_string "foe" harness then
    dir ← get arm "episode_dir";
    match dir with
    | VStr d =>
        if is_a_file (path_join d LOG_NAME) then unreadable harness (foe_suite_outputs (logs_below d))
        else Ok ([], ["the foe episode log arm_result.record.episode_dir names, " +:+ d +:+ ", cannot be read"])
    | v => Ok ([], ["the foe episode log arm_result.record.episode_dir names, " +:+ py_str v +:+ ", cannot be read"])
    end
  else if is_string "codex" harness then
    listed ← get arm "session_files";
    listed ← py_iter (py_or listed (VList []));
    let files := map path_str (omap as_str listed) in
    let missing := map path_name (List.filter (λ p, negb (is_a_file p)) files) in
    match files, missing with
    | _ :: _, [] => unreadable harness (codex_suite_outputs files)
    | _, _ => Ok ([], ["the Codex session files arm_result.record.session_files names cannot be read: "
                       +:+ if String.eqb (join ", " missing) "" then "none is named" else join ", " missing])
    end
  else Ok ([], ["the record names the harness " +:+ py_repr harness +:+ ", whose records this module does not read"]).

(** ** The condition of an attempt *)

Definition wait_condition (record task : dict) : res (Condition * string) :=
  found ← suite_outputs record;
  let w := wait_entry found.1 (inr (dict_or_empty (dget task "metadata"))) in
  let status := if entered w then ENTERED else NOT_ESTABLISHED in
  Ok ({| condition := WAIT_ENTERED; reached := Some (String.eqb status ENTERED); shown_by := found.2 ++ Trajectory.evidence w |}, status).
(** What [condition_reached] returns: the condition, the state of the wait where
    the task has one, and the conditions it joins. *)
Record Verdict : Type := { joint : Condition; wait_status : option string; parts : list Condition }.
Definition both (own wait : option bool) : option bool := x ← own; y ← wait; Some (x && y).
Definition condition_reached (record task : dict) (document : option dict) : res Verdict :=
  own ← arm_condition record document;
  if negb (is_string NON_TERMINATING (dget task "class_name")) then Ok {| joint := own; wait_status := None; parts := [] |} else
  wait ← wait_condition record task;
  if String.eqb (condition own) NONE_DECLARED then Ok {| joint := wait.1; wait_status := Some wait.2; parts := [own; wait.1] |} else
  Ok {| joint := {| condition := condition own +:+ " and " +:+ WAIT_ENTERED; reached := both (reached own) (reached wait.1);
                    shown_by := shown_by own ++ shown_by wait.1 |};
        wait_status := Some wait.2; parts := [own; wait.1] |}.

(** ** The conditions of a run *)

Definition moved_path (state_root home : string) (v : value) : value :=
  match v with VStr p => VStr (under_state_root p state_root home) | v => v end.
Definition moved_under (record : value) (state_root home : string) : res value :=
  result ← get record "arm_result";
  arm ← get (or_empty result) "record";
  match arm with
  | VDict arm =>
      let move d key := match dget d key with VStr p => dset d key (moved_path state_root home (VStr p)) | _ => d end in
      let arm := move (move arm "config") "episode_dir" in
      let arm := match dget arm "session_files" with VList l => dset arm "session_files" (VList (map (moved_path state_root home) l)) | _ => arm end in
      Ok (VDict (dset (dict_or_empty record) "arm_result" (VDict (dset (dict_or_empty result) "record" (VDict arm)))))
  | _ => Ok record
  end.
Record Row : Type := { row_task : value; row_arm : value; row_attempt : value; row_verdict : Verdict }.
Definition row_of (state_root : option string) (home : string) (file : res string) : res Row :=
  text ← read_text file;
  match loads_str text with
  | inr e => Err (ValueError (load_error_str e))
  | inl v =>
      record ← (match state_root with Some root => moved_under v root home | None => Ok v end);
      task ← item record "task";
      name ← item task "name";
      arm ← item record "arm";
      attempt ← item record "attempt";
      verdict ← condition_reached (dict_or_empty record) (dict_or_empty task) None;
      Ok {| row_task := name; row_arm := arm; row_attempt := attempt; row_verdict := verdict |}
  end.
Definition records_conditions (state_root : option string) (home : string) (files : list (res string)) : res (list Row) :=
  map_res (row_of state_root home) files.
End conditions.

Record Count : Type := { attempts : nat; reached_count : nat; not_reached : nat; none_declared : nat; wait_not_established : option nat }.
Definition row_key (r : Row) : string := py_str (row_arm r) +:+ ": " +:+ condition (joint (row_verdict r)).
Definition no_rows (r : Row) : Count :=
  {| attempts := 0; reached_count := 0; not_reached := 0; none_declared := 0;
     wait_not_established := match wait_status (row_verdict r) with Some _ => Some 0 | None => None end |}.
(** [count["wait_not_established"] += 1], of a count the key's first row made. *)
Definition count_row (c : Count) (r : Row) : res Count :=
  let v := reached (joint (row_verdict r)) in
  let says b := match v with Some x => Bool.eqb x b | None => false end in
  waits ← (if match wait_status (row_verdict r) with Some s => String.eqb s NOT_ESTABLISHED | None => false end then
             match wait_not_established c with Some n => Ok (Some (S n)) | None => Err (KeyError "wait_not_established") end
           else Ok (wait_not_established c));
  Ok {| attempts := S (attempts c);
        reached_count := if says true then S (reached_count c) else reached_count c;
        not_reached := if says false then S (not_reached c) else not_reached c;
        none_declared := match v with None => S (none_declared c) | Some _ => none_declared c end;
        wait_not_established := waits |}.
Definition summary_step (counts : list (string * Count)) (r : Row) : res (list (string * Count)) :=
  c ← count_row (default (no_rows r) (assoc counts (row_key r))) r; Ok (dset counts (row_key r) c).
(** [summary] of [conditions_file]. *)
Definition conditions_summary (rows : list Row) : res (list (string * Count)) := s ← foldM summary_step [] rows; Ok (sorted_items s).

(** ** Which contracts a document holds *)

(** The contracts held below one, through any number of contracts. *)
Inductive below (h : held) : held → Prop :=
| below_refl : below h h
| below_step y z bs : below h y → held_by y = Ok bs → z ∈ bs → below h z.
Lemma below_first h bs x : held_by h = Ok bs → below h x ↔ x = h ∨ ∃ b, b ∈ bs ∧ below b x.
Proof.
  intros Hb. split.
  - induction 1 as [|y z cs _ IH Hy Hz]; [by left|]. right. destruct IH as [->|(b & Hin & Hbelow)].
    + rewrite Hb in Hy. injection Hy as <-. exists z. split; [done|constructor].
    + exists b. split; [done|]. by eapply below_step.
  - intros [->|(b & Hin & H)]; [constructor|]. induction H as [|y z cs _ IH Hy Hz].
    + eapply below_step; [constructor|done|done].
    + by eapply below_step.
Qed.
Lemma contracts_from_exact fuel pending l : contracts_from fuel pending = Ok l → ∀ x, x ∈ l ↔ ∃ h, h ∈ pending ∧ below h x.
Proof.
  revert pending l. induction fuel as [|fuel IH]; intros pending l H x; [done|]. cbn [contracts_from] in H. destruct pending as [|h pending].
  { injection H as <-. split; [by intros ?%elem_of_nil|by intros (h & ?%elem_of_nil & _)]. }
  apply res_bind_ok in H as (bs & Hb & H). apply res_bind_ok in H as (rest & Hr & [= <-]). rewrite elem_of_cons, (IH _ _ Hr).
  setoid_rewrite elem_of_app. setoid_rewrite elem_of_cons. split.
  - intros [->|(g & [Hg|Hg] & Hx)]; [exists h; split; [by left|constructor]|exists g; split; [by right|done]|].
    exists h. split; [by left|]. apply (below_first _ _ _ Hb). right. by exists g.
  - intros (g & [->|Hg] & Hx); [|right; exists g; split; [by left|done]]. apply (below_first _ _ _ Hb) in Hx as [->|(b & Hin & Hx)]; [by left|].
    right. exists b. split; [by right|done].
Qed.

(** The fuel is enough: what a contract holds is smaller than the contract. *)
Definition sizes (d : dict) : nat := list_sum (map (λ kv, value_size kv.2) d).
Lemma sizes_cons kv d : sizes (kv :: d) = value_size kv.2 + sizes d.
Proof. done. Qed.
Lemma dict_size d : value_size (VDict d) = S (sizes d).
Proof. done. Qed.
Definition contract_size (h : held) : nat := value_size (VDict h.1.2).
Definition held_sizes (l : list held) : nat := list_sum (map contract_size l).
Lemma held_sizes_cons h l : held_sizes (h :: l) = contract_size h + held_sizes l.
Proof. done. Qed.
Lemma held_sizes_app l m : held_sizes (l ++ m) = held_sizes l + held_sizes m.
Proof. unfold held_sizes. by rewrite map_app, list_sum_app. Qed.
Definition at_size (d : dict) (k : string) : nat := match assoc d k with Some v => value_size v | None => 0 end.
Lemma at_size_cons k' v d k : at_size ((k', v) :: d) k = if String.eqb k' k then value_size v else at_size d k.
Proof. unfold at_size. cbn [assoc]. by destruct (String.eqb k' k). Qed.
Lemma size_at d k : at_size d k ≤ sizes d.
Proof. induction d as [|[k' v] d IH]; [done|]. rewrite at_size_cons, sizes_cons. cbn [snd]. destruct (String.eqb k' k); lia. Qed.
Lemma size_two d k k' : k ≠ k' → at_size d k + at_size d k' ≤ sizes d.
Proof.
  intros Hne. induction d as [|[x v] d IH]; [done|]. pose proof (size_at d k). pose proof (size_at d k'). rewrite !at_size_cons, sizes_cons. cbn [snd].
  destruct (String.eqb_spec x k), (String.eqb_spec x k'); try congruence; lia.
Qed.
Lemma size_dget d k e : dget d k = VDict e → at_size d k = S (sizes e).
Proof. unfold dget, at_size. destruct (assoc d k) as [v|]; [|done]. cbn. by intros ->. Qed.
Lemma or_empty_size d k e : or_empty (dget d k) = VDict e → sizes e ≤ at_size d k.
Proof.
  unfold or_empty, py_or. destruct (truthy (dget d k)); [intros H; rewrite (size_dget _ _ _ H); lia|]. intros [= <-]. cbn. lia.
Qed.
Lemma omap_held_sizes (f : string * value → option held) d :
  (∀ kv h, f kv = Some h → contract_size h ≤ value_size kv.2) → held_sizes (omap f d) ≤ sizes d.
Proof.
  intros Hf. induction d as [|kv d IH]; [done|]. rewrite sizes_cons. specialize (Hf kv).
  change (omap f (kv :: d)) with (match f kv with Some h => h :: omap f d | None => omap f d end).
  destruct (f kv) as [h|]; [|lia]. rewrite held_sizes_cons. specialize (Hf h eq_refl). lia.
Qed.
Lemma nodes_size path d : held_sizes (omap (node_contract path) d) ≤ sizes d.
Proof.
  apply omap_held_sizes. intros [k v] h. unfold node_contract. cbn [snd fst]. destruct v as [| | | | | |n]; try done.
  destruct (dget n "model") as [| | | | | |m] eqn:Em; try done. intros [= <-]. apply size_dget in Em. pose proof (size_at n "model").
  unfold contract_size. cbn [fst snd]. rewrite !dict_size. lia.
Qed.
Lemma children_size path d : held_sizes (omap (child_contract path) d) ≤ sizes d.
Proof. apply omap_held_sizes. intros [k v] h. unfold child_contract. cbn [snd fst]. by destruct v; intros [= <-]. Qed.
Lemma held_smaller h bs : held_by h = Ok bs → held_sizes bs < contract_size h.
Proof.
  destruct h as [[path c] holder]. unfold held_by. intros H. apply res_bind_ok in H as (v & Hv & H). apply res_bind_ok in H as (nodes & Hn & H).
  apply res_bind_ok in H as (children & Hc & [= <-]).
  destruct (or_empty (dget c "workflow")) as [| | | | | |w] eqn:Ew; try done. injection Hv as <-. destruct (dget_or w "nodes" (VDict [])) as [| | | | | |ns] eqn:En; try done.
  injection Hn as ->. destruct (or_empty (dget c "child_contracts")) as [| | | | | |cs] eqn:Ec; try done. injection Hc as ->.
  apply or_empty_size in Ew, Ec. assert (Hns : sizes nodes ≤ sizes w).
  { unfold dget_or in En. pose proof (size_at w "nodes") as Hw. unfold at_size in Hw. destruct (assoc w "nodes") as [x|]; cbn in En.
    - subst x. rewrite dict_size in Hw. lia.
    - injection En as <-. cbn. lia. }
  rewrite held_sizes_app. pose proof (nodes_size path nodes). pose proof (children_size path children).
  pose proof (size_two c "workflow" "child_contracts" ltac:(done)). unfold contract_size. cbn [fst snd]. rewrite dict_size. lia.
Qed.
Lemma held_by_stated h : held_by h ≠ Err OutOfFuel.
Proof.
  destruct h as [[path c] holder]. unfold held_by. destruct (or_empty (dget c "workflow")) as [| | | | | |w]; try done. cbn.
  destruct (dget_or w "nodes" (VDict [])); try done. cbn. by destruct (or_empty (dget c "child_contracts")).
Qed.
Lemma contracts_from_enough fuel pending : held_sizes pending < fuel → contracts_from fuel pending ≠ Err OutOfFuel.
Proof.
  revert pending. induction fuel as [|fuel IH]; intros pending Hf; [lia|]. cbn [contracts_from]. destruct pending as [|h pending]; [done|].
  pose proof (held_by_stated h). destruct (held_by h) as [bs|e] eqn:Hb; [|by intros [= ->]]. cbn [mbind res_bind]. apply held_smaller in Hb.
  rewrite held_sizes_cons in Hf. specialize (IH (pending ++ bs)). rewrite held_sizes_app in IH.
  destruct (contracts_from fuel (pending ++ bs)) as [rest|e]; [done|]. cbn. intros [= ->]. by apply IH; [lia|].
Qed.

(** The list of a document's contracts is always made or refused,
    never endless: what a contract holds is smaller than it.  It begins with the
    document and holds exactly the contracts that are nodes or children of it,
    directly or through others. *)
Theorem contracts_exact document : contracts_of document ≠ Err OutOfFuel ∧
  ∀ l, contracts_of document = Ok l → head l = Some ("root", document, None) ∧ ∀ x, x ∈ l ↔ below ("root", document, None) x.
Proof.
  unfold contracts_of. split; [apply contracts_from_enough; rewrite held_sizes_cons; unfold contract_size, held_sizes; cbn [fst snd map list_sum foldr]; lia|].
  intros l H. split.
  - cbn [contracts_from] in H. apply res_bind_ok in H as (bs & _ & H). by apply res_bind_ok in H as (rest & _ & [= <-]).
  - intros x. rewrite (contracts_from_exact _ _ _ H). split; [by intros (h & ->%list_elem_of_singleton & Hx)|].
    intros Hx. eexists. split; [by apply list_elem_of_singleton|done].
Qed.

(** ** The documents the study builds *)

Lemma contracts_from_more fuel pending l more : contracts_from fuel pending = Ok l → contracts_from (fuel + more) pending = Ok l.
Proof.
  revert pending l. induction fuel as [|fuel IH]; intros pending l H; [done|]. cbn [contracts_from Nat.add] in *. destruct pending as [|h pending]; [done|].
  apply res_bind_ok in H as (bs & -> & H). apply res_bind_ok in H as (rest & Hr & [= <-]). cbn [mbind res_bind]. by rewrite (IH _ _ Hr).
Qed.
Lemma sizes_length d : length d ≤ sizes d.
Proof. induction d as [|kv d IH]; [done|]. rewrite sizes_cons. assert (1 ≤ value_size kv.2) by (destruct kv.2; cbn; lia). cbn [length]. lia. Qed.
Lemma contracts_of_in d n l : n ≤ length d → contracts_from (S (S n)) [("root", d, None)] = Ok l → contracts_of d = Ok l.
Proof.
  intros Hn H. unfold contracts_of. rewrite dict_size. pose proof (sizes_length d).
  assert (S (S (sizes d)) = S (S n) + (sizes d - n)) as -> by lia. by apply contracts_from_more.
Qed.

(** The readings of a document whose contracts are listed. *)
Definition kept_paths (test : held → res bool) (l : list held) : res (list string) :=
  kept ← map_res (λ h, b ← test h; Ok (if (b : bool) then [h.1.1] else [])) l; Ok (concat (kept : list (list string))).
Lemma readings_of d n l offering instructing verifiers : n ≤ length d → contracts_from (S (S n)) [("root", d, None)] = Ok l →
  kept_paths offers_block l = Ok offering → kept_paths instructs_block l = Ok instructing → concat (map verifiers_at l) = verifiers →
  contracts_offering_block d = Ok offering ∧ contracts_instructing_block d = Ok instructing ∧ declared_verifiers d = Ok verifiers.
Proof.
  intros Hn Hl Ho Hi <-. apply contracts_of_in in Hl; [|done].
  unfold contracts_offering_block, contracts_instructing_block, declared_verifiers, paths_where. rewrite Hl. cbn [mbind res_bind]. split_and!; [exact Ho|exact Hi|done].
Qed.
(** Where the document of a variant offers [block], instructs a call to it, and
    declares verifiers. *)
Definition editing_paths : list string := ["root.nodes.implement"; "root.nodes.repair"].
Definition verifier_paths : list string := "root.done_when.verify" :: map (λ p, p +:+ ".verify") editing_paths.
Lemma graph_readings s variant task d : variant ∈ AUTONOMY_VARIANTS → graph_on s variant task = Ok d →
  contracts_offering_block d = Ok (if stops_under variant then "root" :: editing_paths else []) ∧
  contracts_instructing_block d = Ok (if stops_under variant then editing_paths else []) ∧
  declared_verifiers d = Ok (if verifies_under variant then verifier_paths else []).
Proof.
  intros Hv. pattern variant. apply variant_cases; [exact Hv|..]; (intros [= <-]; eapply (readings_of _ 4); [cbn; lia|reflexivity|reflexivity|reflexivity|reflexivity]).
Qed.

(** What a condition says of an attempt, if it is computed. *)
Definition says (r : res Condition) : option (option bool) := match r with Ok c => Some (reached c) | Err _ => None end.

(** Claim C35. What the condition of an arm says of a run whose document [autonomy] built,
    given directly or read back from the file it was written to.  The unverified
    arm's holds exactly of the documents of the unverified variant, if the runtime
    ran no verifier, and the ablated arm's exactly of those of the ablated variant.
    The condition of the three verifying arms (configured, lean and undivided) is
    that a verifier ran, and tells nothing of the document: it is the same
    whatever the variant. *)
Theorem conditions_tell_variants read ws ck b variant rf roots ex task d record document arm n :
  autonomy ws ck b variant rf roots ex task = Ok d →
  dget record "arm" = VStr arm → truthy (dget record "trajectory") = true → verifications (dget record "trajectory") = Ok n →
  document = Some d ∨ (document = None ∧ ∃ a path, arm_record record = Ok (VDict a) ∧ dget a "config" = VStr path ∧
    read path = Ok (dumps_indented (VDict d) +:+ nl) ∧ plain is_text (VDict d) = true) →
  (arm = "foe-unverified" → says (arm_condition read record document) = Some (Some ((n =? 0) && String.eqb variant "unverified"))) ∧
  (arm = "foe-ablated" → says (arm_condition read record document) = Some (Some (String.eqb variant "ablated"))) ∧
  (arm ∈ ["foe-configured"; "foe-lean"; "foe-undivided"] → says (arm_condition read record document) = Some (Some (0 <? n))).
Proof.
  intros (Hv & s & _ & H)%autonomy_ok Harm Ht Hn Hd. destruct (graph_readings s variant task d Hv H) as (Ho & Hi & Hf).
  assert (Hdoc : (match document with Some d => Ok (Some d) | None => document_of read record end) = Ok (Some d)).
  { destruct Hd as [->|(-> & a & path & Ha & Hp & Hr & Hpl)]; [done|]. unfold document_of. rewrite Ha. cbn [mbind res_bind].
    assert (get (VDict a) "config" = Ok (VStr path)) as -> by (unfold dget in Hp; unfold get, get_or, dget_or; by rewrite Hp). cbn [mbind res_bind].
    rewrite Hr, read_indented by done. by rewrite loads_indented. }
  unfold arm_condition. rewrite Harm, Ht, Hn. cbn [py_str negb mbind res_bind].
  split_and!.
  - intros ->. change (assoc ARM_CONDITIONS "foe-unverified") with (Some VERIFIER_ABSENT). cbv iota.
    change (String.eqb VERIFIER_ABSENT VERIFIER_INVOKED) with false. cbv iota. rewrite Hdoc. cbn [mbind res_bind]. rewrite Ho, Hi, Hf. cbn [mbind res_bind].
    change (String.eqb VERIFIER_ABSENT VERIFIER_ABSENT) with true. cbv iota. cbn [says reached].
    clear -Hv. do 2 f_equal. pattern variant. apply variant_cases; [exact Hv|..]; by destruct (n =? 0).
  - intros ->. change (assoc ARM_CONDITIONS "foe-ablated") with (Some STOP_ABSENT). cbv iota.
    change (String.eqb STOP_ABSENT VERIFIER_INVOKED) with false. cbv iota. rewrite Hdoc. cbn [mbind res_bind]. rewrite Ho, Hi, Hf. cbn [mbind res_bind].
    change (String.eqb STOP_ABSENT VERIFIER_ABSENT) with false. cbv iota. cbn [says reached].
    clear -Hv. do 2 f_equal. pattern variant. by apply variant_cases; [exact Hv|..].
  - intros Ha. assert (assoc ARM_CONDITIONS arm = Some VERIFIER_INVOKED) as ->; [|done].
    repeat (apply elem_of_cons in Ha as [->|Ha]; [done|]). by apply elem_of_nil in Ha.
Qed.

(** ** The summary of a run *)

Section summary.
Context (read : string → res string) (is_a_file : string → bool) (logs_below : string → list (string * res string)).

Lemma arm_condition_name record document c : arm_condition read record document = Ok c →
  condition c ∈ [NONE_DECLARED; VERIFIER_INVOKED; VERIFIER_ABSENT; STOP_ABSENT] ∧
  (condition c ≠ NONE_DECLARED ↔ is_Some (reached c)).
Proof.
  unfold arm_condition. destruct (assoc ARM_CONDITIONS _) as [k|] eqn:Ek.
  2:{ intros [= <-]. cbn. split; [by left|]. split; [intros Hx; by destruct Hx|intros [x Hx]; discriminate Hx]. }
  assert (Hk : k ∈ [VERIFIER_INVOKED; VERIFIER_ABSENT; STOP_ABSENT] ∧ k ≠ NONE_DECLARED).
  { unfold assoc, ARM_CONDITIONS in Ek. repeat (match type of Ek with context [String.eqb ?a ?b] => destruct (String.eqb a b) end;
      [injection Ek as <-; split; [apply elem_str_spec; reflexivity|done]|]). done. }
  destruct Hk as [Hk Hne].
  assert (Hgoal : ∀ c, condition c = k → is_Some (reached c) → condition c ∈ [NONE_DECLARED; VERIFIER_INVOKED; VERIFIER_ABSENT; STOP_ABSENT] ∧
    (condition c ≠ NONE_DECLARED ↔ is_Some (reached c))) by (intros x -> ?; split; [by right|done]).
  destruct (negb (truthy _)); [intros [= <-]; apply Hgoal; [done|by eexists]|]. intros H. apply res_bind_ok in H as (n & _ & H).
  destruct (String.eqb k VERIFIER_INVOKED); [injection H as <-; apply Hgoal; [done|by eexists]|]. apply res_bind_ok in H as (d & _ & H).
  destruct d as [d|]; [|injection H as <-; apply Hgoal; [done|by eexists]]. apply res_bind_ok in H as (o & _ & H). apply res_bind_ok in H as (i & _ & H).
  apply res_bind_ok in H as (v & _ & H). destruct (String.eqb k VERIFIER_ABSENT); injection H as <-; apply Hgoal; (done || by eexists).
Qed.

(** A verdict has the state of a wait exactly when its condition names one. *)
Definition names_wait (key : string) : bool := ends_with WAIT_ENTERED key.
Lemma length_str_rev s : String.length (str_rev s) = String.length s.
Proof. induction s as [|c s IH]; [done|]. rewrite str_rev_cons, length_str_app, IH. cbn. lia. Qed.
Lemma ends_with_app p a b : String.length p ≤ String.length b → ends_with p (a +:+ b) = ends_with p b.
Proof.
  intros Hl. unfold ends_with. rewrite str_rev_app. change (starts_with (str_rev p) (str_rev b +:+ str_rev a) = starts_with (str_rev p) (str_rev b)).
  apply eq_true_iff_eq. split; [apply prefix_shorter; by rewrite !length_str_rev|]. intros [t ->]%starts_with_inv. rewrite str_app_assoc. apply starts_with_app.
Qed.
Lemma verdict_shape record task document v : condition_reached read is_a_file logs_below record task document = Ok v →
  (∀ arm, names_wait (arm +:+ ": " +:+ condition (joint v)) = match wait_status v with Some _ => true | None => false end) ∧
  (wait_status v = Some NOT_ESTABLISHED → reached (joint v) = Some false).
Proof.
  unfold condition_reached. intros H. apply res_bind_ok in H as (own & Ho & H). apply arm_condition_name in Ho as [Hn Hr].
  destruct (negb _).
  { injection H as <-. cbn [wait_status joint]. split; [|done]. intros arm. rewrite <-str_app_assoc. unfold names_wait.
    repeat (apply elem_of_cons in Hn as [->|Hn]; [rewrite ends_with_app by (vm_compute; lia); reflexivity|]). by apply elem_of_nil in Hn. }
  apply res_bind_ok in H as ([w st] & Hw & H). cbn [fst snd] in H.
  assert (condition w = WAIT_ENTERED ∧ reached w = Some (String.eqb st ENTERED)) as [Hc He].
  { unfold wait_condition in Hw. apply res_bind_ok in Hw as (found & _ & Hw). by injection Hw as <- <-. }
  assert (Hst : st = NOT_ESTABLISHED → reached w = Some false) by (intros ->; by rewrite He).
  destruct (String.eqb_spec (condition own) NONE_DECLARED) as [E|E]; injection H as <-; cbn [wait_status joint reached condition].
  - split; [|intros [= Hs]; by apply Hst]. intros arm. rewrite Hc, <-str_app_assoc. unfold names_wait. by rewrite ends_with_app by (vm_compute; lia).
  - split; [|intros [= Hs]; rewrite Hst by done; apply Hr in E as [b ->]; by destruct b].
    intros arm. rewrite <-!str_app_assoc. unfold names_wait. by rewrite ends_with_app by (vm_compute; lia).
Qed.

(** The rows of a key, and what the summary says of them. *)
Definition rows_of (k : string) (rows : list Row) : list Row := List.filter (λ r, String.eqb (row_key r) k) rows.
Definition row_says (b : bool) (r : Row) : bool := match reached (joint (row_verdict r)) with Some x => Bool.eqb x b | None => false end.
Definition row_silent (r : Row) : bool := match reached (joint (row_verdict r)) with None => true | Some _ => false end.
Definition row_waits (r : Row) : bool := match wait_status (row_verdict r) with Some _ => true | None => false end.
Definition row_unestablished (r : Row) : bool :=
  match wait_status (row_verdict r) with Some s => String.eqb s NOT_ESTABLISHED | None => false end.
Definition tallied (f : Row → bool) (l : list Row) : nat := length (List.filter f l).
Definition counted (waits : bool) (l : list Row) : Count :=
  {| attempts := length l; reached_count := tallied (row_says true) l; not_reached := tallied (row_says false) l;
     none_declared := tallied row_silent l; wait_not_established := if waits then Some (tallied row_unestablished l) else None |}.
(** A row whose verdict [condition_reached] gave. *)
Definition computed (r : Row) : Prop :=
  ∃ record task document, condition_reached read is_a_file logs_below record task document = Ok (row_verdict r).
Lemma computed_waits r : computed r → row_waits r = names_wait (row_key r) ∧ (row_unestablished r = true → row_says false r = true).
Proof.
  intros (record & task & document & H). apply verdict_shape in H as [Hn Hs]. unfold row_waits, row_key, row_unestablished, row_says. rewrite Hn. split; [done|].
  destruct (wait_status (row_verdict r)) as [st|]; [|done]. intros ->%String.eqb_eq. by rewrite Hs.
Qed.
Lemma tallied_snoc f l r : tallied f (l ++ [r]) = if f r then S (tallied f l) else tallied f l.
Proof. unfold tallied. rewrite List.filter_app, length_app. cbn. destruct (f r); cbn; lia. Qed.
Lemma count_row_snoc w l r : row_waits r = w → count_row (counted w l) r = Ok (counted w (l ++ [r])).
Proof.
  intros Hw. unfold count_row, counted. cbn [attempts reached_count not_reached none_declared wait_not_established].
  rewrite !tallied_snoc, length_app. cbn [length]. rewrite Nat.add_1_r. unfold row_unestablished, row_says, row_silent, row_waits in *.
  destruct (wait_status (row_verdict r)) as [st|], (reached (joint (row_verdict r))) as [x|]; subst w; cbn; try done;
    destruct (String.eqb st NOT_ESTABLISHED); done.
Qed.
Lemma rows_of_snoc k l r : rows_of k (l ++ [r]) = if String.eqb (row_key r) k then rows_of k l ++ [r] else rows_of k l.
Proof. unfold rows_of. rewrite List.filter_app. cbn. destruct (String.eqb (row_key r) k); [done|by rewrite app_nil_r]. Qed.
Definition summarised (rows : list Row) (s : list (string * Count)) : Prop :=
  NoDup (keys s) ∧ ∀ k, assoc s k = match rows_of k rows with [] => None | l => Some (counted (names_wait k) l) end.
Lemma summary_step_ok l s r : computed r → summarised l s → ∃ s', summary_step s r = Ok s' ∧ summarised (l ++ [r]) s'.
Proof.
  intros Hr [Hn Ha]. destruct (computed_waits r Hr) as [Hw _]. unfold summary_step.
  assert (count_row (default (no_rows r) (assoc s (row_key r))) r = Ok (counted (names_wait (row_key r)) (rows_of (row_key r) l ++ [r]))) as ->.
  { rewrite Ha. destruct (rows_of (row_key r) l) as [|x m]; [|by apply count_row_snoc].
    rewrite <-count_row_snoc by done. f_equal. unfold no_rows, counted. cbn. rewrite <-Hw. unfold row_waits. by destruct (wait_status _). }
  eexists. split; [reflexivity|]. split.
  - destruct (decide (row_key r ∈ keys s)); [by rewrite keys_dset_in|]. rewrite keys_dset_notin by done. apply NoDup_app. split_and!; [done| |apply NoDup_singleton].
    intros x Hx ->%list_elem_of_singleton. done.
  - intros k. rewrite rows_of_snoc. destruct (String.eqb_spec (row_key r) k) as [<-|Hne].
    + rewrite assoc_dset_eq. by destruct (rows_of (row_key r) l).
    + rewrite assoc_dset_ne by done. apply Ha.
Qed.
Lemma summary_rows rows : ∀ l s, (∀ r, r ∈ rows → computed r) → summarised l s →
  ∃ s', foldM summary_step s rows = Ok s' ∧ summarised (l ++ rows) s'.
Proof.
  induction rows as [|r rows IH]; intros l s Hr Hs; [exists s; by rewrite app_nil_r|]. destruct (summary_step_ok l s r) as (s' & E & Hs'); [apply Hr; by left|done|].
  destruct (IH (l ++ [r]) s') as (t & Et & Ht); [intros x Hx; apply Hr; by right|done|]. exists t. cbn [foldM]. rewrite E. cbn [mbind res_bind].
  by rewrite <-app_assoc in Ht.
Qed.
Lemma tallied_parts l : length l = tallied (row_says true) l + tallied (row_says false) l + tallied row_silent l.
Proof.
  unfold tallied, row_says, row_silent. induction l as [|r l IH]; [done|]. cbn. destruct (reached (joint (row_verdict r))) as [[]|]; cbn; lia.
Qed.
Lemma tallied_le f g l : (∀ r, r ∈ l → f r = true → g r = true) → tallied f l ≤ tallied g l.
Proof.
  unfold tallied. induction l as [|r l IH]; intros H; [done|]. cbn. specialize (IH ltac:(intros x Hx; apply H; by right)).
  specialize (H r ltac:(by left)). destruct (f r); [rewrite H by done; cbn; lia|]. destruct (g r); cbn; lia.
Qed.

(** The summary of computed rows is always made: no key mixes rows
    with and without a wait.  A key is listed, in order and once, exactly when a
    row has it, with the number of its rows and of those that reached their
    condition, did not, and declare none, which add up; and no more rows lack
    the wait than did not reach their condition. *)
Theorem summary_counts_rows rows : (∀ r, r ∈ rows → computed r) → ∃ s, conditions_summary rows = Ok s ∧
  StronglySorted (λ x y, String.le x.1 y.1) s ∧ NoDup (keys s) ∧
  (∀ k, assoc s k = match rows_of k rows with [] => None | l => Some (counted (names_wait k) l) end) ∧
  ∀ k c, assoc s k = Some c → attempts c = reached_count c + not_reached c + none_declared c ∧ default 0 (wait_not_established c) ≤ not_reached c.
Proof.
  intros Hr. destruct (summary_rows rows [] []) as (s & Hs & Hn & Ha); [done|split; [constructor|done]|]. cbn [app] in Ha.
  exists (sorted_items s). unfold conditions_summary. rewrite Hs. cbn [mbind res_bind].
  assert (Hp : sorted_items s ≡ₚ s) by apply merge_sort_Permutation.
  assert (Hk : NoDup (keys (sorted_items s))) by (unfold keys in *; by rewrite Hp).
  assert (Has : ∀ k, assoc (sorted_items s) k = assoc s k).
  { intros k. apply option_eq. intros c. split; intros E%assoc_elem; (apply elem_assoc; [done|]); [by rewrite Hp in E|by rewrite Hp]. }
  split_and!; [done| |done|intros k; rewrite Has; apply Ha|].
  - apply StronglySorted_merge_sort; [intros x y z ??; by etrans|intros x y; apply (total String.le)].
  - intros k c. rewrite Has, Ha. destruct (rows_of k rows) as [|x m] eqn:E; [done|]. rewrite <-E. intros [= <-]. split; [apply tallied_parts|].
    cbn [counted wait_not_established not_reached]. destruct (names_wait k); cbn [default from_option]; [|lia]. apply tallied_le. intros r Hin. apply computed_waits, Hr.
    apply list_elem_of_In, List.filter_In in Hin as [Hin _]. by apply list_elem_of_In.
Qed.
End summary.

(** ** Examples *)

Definition no_file (p : string) : res string := Err (OSError "no such file").
Definition nowhere (p : string) : bool := false.
Definition no_logs (p : string) : list (string * res string) := [].
Definition unverified_document : dict := Eval vm_compute in built (example_document "unverified").
Definition attempt_of (arm : string) (calls : list dict) : dict :=
  [("arm", VStr arm); ("trajectory", VDict [("agents", VList [VDict [("tool_calls", VList (map VDict calls))]])])].
Definition verification_call : dict := [("name", VStr VERIFICATION_NAME)].

Lemma contracts_exact_witness :
  ∃ l, contracts_of unverified_document = Ok l ∧ head l = Some ("root", unverified_document, None) ∧ length l = 5.
Proof.
  destruct (contracts_of unverified_document) as [l|e] eqn:E; [|vm_compute in E; discriminate]. exists l. split; [done|].
  destruct (contracts_exact unverified_document) as [_ H]. split; [by apply (H l E)|]. vm_compute in E. by injection E as <-.
Defined.
Lemma conditions_tell_variants_witness :
  says (arm_condition no_file (attempt_of "foe-unverified" []) (Some unverified_document)) = Some (Some true) ∧
  says (arm_condition no_file (attempt_of "foe-ablated" []) (Some unverified_document)) = Some (Some false) ∧
  says (arm_condition no_file (attempt_of "foe-lean" [verification_call]) None) = Some (Some true).
Proof.
  split_and!; [| |vm_compute; reflexivity].
  - refine (proj1 (conditions_tell_variants no_file "/w/" "/c" example_budget "unverified" false WRITE_ROOTS EXECUTE_ROOTS PLACEHOLDER_TASK
      unverified_document (attempt_of "foe-unverified" []) (Some unverified_document) "foe-unverified" 0 _ _ _ _ _) eq_refl); [vm_compute; reflexivity|reflexivity|reflexivity|vm_compute; reflexivity|by left].
  - refine (proj1 (proj2 (conditions_tell_variants no_file "/w/" "/c" example_budget "unverified" false WRITE_ROOTS EXECUTE_ROOTS PLACEHOLDER_TASK
      unverified_document (attempt_of "foe-ablated" []) (Some unverified_document) "foe-ablated" 0 _ _ _ _ _)) eq_refl); [vm_compute; reflexivity|reflexivity|reflexivity|vm_compute; reflexivity|by left].
Defined.
Definition example_verdict (arm class_name : string) (calls : list dict) : Verdict :=
  match condition_reached no_file nowhere no_logs (attempt_of arm calls) [("class_name", VStr class_name)] None with
  | Ok v => v
  | Err _ => {| joint := {| condition := ""; reached := None; shown_by := [] |}; wait_status := None; parts := [] |}
  end.
Definition example_rows : list Row :=
  [{| row_task := VStr "t"; row_arm := VStr "foe-lean"; row_attempt := VInt 1; row_verdict := example_verdict "foe-lean" "other" [verification_call] |};
   {| row_task := VStr "u"; row_arm := VStr "foe-lean"; row_attempt := VInt 1; row_verdict := example_verdict "foe-lean" NON_TERMINATING [verification_call] |};
   {| row_task := VStr "t"; row_arm := VStr "foe-lean"; row_attempt := VInt 2; row_verdict := example_verdict "foe-lean" "other" [] |}].
Lemma summary_counts_rows_witness : ∃ s, conditions_summary example_rows = Ok s ∧
  keys s = ["foe-lean: runtime verifier invoked"; "foe-lean: runtime verifier invoked and wait entered"] ∧
  assoc s "foe-lean: runtime verifier invoked" = Some {| attempts := 2; reached_count := 1; not_reached := 1; none_declared := 0; wait_not_established := None |}.
Proof.
  destruct (summary_counts_rows no_file nowhere no_logs example_rows) as (s & Hs & _ & _ & Ha & _).
  - intros r Hr. apply elem_of_cons in Hr as [->|Hr].
    { exists (attempt_of "foe-lean" [verification_call]), [("class_name", VStr "other")], None. vm_compute. reflexivity. }
    apply elem_of_cons in Hr as [->|Hr].
    { exists (attempt_of "foe-lean" [verification_call]), [("class_name", VStr NON_TERMINATING)], None. vm_compute. reflexivity. }
    apply list_elem_of_singleton in Hr as ->. exists (attempt_of "foe-lean" []), [("class_name", VStr "other")], None. vm_compute. reflexivity.
  - exists s. split; [exact Hs|]. split; [vm_compute in Hs; by injection Hs as <-|]. rewrite Ha. vm_compute. reflexivity.
Defined.

(** The log line of a check whose output holds a line end of Unicode, which JSON
    leaves as it is: the line is cut, its pieces are skipped, and the output
    that shows the wait is lost. *)
Definition marked_line : string :=
  dumps_compact (VDict [("type", VStr "tool/result"); ("seq", VInt 4);
    ("data", VDict [("name", VStr CHECK); ("value", VDict [("stdout", VStr ("waiting" +:+ nl +:+ "a" +:+ utf8_encode 8232 +:+ "b"))])])]) +:+ nl.
Definition plain_line : string :=
  dumps_compact (VDict [("type", VStr "tool/result"); ("seq", VInt 4);
    ("data", VDict [("name", VStr CHECK); ("value", VDict [("stdout", VStr ("waiting" +:+ nl +:+ "a b"))])])]) +:+ nl.
Example separator_hides_output :
  foe_suite_outputs [("e", Ok marked_line)] = Ok [] ∧ (∃ d, loads_str marked_line = inl (VDict d)) ∧
  foe_suite_outputs [("e", Ok plain_line)] = Ok [recorded "e seq 4, check call" (Some ("waiting" +:+ nl +:+ "a b"))] ∧
  entered (wait_entry [recorded "e seq 4, check call" (Some ("waiting" +:+ nl +:+ "a b"))] (inl "waiting")) = true.
Proof. split_and!; [|eexists| |]; vm_compute; reflexivity. Qed.
