(* ===== verification/ArmRun.v ===== *)
(** * Running an arm

    src/evals/cross_harness/run.py, [run_arm] and what it runs: the foe binary
    under a generated document (arms/foe_arm.py, [run]) or under a built-in one
    ([run_builtin]), or the other harness ([CodexRun]).  What a process prints
    and leaves of the file system is an argument. *)

From Stdlib Require Import Ascii.
From stdpp Require Import base gmap sets list strings pretty sorting.
From Stdlib Require Import ZArith Lia.
From S2P Require Import Prelude PyValue PyText PyJson PyUnicode JsonText PyPath BudgetWatcher Graphs RunText FoeArm CodexArm RunPlan RunDocs.
From S2P Require Import TaskProtocol TaskRoot RunLaunch CodexRun.

Definition CONFIG_NAME : string := "config.json".
Definition CODEX_SANDBOX : string := "workspace-write".
Definition CODEX_CONFIG_CANARY : string := "codex_config".
Definition CHECK_SCRIPT : string := "check".

(** What a process under the foe arm's clock ended with: its exit status unless
    it was terminated, whether it was, and its two streams. *)
Definition process_end : Type := option Z * bool * string * string.

(** The host an attempt runs on: its home directory and environment, which files
    can be executed, the clock, the names it makes up, and what a process does to
    the file system. *)
Record Host : Type := {
  home_dir : string;
  environ : list (string * string);
  executable_at : tree → path → bool;
  fresh_name : tree → string;
  clock : bool → Z;
  foe_process : list string → path → Z → tree → res process_end * tree;
  codex_process : list string → path → dict → path → list (string * string) → tree → res (option Z * option Stop * string * string) * tree;
}.
Definition there (p : string → path) (f : tree → path → bool) (t : tree) (s : string) : bool := f t (p s).
Definition dir_at : tree → string → bool := there path_parts is_folder.
Definition file_in : tree → string → bool := there path_parts is_file.
Definition exists_in : tree → string → bool := there path_parts exists_at.

Section arms.
Context (h : Host).

(** ** The foe arm *)

(** What both runs of foe begin with. *)
Definition foe_begins (binary workspace artifacts logs : string) : io () :=
  t ← look id;
  unless (executable_at h t (path_parts binary)) (OSError ("foe binary " +:+ binary +:+ " is not an executable file"));;
  unless (dir_at t workspace) (OSError ("workspace " +:+ workspace +:+ " is not a directory"));;
  ensure_folders (path_parts artifacts);;
  ensure_folders (path_parts logs).
(** The process and the streams it wrote, kept beside the artifacts. *)
Definition run_process (command : list string) (workspace artifacts : string) (timeout : Z) : io (option Z * bool * string * string) :=
  ran ← call (λ _ t, t) (foe_process h command (path_parts workspace) timeout);
  let '(exit, killed, out, err) := ran in
  let stdout := decode_replace out in let stderr := decode_replace err in
  write_file (path_parts artifacts ++ [STDOUT_NAME]) stdout;;
  write_file (path_parts artifacts ++ [STDERR_NAME]) stderr;;
  mret (if killed : bool then None else exit, killed, stdout, stderr).
(** [foe_arm.run]. *)
Definition foe_run (arm : string) (s : FoeSpec) : io ArmResult :=
  foe_begins (binary s) (spec_workspace s) (artifacts s) (log_dir s);;
  prepared ← lift (prepare_document s);
  let config := path_parts (artifacts s) ++ [CONFIG_NAME] in
  write_file config (dumps_indented (VDict prepared.1) +:+ nl);;
  ran ← run_process (command_line s (shown config)) (spec_workspace s) (artifacts s) (cap s + TIMEOUT_MARGIN_SECONDS);
  let '(exit, killed, stdout, stderr) := ran in
  t ← look id;
  lift (result_of s arm (file_in t) (shown config) prepared.1 prepared.2 (clock h false) (clock h true) exit killed stdout stderr).

(** [run_builtin]. *)
Definition builtin_record (a : Arm) (command : list string) (workspace artifacts logs : string) (t : tree) (route : ModelRoute) (seconds : Z)
    (exit : option Z) (killed : bool) (stdout stderr : string) : dict :=
  let episode := announced_log_dir stderr logs in
  [("harness", VStr FOE_HARNESS); ("commands", VList [strs command]); ("cwd", VStr workspace); ("codex_home", VNone);
   ("config", VStr (variant a)); ("log_dir", VStr logs); ("episode_dir", VStr episode);
   ("episode_log_present", VBool (file_in t (path_join episode EPISODE_LOG))); ("stdout", VStr (path_join artifacts STDOUT_NAME));
   ("stderr", VStr (path_join artifacts STDERR_NAME)); ("model", VDict [("provider", VStr (provider route)); ("model", VStr (model_name route))]);
   ("reasoning_effort_applied", VBool false); ("workspace_placement", VStr "working-directory"); ("cap_seconds", VInt seconds);
   ("timeout_seconds", VInt (seconds + TIMEOUT_MARGIN_SECONDS)); ("killed", VBool killed); ("exit_status", option_value exit);
   ("outcome", match outcome_line stdout with Some o => VDict o | None => VNone end)].
Definition run_builtin (a : Arm) (binary : string) (t : Task) (workspace logs artifacts : string) (route : ModelRoute) (seconds : Z) : io ArmResult :=
  foe_begins binary workspace artifacts logs;;
  let command := builtin_command_line binary (task_text t) (variant a) logs route in
  let timeout := (seconds + TIMEOUT_MARGIN_SECONDS)%Z in
  ran ← run_process command workspace artifacts timeout;
  let '(exit, killed, stdout, stderr) := ran in
  r ← lift (interpret (outcome_line stdout) killed exit stderr timeout);
  files ← look id;
  mret {| result_arm := arm_name a; result_harness := FOE_HARNESS; started_ms := clock h false; ended_ms := clock h true; exit_status := exit;
          result_reported := r.1; FoeArm.candidate := r.2; result_artifacts := artifacts;
          result_record := builtin_record a command workspace artifacts logs files route seconds exit killed stdout stderr |}.

(** ** The other arm *)

Definition provider_list (d : option dict) : option (list (string * dict)) := map (λ kv, (kv.1, dict_or_empty kv.2)) <$> d.
Definition codex_spec (s : Settings) (a : Arm) (t : Task) (workspace artifacts : string) (b : dict) : res CodexSpec :=
  match s_codex s, s_credential s with
  | Some codex, Some credential =>
      limits ← codex_limits b;
      providers ← codex_providers s;
      make_codex_spec
        {| c_arm_name := arm_name a; codex := codex; c_task := codex_task_text a t; c_workspace := workspace; c_artifacts := artifacts;
           sandbox := CODEX_SANDBOX; c_model := s_model s; c_reasoning_effort := s_effort s; credential_source := credential;
           CodexArm.limits := limits; agents_enabled := false; max_threads := None; output_schema := Some DEFAULT_SCHEMA;
           model_providers := provider_list providers; environment := None; keep_credential := false;
           config_canary := as_str (dget (s_canaries s) CODEX_CONFIG_CANARY) |}
  | _, _ => Err (ValueError ("arm " +:+ arm_name a +:+ " needs harnesses.codex and harnesses.credential"))
  end.

(** ** Any arm *)

Definition seconds_of (b : dict) : res Z :=
  v ← dict_index b "seconds";
  match v with VInt z => Ok z | v => Err (ValueError ("spec seconds is " +:+ py_repr v +:+ "; the cap is a positive integer")) end.
(** [write_check_script]. *)
Definition write_check_script (p : path) (workspace : string) (command search_path : list string) : io path :=
  t ← look id;
  write_file p (check_script (dir_at t) (home_dir h) workspace command search_path);;
  chmod p;;
  mret p.
(** [run_arm]: a result, or that the watcher of the other arm failed after the
    run had started. *)
Definition watcher_failure (m : string) : string :=
  "the arm ran and its budget watcher then failed, so the attempt spent credit and reported nothing: " +:+ m.
Definition document_spec (s : Settings) (a : Arm) (t : Task) (workspace attempt_dir : path) (artifacts logs : string) (b : dict) (seconds : Z) : io FoeSpec :=
  files ← look id;
  tools ← lift (tool_roots (exists_in files) s t);
  command ← lift (check_command (dir_at files) (file_in files) t (shown workspace));
  check ← write_check_script (attempt_dir ++ [CHECK_SCRIPT]) (shown workspace) command tools;
  files ← look id;
  document ← lift (foe_document (dir_at files) a t (shown workspace) (shown check) tools (Some b));
  route ← lift (foe_route s);
  lift (make_spec {| binary := s_foe s; spec_document := document; spec_task := task_text t; spec_workspace := shown workspace;
                     log_dir := logs; artifacts := artifacts; route := route; cap := seconds; reasoning_effort := Some (s_effort s) |}).
Definition run_codex (s : Settings) (a : Arm) (t : Task) (workspace : path) (artifacts : string) (b : dict) : io (ArmResult + string) :=
  spec ← lift (codex_spec s a t (shown workspace) artifacts b);
  catching (ran ← codex_run (fresh_name h) (environ h) (executable_at h) (clock h false) (clock h true) (codex_process h) spec; mret (inl ran))
    (λ e, match e with RuntimeError _ | RecursionError => Some (inr (watcher_failure (exn_str e))) | _ => None end).
Definition run_arm (s : Settings) (a : Arm) (t : Task) (workspace attempt_dir : path) : io (ArmResult + string) :=
  let artifacts := shown (attempt_dir ++ ["artifacts"]) in
  let logs := shown (attempt_dir ++ ["log"]) in
  b ← lift (effective_budget s t);
  seconds ← lift (seconds_of b);
  if String.eqb (kind a) "document" then
    spec ← document_spec s a t workspace attempt_dir artifacts logs b seconds;
    ran ← foe_run (arm_name a) spec; mret (inl ran)
  else if String.eqb (kind a) "builtin" then
    route ← lift (foe_route s);
    ran ← run_builtin a (s_foe s) t (shown workspace) logs artifacts route seconds; mret (inl ran)
  else run_codex s a t workspace artifacts b.
End arms.
