(* ===== verification/RunAttempt.v ===== *)
(** * One attempt

    src/evals/cross_harness/run.py, [run_attempt]: the task is materialised, the
    arm runs, its records are reduced, the grader is materialised and runs, and
    the attempt is classified.  The file system is the one of [TaskRoot]; the
    processes, git, the clock and the modification times are arguments. *)

From Stdlib Require Import Ascii.
From stdpp Require Import base gmap sets list strings pretty sorting.
From Stdlib Require Import ZArith Lia.
From S2P Require Import Prelude PyValue PyText PyJson PyUnicode JsonText PyPath BudgetWatcher Trajectory NormalizeFoe NormalizeCodex Conditions.
From S2P Require Import Graphs RunText FoeArm CodexArm RunPlan RunDocs TaskProtocol RunOutcome TaskRoot RunLaunch CodexRun ArmRun.

Definition RUN_SCHEMA_VERSION : Z := 1.
Definition CHECK_DIRECTORIES : list string := ["target"; CHECK_SCRATCH_DIR].
Definition SNAPSHOT_IGNORED_DIRECTORIES : list string := ["__pycache__"].
Definition ROOT_DIR : string := "root".

(** How the process of a grader ended. *)
Inductive grader_end : Type := Refused (error : string) | Overran | Ended (code : Z) (stdout stderr : string).
(** What an attempt runs on: the host of its arm, the letters and digits of
    Unicode, the reading of timestamps, the names of exception classes, git and
    the working directory, resolved paths, the modification time of a file in
    milliseconds, the trace check, the grader's process under its timeout, and
    the times the attempt begins and ends. *)
Record Machine : Type := {
  host : Host;
  letter : string → bool;
  iso_time : string → option Z;
  class_name_of : exn → string;
  has_commit : string → string → res bool;
  git_archive : string → string → res tree;
  git_apply : string → tree → res tree;
  working_directory : path;
  real_path : tree → string → string;
  modified_ms : tree → path → Z;
  trace_check : tree → path → res value;
  grader_process : Z → dict → tree → grader_end * tree;
  began_ms : Z;
  finished_ms : Z;
}.

(** ** The files of an attempt *)

Definition read_at (t : tree) (s : string) : res string :=
  match t !! path_parts s with
  | Some (File c) => Ok c
  | Some Folder => Err (is_a_folder (path_parts s))
  | None => Err (no_such (path_parts s))
  end.
(** [sorted(directory.rglob(LOG_NAME))], with what each log holds. *)
Definition logs_under (t : tree) (directory : path) : list path :=
  List.filter (λ p, String.eqb (default "" (last p)) NormalizeFoe.LOG_NAME) (files_under t directory).
Definition logs_at (t : tree) (directory : string) : list (string * res string) :=
  map (λ p, (shown p, read_at t (shown p))) (logs_under t (path_parts directory)).
(** The same, named from the directory that holds the episode's. *)
Definition logs_relative (t : tree) (directory : string) : list (string * res string) :=
  let above := parent_of (path_parts directory) in
  map (λ p, (as_posix (default [] (strip_prefix above (parent_of p))), read_at t (shown p))) (logs_under t (path_parts directory)).
(** The episodes below an episode's directory.  No directory is deeper than the
    longest path, and a level is the directory of the children and one of them. *)
Definition depth_of (t : tree) : nat := foldr max 0 (map (λ kv : path * entry, length kv.1) (map_to_list t)).
Fixpoint episode_directory (levels : nat) (t : tree) (p : path) : NormalizeFoe.directory :=
  NormalizeFoe.Directory (shown p)
    (if is_file t (p ++ [NormalizeFoe.LOG_NAME]) then Some (read_at t (shown (p ++ [NormalizeFoe.LOG_NAME]))) else None) None
    (match levels with 0 => [] | S levels => map (episode_directory levels t) (child_folders t (p ++ [NormalizeFoe.CHILDREN_DIR])) end).

(** [make_check_directories] and [snapshot]. *)
Definition make_check_directories (workspace : path) : io () :=
  foldM (λ _ name, ensure_folders (workspace ++ [name])) () CHECK_DIRECTORIES.
(** No directory on the way holds the tag of a cache or has an ignored name. *)
Fixpoint walked (t : tree) (directory rest : path) : bool :=
  negb (is_file t (directory ++ [CACHE_TAG_FILE]))
  && match rest with
     | [] | [_] => true
     | x :: below => negb (elem_str x SNAPSHOT_IGNORED_DIRECTORIES) && walked t (directory ++ [x]) below
     end.
Definition snapshot (modified : tree → path → Z) (workspace : path) (t : tree) : list (string * Z) :=
  map (λ p, (shown p, modified t p))
    (List.filter (λ p, walked t workspace (default [] (strip_prefix workspace p))) (files_under t workspace)).

(** What [condition_reached] returns, as an object. *)
Definition Condition_to_dict (c : Condition) : dict :=
  [("condition", VStr (condition c)); ("reached", match reached c with Some b => VBool b | None => VNone end); ("evidence", strs (shown_by c))].
Definition Verdict_to_dict (v : Verdict) : dict :=
  match wait_status v, parts v with
  | Some status, [own; wait] =>
      dset (dset (Condition_to_dict (joint v)) "status" (VStr status)) "parts"
        (VList [VDict (Condition_to_dict own); VDict (dset (Condition_to_dict wait) "status" (VStr status))])
  | _, _ => Condition_to_dict (joint v)
  end.

(** ** The steps of an attempt *)

Section attempt.
Context (m : Machine) (s : Settings).

(** The record before anything runs, with the arm that is not applicable. *)
Definition initial_record (provenance : dict) (entry : Selected) (a : Arm) (attempt : nat) (directory_ : path) (t : tree) : res dict :=
  described ← Task_to_dict (task entry);
  b ← effective_budget s (task entry);
  roots ← recorded_tool_roots (exists_in t) s a (task entry);
  reason ← not_applicable s a (task entry);
  Ok [("schema_version", VInt RUN_SCHEMA_VERSION); ("task", VDict described); ("task_dir", VStr (directory entry)); ("arm", VStr (arm_name a));
      ("harness", VStr (harness a)); ("attempt", VInt (Z.of_nat attempt)); ("provenance", VDict provenance); ("budget", VDict b);
      ("budget_overrides", VDict (s_budget_overrides s)); ("tool_roots", strs roots); ("not_applicable", option_str reason);
      ("paths", VDict [("attempt_dir", VStr (shown directory_)); ("root", VStr (shown (directory_ ++ [ROOT_DIR])));
                       ("workspace", VStr (shown (directory_ ++ [ROOT_DIR; WORKSPACE])))]);
      ("started_ms", VInt (began_ms m)); ("ended_ms", VNone); ("arm_result", VNone); ("reported", VNone); ("candidate", VNone);
      ("trajectory", VNone); ("outcomes", VNone); ("totals", VNone); ("shell_writes_attributed", VInt 0); ("grader_paths_named", VList []);
      ("conformance", VNone); ("grade", VNone); ("classification", VNone); ("scoring_version", VInt SCORING_VERSION); ("condition", VNone);
      ("foe_canary_present", VNone); ("infrastructure_error", VNone)].
Definition ended (record : dict) : dict := dset record "ended_ms" (VInt (finished_ms m)).
Definition faulted (record : dict) (fault : string) : dict := dset record "infrastructure_error" (VStr fault).
Definition materialized (entry : Selected) (root : path) (parts : string) : io Task :=
  materialize (letter m) (has_commit m) (git_archive m) (git_apply m) (working_directory m) (path_parts (directory entry)) root parts.
(** The [OSError] or [ValueError] of a step, behind what it kept from happening. *)
Definition stopped_by (prefix : string) (e : exn) : option string :=
  match e with OSError _ | ValueError _ => Some (prefix +:+ exn_str e) | _ => None end.
Definition prepared (entry : Selected) (directory_ : path) : io (option string) :=
  catching (make_folders directory_;; materialized entry (directory_ ++ [ROOT_DIR]) WORKSPACE;; mret None)
    (λ e, Some <$> stopped_by "the task did not materialize: " e).
Definition canary_step (a : Arm) (canary : option (path * string)) (record : dict) : io dict :=
  if String.eqb (harness a) "foe" then
    present ← match canary with Some (p, sentence) => foe_canary_present p sentence | None => mret false end;
    mret (dset record "foe_canary_present" (VBool present))
  else mret record.
Definition arm_step (a : Arm) (t : Task) (directory_ : path) : io (ArmResult + string) :=
  catching (run_arm (host m) s a t (directory_ ++ [ROOT_DIR; WORKSPACE]) directory_)
    (λ e, inr <$> stopped_by "the arm could not launch: " e).

(** What a result's paths hold. *)
Definition readings_of (t : tree) (r : ArmResult) : res readings :=
  let at_key key := v ← dict_index (result_record r) key; Ok (py_str v) in
  if String.eqb (result_harness r) FOE_HARNESS then
    episode ← at_key "episode_dir"; stderr ← at_key "stderr";
    let p := path_parts episode in
    Ok (FoeFiles (episode_directory (depth_of t) t p) (read_at t stderr) (trace_check m t p))
  else
    last_ ← at_key "last_message"; home ← at_key "codex_home"; events ← at_key "events";
    let sessions := path_parts home ++ ["sessions"] in
    Ok (CodexFiles (if is_folder t sessions then Some (map (λ p, (shown p, read_at t (shown p))) (session_files t (path_parts home))) else None)
          (read_at t events) (if is_file t (path_parts last_) then NormalizeCodex.Message last_ (read_at t last_) else NoMessage)).
Definition reduced (t : tree) (r : ArmResult) : res (option Trajectory.Trajectory * value * option string) :=
  match readings_of t r with
  | Err e => if reducible e then Ok (None, VNone, Some (irreducible (class_name_of m) r e)) else Err e
  | Ok files => normalize_result (letter m) (iso_time m) (class_name_of m) (s_route s) r files
  end.
(** What stopped a document arm: the fault of its records, or a check suite that
    could not run. *)
Definition suite_step (t : tree) (a : Arm) (r : ArmResult) (fault : option string) : res (option string) :=
  if is_none (option_str fault) && String.eqb (kind a) "document" then
    dir ← dict_index (result_record r) "episode_dir"; check_suite_fault (logs_at t (py_str dir))
  else Ok fault.
(** [fault or ...]. *)
Definition or_else (fault : option string) (next : res (option string)) : res (option string) :=
  if truthy (option_str fault) then Ok fault else next.
(** What is read once the arm has exited. *)
Definition measured (t : tree) (record : dict) (task_ : Task) (a : Arm) (root : path) (before : list (string * Z)) (r : ArmResult) : res dict :=
  let after := snapshot (modified_ms m) (root ++ [WORKSPACE]) t in
  normalized ← reduced t r;
  let '(trajectory, conformance, fault) := normalized in
  fault ← suite_step t a r fault;
  outcomes ← outcomes_side_by_side (result_reported r) trajectory;
  let attributed := (λ tr, attribute_shell_writes tr before after) <$> trajectory in
  let held := Trajectory_to_dict ∘ fst <$> attributed in
  paths ← grader_paths_named (real_path m t) held (shown root);
  fault ← or_else fault (provider_outage (letter m) (read_at t) r);
  let record := dset record "arm_result" (VDict (ArmResult_to_dict r)) in
  let record := dset record "reported" (VDict (result_reported r)) in
  let record := dset record "candidate" (FoeArm.candidate r) in
  let record := dset record "trajectory" (match held with Some d => VDict d | None => VNone end) in
  let record := dset record "outcomes" (VDict outcomes) in
  let record := dset record "totals" (match attributed with Some (tr, _) => VDict (totals tr) | None => VNone end) in
  let record := dset record "shell_writes_attributed" (VInt (match attributed with Some (_, n) => Z.of_nat n | None => 0%Z end)) in
  let record := dset record "grader_paths_named" (strs paths) in
  let record := dset record "conformance" conformance in
  let record := dset record "infrastructure_error" (option_str fault) in
  described ← Task_to_dict task_;
  verdict ← condition_reached (read_at t) (file_in t) (logs_relative t) record described None;
  Ok (dset record "condition" (VDict (Verdict_to_dict verdict))).

(** ** Grading *)

(** [grade_with_timeout]. *)
Definition timed_script (root : path) (payload : dict) (t : tree) : script_result * tree :=
  let '(e, t) := grader_process m (s_grader_timeout s) payload t in
  (match e with
   | Refused error => Unstarted error
   | Overran => Unstarted ("it ran past " +:+ Z_str (s_grader_timeout s) +:+ "s and its process group was killed")
   | Ended code out err => Exited code out err
   end, t).
Definition grade_with_timeout (root : path) (reported : Reported) (candidate : value) (a : Arm) : io GradeResult :=
  grade (letter m) (timed_script root) root reported candidate (arm_name a).
Definition GradeResult_to_dict (g : GradeResult) : dict :=
  [("passed", VBool (passed g)); ("findings", strs (findings g)); ("damage", strs (damage_found g))].
Definition fault_of (record : dict) : option string := as_str (dget record "infrastructure_error").
Definition reported_of (record : dict) : res Reported :=
  if truthy (dget record "reported") then protocol_reported (dict_or_empty (dget record "reported"))
  else make_reported {| status := FAILED; code := VNone; evidence := default "" (fault_of record) |}.
Definition graded_step (entry : Selected) (a : Arm) (root : path) (record : dict) : io dict :=
  fault ← catching (materialized entry root GRADER;; mret None)
            (λ e, Some <$> stopped_by "the task's grader did not materialize after the arm ran: " e);
  match fault with
  | Some message => mret (ended (if truthy (option_str (fault_of record)) then record else faulted record message))
  | None =>
      reported ← lift (reported_of record);
      graded ← grade_with_timeout root reported (dget record "candidate") a;
      let record := dset record "grade" (VDict (GradeResult_to_dict graded)) in
      cell ← lift (if is_none (dget record "infrastructure_error") then c ← classify (task entry) reported graded SCORING_VERSION; Ok (VStr c)
                   else Ok (dget record "classification"));
      mret (ended (dset record "classification" cell))
  end.
Definition arm_ran (entry : Selected) (a : Arm) (directory_ : path) (before : list (string * Z)) (record : dict) (ran : ArmResult + string) : io dict :=
  match ran with
  | inl r => t ← look id; lift (measured t record (task entry) a (directory_ ++ [ROOT_DIR]) before r)
  | inr fault => mret (faulted record fault)
  end.

(** [run_attempt]. *)
Definition run_attempt (provenance : dict) (entry : Selected) (a : Arm) (attempt : nat) (canary : option (path * string)) : io dict :=
  let directory_ := attempt_path (path_parts (s_out s)) (task_name (task entry)) (arm_name a) attempt in
  let root := directory_ ++ [ROOT_DIR] in
  t ← look id;
  record ← lift (initial_record provenance entry a attempt directory_ t);
  if negb (is_none (dget record "not_applicable")) then mret (ended record) else
  fault ← prepared entry directory_;
  match fault with
  | Some message => mret (ended (faulted record message))
  | None =>
      make_check_directories (root ++ [WORKSPACE]);;
      record ← canary_step a canary record;
      before ← look (snapshot (modified_ms m) (root ++ [WORKSPACE]));
      ran ← arm_step a (task entry) directory_;
      record ← arm_ran entry a directory_ before record ran;
      graded_step entry a root record
  end.
End attempt.

(** ** Every attempt is accounted for *)

(** The value of a key of an object with keys set. *)
Ltac field := repeat first [rewrite dget_dset_eq | rewrite dget_dset_ne by discriminate].

Lemma classify_cell t r g v c : classify t r g v = Ok c → c ∈ SEVERITY.
Proof.
  unfold classify, raise_if. intros H. apply elem_str_spec. revert H.
  repeat match goal with |- context [if ?b then _ else _] => destruct b; cbn [mbind res_bind]; try discriminate end; by intros [= <-].
Qed.
Lemma attribution_answers t before after : answered_calls (attribute_shell_writes t before after).1 = answered_calls t.
Proof. unfold answered_calls, attribute_shell_writes. cbn [fst Trajectory.agents]. by rewrite map_map. Qed.
Lemma catching_ok {A} (m : io A) f w a w' : catching m f w = (Ok a, w') → m w = (Ok a, w') ∨ ∃ e, m w = (Err e, w') ∧ f e = Some a.
Proof.
  unfold catching. destruct (m w) as [[b|e] w1]; [by left|]. destruct (f e) as [b|] eqn:E; [|done]. intros [= -> ->]. right. by exists e.
Qed.

Section accounted.
Context (m : Machine) (s : Settings).
(** What a record without a fault says of the run: some model call was answered. *)
Definition answered (record : dict) : Prop :=
  ∃ t, dget record "trajectory" = VDict (Trajectory_to_dict t) ∧ answered_calls t ≠ 0.
Definition unfaulted (record : dict) : Prop := dget record "infrastructure_error" = VNone → answered record.
Definition undecided (record : dict) : Prop :=
  dget record "not_applicable" = VNone ∧ dget record "classification" = VNone ∧
  (dget record "infrastructure_error" = VNone ∨ ∃ f, dget record "infrastructure_error" = VStr f).
Lemma reduced_answered t r tr conformance : reduced m s t r = Ok (tr, conformance, None) → ∃ x, tr = Some x ∧ answered_calls x ≠ 0.
Proof.
  unfold reduced, normalize_result. destruct (readings_of m t r) as [files|e]; [|by destruct (reducible e)].
  destruct (reduce _ _ _ _ _) as [[[x report]|fault]|e]; [|done|by destruct (reducible e)].
  destruct (Nat.eqb_spec (answered_calls x) 0); [by intros (? & _ & ?)%res_bind_ok|]. intros [= <- _]. by exists x.
Qed.
Lemma text_stated a b c : a +:+ String b c ≠ "".
Proof. by destruct a. Qed.
Lemma reduced_stated t r tr conformance : reduced m s t r ≠ Ok (tr, conformance, Some "").
Proof.
  unfold reduced, normalize_result. destruct (readings_of m t r) as [files|e]; [|by destruct (reducible e)].
  destruct (reduce _ _ _ _ _) as [[[x report]|fault]|e] eqn:E; [| |by destruct (reducible e)].
  - destruct (answered_calls x =? 0); [|done]. by intros (? & _ & ?)%res_bind_ok.
  - intros [= _ _ ->]. unfold reduce in E. destruct files as [d err conf|ss ev lm].
    + apply res_bind_ok in E as (v & _ & E). destruct (negb (truthy v)).
      * by apply res_bind_ok in E as (text & _ & E).
      * apply res_bind_ok in E as (x & _ & E). by apply res_bind_ok in E as (y & _ & E).
    + apply res_bind_ok in E as (v & _ & E). apply res_bind_ok in E as (x & _ & E). by apply res_bind_ok in E as (y & _ & E).
Qed.
Lemma suite_stated t a r fault : fault ≠ Some "" → suite_step t a r fault ≠ Ok (Some "").
Proof.
  intros Hf. unfold suite_step. destruct (_ && _); [|by intros [= ->]]. intros (v & _ & H)%res_bind_ok. revert H. generalize (logs_at t (py_str v)).
  induction l as [|log l IH]; [done|]. cbn [check_suite_fault]. intros (f & Hl & H)%res_bind_ok. destruct f as [f|]; [|by apply IH].
  injection H as ->. unfold log_fault in Hl. destruct (NormalizeFoe.read_events _ _) as [events|e]; [|by destruct e].
  injection Hl as Hl. apply head_Some_elem_of, list_elem_of_omap in Hl as (e & _ & He). unfold unavailable_line in He.
  destruct (_ || _); [done|]. destruct (dget _ "stdout"); try done. destruct (find _ _) as [line|]; [|done]. injection He as He. by apply text_stated in He.
Qed.
Lemma or_else_none fault next : fault ≠ Some "" → or_else fault next = Ok None → fault = None.
Proof. unfold or_else. destruct fault as [[|c f]|]; done. Qed.
Lemma measured_says t record a entry root before r record' : measured m s t record (task entry) a root before r = Ok record' →
  (∀ k, elem_str k ["not_applicable"; "classification"] = true → dget record' k = dget record k) ∧ unfaulted record' ∧
  (dget record' "infrastructure_error" = VNone ∨ ∃ f, dget record' "infrastructure_error" = VStr f).
Proof.
  unfold measured. intros (((tr & conf) & fault) & Hn & H)%res_bind_ok. apply res_bind_ok in H as (fault1 & Hs & H).
  apply res_bind_ok in H as (outcomes & _ & H). apply res_bind_ok in H as (paths & _ & H). apply res_bind_ok in H as (fault2 & Ho & H).
  apply res_bind_ok in H as (described & _ & H). apply res_bind_ok in H as (verdict & _ & [= <-]). split_and!.
  - intros k Hk%elem_str_spec. apply elem_of_cons in Hk as [->|Hk%list_elem_of_singleton]; [|subst k]; by field.
  - unfold unfaulted, answered. field. intros Hf. assert (fault2 = None) as -> by by destruct fault2.
    assert (Hne : fault ≠ Some "") by (intros ->; by apply reduced_stated in Hn).
    assert (Hne1 : fault1 ≠ Some "") by (intros ->; by apply suite_stated in Hs).
    apply or_else_none in Ho as ->; [|done]. assert (fault = None) as ->.
    { unfold suite_step in Hs. destruct fault; [|done]. by cbn in Hs. }
    apply reduced_answered in Hn as (x & -> & Hx). exists (attribute_shell_writes x before (snapshot (modified_ms m) (root ++ [WORKSPACE]) t)).1.
    split; [done|]. by rewrite attribution_answers.
  - field. destruct fault2; [by right; eexists|by left].
Qed.

Lemma initial_says provenance entry a n directory_ t record : initial_record m s provenance entry a n directory_ t = Ok record →
  ∃ reason, not_applicable s a (task entry) = Ok reason ∧ dget record "not_applicable" = option_str reason ∧
    dget record "classification" = VNone ∧ dget record "infrastructure_error" = VNone.
Proof.
  intros (d & _ & (b & _ & (roots & _ & (reason & Hr & [= <-])%res_bind_ok)%res_bind_ok)%res_bind_ok)%res_bind_ok. by exists reason.
Qed.

(** The three ends of an attempt. *)
Inductive accounted (entry : Selected) (a : Arm) (record : dict) : Prop :=
| Inapplicable reason : not_applicable s a (task entry) = Ok (Some reason) → dget record "not_applicable" = VStr reason →
    dget record "infrastructure_error" = VNone → dget record "classification" = VNone → accounted entry a record
| Faulted fault : dget record "not_applicable" = VNone → dget record "infrastructure_error" = VStr fault →
    dget record "classification" = VNone → accounted entry a record
| Classified cell reported graded : dget record "not_applicable" = VNone → dget record "infrastructure_error" = VNone →
    dget record "classification" = VStr cell → answered record → reported_of record = Ok reported →
    dget record "grade" = VDict (GradeResult_to_dict graded) → classify (task entry) reported graded SCORING_VERSION = Ok cell → cell ∈ SEVERITY →
    accounted entry a record.
Lemma truthy_stated fault : truthy (option_str fault) = true → ∃ f, option_str fault = VStr f.
Proof. destruct fault; [by eexists|done]. Qed.
Lemma graded_accounted entry a root record w r w' : undecided record → unfaulted record → graded_step m s entry a root record w = (Ok r, w') →
  dget r "ended_ms" = VInt (finished_ms m) ∧ accounted entry a r.
Proof.
  intros (Hn & Hc & Hi) Ha (fault & w1 & _ & H)%io_bind_ok. destruct fault as [message|].
  - apply mret_ok in H as [-> _]. unfold ended. split; [by field|].
    destruct (truthy (option_str (fault_of record))) eqn:E.
    + assert (Hf : ∃ f, dget record "infrastructure_error" = VStr f).
      { destruct Hi as [Hi|Hi]; [|done]. unfold fault_of in E. by rewrite Hi in E. }
      destruct Hf as [f Hf]. apply Faulted with f; by field.
    + apply Faulted with message; unfold faulted; by field.
  - apply io_bind_ok in H as (reported & w2 & [Hr ->]%lift_ok & H). apply io_bind_ok in H as (graded & w3 & _ & H).
    apply io_bind_ok in H as (cell & w4 & [Hcell ->]%lift_ok & [-> _]%mret_ok). unfold ended. split; [by field|].
    rewrite dget_dset_ne in Hcell by discriminate. destruct Hi as [Hi|[f Hi]]; rewrite Hi in Hcell; cbn [is_none] in Hcell.
    + apply res_bind_ok in Hcell as (c & Hcl & [= <-]). apply Classified with c reported graded; try by field.
      * unfold answered. field. by apply Ha.
      * unfold reported_of, fault_of in *. field. done.
      * by apply classify_cell in Hcl.
    + injection Hcell as <-. apply Faulted with f; by field.
Qed.

(** Claim C11. Every attempt that returns a record has ended in exactly one of three
    ways: its arm does not run the task; something other than the harness failed,
    and nothing is classified; or a model answered, and the attempt is classified
    from the report and the grade its record holds. *)
Theorem attempt_accounted provenance entry a n canary w record w' : run_attempt m s provenance entry a n canary w = (Ok record, w') →
  dget record "ended_ms" = VInt (finished_ms m) ∧ accounted entry a record.
Proof.
  unfold run_attempt. intros (t & w0 & [-> ->]%look_ok & H)%io_bind_ok.
  apply io_bind_ok in H as (first & w1 & [Hf ->]%lift_ok & H). apply initial_says in Hf as (reason & Hr & Hn & Hc & Hi).
  destruct reason as [reason|].
  { rewrite Hn in H. apply mret_ok in H as [-> _]. unfold ended. split; [by field|]. apply Inapplicable with reason; [done|by field..]. }
  rewrite Hn in H. cbn [option_str is_none negb] in Hn, H. apply io_bind_ok in H as (fault & w2 & _ & H). destruct fault as [message|].
  { apply mret_ok in H as [-> _]. unfold ended, faulted. split; [by field|]. apply Faulted with message; by field. }
  apply io_bind_ok in H as (? & w3 & _ & H). apply io_bind_ok in H as (record1 & w4 & H1 & H).
  assert (H1' : dget record1 "not_applicable" = VNone ∧ dget record1 "classification" = VNone ∧ dget record1 "infrastructure_error" = VNone).
  { unfold canary_step in H1. destruct (String.eqb _ _); [|by apply mret_ok in H1 as [-> _]].
    apply io_bind_ok in H1 as (present & w5 & _ & [-> _]%mret_ok). split_and!; by field. }
  destruct H1' as (Hn1 & Hc1 & Hi1). apply io_bind_ok in H as (before & w5 & _ & H). apply io_bind_ok in H as (ran & w6 & _ & H).
  apply io_bind_ok in H as (record2 & w7 & H2 & H). eapply graded_accounted; [| |exact H].
  all: unfold arm_ran in H2; destruct ran as [r|fault].
  - apply io_bind_ok in H2 as (t & ? & _ & [H2 _]%lift_ok). apply measured_says in H2 as (Hk & _ & Hi2).
    split_and!; [rewrite Hk by done; done|rewrite Hk by done; done|done].
  - apply mret_ok in H2 as [-> _]. unfold undecided, faulted. field. split_and!; [done..|]. right. by eexists.
  - apply io_bind_ok in H2 as (t & ? & _ & [H2 _]%lift_ok). by apply measured_says in H2 as (_ & Hu & _).
  - apply mret_ok in H2 as [-> _]. unfold unfaulted, faulted. by field.
Qed.
End accounted.

(** ** An example *)

(** An arm that runs a built-in document stops, as the task accepts, with a log
    of one answered model call. *)
Definition demo_arm_ran : Arm := {| arm_name := "foe-as-shipped"; harness := "foe"; kind := "builtin"; variant := "builtin:coding" |}.
Definition demo_entry : Selected := {| directory := "/t"; task := TaskProtocol.example_task |}.
Definition demo_settings : Settings :=
  {| s_foe := "/foe"; s_codex := None; s_family := "autonomy"; s_attempts := 1; s_route := "subscription"; s_base_url := None;
     s_model := "m"; s_effort := "medium"; s_out := "/out"; s_credential := None; s_codex_wire_api := "chat"; s_grader_timeout := 60;
     s_source_root := "/foe"; s_tool_roots := []; s_budget_overrides := []; s_canaries := [] |}.
Definition demo_log : string :=
  log_line 0 10 "episode/start" [("id", VStr "r")] +:+
  log_line 1 11 "model/request" [("request_id", VStr "q1")] +:+
  log_line 2 14 "assistant/message" [("request_id", VStr "q1"); ("usage", VDict [("input", VInt 7)])] +:+
  log_line 3 20 "episode/end" [("outcome", VDict [("kind", VStr "blocked"); ("code", VStr "cannot"); ("message", VStr "no")])].
Definition demo_stdout : string := dumps_compact (VDict [("kind", VStr "blocked"); ("code", VStr "cannot"); ("message", VStr "no")]) +:+ nl.
Definition demo_host : Host :=
  {| home_dir := "/home"; environ := []; executable_at := is_file; fresh_name := λ _, "tmp"; clock := λ e, if e then 2%Z else 1%Z;
     foe_process := λ _ cwd _ t, (Ok (Some 0%Z, false, demo_stdout, ""), <[parent_of (parent_of cwd) ++ ["log"; "episode.jsonl"] := File demo_log]> t);
     codex_process := λ _ _ _ _ _ t, (Err (RuntimeError ""), t) |}.
(** A grader that passes only a root whose grader directory it sees. *)
Definition demo_grader (timeout : Z) (payload : dict) (t : tree) : grader_end * tree :=
  (Ended (if is_file t [GRADER; GRADE_SCRIPT] then 0%Z else 1%Z) "" "", t).
Definition demo_machine (h : Host) : Machine :=
  {| host := h; letter := ascii_word; iso_time := λ _, None; class_name_of := λ _, "ValueError"; has_commit := λ _ _, Ok true;
     git_archive := λ _ _, Ok ∅; git_apply := λ _ t, Ok t; working_directory := []; real_path := λ _ p, plain_realpath p;
     modified_ms := λ _ _, 5%Z; trace_check := λ _ _, Ok (VDict [("valid", VBool true)]); grader_process := demo_grader;
     began_ms := 1; finished_ms := 3 |}.
Definition demo_start : world :=
  {| files := <[["out"] := Folder]> (<[["foe"] := File "elf"]> (files demo_world)); faults := []; leftovers := [] |}.
Definition demo_ran : res dict * world := run_attempt (demo_machine demo_host) demo_settings [] demo_entry demo_arm_ran 1 None demo_start.
Definition record_of_result (r : res dict) : dict := match r with Ok d => d | Err _ => [] end.
Definition demo_record : dict := record_of_result demo_ran.1.
Lemma demo_ran_ok : demo_ran = (Ok demo_record, demo_ran.2).
Proof. refine (ran_ok demo_ran demo_record _). vm_compute. reflexivity. Qed.
Lemma demo_classified : dget demo_record "classification" = VStr CORRECT_STOP.
Proof. vm_compute. reflexivity. Qed.
Lemma attempt_accounted_witness : accounted demo_settings demo_entry demo_arm_ran demo_record ∧ dget demo_record "classification" = VStr CORRECT_STOP.
Proof.
  split; [|exact demo_classified].
  exact (proj2 (attempt_accounted (demo_machine demo_host) demo_settings [] demo_entry demo_arm_ran 1 None demo_start demo_record demo_ran.2 demo_ran_ok)).
Defined.
