(* ===== verification/AttemptEffects.v ===== *)
(** * What an attempt touches, and what its arm can see

    src/evals/cross_harness/run.py, [run_attempt]: that the process of an arm
    never runs where the grader stands, and that an attempt changes its own
    directory and nothing else that is kept. *)

From Stdlib Require Import Ascii.
From stdpp Require Import base gmap sets list strings pretty sorting.
From Stdlib Require Import ZArith Lia.
From S2P Require Import Prelude PyValue PyText PyJson PyUnicode JsonText PyPath BudgetWatcher Trajectory NormalizeFoe NormalizeCodex Conditions.
From S2P Require Import Graphs RunText FoeArm CodexArm RunPlan RunDocs TaskProtocol RunOutcome TaskRoot RunLaunch CodexRun ArmRun RunAttempt.

(** ** Two runs that agree *)

(** From every world in [I], [m] and [m'] do the same; and where [m] succeeds it
    leads to [J]. *)
Definition tied {A} (I : world → Prop) (m m' : io A) : Prop := ∀ w, I w → m w = m' w.
Definition leads {A} (I : world → Prop) (J : A → world → Prop) (m : io A) : Prop := ∀ w a w', I w → m w = (Ok a, w') → J a w'.
Lemma tied_same {A} I (m : io A) : tied I m m.
Proof. done. Qed.
Lemma tied_bind {A B} I J (m m' : io A) (f f' : A → io B) :
  tied I m m' → leads I J m → (∀ a, tied (J a) (f a) (f' a)) → tied I (m ≫= f) (m' ≫= f').
Proof.
  intros Hm Hl Hf w Hw. unfold mbind, io_bind. rewrite <-(Hm w Hw). destruct (m w) as [[a|e] w1] eqn:E; [|done]. apply Hf. by eapply Hl.
Qed.
(** The same follows. *)
Lemma tied_first {A B} I (m m' : io A) (f : A → io B) : tied I m m' → tied I (m ≫= f) (m' ≫= f).
Proof. intros Hm w Hw. unfold mbind, io_bind. by rewrite (Hm w Hw). Qed.
Lemma tied_catching {A} I (m m' : io A) f : tied I m m' → tied I (catching m f) (catching m' f).
Proof. intros Hm w Hw. unfold catching. by rewrite (Hm w Hw). Qed.
Lemma tied_settling {A B} I (m m' : io A) (c : io B) : tied I m m' → tied I (settling m c) (settling m' c).
Proof. intros Hm w Hw. unfold settling. by rewrite (Hm w Hw). Qed.
Lemma touches_catching {A} P (m : io A) f : touches P m → touches P (catching m f).
Proof. intros Hm w r w' H. apply (Hm w (m w).1). unfold catching in H. destruct (m w) as [[a|e] w1]; [by injection H as _ <-|]. by destruct (f e); injection H as _ <-. Qed.
Lemma touches_settling {A B} P (m : io A) (c : io B) : touches P m → touches P c → touches P (settling m c).
Proof.
  intros Hm Hc w r w' (r1 & w1 & r2 & H1 & H2)%settling_cases q Hq. by rewrite (Hc _ _ _ H2 q Hq), (Hm _ _ _ H1 q Hq).
Qed.
#[export] Hint Resolve touches_catching touches_settling : keeping.

(** ** What an arm is given *)

Lemma codex_spec_ok s a t workspace artifacts b spec : codex_spec s a t workspace artifacts b = Ok spec →
  c_artifacts spec = artifacts ∧ c_workspace spec = workspace ∧ s_credential s = Some (credential_source spec).
Proof.
  unfold codex_spec. destruct (s_codex s); [|done]. destruct (s_credential s); [|done]. intros (l & _ & H)%res_bind_ok.
  apply res_bind_ok in H as (p & _ & H). unfold make_codex_spec in H. repeat (apply res_bind_ok in H as (? & _ & H)). by injection H as <-.
Qed.
Lemma made_spec spec spec' : make_spec spec = Ok spec' → spec' = spec.
Proof. unfold make_spec. intros (? & _ & H)%res_bind_ok. apply res_bind_ok in H as (? & _ & H). by injection H. Qed.
Lemma document_spec_ok h s a t workspace attempt_dir dir logs b seconds w spec w' :
  document_spec h s a t workspace attempt_dir dir logs b seconds w = (Ok spec, w') →
  artifacts spec = dir ∧ log_dir spec = logs ∧ spec_workspace spec = shown workspace.
Proof.
  unfold document_spec. intros H. repeat (apply io_bind_ok in H as (? & ? & _ & H)). apply lift_ok in H as [H _]. by apply made_spec in H as ->.
Qed.

(** ** The parts of an attempt touch what they own *)

Section parts.
Context (P : path → Prop).
(** A place that is owned whole, with what is above it. *)
Definition holds (p : path) : Prop := owns P p ∧ ∀ q, above p q → P q.
Lemma holds_below p x : holds p → holds (p ++ x).
Proof.
  intros [Ho Ha]. split; [by apply owns_below|]. intros q (y & r & E). apply app_eq_app in E as (l & [[-> E]|[-> E]]).
  - destruct l as [|z l]; [rewrite app_nil_r in Ho; by apply owns_self|apply Ha; by exists z, l].
  - apply Ho.
Qed.
Lemma holds_at p q : holds p → q = p ∨ above p q → P q.
Proof. intros [Ho Ha] [->|H]; [by apply owns_self|by apply Ha]. Qed.
Lemma holds_parent p : p ≠ [] → holds p → P (parent_of p).
Proof. intros Hp [_ Ha]. apply Ha, above_parent; [done|by left]. Qed.
Lemma touches_ensure_in p : holds p → touches P (ensure_folders p).
Proof. intros H. eapply touches_weaken; [apply touches_ensure|]. intros q. by apply holds_at. Qed.
Lemma touches_make p : holds p → touches P (make_folders p).
Proof.
  intros H w [u|e] w' E q Hq.
  - apply make_folders_ok in E as [E _]. apply E. intros ?. by apply Hq, (holds_at p).
  - apply make_folders_err in E. apply E. intros ?. apply Hq, (holds_at p); [done|by right].
Qed.
Lemma touches_create p : P p → touches P (create_file p).
Proof. intros Hp. apply touches_call; intros; [done|]. repeat case_match; try done. by apply (insert_outside P). Qed.
Lemma touches_replace src dst : P src → P dst → touches P (replace_file src dst).
Proof.
  intros Hs Hd. apply touches_call; intros; [done|]. repeat case_match; try done. cbn [snd]. rewrite (insert_outside P) by done. apply lookup_delete_ne. by intros ->.
Qed.
(** What a process does to the files. *)
Lemma touches_process {A : Type} (f : tree → res A * tree) : (∀ t q, ¬ P q → (f t).2 !! q = t !! q) → touches P (call (λ _ t, t) f).
Proof. intros Hf. by apply touches_call. Qed.
Lemma keeps_bind_ok {A B} (m : io A) (f : A → io B) : touches P m → (∀ a w w', m w = (Ok a, w') → touches P (f a)) → touches P (m ≫= f).
Proof.
  intros Hm Hf w r w' H. unfold mbind, io_bind in H. destruct (m w) as [[a|e] w1] eqn:E.
  - intros q Hq. rewrite (Hf a w w1 E _ _ _ H q Hq). by apply (Hm _ _ _ E).
  - injection H as <- <-. by eapply Hm.
Qed.

(** *** The credential *)

Section credential.
Context (fresh : tree → string) (c : CredentialCopy) (home : path) (Hhome : copy c = home ++ [CREDENTIAL_NAME]).
Context (Hsource : P (source c)) (Hcopy : P (copy c)) (Htemporary : ∀ t, owns P (temporary_path fresh c t)).
Lemma touches_replace_source b : touches P (replace_source fresh c b).
Proof.
  unfold replace_source, staged. apply keeps_bind_ok; [apply keeps_look, _|]. intros p w w' [-> ->]%look_ok.
  pose proof (Htemporary (files w)) as Ht. pose proof (owns_self P _ Ht). pose proof (touches_create _ H). pose proof (touches_replace _ (source c) H Hsource).
  pose proof (keeps_fsync (frame P)). pose proof (keeps_chmod (frame P)). keep.
Qed.
Lemma touches_settle keep : touches P (settle_credential fresh c keep).
Proof.
  pose proof touches_replace_source. unfold settle_credential, write_back_state, removal_of. apply keeps_bind; [apply _|..].
  - apply touches_catching. unfold write_back. keep.
  - intros st. destruct keep; [TaskRoot.keep|]. apply keeps_bind; [apply _| |intros ?; apply keeps_ret, _]. apply touches_catching.
    apply keeps_bind; [apply _| |intros ?; apply keeps_ret, _].
    intros w r w' E. unfold remove_credential in E.
    destruct (unlink true _ w) as [r1 w1] eqn:Eu. assert (w' = w1) as -> by (destruct r1 as [|[]]; by injection E as _ <-).
    revert Eu. apply touches_unlink. by rewrite Hhome, parent_snoc, <-Hhome.
Qed.
End credential.

(** *** The other arm *)

Section codex.
Context (fresh : tree → string) (os_environ : list (string * string)) (executable : tree → path → bool) (started ended : Z).
Context (watched : list string → path → dict → path → list (string * string) → tree → res (option Z * option Stop * string * string) * tree).
Context (spec : CodexSpec) (Hartifacts : holds (path_parts (c_artifacts spec))).
Lemma holds_artifact name : holds (artifact spec name).
Proof. by apply holds_below. Qed.
Lemma touches_begin : touches P (begin_run executable spec).
Proof.
  pose proof (touches_ensure_in _ Hartifacts) as He. assert (Hh : holds (home_of spec)) by by apply holds_below.
  pose proof (touches_make _ Hh) as Hm. assert (Hb : ∀ n, owns P (home_of spec ++ [n])) by (intros n; by apply (holds_below _ [n] Hh)).
  pose proof (owns_self P _ (Hb CREDENTIAL_NAME)) as Hc. pose proof (touches_create _ Hc). pose proof (keeps_chmod (frame P)).
  unfold begin_run, prepare_home. keep.
Qed.
Lemma touches_report c ran : touches P (report_run started ended spec c ran).
Proof.
  destruct (report_touches started ended spec c ran) as [Ht _]. eapply touches_weaken; [exact Ht|]. intros q (n & r & -> & _). by apply holds_artifact.
Qed.
Context (Hwatched : ∀ c home l e t q, ¬ P q → (watched c home l (path_parts (c_workspace spec)) e t).2 !! q = t !! q).
Context (Hsource : P (credential_of spec)).
Context (Htemporary : ∀ c t, source c = credential_of spec → owns P (temporary_path fresh c t)).
Lemma touches_codex : touches P (codex_run fresh os_environ executable started ended watched spec).
Proof.
  apply keeps_bind_ok; [apply touches_begin|]. intros c w w' Hc. apply begin_run_ok in Hc as [Hs Hc].
  apply keeps_bind; [apply _| |intros ran; apply touches_report]. apply touches_settling.
  - assert (Ho : ∀ n, owns P (artifact spec n)) by (intros n; apply holds_artifact). pose proof (owns_self P _ (Ho LAST_NAME)).
    unfold run_watched. keep. apply touches_process. intros t q Hq. by apply Hwatched.
  - apply (touches_settle fresh c (home_of spec)); [done|by rewrite Hs| |by intros t; apply Htemporary].
    rewrite Hc. apply owns_self, (holds_below _ [CREDENTIAL_NAME]). by apply holds_below.
Qed.
End codex.

(** *** The foe arm *)

Section foe.
Context (h : Host) (ws : path) (Hfoe : ∀ c limit t q, ¬ P q → (foe_process h c ws limit t).2 !! q = t !! q).
Lemma touches_foe_begins binary workspace artifacts logs : holds (path_parts artifacts) → holds (path_parts logs) →
  touches P (foe_begins h binary workspace artifacts logs).
Proof. intros Ha%touches_ensure_in Hl%touches_ensure_in. unfold foe_begins. keep. Qed.
Lemma touches_streams artifacts out err : holds (path_parts artifacts) →
  touches P (write_file (path_parts artifacts ++ [STDOUT_NAME]) out;; write_file (path_parts artifacts ++ [STDERR_NAME]) err).
Proof. intros [Ha _]. keep; apply touches_write, owns_below, Ha. Qed.
Lemma touches_run_process command workspace artifacts limit : path_parts workspace = ws → holds (path_parts artifacts) →
  touches P (run_process h command workspace artifacts limit).
Proof.
  intros <- [Ha _]. assert (Ho : ∀ n, owns P (path_parts artifacts ++ [n])) by (intros n; by apply owns_below).
  unfold run_process. keep. apply touches_process. intros t q Hq. by apply Hfoe.
Qed.
Lemma touches_foe arm spec : path_parts (spec_workspace spec) = ws → holds (path_parts (artifacts spec)) → holds (path_parts (log_dir spec)) →
  touches P (foe_run h arm spec).
Proof.
  intros Hw Ha Hl. pose proof (touches_foe_begins (binary spec) (spec_workspace spec) _ _ Ha Hl).
  pose proof (λ c l, touches_run_process c _ _ l Hw Ha). assert (Ho : owns P (path_parts (artifacts spec) ++ [CONFIG_NAME])) by apply owns_below, Ha.
  unfold foe_run. keep.
Qed.
Lemma touches_builtin a binary t workspace logs artifacts route seconds : path_parts workspace = ws → holds (path_parts artifacts) → holds (path_parts logs) →
  touches P (run_builtin h a binary t workspace logs artifacts route seconds).
Proof.
  intros Hw Ha Hl. pose proof (touches_foe_begins binary workspace _ _ Ha Hl). pose proof (λ c l, touches_run_process c _ _ l Hw Ha).
  unfold run_builtin. keep.
Qed.

(** *** Any arm *)

Context (Hcodex : ∀ c home l e t q, ¬ P q → (codex_process h c home l ws e t).2 !! q = t !! q).
Context (s : Settings) (Hsource : ∀ c, s_credential s = Some c → P (path_parts c)).
Context (Htemporary : ∀ c x t, s_credential s = Some c → source x = path_parts c → owns P (temporary_path (fresh_name h) x t)).
Lemma touches_document_spec a t workspace attempt_dir artifacts logs b seconds : owns P (attempt_dir ++ [CHECK_SCRIPT]) →
  touches P (document_spec h s a t workspace attempt_dir artifacts logs b seconds).
Proof. intros Hc. pose proof (keeps_chmod (frame P)). unfold document_spec, write_check_script. keep. Qed.
Lemma touches_run_codex a t workspace artifacts b : path_parts (shown workspace) = ws → holds (path_parts artifacts) → touches P (run_codex h s a t workspace artifacts b).
Proof.
  intros Hw Ha. unfold run_codex. apply keeps_bind_ok; [keep|]. intros spec w w' [(Hs & Hws & Hc)%codex_spec_ok _]%lift_ok.
  apply touches_catching, keeps_bind; [apply _| |intros ?; apply keeps_ret, _].
  apply touches_codex; [by rewrite Hs|by rewrite Hws, Hw|by apply Hsource|]. intros c x Hx. by eapply Htemporary.
Qed.
Lemma touches_arm a t attempt_dir : ws = attempt_dir ++ [ROOT_DIR; WORKSPACE] → Forall good_part attempt_dir → holds attempt_dir →
  touches P (run_arm h s a t ws attempt_dir).
Proof.
  intros Hws Hg Hd. assert (Hw : path_parts (shown ws) = ws).
  { rewrite Hws. apply path_parts_absolute, Forall_app. split; [done|]. repeat constructor; by vm_compute. } assert (Hn : ∀ n, good_part n → holds (path_parts (shown (attempt_dir ++ [n])))).
  { intros n Hn. unfold shown. rewrite path_parts_absolute by (apply Forall_app; split; [done|by constructor]). by apply holds_below. }
  assert (good_part "artifacts" ∧ good_part "log") as [Ha%Hn Hl%Hn] by by vm_compute.
  assert (Hc : owns P (attempt_dir ++ [CHECK_SCRIPT])) by apply (holds_below _ _ Hd).
  pose proof (λ b, touches_run_codex a t ws _ b Hw Ha).
  pose proof (λ r c, touches_builtin a (s_foe s) t (shown ws) _ _ r c Hw Ha Hl).
  unfold run_arm. apply keeps_bind; [apply _|keep|intros b]. apply keeps_bind; [apply _|keep|intros seconds].
  destruct (String.eqb (kind a) "document"); [|keep]. apply keeps_bind_ok; [by apply touches_document_spec|]. intros spec w w' (Hs1 & Hs2 & Hs3)%document_spec_ok.
  apply keeps_bind; [apply _|apply touches_foe; congruence|intros ?; apply keeps_ret, _].
Qed.
End foe.

(** *** The task and its grade *)

Section task.
Context (word : string → bool) (has_commit : string → string → res bool) (git_archive : string → string → res tree)
        (git_apply : string → tree → res tree) (cwd : path).
Context (root : path) (Hroot : holds root) (Hstaged : owns P (staged_protected_record root)).
Lemma touches_materialize task_dir parts : touches P (materialize word has_commit git_archive git_apply cwd task_dir root parts).
Proof.
  pose proof (touches_make _ Hroot) as Hm. destruct Hroot as [Ho _]. assert (Hb : ∀ x, owns P (root ++ x)) by (intros x; by apply owns_below).
  pose proof (owns_self P _ Hstaged) as Hs. pose proof (λ task, touches_write_workspace word has_commit git_archive git_apply cwd P task task_dir root (Hb _) Hstaged).
  unfold materialize, materialize_grader, clear_root. keep.
Qed.
Lemma touches_grade script reported candidate arm : touches P (grade word script root reported candidate arm).
Proof.
  destruct Hroot as [Ho _]. assert (Hd : touches P (damage word root)) by (unfold damage, read_record; keep).
  assert (Hp : touches P (preserved_changed word root)) by (unfold preserved_changed, read_record; keep).
  unfold grade. keep. apply touches_process. intros t q Hq. destruct (script _ _) as [r t']. by apply (place_outside P).
Qed.
End task.
End parts.

(** ** An attempt stays within its own directory *)

Lemma canary_same P p sentence : touches P (foe_canary_present p sentence).
Proof.
  apply touches_read. intros w r w' H. unfold foe_canary_present in H. destruct (read_text_at p w) as [r1 w1] eqn:E. apply read_text_same in E.
  assert (w' = w1) as -> by (destruct r1 as [|[]]; by injection H as _ <-). done.
Qed.
Lemma attempt_path_good out t a n : Forall good_part out → Forall good_part (attempt_path out t a n).
Proof.
  intros Ho. assert (Hj : ∀ b x, Forall good_part b → Forall good_part (join_at b x)).
  { intros b x Hb. unfold join_at. destruct (isabs x); [apply path_parts_good|]. apply Forall_app. split; [done|apply path_parts_good]. }
  unfold attempt_path. apply Hj, Hj, Hj, Forall_app. split; [done|]. constructor; [by vm_compute|done].
Qed.
Lemma root_staged (d : path) : staged_protected_record (d ++ [ROOT_DIR]) = d ++ [ROOT_DIR +:+ "." +:+ PROTECTED_FILE].
Proof. unfold staged_protected_record, parent_of. by rewrite removelast_last, last_snoc. Qed.

(** The processes of a machine, run in the workspace of an attempt, touch [P] only,
    and a credential that is written back and the files beside it are of [P]. *)
Record confined (m : Machine) (s : Settings) (d : path) (P : path → Prop) : Prop := {
  foe_confined : ∀ c limit t q, ¬ P q → (foe_process (host m) c (d ++ [ROOT_DIR; WORKSPACE]) limit t).2 !! q = t !! q;
  codex_confined : ∀ c home l e t q, ¬ P q → (codex_process (host m) c home l (d ++ [ROOT_DIR; WORKSPACE]) e t).2 !! q = t !! q;
  credential_confined : ∀ c, s_credential s = Some c → P (path_parts c) ∧ ∀ x r, P (parent_of (path_parts c) ++ x :: r);
}.
Section within.
Context (m : Machine) (s : Settings) (d : path) (P : path → Prop) (HP : confined m s d P).
Lemma arm_confined a t : Forall good_part d → holds P d → touches P (arm_step m s a t d).
Proof.
  intros Hg Hd. apply touches_catching, touches_arm; [apply HP|apply HP| | |done..].
  - intros c Hc. by apply (credential_confined _ _ _ _ HP).
  - intros c x t' Hc Hx r. unfold temporary_path. rewrite Hx, <-app_assoc. by apply (credential_confined _ _ _ _ HP).
Qed.
(** An attempt touches what its processes touch, its directory and what is above
    that, and nothing else. *)
Lemma run_confined provenance entry a n canary : d = attempt_path (path_parts (s_out s)) (task_name (task entry)) (arm_name a) n → holds P d →
  touches P (run_attempt m s provenance entry a n canary).
Proof.
  intros Ed Hd. assert (Hg : Forall good_part d) by (rewrite Ed; apply attempt_path_good, path_parts_good).
  assert (Hr : holds P (d ++ [ROOT_DIR])) by by apply holds_below. assert (Hs : owns P (staged_protected_record (d ++ [ROOT_DIR]))).
  { rewrite root_staged. by apply (holds_below _ _ _ Hd). }
  pose proof (λ parts, touches_materialize P (letter m) (has_commit m) (git_archive m) (git_apply m) (working_directory m) _ Hr Hs
                (path_parts (directory entry)) parts) as Hmat.
  pose proof (λ t, arm_confined a t Hg Hd). pose proof (touches_make P d Hd).
  assert (Hp : touches P (prepared m entry d)) by (apply touches_catching; unfold materialized; keep).
  assert (Hc : ∀ n, touches P (ensure_folders ((d ++ [ROOT_DIR; WORKSPACE]) ++ [n]))).
  { intros x. apply touches_ensure_in. rewrite <-app_assoc. by apply holds_below. }
  assert (Hk : touches P (make_check_directories ((d ++ [ROOT_DIR]) ++ [WORKSPACE]))).
  { apply keeps_loop; [apply _|]. intros _ x. rewrite <-(app_assoc d). apply Hc. }
  assert (Hcan : ∀ record, touches P (canary_step a canary record)).
  { intros record. unfold canary_step. pose proof canary_same. keep. }
  assert (Hgr : ∀ record, touches P (graded_step m s entry a (d ++ [ROOT_DIR]) record)).
  { intros record. unfold graded_step, materialized, grade_with_timeout. pose proof (touches_grade P (letter m) _ Hr). 
    apply keeps_bind; [apply _|apply touches_catching; keep|intros fault; keep]. }
  unfold run_attempt, arm_ran. rewrite <-Ed. keep.
Qed.
End within.

(** ** The arm runs where the grader is not *)

Section unseen.
Context (root : path).
(** What the root would hold beside the workspace. *)
Definition hidden (q : path) : Prop := ∃ x r, q = root ++ x :: r ∧ x ≠ WORKSPACE.
Definition unseen (w : world) : Prop := ∀ q, hidden q → files w !! q = None.
Definition shows (kv : path * entry) : Prop := match strip_prefix root kv.1 with Some (x :: _) => x = WORKSPACE | _ => True end.
#[export] Instance shows_dec kv : Decision (shows kv).
Proof. unfold shows. destruct (strip_prefix root kv.1) as [[|x r]|]; apply _. Defined.
(** A tree without that, and a host that shows no process more. *)
Definition covered (t : tree) : tree := filter shows t.
Definition blind (h : Host) : Host :=
  {| home_dir := home_dir h; environ := environ h; executable_at := executable_at h; fresh_name := fresh_name h; clock := clock h;
     foe_process := λ c cwd limit t, foe_process h c cwd limit (covered t);
     codex_process := λ c home l cwd e t, codex_process h c home l cwd e (covered t) |}.
Lemma covered_unseen w : unseen w → covered (files w) = files w.
Proof.
  intros H. apply map_filter_id. intros q e He. unfold shows. cbn [fst]. destruct (strip_prefix root q) as [[|x r]|] eqn:E; [done| |done].
  apply strip_prefix_spec in E as ->. destruct (decide (x = WORKSPACE)) as [|Hx]; [done|]. rewrite H in He; [done|]. by exists x, r.
Qed.
Lemma tied_process {A : Type} (f : tree → res A * tree) : tied unseen (call (λ _ t, t) f) (call (λ _ t, t) (λ t, f (covered t))).
Proof. intros w Hw. unfold call. by rewrite (covered_unseen w Hw). Qed.
Lemma leads_touches {A} (m : io A) : touches (λ q, ¬ hidden q) m → leads unseen (λ _, unseen) m.
Proof. intros Hm w a w' Hw H q Hq. rewrite (Hm _ _ _ H q); [by apply Hw|]. by intros ?. Qed.
(** The steps before the process. *)
Lemma tied_step {A B} (m : io A) (f f' : A → io B) : touches (λ q, ¬ hidden q) m → (∀ a, tied unseen (f a) (f' a)) → tied unseen (m ≫= f) (m ≫= f').
Proof. intros Hm Hf. eapply tied_bind; [apply tied_same|by apply leads_touches|done]. Qed.
Lemma tied_step_ok {A B} (m : io A) (f f' : A → io B) : touches (λ q, ¬ hidden q) m →
  (∀ a w w', m w = (Ok a, w') → tied unseen (f a) (f' a)) → tied unseen (m ≫= f) (m ≫= f').
Proof.
  intros Hm Hf w Hw. unfold mbind, io_bind. destruct (m w) as [[a|e] w1] eqn:E; [|done]. eapply Hf; [exact E|].
  by apply (leads_touches m Hm w a w1 Hw).
Qed.
Abbreviation clear := (λ q, ¬ hidden q).

Lemma tied_run_process h c cwd artifacts limit : tied unseen (run_process h c cwd artifacts limit) (run_process (blind h) c cwd artifacts limit).
Proof. apply tied_first, tied_process. Qed.
Lemma tied_foe h arm spec : holds clear (path_parts (artifacts spec)) → holds clear (path_parts (log_dir spec)) →
  tied unseen (foe_run h arm spec) (foe_run (blind h) arm spec).
Proof.
  intros Ha Hl. apply tied_step; [by apply touches_foe_begins|intros _]. apply tied_step; [keep|intros prepared].
  apply tied_step; [apply touches_write, owns_below, Ha|intros _]. apply tied_first, tied_run_process.
Qed.
Lemma tied_builtin h a binary t workspace logs artifacts route seconds : holds clear (path_parts artifacts) → holds clear (path_parts logs) →
  tied unseen (run_builtin h a binary t workspace logs artifacts route seconds) (run_builtin (blind h) a binary t workspace logs artifacts route seconds).
Proof. intros Ha Hl. apply tied_step; [by apply touches_foe_begins|intros _]. apply tied_first, tied_run_process. Qed.
Definition codex_on (h : Host) (spec : CodexSpec) : io ArmResult :=
  codex_run (fresh_name h) (environ h) (executable_at h) (clock h false) (clock h true) (codex_process h) spec.
Lemma tied_codex h spec : holds clear (path_parts (c_artifacts spec)) → tied unseen (codex_on h spec) (codex_on (blind h) spec).
Proof.
  intros Ha. assert (Ho : ∀ n, owns clear (artifact spec n)) by (intros n; apply (holds_below clear _ [n] Ha)).
  apply tied_step; [by apply touches_begin|intros c]. apply tied_first, tied_settling.
  apply tied_step; [apply touches_write, Ho|intros _]. apply tied_step; [apply touches_unlink, (owns_self clear), Ho|intros _].
  apply tied_step; [keep|intros command]. apply tied_first, tied_process.
Qed.
Lemma tied_run_codex h s a t workspace artifacts b : holds clear (path_parts artifacts) →
  tied unseen (run_codex h s a t workspace artifacts b) (run_codex (blind h) s a t workspace artifacts b).
Proof.
  intros Ha. apply tied_step_ok; [keep|]. intros spec w w' [(Hs & _)%codex_spec_ok _]%lift_ok.
  apply tied_catching, (tied_first _ (codex_on h spec) (codex_on (blind h) spec)), tied_codex. by rewrite Hs.
Qed.
Lemma tied_arm h s a t workspace d : Forall good_part d → owns clear (d ++ [CHECK_SCRIPT]) → holds clear (d ++ ["artifacts"]) → holds clear (d ++ ["log"]) →
  tied unseen (run_arm h s a t workspace d) (run_arm (blind h) s a t workspace d).
Proof.
  intros Hg Hc Ha Hl. assert (Hp : ∀ n, good_part n → path_parts (shown (d ++ [n])) = d ++ [n]).
  { intros n Hn. apply path_parts_absolute, Forall_app. split; [done|by constructor]. }
  rewrite <-Hp in Ha, Hl by by vm_compute. unfold run_arm. apply tied_step; [keep|intros b]. apply tied_step; [keep|intros seconds].
  destruct (String.eqb (kind a) "document"); [|destruct (String.eqb (kind a) "builtin")].
  - apply tied_step_ok; [by apply touches_document_spec|]. intros spec w w' (Hs1 & Hs2 & _)%document_spec_ok. apply tied_first, tied_foe; congruence.
  - apply tied_step; [keep|intros route]. by apply tied_first, tied_builtin.
  - by apply tied_run_codex.
Qed.
End unseen.

Lemma make_folders_fresh p w u w' : make_folders p w = (Ok u, w') → files w !! p = None.
Proof.
  intros (l & w1 & [-> ->]%look_ok & (u1 & w2 & H & H2)%io_bind_ok)%io_bind_ok. apply touches_ancestors in H.
  rewrite <-(H p). 2: { intros Ha. apply (above_below _ _ []) in Ha. by rewrite app_nil_r in Ha. }
  apply call_ok in H2 as [H2 _]. unfold exists_at in H2. by destruct (files w2 !! p).
Qed.
Section arm_sees.
Context (m : Machine) (s : Settings).
Definition blinded (root : path) : Machine :=
  {| host := blind root (host m); letter := letter m; iso_time := iso_time m; class_name_of := class_name_of m; has_commit := has_commit m;
     git_archive := git_archive m; git_apply := git_apply m; working_directory := working_directory m; real_path := real_path m;
     modified_ms := modified_ms m; trace_check := trace_check m; grader_process := grader_process m; began_ms := began_ms m;
     finished_ms := finished_ms m |}.
Lemma prepared_unseen entry d w w' : wf_tree (files w) → prepared m entry d w = (Ok None, w') → unseen (d ++ [ROOT_DIR]) w'.
Proof.
  intros Hwf [H|(e & _ & H)]%catching_ok; [|by destruct (stopped_by _ e)]. apply io_bind_ok in H as (u & w1 & Hm & H).
  apply io_bind_ok in H as (task & w2 & Hmat & [_ ->]%mret_ok). apply make_folders_fresh in Hm as Hn. apply make_folders_ok in Hm as [Hf _].
  apply materialize_workspace_frame in Hmat as [Hw _]. intros q (x & r & -> & Hx). rewrite Hw by (apply beside_workspace; [by destruct d|done]).
  rewrite Hf; [rewrite <-app_assoc; by apply nothing_below|]. rewrite <-app_assoc. intros [E|(y & l & E)].
  - apply (f_equal length) in E. rewrite length_app in E. cbn in E. lia.
  - apply (f_equal length) in E. rewrite !length_app in E. cbn in E. lia.
Qed.
(** What stands beside the workspace in the attempt's root is not where the arm
    and the check write. *)
Lemma clear_beside (d : path) x : x ≠ ROOT_DIR → holds (λ q, ¬ hidden (d ++ [ROOT_DIR]) q) (d ++ [x]).
Proof.
  intros Hx. split.
  - intros r (y & l & E & _). rewrite <-!app_assoc in E. apply app_inv_head in E. cbn in E. congruence.
  - intros q (y & l & E) (z & k & -> & _). apply (f_equal length) in E. rewrite !length_app in E. cbn in E. lia.
Qed.
Lemma clear_workspace (d : path) : holds (λ q, ¬ hidden (d ++ [ROOT_DIR]) q) (d ++ [ROOT_DIR; WORKSPACE]).
Proof.
  split.
  - intros r (y & l & E & Hy). rewrite <-!app_assoc in E. apply app_inv_head in E. cbn in E. congruence.
  - intros q (y & l & E) (z & k & -> & _). apply (f_equal length) in E. rewrite !length_app in E. cbn in E. lia.
Qed.

(** Claim C10. The grader is nowhere while the arm runs: whatever an arm's process does
    with the files it is shown, showing it a file system without anything of the
    attempt's root beside the workspace changes nothing.  The record, the files
    and the system calls that fail are the same, for every arm, every task and
    every process. *)
Theorem arm_sees_no_grader provenance entry a n canary w :
  let root := attempt_path (path_parts (s_out s)) (task_name (task entry)) (arm_name a) n ++ [ROOT_DIR] in
  wf_tree (files w) → run_attempt (blinded root) s provenance entry a n canary w = run_attempt m s provenance entry a n canary w.
Proof.
  set (d := attempt_path _ _ _ _). intros root Hwf. assert (Hg : Forall good_part d) by apply attempt_path_good, path_parts_good.
  symmetry. cut (tied (eq w) (run_attempt m s provenance entry a n canary) (run_attempt (blinded root) s provenance entry a n canary)); [by intros H; apply H|].
  unfold run_attempt. fold d root. apply (tied_bind _ (λ _, eq w)); [apply tied_same|by intros ? ? ? -> [_ ->]%look_ok|intros t].
  apply (tied_bind _ (λ _, eq w)); [apply tied_same|by intros ? ? ? -> [_ ->]%lift_ok|intros record].
  destruct (negb _); [apply tied_same|].
  apply (tied_bind _ (λ fault w1, fault = None → unseen root w1)); [apply tied_same| |].
  { intros w0 fault w1 <- H ->. by eapply prepared_unseen. }
  intros [message|]; [apply tied_same|]. intros w1 Hw1. specialize (Hw1 eq_refl). revert w1 Hw1.
  match goal with |- ∀ w, unseen root w → ?x w = ?y w => change (tied (unseen root) x y) end. subst root.
  pose proof canary_same as Hcan. assert (Hw : ∀ n, holds (λ q, ¬ hidden (d ++ [ROOT_DIR]) q) (((d ++ [ROOT_DIR]) ++ [WORKSPACE]) ++ [n])).
  { intros x. rewrite <-(app_assoc d). apply holds_below, clear_workspace. }
  apply tied_step; [apply keeps_loop; [apply _|]; intros _ x; by apply touches_ensure_in|intros _].
  apply tied_step; [unfold canary_step; keep|intros record1]. apply tied_step; [keep|intros before].
  apply (tied_bind _ (λ _ _, True)); [|done|intros ran; apply tied_same]. apply tied_catching, tied_arm; [done|..].
  - by apply (clear_beside d CHECK_SCRIPT).
  - by apply clear_beside.
  - by apply clear_beside.
Qed.
End arm_sees.

(** ** A run of attempts *)

(** The attempts of [main]: each is given what the run states of itself and the
    canary it planted. *)
Section study.
Context (m : Machine) (s : Settings) (stated : dict) (config_dir : path) (sentence : string).
Definition out_dir : path := path_parts (s_out s).
Definition attempt_run (t : triple) : io dict :=
  run_attempt m s stated t.1.2 t.2 t.1.1 (Some (config_dir ++ [CANARY_FILE], sentence)).
Definition run_study (resume : bool) (document : tree → dict → dict → res dict) (triples : list triple) : io (list triple * nat * nat) :=
  launch attempt_run resume out_dir config_dir sentence (Ok stated) document triples.
Lemma attempt_within t : confined m s (attempt_of out_dir t) (within out_dir t) → touches (within out_dir t) (attempt_run t).
Proof.
  intros H. assert (Hd : holds (within out_dir t) (attempt_of out_dir t)).
  { split; [intros r; left; right; by exists r|]. intros q Hq. by left; left. }
  unfold attempt_run. by apply (run_confined m s (attempt_of out_dir t) _ H).
Qed.

(** Claim C12. A run that is started, interrupted and started again loses nothing and
    repeats nothing.  A run that succeeds runs the planned attempts that had no
    record, in their order, and no other; every record that was there stays as it
    was, and every planned attempt has one at the end; what an interrupted attempt
    left stands beside it, whole, also after the attempt ran again; and unless the
    run is to be resumed there was no record at all.  Of the processes of the arms
    this takes that none reaches into what another attempt keeps below the output
    directory, and of the credential that it is not kept there. *)
Theorem interrupted_run_resumed resume document triples w pending skipped faults w' :
  run_study resume document triples w = (Ok (pending, skipped, faults), w') →
  (∀ t, t ∈ triples → plain_names t ∧ confined m s (attempt_of out_dir t) (within out_dir t)) → NoDup (map key_of triples) →
  (∀ r, config_dir ≠ out_dir ++ r) → (∀ r, out_dir ≠ config_dir ++ CANARY_FILE :: r) →
  resumed resume out_dir triples w pending skipped faults w'.
Proof.
  intros H Ht. apply (launch_resumes attempt_run resume out_dir config_dir sentence (Ok stated) document); [exact H|]. intros t Hin. destruct (Ht t Hin) as [Hp Hc]. split; [done|by apply attempt_within].
Qed.
End study.

(** ** An example *)

Definition demo_root : path := attempt_path (path_parts (s_out demo_settings)) (task_name (task demo_entry)) (arm_name demo_arm_ran) 1 ++ [ROOT_DIR].
Definition demo_seen : res dict * world :=
  run_attempt (blinded (demo_machine demo_host) demo_root) demo_settings [] demo_entry demo_arm_ran 1 None demo_start.
Lemma demo_start_wf : wf_tree (files demo_start).
Proof. refine (decided _ _). vm_compute. reflexivity. Qed.
Lemma arm_sees_no_grader_witness : demo_seen = demo_ran ∧ dget demo_record "classification" = VStr CORRECT_STOP.
Proof.
  split; [|exact demo_classified].
  exact (arm_sees_no_grader (demo_machine demo_host) demo_settings [] demo_entry demo_arm_ran 1 None demo_start demo_start_wf).
Defined.

(** Two attempts are planned; one has a record, and the other was interrupted
    and left a log. *)
Definition demo_attempts : list triple := [(1, demo_entry, demo_arm_ran); (2, demo_entry, demo_arm_ran)].
Definition demo_second : triple := (2, demo_entry, demo_arm_ran).
Definition demo_out_dir : path := out_dir demo_settings.
Definition folders_to (p : path) : list (path * entry) := map (λ n, (take n p, Folder)) (List.seq 0 (length p)).
Definition demo_first_record : path := record_of demo_out_dir (1, demo_entry, demo_arm_ran).
Definition demo_interrupted : world :=
  {| faults := []; leftovers := [];
     files := list_to_map (folders_to demo_first_record ++ [(demo_first_record, File "{}")]
                ++ folders_to (attempt_of demo_out_dir demo_second ++ ["log"]) ++ [(attempt_of demo_out_dir demo_second ++ ["log"], File "spent"); (["config"], Folder)])
              ∪ files demo_start |}.
Definition demo_study : res (list triple * nat * nat) * world :=
  run_study (demo_machine demo_host) demo_settings [] ["config"] "This sentence is the canary." true (λ _ _ planted, Ok [("canary", VDict planted)])
    demo_attempts demo_interrupted.
Lemma demo_study_ran : demo_study = (Ok ([demo_second], 1, 0), demo_study.2).
Proof. refine (ran_ok demo_study _ _). vm_compute. reflexivity. Qed.
Lemma demo_confined t : t ∈ demo_attempts → plain_names t ∧
  confined (demo_machine demo_host) demo_settings (attempt_of demo_out_dir t) (within demo_out_dir t).
Proof.
  intros Ht. split.
  { unfold demo_attempts in Ht. apply elem_of_cons in Ht as [->|Ht]; [by vm_compute|]. apply list_elem_of_singleton in Ht as ->. by vm_compute. }
  split.
  - intros c limit t' q Hq. cbn [host demo_machine demo_host foe_process snd]. apply lookup_insert_ne. intros <-. apply Hq. left; right.
    exists ["log"; "episode.jsonl"]. f_equal. unfold parent_of. change [ROOT_DIR; WORKSPACE] with ([ROOT_DIR] ++ [WORKSPACE]).
    by rewrite app_assoc, !removelast_last.
  - done.
  - done.
Qed.
Lemma interrupted_run_resumed_witness : set_beside demo_out_dir demo_interrupted demo_second demo_study.2 ∧
  files demo_interrupted !! (attempt_of demo_out_dir demo_second ++ ["log"]) = Some (File "spent").
Proof.
  split; [|vm_compute; reflexivity].
  refine (left_aside _ _ _ _ _ _ _ _ (interrupted_run_resumed (demo_machine demo_host) demo_settings [] ["config"] "This sentence is the canary."
    true (λ _ _ planted, Ok [("canary", VDict planted)]) demo_attempts demo_interrupted [demo_second] 1 0 demo_study.2 demo_study_ran demo_confined _ _ _) _ _ _).
  - refine (decided _ _). vm_compute. reflexivity.
  - discriminate.
  - discriminate.
  - left.
  - vm_compute. reflexivity.
Defined.
