(* ===== verification/RunMain.v ===== *)
(** * A run from its document to its status

    src/evals/cross_harness/run.py: [header] and [plan], what a reader is shown
    before a run spends anything, and [main], which reads the document, refuses
    what cannot run, and launches the attempts once the spend is confirmed. *)

From Stdlib Require Import Ascii.
From Stdlib Require String.
From stdpp Require Import base gmap sets list strings pretty sorting.
From Stdlib Require Import ZArith Lia.
From S2P Require Import Prelude PyValue PyText PyUnicode PyJson PyPath PyFormat TaskProtocol TaskRoot Graphs RunText RunPlan RunDocs CodexRun RunOutcome RunLaunch RunDocument FoeBuild.
From S2P Require Import ArmRun RunAttempt AttemptEffects.

Definition NOTHING_LAUNCHED : Z := 2.
Definition DEPLOYMENT_FAULT : Z := 1.
Definition EVALUATED : Z := 0.
Definition FOE_CONFIG_CANARY : string := "foe_config".
Definition CANARY_NAMES : list string := [CODEX_CONFIG_CANARY; FOE_CONFIG_CANARY].

(** ** The printed plan *)

Definition number (z : Z) : string := Z_str z.
Definition ceiling (totals : list (string * Z)) (key : string) : Z := default 0%Z (assoc totals key).
Definition ceilings (b : dict) : list (string * Z) := map (λ kv : string * value, (kv.1, int_of kv.2)) b.
(** A line of the table: the four ceilings and what they are for. *)
Definition table_line (c : list (string * Z)) (label : string) : string :=
  "  " +:+ right_in 11 (number (ceiling c "model_calls")) +:+ "  " +:+ right_in 9 (thousands (ceiling c "input_tokens"))
  +:+ "  " +:+ right_in 8 (thousands (ceiling c "output_tokens")) +:+ "  " +:+ right_in 7 (number (ceiling c "seconds")) +:+ "  " +:+ label.
Definition attempt_label (t : triple) : string := task_name (task t.1.2) +:+ " / " +:+ arm_name t.2 +:+ " / " +:+ nat_str t.1.1.
Definition counted (n : nat) (one : string) : string := nat_str n +:+ " " +:+ (if n =? 1 then one else one +:+ "s").
Definition stated_overrides (d : dict) : string := join ", " (map (λ kv : string * value, kv.1 +:+ "=" +:+ py_str kv.2) d).
Definition or_text (s other : string) : string := match s with "" => other | s => s end.

Section plan.
(** What can be executed, and the files as they are. *)
Context (executable : path → bool) (t : tree).

Definition codex_row (d : Document) (s : Settings) : string :=
  match s_codex s with
  | None => "none; " +:+ default "None" (codex_fault executable t d) +:+ ", and no selected arm needs it"
  | Some c => if has_char slash (codex_named d) then c else c +:+ " (the command " +:+ str_repr (codex_named d) +:+ " on PATH)"
  end.
Definition credential_row (d : Document) (s : Settings) : string :=
  match s_credential s with
  | None => "none; " +:+ default "None" (credential_fault t d) +:+ ", and no selected arm needs it"
  | Some c => c
  end.
Definition header_rows (d : Document) (s : Settings) (tasks : list Selected) (arms : list Arm) : list (string * string) :=
  let overrides := stated_overrides (s_budget_overrides s) in
  [("tasks", shown (doc_tasks d)); ("family", s_family s);
   ("selected", join ", " (map (λ e, task_name (task e)) tasks) +:+ match doc_select d with Some _ => "" | None => " (every task under tasks)" end);
   ("arms", arm_names arms +:+ match doc_arms d with Some _ => "" | None => " (every arm of the " +:+ s_family s +:+ " family)" end);
   ("attempts", nat_str (s_attempts s));
   ("resume", if doc_resume d then "an attempt already recorded is skipped" else "an existing record or attempt directory is refused");
   ("foe", s_foe s); ("codex", codex_row d s); ("credential", credential_row d s); ("route", s_route s)]
  ++ (if String.eqb (s_route s) "compatible" then [("base URL", py_str (option_str (s_base_url s))); ("codex wire API", s_codex_wire_api s)] else [])
  ++ [("model", s_model s); ("effort", s_effort s); ("out", s_out s);
      ("tool roots", or_text (join ", " (s_tool_roots s)) "none beyond the system roots");
      ("budget", match overrides with "" => "every task's own budget" | o => o +:+ " replace the same keys of every task's budget" end);
      ("grader timeout", number (s_grader_timeout s) +:+ " seconds"); ("source root", s_source_root s); ("foe config dir", shown (doc_config_dir d))].
Definition header (d : Document) (s : Settings) (tasks : list Selected) (arms : list Arm) : list string :=
  let rows := header_rows d s tasks arms in
  let width := max_list (map (λ r : string * string, String.length r.1) rows) in
  ("Run document " +:+ shown (doc_path d) +:+ " resolved to:")
    :: map (λ r : string * string, "  " +:+ left_in width r.1 +:+ "  " +:+ r.2) rows ++ [""].

Definition recorded_at (s : Settings) (tr : triple) : bool := exists_at t (record_of (out_dir s) tr).
(** The rows of the plan by what becomes of the attempt. *)
Definition launch_line (r : row) : option string :=
  match r with Launches tr b => Some (table_line (ceilings b) (attempt_label tr)) | _ => None end.
Definition recorded_line (s : Settings) (r : row) : option string :=
  match r with Recorded tr => Some ("  " +:+ attempt_label tr +:+ ": " +:+ shown (record_of (out_dir s) tr)) | _ => None end.
Definition skipped_line (r : row) : option string :=
  match r with NotApplicable tr reason => Some ("  " +:+ attempt_label tr +:+ ": " +:+ reason) | _ => None end.
Definition titled (title : string) (lines : list string) : list string := match lines with [] => [] | l => "" :: title :: l end.
Definition BOUND_LINES : list string :=
  [""; "A foe document arm declares every ceiling in its document, and the runtime enforces model_calls";
   "inside the episode. A foe-as-shipped arm runs under the built-in document's own model-call";
   "ceiling and no token ceiling; the seconds ceiling is the runner's cap. A Codex arm has its token";
   "and seconds ceilings enforced by the budget watcher on every attempt and no model-call ceiling,";
   "so the token and seconds ceilings are the shared bound and model calls are reported per arm."; ""].
Definition exists_path (p : string) : bool := exists_at t (path_parts p).
Definition roots_lines (s : Settings) (tasks : list Selected) (arms : list Arm) : res (list string) :=
  if existsb (λ a, String.eqb (kind a) "document") arms then
    roots ← map_res (λ e, r ← tool_roots exists_path s (task e); Ok ("  " +:+ task_name (task e) +:+ ": " +:+ join ", " r)) tasks;
    Ok (["A foe document arm writes the whole workspace, or the roots a task names under metadata.write_roots. It executes";
         "the workspace, so that a check suite can run the binaries its build wrote, and it reads and executes:"] ++ roots
        ++ ["A check suite that needs a command outside those roots cannot run under foe, and the attempt";
            "is then recorded as a fault. Add each installation such a command lives in to the document's tool_roots."; ""])
  else Ok [].
(** What [plan] prints of its rows and their total. *)
Definition plan_lines (d : Document) (s : Settings) (tasks : list Selected) (arms : list Arm) (rows : list row) (totals : list (string * Z))
  (roots : list string) : list string :=
  let recorded := omap (recorded_line s) rows in
  header d s tasks arms
  ++ ["This evaluation calls " +:+ s_model s +:+ " over the " +:+ s_route s +:+ " route and spends real credit.";
      "Largest spend it can incur, at " +:+ counted (s_attempts s) "attempt" +:+ " of each of " +:+ counted (length tasks) "task" +:+ " under "
        +:+ counted (length arms) "arm" +:+ ":"; "";
      "  " +:+ right_in 11 "model calls" +:+ "  " +:+ right_in 9 "input" +:+ "  " +:+ right_in 8 "output" +:+ "  " +:+ right_in 7 "seconds" +:+ "  attempt"]
  ++ omap launch_line rows
  ++ [table_line totals (match recorded with [] => "every planned attempt" | _ => "every attempt this run launches" end)]
  ++ titled "Already recorded under key resume and never launched again:" recorded
  ++ match s_budget_overrides s with
     | [] => []
     | o => [""; "The ceilings above are the effective ones: the document's budget replaces " +:+ stated_overrides o +:+ " in every task's budget."]
     end
  ++ titled "Recorded as not applicable and never launched:" (omap skipped_line rows)
  ++ BOUND_LINES ++ roots ++ ["No attempt was launched. Add --confirm-spend to launch them."].
Definition plan (s : Settings) (tasks : list Selected) (arms : list Arm) (d : Document) : res string :=
  planned ← plan_rows s tasks arms (doc_resume d) (recorded_at s);
  roots ← roots_lines s tasks arms;
  Ok (join nl (plan_lines d s tasks arms planned.1 planned.2 roots)).
End plan.


(** ** The run *)

(** How a run ended that was not refused: with the plan printed, or with the
    attempts launched, some skipped, and some of them faults. *)
Inductive ending : Type :=
| Planned (text : string)
| Launched (pending : list triple) (skipped faults : nat).
Definition exit_status (e : res ending) : option Z :=
  match e with
  | Ok (Planned _) | Err (RuntimeError _) => Some NOTHING_LAUNCHED
  | Ok (Launched _ _ faults) => Some (if faults =? 0 then EVALUATED else DEPLOYMENT_FAULT)
  | Err _ => None
  end.
(** [except (ValueError, FileNotFoundError) as exc: return refuse(str(exc))]. *)
Definition refused_as (e : exn) : option string := if value_error e || os_error e then Some (exn_str e) else None.

(** [canaries], of the random identifiers. *)
Definition canary_sentence (name identifier : string) : string :=
  CANARY_PREFIX +:+ str_replace "_" " " name +:+ " isolation canary " +:+ identifier
  +:+ "; a model request that carries it was built from a file the harness must never read.".
Definition canaries (identifier : string → string) : dict := map (λ n, (n, VStr (canary_sentence n (identifier n)))) CANARY_NAMES.
Definition sentence_of (s : Settings) (name : string) : string := py_str (dget (s_canaries s) name).

(** The settings of a document. *)
Definition settings_of (executable : path → bool) (t : tree) (d : Document) (family_ : string) (sentences : dict) : Settings :=
  {| s_foe := shown (doc_foe d); s_codex := match codex_fault executable t d with None => shown <$> doc_codex d | Some _ => None end; s_family := family_;
     s_attempts := Z.to_nat (doc_attempts d); s_route := doc_route d; s_base_url := doc_base_url d; s_model := doc_model d; s_effort := doc_effort d;
     s_out := shown (doc_out d); s_credential := match credential_fault t d with None => Some (shown (doc_credential d)) | Some _ => None end;
     s_codex_wire_api := doc_wire_api d; s_grader_timeout := doc_grader_timeout d; s_source_root := shown (doc_source_root d);
     s_tool_roots := doc_tool_roots d; s_budget_overrides := doc_budget d; s_canaries := sentences |}.

Section main.
(** The machine; the home directories; the search path; the random identifiers; and
    what git and the Codex binary print. *)
Context (m : Machine) (home_of_user which : string → option string) (identifier : string → string)
  (git : string → list string → res git_end) (slow : string → list string → bool) (codex_version : string → option string).

(** What the document resolves to: the tasks, the arms and the settings. *)
Record Resolved : Type := { resolved_document : Document; resolved_tasks : list Selected; resolved_arms : list Arm; resolved_settings : Settings }.
Definition codex_arms (arms : list Arm) : list Arm := List.filter (λ a, String.eqb (harness a) "codex") arms.
Definition either_fault (executable : path → bool) (t : tree) (d : Document) : option string :=
  match codex_fault executable t d with Some f => Some f | None => credential_fault t d end.
Definition selected_of (t : tree) (p : string) : res (Document * list Selected * string * list Arm) :=
  d ← load_document home_of_user (executable_at (host m) t) which (working_directory m) t p;
  tasks ← discover_tasks t (letter m) (doc_tasks d) (doc_select d);
  family_ ← shared_family tasks (shown (doc_tasks d));
  arms ← select_arms (doc_arms d) family_;
  Ok (d, tasks, family_, arms).
(** The checks before the plan, of one task. *)
Definition check_entry (t : tree) (s : Settings) (e : Selected) : res () :=
  tool_roots (exists_path t) s (task e);;
  b ← effective_budget s (task e);
  match check_budget b with
  | Err (ValueError r) => Err (ValueError (task_name (task e) +:+ ": the effective budget is refused: " +:+ r))
  | Err e => Err e
  | Ok _ => Ok ()
  end.
Definition check_settings (t : tree) (s : Settings) (tasks : list Selected) : res () :=
  (if String.eqb (s_route s) "compatible" then _ ← foe_route s; Ok () else Ok ());;
  _ ← map_res (check_entry t s) tasks; Ok ().
Definition resolved (p : string) : io Resolved :=
  t ← look id;
  found ← refusing (lift (selected_of t p)) refused_as;
  let '(d, tasks, family_, arms) := found in
  let executable := executable_at (host m) t in
  (match codex_arms arms, either_fault executable t d with
   | (_ :: _) as l, Some fault => refuse ("the arms " +:+ arm_names l +:+ " need harnesses.codex and harnesses.credential: " +:+ fault)
   | _, _ => mret ()
   end);;
  let s := settings_of executable t d family_ (canaries identifier) in
  refusing (lift (check_settings t s tasks)) refused_as;;
  mret {| resolved_document := d; resolved_tasks := tasks; resolved_arms := arms; resolved_settings := s |}.

(** A comprehension that builds an object; and the run file. *)
Definition dict_of (l : list (string * value)) : dict := fold_left (λ d kv, dset d kv.1 kv.2) l [].
Definition run_content (r : Resolved) (t : tree) (provenance planted : dict) : res dict :=
  let s := resolved_settings r in
  let of_task {A} (f : Selected → res A) (g : A → value) := map_res (λ e, v ← f e; Ok (task_name (task e), g v)) (resolved_tasks r) in
  let canary := shown (doc_config_dir (resolved_document r) ++ [CANARY_FILE]) in
  budgets ← of_task (λ e, effective_budget s (task e)) VDict;
  roots ← of_task (λ e, tool_roots (exists_path t) s (task e)) strs;
  text ← plan (executable_at (host m) t) t s (resolved_tasks r) (resolved_arms r) (resolved_document r);
  Ok [("schema_version", VInt 1); ("document", VDict (Document_to_dict (resolved_document r))); ("settings", VDict (Settings_to_dict s));
      ("provenance", VDict provenance);
      ("canaries", VDict
        [(CODEX_CONFIG_CANARY, VDict [("sentence", dget (s_canaries s) CODEX_CONFIG_CANARY);
            ("placement", VStr (CONFIG_CANARY_NAME +:+ " in the fresh CODEX_HOME of every Codex attempt"))]);
         (FOE_CONFIG_CANARY, VDict [("sentence", dget (s_canaries s) FOE_CONFIG_CANARY); ("path", VStr canary);
            ("placement", VStr (CANARY_FILE +:+ " in foe's configuration directory " +:+ shown (doc_config_dir (resolved_document r))
               +:+ ", removed once the attempts have ended")); ("planted", VDict planted)])]);
      ("arms", strs (map arm_name (resolved_arms r))); ("tasks", strs (map (λ e, task_name (task e)) (resolved_tasks r)));
      ("budgets", VDict (dict_of budgets)); ("tool_roots", VDict (dict_of roots)); ("plan", VStr text)].

(** [main], from its arguments on.  The binary and the checkouts are read as they
    are when the launch begins. *)
Definition main (p : string) (confirm_spend : bool) : io ending :=
  r ← resolved p;
  let s := resolved_settings r in
  let d := resolved_document r in
  if negb confirm_spend then
    text ← look (λ t, plan (executable_at (host m) t) t s (resolved_tasks r) (resolved_arms r) d);
    text ← lift text;
    mret (Planned text)
  else
    triples ← lift (planned (resolved_tasks r) (resolved_arms r) (s_attempts s));
    t ← look id;
    let needs_codex := negb (match codex_arms (resolved_arms r) with [] => true | _ => false end) in
    let provenance := provenance_of git slow (real_path m t) t codex_version (began_ms m) s needs_codex in
    let stated := match provenance with Ok d => d | Err _ => [] end in
    let sentence := sentence_of s FOE_CONFIG_CANARY in
    ran ← launch (attempt_run m s stated (doc_config_dir d) sentence) (doc_resume d) (out_dir s) (doc_config_dir d) sentence provenance (run_content r) triples;
    mret (Launched ran.1.1 ran.1.2 ran.2).
End main.

(** ** The spend a reader confirms *)

(** What an attempt may spend: nothing when it is not applicable. *)
Definition launching (r : row) : option (triple * dict) := match r with Launches t b => Some (t, b) | _ => None end.
Definition may_spend (s : Settings) (t : triple) : option (triple * dict) :=
  match not_applicable s t.2 (task t.1.2), effective_budget s (task t.1.2) with Ok None, Ok b => Some (t, b) | _, _ => None end.
Definition spend_of (key : string) (l : list (triple * dict)) : Z := fold_right Z.add 0%Z (map (λ tb : triple * dict, int_of (dget tb.2 key)) l).

Lemma rows_launching s resume rec l rows : map_res (plan_row s resume rec) l = Ok rows →
  omap launching rows = omap (may_spend s) (List.filter (λ t, negb (resume && rec t)) l).
Proof.
  rewrite map_res_Forall2. induction 1 as [|t r l rows H _ IH]; [done|]. cbn [omap list_omap List.filter]. rewrite IH. clear IH.
  unfold plan_row in H. destruct (resume && rec t); [by injection H as <-|]. cbn [negb omap list_omap]. unfold may_spend.
  apply res_bind_ok in H as ([reason|] & -> & H); [by injection H as <-|]. by apply res_bind_ok in H as (b & -> & [= <-]).
Qed.
Lemma rows_ceilings rows : concat (map row_ceilings rows) = map snd (omap launching rows).
Proof. induction rows as [|[] rows IH]; cbn; by rewrite ?IH. Qed.
Lemma assoc_add totals b key : assoc (add_ceilings totals b) key = (λ z, (z + int_of (dget b key))%Z) <$> assoc totals key.
Proof.
  induction totals as [|[k z] totals IH]; [done|]. unfold add_ceilings in *. cbn [map assoc fst snd]. destruct (String.eqb_spec k key) as [->|]; [done|exact IH].
Qed.
Lemma totals_spend (l : list (triple * dict)) totals key z : assoc totals key = Some z →
  assoc (fold_left add_ceilings (map snd l) totals) key = Some (z + spend_of key l)%Z.
Proof.
  revert totals z. induction l as [|[t b] l IH]; intros totals z H; cbn [map fold_left snd].
  - rewrite H. unfold spend_of. cbn. f_equal. symmetry. apply Z.add_0_r.
  - rewrite (IH _ (z + int_of (dget b key))%Z) by by rewrite assoc_add, H. unfold spend_of. cbn [map fold_right snd]. f_equal. symmetry. apply Z.add_assoc.
Qed.
Lemma plan_rows_spend s tasks arms resume rec triples rows totals : planned tasks arms (s_attempts s) = Ok triples →
  plan_rows s tasks arms resume rec = Ok (rows, totals) →
  omap launching rows = omap (may_spend s) (List.filter (λ t, negb (resume && rec t)) triples) ∧
  ∀ key, key ∈ TaskProtocol.BUDGET_KEYS → assoc totals key = Some (spend_of key (omap launching rows)).
Proof.
  intros Ht H. unfold plan_rows in H. rewrite Ht in H. cbn [mbind res_bind] in H. apply res_bind_ok in H as (rs & Hr & [= <- <-]).
  split; [by apply rows_launching|]. intros key Hk. rewrite rows_ceilings. rewrite (totals_spend _ _ _ 0%Z); [f_equal; lia|].
  repeat (apply elem_of_cons in Hk as [->|Hk]; [reflexivity|]). by apply elem_of_nil in Hk.
Qed.

Section spend.
Context (m : Machine) (home_of_user which : string → option string) (identifier : string → string)
  (git : string → list string → res git_end) (slow : string → list string → bool) (codex_version : string → option string).
Abbreviation resolved := (resolved m home_of_user which identifier).
Abbreviation main := (main m home_of_user which identifier git slow codex_version).

Lemma refusing_lift {A} (x : res A) f w r w' : refusing (lift x) f w = (r, w') → w' = w.
Proof. unfold refusing, lift. destruct x as [a|e]; [by intros [= _ <-]|]. destruct (f e); by intros [= _ <-]. Qed.
Lemma bind_same {A B} (x : io A) (f : A → io B) w r w' : (∀ r w', x w = (r, w') → w' = w) → (∀ a r w', f a w = (r, w') → w' = w) → (x ≫= f) w = (r, w') → w' = w.
Proof.
  intros Hx Hf. unfold mbind, io_bind. specialize (Hx _ _ (surjective_pairing _)). destruct (x w) as [[a|e] w1]; cbn [snd] in Hx; subst w1; [apply Hf|by intros [= _ <-]].
Qed.
Lemma resolved_same p w r w' : resolved p w = (r, w') → w' = w.
Proof.
  unfold RunMain.resolved. apply bind_same; [by intros ? ? [= _ <-]|]. intros t r' w1. apply bind_same; [intros ? ?; apply refusing_lift|].
  intros [[[d tasks] family_] arms] r2 w2. apply bind_same.
  - intros ? ?. destruct (codex_arms arms); [by intros [= _ <-]|]. destruct (either_fault _ _ _); by intros [= _ <-].
  - intros u r3 w3. apply bind_same; [intros ? ?; apply refusing_lift|]. by intros ? ? ? [= _ <-].
Qed.
(** A run that is not confirmed changes nothing. *)
Lemma unconfirmed_same p w r w' : main p false w = (r, w') → w' = w.
Proof.
  unfold RunMain.main. apply bind_same; [intros ? ?; apply resolved_same|]. intros a r1 w1. cbn [negb]. cbv zeta.
  apply bind_same; [by intros ? ? [= _ <-]|]. intros t r2 w2. apply bind_same; [by intros ? ? [= _ <-]|]. by intros ? ? ? [= _ <-].
Qed.

(** Claim C13. The spend a reader confirms is the spend of the run.  A run that is not
    confirmed changes nothing and prints the plan; launched from there, the run's
    pending attempts that are applicable are those the plan has a line for, each
    with the ceilings of its line, and the printed total is their sum. *)
Theorem authorized_spend p w r w0 triples text w1 pending skipped faults w' :
  resolved p w = (Ok r, w0) → planned (resolved_tasks r) (resolved_arms r) (s_attempts (resolved_settings r)) = Ok triples →
  (∀ t, t ∈ triples → plain_names t) → NoDup (map key_of triples) →
  main p false w = (Ok (Planned text), w1) → main p true w = (Ok (Launched pending skipped faults), w') →
  ∃ rows totals roots, w1 = w ∧
    text = join nl (plan_lines (executable_at (host m) (files w)) (files w) (resolved_document r) (resolved_settings r)
                      (resolved_tasks r) (resolved_arms r) rows totals roots) ∧
    omap launching rows = omap (may_spend (resolved_settings r)) pending ∧
    ∀ key, key ∈ TaskProtocol.BUDGET_KEYS → assoc totals key = Some (spend_of key (omap (may_spend (resolved_settings r)) pending)).
Proof.
  intros Hr Ht Hn Hd Hp Hl. assert (Hw := Hp). apply unconfirmed_same in Hw as ->. assert (Hw := Hr). apply resolved_same in Hw as ->.
  unfold RunMain.main in Hp, Hl. unfold mbind at 1, io_bind at 1 in Hp. unfold mbind at 1, io_bind at 1 in Hl. rewrite Hr in Hp, Hl. cbn [negb] in Hp, Hl. cbv zeta in Hp, Hl.
  apply io_bind_ok in Hp as (x & ? & [-> ->]%look_ok & Hp). apply io_bind_ok in Hp as (tx & ? & [Hplan ->]%lift_ok & Hp). apply mret_ok in Hp as [[= ->] _].
  unfold plan in Hplan. apply res_bind_ok in Hplan as ([rows totals] & Hrows & (roots & _ & [= <-])%res_bind_ok).
  apply io_bind_ok in Hl as (ts & ? & [Hts ->]%lift_ok & Hl). rewrite Ht in Hts. injection Hts as <-.
  apply io_bind_ok in Hl as (t & ? & [_ ->]%look_ok & Hl). apply io_bind_ok in Hl as ([[pend sk] fl] & wl & Hl & Hend).
  apply mret_ok in Hend as [Hend _]. cbn [fst snd] in Hend. injection Hend as -> -> ->.
  unfold launch in Hl. apply io_bind_ok in Hl as ([pe sk'] & wp & Hpe & Hl).
  assert (pe = pend) as ->.
  { repeat (apply io_bind_ok in Hl as (? & ? & _ & Hl)). apply mret_ok in Hl as [Hl _]. cbn [fst snd] in Hl. by injection Hl as -> _ _. }
  apply (pending_all _ _ _ triples) in Hpe as [Hpe _ Hres _ _ _]; [|done|done]. cbn [fst] in Hpe, Hres.
  destruct (plan_rows_spend _ _ _ _ _ _ _ _ Ht Hrows) as [H1 H2].
  assert (Hsame : List.filter (λ t, negb (doc_resume (resolved_document r) && recorded_at (files w) (resolved_settings r) t)) triples = pend).
  { destruct (doc_resume (resolved_document r)) eqn:E; cbn [andb]; [by rewrite Hpe|]. destruct (Hres eq_refl) as [-> _].
    clear. induction triples as [|t l IH]; [done|]. cbn. f_equal. exact IH. }
  rewrite Hsame in H1. exists rows, totals, roots. split_and!; [done|done|done|]. intros key Hk. by rewrite (H2 key Hk), H1.
Qed.
End spend.

(** ** An example *)

(** A document that asks for two attempts of one task under one arm, the first
    of which is recorded. *)
Definition demo_spend_document : dict :=
  [("tasks", VStr "tasks"); ("arms", strs ["foe-as-shipped"]); ("attempts", VInt 2); ("resume", VBool true);
   ("model", VDict [("route", VStr "subscription"); ("name", VStr "m")]); ("budget", VDict [("seconds", VInt 900)]);
   ("harnesses", VDict [("foe", VStr "foe")]); ("out", VStr "out"); ("foe_config_dir", VStr "config")].
Definition demo_task_text : string := match task_document TaskProtocol.example_task with Ok s => s | Err _ => "" end.
Definition demo_spend_files : tree :=
  <[["run.json"] := File (dumps_compact (VDict demo_spend_document))]> (<[["tasks"] := Folder]>
    (place ["tasks"; "t"] (<[[TASK_FILE] := File demo_task_text]> (subtree ["t"] (files demo_start))) (files demo_start)))
  ∪ list_to_map (folders_to ["out"; "records"; "parser-é"; "foe-as-shipped"; "01.json"] ++ [(["out"; "records"; "parser-é"; "foe-as-shipped"; "01.json"], File "{}")]).
Definition demo_spend_world : world := {| files := demo_spend_files; faults := []; leftovers := [] |}.
Definition demo_main (confirm : bool) : res ending * world :=
  main (demo_machine demo_host) demo_home (λ _, None) id demo_git (λ _ _, false) (λ _, None) "/run.json" confirm demo_spend_world.
Definition demo_resolved_run : res Resolved * world := resolved (demo_machine demo_host) demo_home (λ _, None) id "/run.json" demo_spend_world.
Definition text_of (r : res ending) : string := match r with Ok (Planned t) => t | _ => "" end.
Definition pending_in (r : res ending) : list triple := match r with Ok (Launched p _ _) => p | _ => [] end.
Definition run_of (r : res Resolved) : Resolved :=
  match r with Ok r => r | Err _ => {| resolved_document := no_document; resolved_tasks := []; resolved_arms := []; resolved_settings := demo_settings |} end.
Definition demo_run_of : Resolved := run_of demo_resolved_run.1.
Definition demo_planned : list triple := [(1, hd demo_entry (resolved_tasks demo_run_of), demo_arm_ran); (2, hd demo_entry (resolved_tasks demo_run_of), demo_arm_ran)].
Definition demo_pending : list triple := pending_in (demo_main true).1.
Lemma demo_resolved_ok : demo_resolved_run = (Ok demo_run_of, demo_resolved_run.2).
Proof. refine (ran_ok demo_resolved_run demo_run_of _). vm_compute. reflexivity. Qed.
Lemma demo_plan_printed : demo_main false = (Ok (Planned (text_of (demo_main false).1)), (demo_main false).2).
Proof. refine (ran_ok (demo_main false) _ _). vm_compute. reflexivity. Qed.
Lemma demo_main_ran : demo_main true = (Ok (Launched demo_pending 1 0), (demo_main true).2).
Proof. refine (ran_ok (demo_main true) _ _). vm_compute. reflexivity. Qed.
Lemma demo_planned_ok : planned (resolved_tasks demo_run_of) (resolved_arms demo_run_of) (s_attempts (resolved_settings demo_run_of)) = Ok demo_planned.
Proof. vm_compute. reflexivity. Qed.
Lemma demo_planned_plain t : t ∈ demo_planned → plain_names t.
Proof. unfold demo_planned. intros [->|[->|[]%elem_of_nil]%elem_of_cons]%elem_of_cons; by vm_compute. Qed.
Lemma demo_planned_nodup : NoDup (map key_of demo_planned).
Proof. refine (decided _ _). vm_compute. reflexivity. Qed.
(** The printed total of the run above is what its one pending attempt may
    spend. *)
Lemma authorized_spend_witness :
  (∃ rows totals roots, (demo_main false).2 = demo_spend_world ∧
    text_of (demo_main false).1 = join nl (plan_lines (executable_at (host (demo_machine demo_host)) (files demo_spend_world)) (files demo_spend_world) (resolved_document demo_run_of) (resolved_settings demo_run_of)
                      (resolved_tasks demo_run_of) (resolved_arms demo_run_of) rows totals roots) ∧
    omap launching rows = omap (may_spend (resolved_settings demo_run_of)) demo_pending ∧
    ∀ key, key ∈ TaskProtocol.BUDGET_KEYS → assoc totals key = Some (spend_of key (omap (may_spend (resolved_settings demo_run_of)) demo_pending))) ∧
  map (λ k, spend_of k (omap (may_spend (resolved_settings demo_run_of)) demo_pending)) TaskProtocol.BUDGET_KEYS = [40; 100000; 9000; 900]%Z.
Proof.
  split; [|vm_compute; reflexivity].
  exact (authorized_spend (demo_machine demo_host) demo_home (λ _, None) id demo_git (λ _ _, false) (λ _, None) "/run.json" demo_spend_world
    demo_run_of demo_resolved_run.2 demo_planned _ _ demo_pending 1 0 _ demo_resolved_ok demo_planned_ok demo_planned_plain demo_planned_nodup
    demo_plan_printed demo_main_ran).
Defined.

(** A selection that names a task twice is accepted, and its attempts are planned
    twice under one record: the second overwrites what the first recorded, with
    the fault of an attempt whose directory is already there. *)
Definition demo_twice : list triple := [(1, demo_entry, demo_arm_ran); (1, demo_entry, demo_arm_ran)].
Definition demo_study_twice : res (list triple * nat * nat) * world :=
  run_study (demo_machine demo_host) demo_settings [] ["config"] "This sentence is the canary." false (λ _ _ planted, Ok [("canary", VDict planted)])
    demo_twice demo_start.
Definition record_text (r : res (list triple * nat * nat) * world) (p : path) : string :=
  match files r.2 !! p with Some (File text) => text | _ => "" end.
Definition record_value (text : string) : dict := match loads_str text with inl (VDict d) => d | _ => [] end.
Example repeated_selection_accepted :
  select_tasks [("t", demo_entry)] "/tasks" (Some ["t"; "t"]) = Ok [demo_entry; demo_entry].
Proof. reflexivity. Qed.
Example repeated_task_loses_record :
  (demo_study_twice.1 = Ok (demo_twice, 0, 1)) ∧
  dget (record_value (record_text demo_study_twice (record_of demo_out_dir (1, demo_entry, demo_arm_ran)))) "classification" = VNone.
Proof. split; vm_compute; reflexivity. Qed.
