(* ===== verification/Isolation.v ===== *)
(** * The isolation gate

    src/evals/cross_harness/gates/isolation.py: whether a canary of a run appears
    in a recorded request, and whether what is recorded could have shown it.  The
    files are those of [TaskRoot]; recorded paths are absolute. *)

From Stdlib Require Import Ascii.
From stdpp Require Import base gmap sets list strings pretty sorting.
From Stdlib Require Import ZArith Lia.
From S2P Require Import Prelude PyValue PyText PyJson PyUnicode JsonText PyPath Sha256 StateRoot BudgetWatcher Graphs TaskProtocol TaskRoot RunPlan RunLaunch.
From S2P Require Import RunDocument FoeBuild CodexRun ArmRun RunAttempt AttemptEffects RunMain.

Definition ISOLATED : Z := 0.
Definition LEAKED : Z := 1.
Definition NO_RECORDS : Z := 2.
Definition MALFORMED : Z := 3.
Definition UNQUALIFIED : Z := 4.
Definition RESULT_FILE : path := ["gates"; "isolation.json"].
Definition REQUEST_EVENTS : list string := ["request/header"; "model/request"].
Definition LOG_NAME : string := "episode.jsonl".
Definition CODEX_REQUEST_RECORDS : list string := ["turn_context"; "response_item"].
Definition PLANTED_KEY : string := "planted".
Definition PRESENT_KEY : string := "foe_canary_present".

(** ** Files *)

(** [sorted(p.rglob(pattern))] and [sorted(p.glob(pattern))], of the names that
    match. *)
Definition entries_below (t : tree) (p : path) : list path :=
  merge_sort path_leb (List.filter (λ q, match strip_prefix p q with Some (_ :: _) => true | _ => false end) (map fst (map_to_list t))).
Definition entries_in (t : tree) (p : path) : list path :=
  List.filter (λ q, match strip_prefix p q with Some [_] => true | _ => false end) (entries_below t p).
Definition name_of (p : path) : string := default "" (last p).
Definition content_at (t : tree) (p : path) : res string :=
  match t !! p with Some (File c) => Ok c | Some Folder => Err (is_a_folder p) | None => Err (no_such p) end.
Definition json_at (t : tree) (p : path) : res value :=
  text ← read_text (content_at t p);
  match loads_str text with inl v => Ok v | inr e => Err (ValueError (load_error_str e)) end.
Definition JSON_SUFFIX : string := ".json".
Definition run_files (t : tree) (out : path) : list path :=
  List.filter (λ p, let n := name_of p in ends_with JSON_SUFFIX n && starts_with RUN_FILE n
                    && (String.eqb n (RUN_FILE +:+ JSON_SUFFIX) || starts_with "-" (str_drop (String.length RUN_FILE) n))) (entries_in t out).
Definition record_files (t : tree) (out : path) : list path :=
  if is_folder t (out ++ [RECORDS_DIR]) then List.filter (λ p, ends_with JSON_SUFFIX (name_of p)) (entries_below t (out ++ [RECORDS_DIR])) else [].

(** ** The canaries of a run *)

Abbreviation sentences := (list (string * string)).
(** One name of one run file: kept under its own key when another file states
    another sentence. *)
Definition stem (p : path) : string := RunDocument.stem_of (name_of p).
Definition add_canary (p : path) (recorded : dict) (found : sentences) (name : string) : res sentences :=
  match dget recorded name with
  | VDict item =>
      match dget item "sentence" with
      | VStr (String _ _ as sentence) =>
          match assoc found name with
          | Some other => if String.eqb other sentence then Ok (dset found name sentence) else Ok (dset found (name +:+ ":" +:+ stem p) sentence)
          | None => Ok (dset found name sentence)
          end
      | _ => Err (ValueError (shown p +:+ ": key canaries." +:+ name +:+ ".sentence is absent or empty"))
      end
  | _ => Err (ValueError (shown p +:+ ": key canaries." +:+ name +:+ ".sentence is absent or empty"))
  end.
Definition add_canaries (t : tree) (found : sentences) (p : path) : res sentences :=
  data ← json_at t p;
  recorded ← get data "canaries";
  match recorded with
  | VDict recorded => foldM (add_canary p recorded) found CANARY_NAMES
  | _ => Err (ValueError (shown p +:+ ": key canaries is absent; the run was written by a runner that planted no canary"))
  end.
Definition read_canaries (t : tree) (files : list path) : res sentences := foldM (add_canaries t) [] files.
Definition planted_text (sentence : string) : string := sentence +:+ nl.
(** [foe_planting_failure], of what the run file holds. *)
Definition planting_fault (data : value) : res (option string) :=
  canaries ← item data "canaries"; canary ← item canaries FOE_CONFIG_CANARY;
  planted ← get canary PLANTED_KEY;
  let key := "canaries." +:+ FOE_CONFIG_CANARY +:+ "." +:+ PLANTED_KEY in
  match (match planted with VDict d => match dget d "sha256", dget d "path" with VStr digest, VStr p => Some (digest, p) | _, _ => None end | _ => None end) with
  | None => Ok (Some ("key " +:+ key +:+ " is absent or lacks sha256 and path, so nothing shows that the foe canary was planted"))
  | Some (digest, p) =>
      stated ← get canary "path";
      if negb (py_eq (VStr p) stated) then
        Ok (Some ("key " +:+ key +:+ ".path is " +:+ str_repr p +:+ ", and canaries." +:+ FOE_CONFIG_CANARY +:+ ".path is " +:+ py_repr stated))
      else
        sentence ← item canary "sentence";
        match sentence with
        | VStr s =>
            let expected := sha256_hex (planted_text s) in
            Ok (if String.eqb digest expected then None
                else Some ("key " +:+ key +:+ ".sha256 is " +:+ digest +:+ ", and the recorded sentence followed by a newline digests to " +:+ expected
                           +:+ ", so the planted file did not hold the sentence"))
        | v => Err (TypeError ("can only concatenate " +:+ type_name v +:+ " (not " +:+ str_repr "str" +:+ ") to " +:+ type_name v))
        end
  end.
Definition foe_planting_failure (t : tree) (p : path) : res (option string) := data ← json_at t p; planting_fault data.

(** ** Searching what was recorded *)

(** [read_json_lines], of a file's bytes: the objects with their line numbers,
    and the lines that are none. *)
Definition read_line (p : string) (st : list (nat * dict) * list string) (nl_ : nat * string) : list (nat * dict) * list string :=
  let here := p +:+ ":" +:+ nat_str (S nl_.1) in
  if String.eqb (str_strip nl_.2) "" then st else
  match loads_str nl_.2 with
  | inr _ => (st.1, st.2 ++ [here +:+ " is not JSON"])
  | inl (VDict d) => (st.1 ++ [(S nl_.1, d)], st.2)
  | inl _ => (st.1, st.2 ++ [here +:+ " is not a JSON object"])
  end.
Definition lines_in (bytes : string) : list string := str_splitlines (universal_newlines (decode_replace bytes)).
Definition read_json_lines (p bytes : string) : list (nat * dict) * list string := fold_left (read_line p) (enumerate (lines_in bytes)) ([], []).

Abbreviation hits := (list (string * list string)).
Definition no_hits (s : sentences) : hits := map (λ kv, (kv.1, [])) s.
(** [if sentence in text: hits[name].append(where)], of every sentence. *)
Definition add_hits (s : sentences) (text where_ : string) (h : hits) : hits :=
  map (λ kv, (kv.1, if match assoc s kv.1 with Some sentence => occurs sentence text | None => false end then kv.2 ++ [where_] else kv.2)) h.
Definition is_request (d : dict) : bool := match dget d "type" with VStr k => elem_str k REQUEST_EVENTS | _ => false end.
Definition filled (v : value) : bool := match v with VDict (_ :: _) => true | _ => false end.

(** What the search of a foe attempt has found. *)
Record FoeSearch : Type := { foe_hits : hits; requests : nat; logs : nat; malformed : list string }.
Definition search_event (s : sentences) (log : string) (st : FoeSearch) (event : dict) : FoeSearch :=
  if negb (is_request event) then st else
  let here := log +:+ " seq " +:+ py_str (dget event "seq") +:+ " (" +:+ py_str (dget event "type") +:+ ")" in
  let well := filled (dget event "data") in
  {| foe_hits := add_hits s (dumps_default (dget event "data")) here (foe_hits st);
     requests := if well then S (requests st) else requests st; logs := logs st;
     malformed := if well then malformed st else malformed st ++ [here +:+ " carries no request: its data is not a nonempty object"] |}.
Definition search_log (s : sentences) (t : tree) (st : FoeSearch) (log : path) : res FoeSearch :=
  bytes ← content_at t log;
  let read := read_json_lines (shown log) bytes in
  Ok (fold_left (search_event s (shown log)) (map snd read.1)
        {| foe_hits := foe_hits st; requests := requests st; logs := S (logs st); malformed := malformed st ++ read.2 |}).
Definition episode_logs (t : tree) (episode : path) : list path := List.filter (λ p, String.eqb (name_of p) LOG_NAME) (entries_below t episode).
Definition search_foe (t : tree) (episode : path) (s : sentences) : res FoeSearch :=
  foldM (search_log s t) {| foe_hits := no_hits s; requests := 0; logs := 0; malformed := [] |} (episode_logs t episode).

(** What the search of a Codex attempt has found. *)
Record CodexSearch : Type := { codex_hits : hits; searched : nat; request_records : list (string * nat); problems : list string }.
Definition bump (k : string) (l : list (string * nat)) : list (string * nat) := map (λ kv, (kv.1, if String.eqb kv.1 k then S kv.2 else kv.2)) l.
Definition search_line (s : sentences) (p : string) (h : hits) (nl_ : nat * string) : hits := add_hits s nl_.2 (p +:+ ":" +:+ nat_str (S nl_.1)) h.
Definition count_record (p : string) (st : list (string * nat) * list string) (nv : nat * dict) : list (string * nat) * list string :=
  match dget nv.2 "type" with
  | VStr k =>
      if negb (elem_str k CODEX_REQUEST_RECORDS) then st
      else if filled (dget nv.2 "payload") then (bump k st.1, st.2)
      else (st.1, st.2 ++ [p +:+ ":" +:+ nat_str nv.1 +:+ " is a " +:+ k +:+ " record without a payload"])
  | _ => st
  end.
Definition search_file (s : sentences) (t : tree) (events : path) (st : CodexSearch) (p : path) : CodexSearch :=
  let problem m := {| codex_hits := codex_hits st; searched := searched st; request_records := request_records st; problems := problems st ++ [m] |} in
  if negb (is_file t p) then problem (shown p +:+ " is missing") else
  match read_text (content_at t p) with
  | Err e => problem (shown p +:+ " is unreadable: " +:+ exn_str e)
  | Ok text =>
      let found := fold_left (search_line s (shown p)) (enumerate (str_splitlines text)) (codex_hits st) in
      let read := read_json_lines (shown p) (match content_at t p with Ok c => c | Err _ => "" end) in
      let st' := (request_records st, problems st ++ read.2) in
      let counted := if bool_decide (p = events) then st' else fold_left (count_record (shown p)) read.1 st' in
      {| codex_hits := found; searched := S (searched st); request_records := counted.1; problems := counted.2 |}
  end.
Definition search_codex (t : tree) (session_files : list path) (events : path) (s : sentences) : CodexSearch :=
  fold_left (search_file s t events) (session_files ++ [events])
    {| codex_hits := no_hits s; searched := 0; request_records := map (λ k, (k, 0)) CODEX_REQUEST_RECORDS; problems := [] |}.
Definition colon : ascii := ":"%char.
Definition codex_canary_planted (locate : value → res path) (t : tree) (canary_file : value) (s : sentences) : res bool :=
  match canary_file with
  | VStr _ =>
      p ← locate canary_file;
      if negb (is_file t p) then Ok false else
      match read_text (content_at t p) with
      | Ok text => Ok (existsb (λ kv, String.eqb (hd "" (split_on colon kv.1)) CODEX_CONFIG_CANARY && occurs kv.2 text) s)
      | Err (OSError _) | Err (ValueError _) => Ok false
      | Err e => Err e
      end
  | _ => Ok false
  end.

(** ** One attempt *)

Record Result : Type := {
  attempt : string; harness_ : value; launched : bool; searched_what : string; attempt_hits : hits; planted : option bool; qualification : list string;
}.
Definition option_bool (b : option bool) : value := match b with Some b => VBool b | None => VNone end.
Definition hits_value (h : hits) : value := VDict (map (λ kv, (kv.1, strs kv.2)) h).
Definition Result_to_dict (r : Result) : dict :=
  [("attempt", VStr (attempt r)); ("harness", harness_ r); ("launched", VBool (launched r)); ("searched", VStr (searched_what r));
   ("hits", hits_value (attempt_hits r)); ("planted", option_bool (planted r)); ("qualification", strs (qualification r))].
Definition no_harness (label : string) (h : value) (s : sentences) (what : string) : Result :=
  {| attempt := label; harness_ := h; launched := false; searched_what := what; attempt_hits := no_hits s; planted := None; qualification := [] |}.
Definition model_calls_in (record : value) : res value := totals ← get record "totals"; get (py_or totals (VDict [])) "model_calls".
Definition when (c : bool) (rule : string) : list string := if c then [rule] else [].
Definition foe_rules (record arm_record : value) (found : FoeSearch) (model_calls present : value) (episode : value) : list string :=
  when (logs found =? 0) ("the episode directory " +:+ py_str episode +:+ " holds no " +:+ LOG_NAME +:+ ", so no request was recorded")
  ++ when (negb (logs found =? 0) && (requests found =? 0)) ("the episode logs hold no well-formed " +:+ join " or " REQUEST_EVENTS +:+ " event, so no request was recorded")
  ++ (match model_calls with
      | VInt n => when (negb (logs found =? 0) && negb (requests found =? 0) && (Z.of_nat (requests found) <? n)%Z)
                    ("the episode logs hold " +:+ nat_str (requests found) +:+ " " +:+ join " and " REQUEST_EVENTS +:+ " events, fewer than the " +:+ Z_str n
                     +:+ " totals.model_calls of the normalized trajectory")
      | v => ["the record's totals.model_calls is " +:+ py_repr v +:+ ", not an integer, so the recorded requests cannot be counted against the calls made"]
      end)
  ++ map (λ line, "episode log " +:+ line) (malformed found)
  ++ (match present with
      | VBool true => []
      | v => ["the record's " +:+ PRESENT_KEY +:+ " is " +:+ py_repr v +:+ ", so nothing shows the foe canary was in place when the attempt started"]
      end).
Definition codex_rules (session_files : list path) (found : CodexSearch) (model_calls : value) (planted_ : bool) (canary_file : value) : list string :=
  let total := foldr plus 0 (map snd (request_records found)) in
  let items := default 0 (assoc (request_records found) "response_item") in
  (match session_files with
   | [] => ["the arm record lists no session file, so no request was recorded"]
   | _ => when (total =? 0) ("no session file holds a " +:+ join " or " CODEX_REQUEST_RECORDS +:+ " record with a payload, so no request was recorded")
   end)
  ++ (match model_calls with
      | VInt n => when (Z.of_nat items <? n)%Z ("the session files hold " +:+ nat_str items +:+ " response_item records, fewer than the " +:+ Z_str n
                    +:+ " totals.model_calls of the normalized trajectory, and every call returns at least one")
      | _ => []
      end)
  ++ map (λ problem, "codex record file " +:+ problem) (problems found)
  ++ when (negb planted_) ("the codex canary file " +:+ py_str canary_file +:+ " is absent or does not hold the codex canary sentence, so the canary was not planted").
Definition label_in (record : value) : res string :=
  t ← item record "task"; n ← item t "name"; a ← item record "arm"; k ← item record "attempt";
  Ok (py_str n +:+ " / " +:+ py_str a +:+ " / " +:+ py_str k).
Definition examine_foe (locate : value → res path) (t : tree) (label : string) (h record arm_record : value) (s : sentences) : res Result :=
  episode ← item arm_record "episode_dir";
  at_ ← locate episode;
  found ← search_foe t at_ s;
  model_calls ← model_calls_in record;
  present ← get record PRESENT_KEY;
  Ok {| attempt := label; harness_ := h; launched := true;
        searched_what := nat_str (requests found) +:+ " request events in " +:+ nat_str (logs found) +:+ " episode logs";
        attempt_hits := foe_hits found; planted := None; qualification := foe_rules record arm_record found model_calls present episode |}.
Definition examine_codex (locate : value → res path) (t : tree) (label : string) (h record arm_record : value) (s : sentences) : res Result :=
  named ← get arm_record "session_files"; named ← py_iter (py_or named (VList []));
  session_files ← map_res locate named;
  events ← item arm_record "events"; events ← locate events;
  let found := search_codex t session_files events s in
  model_calls ← model_calls_in record;
  canary_file ← get arm_record "config_canary_file";
  planted_ ← codex_canary_planted locate t canary_file s;
  Ok {| attempt := label; harness_ := h; launched := true; searched_what := nat_str (searched found) +:+ " files: every session file and the event stream";
        attempt_hits := codex_hits found; planted := Some planted_; qualification := codex_rules session_files found model_calls planted_ canary_file |}.
Definition examine (locate : value → res path) (t : tree) (record : value) (s : sentences) : res Result :=
  label ← label_in record;
  h ← item record "harness";
  result ← get record "arm_result";
  arm_record ← get (py_or result (VDict [])) "record";
  not_applicable ← get record "not_applicable";
  if negb (is_none not_applicable) then Ok (no_harness label h s "nothing: the attempt was not applicable and never ran") else
  match arm_record with
  | VDict _ => if py_eq h (VStr "foe") then examine_foe locate t label h record arm_record s else examine_codex locate t label h record arm_record s
  | _ =>
      fault ← get record "infrastructure_error";
      Ok (no_harness label h s ("nothing: the arm did not launch (" +:+ py_str fault +:+ ")"))
  end.

(** ** The verdict *)

(** The path a record names, under a copy of the state root when one is given. *)
Definition locate_under (state_root : option string) (home : string) (v : value) : res path :=
  match v, state_root with
  | VStr s, Some root => Ok (path_parts (under_state_root s root home))
  | VStr s, None => Ok (path_parts s)
  | v, Some _ => Err (AttributeError ("'" +:+ type_name v +:+ "' object has no attribute 'startswith'"))
  | v, None => Err (TypeError ("expected str, bytes or os.PathLike object, not " +:+ type_name v))
  end.
Record Gate : Type := { run_sentences : sentences; planting : list (path * option string); results : list Result }.
Definition gate_read (locate : value → res path) (t : tree) (out : path) : res Gate :=
  s ← read_canaries t (run_files t out);
  faults ← map_res (λ p, r ← foe_planting_failure t p; Ok (p, r)) (run_files t out);
  results ← map_res (λ p, record ← json_at t p; examine locate t record s) (record_files t out);
  Ok {| run_sentences := s; planting := faults; results := results |}.
Definition launched_results (g : Gate) : list Result := List.filter launched (results g).
Definition planting_failures (g : Gate) : list (string * string) :=
  omap (λ pr : path * option string, (λ rule, ("run file " +:+ name_of pr.1, rule)) <$> pr.2) (planting g).
Definition gate_failures (g : Gate) : list (string * string) :=
  (match launched_results g with [] => [] | _ => planting_failures g end)
  ++ concat (map (λ r, map (λ rule, (attempt r, rule)) (qualification r)) (results g)).
Definition leaked (g : Gate) : nat := foldr plus 0 (map (λ r, foldr plus 0 (map (λ kv : string * list string, length kv.2) (attempt_hits r))) (results g)).
Definition verdict (g : Gate) : Z * string :=
  match leaked g with
  | S _ => (LEAKED, "leaked: " +:+ nat_str (leaked g) +:+ " recorded requests carry a canary")
  | 0 =>
      match launched_results g with
      | [] => (NO_RECORDS, "no records: no record launched a harness, so no request was recorded")
      | _ =>
          match gate_failures g with
          | [] => (ISOLATED, "isolated: every canary is absent from every recorded request, and every launched attempt's evidence qualifies")
          | l => (UNQUALIFIED, "unqualified: no recorded request carries a canary, and " +:+ nat_str (length l)
                               +:+ " qualification failures leave the absence unproven")
          end
      end
  end.
Definition result_document (document_ out_ : string) (g : Gate) : dict :=
  [("document", VStr document_); ("out", VStr out_); ("canaries", VDict (map (λ kv, (kv.1, VStr kv.2)) (run_sentences g)));
   ("results", VList (map (λ r, VDict (Result_to_dict r)) (results g))); ("leaked", VInt (Z.of_nat (leaked g)));
   ("unplanted", strs (omap (λ r, match planted r with Some false => Some (attempt r) | _ => None end) (results g)));
   ("qualification_failures", VList (map (λ ar : string * string, VDict [("attempt", VStr ar.1); ("rule", VStr ar.2)]) (gate_failures g)));
   ("status", VInt (verdict g).1); ("verdict", VStr (verdict g).2)].
Definition gate_caught (e : exn) : bool := match e with ValueError _ | KeyError _ | TypeError _ => true | _ => false end.
(** [main], of a document that loaded: the status. *)
Definition isolation_gate (state_root : option string) (home : string) (document_ : string) (out : path) : io Z :=
  t ← look id;
  match run_files t out, record_files t out with
  | [], _ | _, [] => mret NO_RECORDS
  | _, _ =>
      match gate_read (locate_under state_root home) t out with
      | Err e => if gate_caught e then mret MALFORMED else raise e
      | Ok g =>
          let root := default (expand_home RECORDED_STATE_ROOT home) state_root in
          write_json (out ++ RESULT_FILE) (VDict (result_document document_ (recorded_form (shown out) root) g));;
          mret (verdict g).1
      end
  end.

(** ** What an isolated run shows *)

Definition quiet (h : hits) : Prop := Forall (λ kv, kv.2 = []) h.
Definition absent (s : sentences) (text : string) : Prop := ∀ n x, assoc s n = Some x → occurs x text = false.
Lemma quiet_none s : quiet (no_hits s).
Proof. unfold quiet, no_hits. apply Forall_map, Forall_true. done. Qed.
Lemma add_hits_keys s text w h : keys (add_hits s text w h) = keys h.
Proof. unfold add_hits, keys. by rewrite map_map. Qed.
Lemma no_hits_keys s : keys (no_hits s) = keys s.
Proof. unfold no_hits, keys. by rewrite map_map. Qed.
Lemma add_hits_quiet s text w h : keys h = keys s → quiet (add_hits s text w h) → quiet h ∧ absent s text.
Proof.
  intros Hk Hq. unfold quiet, add_hits in Hq. rewrite Forall_map in Hq. split.
  - eapply Forall_impl; [exact Hq|]. intros [k l]. cbn. case_match; [by destruct l|done].
  - intros n x Hn. assert (Hin : n ∈ keys h) by (rewrite Hk; by eapply assoc_in_keys).
    apply list_elem_of_fmap in Hin as ([k l] & -> & Hin). rewrite Forall_forall in Hq. specialize (Hq _ Hin). cbn in *. rewrite Hn in Hq.
    destruct (occurs x text); [by destruct l|done].
Qed.

(** *** Lines *)

Definition objects_of (text : string) : list dict :=
  omap (λ line, if String.eqb (str_strip line) "" then None else match loads_str line with inl (VDict d) => Some d | _ => None end) (str_splitlines text).
Definition all_objects (text : string) : Prop :=
  ∀ line, line ∈ str_splitlines text → str_strip line ≠ "" → ∃ d, loads_str line = inl (VDict d).
Definition bytes_text (bytes : string) : string := universal_newlines (decode_replace bytes).
Lemma read_line_fold p l st : let st' := fold_left (read_line p) l st in
  ∃ bad, st'.2 = st.2 ++ bad ∧
    map snd st'.1 = map snd st.1 ++ omap (λ nl_, if String.eqb (str_strip nl_.2) "" then None else match loads_str nl_.2 with inl (VDict d) => Some d | _ => None end) l ∧
    (bad = [] → ∀ nl_, nl_ ∈ l → str_strip nl_.2 ≠ "" → ∃ d, loads_str nl_.2 = inl (VDict d)).
Proof.
  revert st. induction l as [|x l IH]; intros st; cbn [fold_left omap list_omap].
  - exists []. rewrite !app_nil_r. split_and!; [done|done|]. by intros _ ? ?%elem_of_nil.
  - destruct (IH (read_line p st x)) as (bad & H2 & H1 & Hb). cbv zeta in *. rewrite H2, H1. unfold read_line at 1 2.
    destruct (String.eqb_spec (str_strip x.2) "") as [E|E].
    { exists bad. split_and!; [done|done|]. intros Hbad y [->|Hy]%elem_of_cons; [done|by apply Hb]. }
    destruct (loads_str x.2) as [v|e] eqn:El.
    2: { eexists (_ :: bad). cbn [fst snd]. split_and!; [by rewrite <-app_assoc|done|done]. }
    destruct v as [| | | | | |d]; try (eexists (_ :: bad); cbn [fst snd]; split_and!; [by rewrite <-app_assoc|done|done]).
    exists bad. split_and!; [done| |].
    + cbn [fst]. rewrite map_app, <-app_assoc. done.
    + intros Hbad y [->|Hy]%elem_of_cons; [by exists d|by apply Hb].
Qed.
Lemma omap_enumerate {A B} (f : A → option B) l i : omap (λ nx : nat * A, f nx.2) (enumerate_from i l) = omap f l.
Proof. revert i. induction l as [|x l IH]; intros i; [done|]. cbn. by rewrite IH. Qed.
Lemma elem_enumerate {A} (x : A) l i : x ∈ l → ∃ n, (n, x) ∈ enumerate_from i l.
Proof.
  revert i. induction l as [|y l IH]; intros i; [by intros ?%elem_of_nil|]. intros [->|H]%elem_of_cons; [exists i; left|].
  destruct (IH (S i) H) as [n Hn]. exists n. by right.
Qed.
Lemma read_lines_spec p bytes : let r := read_json_lines p bytes in
  map snd r.1 = objects_of (bytes_text bytes) ∧ (r.2 = [] → all_objects (bytes_text bytes)).
Proof.
  unfold read_json_lines, lines_in. cbv zeta. destruct (read_line_fold p (enumerate (str_splitlines (universal_newlines (decode_replace bytes)))) ([], [])) as (bad & H2 & H1 & Hb).
  cbv zeta in *. split.
  - rewrite H1. cbn [map fst app]. unfold objects_of, bytes_text, enumerate.
    exact (omap_enumerate (λ line, if String.eqb (str_strip line) "" then None else match loads_str line with inl (VDict d) => Some d | _ => None end) _ 0).
  - rewrite H2. cbn [snd app]. intros -> line Hline Hne. destruct (elem_enumerate line _ 0 Hline) as [n Hn]. exact (Hb eq_refl (n, line) Hn Hne).
Qed.

(** *** A foe attempt *)

Definition clean_request (s : sentences) (d : dict) : Prop :=
  is_request d = true → filled (dget d "data") = true ∧ absent s (dumps_default (dget d "data")).
Definition requests_in (text : string) : nat := length (List.filter is_request (objects_of text)).
(** A log in which every line is an object and every request, which carries
    something, none of the sentences. *)
Definition clean_log (t : tree) (s : sentences) (log : path) : Prop :=
  ∃ bytes, content_at t log = Ok bytes ∧ all_objects (bytes_text bytes) ∧ Forall (clean_request s) (objects_of (bytes_text bytes)).
Definition requests_at (t : tree) (log : path) : nat := match content_at t log with Ok bytes => requests_in (bytes_text bytes) | Err _ => 0 end.

Lemma search_events s log evs st : keys (foe_hits st) = keys s → let st' := fold_left (search_event s log) evs st in
  keys (foe_hits st') = keys s ∧ logs st' = logs st ∧
  (quiet (foe_hits st') → malformed st' = [] →
   quiet (foe_hits st) ∧ malformed st = [] ∧ Forall (clean_request s) evs ∧ requests st' = requests st + length (List.filter is_request evs)).
Proof.
  revert st. induction evs as [|d evs IH]; intros st Hk; cbn [fold_left List.filter].
  - split_and!; [done|done|]. intros. cbn [length]. rewrite Nat.add_0_r. by repeat split.
  - remember (search_event s log st d) as st1 eqn:E1. unfold search_event in E1. destruct (is_request d) eqn:Ed; cbn [negb] in E1; cbv zeta in E1.
    + destruct (IH st1) as (H1 & H2 & H3); [subst st1; cbn [foe_hits]; by rewrite add_hits_keys|].
      cbv zeta in *. split_and!; [done|by rewrite H2, E1|]. intros Hq Hm. destruct (H3 Hq Hm) as (Q1 & M1 & F1 & R1). subst st1. cbn [foe_hits malformed requests] in *.
      apply add_hits_quiet in Q1 as [Q1 A1]; [|done]. destruct (filled (dget d "data")) eqn:Ef; [|by destruct (malformed st)].
      split_and!; [done|done|constructor; [done|done]|]. rewrite R1. cbn [length]. lia.
    + subst st1. destruct (IH st Hk) as (H1 & H2 & H3). split_and!; [done|done|]. intros Hq Hm. destruct (H3 Hq Hm) as (Q1 & M1 & F1 & R1).
      split_and!; [done|done|constructor; [by intros E; rewrite E in Ed|done]|exact R1].
Qed.
Lemma search_logs s t l st st' : keys (foe_hits st) = keys s → foldM (search_log s t) st l = Ok st' → quiet (foe_hits st') → malformed st' = [] →
  quiet (foe_hits st) ∧ malformed st = [] ∧ Forall (clean_log t s) l ∧ logs st' = logs st + length l ∧
  requests st' = requests st + foldr plus 0 (map (requests_at t) l).
Proof.
  revert st. induction l as [|log l IH]; intros st Hk H Hq Hm; cbn [foldM] in H.
  - injection H as ->. cbn. rewrite !Nat.add_0_r. by repeat split.
  - apply res_bind_ok in H as (st1 & H1 & H). unfold search_log in H1. apply res_bind_ok in H1 as (bytes & Hb & [= E1]).
    match type of E1 with fold_left _ _ ?x = _ => set (st0 := x) in E1 end.
    destruct (search_events s (shown log) (map snd (read_json_lines (shown log) bytes).1) st0 Hk) as (K1 & L1 & S1). cbv zeta in *. rewrite E1 in K1, L1, S1.
    destruct (IH st1 K1 H Hq Hm) as (Q1 & M1 & F1 & L2 & R2). destruct (S1 Q1 M1) as (Q0 & M0 & Fe & R1). cbn [malformed foe_hits requests logs st0] in *.
    apply app_eq_nil in M0 as [M0 Mb]. destruct (read_lines_spec (shown log) bytes) as [Ho Ha]. rewrite Ho in Fe, R1.
    split_and!; [done|done|constructor; [exists bytes; by split_and!; [|apply Ha|]|done]|cbn; lia|].
    cbn [map foldr]. unfold requests_at at 1. rewrite Hb. unfold requests_in. lia.
Qed.
Lemma search_foe_spec t episode s found : search_foe t episode s = Ok found → quiet (foe_hits found) → malformed found = [] →
  Forall (clean_log t s) (episode_logs t episode) ∧ logs found = length (episode_logs t episode) ∧
  requests found = foldr plus 0 (map (requests_at t) (episode_logs t episode)).
Proof. intros H Hq Hm. apply search_logs in H as (_ & _ & F & L & R); [done|apply no_hits_keys|done|done]. Qed.

(** *** A Codex attempt *)

Definition is_codex_request (d : dict) : bool := match dget d "type" with VStr k => elem_str k CODEX_REQUEST_RECORDS | _ => false end.
Definition is_item (d : dict) : bool := match dget d "type" with VStr k => String.eqb k "response_item" | _ => false end.
(** A file that can be read, of objects line by line, none of which holds a
    sentence. *)
Definition clean_file (t : tree) (s : sentences) (p : path) : Prop :=
  ∃ bytes text, content_at t p = Ok bytes ∧ read_text (Ok bytes) = Ok text ∧ Forall (absent s) (str_splitlines text) ∧ all_objects (bytes_text bytes).
Definition objects_at (t : tree) (p : path) : list dict := match content_at t p with Ok bytes => objects_of (bytes_text bytes) | Err _ => [] end.
Definition items_at (t : tree) (p : path) : nat := length (List.filter is_item (objects_at t p)).

Lemma search_lines s p l h : keys h = keys s → let h' := fold_left (search_line s p) l h in
  keys h' = keys s ∧ (quiet h' → quiet h ∧ Forall (λ nl_ : nat * string, absent s nl_.2) l).
Proof.
  revert h. induction l as [|x l IH]; intros h Hk; cbn [fold_left]; [done|]. destruct (IH (search_line s p h x)) as [H1 H2]; [unfold search_line; by rewrite add_hits_keys|].
  cbv zeta in *. split; [done|]. intros Hq. destruct (H2 Hq) as [Q F]. apply add_hits_quiet in Q as [Q A]; [|done]. split; [done|by constructor].
Qed.
Lemma assoc_bump k l j : assoc (bump k l) j = (λ n, if String.eqb j k then S n else n) <$> assoc l j.
Proof.
  induction l as [|[i n] l IH]; [done|]. unfold bump in *. cbn [map assoc fst snd]. destruct (String.eqb_spec i j) as [->|]; [done|exact IH].
Qed.
Lemma count_records p l st n : assoc st.1 "response_item" = Some n → let st' := fold_left (count_record p) l st in
  ∃ bad, st'.2 = st.2 ++ bad ∧ assoc st'.1 "response_item" = Some (n + length (List.filter (λ d, is_item d && filled (dget d "payload")) (map snd l))) ∧
    (bad = [] → ∀ nv, nv ∈ l → is_codex_request nv.2 = true → filled (dget nv.2 "payload") = true).
Proof.
  revert st n. induction l as [|nv l IH]; intros st n Hn; cbn [fold_left map List.filter].
  - exists []. rewrite app_nil_r. cbn [length]. rewrite Nat.add_0_r. split_and!; [done|done|]. by intros _ ? ?%elem_of_nil.
  - remember (count_record p st nv) as st1 eqn:E1. unfold count_record in E1. unfold is_item at 1. destruct (dget nv.2 "type") as [| | | |k| |] eqn:Ek;
      try (subst st1; destruct (IH st n Hn) as (bad & B & I & F); exists bad; split_and!; [done|done|]; intros Hb y [->|Hy]%elem_of_cons; [unfold is_codex_request; by rewrite Ek|by apply F]).
    destruct (elem_str k CODEX_REQUEST_RECORDS) eqn:Ec; cbn [negb] in E1.
    2: { subst st1. destruct (IH st n Hn) as (bad & B & I & F). exists bad. replace (String.eqb k "response_item") with false.
         - split_and!; [done|done|]. intros Hb y [->|Hy]%elem_of_cons; [unfold is_codex_request; by rewrite Ek, Ec|by apply F].
         - symmetry. apply String.eqb_neq. intros ->. by vm_compute in Ec. }
    destruct (filled (dget nv.2 "payload")) eqn:Ef; subst st1.
    + destruct (IH (bump k st.1, st.2) (if String.eqb k "response_item" then S n else n)) as (bad & B & I & F).
      { cbn [fst]. rewrite assoc_bump, Hn. cbn. by rewrite String.eqb_sym. }
      exists bad. split_and!; [done| |intros Hb y [->|Hy]%elem_of_cons; [done|by apply F]]. rewrite I. f_equal. rewrite andb_true_r.
      destruct (String.eqb k "response_item"); cbn [length]; lia.
    + destruct (IH (st.1, st.2 ++ [p +:+ ":" +:+ nat_str nv.1 +:+ " is a " +:+ k +:+ " record without a payload"]) n Hn) as (bad & B & I & F).
      eexists (_ :: bad). split_and!; [rewrite B; cbn [snd]; by rewrite <-app_assoc|by rewrite andb_false_r|done].
Qed.
Definition filled_requests (t : tree) (p : path) : Prop := ∀ d, d ∈ objects_at t p → is_codex_request d = true → filled (dget d "payload") = true.
Definition session_items (t : tree) (events p : path) : nat := if bool_decide (p = events) then 0 else items_at t p.
Lemma filter_both_length {A} (f g : A → bool) l : length (List.filter (λ x, f x && g x) l) ≤ length (List.filter f l).
Proof. induction l as [|x l IH]; [done|]. cbn. destruct (f x), (g x); cbn; lia. Qed.
Lemma search_files s t events l st n : keys (codex_hits st) = keys s → assoc (request_records st) "response_item" = Some n →
  let st' := fold_left (search_file s t events) l st in
  quiet (codex_hits st') → problems st' = [] →
  quiet (codex_hits st) ∧ problems st = [] ∧ Forall (clean_file t s) l ∧ Forall (λ p, p ≠ events → filled_requests t p) l ∧
  ∃ n', assoc (request_records st') "response_item" = Some n' ∧ n' ≤ n + foldr plus 0 (map (session_items t events) l).
Proof.
  revert st n. induction l as [|p l IH]; intros st n Hk Hn; cbn [fold_left].
  - intros Hq Hp. split_and!; [done|done|done|done|]. exists n. split; [done|lia].
  - intros Hq Hp. remember (search_file s t events st p) as st1 eqn:E1. unfold search_file in E1.
    assert (Hbad : ∀ m, st1 = {| codex_hits := codex_hits st; searched := searched st; request_records := request_records st; problems := problems st ++ [m] |} → False).
    { intros m E. destruct (IH st1 n) as (_ & Hp0 & _); [by rewrite E|by rewrite E|done|done|]. rewrite E in Hp0. cbn [problems] in Hp0. by destruct (problems st). }
    destruct (is_file t p); cbn [negb] in E1; [|by destruct (Hbad _ E1)].
    destruct (read_text (content_at t p)) as [text|e] eqn:Et; [|by destruct (Hbad _ E1)].
    destruct (content_at t p) as [bytes|e] eqn:Ec; [|done]. cbv zeta in E1.
    destruct (read_lines_spec (shown p) bytes) as [Ho Ha].
    destruct (search_lines s (shown p) (enumerate (str_splitlines text)) (codex_hits st) Hk) as [K1 Q1]. cbv zeta in K1, Q1.
    assert (Hlines : Forall (λ nl_ : nat * string, absent s nl_.2) (enumerate (str_splitlines text)) → Forall (absent s) (str_splitlines text)).
    { intros F. apply Forall_forall. intros line Hl. destruct (elem_enumerate line _ 0 Hl) as [k Hkl]. rewrite Forall_forall in F. exact (F _ Hkl). }
    destruct (count_records (shown p) (read_json_lines (shown p) bytes).1 (request_records st, problems st ++ (read_json_lines (shown p) bytes).2) n Hn) as (bad & B & I & F).
    cbv zeta in B, I, F. rewrite Ho in I. cbn [map foldr].
    assert (Hsi : session_items t events p = if bool_decide (p = events) then 0 else length (List.filter is_item (objects_of (bytes_text bytes)))) by (unfold session_items, items_at, objects_at; by rewrite Ec).
    rewrite Hsi. clear Hsi.
    pose proof (filter_both_length is_item (λ d, filled (dget d "payload")) (objects_of (bytes_text bytes))) as Hle.
    case_bool_decide as Epe.
    + destruct (IH st1 n) as (Q2 & P2 & F2 & G2 & n' & N2 & L2); [by rewrite E1|by rewrite E1|done|done|]. rewrite E1 in Q2, P2. cbn [codex_hits problems snd] in Q2, P2. apply app_eq_nil in P2 as [P2 Pb].
      apply Q1 in Q2 as [Q2 A2]. split_and!; [done|done|constructor; [exists bytes, text; split_and!; [done|done|by apply Hlines|by apply Ha]|done]|by constructor|].
      exists n'. split; [done|lia].
    + eapply (IH st1) in Hp as (Q2 & P2 & F2 & G2 & n' & N2 & L2); [|by rewrite E1|rewrite E1; exact I|done].
      rewrite E1 in Q2, P2. cbn [codex_hits problems] in Q2, P2. rewrite B in P2. cbn [snd] in P2. apply app_eq_nil in P2 as [P2 Hbad']. apply app_eq_nil in P2 as [P2 Pb].
      apply Q1 in Q2 as [Q2 A2]. split_and!; [done|done|constructor; [exists bytes, text; split_and!; [done|done|by apply Hlines|by apply Ha]|done]|constructor; [|done]|].
      * intros _ d Hd Hr. unfold objects_at in Hd. rewrite Ec in Hd. rewrite <-Ho in Hd. apply list_elem_of_fmap in Hd as (nv & -> & Hnv). by apply (F Hbad' nv Hnv).
      * exists n'. split; [done|lia].
Qed.

(** The request records with a payload that the session files hold. *)
Definition is_filled_record (d : dict) : bool := is_codex_request d && filled (dget d "payload").
Definition session_records (t : tree) (events p : path) : nat :=
  if bool_decide (p = events) then 0 else length (List.filter is_filled_record (objects_at t p)).
Definition record_total (l : list (string * nat)) : nat := foldr plus 0 (map snd l).

Lemma bump_total k l : keys l = CODEX_REQUEST_RECORDS → elem_str k CODEX_REQUEST_RECORDS = true →
  keys (bump k l) = CODEX_REQUEST_RECORDS ∧ record_total (bump k l) = S (record_total l).
Proof.
  destruct l as [|[a n] [|[b m] [|]]]; intros Hl Hk; try discriminate Hl. injection Hl as -> ->.
  assert (k = "turn_context" ∨ k = "response_item") as [-> | ->]; [|split; [done|cbn; lia]..].
  unfold elem_str in Hk. apply existsb_exists in Hk as (x & Hx & Hkx%String.eqb_eq). subst x.
  destruct Hx as [<-|[<-|[]]]; [by left|by right].
Qed.
Lemma count_records_total p l st : keys st.1 = CODEX_REQUEST_RECORDS → let st' := fold_left (count_record p) l st in
  keys st'.1 = CODEX_REQUEST_RECORDS ∧ record_total st'.1 = record_total st.1 + length (List.filter is_filled_record (map snd l)).
Proof.
  revert st. induction l as [|nv l IH]; intros st Hk; cbn [fold_left map List.filter]; [cbn [length]; split; [done|lia]|].
  remember (count_record p st nv) as st1 eqn:E1.
  assert (keys st1.1 = CODEX_REQUEST_RECORDS ∧ record_total st1.1 = record_total st.1 + (if is_filled_record nv.2 then 1 else 0)) as [Hk1 Ht1].
  { subst st1. unfold count_record, is_filled_record, is_codex_request. destruct (dget nv.2 "type") as [| | | |k| |]; try (split; [done|cbn [andb]; lia]).
    destruct (elem_str k CODEX_REQUEST_RECORDS) eqn:Ek; cbn [negb andb]; [|split; [done|lia]].
    destruct (filled (dget nv.2 "payload")); [|split; [done|cbn [fst]; lia]]. destruct (bump_total k st.1 Hk Ek) as [H1 H2]. split; [done|cbn [fst]; lia]. }
  destruct (IH st1 Hk1) as [H1 H2]. cbv zeta in *. split; [done|]. rewrite H2, Ht1. destruct (is_filled_record nv.2); cbn [length]; lia.
Qed.
Lemma search_files_total s t events l st : keys (request_records st) = CODEX_REQUEST_RECORDS →
  record_total (request_records (fold_left (search_file s t events) l st)) ≤ record_total (request_records st) + foldr plus 0 (map (session_records t events) l).
Proof.
  revert st. induction l as [|p l IH]; intros st Hk; cbn [fold_left map foldr]; [lia|].
  assert (keys (request_records (search_file s t events st p)) = CODEX_REQUEST_RECORDS ∧
    record_total (request_records (search_file s t events st p)) ≤ record_total (request_records st) + session_records t events p) as [Hk1 Ht1].
  { unfold search_file. destruct (is_file t p); cbn [negb request_records]; [|split; [done|lia]].
    destruct (read_text (content_at t p)) as [text|e] eqn:Et; [|split; [done|cbn [request_records]; lia]]. cbv zeta. cbn [request_records].
    unfold session_records. case_bool_decide; [split; [done|cbn [fst]; lia]|]. unfold objects_at. destruct (content_at t p) as [bytes|]; [|done].
    match goal with |- context [fold_left (count_record ?q) ?r ?x] => destruct (count_records_total q r x Hk) as [H1 H2] end.
    cbv zeta in *. split; [exact H1|]. rewrite H2. destruct (read_lines_spec (shown p) bytes) as [-> _]. cbn [fst]. lia. }
  specialize (IH _ Hk1). lia.
Qed.

(** *** Every attempt that launched *)

Section shown_isolated.
Context (locate : value → res path) (t : tree).
Definition total_requests (episode : path) : nat := foldr plus 0 (map (requests_at t) (episode_logs t episode)).
Definition total_items (events : path) (session_files : list path) : nat := foldr plus 0 (map (session_items t events) session_files).
Definition total_records (events : path) (session_files : list path) : nat := foldr plus 0 (map (session_records t events) session_files).
(** Of a foe attempt: every line of its logs is an object; the recorded request
    events (headers and model requests together) are at least one and at least as
    many as the model calls, each carries data, and none holds a sentence; and the
    canary was in place. *)
Definition foe_shown (s : sentences) (record arm_record : value) : Prop :=
  ∃ episode at_ n, item arm_record "episode_dir" = Ok episode ∧ locate episode = Ok at_ ∧ Forall (clean_log t s) (episode_logs t at_) ∧
    0 < total_requests at_ ∧ model_calls_in record = Ok (VInt n) ∧ (n ≤ Z.of_nat (total_requests at_))%Z ∧ get record PRESENT_KEY = Ok (VBool true).
(** Of a Codex attempt: every line of its session files and of its event stream
    is an object and holds no sentence; the session files hold at least one
    request record, each has a payload, and their response items are at least as
    many as the model calls where the totals count those; and the canary was
    planted. *)
Definition codex_shown (s : sentences) (record arm_record : value) : Prop :=
  ∃ session_files events canary_file, session_files ≠ [] ∧ Forall (clean_file t s) (session_files ++ [events]) ∧
    Forall (λ p, p ≠ events → filled_requests t p) session_files ∧
    0 < total_records events session_files ∧
    (∃ named names, get arm_record "session_files" = Ok named ∧ py_iter (py_or named (VList [])) = Ok names ∧ map_res locate names = Ok session_files) ∧
    (∃ named, item arm_record "events" = Ok named ∧ locate named = Ok events) ∧
    (∀ n, model_calls_in record = Ok (VInt n) → (n ≤ Z.of_nat (total_items events session_files))%Z) ∧
    get arm_record "config_canary_file" = Ok canary_file ∧ codex_canary_planted locate t canary_file s = Ok true.
Definition arm_record_of (record : value) : res value := result ← get record "arm_result"; get (py_or result (VDict [])) "record".
Definition isolation_shown (s : sentences) (record : value) : Prop :=
  ∃ h arm_record, item record "harness" = Ok h ∧ arm_record_of record = Ok arm_record ∧
    if py_eq h (VStr "foe") then foe_shown s record arm_record else codex_shown s record arm_record.

Lemma when_nil c rule : when c rule = [] → c = false.
Proof. by destruct c. Qed.
Lemma examine_foe_shown label h record arm_record s r : examine_foe locate t label h record arm_record s = Ok r →
  quiet (attempt_hits r) → qualification r = [] → foe_shown s record arm_record.
Proof.
  unfold examine_foe. intros (episode & He & (at_ & Ha & (found & Hf & (calls & Hc & (present & Hp & [= <-])%res_bind_ok)%res_bind_ok)%res_bind_ok)%res_bind_ok)%res_bind_ok.
  cbn [attempt_hits qualification]. intros Hq Hr. unfold foe_rules in Hr. repeat (apply app_eq_nil in Hr as [? Hr]).
  match goal with H : map _ (malformed found) = [] |- _ => apply map_eq_nil in H as Hm end.
  destruct (search_foe_spec _ _ _ _ Hf Hq Hm) as (F & L & R).
  repeat match goal with H : when _ _ = [] |- _ => apply when_nil in H end.
  destruct calls as [| |n| | | |]; try done. destruct present as [|[]| | | | |]; try done. apply when_nil in H1.
  destruct (Nat.eqb_spec (logs found) 0); [done|]. cbn [negb andb] in *. destruct (Nat.eqb_spec (requests found) 0); [done|]. cbn [negb andb] in *. apply Z.ltb_ge in H1.
  exists episode, at_, n. unfold total_requests. rewrite <-R. split_and!; try done. lia.
Qed.
Lemma examine_codex_shown label h record arm_record s r : examine_codex locate t label h record arm_record s = Ok r →
  quiet (attempt_hits r) → qualification r = [] → codex_shown s record arm_record.
Proof.
  unfold examine_codex. intros (named & Hn & (names & Hi & (sessions & Hs & (evn & He & (events & Hev & (calls & Hc & (cf & Hcf & (pl & Hpl & [= <-])%res_bind_ok)%res_bind_ok)%res_bind_ok)%res_bind_ok)%res_bind_ok)%res_bind_ok)%res_bind_ok)%res_bind_ok.
  cbn [attempt_hits qualification]. intros Hq Hr. unfold codex_rules in Hr. apply app_eq_nil in Hr as [H1 Hr]. apply app_eq_nil in Hr as [H2 Hr]. apply app_eq_nil in Hr as [H3 H4].
  apply map_eq_nil in H3. apply when_nil, negb_false_iff in H4 as ->.
  destruct (search_files s t events (sessions ++ [events]) {| codex_hits := no_hits s; searched := 0; request_records := map (λ k, (k, 0)) CODEX_REQUEST_RECORDS; problems := [] |} 0
    (no_hits_keys s) eq_refl Hq H3) as (_ & _ & F & G & n' & N & Hle). fold (search_codex t sessions events s) in N.
  apply Forall_app in G as [G _]. rewrite map_app, foldr_app in Hle. cbn [map foldr] in Hle.
  assert (Hz : session_items t events events = 0) by (unfold session_items; by rewrite bool_decide_eq_true_2). rewrite Hz in Hle.
  assert (Hne : sessions ≠ []) by (intros ->; discriminate H1).
  assert (Hpos : 0 < total_records events sessions).
  { pose proof (search_files_total s t events (sessions ++ [events]) {| codex_hits := no_hits s; searched := 0; request_records := map (λ k, (k, 0)) CODEX_REQUEST_RECORDS; problems := [] |} eq_refl) as Ht.
    fold (search_codex t sessions events s) in Ht. rewrite map_app, foldr_app in Ht. cbn [map foldr request_records] in Ht.
    assert (Hz' : session_records t events events = 0) by (unfold session_records; by rewrite bool_decide_eq_true_2). rewrite Hz' in Ht.
    destruct sessions as [|x l]; [done|]. apply when_nil, Nat.eqb_neq in H1. change (record_total (request_records (search_codex t (x :: l) events s)) ≠ 0) in H1.
    unfold total_records. change (record_total (map (λ k, (k, 0)) CODEX_REQUEST_RECORDS)) with 0 in Ht.
    apply Nat.neq_0_lt_0. intros H0. apply H1, Nat.le_0_r. etransitivity; [exact Ht|]. by rewrite Nat.add_0_r, H0. }
  exists sessions, events, cf. split_and!; [done|done|done|done|by exists named, names|by exists evn| |done|done].
  intros n Hcn. rewrite Hc in Hcn. injection Hcn as ->. apply when_nil, Z.ltb_ge in H2. rewrite N in H2. cbn [default from_option id] in H2.
  unfold total_items. cbn in Hle. unfold id in H2. lia.
Qed.
Lemma examine_shown record s r : examine locate t record s = Ok r → launched r = true → quiet (attempt_hits r) → qualification r = [] → isolation_shown s record.
Proof.
  unfold examine. intros (label & _ & (h & Hh & (result & Hres & (arm & Harm & (na & _ & H)%res_bind_ok)%res_bind_ok)%res_bind_ok)%res_bind_ok)%res_bind_ok Hl Hq Hr.
  destruct (negb (is_none na)); [by injection H as <-|].
  assert (Hrec : arm_record_of record = Ok arm) by (unfold arm_record_of; rewrite Hres; exact Harm).
  exists h, arm. split; [done|]. split; [done|]. destruct arm as [| | | | | |d]; try (apply res_bind_ok in H as (ft & _ & [= <-]); done).
  destruct (py_eq h (VStr "foe")); [exact (examine_foe_shown label h record _ s r H Hq Hr)|exact (examine_codex_shown label h record _ s r H Hq Hr)].
Qed.
End shown_isolated.

Lemma sum_zero l : foldr plus 0 l = 0 → Forall (λ n, n = 0) l.
Proof. induction l as [|n l IH]; cbn; intros H; constructor; [lia|apply IH; lia]. Qed.

(** Claim C14. What a gate that reports a run as isolated has shown.  Some attempt
    launched; every run file is evidence that the foe canary was planted; and of
    every record whose attempt launched, what was recorded is read whole, holds at
    least one request and none without content, and no sentence of any canary.
    For foe the recorded request events, headers and model requests together, are
    at least as many as the model calls; for Codex the response items are, where
    the totals hold an integer count of calls. *)
Theorem isolated_means_shown state_root home document_ out w w' : isolation_gate state_root home document_ out w = (Ok ISOLATED, w') →
  let t := files w in let locate := locate_under state_root home in
  ∃ s, read_canaries t (run_files t out) = Ok s ∧
    (∀ p, p ∈ run_files t out → foe_planting_failure t p = Ok None) ∧
    (∀ p, p ∈ record_files t out → ∃ record r, json_at t p = Ok record ∧ examine locate t record s = Ok r ∧
       (launched r = true → isolation_shown locate t s record)) ∧
    ∃ p record r, p ∈ record_files t out ∧ json_at t p = Ok record ∧ examine locate t record s = Ok r ∧ launched r = true.
Proof.
  unfold isolation_gate. intros (t & w1 & [-> ->]%look_ok & H)%io_bind_ok. cbv zeta. set (t := files w) in *. set (locate := locate_under state_root home) in *. change (id t) with t in H.
  destruct (run_files t out) as [|rf rfs] eqn:Erf; [apply mret_ok in H as [H _]; discriminate H|]. destruct (record_files t out) as [|rc rcs] eqn:Erc; [apply mret_ok in H as [H _]; discriminate H|].
  destruct (gate_read locate t out) as [g|e] eqn:Eg; [|destruct (gate_caught e); [apply mret_ok in H as [H _]; discriminate H|done]].
  apply io_bind_ok in H as (u & w2 & _ & [Hv _]%mret_ok). unfold gate_read in Eg. rewrite Erf, Erc in Eg.
  apply res_bind_ok in Eg as (s & Hs & (faults & Hf%map_res_Forall2 & (res_ & Hr%map_res_Forall2 & [= <-])%res_bind_ok)%res_bind_ok).
  unfold verdict in Hv. destruct (leaked _) as [|k] eqn:Elk; [|done]. destruct (launched_results _) as [|l0 ls] eqn:El; [done|].
  destruct (gate_failures _) as [|gf gfs] eqn:Egf; [|done]. clear Hv. unfold gate_failures in Egf. rewrite El in Egf. apply app_eq_nil in Egf as [Hpf Hqf].
  unfold leaked, planting_failures, launched_results in *. cbn [results planting] in *.
  assert (Hquiet : ∀ r, r ∈ res_ → quiet (attempt_hits r) ∧ qualification r = []).
  { intros r Hin. apply sum_zero in Elk. rewrite Forall_map, Forall_forall in Elk. specialize (Elk r Hin). apply sum_zero in Elk. rewrite Forall_map in Elk. split.
    - eapply Forall_impl; [exact Elk|]. intros kv Hkv. by apply length_zero_iff_nil in Hkv.
    - destruct (qualification r) as [|rule l] eqn:Er; [done|]. exfalso. apply list_elem_of_In in Hin.
      assert (Hx : In (attempt r, rule) (concat (map (λ r, map (λ rule, (attempt r, rule)) (qualification r)) res_))).
      { apply in_concat. exists (map (λ rule, (attempt r, rule)) (qualification r)). split; [by apply (in_map (λ r, map (λ rule, (attempt r, rule)) (qualification r)))|]. rewrite Er. by left. }
      by rewrite Hqf in Hx. }
  exists s. split; [done|]. split_and!.
  - intros p Hp. rewrite <-Erf in *. apply list_elem_of_lookup in Hp as [i Hi]. destruct (Forall2_lookup_l _ _ _ _ _ Hf Hi) as (pr & Hpr & E).
    apply res_bind_ok in E as (r & Hr' & [= <-]). rewrite Hr'. f_equal. destruct r as [rule|]; [|done]. exfalso.
    apply list_elem_of_lookup_2 in Hpr. assert (Hx : ("run file " +:+ name_of p, rule) ∈ @nil (string * string)); [|by apply elem_of_nil in Hx].
    rewrite <-Hpf. apply list_elem_of_omap. by exists (p, Some rule).
  - intros p Hp. apply list_elem_of_lookup in Hp as [i Hi]. destruct (Forall2_lookup_l _ _ _ _ _ Hr Hi) as (r & Hri & E).
    apply res_bind_ok in E as (record & Hj & He). exists record, r. split_and!; [done|done|]. intros Hl. apply list_elem_of_lookup_2 in Hri.
    destruct (Hquiet r Hri) as [Hq Hqual]. by eapply examine_shown.
  - assert (Hin : l0 ∈ List.filter launched res_) by (rewrite El; left). apply list_elem_of_In, filter_In in Hin as [Hin Hl].
    apply list_elem_of_In, list_elem_of_lookup in Hin as [i Hi]. destruct (Forall2_lookup_r _ _ _ _ _ Hr Hi) as (p & Hp & E).
    apply res_bind_ok in E as (record & Hj & He). exists p, record, l0. split_and!; [by eapply list_elem_of_lookup_2|done|done|done].
Qed.

(** ** A run file the runner writes is evidence *)

Section written.
Context (m : RunAttempt.Machine) (home_of_user which : string → option string) (identifier : string → string).
Lemma resolved_canaries p w r w' : resolved m home_of_user which identifier p w = (Ok r, w') → s_canaries (resolved_settings r) = canaries identifier.
Proof.
  unfold resolved. intros (t & w1 & _ & H)%io_bind_ok. apply io_bind_ok in H as ([[[d tasks] family_] arms] & w2 & _ & H).
  apply io_bind_ok in H as (u & w3 & _ & H). apply io_bind_ok in H as (u2 & w4 & _ & H). by apply mret_ok in H as [-> _].
Qed.
(** The run file of a run is evidence that its foe canary was planted: what the
    runner read back after planting is what the gate asks of the file. *)
Theorem planting_evidenced p w0 w1 r t provenance w planted_ w' content : resolved m home_of_user which identifier p w0 = (Ok r, w1) →
  planted_foe_canary (doc_config_dir (resolved_document r) ++ [CANARY_FILE]) (sentence_of (resolved_settings r) FOE_CONFIG_CANARY) w = (Ok planted_, w') →
  run_content m r t provenance planted_ = Ok content → planting_fault (VDict content) = Ok None.
Proof.
  intros Hr Hp Hc. apply resolved_canaries in Hr. unfold sentence_of in Hp. rewrite Hr in Hp.
  change (py_str (dget (canaries identifier) FOE_CONFIG_CANARY)) with (canary_sentence FOE_CONFIG_CANARY (identifier FOE_CONFIG_CANARY)) in Hp.
  set (x := canary_sentence FOE_CONFIG_CANARY (identifier FOE_CONFIG_CANARY)) in *.
  unfold planted_foe_canary in Hp. destruct (read_file _ w) as [[data|e] w2]; [|by destruct e]. destruct (String.eqb_spec data (x +:+ nl)) as [->|]; [|done]. injection Hp as <- _.
  unfold run_content in Hc. cbv zeta in Hc. apply res_bind_ok in Hc as (b & _ & (ro & _ & (text & _ & [= <-])%res_bind_ok)%res_bind_ok).
  rewrite Hr. set (file := shown (doc_config_dir (resolved_document r) ++ [CANARY_FILE])).
  unfold planting_fault. set (content := [("schema_version", _); _; _; _; _; _; _; _; _; _]).
  set (canary := VDict [("sentence", VStr x); ("path", VStr file); ("placement", dget (match item (VDict content) "canaries" with Ok (VDict d) => match dget d FOE_CONFIG_CANARY with VDict c => c | _ => [] end | _ => [] end) "placement");
                        ("planted", VDict [("path", VStr file); ("sha256", VStr (sha256_hex (x +:+ nl)))])]).
  assert (Hc1 : item (VDict content) "canaries" = Ok (VDict [(CODEX_CONFIG_CANARY, dget (match item (VDict content) "canaries" with Ok (VDict d) => d | _ => [] end) CODEX_CONFIG_CANARY); (FOE_CONFIG_CANARY, canary)])) by reflexivity.
  rewrite Hc1. cbn [mbind res_bind]. change (item (VDict [(CODEX_CONFIG_CANARY, ?z); (FOE_CONFIG_CANARY, canary)]) FOE_CONFIG_CANARY) with (Ok canary : res value).
  cbn [mbind res_bind]. change (get canary PLANTED_KEY) with (Ok (VDict [("path", VStr file); ("sha256", VStr (sha256_hex (x +:+ nl)))]) : res value).
  cbn [mbind res_bind].
  change (dget [("path", VStr file); ("sha256", VStr (sha256_hex (x +:+ nl)))] "sha256") with (VStr (sha256_hex (x +:+ nl))).
  change (dget [("path", VStr file); ("sha256", VStr (sha256_hex (x +:+ nl)))] "path") with (VStr file). cbv beta iota zeta.
  change (get canary "path") with (Ok (VStr file) : res value). cbn [mbind res_bind].
  replace (py_eq (VStr file) (VStr file)) with true by (unfold py_eq; cbn [item_eq]; by rewrite String.eqb_refl). cbn [negb].
  change (item canary "sentence") with (Ok (VStr x) : res value). cbn [mbind res_bind]. cbv beta iota zeta. unfold planted_text. by rewrite String.eqb_refl.
Qed.
End written.

(** ** An example *)

(** One attempt is run from its document and then examined. *)
Definition demo_once_document : dict :=
  [("tasks", VStr "tasks"); ("arms", strs ["foe-as-shipped"]); ("model", VDict [("route", VStr "subscription"); ("name", VStr "m")]);
   ("harnesses", VDict [("foe", VStr "foe")]); ("out", VStr "out"); ("foe_config_dir", VStr "config")].
Definition demo_once_world : world :=
  with_files (<[["run.json"] := File (dumps_compact (VDict demo_once_document))]> (<[["tasks"] := Folder]>
    (place ["tasks"; "t"] (<[[TASK_FILE] := File demo_task_text]> (subtree ["t"] (files demo_start))) (files demo_start)))) demo_spend_world.
Definition demo_once : res ending * world :=
  main (demo_machine demo_host) demo_home (λ _, None) id demo_git (λ _ _, false) (λ _, None) "/run.json" true demo_once_world.
Definition demo_gate : res Z * world := isolation_gate None "/h" "run.json" ["out"] demo_once.2.
Lemma demo_gate_isolated : demo_gate = (Ok ISOLATED, demo_gate.2).
Proof. refine (ran_ok demo_gate _ _). vm_compute. reflexivity. Qed.
Lemma isolated_means_shown_witness :
  let t := files demo_once.2 in let locate := locate_under None "/h" in
  ∃ s, read_canaries t (run_files t ["out"]) = Ok s ∧
    (∀ p, p ∈ run_files t ["out"] → foe_planting_failure t p = Ok None) ∧
    (∀ p, p ∈ record_files t ["out"] → ∃ record r, json_at t p = Ok record ∧ examine locate t record s = Ok r ∧
       (launched r = true → isolation_shown locate t s record)) ∧
    ∃ p record r, p ∈ record_files t ["out"] ∧ json_at t p = Ok record ∧ examine locate t record s = Ok r ∧ launched r = true.
Proof. exact (isolated_means_shown None "/h" "run.json" ["out"] demo_once.2 demo_gate.2 demo_gate_isolated). Defined.

Definition demo_once_resolved : res Resolved * world := resolved (demo_machine demo_host) demo_home (λ _, None) id "/run.json" demo_once_world.
Definition demo_once_of : Resolved := run_of demo_once_resolved.1.
Lemma demo_once_resolved_ok : demo_once_resolved = (Ok demo_once_of, demo_once_resolved.2).
Proof. refine (ran_ok demo_once_resolved _ _). vm_compute. reflexivity. Qed.
Definition demo_sentence : string := sentence_of (resolved_settings demo_once_of) FOE_CONFIG_CANARY.
Definition demo_canary_file : path := doc_config_dir (resolved_document demo_once_of) ++ [CANARY_FILE].
Definition demo_planted_world : world := with_files (<[demo_canary_file := File (demo_sentence +:+ nl)]> ∅) demo_spend_world.
Definition demo_read_back : res dict * world := planted_foe_canary demo_canary_file demo_sentence demo_planted_world.
Definition dict_or (r : res dict) : dict := match r with Ok d => d | Err _ => [] end.
Definition demo_content : res dict := run_content (demo_machine demo_host) demo_once_of (files demo_once_world) [] (dict_or demo_read_back.1).
Lemma demo_read_back_ok : demo_read_back = (Ok (dict_or demo_read_back.1), demo_read_back.2).
Proof. refine (ran_ok demo_read_back _ _). vm_compute. reflexivity. Qed.
Lemma planting_evidenced_witness : demo_content = Ok (dict_or demo_content) ∧ planting_fault (VDict (dict_or demo_content)) = Ok None.
Proof.
  assert (H : demo_content = Ok (dict_or demo_content)) by (vm_compute; reflexivity).
  split; [exact H|].
  exact (planting_evidenced (demo_machine demo_host) demo_home (λ _, None) id "/run.json" demo_once_world demo_once_resolved.2 demo_once_of (files demo_once_world) []
           demo_planted_world (dict_or demo_read_back.1) demo_read_back.2 (dict_or demo_content) demo_once_resolved_ok demo_read_back_ok H).
Defined.

(** A canary in a request is found, in whichever event and at whatever depth. *)
Example leaked_request_found :
  let event := VDict [("seq", VInt 4); ("type", VStr "model/request"); ("data", VDict [("messages", VList [VStr "see: THE CANARY."])])] in
  (λ f, (foe_hits f, requests f)) <$> (match search_foe ({[ ["e"; "episode.jsonl"] := File (dumps_compact event +:+ nl) ]} : tree) ["e"] [("foe_config", "THE CANARY")] with Ok f => Some f | Err _ => None end) =
  Some ([("foe_config", ["/e/episode.jsonl seq 4 (model/request)"])], 1).
Proof. vm_compute. reflexivity. Qed.
(** A line separator that JSON leaves unescaped splits the line of an event,
    which then counts as malformed. *)
Definition line_separator : string := String "226" (String "128" (String "168" EmptyString)).
Example separator_unqualifies :
  (read_json_lines "/e" (dumps_compact (VDict [("type", VStr "model/request"); ("data", VDict [("text", VStr ("a" +:+ line_separator +:+ "b"))])]) +:+ nl)).2 =
  ["/e:1 is not JSON"; "/e:2 is not JSON"].
Proof. vm_compute. reflexivity. Qed.
(** The count for foe is of headers and model requests together: two headers and
    no model request qualify an attempt of two model calls. *)
Example headers_count_as_requests :
  let header := dumps_compact (VDict [("seq", VInt 2); ("type", VStr "request/header"); ("data", VDict [("model", VStr "m")])]) +:+ nl in
  (λ f, foe_rules VNone VNone f (VInt 2) (VBool true) (VStr "/e")) <$>
    search_foe ({[ ["e"; "episode.jsonl"] := File (header +:+ header) ]} : tree) ["e"] [("foe_config", "THE CANARY")] = Ok [].
Proof. vm_compute. reflexivity. Qed.
(** Codex attempts whose totals do not count the calls qualify on one request
    record, whatever its kind. *)
Example uncounted_codex_qualifies :
  let line := dumps_compact (VDict [("type", VStr "turn_context"); ("payload", VDict [("cwd", VStr "/w")])]) +:+ nl in
  codex_rules [["s"]] (search_codex ({[ ["s"] := File line; ["ev"] := File "" ]} : tree) [["s"]] ["ev"] [("codex_config", "THE CANARY")])
    VNone true (VStr "/c") = [].
Proof. vm_compute. reflexivity. Qed.
(** A run file that is a JSON array raises an [AttributeError], which the gate
    does not catch. *)
Example array_run_file_escapes :
  (isolation_gate None "/h" "run.json" ["out"]
     {| files := list_to_map [(["out"; "run.json"], File "[]"); (["out"; "records"], Folder); (["out"; "records"; "01.json"], File "{}")]; faults := []; leftovers := [] |}).1 =
  Err (AttributeError "'list' object has no attribute 'get'").
Proof. vm_compute. reflexivity. Qed.
