(* ===== verification/Grouping.v ===== *)
(** * Grouping by name

    [d.setdefault(name, []).append(x)] over a list of named items, then
    [dict(sorted(d.items()))]: how the report groups pairs by construction and
    by task.  The result in closed form: the distinct names in order, each with
    its items in their order. *)

From stdpp Require Import base list strings sorting.
From Stdlib Require Import ZArith Lia.
From S2P Require Import Prelude PyValue.

(** Items by the name of their group. *)
Abbreviation clusters A := (list (string * list A)).
Definition group_step {A} (d : clusters A) (nx : string * A) : clusters A := dset d nx.1 (default [] (assoc d nx.1) ++ [nx.2]).
Definition group_all {A} (l : list (string * A)) : clusters A := fold_left group_step l [].
Definition grouped {A} (l : list (string * A)) : clusters A := sorted_items (group_all l).
(** Every item of the groups, in their order. *)
Definition members {A} (c : clusters A) : list A := concat (map snd c).

(** The items under one name. *)
Definition items_at {A} (l : list (string * A)) (k : string) : list A := map snd (List.filter (λ nx, String.eqb nx.1 k) l).
Definition group_at {A} (l : list (string * A)) (k : string) : string * list A := (k, items_at l k).

(** ** Sorted lists of names *)

(** Sorting a dictionary whose values its keys determine. *)
Lemma sorted_items_map {A} (g : string → A) ks : sorted_items (map (λ k, (k, g k)) ks) = map (λ k, (k, g k)) (sorted_strings ks).
Proof.
  unfold sorted_items. set (R := λ x y : string * A, String.le x.1 y.1).
  apply (StronglySorted_unique_strong R).
  - intros x y Hx Hy H1 H2. rewrite merge_sort_Permutation in Hx. apply list_elem_of_fmap in Hx as (k & -> & _).
    apply list_elem_of_fmap in Hy as (k' & -> & _). by rewrite (anti_symm String.le _ _ H1 H2).
  - apply StronglySorted_merge_sort; [intros x y z ??; unfold R in *; by etrans|intros x y; apply (total String.le)].
  - apply (StronglySorted_fmap _ String.le); [done|apply sorted_strings_sorted].
  - rewrite merge_sort_Permutation. by rewrite sorted_strings_perm.
Qed.

(** ** The groups in closed form *)

Lemma items_at_cons {A} (nx : string * A) l k : items_at (nx :: l) k = if String.eqb nx.1 k then nx.2 :: items_at l k else items_at l k.
Proof. unfold items_at. cbn. by destruct (String.eqb nx.1 k). Qed.
Lemma items_at_app {A} (l m : list (string * A)) k : items_at (l ++ m) k = items_at l k ++ items_at m k.
Proof. unfold items_at. by rewrite List.filter_app, map_app. Qed.
Lemma group_all_snoc {A} (l : list (string * A)) nx : group_all (l ++ [nx]) = group_step (group_all l) nx.
Proof. unfold group_all. by rewrite fold_left_app. Qed.
Lemma group_all_spec {A} (l : list (string * A)) :
  NoDup (keys (group_all l)) ∧ (∀ k, k ∈ keys (group_all l) ↔ k ∈ map fst l) ∧
  ∀ k, default [] (assoc (group_all l) k) = items_at l k.
Proof.
  induction l as [|nx l IH] using rev_ind; [split_and!; [constructor|done|done]|]. destruct IH as (Hn & Hk & Ha).
  rewrite group_all_snoc. unfold group_step. split_and!.
  - by apply dset_nodup.
  - intros k. rewrite map_app, elem_of_app, <-Hk. cbn [map]. rewrite list_elem_of_singleton.
    destruct (decide (nx.1 ∈ keys (group_all l))) as [Hin|Hin].
    + rewrite keys_dset_in by done. split; [auto|]. by intros [?| ->].
    + rewrite keys_dset_notin by done. by rewrite elem_of_app, list_elem_of_singleton.
  - intros k. rewrite items_at_app, items_at_cons. destruct (String.eqb_spec nx.1 k) as [<-|Hne].
    + rewrite assoc_dset_eq. cbn. by rewrite Ha.
    + rewrite assoc_dset_ne by done. by rewrite Ha, app_nil_r.
Qed.
Lemma dict_by_keys {A} (d : list (string * A)) (g : string → A) :
  NoDup (keys d) → (∀ k, k ∈ keys d → assoc d k = Some (g k)) → d = map (λ k, (k, g k)) (keys d).
Proof.
  induction d as [|[k v] d IH]; intros Hn H; [done|]. unfold keys in *. cbn [map fst] in *. apply NoDup_cons in Hn as [Hk Hn]. f_equal.
  - specialize (H k ltac:(by left)). cbn in H. rewrite String.eqb_refl in H. by injection H as ->.
  - apply IH; [done|]. intros k' Hk'. specialize (H k' ltac:(by right)). cbn in H.
    destruct (String.eqb_spec k k') as [->|]; [done|exact H].
Qed.
(** The distinct names in order, each with its items. *)
Lemma grouped_closed {A} (l : list (string * A)) : grouped l = map (group_at l) (sorted_set (map fst l)).
Proof.
  destruct (group_all_spec l) as (Hn & Hk & Ha). unfold grouped. rewrite (dict_by_keys (group_all l) (items_at l)); [|done|].
  - rewrite sorted_items_map. f_equal. rewrite sorted_strings_nodup by done. by apply sorted_set_ext.
  - intros k Hin. rewrite <-Ha. destruct (assoc (group_all l) k) eqn:E; [done|]. by apply assoc_none in E.
Qed.
Lemma grouped_keys {A} (l : list (string * A)) : keys (grouped l) = sorted_set (map fst l).
Proof. rewrite grouped_closed. unfold keys. rewrite map_map. cbn. apply map_id. Qed.
Lemma items_at_nil {A} (l : list (string * A)) k : items_at l k = [] ↔ k ∉ map fst l.
Proof.
  induction l as [|[k' x] l IH]; [split; [by intros _ ?%elem_of_nil|done]|]. rewrite items_at_cons. cbn [fst snd map].
  rewrite not_elem_of_cons, <-IH. destruct (String.eqb_spec k' k) as [->|]; naive_solver.
Qed.
Lemma assoc_map_keys {A} (g : string → A) ks k : k ∈ ks → assoc (map (λ k, (k, g k)) ks) k = Some (g k).
Proof.
  induction ks as [|k' ks IH]; [by intros ?%elem_of_nil|]. intros Hk. cbn. destruct (String.eqb_spec k' k) as [->|Hne]; [done|].
  apply IH. apply elem_of_cons in Hk as [->|]; done.
Qed.
Lemma grouped_assoc {A} (l : list (string * A)) k : default [] (assoc (grouped l) k) = items_at l k.
Proof.
  rewrite grouped_closed. destruct (decide (k ∈ map fst l)) as [Hk|Hk].
  - rewrite (assoc_map_keys (items_at l)) by by apply elem_of_sorted_set. done.
  - rewrite (proj2 (items_at_nil l k) Hk). destruct (assoc _ k) eqn:E; [|done]. apply assoc_elem in E.
    apply list_elem_of_fmap in E as (k' & [= -> ->] & Hin). by rewrite elem_of_sorted_set in Hin.
Qed.
Lemma grouped_nonempty {A} (l : list (string * A)) kv : kv ∈ grouped l → kv.2 ≠ [].
Proof.
  rewrite grouped_closed. intros (k & -> & Hk)%list_elem_of_fmap. cbn. rewrite items_at_nil. intros []. by rewrite elem_of_sorted_set in Hk.
Qed.
Lemma elem_of_items_at {A} (l : list (string * A)) k x : x ∈ items_at l k ↔ (k, x) ∈ l.
Proof.
  induction l as [|[k' y] l IH]; [split; intros H; by apply elem_of_nil in H|]. rewrite items_at_cons, elem_of_cons. cbn.
  destruct (String.eqb_spec k' k) as [->|Hne]; [rewrite elem_of_cons|]; rewrite IH; naive_solver.
Qed.
(** No item is lost, and none appears twice. *)
Lemma grouped_members {A} (l : list (string * A)) : members (grouped l) ≡ₚ map snd l.
Proof.
  unfold members. rewrite grouped_closed, map_map. cbn [snd group_at].
  assert (H : ∀ ks, NoDup ks → (∀ nx, nx ∈ l → nx.1 ∈ ks) → concat (map (items_at l) ks) ≡ₚ map snd l).
  { induction l as [|[k x] l IH]; intros ks Hn Hk.
    - clear. by induction ks.
    - cbn [map snd]. rewrite <-(IH ks Hn) by (intros nx Hnx; apply Hk; by right).
      pose proof (Hk (k, x) ltac:(by left)) as Hin. cbn in Hin. clear IH Hk. induction ks as [|k' ks IHk]; [by apply elem_of_nil in Hin|].
      apply NoDup_cons in Hn as [Hk' Hn]. cbn [map concat]. rewrite items_at_cons. cbn [fst snd].
      destruct (String.eqb_spec k k') as [->|Hne].
      + cbn [app]. f_equiv. f_equiv. replace (map (items_at ((k', x) :: l)) ks) with (map (items_at l) ks); [done|].
        apply map_ext_in. intros k'' Hk''%list_elem_of_In. rewrite items_at_cons. cbn. by destruct (String.eqb_spec k' k'') as [->|].
      + apply elem_of_cons in Hin as [->|Hin]; [done|]. rewrite (IHk Hn Hin). by rewrite <-Permutation_middle. }
  apply H; [apply NoDup_sorted_set|]. intros nx Hnx. apply elem_of_sorted_set. by apply list_elem_of_fmap_2.
Qed.

(** ** Sorting images *)
Section sort_map.
Context {A B : Type} (R : relation A) (S : relation B) `{!∀ x y, Decision (R x y), !∀ x y, Decision (S x y)} (f : A → B).
Hypothesis HRS : ∀ x y, R x y ↔ S (f x) (f y).
Lemma list_merge_map l m : list_merge S (map f l) (map f m) = map f (list_merge R l m).
Proof.
  revert m. induction l as [|x l IH]; intros m; [by destruct m|]. induction m as [|y m IHm]; [done|].
  cbn [map]. rewrite !list_merge_cons, (decide_ext _ _ _ _ (HRS x y)). destruct (decide (S (f x) (f y))); cbn [map]; f_equal.
  - apply (IH (y :: m)).
  - exact IHm.
Qed.
Abbreviation stack_map := (map (option_map (map f))).
Lemma merge_list_to_stack_map st l :
  merge_list_to_stack S (stack_map st) (map f l) = stack_map (merge_list_to_stack R st l).
Proof.
  revert l. induction st as [|[l'|] st IH]; intros l; cbn; [done| |done]. f_equal. by rewrite list_merge_map, IH.
Qed.
Lemma merge_stack_map st : merge_stack S (stack_map st) = map f (merge_stack R st).
Proof. induction st as [|[l|] st IH]; cbn; [done| |done]. by rewrite IH, list_merge_map. Qed.
Lemma merge_sort_map l : merge_sort S (map f l) = map f (merge_sort R l).
Proof.
  unfold merge_sort. change (@nil (option (list B))) with (stack_map (@nil (option (list A)))). generalize (@nil (option (list A))).
  induction l as [|x l IH]; intros st; cbn; [apply merge_stack_map|]. change [f x] with (map f [x]). by rewrite merge_list_to_stack_map.
Qed.
End sort_map.

(** ** Loops over appended lists *)

Lemma foldM_app {A S : Type} (f : S → A → res S) s l m : foldM f s (l ++ m) = foldM f s l ≫= λ s', foldM f s' m.
Proof.
  revert s. induction l as [|x l IH]; intros s; [done|]. cbn. destruct (f s x) as [s'|e]; cbn; [apply IH|done].
Qed.
Lemma filter_map_swap {A B} (f : B → bool) (g : A → B) l : List.filter f (map g l) = map g (List.filter (λ x, f (g x)) l).
Proof. induction l as [|x l IH]; [done|]. cbn. destruct (f (g x)); cbn; by rewrite IH. Qed.
Lemma filter_nodup {A} (f : A → bool) l : NoDup l → NoDup (List.filter f l).
Proof. rewrite !NoDup_ListNoDup. apply List.NoDup_filter. Qed.

(** ** Keeping some of the items *)

Lemma elem_of_kept {A} (f : A → bool) l x : x ∈ List.filter f l ↔ x ∈ l ∧ f x = true.
Proof. by rewrite !list_elem_of_In, List.filter_In. Qed.
Lemma StronglySorted_kept {A} (R : relation A) (f : A → bool) l : StronglySorted R l → StronglySorted R (List.filter f l).
Proof.
  induction 1 as [|x l Hl IH Hx]; cbn; [constructor|]. destruct (f x); [|done]. constructor; [done|].
  rewrite Forall_forall in Hx |- *. intros y [Hy _]%elem_of_kept. by apply Hx.
Qed.
Lemma items_at_kept {A} (f : A → bool) (l : list (string * A)) k :
  items_at (List.filter (λ nx, f nx.2) l) k = List.filter f (items_at l k).
Proof.
  induction l as [|nx l IH]; [done|]. rewrite items_at_cons. cbn [List.filter]. destruct (f nx.2) eqn:E.
  - rewrite items_at_cons. destruct (String.eqb nx.1 k); cbn; rewrite ?E; by rewrite IH.
  - destruct (String.eqb nx.1 k); cbn; rewrite ?E; done.
Qed.
Definition filled {A} (l : list A) : bool := match l with [] => false | _ => true end.
(** Grouping what is kept is keeping it in each group, less the empty groups. *)
Lemma grouped_kept {A} (f : A → bool) (l : list (string * A)) :
  grouped (List.filter (λ nx, f nx.2) l) = List.filter (λ kv, filled kv.2) (map (λ kv, (kv.1, List.filter f kv.2)) (grouped l)).
Proof.
  rewrite !grouped_closed, map_map, filter_map_swap. cbn [fst snd group_at].
  set (keep := λ k, filled (List.filter f (items_at l k))).
  assert (Hs : sorted_set (map fst (List.filter (λ nx, f nx.2) l)) = List.filter keep (sorted_set (map fst l))).
  { apply (StronglySorted_unique String.le); [apply sorted_strings_sorted|apply StronglySorted_kept, sorted_strings_sorted|].
    apply NoDup_Permutation; [apply NoDup_sorted_set|apply filter_nodup, NoDup_sorted_set|]. intros k.
    rewrite elem_of_kept, !elem_of_sorted_set.
    unfold keep. rewrite <-items_at_kept. destruct (decide (k ∈ map fst (List.filter (λ nx, f nx.2) l))) as [Hin|Hin].
    - pose proof (items_at_nil (List.filter (λ nx, f nx.2) l) k) as Hne. destruct (items_at (List.filter _ l) k) eqn:E; [by apply Hne in Hin|].
      split; [|done]. intros _. split; [|done]. apply list_elem_of_fmap in Hin as (nx & -> & [Hnx _]%elem_of_kept). by apply list_elem_of_fmap_2.
    - apply items_at_nil in Hin as E. rewrite E. split; [done|]. by intros [_ ?]. }
  rewrite Hs. apply map_ext. intros k. unfold group_at. by rewrite items_at_kept.
Qed.
(** Changing the items. *)
Lemma items_at_mapped {A B} (f : A → B) (l : list (string * A)) k : items_at (map (λ nx, (nx.1, f nx.2)) l) k = map f (items_at l k).
Proof. induction l as [|nx l IH]; [done|]. cbn [map]. rewrite !items_at_cons. cbn. destruct (String.eqb nx.1 k); cbn; by rewrite IH. Qed.
Lemma grouped_mapped {A B} (f : A → B) (l : list (string * A)) :
  grouped (map (λ nx, (nx.1, f nx.2)) l) = map (λ kv, (kv.1, map f kv.2)) (grouped l).
Proof.
  rewrite !grouped_closed, !map_map. cbn [fst snd group_at]. apply map_ext. intros k. unfold group_at. by rewrite items_at_mapped.
Qed.
Lemma members_mapped {A B} (f : A → B) (c : clusters A) : members (map (λ kv, (kv.1, map f kv.2)) c) = map f (members c).
Proof. unfold members. rewrite map_map. cbn. by rewrite <-(map_map snd (map f)), concat_map. Qed.
