(* ===== verification/Stats.v ===== *)
(** * The tests of the report

    src/evals/cross_harness/report.py: the exact two-sided binomial probability,
    the McNemar and sign tests that use it, and the smallest difference a
    comparison can call significant. *)

From stdpp Require Import base list strings sorting pretty.
From Stdlib Require Import ZArith Lia SpecFloat.
From S2P Require Import Prelude PyValue PyText PyFloat.

(** 0.05, and the values a probability is compared with. *)
Definition SIGNIFICANCE_LEVEL : spec_float := int_ratio 5 100.
Definition MAX_DISCORDANT_SEARCH : nat := 64.
Definition one : spec_float := int_float 1.
Definition two : spec_float := int_float 2.

(** [math.comb(n, k)], by rows of Pascal's triangle. *)
Fixpoint next_row (before : Z) (row : list Z) : list Z :=
  match row with [] => [before] | x :: row => (before + x)%Z :: next_row x row end.
Fixpoint pascal (n : nat) : list Z := match n with O => [1%Z] | S n => next_row 0 (pascal n) end.
Definition comb (n k : nat) : Z := default 0%Z (pascal n !! k).
Definition sum_Z (l : list Z) : Z := fold_right Z.add 0%Z l.
(** [sum(math.comb(total, k) for k in range(smaller + 1))]: the head of a row. *)
Definition tail_count (total smaller : nat) : Z := sum_Z (take (S smaller) (pascal total)).
(** [min(1.0, x)]: the second only when it is less. *)
Definition capped (x : spec_float) : spec_float := if SFltb x one then x else one.
Definition binomial_two_sided (first second : Z) : res spec_float :=
  if (first <? 0)%Z || (second <? 0)%Z then
    Err (ValueError ("discordant counts are " +:+ Z_str first +:+ " and " +:+ Z_str second +:+ "; both must be non-negative"))
  else
    let total := Z.to_nat (first + second) in
    if Nat.eqb total 0 then Ok one
    else Ok (capped (float_mul two (int_ratio (tail_count total (Z.to_nat (Z.min first second))) (2 ^ Z.of_nat total)))).
Definition mcnemar_exact (only_first only_second : Z) : res spec_float := binomial_two_sided only_first only_second.

(** [sign_test], over the differences by construction. *)
Record SignTest : Type := {
  p : option spec_float;
  positive : nat;
  negative : nat;
  ties : nat;
  discordant_constructions : list string;
  tested : bool;
}.
Definition names_where (test : spec_float → bool) (differences : list (string * spec_float)) : list string :=
  sorted_strings (map fst (List.filter (λ kv, test kv.2) differences)).
Definition sign_test (differences : list (string * spec_float)) : res SignTest :=
  let positive := names_where float_positive differences in
  let negative := names_where float_negative differences in
  let ties := names_where float_zero differences in
  probability ← (match differences with
                 | [] => Ok None
                 | _ => Some <$> binomial_two_sided (Z.of_nat (length positive)) (Z.of_nat (length negative))
                 end);
  Ok {| p := probability; positive := length positive; negative := length negative; ties := length ties;
        discordant_constructions := sorted_strings (positive ++ negative);
        tested := match positive ++ negative with [] => false | _ => true end |}.

(** [smallest_significant_discordant_pairs]. *)
Fixpoint search_count (level : spec_float) (count fuel : nat) : res (option nat) :=
  match fuel with
  | O => Ok None
  | S fuel =>
      q ← binomial_two_sided (Z.of_nat count) 0;
      if SFleb q level then Ok (Some count) else search_count level (S count) fuel
  end.
Definition smallest_significant_discordant_pairs (level : spec_float) : res nat :=
  if negb (SFltb (S754_zero false) level && SFltb level one) then
    Err (ValueError ("the significance level is " +:+ float_repr level +:+ "; a value strictly between 0 and 1 is required"))
  else
    found ← search_count level 1 MAX_DISCORDANT_SEARCH;
    match found with
    | Some count => Ok count
    | None => Err (ValueError ("no split of at most " +:+ nat_str MAX_DISCORDANT_SEARCH +:+ " discordant units reaches the level "
                               +:+ float_repr level))
    end.

(** [detectable_difference] and [detectable_difference_in_attempts]. *)
Record Detectable : Type := { level : spec_float; min_discordant : nat; units : Z; difference : option spec_float; reachable : bool }.
Definition detectable (lvl : spec_float) (n : Z) : res Detectable :=
  needed ← smallest_significant_discordant_pairs lvl;
  let reachable := (Z.of_nat needed <=? n)%Z in
  Ok {| level := lvl; min_discordant := needed; units := n;
        difference := if (reachable : bool) then Some (int_ratio (Z.of_nat needed) n) else None; reachable := reachable |}.
Definition detectable_difference (lvl : spec_float) (constructions : Z) : res Detectable :=
  if (constructions <? 0)%Z then
    Err (ValueError ("the paired constructions are " +:+ Z_str constructions +:+ "; the count must be non-negative"))
  else detectable lvl constructions.
(** The difference in attempts, with the tasks they are of. *)
Record InAttempts : Type := { in_attempts : Detectable; over_tasks : Z }.
Definition detectable_difference_in_attempts (lvl : spec_float) (paired_attempts paired_tasks : Z) : res InAttempts :=
  if (paired_attempts <? 0)%Z || (paired_tasks <? 0)%Z then
    Err (ValueError ("the paired attempts are " +:+ Z_str paired_attempts +:+ " and the paired tasks " +:+ Z_str paired_tasks
                     +:+ "; both must be non-negative"))
  else d ← detectable lvl paired_attempts; Ok {| in_attempts := d; over_tasks := paired_tasks |}.

Example level_needs_six : smallest_significant_discordant_pairs SIGNIFICANCE_LEVEL = Ok 6.
Proof. vm_compute. reflexivity. Qed.
Example five_of_six : binomial_two_sided 5 1 = Ok (int_ratio 7 32).
Proof. vm_compute. reflexivity. Qed.

(** ** Flips of a coin *)

Fixpoint flips (n : nat) : list (list bool) :=
  match n with O => [[]] | S n => map (cons false) (flips n) ++ map (cons true) (flips n) end.
Definition heads (l : list bool) : nat := length (List.filter id l).
Definition count {A} (f : A → bool) (l : list A) : Z := Z.of_nat (length (List.filter f l)).
(** A split of as many units, at least as uneven as [first] against [second]. *)
Definition as_uneven (first second : nat) (l : list bool) : bool :=
  let h := heads l in let t := length l - h in Nat.max first second - Nat.min first second <=? Nat.max h t - Nat.min h t.

#[local] Open Scope Z_scope.

Lemma count_app {A} (f : A → bool) l m : count f (l ++ m) = count f l + count f m.
Proof. unfold count. rewrite List.filter_app, length_app. lia. Qed.
Lemma count_map {A B} (f : B → bool) (g : A → B) l : count f (map g l) = count (λ x, f (g x)) l.
Proof. unfold count. f_equal. induction l as [|x l IH]; [done|]. cbn. destruct (f (g x)); cbn; by rewrite IH. Qed.
Lemma count_ext {A} (f g : A → bool) l : (∀ x, x ∈ l → f x = g x) → count f l = count g l.
Proof.
  intros H. unfold count. do 2 f_equal. apply List.filter_ext_in. intros x Hx. by apply H, list_elem_of_In.
Qed.
Lemma count_none {A} (f : A → bool) l : (∀ x, x ∈ l → f x = false) → count f l = 0.
Proof. intros H. rewrite (count_ext f (λ _, false)) by exact H. unfold count. clear H. by induction l. Qed.
Lemma flips_length n l : l ∈ flips n → length l = n.
Proof.
  revert l. induction n as [|n IH]; intros l H.
  - by apply list_elem_of_singleton in H as ->.
  - apply elem_of_app in H as [H|H]; apply list_elem_of_fmap in H as (m & -> & Hm); cbn; by rewrite IH.
Qed.

Lemma next_row_lookup b row k : next_row b row !! k =
  match k with O => Some (b + default 0 (row !! 0%nat)) | S k => match row !! k with Some x => Some (x + default 0 (row !! S k)) | None => None end end.
Proof.
  revert b k. induction row as [|x row IH]; intros b k; cbn [next_row].
  - destruct k as [|k]; cbn; [f_equal; lia|done].
  - destruct k as [|k]; cbn; [done|]. rewrite IH. by destruct k.
Qed.
Lemma comb_0 k : comb 0 k = if Nat.eqb k 0 then 1 else 0.
Proof. by destruct k as [|[|k]]. Qed.
Lemma comb_S n k : comb (S n) k = match k with O => comb n 0 | S k => comb n k + comb n (S k) end.
Proof.
  unfold comb. cbn [pascal]. rewrite next_row_lookup. destruct k as [|k]; [cbn; lia|].
  destruct (pascal n !! k) eqn:E; cbn; [done|]. apply lookup_ge_None in E. rewrite (proj2 (lookup_ge_None (pascal n) (S k))); [done|lia].
Qed.
(** The binomial coefficient counts the flips with that many heads. *)
Lemma comb_counts n k : comb n k = count (λ l, Nat.eqb (heads l) k) (flips n).
Proof.
  revert k. induction n as [|n IH]; intros k.
  - rewrite comb_0. by destruct k.
  - rewrite comb_S. cbn [flips]. rewrite count_app, !count_map.
    assert (E0 : count (λ l, heads (false :: l) =? k)%nat (flips n) = comb n k) by (rewrite IH; by apply count_ext).
    rewrite E0. destruct k as [|k].
    + rewrite (count_none (λ l, heads (true :: l) =? 0)%nat) by done. lia.
    + assert (count (λ l, heads (true :: l) =? S k)%nat (flips n) = comb n k) as -> by (rewrite IH; by apply count_ext). lia.
Qed.
Lemma sum_take l k : sum_Z (take k l) = sum_Z (map (λ i, default 0 (l !! i)) (seq 0 k)).
Proof.
  revert k. induction l as [|x l IH]; intros k.
  - rewrite take_nil. generalize 0%nat. induction k as [|k IHk]; intros i; [done|]. cbn [seq map sum_Z fold_right]. fold (sum_Z (map (λ i, default 0 (([] : list Z) !! i)) (seq (S i) k))). rewrite <-IHk. done.
  - destruct k as [|k]; [done|]. cbn [take seq map sum_Z fold_right]. f_equal. fold (sum_Z (take k l)). rewrite IH, <-seq_shift, map_map. done.
Qed.
Lemma tail_counts n s : tail_count n s = count (λ l, heads l <=? s)%nat (flips n).
Proof.
  unfold tail_count. rewrite sum_take. change (λ i, default 0 (pascal n !! i)) with (comb n). assert (H : ∀ a b, sum_Z (map (comb n) (seq a b)) = count (λ l, (a <=? heads l) && (heads l <? a + b))%nat (flips n)).
  { intros a b. revert a. induction b as [|b IH]; intros a; cbn [seq map sum_Z fold_right].
    - rewrite count_none; [done|]. intros x _. destruct (Nat.leb_spec a (heads x)), (Nat.ltb_spec (heads x) (a + 0)); try done; lia.
    - fold (sum_Z (map (comb n) (seq (S a) b))). rewrite IH, comb_counts. unfold count. rewrite <-Nat2Z.inj_add. f_equal.
      clear IH. induction (flips n) as [|x l IHl]; [done|]. cbn [List.filter].
      destruct (Nat.eqb_spec (heads x) a), (Nat.leb_spec (S a) (heads x)), (Nat.ltb_spec (heads x) (S a + b)),
        (Nat.leb_spec a (heads x)), (Nat.ltb_spec (heads x) (a + S b)); cbn [andb length]; lia. }
  rewrite H. apply count_ext. intros x _. cbn [Nat.leb]. destruct (Nat.ltb_spec (heads x) (0 + S s)), (Nat.leb_spec (heads x) s); try done; lia.
Qed.
(** Turning every coin over. *)
Lemma heads_negb l : heads (map negb l) = (length l - heads l)%nat.
Proof.
  unfold heads. induction l as [|x l IH]; [done|]. pose proof (List.filter_length_le id l).
  destruct x; cbn in *; rewrite IH; lia.
Qed.
Lemma flips_negb n : map (map negb) (flips n) ≡ₚ flips n.
Proof.
  induction n as [|n IH]; [done|]. cbn [flips]. rewrite map_app, !map_map. cbn [map negb].
  rewrite <-(map_map (map negb) (cons true)), <-(map_map (map negb) (cons false)), IH. apply Permutation_app_comm.
Qed.
Lemma count_perm {A} (f : A → bool) l m : l ≡ₚ m → count f l = count f m.
Proof.
  intros H. unfold count. f_equal. induction H as [|x l m _ IH|x y l|l m k _ IH1 _ IH2]; cbn; [done| | |congruence]; repeat case_match; cbn; congruence.
Qed.

Lemma flips_count n : Z.of_nat (length (flips n)) = 2 ^ Z.of_nat n.
Proof.
  induction n as [|n IH]; [done|]. cbn [flips]. rewrite length_app, !length_map, Nat2Z.inj_succ, Z.pow_succ_r by lia. lia.
Qed.
(** Counting by parts, and covering. *)
Lemma count_parts {A} (f g h : A → bool) l :
  (∀ x, x ∈ l → (if f x then 1 else 0) + (if g x then 1 else 0) = (if h x then 1 else 0)) → count f l + count g l = count h l.
Proof.
  unfold count. induction l as [|x l IH]; intros H; [done|]. pose proof (H x ltac:(by left)) as Hx.
  pose proof (IH ltac:(intros y Hy; apply H; by right)). cbn [List.filter]. destruct (f x), (g x), (h x); cbn [length]; lia.
Qed.
Lemma count_cover {A} (f g : A → bool) l : (∀ x, x ∈ l → f x || g x = true) → Z.of_nat (length l) <= count f l + count g l.
Proof.
  unfold count. induction l as [|x l IH]; intros H; [done|]. pose proof (H x ltac:(by left)) as Hx.
  pose proof (IH ltac:(intros y Hy; apply H; by right)). cbn [List.filter]. destruct (f x), (g x); cbn [length] in *; try done; lia.
Qed.
Lemma flips_tails n s : count (λ l, n - heads l <=? s)%nat (flips n) = count (λ l, heads l <=? s)%nat (flips n).
Proof.
  rewrite <-(count_perm _ _ _ (flips_negb n)), count_map. apply count_ext. intros l Hl.
  rewrite heads_negb, (flips_length n l Hl). pose proof (List.filter_length_le id l). rewrite (flips_length n l Hl) in *.
  unfold heads. f_equal. lia.
Qed.

(** The probability of a split of [a] against [b] units is the number
    of the [2^(a+b)] flips of as many coins that fall at least as unevenly, over
    all flips: both tails are counted and the doubled tail is that number
    exactly, unless the split is even, whose tails overlap and cover every flip;
    no units at all have probability one. *)
Theorem binomial_counts_flips (a b : nat) :
  let n := (a + b)%nat in let tail := count (λ l, heads l <=? Nat.min a b)%nat (flips n) in
  Z.of_nat (length (flips n)) = 2 ^ Z.of_nat n ∧
  (a ≠ b → 2 * tail = count (as_uneven a b) (flips n)) ∧
  (a = b → 2 ^ Z.of_nat n <= 2 * tail) ∧
  binomial_two_sided (Z.of_nat a) (Z.of_nat b) =
    Ok (if Nat.eqb n 0 then one else capped (float_mul two (int_ratio tail (2 ^ Z.of_nat n)))).
Proof.
  intros n tail. split; [apply flips_count|]. split; [|split].
  - intros Hab. rewrite <-Z.add_diag. unfold tail at 2. rewrite <-flips_tails. apply count_parts. intros l Hl.
    unfold as_uneven. pose proof (List.filter_length_le id l) as Hle. fold (heads l) in Hle. rewrite (flips_length n l Hl) in *.
    destruct (Nat.leb_spec (heads l) (Nat.min a b)), (Nat.leb_spec (n - heads l) (Nat.min a b)),
      (Nat.leb_spec (Nat.max a b - Nat.min a b) (Nat.max (heads l) (n - heads l) - Nat.min (heads l) (n - heads l))); lia.
  - intros ->. rewrite <-flips_count, <-Z.add_diag. unfold tail at 2. rewrite <-flips_tails. apply count_cover. intros l Hl.
    destruct (Nat.leb_spec (heads l) (Nat.min b b)), (Nat.leb_spec (n - heads l) (Nat.min b b)); try done; lia.
  - unfold binomial_two_sided. replace (Z.of_nat a <? 0) with false by lia. replace (Z.of_nat b <? 0) with false by lia. cbn [orb].
    rewrite <-Nat2Z.inj_add, Nat2Z.id. fold n. destruct (Nat.eqb n 0); [done|]. rewrite <-Nat2Z.inj_min, Nat2Z.id, tail_counts. done.
Qed.

(** ** The fewest units that can be significant *)

(** Floats that are numbers are compared transitively. *)
Lemma float_lt_le_trans x y z : SFltb x y = true → SFleb y z = true → SFltb x z = true.
Proof.
  unfold SFltb, SFleb, SFcompare. destruct x as [sx|sx| |sx mx ex], y as [sy|sy| |sy my ey], z as [sz|sz| |sz mz ez]; try done;
    repeat match goal with b : bool |- _ => destruct b end; try done; change (PosDef.Pos.compare_cont Eq) with Pos.compare.
  - destruct (Z.compare_spec ex ey), (Z.compare_spec ey ez), (Z.compare_spec ex ez); try done; try lia;
      destruct (Pos.compare_spec mx my), (Pos.compare_spec my mz), (Pos.compare_spec mx mz); try done; lia.
  - destruct (Z.compare_spec ex ey), (Z.compare_spec ey ez), (Z.compare_spec ex ez); try done; try lia;
      destruct (Pos.compare_spec mx my), (Pos.compare_spec my mz), (Pos.compare_spec mx mz); try done; lia.
Qed.
Lemma float_not_le x y : SFltb (S754_zero false) x = true → SFltb (S754_zero false) y = true → SFleb x y = false → SFltb y x = true.
Proof.
  unfold SFltb, SFleb, SFcompare. destruct x as [sx|sx| |sx mx ex], y as [sy|sy| |sy my ey]; try done;
    repeat match goal with b : bool |- _ => destruct b end; try done; change (PosDef.Pos.compare_cont Eq) with Pos.compare.
  destruct (Z.compare_spec ex ey), (Z.compare_spec ey ex); try done; try lia.
  destruct (Pos.compare_spec mx my), (Pos.compare_spec my mx); try done; lia.
Qed.

(** The probabilities of every split of at most as many units as are searched. *)
Definition probability (a b : nat) : spec_float :=
  match binomial_two_sided (Z.of_nat a) (Z.of_nat b) with Ok q => q | Err _ => S754_nan end.
Lemma probability_ok a b : binomial_two_sided (Z.of_nat a) (Z.of_nat b) = Ok (probability a b).
Proof.
  unfold probability, binomial_two_sided. destruct (Z.ltb_spec (Z.of_nat a) 0); [lia|]. destruct (Z.ltb_spec (Z.of_nat b) 0); [lia|].
  cbn [orb]. by destruct (Nat.eqb _ _).
Qed.
Definition lone_is_least (n : nat) : bool :=
  forallb (λ c, SFltb (S754_zero false) (probability c 0) && forallb (λ a, SFleb (probability c 0) (probability a (c - a))) (seq 0 (S c))) (seq 0 (S n)).
Lemma lone_least : lone_is_least MAX_DISCORDANT_SEARCH = true.
Proof. vm_compute. reflexivity. Qed.
(** All units on one side is the least probable split. *)
Lemma lone_is_least_spec n a b : lone_is_least n = true → (a + b <= n)%nat →
  SFltb (S754_zero false) (probability (a + b) 0) = true ∧ SFleb (probability (a + b) 0) (probability a b) = true.
Proof.
  unfold lone_is_least. intros H Hab. rewrite forallb_forall in H. specialize (H (a + b)%nat). rewrite in_seq in H.
  apply andb_true_iff in H as [H0 H]; [|lia]. split; [exact H0|]. rewrite forallb_forall in H.
  specialize (H a). rewrite in_seq in H. replace (a + b - a)%nat with b in H by lia. apply H. lia.
Qed.
Lemma lone_split a b : (a + b <= MAX_DISCORDANT_SEARCH)%nat →
  SFltb (S754_zero false) (probability (a + b) 0) = true ∧ SFleb (probability (a + b) 0) (probability a b) = true.
Proof. exact (lone_is_least_spec _ a b lone_least). Qed.
Lemma search_count_spec lvl c fuel r : search_count lvl c fuel = Ok (Some r) →
  (c <= r < c + fuel)%nat ∧ SFleb (probability r 0) lvl = true ∧ ∀ k, (c <= k < r)%nat → SFleb (probability k 0) lvl = false.
Proof.
  revert c. induction fuel as [|fuel IH]; intros c H; [done|]. cbn [search_count] in H.
  change 0%Z with (Z.of_nat 0) in H. rewrite probability_ok in H. cbn [mbind res_bind] in H.
  destruct (SFleb (probability c 0) lvl) eqn:E.
  - injection H as <-. split_and!; [lia|lia|done|]. lia.
  - apply IH in H as (Hr & Hp & Hk). split_and!; [lia|lia|done|]. intros k Hk'. destruct (decide (k = c)) as [->|]; [done|]. apply Hk. lia.
Qed.

(** The number of units the report says a difference needs is exact:
    as many units, all on one side, reach the level, and no split of fewer
    units does, however they fall. *)
Theorem smallest_significant_exact lvl n : smallest_significant_discordant_pairs lvl = Ok n →
  (1 <= n <= MAX_DISCORDANT_SEARCH)%nat ∧
  (∃ q, binomial_two_sided (Z.of_nat n) 0 = Ok q ∧ SFleb q lvl = true) ∧
  ∀ a b, (a + b < n)%nat → ∃ q, binomial_two_sided (Z.of_nat a) (Z.of_nat b) = Ok q ∧ SFltb lvl q = true.
Proof.
  unfold smallest_significant_discordant_pairs. intros H. destruct (SFltb (S754_zero false) lvl) eqn:Hpos; [|done].
  destruct (SFltb lvl one) eqn:H1; [|done]. cbn [negb andb] in H. apply res_bind_ok in H as (found & Hs & H).
  destruct found as [c|]; [|done]. injection H as ->. apply search_count_spec in Hs as (Hn & Hp & Hk).
  split_and!; [lia|lia|exists (probability n 0); split; [apply (probability_ok n 0)|done]|]. intros a b Hab.
  exists (probability a b). split; [apply probability_ok|]. destruct (lone_split a b) as [Hl0 Hl]; [unfold MAX_DISCORDANT_SEARCH in *; lia|].
  eapply float_lt_le_trans; [|exact Hl]. destruct (decide (a + b = 0)%nat) as [E|E].
  - rewrite E. exact H1.
  - apply float_not_le; [done|done|]. apply Hk. lia.
Qed.
Lemma smallest_significant_exact_witness : ∃ q, binomial_two_sided 4 1 = Ok q ∧ SFltb SIGNIFICANCE_LEVEL q = true.
Proof. destruct (smallest_significant_exact SIGNIFICANCE_LEVEL 6 level_needs_six) as (_ & _ & H). exact (H 4%nat 1%nat ltac:(lia)). Defined.
