(* ===== verification/Report.v ===== *)
(** * The report's measures

    src/evals/cross_harness/report.py: what one attempt record states, and the
    rates and costs over the records of an arm.  A record is the JSON object
    [load_records] accepted; a value of an unexpected kind below it raises as
    Python does.  [Comparison] pairs the records of two arms. *)

From Stdlib Require Import Ascii.
From stdpp Require Import base list strings pretty sorting.
From Stdlib Require Import ZArith Lia SpecFloat.
From S2P Require Import Prelude PyValue PyText PyJson PyUnicode PyPath PyFloat TaskProtocol Trajectory.

Definition ACTIONABLE_CELLS : list string := [CORRECT_COMPLETION; CORRECT_STOP].
Definition DECLARED_PAIRS : list (string * list (string * string)) :=
  [("autonomy", [("foe-configured", "foe-unverified"); ("foe-configured", "foe-ablated"); ("foe-configured", "codex-equivalent");
                 ("foe-ablated", "codex-equivalent"); ("foe-as-shipped", "codex-equivalent"); ("codex-equivalent", "codex-default")])].
Definition REQUIRED_KEYS : list string :=
  ["task"; "arm"; "attempt"; "classification"; "infrastructure_error"; "reported"; "totals"; "arm_result"].
Definition NOT_APPLICABLE_KEY : string := "not_applicable".
Definition AUTONOMY_FAMILY : string := "autonomy".
Definition COST_TOTAL_KEYS : list string := ["input_tokens"; "output_tokens"; "cache_read_tokens"; "model_calls"].
Definition CEILING_KEYS : list string := BUDGET_KEYS.
Definition SECONDS_KEY : string := "seconds".
Definition UNSTATED_LIMIT : string := "unstated".
Definition FOE_HARNESS : string := "foe".
Definition CODEX_HARNESS : string := "codex".
(** The keys of [codex_budget_watcher.DIMENSIONS] for Codex. *)
Definition ENFORCED_CEILINGS : list (string * list string) :=
  [(FOE_HARNESS, CEILING_KEYS); (CODEX_HARNESS, ["input_tokens"; "output_tokens"; "seconds"])].

Abbreviation record := dict.

(** [[x for x in l if f(x)]] where [f] may raise. *)
Fixpoint filter_res {A} (f : A → res bool) (l : list A) : res (list A) :=
  match l with
  | [] => Ok []
  | x :: l => b ← f x; rest ← filter_res f l; Ok (if (b : bool) then x :: rest else rest)
  end.
(** [record.get(key) or {}], whose [.get] raises on anything but an object. *)
Definition object_or_empty (r : dict) (key : string) : res dict := as_mapping (py_or (dget r key) (VDict [])).
(** [(record.get(key) or {}).get(field)]. *)
Definition inner (r : dict) (key field : string) : res value := d ← object_or_empty r key; Ok (dget d field).

(** ** Loading *)

(** One file: its path and what reading it gave. *)
Definition load_record (path : string) (file : res string) : res record :=
  text ← read_text file;
  match loads_str text with
  | inr (NotJson m _) => Err (ValueError (path +:+ ": not JSON: " +:+ m))
  | inr e => Err (ValueError (load_error_str e))
  | inl (VDict r) =>
      match List.filter (λ k, negb (has_key r k)) REQUIRED_KEYS with
      | [] =>
          match dget r "task" with
          | VDict task =>
              raise_if (negb (has_key task "name" && has_key task "correct_statuses"))
                (ValueError (path +:+ ": task lacks name or correct_statuses"));;
              known ← in_set (dget task "family") (keys DECLARED_PAIRS);
              raise_if (negb known)
                (ValueError (path +:+ ": task.family is " +:+ py_repr (dget task "family")
                             +:+ "; the families with declared pairs are " +:+ join ", " (keys DECLARED_PAIRS)));;
              Ok (dset r "_path" (VStr path))
          | _ => Err (ValueError (path +:+ ": task lacks name or correct_statuses"))
          end
      | missing => Err (ValueError (path +:+ ": keys " +:+ join ", " missing +:+ " are absent"))
      end
  | inl _ => Err (ValueError (path +:+ ": the record is not an object"))
  end.
(** [load_records], given the files below the directory in path order. *)
Definition load_records (directory : string) (present : bool) (files : list (string * res string)) : res (list record) :=
  raise_if (negb present) (OSError ("the records directory " +:+ directory +:+ " does not exist; run.py writes it under the document's out"));;
  map_res (λ pf, load_record pf.1 pf.2) files.

(** ** What one record states *)

Definition task_of (r : record) : dict := dict_or_empty (dget r "task").
Definition task_field (r : record) (key : string) : value := dget (task_of r) key.
Definition classification (r : record) : value := dget r "classification".
Definition cell_is (cell : string) (r : record) : bool := is_string cell (classification r).

Definition task_name (r : record) : string := py_str (task_field r "name").
Definition is_scored (r : record) : bool := negb (is_none (classification r)).
Definition is_not_applicable (r : record) : bool := negb (is_none (dget r NOT_APPLICABLE_KEY)).
Definition is_actionable (r : record) : bool := existsb (λ c, cell_is c r) ACTIONABLE_CELLS.
Definition is_false_completion : record → bool := cell_is FALSE_COMPLETION.
Definition is_correct_stop : record → bool := cell_is CORRECT_STOP.
Definition reported_status (r : record) : option string :=
  match dget r "reported" with VDict d => py_str <$> assoc d "status" | _ => None end.
Definition reported_is (status : string) (r : record) : bool :=
  match reported_status r with Some s => String.eqb s status | None => false end.
Definition accepts_blocked (r : record) : res bool := has_item (task_field r "correct_statuses") BLOCKED.
Definition accepts_completion (r : record) : res bool := has_item (task_field r "correct_statuses") COMPLETED.
Definition class_name (r : record) : option string :=
  match task_field r "class_name" with VNone => None | v => Some (py_str v) end.
Definition trajectory_of (r : record) : option dict := as_dict (dget r "trajectory").
Definition harness_of (r : record) : option string :=
  match dget r "harness" with
  | VStr h => Some h
  | _ => match trajectory_of r with Some t => as_str (dget t "harness") | None => None end
  end.
(** [_integer]: an integer that is no boolean. *)
Definition integer (v : value) : option Z := plain_int v.
Definition trajectory_outcome (r : record) : dict :=
  match trajectory_of r with Some t => dict_or_empty (dget t "outcome") | None => [] end.
Definition ended_exhausted (r : record) : bool :=
  reported_is EXHAUSTED r || is_string EXHAUSTED (dget (trajectory_outcome r) "status").
Definition ended_killed (r : record) : bool :=
  reported_is KILLED r || cell_is KILLED r || is_string KILLED (dget (trajectory_outcome r) "status").

(** [cost]: tokens and seconds; an integer here may be a boolean. *)
Definition cost (r : record) : res (option Z * option spec_float) :=
  totals ← object_or_empty r "totals";
  let tokens := match as_int (dget totals "input_tokens"), as_int (dget totals "output_tokens") with
                | Some i, Some o => Some (i + o)%Z | _, _ => None end in
  match as_int (dget totals "wall_ms") with
  | Some w => s ← int_div w 1000; Ok (tokens, Some s)
  | None =>
      result ← object_or_empty r "arm_result";
      match as_int (dget result "started_ms"), as_int (dget result "ended_ms") with
      | Some s, Some e => d ← int_div (e - s) 1000; Ok (tokens, Some d)
      | _, _ => Ok (tokens, None)
      end
  end.

(** ** Rates and costs of a group *)

Record Rate : Type := { ratio : option spec_float; hits : nat; of_ : nat }.
Definition rate (numerator denominator : nat) : Rate :=
  {| ratio := if Nat.eqb denominator 0 then None else Some (int_ratio (Z.of_nat numerator) (Z.of_nat denominator));
     hits := numerator; of_ := denominator |}.
Definition how_many {A} (f : A → bool) (l : list A) : nat := length (List.filter f l).
(** [rate(sum(f(r) for r in l), len(l))]. *)
Definition share (f : record → bool) (l : list record) : Rate := rate (how_many f l) (length l).

(** [cell_counts]: a count per cell of [SEVERITY], and per any other cell met. *)
Definition count_cell (counts : list (value * nat)) (r : record) : res (list (value * nat)) :=
  match classification r with
  | VNone => Ok counts
  | c => n ← vget counts c; Ok (vset counts c (S (default 0 n)))
  end.
Definition cell_counts (l : list record) : res (list (value * nat)) :=
  foldM count_cell (map (λ c, (VStr c, 0)) SEVERITY) l.

Record Distribution : Type := { d_mean : option spec_float; d_median : option spec_float; measured : nat }.
(** [_distribution]. *)
Definition distribution (l : list spec_float) : Distribution :=
  {| d_mean := mean l; d_median := median l; measured := length l |}.
Record Measures : Type := { attempts_measured : nat; by_key : list (string * Distribution) }.
Definition costs_of (l : list record) : res (list (option Z * option spec_float)) := map_res cost l.
(** The values that are there. *)
Definition present {A} (l : list (option A)) : list A := omap id l.
(** The numbers measured, as floats. *)
Definition floats (l : list (option Z)) : res (list spec_float) := map_res float_of (present l).
Definition tokens_of (costs : list (option Z * option spec_float)) : res (list spec_float) := floats (map fst costs).
Definition seconds_of (costs : list (option Z * option spec_float)) : list spec_float := omap snd costs.
Definition total_measure (l : list record) (key : string) : res (string * Distribution) :=
  values ← map_res (λ r, inner r "totals" key) l;
  measured ← floats (map integer values);
  Ok (key, distribution measured).
Definition cost_measures (l : list record) : res Measures :=
  keyed ← map_res (total_measure l) COST_TOTAL_KEYS;
  costs ← costs_of l;
  Ok {| attempts_measured := length l; by_key := keyed ++ [(SECONDS_KEY, distribution (seconds_of costs))] |}.
(** [_cost_block]. *)
Record CostBlock : Type := { block_attempts : nat; tokens : Distribution; seconds : Distribution; block_cost : Measures }.
Definition cost_block (l : list record) : res CostBlock :=
  costs ← costs_of l;
  tokens ← tokens_of costs;
  measures ← cost_measures l;
  Ok {| block_attempts := length l; tokens := distribution tokens; seconds := distribution (seconds_of costs);
        block_cost := measures |}.
Definition cost_to_stop (l : list record) : res CostBlock := cost_block (List.filter is_correct_stop l).
(** The scored attempts on tasks that admit no completion. *)
Definition unfinishable (r : record) : res bool :=
  if is_scored r then b ← accepts_completion r; Ok (negb b) else Ok false.
Definition cost_without_stop (l : list record) : res CostBlock :=
  population ← filter_res unfinishable l;
  cost_block (List.filter (λ r, negb (is_correct_stop r)) population).

Record Censoring : Type := { censored : Rate; exhausted : nat; killed_count : nat }.
Definition censoring (l : list record) : res Censoring :=
  population ← filter_res unfinishable l;
  let unstopped := List.filter (λ r, negb (is_correct_stop r)) population in
  let exhausted := how_many ended_exhausted unstopped in
  let killed := how_many (λ r, ended_killed r && negb (ended_exhausted r)) unstopped in
  Ok {| censored := rate (exhausted + killed) (length population); exhausted := exhausted; killed_count := killed |}.

(** ** The rates of a group *)

Record Rates : Type := {
  r_attempts : nat; r_scored : nat; r_not_applicable : nat; r_infrastructure : Z;
  cells : list (value * nat);
  r_actionable : Rate; r_false_completion : Rate; block_precision : Rate; block_recall : Rate; r_killed : Rate; r_damage : Rate;
  r_cost : Measures; r_to_stop : CostBlock; r_without_stop : CostBlock; r_censoring : Censoring;
}.
Definition recalled (r : record) : bool := reported_is BLOCKED r && cell_is CORRECT_STOP r.
Definition rates_and_costs (l : list record) : res Rates :=
  let scored := List.filter is_scored l in
  let skipped := how_many is_not_applicable l in
  let blocked := List.filter (reported_is BLOCKED) scored in
  accepting ← filter_res accepts_blocked scored;
  counts ← cell_counts scored;
  cost ← cost_measures scored;
  to_stop ← cost_to_stop scored;
  without_stop ← cost_without_stop scored;
  censored ← censoring scored;
  Ok {| r_attempts := length l; r_scored := length scored; r_not_applicable := skipped;
        r_infrastructure := (Z.of_nat (length l) - Z.of_nat (length scored) - Z.of_nat skipped)%Z;
        cells := counts;
        r_actionable := share is_actionable scored; r_false_completion := share is_false_completion scored;
        block_precision := share is_correct_stop blocked; block_recall := share recalled accepting;
        r_killed := share (cell_is KILLED) scored; r_damage := share (cell_is DAMAGE) scored;
        r_cost := cost; r_to_stop := to_stop; r_without_stop := without_stop; r_censoring := censored |}.
(** The attempts of one class. *)
Definition in_class (name : string) (r : record) : bool :=
  match class_name r with Some c => String.eqb c name | None => false end.
Definition classes_of (l : list record) : list string := sorted_set (omap class_name l).

(** ** Constructions *)

Definition nonempty_str (v : value) : option string :=
  match v with VStr s => if String.eqb s "" then None else Some s | _ => None end.
Definition source_commit (metadata : dict) : option string := nonempty_str (dget (dict_or_empty (dget metadata "source")) "commit").
Definition feature_removal_construction (metadata : dict) : option string :=
  match dget metadata "source" with
  | VDict d => if has_key d "parent" then source_commit metadata else None
  | _ => None
  end.
Definition keyed_construction (key name : string) (metadata : dict) : option string :=
  if has_key metadata key then Some name else None.
Definition CONSTRUCTION_RULES : list (string * (dict → option string)) :=
  [("feature removal: metadata.source names a commit and its parent", feature_removal_construction);
   ("line ceiling: metadata.surface", keyed_construction "surface" "ceiling");
   ("frozen interface: metadata.block", keyed_construction "block" "frozen-interface");
   ("inventory regeneration: metadata.artifact", keyed_construction "artifact" "inventory-regeneration");
   ("non-terminating check: metadata.mechanism, every mechanism one construction", keyed_construction "mechanism" "non-terminating")].
(** The first rule that names one. *)
Fixpoint first_construction (rules : list (string * (dict → option string))) (metadata : dict) : option string :=
  match rules with
  | [] => None
  | (_, rule) :: rules => match rule metadata with Some c => Some c | None => first_construction rules metadata end
  end.
Definition or_none (s : string) : string := if String.eqb s "" then "none" else s.
Definition construction_of (metadata : value) (task : string) : res string :=
  match metadata with
  | VDict d =>
      match first_construction CONSTRUCTION_RULES d with
      | Some c => Ok c
      | None =>
          Err (ValueError ("task " +:+ str_repr task +:+ ": its metadata matches no construction rule ("
                           +:+ join "; " (map fst CONSTRUCTION_RULES) +:+ "); keys present: "
                           +:+ or_none (join ", " (sorted_strings (keys d)))))
      end
  | v => Err (ValueError ("task " +:+ str_repr task +:+ ": metadata is " +:+ py_repr v
                          +:+ "; construction_of needs the task's metadata object"))
  end.
Definition record_construction (r : record) : res string :=
  construction_of (dget_or (task_of r) "metadata" (VDict [])) (task_name r).

(** ** What the rates count *)

Definition cell_count (m : Rates) (c : string) : nat := default 0 (vassoc (cells m) (VStr c)).
Definition total_count {A} (d : list (A * nat)) : nat := foldr (λ kn t, kn.2 + t) 0 d.

Lemma item_eq_is_string v s : item_eq v (VStr s) = is_string s v.
Proof. by destruct v. Qed.
Lemma str_item_eq s v : item_eq (VStr s) v = is_string s v.
Proof. destruct v; try done. cbn. apply String.eqb_sym. Qed.
Lemma vassoc_vset d k (n : nat) s : vassoc (vset d k n) (VStr s) = if is_string s k then Some n else vassoc d (VStr s).
Proof.
  induction d as [|[k' n'] d IH]; cbn [vset vassoc]; [by rewrite item_eq_is_string|].
  destruct (item_eq k' k) eqn:E; cbn [vassoc]; rewrite !item_eq_is_string.
  - destruct (is_string s k) eqn:Hk.
    + destruct k; try done. rewrite item_eq_is_string in E. destruct k'; try done. cbn in *. apply String.eqb_eq in E, Hk. subst. by rewrite String.eqb_refl.
    + destruct (is_string s k') eqn:Hk'; [|done]. destruct k'; try done. cbn in Hk'. apply String.eqb_eq in Hk' as ->.
      rewrite str_item_eq, Hk in E. done.
  - rewrite IH. destruct (is_string s k') eqn:Hk'; [|done]. destruct k'; try done. cbn in Hk'. apply String.eqb_eq in Hk' as ->.
    by rewrite str_item_eq in E; rewrite E.
Qed.
Lemma total_vset d k (n : nat) : total_count (vset d k n) + default 0 (vassoc d k) = total_count d + n.
Proof.
  unfold total_count. induction d as [|[k' n'] d IH]; cbn; [lia|]. destruct (item_eq k' k); cbn in *; lia.
Qed.
Lemma how_many_cons {A} (f : A → bool) x l : how_many f (x :: l) = (if f x then 1 else 0) + how_many f l.
Proof. unfold how_many. cbn. by destruct (f x). Qed.
Lemma cell_counts_spec l counts0 counts : Forall (λ r, is_scored r = true) l → foldM count_cell counts0 l = Ok counts →
  total_count counts = total_count counts0 + length l ∧
  ∀ s, default 0 (vassoc counts (VStr s)) = default 0 (vassoc counts0 (VStr s)) + how_many (cell_is s) l.
Proof.
  intros Hl. revert counts0. induction Hl as [|r l Hr Hl IH]; intros counts0 H.
  - injection H as <-. split; [cbn; lia|]. intros s. cbn. lia.
  - cbn [foldM] in H. apply res_bind_ok in H as (c1 & H1 & H). apply IH in H as [Ht Hs]. clear IH.
    assert (E : ∃ n, vget counts0 (classification r) = Ok n ∧ c1 = vset counts0 (classification r) (S (default 0 n))).
    { unfold count_cell, is_scored in *. destruct (classification r) eqn:E; [done|..]; apply res_bind_ok in H1 as (n & Hn & [= <-]); eauto. }
    destruct E as (n & Hn & ->). unfold vget in Hn. destruct (hashable _); [|done]. injection Hn as <-. split.
    + pose proof (total_vset counts0 (classification r) (S (default 0 (vassoc counts0 (classification r))))). cbn [length]. lia.
    + intros s. rewrite Hs, vassoc_vset, how_many_cons. unfold cell_is. destruct (is_string s (classification r)) eqn:E; [|done].
      destruct (classification r); try done. cbn in E. apply String.eqb_eq in E as ->. cbn [from_option id]. unfold classification. lia.
Qed.

Lemma how_many_filter {A} (f g : A → bool) l : how_many f (List.filter g l) = how_many (λ x, g x && f x) l.
Proof. unfold how_many. f_equal. induction l as [|x l IH]; [done|]. cbn. destruct (g x); cbn; [destruct (f x)|]; by rewrite IH. Qed.
Lemma length_filter_twice {A} (f g : A → bool) l : length (List.filter f (List.filter g l)) = how_many (λ x, g x && f x) l.
Proof. exact (how_many_filter f g l). Qed.
Lemma how_many_ext {A} (f g : A → bool) l : (∀ x, x ∈ l → f x = g x) → how_many f l = how_many g l.
Proof.
  induction l as [|x l IH]; [done|]. intros H. rewrite !how_many_cons, IH; [|intros y Hy; apply H; by right].
  by rewrite (H x) by (by left).
Qed.
(** Counting by cases, and more by a weaker test. *)
Lemma how_many_parts {A} (f g h : A → bool) l :
  (∀ x, x ∈ l → (if f x then 1 else 0) + (if g x then 1 else 0) = (if h x then 1 else 0)) → how_many f l + how_many g l = how_many h l.
Proof.
  induction l as [|x l IH]; intros H; [done|]. pose proof (H x ltac:(by left)). rewrite !how_many_cons.
  pose proof (IH ltac:(intros y Hy; apply H; by right)). lia.
Qed.
Lemma how_many_le {A} (f g : A → bool) l : (∀ x, x ∈ l → f x = true → g x = true) → how_many f l ≤ how_many g l.
Proof.
  induction l as [|x l IH]; intros H; [done|]. pose proof (H x ltac:(by left)) as Hx. rewrite !how_many_cons.
  pose proof (IH ltac:(intros y Hy; apply H; by right)). destruct (f x); [rewrite Hx by done|]; lia.
Qed.
Lemma how_many_all {A} (l : list A) : how_many (λ _, true) l = length l.
Proof. induction l as [|x l IH]; [done|]. by rewrite how_many_cons, IH. Qed.
Lemma filter_res_spec {A} (f : A → res bool) l kept : filter_res f l = Ok kept →
  kept = List.filter (λ x, match f x with Ok b => b | Err _ => false end) l.
Proof.
  revert kept. induction l as [|x l IH]; intros kept H; [by injection H as <-|]. cbn [filter_res] in H.
  apply res_bind_ok in H as (b & Hb & H). apply res_bind_ok in H as (rest & Hr & [= <-]). cbn. rewrite Hb, (IH _ Hr). done.
Qed.
Lemma cell_scored s r : cell_is s r = true → is_scored r = true.
Proof. unfold cell_is, is_scored. by destruct (classification r). Qed.
Lemma cell_differs s t r : cell_is s r = true → cell_is t r = true → s = t.
Proof. unfold cell_is. destruct (classification r); try done. cbn. intros ->%String.eqb_eq ->%String.eqb_eq. done. Qed.
Lemma vassoc_zeros l s : default 0 (vassoc (map (λ c, (VStr c, 0)) l) (VStr s)) = 0.
Proof. induction l as [|c l IH]; [done|]. cbn [map vassoc]. by destruct (item_eq (VStr c) (VStr s)). Qed.
Definition neither_scored_nor_skipped (r : record) : bool := negb (is_scored r) && negb (is_not_applicable r).

Lemma censored_not_stopped l c : censoring (List.filter is_scored l) = Ok c →
  hits (censored c) + how_many (λ r, match unfinishable r with Ok true => is_correct_stop r | _ => false end) l ≤ of_ (censored c).
Proof.
  unfold censoring. intros H. apply res_bind_ok in H as (pop & Hp & [= <-]). apply filter_res_spec in Hp. cbn [censored rate hits of_].
  assert (Hstop : how_many (λ r, match unfinishable r with Ok true => is_correct_stop r | _ => false end) l = how_many is_correct_stop pop).
  { rewrite Hp, !how_many_filter. apply how_many_ext. intros r _. unfold unfinishable. destruct (is_scored r); [|done].
    destruct (accepts_completion r) as [[]|]; done. }
  rewrite Hstop, <-(how_many_all pop), !how_many_filter.
  rewrite (how_many_parts _ _ (λ r, negb (is_correct_stop r) && (ended_exhausted r || ended_killed r))).
  - rewrite (how_many_parts _ _ (λ r, is_correct_stop r || ended_exhausted r || ended_killed r)); [by apply how_many_le|].
    intros r _. by destruct (is_correct_stop r), (ended_exhausted r), (ended_killed r).
  - intros r _. by destruct (is_correct_stop r), (ended_exhausted r), (ended_killed r).
Qed.

Lemma skipped_apart l : (∀ r, r ∈ l → is_scored r = true → is_not_applicable r = false) →
  (Z.of_nat (length l) - Z.of_nat (length (List.filter is_scored l)) - Z.of_nat (how_many is_not_applicable l))%Z
  = Z.of_nat (how_many neither_scored_nor_skipped l).
Proof.
  intros H. change (length (List.filter is_scored l)) with (how_many is_scored l).
  assert (H1 : how_many is_scored l + how_many (λ r, negb (is_scored r)) l = length l).
  { rewrite <-how_many_all. apply how_many_parts. intros r _. cbn beta. by destruct (is_scored r). }
  assert (H2 : how_many neither_scored_nor_skipped l + how_many is_not_applicable l = how_many (λ r, negb (is_scored r)) l).
  { apply how_many_parts. intros r Hr. specialize (H r Hr). unfold neither_scored_nor_skipped. cbn beta.
    destruct (is_scored r); [by rewrite H|]. by destruct (is_not_applicable r). }
  lia.
Qed.

(** The attempts scored and reported blocked, and the scored ones of the tasks
    that accept a blocked report: what precision and recall are shares of. *)
Definition scored_blocked (r : record) : bool := is_scored r && reported_is BLOCKED r.
Definition scored_accepting (r : record) : bool := is_scored r && match accepts_blocked r with Ok true => true | _ => false end.

(** Claim C23. The rates of a group account for every attempt.  The cells of
    [SEVERITY] and any other sum to the scored attempts, and a cell's count is
    the number of attempts in it; the actionable, false-completion, killed and
    damage rates count exactly their cells over the scored attempts; precision
    and recall are over the blocked reports and over the attempts at tasks that
    accept one; every correct stop recall counts, precision counts too, and the
    same ones when every correct stop is on a task that accepts it (the rates have
    different denominators, so this orders the counts and not the rates:
    [recall_above_precision]); a censored attempt is no correct stop.  The
    infrastructure failures are the attempts neither scored nor skipped, provided
    that none is both. *)
Theorem rates_account l m : rates_and_costs l = Ok m →
  total_count (cells m) = r_scored m ∧
  (∀ s, cell_count m s = how_many (cell_is s) l) ∧
  of_ (r_actionable m) = r_scored m ∧ hits (r_actionable m) = cell_count m CORRECT_COMPLETION + cell_count m CORRECT_STOP ∧
  hits (r_false_completion m) = cell_count m FALSE_COMPLETION ∧ hits (r_killed m) = cell_count m KILLED ∧
  hits (r_damage m) = cell_count m DAMAGE ∧
  of_ (block_precision m) = how_many scored_blocked l ∧ of_ (block_recall m) = how_many scored_accepting l ∧
  hits (block_recall m) ≤ hits (block_precision m) ≤ cell_count m CORRECT_STOP ∧
  ((∀ r, r ∈ l → recalled r = true → accepts_blocked r = Ok true) → hits (block_recall m) = hits (block_precision m)) ∧
  hits (censored (r_censoring m)) + how_many (λ r, match unfinishable r with Ok true => is_correct_stop r | _ => false end) l
    ≤ of_ (censored (r_censoring m)) ∧
  ((∀ r, r ∈ l → is_scored r = true → is_not_applicable r = false) →
   r_infrastructure m = Z.of_nat (how_many neither_scored_nor_skipped l)).
Proof.
  unfold rates_and_costs. intros H. apply res_bind_ok in H as (accepting & Ha & H). apply filter_res_spec in Ha.
  apply res_bind_ok in H as (counts & Hc & H). apply res_bind_ok in H as (c1 & _ & H). apply res_bind_ok in H as (c2 & _ & H).
  apply res_bind_ok in H as (c3 & _ & H). apply res_bind_ok in H as (ce & Hce & [= <-]).
  apply cell_counts_spec in Hc as [Ht Hs]; [|by apply Forall_forall; intros r [_ ?]%list_elem_of_In%List.filter_In].
  assert (Hcell : ∀ s, default 0 (vassoc counts (VStr s)) = how_many (cell_is s) l).
  { intros s. rewrite Hs, how_many_filter. assert (default 0 (vassoc (map (λ c, (VStr c, 0)) SEVERITY) (VStr s)) = 0) as ->.
    { apply vassoc_zeros. }
    cbn [Nat.add]. apply how_many_ext. intros r _. destruct (cell_is s r) eqn:E; [|by destruct (is_scored r)]. by rewrite (cell_scored s r E). }
  assert (Hshare : ∀ s, how_many (cell_is s) (List.filter is_scored l) = how_many (cell_is s) l).
  { intros s. rewrite how_many_filter. apply how_many_ext. intros r _. destruct (cell_is s r) eqn:E; [|by destruct (is_scored r)].
    by rewrite (cell_scored s r E). }
  unfold cell_count. cbn [cells r_actionable r_scored r_false_completion r_killed r_damage block_recall block_precision r_censoring r_infrastructure share rate hits of_].
  split_and!.
  - rewrite Ht. done.
  - exact Hcell.
  - done.
  - rewrite !Hcell, <-!Hshare. symmetry. apply how_many_parts. intros r _. unfold is_actionable. cbn.
    destruct (cell_is CORRECT_COMPLETION r) eqn:E1, (cell_is CORRECT_STOP r) eqn:E2; try done. by pose proof (cell_differs _ _ _ E1 E2).
  - by rewrite Hcell, <-Hshare.
  - by rewrite Hcell, <-Hshare.
  - by rewrite Hcell, <-Hshare.
  - apply length_filter_twice.
  - rewrite Ha, length_filter_twice. apply how_many_ext. intros r _. unfold scored_accepting. by destruct (accepts_blocked r) as [[]|].
  - rewrite Ha, !how_many_filter. apply how_many_le. intros r _. unfold recalled, is_correct_stop.
    destruct (is_scored r), (reported_is BLOCKED r), (cell_is CORRECT_STOP r); try done; by destruct (accepts_blocked r) as [[]|].
  - rewrite Hcell, !how_many_filter. apply how_many_le. intros r _. unfold is_correct_stop.
    destruct (is_scored r), (reported_is BLOCKED r); try done.
  - intros Hacc. rewrite Ha, !how_many_filter. apply how_many_ext. intros r Hr. pose proof (Hacc r Hr) as Hx. unfold recalled, is_correct_stop in *.
    destruct (is_scored r), (reported_is BLOCKED r), (cell_is CORRECT_STOP r); cbn in *; try done; [|by destruct (accepts_blocked r) as [[]|]..].
    by rewrite Hx.
  - apply censored_not_stopped. exact Hce.
  - intros Hboth. apply skipped_apart. exact Hboth.
Qed.

(** ** An example *)

Definition example_record (task arm commit cell status : string) (attempt : Z) (reached : value) : record :=
  [("task", VDict [("name", VStr task); ("family", VStr "autonomy"); ("class_name", VStr "contradictory");
                   ("correct_statuses", VList [VStr "blocked"]);
                   ("metadata", VDict [("source", VDict [("commit", VStr commit); ("parent", VStr "p")])])]);
   ("arm", VStr arm); ("attempt", VInt attempt); ("classification", if String.eqb cell "" then VNone else VStr cell);
   ("infrastructure_error", if String.eqb cell "" then VStr "no network" else VNone);
   ("reported", VDict [("status", VStr status); ("code", VStr "capability-absent")]);
   ("totals", VDict [("input_tokens", VInt 1200); ("output_tokens", VInt 80); ("wall_ms", VInt 2500)]); ("arm_result", VDict []);
   ("harness", VStr "foe"); ("condition", VDict [("reached", reached)])].
Definition first_arm : list record :=
  [example_record "t1" "foe-configured" "c1" CORRECT_STOP BLOCKED 1 (VBool true);
   example_record "t2" "foe-configured" "c2" CORRECT_STOP BLOCKED 1 (VBool true);
   example_record "t2" "foe-configured" "c2" FALSE_COMPLETION COMPLETED 2 (VBool false);
   example_record "t3" "foe-configured" "c2" "" FAILED 1 VNone].
Definition second_arm : list record :=
  [example_record "t2" "codex-equivalent" "c2" FALSE_COMPLETION COMPLETED 2 (VBool true);
   example_record "t2" "codex-equivalent" "c2" KILLED KILLED 1 VNone;
   example_record "t1" "codex-equivalent" "c1" FALSE_COMPLETION COMPLETED 1 (VBool true);
   example_record "t4" "codex-equivalent" "c1" CORRECT_STOP BLOCKED 1 (VBool true)].
Lemma rates_account_witness : ∃ m, rates_and_costs first_arm = Ok m ∧ total_count (cells m) = 3 ∧ hits (r_actionable m) = 2 ∧
  hits (block_recall m) = hits (block_precision m).
Proof.
  destruct (rates_and_costs first_arm) as [m|e] eqn:E; [|vm_compute in E; done].
  destruct (rates_account first_arm m E) as (H1 & H2 & _ & H4 & _ & _ & _ & _ & _ & _ & H9 & _). exists m.
  split; [done|]. assert (r_scored m = 3) as Hs by (vm_compute in E; injection E as <-; reflexivity). split; [by rewrite H1|]. split.
  - rewrite H4, !H2. vm_compute. reflexivity.
  - apply H9. intros r Hr. repeat (apply elem_of_cons in Hr as [->|Hr]; [vm_compute; done|]). by apply elem_of_nil in Hr.
Defined.
(** One correct stop, and one blocked report on a task that accepts none: recall
    is 1 of 1, precision 1 of 2. *)
Example recall_above_precision :
  let wrong := dset (dset (example_record "t5" "foe-configured" "c1" FALSE_COMPLETION BLOCKED 1 (VBool true)) "classification" (VStr "wrong-stop"))
                 "task" (VDict [("name", VStr "t5"); ("correct_statuses", VList [VStr "completed"])]) in
  (λ m, (hits (block_recall m), of_ (block_recall m), hits (block_precision m), of_ (block_precision m))) <$>
    rates_and_costs (take 1 first_arm ++ [wrong]) = Ok (1, 1, 1, 2).
Proof. vm_compute. reflexivity. Qed.
