(* ===== verification/Mechanisms.v ===== *)
(** * What an arm did

    src/evals/cross_harness/report.py: ceilings, stops, the verifier's firings
    and the other mechanism columns, the agreement of an arm's report with its
    logs, and the row of an arm, a class, a task and an attempt. *)

From Stdlib Require Import Ascii.
From stdpp Require Import base list strings pretty sorting.
From Stdlib Require Import ZArith Lia SpecFloat.
From S2P Require Import Prelude PyValue PyText PyJson PyUnicode PyPath PyFloat TaskProtocol Trajectory Report.

(** ** Ceilings *)

(** [spent / limit], of an integer or of seconds. *)
Definition use_of (spent : Z + spec_float) (limit : Z) : res spec_float :=
  match spent with inl n => int_div n limit | inr f => d ← float_of limit; Ok (float_div f d) end.
Definition ceiling_use (r : record) : res (list (string * option spec_float)) :=
  budget ← object_or_empty r "budget";
  totals ← object_or_empty r "totals";
  measured ← cost r;
  map_res (λ key,
    let spent := if String.eqb key SECONDS_KEY then inr <$> measured.2 else inl <$> integer (dget totals key) in
    match integer (dget budget key), spent with
    | Some limit, Some spent =>
        if (limit <=? 0)%Z then Ok (key, None) else f ← use_of spent limit; Ok (key, Some f)
    | _, _ => Ok (key, None)
    end) CEILING_KEYS.
(** [use[key]], of the keys [ceiling_use] gives. *)
Definition used (use : list (string * option spec_float)) (key : string) : option spec_float := mjoin (assoc use key).
Definition enforced_ceilings (r : record) : list string :=
  default CEILING_KEYS (assoc ENFORCED_CEILINGS (default "" (harness_of r))).
(** [value >= 1]. *)
Definition at_ceiling (f : spec_float) : bool := SFleb (int_float 1) f.

Record Utilization : Type := { u_mean : option spec_float; u_max : option spec_float; u_measured : nat; u_enforced : nat; u_reached : nat }.
Record Ceilings : Type := {
  c_scored : nat;
  utilization : list (string * Utilization);
  c_at_ceiling : Rate;
  c_exhausted : nat;
  bound_by : list (string * nat);
}.
(** What bound an exhausted attempt. *)
Definition binding_limit (r : record) : res value :=
  let code := dget (trajectory_outcome r) "code" in
  if truthy code then Ok code else stated ← inner r "reported" "code"; Ok (py_or stated (VStr UNSTATED_LIMIT)).
(** [counts[key] = counts.get(key, 0) + n]. *)
Definition tally {A} (add : A → A) (zero : A) (counts : list (string * A)) (key : string) : list (string * A) :=
  dset counts key (add (default zero (assoc counts key))).
Definition held_use := (list (string * option spec_float) * list string)%type.
Definition utilization_of (held : list held_use) (key : string) : string * Utilization :=
  let values := omap (λ uk : held_use, used uk.1 key) held in
  let bound := omap (λ uk : held_use, if elem_str key uk.2 then used uk.1 key else None) held in
  (key, {| u_mean := mean values; u_max := float_max values; u_measured := length values; u_enforced := length bound;
           u_reached := length (List.filter at_ceiling bound) |}).
Definition reaches_one (uk : held_use) : bool :=
  existsb (λ key, match used uk.1 key with Some f => at_ceiling f | None => false end) uk.2.
Definition ceilings (l : list record) : res Ceilings :=
  let scored := List.filter is_scored l in
  uses ← map_res ceiling_use scored;
  let held := zip uses (map enforced_ceilings scored) in
  let ended := List.filter ended_exhausted scored in
  limits ← map_res binding_limit ended;
  Ok {| c_scored := length scored; utilization := map (utilization_of held) CEILING_KEYS;
        c_at_ceiling := rate (length (List.filter reaches_one held)) (length scored);
        c_exhausted := length ended;
        bound_by := sorted_items (fold_left (tally S 0) (map py_str limits) []) |}.

(** ** Stops *)

Record BlockedCode : Type := {
  b_task : string; b_arm : value; b_attempt : value; b_class : option string;
  b_code : option string; b_correct_codes : list string; b_task_accepts : bool; b_accepted : bool;
  b_findings : list string; b_classification : value;
}.
(** [[str(x) for x in v or []]]. *)
Definition texts (v : value) : res (list string) := l ← py_iter (py_or v (VList [])); Ok (map py_str l).
Definition stated_code (v : value) : option string := match v with VNone => None | v => Some (py_str v) end.
Definition blocked_code (r : record) : res BlockedCode :=
  codes ← texts (task_field r "correct_codes");
  stated ← inner r "reported" "code";
  accepting ← accepts_blocked r;
  graded ← object_or_empty r "grade";
  found ← texts (dget graded "findings");
  Ok {| b_task := task_name r; b_arm := dget r "arm"; b_attempt := dget r "attempt"; b_class := class_name r;
        b_code := stated_code stated; b_correct_codes := sorted_strings codes; b_task_accepts := accepting;
        b_accepted := accepting && (negb (nonempty codes) || match stated_code stated with Some c => elem_str c codes | None => false end);
        b_findings := found; b_classification := classification r |}.
Definition stopped_blocked (r : record) : bool := is_scored r && reported_is BLOCKED r.
Definition blocked_codes (l : list record) : res (list BlockedCode) := map_res blocked_code (List.filter stopped_blocked l).

(** ** The streams of a trajectory *)

(** The objects of [agent.get(key, [])], over [trajectory.get("agents", [])]. *)
Definition stream (key : string) (r : record) : res (list dict) :=
  match trajectory_of r with
  | None => Ok []
  | Some t =>
      agents ← py_iter (dget_or t "agents" (VList []));
      found ← map_res (λ agent, held ← get_or agent key (VList []); py_iter held) agents;
      Ok (omap as_dict (concat found))
  end.
Definition tool_calls : record → res (list dict) := stream "tool_calls".
Definition shell_commands : record → res (list dict) := stream "commands".

Definition METADATA_CHECK : string := "check".
Definition CHECK_COMMAND_MARKERS : list string := ["checks/run.sh"; "unittest discover -s tests"].
Definition COMMAND_WRAPPERS : list string :=
  ["bash"; "sh"; "dash"; "ksh"; "zsh"; "env"; "exec"; "nohup"; "time"; "timeout"; "stdbuf"; "python"; "python3"].
Definition VERIFIER_NAMES : list string := ["check"; "verification/result"].
Definition BLOCK_TOOL : string := "block".
Definition BLOCK_SUMMARY_PREFIX : string := "code ".
Definition VERIFIER_FROM_TOOL : string := "tool".
Definition VERIFIER_FROM_COMMAND : string := "command".

Definition check_markers (r : record) : res (list string) :=
  metadata ← object_or_empty (task_of r) "metadata";
  Ok (match dget metadata METADATA_CHECK with
      | VStr named => if String.eqb (str_strip named) "" then CHECK_COMMAND_MARKERS else [str_strip named]
      | _ => CHECK_COMMAND_MARKERS
      end).

(** ** Words of a command *)

(** [re.split] at [&&], [||], [;], [|] and line feeds, on characters. *)
Fixpoint command_parts (part : string) (s : string) : list string :=
  match s with
  | EmptyString => [str_rev part]
  | String "&"%char (String "&"%char s) | String "|"%char (String "|"%char s) => str_rev part :: command_parts "" s
  | String c s =>
      if Ascii.eqb c ";"%char || Ascii.eqb c "|"%char || Ascii.eqb c newline then str_rev part :: command_parts "" s
      else command_parts (String c part) s
  end.
Definition is_quote (c : ascii) : bool := Ascii.eqb c dquote || Ascii.eqb c "'"%char.
Fixpoint drop_quotes (s : string) : string :=
  match s with String c s' => if is_quote c then drop_quotes s' else s | EmptyString => "" end.
(** [word.strip] of both quotes. *)
Definition unquoted (word : string) : string := str_rev (drop_quotes (str_rev (drop_quotes word))).

Section verifier.
(** Tables of Unicode: the letters and digits [\w] takes, the characters
    [str.isdigit] takes, and the value of a decimal digit, as [\d] has them. *)
Context (word digit : string → bool) (decimal : string → option Z).

(** [word.isdigit()]. *)
Definition all_digits (w : string) : bool :=
  match utf8_chars w with [] => false | cs => forallb digit cs end.
Definition is_wrapper (w : string) : bool := starts_with "-" w || all_digits w || elem_str (path_name w) COMMAND_WRAPPERS.
Fixpoint after_wrappers (words : list string) : list string :=
  match words with w :: rest => if is_wrapper w then after_wrappers rest else words | [] => [] end.
Definition runs_marker (words : list string) (marker : string) : bool :=
  match words with
  | [] => false
  | program :: _ => starts_with marker (join " " words) || String.eqb program marker || ends_with ("/" +:+ marker) program
  end.
(** [_runs_check_suite]. *)
Definition runs_check_suite (text : string) (markers : list string) : bool :=
  existsb (λ part, let left := after_wrappers (map unquoted (split_words part)) in existsb (runs_marker left) markers)
    (command_parts "" text).

(** *** [re.search(r"(\d+)\s+findings?\b", summary)] *)

Fixpoint span_digits (cs : list string) : list Z * list string :=
  match cs with
  | c :: rest => match decimal c with Some d => let '(ds, r) := span_digits rest in (d :: ds, r) | None => ([], cs) end
  | [] => ([], [])
  end.
Definition edge_after (before : string) (after : list string) : bool := at_edge word (Some before) (head after).
(** [findings?\b]: with its [s], and without. *)
Definition finding_word (cs : list string) : bool :=
  match cs with
  | "f" :: "i" :: "n" :: "d" :: "i" :: "n" :: "g" :: rest =>
      match rest with "s" :: after => edge_after "s" after | _ => edge_after "g" rest end
  | _ => false
  end.
(** A count at this place: digits, white space, the word. *)
Definition count_here (cs : list string) : option (list Z) :=
  match span_digits cs with
  | ([], _) => None
  | (ds, rest) =>
      match rest with
      | c :: _ => if space_char c && finding_word (drop_spaces rest) then Some ds else None
      | [] => None
      end
  end.
Fixpoint find_count (cs : list string) : option (list Z) :=
  match count_here cs with
  | Some ds => Some ds
  | None => match cs with _ :: rest => find_count rest | [] => None end
  end.
(** [int] of a run of digits, at most 4300 of them. *)
Definition digits_int (ds : list Z) : res Z :=
  if 4300 <? length ds then
    Err (ValueError ("Exceeds the limit (4300 digits) for integer string conversion: value has " +:+ nat_str (length ds)
                     +:+ " digits; use sys.set_int_max_str_digits() to increase the limit"))
  else Ok (fold_left (λ n d, 10 * n + d)%Z ds 0%Z).
(** [_findings_cleared]. *)
Definition findings_cleared (summary : value) (is_error : bool) : res bool :=
  match summary with
  | VStr s => match find_count (utf8_chars s) with
              | Some ds => n ← digits_int ds; Ok (n =? 0)%Z
              | None => Ok (negb is_error)
              end
  | _ => Ok (negb is_error)
  end.

(** ** The verifier's firings *)

Definition verifier_source (r : record) : option string :=
  match harness_of r with
  | None => None
  | Some h => Some (if String.eqb h FOE_HARNESS then VERIFIER_FROM_TOOL else VERIFIER_FROM_COMMAND)
  end.
Record Evidence : Type := { e_source : option string; e_runs : nat; e_cleared : option bool }.
Definition fires_verifier (call : dict) : bool := existsb (λ n, is_string n (dget call "name")) VERIFIER_NAMES.
Definition tool_firings (calls : list dict) : res (list (option bool)) :=
  map_res (λ call, b ← findings_cleared (dget call "summary") (truthy (dget call "is_error")); Ok (Some b))
    (List.filter fires_verifier calls).
Definition command_firing (markers : list string) (command : dict) : option (option bool) :=
  match dget command "text" with
  | VStr t => if runs_check_suite t markers then Some ((λ z, z =? 0)%Z <$> integer (dget command "exit_code")) else None
  | _ => None
  end.
Definition firings (r : record) : res (list (option bool)) :=
  match verifier_source r with
  | None => Ok []
  | Some s =>
      if String.eqb s VERIFIER_FROM_TOOL then calls ← tool_calls r; tool_firings calls
      else (markers ← check_markers r; commands ← shell_commands r; Ok (omap (command_firing markers) commands) : res (list (option bool)))
  end.
Definition verifier_evidence (r : record) : res Evidence :=
  l ← firings r; Ok {| e_source := verifier_source r; e_runs := length l; e_cleared := mjoin (last l) |}.

(** ** The other columns *)

Definition block_call_code (call : dict) : option string :=
  match dget call "summary" with
  | VStr s =>
      let stated := if starts_with BLOCK_SUMMARY_PREFIX s then str_drop (String.length BLOCK_SUMMARY_PREFIX) s else s in
      if String.eqb (str_strip stated) "" then None else Some (str_strip stated)
  | _ => None
  end.
Definition block_call_codes (r : record) : res (list (option string)) :=
  calls ← tool_calls r; Ok (map block_call_code (List.filter (λ c, is_string BLOCK_TOOL (dget c "name")) calls)).
(** [len(v)]. *)
Definition length_of (v : value) : res Z :=
  match v with
  | VList l => Ok (Z.of_nat (length l))
  | VDict d => Ok (Z.of_nat (length d))
  | VStr s => Ok (Z.of_nat (py_len s))
  | v => Err (TypeError ("object of type '" +:+ type_name v +:+ "' has no len()"))
  end.
Definition compaction_count (r : record) : res (option Z) :=
  counted ← inner r "totals" "compactions";
  match integer counted with
  | Some n => Ok (Some n)
  | None =>
      match trajectory_of r with
      | None => Ok None
      | Some t =>
          agents ← py_iter (dget_or t "agents" (VList []));
          sizes ← map_res (λ agent, held ← get_or agent "compactions" (VList []); length_of held) agents;
          Ok (Some (fold_left Z.add sizes 0%Z))
      end
  end.

Record Mechanisms : Type := {
  m_source : option string; m_runs : nat; m_cleared : option bool; m_block_calls : nat; m_block_codes : list string;
  m_compactions : option Z; m_tool_calls : option Z; m_by_name : dict;
}.
Definition mechanisms (r : record) : res Mechanisms :=
  evidence ← verifier_evidence r;
  codes ← block_call_codes r;
  totals ← object_or_empty r "totals";
  compactions ← compaction_count r;
  Ok {| m_source := e_source evidence; m_runs := e_runs evidence; m_cleared := e_cleared evidence;
        m_block_calls := length codes; m_block_codes := present codes; m_compactions := compactions;
        m_tool_calls := integer (dget totals "tool_calls"); m_by_name := dict_or_empty (dget totals "tool_calls_by_name") |}.

(** [_mean_measured]. *)
Record Mean : Type := { mm_mean : option spec_float; mm_measured : nat }.
Definition mean_measured (l : list (option Z)) : res Mean :=
  measured ← floats l; Ok {| mm_mean := mean measured; mm_measured := length measured |}.
Record MechanismMetrics : Type := {
  mx_attempts : nat; mx_source : option string; mx_ran : Rate; mx_runs : Mean; mx_cleared : Rate; mx_block_called : Rate;
  mx_block_codes : list (string * nat); mx_compactions : Mean; mx_tool_calls : Mean; mx_by_name : list (string * Z);
}.
Definition count_name (names : list (string * Z)) (kv : string * value) : list (string * Z) :=
  match integer kv.2 with Some n => tally (λ m, m + n)%Z 0%Z names kv.1 | None => names end.
Definition mechanism_metrics (l : list record) : res MechanismMetrics :=
  let scored := List.filter is_scored l in
  measures ← map_res mechanisms scored;
  let fired := List.filter (λ m, 0 <? m_runs m) measures in
  let settled := omap m_cleared fired in
  runs ← mean_measured (map (λ m, Some (Z.of_nat (m_runs m))) measures);
  compactions ← mean_measured (map m_compactions measures);
  calls ← mean_measured (map m_tool_calls measures);
  Ok {| mx_attempts := length scored; mx_source := head (omap m_source measures);
        mx_ran := rate (length fired) (length scored); mx_runs := runs;
        mx_cleared := rate (length (List.filter id settled)) (length settled);
        mx_block_called := rate (length (List.filter (λ m, 0 <? m_block_calls m) measures)) (length scored);
        mx_block_codes := sorted_items (fold_left (tally S 0) (flat_map m_block_codes measures) []);
        mx_compactions := compactions; mx_tool_calls := calls;
        mx_by_name := sorted_items (fold_left count_name (flat_map m_by_name measures) []) |}.
End verifier.

(** ** Agreement, conformance and faults *)

Record Disagreement : Type := { g_task : string; g_attempt : value; arm_outcome : value; logs_outcome : value }.
Record Agreement : Type := { agreeing : Rate; g_not_measured : nat; disagreements : list Disagreement }.
(** A settled attempt, with whether its outcomes agree. *)
Definition settled_agreement (r : record) : res (option (record * bool)) :=
  agree ← inner r "outcomes" "agree"; Ok (match agree with VBool b => Some (r, b) | _ => None end).
Definition disagreement (r : record) : Disagreement :=
  let outcomes := dict_or_empty (dget r "outcomes") in
  {| g_task := task_name r; g_attempt := dget r "attempt"; arm_outcome := dget outcomes "arm"; logs_outcome := dget outcomes "trajectory" |}.
Definition outcome_agreement (l : list record) : res Agreement :=
  let scored := List.filter is_scored l in
  found ← map_res settled_agreement scored;
  let settled := present found in
  let against := map fst (List.filter (λ rb, negb rb.2) settled) in
  Ok {| agreeing := rate (length settled - length against) (length settled); g_not_measured := length scored - length settled;
        disagreements := map disagreement against |}.

Record Conformance : Type := { conforming : Rate; f_not_measured : nat; f_errors : list (string * value * string) }.
Definition conformance_of (r : record) : option (record * dict) := pair r <$> as_dict (dget r "conformance").
Definition is_valid_flag (d : dict) : option bool := match dget d "valid" with VBool b => Some b | _ => None end.
Definition conformance_error (rd : record * dict) : option (string * value * string) :=
  match is_valid_flag rd.2 with
  | Some _ => None
  | None => Some (task_name rd.1, dget rd.1 "attempt", py_str (dget rd.2 "error"))
  end.
Definition conformance_metrics (l : list record) : option Conformance :=
  match omap conformance_of (List.filter is_scored l) with
  | [] => None
  | reported =>
      let valid := omap (λ rd, is_valid_flag rd.2) reported in
      let errors := omap conformance_error reported in
      Some {| conforming := rate (length (List.filter id valid)) (length valid); f_not_measured := length errors; f_errors := errors |}
  end.

(** [fault_reasons] and [not_applicable_reasons]. *)
Definition reason (key : string) (r : record) : string * value * string := (task_name r, dget r "attempt", py_str (dget r key)).
Definition fault_reasons (l : list record) : list (string * value * string) :=
  map (reason "infrastructure_error") (List.filter (λ r, negb (is_none (dget r "infrastructure_error"))) l).
Definition not_applicable_reasons (l : list record) : list (string * value * string) :=
  map (reason NOT_APPLICABLE_KEY) (List.filter is_not_applicable l).

(** ** The row of an arm, of an attempt and of a task *)

Record ArmMetrics : Type := {
  a_rates : Rates; a_harness : option string; a_per_class : list (string * Rates); a_ceilings : Ceilings;
  a_blocked : list BlockedCode; a_code_accepted : Rate; a_mechanisms : MechanismMetrics; a_agreement : Agreement;
  a_conformance : option Conformance; a_faults : list (string * value * string); a_not_applicable : list (string * value * string);
}.
Record AutonomyMeasures : Type := {
  y_class : option string; y_status : option string; y_code : value; y_actionable : bool;
  y_totals : list (string * option Z); y_tokens : option Z; y_seconds : option spec_float;
  y_use : list (string * option spec_float); y_use_max : option spec_float; y_bound_by : option value;
  y_agree : value; y_conforms : value; y_scoring_version : option Z; y_condition : value; y_reached : value;
  y_mechanisms : Mechanisms;
}.
Record TaskArm : Type := {
  t_attempts : nat; t_scored : nat; t_cells : list (value * nat); t_actionable : Rate;
  t_tokens_mean : option spec_float; t_seconds_mean : option spec_float;
}.

Section rows.
Context (word digit : string → bool) (decimal : string → option Z).

Definition arm_metrics (l : list record) : res ArmMetrics :=
  blocked ← blocked_codes l;
  rates ← rates_and_costs l;
  per_class ← map_res (λ name, c ← rates_and_costs (List.filter (in_class name) l); Ok (name, c)) (classes_of l);
  held ← ceilings l;
  columns ← mechanism_metrics word digit decimal l;
  agreement ← outcome_agreement l;
  Ok {| a_rates := rates; a_harness := head (omap harness_of l); a_per_class := per_class; a_ceilings := held;
        a_blocked := blocked; a_code_accepted := rate (length (List.filter b_accepted blocked)) (length blocked);
        a_mechanisms := columns; a_agreement := agreement; a_conformance := conformance_metrics l;
        a_faults := fault_reasons l; a_not_applicable := not_applicable_reasons l |}.

(** [autonomy_measures]: nothing for a record of another family. *)
Definition autonomy_measures (r : record) : res (option AutonomyMeasures) :=
  if negb (is_string AUTONOMY_FAMILY (task_field r "family")) then Ok None else
  totals ← object_or_empty r "totals";
  spent ← cost r;
  use ← ceiling_use r;
  let conformance := dict_or_empty (dget r "conformance") in
  let condition := dict_or_empty (dget r "condition") in
  stated ← inner r "reported" "code";
  bound ← (if ended_exhausted r then Some <$> binding_limit r else Ok None);
  agree ← inner r "outcomes" "agree";
  columns ← mechanisms word digit decimal r;
  Ok (Some {| y_class := class_name r; y_status := reported_status r; y_code := stated; y_actionable := is_actionable r;
              y_totals := map (λ key, (key, integer (dget totals key))) COST_TOTAL_KEYS;
              y_tokens := spent.1; y_seconds := spent.2; y_use := use; y_use_max := float_max (omap (used use) (enforced_ceilings r));
              y_bound_by := bound; y_agree := agree; y_conforms := dget conformance "valid";
              y_scoring_version := integer (dget r "scoring_version");
              y_condition := dget condition "condition"; y_reached := dget condition "reached"; y_mechanisms := columns |}).

(** [per_task], of one task and arm. *)
Definition task_arm (group : list record) : res TaskArm :=
  let scored := List.filter is_scored group in
  costs ← costs_of scored;
  tokens ← tokens_of costs;
  counts ← cell_counts scored;
  Ok {| t_attempts := length group; t_scored := length scored; t_cells := List.filter (λ kv, negb (Nat.eqb kv.2 0)) counts;
        t_actionable := share is_actionable scored; t_tokens_mean := mean tokens; t_seconds_mean := mean (seconds_of costs) |}.
End rows.

(** The records of a task by arm; an arm that is no string is a key like any
    other, but only the listed arms are read. *)
Record TaskEntry : Type := { t_class : value; t_family : value; by_arm : list (value * list record) }.
Definition add_record (tasks : list (string * TaskEntry)) (r : record) : res (list (string * TaskEntry)) :=
  let entry := default {| t_class := task_field r "class_name"; t_family := task_field r "family"; by_arm := [] |}
                       (assoc tasks (task_name r)) in
  group ← vget (by_arm entry) (dget r "arm");
  Ok (dset tasks (task_name r)
        {| t_class := t_class entry; t_family := t_family entry;
           by_arm := vset (by_arm entry) (dget r "arm") (default [] group ++ [r]) |}).
Definition task_row (entry : TaskEntry) (arm : value) : res (option (value * TaskArm)) :=
  group ← vget (by_arm entry) arm;
  match group with
  | None | Some [] => Ok None
  | Some records => row ← task_arm records; Ok (Some (arm, row))
  end.
Definition task_rows (arms : list value) (entry : TaskEntry) : res (list (value * TaskArm)) :=
  found ← map_res (task_row entry) arms;
  Ok (present found).
Record TaskReport : Type := { p_class : value; p_family : value; p_arms : list (value * TaskArm) }.
Definition per_task (l : list record) (arms : list value) : res (list (string * TaskReport)) :=
  tasks ← foldM add_record [] l;
  map_res (λ kv, rows ← task_rows arms kv.2; Ok (kv.1, {| p_class := t_class kv.2; p_family := t_family kv.2; p_arms := rows |}))
    (sorted_items tasks).
