(* ===== verification/Comparison.v ===== *)
(** * Paired comparisons

    src/evals/cross_harness/report.py: the scored attempts of two arms paired by
    task and attempt and grouped by the construction of their task, the tests
    and the bootstrap over the groups, the comparison restricted to the pairs
    whose controls reached their conditions, and the whole report. *)

From Stdlib Require Import Ascii.
From stdpp Require Import base list strings pretty sorting.
From Stdlib Require Import ZArith Lia SpecFloat.
From S2P Require Import Prelude PyValue PyText PyFloat Grouping Stats TaskProtocol Trajectory Report Mechanisms.

Definition DEFAULT_RESAMPLES : Z := 2000.
Definition DEFAULT_SEED : Z := 0.
Definition SOLVABLE_CLASS : string := "solvable".
Definition NON_INFERIORITY_MARGIN : spec_float := int_ratio 10 100.
Definition NO_RESTRICTED_PAIR : string := "no pair remains in which both attempts' controls reached their conditions".

(** ** Pairing *)

Abbreviation attempt_key := (string * value)%type.
Abbreviation Pair := (record * record)%type.

Definition key_of (r : record) : attempt_key := (task_name r, dget r "attempt").
Definition key_eqb (x y : attempt_key) : bool := String.eqb x.1 y.1 && item_eq x.2 y.2.
Fixpoint kget {A} (d : list (attempt_key * A)) (k : attempt_key) : option A :=
  match d with [] => None | (k', v) :: d => if key_eqb k' k then Some v else kget d k end.
Fixpoint kset {A} (d : list (attempt_key * A)) (k : attempt_key) (v : A) : list (attempt_key * A) :=
  match d with
  | [] => [(k, v)]
  | (k', v') :: d => if key_eqb k' k then (k', v) :: d else (k', v') :: kset d k v
  end.
(** [{(task_name(r), r["attempt"]): r for r in l if is_scored(r)}]. *)
Definition index_step (d : list (attempt_key * record)) (r : record) : res (list (attempt_key * record)) :=
  if hashable (dget r "attempt") then Ok (kset d (key_of r) r) else Err (unhashable (dget r "attempt")).
Definition by_attempt (l : list record) : res (list (attempt_key * record)) := foldM index_step [] (List.filter is_scored l).

(** The order of keys: by task, then by attempt, numbers or strings.  Two
    attempts of one task that are neither cannot be compared; nor, here, NaN. *)
Definition comparable (x y : attempt_key) : bool :=
  negb (String.eqb x.1 y.1) ||
  match x.2, y.2 with
  | VStr _, VStr _ => true
  | a, b => match as_num a, as_num b with Some m, Some n => negb (is_nan m) && negb (is_nan n) | _, _ => false end
  end.
Definition attempt_leb (x y : value) : bool :=
  match x, y with
  | VStr a, VStr b => bool_decide (String.le a b)
  | _, _ => match as_num x, as_num y with Some m, Some n => num_leb m n | _, _ => true end
  end.
Definition key_leb (x y : attempt_key) : bool :=
  if String.eqb x.1 y.1 then attempt_leb x.2 y.2 else bool_decide (String.le x.1 y.1).
Definition key_le (x y : attempt_key) : Prop := key_leb x y = true.
#[export] Instance key_le_dec x y : Decision (key_le x y) := decide (_ = true).
Fixpoint pairwise {A} (f : A → A → bool) (l : list A) : bool :=
  match l with [] => true | x :: l => forallb (f x) l && pairwise f l end.
Definition sorted_by_key (l : list attempt_key) : res (list attempt_key) :=
  if pairwise comparable l then Ok (merge_sort key_le l)
  else Err (TypeError "'<' not supported between instances of these types").

(** The pair under a key of both arms. *)
Definition pair_at (first second : list (attempt_key * record)) (k : attempt_key) : option Pair :=
  a ← kget first k; b ← kget second k; Some (a, b).
Definition with_construction (p : Pair) : res (string * Pair) := c ← record_construction p.1; Ok (c, p).
Definition paired (records_first records_second : list record) : res (clusters Pair) :=
  first ← by_attempt records_first;
  second ← by_attempt records_second;
  order ← sorted_by_key (List.filter (λ k, match kget second k with Some _ => true | None => false end) (map fst first));
  named ← map_res with_construction (omap (pair_at first second) order);
  Ok (grouped named).
Definition by_task (c : clusters Pair) : clusters Pair := grouped (map (λ p, (task_name p.1, p)) (members c)).

(** ** Counts and differences *)

Record Discordance : Type := { both : nat; only_first : nat; only_second : nat; neither : nat }.
Definition pairs_where (f : bool → bool → bool) (predicate : record → bool) (l : list Pair) : nat :=
  how_many (λ p : Pair, f (predicate p.1) (predicate p.2)) l.
Definition discordance (c : clusters Pair) (predicate : record → bool) : Discordance :=
  let l := members c in
  {| both := pairs_where (λ a b, a && b) predicate l; only_first := pairs_where (λ a b, a && negb b) predicate l;
     only_second := pairs_where (λ a b, negb a && b) predicate l; neither := pairs_where (λ a b, negb a && negb b) predicate l |}.
(** [float(b)]. *)
Definition float_bool (b : bool) : spec_float := int_float (if b then 1 else 0).
Definition mean_difference (l : list (spec_float * spec_float)) : spec_float :=
  float_div (float_sum (map (λ ab, float_sub ab.1 ab.2) l)) (int_float (Z.of_nat (length l))).
(** [_values]. *)
Definition values (c : clusters Pair) (predicate : record → bool) : clusters (spec_float * spec_float) :=
  map (λ kv, (kv.1, map (λ p : Pair, (float_bool (predicate p.1), float_bool (predicate p.2))) kv.2)) c.
Definition mean_differences (c : clusters (spec_float * spec_float)) : list (string * spec_float) :=
  map (λ kv, (kv.1, mean_difference kv.2)) c.
Definition cluster_differences (c : clusters Pair) (predicate : record → bool) : list (string * spec_float) :=
  mean_differences (values c predicate).

(** ** The bootstrap *)

(** [round(f)]: to the nearest integer, halves to the even one. *)
Definition round_float (f : spec_float) : Z :=
  match f with
  | S754_finite s m e =>
      let n := if (0 <=? e)%Z then (Zpos m * 2 ^ e)%Z else
        let d := (2 ^ (- e))%Z in let q := (Zpos m / d)%Z in let twice := (2 * (Zpos m mod d))%Z in
        if (twice <? d)%Z then q else if (d <? twice)%Z then (q + 1)%Z else if Z.even q then q else (q + 1)%Z in
      if s then (- n)%Z else n
  | _ => 0%Z
  end.
Definition quantile (numerator : Z) (resamples : Z) : Z :=
  round_float (float_mul (int_ratio numerator 1000) (int_float (resamples - 1))).
Record Interval : Type := {
  observed : option spec_float; lower : option spec_float; upper : option spec_float; cluster_count : nat; pair_count : nat;
  resamples : Z; seed : Z; degenerate : bool; degenerate_reason : option string;
}.
Fixpoint distinct_floats (l : list spec_float) : list spec_float :=
  match l with [] => [] | x :: l => let rest := distinct_floats l in if existsb (SFeqb x) rest then rest else x :: rest end.

Section bootstrap.
(** [random.Random(seed)]: what its [k]-th call of [choice] picks of [n] names. *)
Context (choice : Z → nat → nat → nat).

Definition difference_of (means : list (string * spec_float)) (chosen : list string) : spec_float :=
  float_div (float_sum (omap (assoc means) chosen)) (int_float (Z.of_nat (length chosen))).
Definition resample (names : list string) (sd : Z) (i : nat) : list string :=
  omap (λ j, names !! choice sd (i * length names + j) (length names)) (seq 0 (length names)).
Definition degenerate_why (names : list string) (spread : list spec_float) : option string :=
  match names, spread with
  | [n], _ => Some ("the interval rests on the one cluster " +:+ n +:+ ", so every resample draws it")
  | _, [d] => Some ("every pair differs by " +:+ float_repr d +:+ ", so every resample gives that difference")
  | _, _ => None
  end.
Definition cluster_bootstrap (c : clusters (spec_float * spec_float)) (n sd : Z) : res Interval :=
  if (n <? 1)%Z then Err (ValueError ("resamples is " +:+ Z_str n +:+ "; at least 1 is required")) else
  match sorted_strings (keys c) with
  | [] => Ok {| observed := None; lower := None; upper := None; cluster_count := 0; pair_count := 0; resamples := n; seed := sd;
                degenerate := true; degenerate_reason := Some "no cluster pairs the two arms, so there is nothing to resample" |}
  | names =>
      let means := mean_differences c in
      let draws := sorted_floats (map (λ i, difference_of means (resample names sd i)) (seq 0 (Z.to_nat n))) in
      lower ← py_index draws (quantile 25 n);
      upper ← py_index draws (quantile 975 n);
      let why := degenerate_why names (distinct_floats (map (λ ab, float_sub ab.1 ab.2) (members c))) in
      Ok {| observed := Some (difference_of means names); lower := Some lower; upper := Some upper; cluster_count := length names;
            pair_count := length (members c); resamples := n; seed := sd;
            degenerate := match why with Some _ => true | None => false end; degenerate_reason := why |}
  end.

(** ** Comparing two arms *)

(** The record states a condition whose [reached] is there and not false. *)
Definition control_reached (r : record) : bool :=
  match dget r "condition" with
  | VDict d => match assoc d "reached" with Some (VBool false) | None => false | Some _ => true end
  | _ => false
  end.
Definition both_reached (p : Pair) : bool := control_reached p.1 && control_reached p.2.
Definition restricted (c : clusters Pair) : clusters Pair :=
  List.filter (λ kv, filled kv.2) (map (λ kv, (kv.1, List.filter both_reached kv.2)) c).

Record Compared : Type := {
  x_pairs : nat; x_tasks : list string; x_constructions : list string; x_differences : list (string * spec_float);
  x_sign : SignTest; x_counts : Discordance; x_mcnemar : option spec_float; x_tested : bool;
  x_actionable : Interval; x_false_completion : Interval; x_by_task : Interval;
}.
Definition compare_clusters (c : clusters Pair) (n sd : Z) : res Compared :=
  let tasks := by_task c in
  let counts := discordance c is_actionable in
  probability ← (match c with
                 | [] => Ok None
                 | _ => Some <$> mcnemar_exact (Z.of_nat (only_first counts)) (Z.of_nat (only_second counts))
                 end);
  let differences := cluster_differences c is_actionable in
  sign ← sign_test differences;
  actionable ← cluster_bootstrap (values c is_actionable) n sd;
  false_completion ← cluster_bootstrap (values c is_false_completion) n sd;
  by_tasks ← cluster_bootstrap (values tasks is_actionable) n sd;
  Ok {| x_pairs := length (members c); x_tasks := sorted_strings (keys tasks); x_constructions := sorted_strings (keys c);
        x_differences := differences; x_sign := sign; x_counts := counts; x_mcnemar := probability;
        x_tested := filled c && (0 <? only_first counts + only_second counts);
        x_actionable := actionable; x_false_completion := false_completion; x_by_task := by_tasks |}.
(** The restricted comparison: nothing where no pair remains. *)
Record Comparison : Type := { whole : Compared; narrowed : option Compared }.
Definition compare (records_first records_second : list record) (n sd : Z) : res Comparison :=
  found ← paired records_first records_second;
  narrow ← (match restricted found with [] => Ok None | kept => Some <$> compare_clusters kept n sd end);
  all ← compare_clusters found n sd;
  Ok {| whole := all; narrowed := narrow |}.
End bootstrap.

(** ** The whole report *)

Definition PAIR_DESCRIPTIONS : list ((string * string) * string) :=
  [(("foe-configured", "foe-unverified"), "the verifier alone");
   (("foe-configured", "foe-ablated"), "the stop mechanism and the verifier together; attributes nothing to either");
   (("foe-configured", "codex-equivalent"), "the runtime, under one stated procedure");
   (("foe-ablated", "codex-equivalent"), "the runtime without them, under the same procedure");
   (("foe-as-shipped", "codex-equivalent"), "the built-in document against the stated procedure");
   (("codex-equivalent", "codex-default"), "the stated procedure alone")].
Definition isolates (first second : string) : option string :=
  snd <$> List.find (λ d, String.eqb d.1.1 first && String.eqb d.1.2 second) PAIR_DESCRIPTIONS.

Record NonInferiority : Type := { margin : spec_float; solvable_constructions : nat; needed : nat; established : bool }.
Definition is_solvable (r : record) : bool := is_scored r && in_class SOLVABLE_CLASS r.
Definition non_inferiority (l : list record) : res NonInferiority :=
  found ← map_res record_construction (List.filter is_solvable l);
  count ← smallest_significant_discordant_pairs SIGNIFICANCE_LEVEL;
  Ok {| margin := NON_INFERIORITY_MARGIN; solvable_constructions := length (sorted_set found); needed := count; established := false |}.

Record FormedPair : Type := { f_family : string; f_first : string; f_second : string; f_isolates : string; f_comparison : Comparison }.
Record UnformedPair : Type := { n_family : string; n_first : string; n_second : string; n_reason : string }.
Record AttemptRow : Type := { w_task : string; w_arm : value; w_attempt : value; w_classification : value; w_measures : AutonomyMeasures }.
Record ReportDocument : Type := {
  d_records : nat; d_arms : list value; d_families : list value; d_tasks : list string; d_per_arm : list (value * ArmMetrics);
  d_per_task : list (string * TaskReport); d_classes : list string; d_attempts : list AttemptRow;
  d_pairs : list FormedPair; d_not_formed : list UnformedPair;
  d_detectable : Detectable; d_detectable_attempts : InAttempts; d_non_inferiority : NonInferiority;
}.
(** The distinct values of a field, the first of each, by [not in] a list. *)
Definition distinct_values (f : record → value) (l : list record) : list value := set_of (map f l).
Definition of_arm (arm : value) (r : record) : bool := item_eq (dget r "arm") arm.
Definition of_family (family : string) (r : record) : bool := is_string family (task_field r "family").
Definition family_records (l : list record) (family arm : string) : list record :=
  List.filter (of_family family) (List.filter (of_arm (VStr arm)) l).
Definition absent_arms (l : list record) (family : string) (arms : list string) : list string :=
  List.filter (λ arm, negb (existsb is_scored (family_records l family arm))) arms.
(** [min(pairs, key=...)]: the first of the least. *)
Definition thinnest (size : FormedPair → nat) (l : list FormedPair) : option FormedPair :=
  match l with [] => None | x :: l => Some (fold_left (λ m y, if size y <? size m then y else m) l x) end.

Section report.
Context (word digit : string → bool) (decimal : string → option Z) (choice : Z → nat → nat → nat).

Definition form_pair (l : list record) (n sd : Z) (family : string) (arms : string * string) : res (FormedPair + UnformedPair) :=
  let '(first, second) := arms in
  comparison ← compare choice (family_records l family first) (family_records l family second) n sd;
  if 0 <? x_pairs (whole comparison) then
    match isolates first second with
    | Some d => Ok (inl {| f_family := family; f_first := first; f_second := second; f_isolates := d; f_comparison := comparison |})
    | None => Err (KeyError "")
    end
  else
    let reason := match absent_arms l family [first; second] with
                  | [] => "the two arms share no scored attempt on one task"
                  | absent => join ", " absent +:+ " has no scored attempt"
                  end in
    Ok (inr {| n_family := family; n_first := first; n_second := second; n_reason := reason |}).
Definition family_pairs (family : value) : res (list (string * (string * string))) :=
  if hashable family then
    Ok (match family with VStr f => map (pair f) (default [] (assoc DECLARED_PAIRS f)) | _ => [] end)
  else Err (unhashable family).
Definition attempt_row (r : record) : res (option AttemptRow) :=
  measures ← autonomy_measures word digit decimal r;
  Ok (match measures with
      | Some m => if is_scored r then
          Some {| w_task := task_name r; w_arm := dget r "arm"; w_attempt := dget r "attempt"; w_classification := classification r; w_measures := m |}
          else None
      | None => None
      end).
Definition build (l : list record) (n sd : Z) : res ReportDocument :=
  let arms := distinct_values (λ r, dget r "arm") l in
  map_res (λ arm, raise_if (negb (hashable arm)) (unhashable arm)) arms;;
  let families := distinct_values (λ r, task_field r "family") l in
  declared ← map_res family_pairs families;
  formed ← map_res (λ fp, form_pair l n sd fp.1 fp.2) (concat declared);
  let pairs := omap (λ x, match x with inl p => Some p | inr _ => None end) formed in
  let apart := omap (λ x, match x with inr p => Some p | inl _ => None end) formed in
  let constructions p := length (x_constructions (whole (f_comparison p))) in
  let attempts p := x_pairs (whole (f_comparison p)) in
  per_arm ← map_res (λ arm, m ← arm_metrics word digit decimal (List.filter (of_arm arm) l); Ok (arm, m)) arms;
  tasks ← per_task l arms;
  rows ← map_res attempt_row l;
  fewest ← detectable_difference SIGNIFICANCE_LEVEL (Z.of_nat (default 0 (constructions <$> thinnest constructions pairs)));
  fewest_attempts ← detectable_difference_in_attempts SIGNIFICANCE_LEVEL (Z.of_nat (default 0 (attempts <$> thinnest attempts pairs)))
                  (Z.of_nat (default 0 ((λ p, length (x_tasks (whole (f_comparison p)))) <$> thinnest attempts pairs)));
  none ← non_inferiority (List.filter (of_family AUTONOMY_FAMILY) l);
  Ok {| d_records := length l; d_arms := arms; d_families := families; d_tasks := sorted_set (map task_name l);
        d_per_arm := per_arm; d_per_task := tasks; d_classes := classes_of l; d_attempts := present rows;
        d_pairs := pairs; d_not_formed := apart; d_detectable := fewest; d_detectable_attempts := fewest_attempts;
        d_non_inferiority := none |}.
End report.

(** ** What is paired *)

(** The scored attempts are numbered, as run.py writes them. *)
Definition numbered (l : list record) : Prop := ∀ r, r ∈ l → is_scored r = true → ∃ n, dget r "attempt" = VInt n.
Definition scored_at (k : attempt_key) (r : record) : bool := is_scored r && key_eqb (key_of r) k.
(** The record that counts for a key: the last. *)
Definition last_at (l : list record) (k : attempt_key) : option record := last (List.filter (scored_at k) l).
(** A task and a number. *)
Abbreviation numkey := (string * Z)%type.
Definition key_at (k : numkey) : attempt_key := (k.1, VInt k.2).
Definition numkey_le (x y : numkey) : Prop := if String.eqb x.1 y.1 then (x.2 <= y.2)%Z else String.le x.1 y.1.
#[export] Instance numkey_le_dec x y : Decision (numkey_le x y).
Proof. unfold numkey_le. destruct (String.eqb x.1 y.1); apply _. Defined.

Lemma numkey_le_total : Total numkey_le.
Proof.
  intros [s m] [t n]. unfold numkey_le. cbn. rewrite (String.eqb_sym t s). destruct (String.eqb_spec s t) as [->|]; [lia|].
  apply (total String.le).
Qed.
Lemma numkey_le_trans : Transitive numkey_le.
Proof.
  intros [s a] [t b] [u c]. unfold numkey_le. cbn.
  destruct (String.eqb_spec s t) as [->|Hst], (String.eqb_spec t u) as [->|Htu]; rewrite ?String.eqb_refl; try lia; try done.
  - intros H _. apply String.eqb_neq in Hst. by rewrite Hst.
  - intros H1 H2. destruct (String.eqb_spec s u) as [->|]; [|by etrans]. destruct Hst. by apply (anti_symm String.le).
Qed.
Lemma numkey_le_anti : AntiSymm (=) numkey_le.
Proof.
  intros [s m] [t n]. unfold numkey_le. cbn. rewrite (String.eqb_sym t s). destruct (String.eqb_spec s t) as [->|Hne].
  - intros. f_equal. lia.
  - intros H1 H2. destruct Hne. by apply (anti_symm String.le).
Qed.
#[export] Existing Instances numkey_le_total numkey_le_trans numkey_le_anti.
Definition sorted_keys (l : list numkey) : list numkey := merge_sort numkey_le l.
Lemma sorted_keys_perm l : sorted_keys l ≡ₚ l.
Proof. apply merge_sort_Permutation. Qed.
Lemma sorted_keys_ext l m : l ≡ₚ m → sorted_keys l = sorted_keys m.
Proof.
  intros H. apply (StronglySorted_unique numkey_le); [apply (StronglySorted_merge_sort numkey_le)..|]. by rewrite !sorted_keys_perm.
Qed.

Lemma item_eq_ints a b : item_eq (VInt a) (VInt b) = Z.eqb a b.
Proof. by apply item_eq_int. Qed.
Lemma key_eqb_at j k : key_eqb (key_at j) (key_at k) = bool_decide (j = k).
Proof.
  destruct j as [s a], k as [t b]. unfold key_eqb, key_at. cbn [fst snd]. rewrite item_eq_ints.
  destruct (String.eqb_spec s t) as [->|], (Z.eqb_spec a b) as [->|]; cbn; symmetry; case_bool_decide; congruence.
Qed.
Lemma key_le_at j k : numkey_le j k ↔ key_le (key_at j) (key_at k).
Proof.
  destruct j as [s a], k as [t b]. unfold numkey_le, key_le, key_leb, key_at, attempt_leb. cbn.
  destruct (String.eqb s t).
  - unfold num_leb. cbn. destruct (Z.compare_spec a b); split; try done; lia.
  - by rewrite bool_decide_eq_true.
Qed.
Lemma comparable_at j k : comparable (key_at j) (key_at k) = true.
Proof. unfold comparable, key_at. cbn. by destruct (String.eqb j.1 k.1). Qed.
Lemma sorted_by_numkey l : sorted_by_key (map key_at l) = Ok (map key_at (sorted_keys l)).
Proof.
  unfold sorted_by_key. assert (pairwise comparable (map key_at l) = true) as ->.
  { induction l as [|k l IH]; [done|]. cbn. rewrite IH, andb_true_r. apply forallb_forall. intros x (j & <- & _)%in_map_iff. apply comparable_at. }
  f_equal. apply merge_sort_map, key_le_at.
Qed.

(** A dictionary keyed by numbered attempts. *)
Lemma kget_kset {A} (d : list (attempt_key * A)) j k v : Forall (λ kv, ∃ i, kv.1 = key_at i) d →
  kget (kset d (key_at j) v) (key_at k) = if decide (j = k) then Some v else kget d (key_at k).
Proof.
  induction 1 as [|[k' w] d [i Hi] Hd IH]; cbn in *; subst; [rewrite key_eqb_at; repeat case_bool_decide; repeat case_decide; congruence|].
  rewrite !key_eqb_at. repeat case_bool_decide; subst; cbn; rewrite ?key_eqb_at; repeat case_bool_decide; subst; rewrite ?IH;
    repeat case_decide; subst; try done.
Qed.
Lemma keys_kset {A} (d : list (attempt_key * A)) j v ks : map fst d = map key_at ks →
  map fst (kset d (key_at j) v) = map key_at (if decide (j ∈ ks) then ks else ks ++ [j]).
Proof.
  revert ks. induction d as [|[k' w] d IH]; intros [|k ks] H; try done. cbn in H. injection H as -> H. cbn [kset].
  rewrite key_eqb_at. case_bool_decide as E.
  - subst. rewrite decide_True by by left. cbn. by rewrite H.
  - cbn [map fst]. rewrite (IH ks H). destruct (decide (j ∈ ks)).
    + rewrite decide_True by by right. done.
    + rewrite decide_False by (rewrite not_elem_of_cons; done). done.
Qed.

Lemma last_at_snoc l r k : last_at (l ++ [r]) k = if scored_at k r then Some r else last_at l k.
Proof.
  unfold last_at. rewrite List.filter_app. cbn. destruct (scored_at k r); [by rewrite last_snoc|by rewrite app_nil_r].
Qed.
Lemma last_at_scored l k : last_at (List.filter is_scored l) k = last_at l k.
Proof.
  unfold last_at. f_equal. induction l as [|r l IH]; [done|]. cbn. unfold scored_at at 2.
  destruct (is_scored r) eqn:E; cbn; [|done]. unfold scored_at at 1. rewrite E. cbn. by rewrite IH.
Qed.
Lemma key_of_numbered r n : dget r "attempt" = VInt n → key_of r = key_at (task_name r, n).
Proof. intros H. unfold key_of, key_at. by rewrite H. Qed.
(** The index of an arm holds the last record of each key. *)
Lemma by_attempt_spec l : numbered l → ∃ d ks, by_attempt l = Ok d ∧ map fst d = map key_at ks ∧ NoDup ks ∧
  (∀ k, k ∈ ks ↔ is_Some (last_at l (key_at k))) ∧ ∀ k, kget d (key_at k) = last_at l (key_at k).
Proof.
  intros Hl. unfold by_attempt. setoid_rewrite <-last_at_scored.
  assert (Hs : ∀ r, r ∈ List.filter is_scored l → is_scored r = true ∧ ∃ n, dget r "attempt" = VInt n).
  { intros r [Hr Hsc]%list_elem_of_In%List.filter_In. split; [done|]. apply Hl; [by apply list_elem_of_In|done]. }
  revert Hs. generalize (List.filter is_scored l). clear l Hl. intros l. induction l as [|r l IH] using rev_ind; intros Hs.
  { exists [], []. split_and!; [done|done|constructor| |done]. intros k. split; [by intros ?%elem_of_nil|by intros [? ?]]. }
  destruct IH as (d & ks & Hd & Hf & Hn & Hk & Hg); [intros x Hx; apply Hs, elem_of_app; by left|].
  destruct (Hs r) as [Hsc [n Hn']]; [apply elem_of_app; right; by left|]. set (j := (task_name r, n)).
  assert (Hf' : Forall (λ kv, ∃ i, kv.1 = key_at i) d).
  { apply Forall_forall. intros kv Hkv%(list_elem_of_fmap_2 fst). change (fst <$> d) with (map fst d) in Hkv. rewrite Hf in Hkv.
    apply list_elem_of_fmap in Hkv as (i & Hi & _). eauto. }
  assert (Hat : ∀ k, scored_at (key_at k) r = bool_decide (j = k)).
  { intros k. unfold scored_at. by rewrite Hsc, (key_of_numbered r n Hn'), key_eqb_at. }
  exists (kset d (key_at j) r), (if decide (j ∈ ks) then ks else ks ++ [j]). split_and!.
  - rewrite foldM_app, Hd. cbn [mbind res_bind foldM]. unfold index_step. rewrite (key_of_numbered r n Hn'), Hn'. done.
  - by apply keys_kset.
  - destruct (decide (j ∈ ks)); [done|]. apply NoDup_app. split_and!; [done| |apply NoDup_singleton]. by intros x Hx ->%list_elem_of_singleton.
  - intros k. rewrite last_at_snoc, Hat. case_bool_decide as E.
    + subst k. split; [eauto|]. intros _. destruct (decide (j ∈ ks)); [done|]. apply elem_of_app. right. by left.
    + rewrite <-Hk. destruct (decide (j ∈ ks)); [done|]. rewrite elem_of_app, list_elem_of_singleton. naive_solver.
  - intros k. rewrite (kget_kset d j k r Hf'), last_at_snoc, Hat, Hg. case_bool_decide; by case_decide.
Qed.

Definition pair_of (l1 l2 : list record) (k : numkey) : option Pair :=
  a ← last_at l1 (key_at k); b ← last_at l2 (key_at k); Some (a, b).
Lemma pair_of_some l1 l2 k p : pair_of l1 l2 k = Some p ↔ last_at l1 (key_at k) = Some p.1 ∧ last_at l2 (key_at k) = Some p.2.
Proof.
  unfold pair_of. destruct p as [x y]. destruct (last_at l1 (key_at k)), (last_at l2 (key_at k)); cbn; naive_solver.
Qed.
(** The keys both arms have, in any order and without repetition. *)
Definition shared_keys (l1 l2 : list record) (ks : list numkey) : Prop := NoDup ks ∧ ∀ k, k ∈ ks ↔ is_Some (pair_of l1 l2 k).
Lemma shared_keys_ext l1 l2 m1 m2 ks js : shared_keys l1 l2 ks → shared_keys m1 m2 js →
  (∀ k, is_Some (pair_of l1 l2 k) ↔ is_Some (pair_of m1 m2 k)) → sorted_keys ks = sorted_keys js.
Proof.
  intros [Hn Hk] [Hm Hj] H. apply sorted_keys_ext, NoDup_Permutation; [done..|]. intros k. by rewrite Hk, Hj, H.
Qed.
Lemma paired_closed l1 l2 : numbered l1 → numbered l2 → ∃ ks, shared_keys l1 l2 ks ∧
  paired l1 l2 = (named ← map_res with_construction (omap (pair_of l1 l2) (sorted_keys ks)); Ok (grouped named)).
Proof.
  intros H1 H2. destruct (by_attempt_spec l1 H1) as (d1 & ks1 & E1 & F1 & N1 & K1 & G1).
  destruct (by_attempt_spec l2 H2) as (d2 & ks2 & E2 & F2 & N2 & K2 & G2).
  set (ks := List.filter (λ k, match kget d2 (key_at k) with Some _ => true | None => false end) ks1).
  exists ks. split; [split|].
  - by apply filter_nodup.
  - intros k. unfold ks. rewrite list_elem_of_In, List.filter_In, <-list_elem_of_In, K1, G2. unfold pair_of.
    destruct (last_at l1 (key_at k)), (last_at l2 (key_at k)); cbn; split; try naive_solver; by intros [? ?].
  - unfold paired. rewrite E1, E2. cbn [mbind res_bind]. rewrite F1, filter_map_swap. fold ks. rewrite sorted_by_numkey. cbn [mbind res_bind].
    do 2 f_equal. induction (sorted_keys ks) as [|k l IH]; [done|]. cbn. unfold pair_at at 1, pair_of at 1. rewrite G1, G2.
    destruct (last_at l1 (key_at k)), (last_at l2 (key_at k)); cbn; try done; by rewrite IH.
Qed.

(** The last record of a key is a scored record of the arm with that key. *)
Lemma last_at_elem l k r : last_at l k = Some r → r ∈ l ∧ is_scored r = true ∧ key_eqb (key_of r) k = true.
Proof.
  unfold last_at. intros H. apply last_Some_elem_of in H. apply list_elem_of_In, List.filter_In in H as [H E].
  unfold scored_at in E. apply andb_true_iff in E as [? ?]. by rewrite list_elem_of_In.
Qed.

(** Pairs whose constructions are known, with their names. *)
Lemma name_pairs l : (∀ p, p ∈ l → is_ok (record_construction p.1) = true) → ∃ named, map_res with_construction l = Ok named ∧
  map snd named = l ∧ ∀ name p, (name, p) ∈ named ↔ p ∈ l ∧ record_construction p.1 = Ok name.
Proof.
  induction l as [|p l IH]; intros H; [exists []; split_and!; [done|done|]; intros; split; [by intros ?%elem_of_nil|by intros [?%elem_of_nil _]]|].
  destruct IH as (named & Hm & Hs & Hn); [intros; apply H; by right|]. pose proof (H p ltac:(by left)) as Hp.
  destruct (record_construction p.1) as [c|] eqn:Ec; [|done]. exists ((c, p) :: named).
  assert (Ew : with_construction p = Ok (c, p)) by (unfold with_construction; by rewrite Ec).
  change (map_res with_construction (p :: l)) with (y ← with_construction p; r ← map_res with_construction l; Ok (y :: r)).
  rewrite Ew, Hm. cbn [mbind res_bind map snd]. split_and!; [done|by rewrite Hs|]. intros name q. rewrite !elem_of_cons, Hn. split.
  - intros [[= -> ->]|[? ?]]; auto.
  - intros [[->|Hq] Hr]; [left; congruence|auto].
Qed.
Lemma key_at_inj : Inj (=) (=) key_at.
Proof. intros [s a] [t b]. unfold key_at. cbn. congruence. Qed.
Lemma last_at_key l k r : numbered l → last_at l (key_at k) = Some r → key_of r = key_at k.
Proof.
  intros Hl H. apply last_at_elem in H as (Hr & Hs & He). destruct (Hl r Hr Hs) as [n Hn]. rewrite (key_of_numbered r n Hn) in *.
  rewrite key_eqb_at in He. apply bool_decide_eq_true in He. by rewrite He.
Qed.
Lemma pairs_keys l1 l2 (ks : list numkey) : numbered l1 → (∀ k, k ∈ ks → is_Some (pair_of l1 l2 k)) →
  map (λ p : Pair, key_of p.1) (omap (pair_of l1 l2) ks) = map key_at ks.
Proof.
  intros Hl. induction ks as [|k ks IH]; intros H; [done|]. destruct (H k ltac:(by left)) as [p Hp]. cbn. rewrite Hp. cbn.
  rewrite IH by (intros j Hj; apply H; by right). f_equal. apply pair_of_some in Hp as [Hp _]. by eapply last_at_key.
Qed.
Lemma pairs_constructed l1 l2 (ks : list numkey) : (∀ r, r ∈ l1 → is_scored r = true → is_ok (record_construction r) = true) →
  ∀ p, p ∈ omap (pair_of l1 l2) ks → is_ok (record_construction p.1) = true.
Proof.
  intros H p Hp. apply list_elem_of_omap in Hp as (k & _ & Hp). apply pair_of_some in Hp as [Hp _].
  apply last_at_elem in Hp as (? & ? & _). by apply H.
Qed.

(** Claim C22. The pairs of a comparison are exactly the scored attempts of one
    task and one number that both arms hold, the last record of each where an
    arm holds several, each pair once, under the construction of the first
    arm's task; the constructions are distinct, in order, and none is empty.
    The pairing is returned whenever every scored task of the first arm has a
    construction. *)
Theorem paired_exact l1 l2 : numbered l1 → numbered l2 →
  (∀ r, r ∈ l1 → is_scored r = true → is_ok (record_construction r) = true) →
  ∃ c, paired l1 l2 = Ok c ∧
    (∀ name p, p ∈ default [] (assoc c name) ↔
       record_construction p.1 = Ok name ∧ ∃ k, last_at l1 (key_at k) = Some p.1 ∧ last_at l2 (key_at k) = Some p.2) ∧
    NoDup (map (λ p, key_of p.1) (members c)) ∧
    StronglySorted String.le (keys c) ∧ NoDup (keys c) ∧ ∀ kv, kv ∈ c → kv.2 ≠ [].
Proof.
  intros H1 H2 Hc. destruct (paired_closed l1 l2 H1 H2) as (ks & [Hn Hk] & ->).
  assert (Hks : NoDup (sorted_keys ks)) by by rewrite sorted_keys_perm.
  assert (Hin : ∀ k, k ∈ sorted_keys ks ↔ is_Some (pair_of l1 l2 k)) by (intros k; by rewrite sorted_keys_perm, Hk).
  destruct (name_pairs _ (pairs_constructed l1 l2 (sorted_keys ks) Hc)) as (named & -> & Hs & Hnm).
  exists (grouped named). split; [done|]. split_and!.
  - intros name p. rewrite grouped_assoc, elem_of_items_at, Hnm, list_elem_of_omap. setoid_rewrite Hin. setoid_rewrite pair_of_some.
    split; [intros ((k & _ & Hp) & Hr); eauto|]. intros (Hr & k & Hp). split; [|done]. exists k. split; [|done]. exists p. by apply pair_of_some.
  - rewrite grouped_members, Hs. rewrite (pairs_keys l1 l2 _ H1); [|intros k Hk'; by apply Hin]. apply NoDup_fmap_2; [apply key_at_inj|done].
  - rewrite grouped_keys. apply sorted_strings_sorted.
  - rewrite grouped_keys. apply NoDup_sorted_set.
  - apply grouped_nonempty.
Qed.

(** ** The restriction *)

(** No arm holds a task and number twice. *)
Definition attempts_distinct (l : list record) : Prop := NoDup (map key_of (List.filter is_scored l)).
Lemma last_single {A} (f : A → bool) (l : list A) : length l ≤ 1 →
  last (List.filter f l) = (x ← last l; if f x then Some x else None).
Proof. destruct l as [|x [|y l]]; cbn; [done| |lia]. intros _. by destruct (f x). Qed.
Lemma one_key (l : list record) (k : attempt_key) :
  NoDup (map key_of l) → (∀ r, r ∈ l → key_of r = k) → length l ≤ 1.
Proof.
  destruct l as [|x [|y l]]; cbn; [lia|lia|]. intros Hn H. apply NoDup_cons in Hn as [Hx _]. destruct Hx.
  rewrite (H x), (H y); [by left|right; by left|by left].
Qed.
Lemma NoDup_map_kept {A B} (f : A → B) (g : A → bool) l : NoDup (map f l) → NoDup (map f (List.filter g l)).
Proof.
  induction l as [|x l IH]; [done|]. cbn. intros [Hx Hl]%NoDup_cons. destruct (g x); [|by apply IH]. cbn. apply NoDup_cons. split; [|by apply IH].
  intros (y & E & [Hy _]%elem_of_kept)%list_elem_of_fmap. destruct Hx. rewrite E. by apply list_elem_of_fmap_2.
Qed.
Lemma kept_twice {A} (f g : A → bool) l : List.filter f (List.filter g l) = List.filter g (List.filter f l).
Proof. induction l as [|x l IH]; [done|]. cbn. destruct (f x) eqn:Ef, (g x) eqn:Eg; cbn; rewrite ?Ef, ?Eg; by rewrite IH. Qed.
Lemma last_at_kept (f : record → bool) l k : numbered l → attempts_distinct l →
  last_at (List.filter f l) (key_at k) = (r ← last_at l (key_at k); if f r then Some r else None).
Proof.
  intros Hl Hd. unfold last_at. rewrite kept_twice. apply last_single. apply (one_key _ (key_at k)).
  - unfold attempts_distinct in Hd. apply (NoDup_map_kept _ (λ r, key_eqb (key_of r) (key_at k))) in Hd.
    replace (List.filter (scored_at (key_at k)) l) with (List.filter (λ r, key_eqb (key_of r) (key_at k)) (List.filter is_scored l)); [done|].
    clear. induction l as [|r l IH]; [done|]. cbn. unfold scored_at at 1. destruct (is_scored r); cbn; [destruct (key_eqb _ _)|]; by rewrite IH.
  - intros r [Hr Hs]%elem_of_kept. unfold scored_at in Hs. apply andb_true_iff in Hs as [Hs Hk]. destruct (Hl r Hr Hs) as [n Hn].
    rewrite (key_of_numbered r n Hn) in *. rewrite key_eqb_at in Hk. apply bool_decide_eq_true in Hk. by rewrite Hk.
Qed.
Lemma pair_of_kept l1 l2 k : numbered l1 → numbered l2 → attempts_distinct l1 → attempts_distinct l2 →
  pair_of (List.filter control_reached l1) (List.filter control_reached l2) k = (p ← pair_of l1 l2 k; if both_reached p then Some p else None).
Proof.
  intros H1 H2 D1 D2. unfold pair_of, both_reached. rewrite !last_at_kept by done.
  destruct (last_at l1 (key_at k)) as [x|]; [|done]. cbn.
  destruct (last_at l2 (key_at k)) as [y|]; cbn; destruct (control_reached x); cbn; try done. by destruct (control_reached y).
Qed.
Lemma omap_kept {A B} (f g : A → option B) (h : B → bool) (l : list A) :
  (∀ x, g x = (y ← f x; if h y then Some y else None)) → omap g l = List.filter h (omap f l).
Proof.
  intros H. induction l as [|x l IH]; [done|]. cbn. rewrite H. destruct (f x) as [y|]; cbn; [|done]. destruct (h y); cbn; by rewrite IH.
Qed.
Lemma omap_present {A B} (f : A → option B) (l : list A) :
  omap f l = omap f (List.filter (λ x, match f x with Some _ => true | None => false end) l).
Proof. induction l as [|x l IH]; [done|]. cbn. destruct (f x) as [y|] eqn:E; cbn; rewrite ?E, ?IH; done. Qed.
Lemma map_res_kept (h : Pair → bool) l named : map_res with_construction l = Ok named →
  map_res with_construction (List.filter h l) = Ok (List.filter (λ np, h np.2) named).
Proof.
  rewrite map_res_Forall2. induction 1 as [|p np l named Hp Hl IH]; [done|]. cbn [List.filter].
  assert (np.2 = p) as ->. { unfold with_construction in Hp. apply res_bind_ok in Hp as (c & _ & [= <-]). done. }
  destruct (h p); [|done]. change (map_res with_construction (p :: List.filter h l)) with
    (y ← with_construction p; r ← map_res with_construction (List.filter h l); Ok (y :: r)). by rewrite Hp, IH.
Qed.
Lemma kept_perm {A} (f : A → bool) l m : l ≡ₚ m → List.filter f l ≡ₚ List.filter f m.
Proof.
  induction 1 as [|x l m _ IH|x y l|l m k _ IH1 _ IH2]; cbn; [done| | |by etrans].
  - destruct (f x); [by f_equiv|done].
  - destruct (f x), (f y); try done. apply Permutation_swap.
Qed.
Lemma sorted_keys_kept f l : sorted_keys (List.filter f l) = List.filter f (sorted_keys l).
Proof.
  apply (StronglySorted_unique numkey_le); [apply (StronglySorted_merge_sort numkey_le)|apply StronglySorted_kept, (StronglySorted_merge_sort numkey_le)|].
  rewrite sorted_keys_perm. apply kept_perm. by rewrite sorted_keys_perm.
Qed.

(** The comparison restricted to reached controls is the comparison
    of the restricted arms: dropping the pairs in which a control was not
    reached, and the constructions left empty, is pairing the attempts of both
    arms whose controls were reached. *)
Theorem restriction_is_pairing l1 l2 c :
  numbered l1 → numbered l2 → attempts_distinct l1 → attempts_distinct l2 → paired l1 l2 = Ok c →
  paired (List.filter control_reached l1) (List.filter control_reached l2) = Ok (restricted c).
Proof.
  intros H1 H2 D1 D2 Hc. destruct (paired_closed l1 l2 H1 H2) as (ks & Hks & E). rewrite E in Hc.
  apply res_bind_ok in Hc as (named & Hn & [= <-]).
  assert (Hf : ∀ l, numbered l → numbered (List.filter control_reached l)) by (intros l Hl r [Hr _]%elem_of_kept; by apply Hl).
  destruct (paired_closed _ _ (Hf l1 H1) (Hf l2 H2)) as (js & Hjs & ->).
  set (shared := λ k, match pair_of (List.filter control_reached l1) (List.filter control_reached l2) k with Some _ => true | None => false end).
  assert (sorted_keys js = List.filter shared (sorted_keys ks)) as ->.
  { rewrite <-sorted_keys_kept. apply sorted_keys_ext, NoDup_Permutation; [apply Hjs|apply filter_nodup, Hks|]. intros k.
    rewrite elem_of_kept, (proj2 Hjs), (proj2 Hks). unfold shared. rewrite pair_of_kept by done.
    destruct (pair_of l1 l2 k) as [p|]; cbn; [|split; [by intros []|by intros [[] _]]].
    destruct (both_reached p); split; naive_solver. }
  unfold shared. rewrite <-omap_present, (omap_kept (pair_of l1 l2) _ both_reached).
  2: { intros k. by apply pair_of_kept. }
  rewrite (map_res_kept _ _ _ Hn). cbn [mbind res_bind]. f_equal. apply grouped_kept.
Qed.

(** ** The sign test counts wins *)

Definition only_first_in (predicate : record → bool) : list Pair → nat := pairs_where (λ a b, a && negb b) predicate.
Definition only_second_in (predicate : record → bool) : list Pair → nat := pairs_where (λ a b, negb a && b) predicate.
Definition bool_difference (a b : bool) : Z := ((if a then 1 else 0) - (if b then 1 else 0))%Z.
Definition pair_difference (predicate : record → bool) (p : Pair) : Z := bool_difference (predicate p.1) (predicate p.2).
Definition net (predicate : record → bool) (l : list Pair) : Z := fold_left Z.add (map (pair_difference predicate) l) 0%Z.

Lemma float_bool_sub a b : float_sub (float_bool a) (float_bool b) = int_float (bool_difference a b).
Proof. by destruct a, b. Qed.
Lemma pair_difference_unit predicate p : (Z.abs (pair_difference predicate p) <= 1)%Z.
Proof. unfold pair_difference, bool_difference. destruct (predicate p.1), (predicate p.2); lia. Qed.
Lemma fold_add l z : fold_left Z.add l z = (z + fold_left Z.add l 0)%Z.
Proof. revert z. induction l as [|x l IH]; intros z; [cbn; lia|]. cbn [fold_left]. rewrite (IH (z + x)%Z), (IH (0 + x)%Z). lia. Qed.
(** The sum of a group's differences is its wins less its losses. *)
Lemma net_counts predicate l : net predicate l = (Z.of_nat (only_first_in predicate l) - Z.of_nat (only_second_in predicate l))%Z.
Proof.
  unfold net, only_first_in, only_second_in, pairs_where. induction l as [|p l IH]; [done|]. cbn [map fold_left]. rewrite fold_add, IH, !how_many_cons.
  unfold pair_difference, bool_difference. destruct (predicate p.1), (predicate p.2); cbn; lia.
Qed.
Lemma net_bound predicate l : (Z.abs (net predicate l) <= Z.of_nat (length l))%Z.
Proof.
  unfold net. induction l as [|p l IH]; [done|]. cbn [map fold_left length]. rewrite fold_add. pose proof (pair_difference_unit predicate p). lia.
Qed.
Definition values_of (predicate : record → bool) (l : list Pair) : list (spec_float * spec_float) :=
  map (λ p, (float_bool (predicate p.1), float_bool (predicate p.2))) l.
Lemma mean_difference_net predicate l : (Z.of_nat (length l) < 2 ^ 53)%Z →
  mean_difference (values_of predicate l) = float_div (int_float (net predicate l)) (int_float (Z.of_nat (length l))).
Proof.
  intros Hl. unfold mean_difference, values_of. rewrite length_map, map_map. cbn [fst snd].
  rewrite (map_ext _ (λ p, int_float (pair_difference predicate p))) by (intros p; apply float_bool_sub).
  rewrite <-(map_map (pair_difference predicate) int_float), int_float_sum; [done| |by rewrite length_map].
  apply Forall_fmap, Forall_forall. intros p _. apply pair_difference_unit.
Qed.
Lemma group_small {A} (c : clusters A) kv : kv ∈ c → length kv.2 ≤ length (members c).
Proof.
  unfold members. induction c as [|kv' c IH]; [by intros ?%elem_of_nil|]. intros [->|H]%elem_of_cons; cbn; rewrite length_app; [lia|].
  specialize (IH H). lia.
Qed.
(** Every group holds a pair, and fewer than a float counts exactly. *)
Definition measurable {A} (c : clusters A) : Prop := (Z.of_nat (length (members c)) < 2 ^ 53)%Z ∧ ∀ kv, kv ∈ c → kv.2 ≠ [].
Lemma mean_difference_sign predicate l : l ≠ [] → (Z.of_nat (length l) < 2 ^ 53)%Z →
  let q := mean_difference (values_of predicate l) in
  float_positive q = (only_second_in predicate l <? only_first_in predicate l) ∧
  float_negative q = (only_first_in predicate l <? only_second_in predicate l) ∧
  float_zero q = (only_first_in predicate l =? only_second_in predicate l).
Proof.
  intros Hne Hl q. unfold q. rewrite mean_difference_net by done. pose proof (net_bound predicate l) as Hb.
  assert (0 < Z.of_nat (length l))%Z by (destruct l; [done|cbn; lia]).
  destruct (div_int_float_sign (net predicate l) (Z.of_nat (length l))) as (-> & -> & ->); [lia|lia|]. rewrite net_counts.
  split_and!; apply eq_true_iff_eq; rewrite ?Nat.ltb_lt, ?Nat.eqb_eq; lia.
Qed.
(** A test of the differences is a test of wins and losses. *)
Lemma names_where_length test (w : string * list Pair → bool) (c : clusters Pair) predicate :
  (∀ kv, kv ∈ c → test (mean_difference (values_of predicate kv.2)) = w kv) →
  length (names_where test (cluster_differences c predicate)) = how_many w c.
Proof.
  intros H. unfold names_where. rewrite sorted_strings_perm, length_map. unfold how_many, cluster_differences, mean_differences, values.
  rewrite map_map. cbn [fst snd]. rewrite filter_map_swap, length_map. cbn [snd]. f_equal. apply List.filter_ext_in. intros kv Hkv. apply H. by apply list_elem_of_In.
Qed.
Definition wins_first predicate (kv : string * list Pair) : bool := only_second_in predicate kv.2 <? only_first_in predicate kv.2.
Definition wins_second predicate (kv : string * list Pair) : bool := only_first_in predicate kv.2 <? only_second_in predicate kv.2.
Definition ties_both predicate (kv : string * list Pair) : bool := only_first_in predicate kv.2 =? only_second_in predicate kv.2.
Lemma measurable_group (c : clusters Pair) kv : measurable c → kv ∈ c → kv.2 ≠ [] ∧ (Z.of_nat (length kv.2) < 2 ^ 53)%Z.
Proof. intros [Hs Hn] Hkv. split; [by apply Hn|]. pose proof (group_small c kv Hkv). lia. Qed.
Lemma sign_test_closed c predicate : measurable c → ∃ t, sign_test (cluster_differences c predicate) = Ok t ∧
  positive t = how_many (wins_first predicate) c ∧ negative t = how_many (wins_second predicate) c ∧ ties t = how_many (ties_both predicate) c ∧
  tested t = (0 <? how_many (wins_first predicate) c + how_many (wins_second predicate) c) ∧
  p t = match c with [] => None | _ => Some (probability (how_many (wins_first predicate) c) (how_many (wins_second predicate) c)) end.
Proof.
  intros Hm. assert (Hsign : ∀ kv, kv ∈ c → _) by (intros kv Hkv; destruct (measurable_group c kv Hm Hkv); by apply (mean_difference_sign predicate kv.2)).
  pose proof (names_where_length float_positive (wins_first predicate) c predicate (λ kv H, proj1 (Hsign kv H))) as Hp.
  pose proof (names_where_length float_negative (wins_second predicate) c predicate (λ kv H, proj1 (proj2 (Hsign kv H)))) as Hn.
  pose proof (names_where_length float_zero (ties_both predicate) c predicate (λ kv H, proj2 (proj2 (Hsign kv H)))) as Ht.
  unfold sign_test. set (ps := names_where float_positive _) in *. set (ns := names_where float_negative _) in *.
  assert (Htest : match ps ++ ns with [] => false | _ => true end = (0 <? length ps + length ns)) by (rewrite <-length_app; by destruct (ps ++ ns)).
  destruct c as [|kv c'].
  - eexists. split; [reflexivity|]. done.
  - cbn [cluster_differences mean_differences values map]. rewrite probability_ok. cbn [fmap res_fmap mbind res_bind].
    eexists. split; [reflexivity|]. cbn [positive negative ties tested p]. rewrite Htest, <-Hp, <-Hn, <-Ht. done.
Qed.

(** The sign test counts wins: a construction is on the first side
    exactly when the first arm alone met the predicate on more of its pairs than
    the second arm alone, on the second side the other way round, and tied when
    the numbers are equal, although the code compares quotients of floats.
    Every construction is on one side or tied, the probability is the exact
    binomial one of the two sides, and the test is reported as tested exactly
    when a construction is not tied. *)
Theorem sign_test_counts_wins c predicate : measurable c → ∃ t, sign_test (cluster_differences c predicate) = Ok t ∧
  positive t = how_many (λ kv, only_second_in predicate kv.2 <? only_first_in predicate kv.2) c ∧
  negative t = how_many (λ kv, only_first_in predicate kv.2 <? only_second_in predicate kv.2) c ∧
  positive t + negative t + ties t = length c ∧
  tested t = negb (ties t =? length c) ∧
  (c ≠ [] → ∃ q, p t = Some q ∧ binomial_two_sided (Z.of_nat (positive t)) (Z.of_nat (negative t)) = Ok q).
Proof.
  intros Hm. destruct (sign_test_closed c predicate Hm) as (t & Ht & Hp & Hn & Hz & Hd & Hq). exists t.
  assert (Hsum : positive t + negative t + ties t = length c).
  { rewrite Hp, Hn, Hz, <-(how_many_all c).
    rewrite (how_many_parts _ _ (λ kv, negb (ties_both predicate kv))).
    - apply how_many_parts. intros kv _. by destruct (ties_both predicate kv).
    - intros kv _. unfold wins_first, wins_second, ties_both.
      destruct (Nat.ltb_spec (only_second_in predicate kv.2) (only_first_in predicate kv.2)),
        (Nat.ltb_spec (only_first_in predicate kv.2) (only_second_in predicate kv.2)),
        (Nat.eqb_spec (only_first_in predicate kv.2) (only_second_in predicate kv.2)); cbn; lia. }
  split_and!; [done|exact Hp|exact Hn|exact Hsum| |].
  - rewrite Hd, <-Hp, <-Hn. destruct (Nat.ltb_spec 0 (positive t + negative t)), (Nat.eqb_spec (ties t) (length c)); try done; lia.
  - intros Hc. rewrite Hq, Hp, Hn. destruct c as [|kv c']; [done|]. eexists. split; [done|]. apply probability_ok.
Qed.

(** ** Degenerate intervals *)

(** The generator picks one of the names it is given. *)
Definition picks (choice : Z → nat → nat → nat) : Prop := ∀ s k n, 0 < n → choice s k n < n.
Lemma distinct_floats_nil l : distinct_floats l = [] → l = [].
Proof.
  induction l as [|x l IH]; [done|]. cbn. destruct (existsb (SFeqb x) (distinct_floats l)) eqn:E; [|done].
  intros H. rewrite H in E. done.
Qed.
Definition unit_float (f : spec_float) : Prop := ∃ a b, f = int_float (bool_difference a b).
Lemma unit_float_eq x y : unit_float x → unit_float y → SFeqb x y = true → x = y.
Proof. intros (a & b & ->) (c & d & ->). destruct a, b, c, d; try done. Qed.
Lemma distinct_floats_one l d : Forall unit_float l → distinct_floats l = [d] → Forall (λ x, x = d) l.
Proof.
  intros Hu. revert d. induction Hu as [|x l Hx Hl IH]; intros d; [done|]. cbn. destruct (existsb (SFeqb x) (distinct_floats l)) eqn:E.
  - intros H. rewrite H in E. cbn in E. rewrite orb_false_r in E. pose proof (IH d H) as Hd. constructor; [|done].
    destruct l as [|y l]; [done|]. apply Forall_cons in Hd as [-> _]. apply Forall_cons in Hl as [Hy _]. by apply unit_float_eq.
  - intros [= -> H]. apply distinct_floats_nil in H as ->. by constructor.
Qed.
Lemma sum_constant k n : fold_left Z.add (replicate n k) 0%Z = (k * Z.of_nat n)%Z.
Proof. induction n as [|n IH]; [cbn; lia|]. cbn [replicate fold_left]. rewrite fold_add, IH. lia. Qed.
(** The mean of equal units is that unit. *)
Lemma mean_of_units k n : (Z.abs k <= 1)%Z → 0 < n → (Z.of_nat n < 2 ^ 53)%Z →
  float_div (float_sum (replicate n (int_float k))) (int_float (Z.of_nat n)) = int_float k.
Proof.
  intros Hk Hn Hl. rewrite <-(fmap_replicate int_float).
  change (int_float <$> replicate n k) with (map int_float (replicate n k)). rewrite int_float_sum.
  - rewrite sum_constant. assert (k = -1 ∨ k = 0 ∨ k = 1)%Z as [-> | [-> | ->]] by lia; rewrite div_units by lia; f_equal; destruct n; cbn; lia.
  - by apply Forall_replicate.
  - by rewrite length_replicate.
Qed.
Lemma constant_replicate {A} (l : list A) x : Forall (λ y, y = x) l → l = replicate (length l) x.
Proof. induction 1 as [|y l -> _ IH]; cbn; [done|]. by f_equal. Qed.
Lemma omap_total {A B} (f : A → option B) (P : B → Prop) (l : list A) : (∀ x, x ∈ l → ∃ y, f x = Some y ∧ P y) →
  length (omap f l) = length l ∧ Forall P (omap f l).
Proof.
  induction l as [|x l IH]; intros H; [done|]. destruct (H x ltac:(by left)) as (y & Hy & Py). destruct IH as [IH1 IH2]; [intros z Hz; apply H; by right|].
  cbn. rewrite Hy. cbn. split; [by rewrite IH1|by constructor].
Qed.
Lemma resample_names choice names sd i : picks choice → length (resample choice names sd i) = length names ∧ Forall (λ n, n ∈ names) (resample choice names sd i).
Proof.
  intros Hc. unfold resample. set (pick := λ j, names !! choice sd (i * length names + j) (length names)).
  destruct (omap_total pick (λ n, n ∈ names) (seq 0 (length names))) as [H1 H2]; [|by rewrite length_seq in H1].
  intros j Hj%list_elem_of_In%in_seq. destruct (lookup_lt_is_Some_2 names (choice sd (i * length names + j) (length names))) as [n Hn]; [apply Hc; lia|].
  exists n. split; [done|]. by eapply list_elem_of_lookup_2.
Qed.
(** Resamples of clusters whose means are one unit have that mean. *)
Lemma difference_constant (means : list (string * spec_float)) chosen k : (Z.abs k <= 1)%Z →
  (∀ n, n ∈ chosen → assoc means n = Some (int_float k)) → chosen ≠ [] → (Z.of_nat (length chosen) < 2 ^ 53)%Z →
  difference_of means chosen = int_float k.
Proof.
  intros Hk Hm Hne Hl. unfold difference_of. destruct (omap_total (assoc means) (λ f, f = int_float k) chosen) as [Hlen Hf]; [eauto|].
  rewrite (constant_replicate _ _ Hf), Hlen. apply mean_of_units; [done|destruct chosen; [done|cbn; lia]|done].
Qed.
Lemma sorted_constant x n : sorted_floats (replicate n x) = replicate n x.
Proof.
  unfold sorted_floats. assert (H : merge_sort float_le (replicate n x) ≡ₚ replicate n x) by apply merge_sort_Permutation.
  by apply Permutation_sym, replicate_Permutation in H.
Qed.
Lemma py_index_in {A} (l : list A) i x : py_index l i = Ok x → x ∈ l.
Proof.
  unfold py_index. destruct (_ <? 0)%Z; [done|]. destruct (l !! _) eqn:E; [|done]. intros [= <-]. by eapply list_elem_of_lookup_2.
Qed.
Lemma clusters_le_members {A} (c : clusters A) : (∀ kv, kv ∈ c → kv.2 ≠ []) → length c ≤ length (members c).
Proof.
  unfold members. induction c as [|kv c IH]; intros H; [done|]. cbn. rewrite length_app.
  assert (0 < length kv.2) by (pose proof (H kv ltac:(by left)); destruct kv.2; [done|cbn; lia]).
  specialize (IH (λ x Hx, H x ltac:(by right))). lia.
Qed.
Definition means_of (c : clusters Pair) (predicate : record → bool) : list (string * spec_float) := mean_differences (values c predicate).
Lemma means_keys c predicate : keys (means_of c predicate) = keys c.
Proof. unfold means_of, mean_differences, values, keys. by rewrite !map_map. Qed.
(** Where every pair differs by one unit, so does every cluster's mean. *)
Lemma means_constant c predicate d : measurable c → Forall (λ x, x = d) (map (λ ab, float_sub ab.1 ab.2) (members (values c predicate))) →
  c ≠ [] → ∃ k, (Z.abs k <= 1)%Z ∧ ∀ n, n ∈ keys c → assoc (means_of c predicate) n = Some (int_float k).
Proof.
  intros Hm Hd Hc. change (values c predicate) with (map (λ kv : string * list Pair, (kv.1, map (λ p : Pair, (float_bool (predicate p.1), float_bool (predicate p.2))) kv.2)) c) in Hd.
  rewrite members_mapped, map_map, Forall_fmap, Forall_forall in Hd. cbn [fst snd compose] in Hd.
  assert (Hk : ∃ p, p ∈ members c).
  { destruct c as [|kv c']; [done|]. destruct (measurable_group _ kv Hm ltac:(by left)) as [Hne _]. destruct kv as [n [|p l]]; [done|].
    exists p. unfold members. cbn. by left. }
  destruct Hk as [p0 Hp0]. pose proof (Hd p0 Hp0) as H0. cbn in H0. rewrite float_bool_sub in H0.
  exists (pair_difference predicate p0). split; [apply pair_difference_unit|]. intros n Hn. rewrite <-(means_keys c predicate) in Hn.
  destruct (assoc (means_of c predicate) n) as [f|] eqn:E; [|by apply assoc_none in E]. f_equal. apply assoc_elem in E.
  unfold means_of, mean_differences, values in E. rewrite map_map in E. apply list_elem_of_fmap in E as (kv & [= -> ->] & Hkv). cbn [snd].
  destruct (measurable_group c kv Hm Hkv) as [Hne Hl]. unfold mean_difference. rewrite length_map, map_map. cbn [fst snd].
  assert (Hall : Forall (λ x, x = d) (map (λ p : Pair, float_sub (float_bool (predicate p.1)) (float_bool (predicate p.2))) kv.2)).
  { apply Forall_fmap, Forall_forall. intros p Hp. apply Hd. unfold members. apply list_elem_of_In, in_concat. exists kv.2.
    split; [apply in_map; by apply list_elem_of_In|by apply list_elem_of_In]. }
  rewrite (constant_replicate _ _ Hall), length_map, <-H0. apply mean_of_units; [apply pair_difference_unit|destruct kv.2; [done|cbn; lia]|done].
Qed.
(** A degenerate interval's resamples all have the observed difference. *)
Lemma degenerate_draws choice c predicate sd i names why : picks choice → measurable c → names = sorted_strings (keys c) → names ≠ [] →
  degenerate_why names (distinct_floats (map (λ ab, float_sub ab.1 ab.2) (members (values c predicate)))) = Some why →
  difference_of (means_of c predicate) (resample choice names sd i) = difference_of (means_of c predicate) names.
Proof.
  intros Hc Hm Hnames Hne Hwhy. destruct (resample_names choice names sd i Hc) as [Hlen Hin].
  destruct names as [|n1 [|n2 names]]; [done| |].
  - destruct (resample choice [n1] sd i) as [|m [|]]; try done. apply Forall_cons in Hin as [Hin%list_elem_of_singleton _]. by subst.
  - destruct (distinct_floats _) as [|d [|]] eqn:Hd; [done| |done]. clear Hwhy. set (names' := n1 :: n2 :: names) in *.
    assert (Hc0 : c ≠ []) by (intros ->; done).
    destruct (means_constant c predicate d Hm) as (k & Hk & Hmean); [|done|].
    { apply distinct_floats_one; [|exact Hd]. apply Forall_fmap, Forall_forall. intros ab Hab.
      change (values c predicate) with (map (λ kv : string * list Pair, (kv.1, map (λ p : Pair, (float_bool (predicate p.1), float_bool (predicate p.2))) kv.2)) c) in Hab.
      rewrite members_mapped in Hab. apply list_elem_of_fmap in Hab as (p & -> & _). cbn. rewrite float_bool_sub. by eexists _, _. }
    assert (Hsize : (Z.of_nat (length names') < 2 ^ 53)%Z).
    { rewrite Hnames, sorted_strings_perm. unfold keys. rewrite length_map. pose proof (clusters_le_members c (proj2 Hm)).
      pose proof (proj1 Hm). lia. }
    assert (Hkeys : ∀ n, n ∈ names' → assoc (means_of c predicate) n = Some (int_float k)).
    { intros n Hn. apply Hmean. rewrite Hnames in Hn. by rewrite elem_of_sorted_strings in Hn. }
    rewrite !(difference_constant _ _ k); try done.
    + intros n Hn. rewrite list.Forall_forall in Hin. by apply Hkeys, Hin.
    + destruct (resample _ _ _ _); [done|done].
    + by rewrite Hlen.
Qed.

#[local] Arguments degenerate_why : simpl never.
(** An interval the report marks degenerate has no width: where it
    rests on one cluster, or every pair differs by the same amount, both its
    ends are the observed difference, whatever the generator draws. *)
Theorem degenerate_intervals_flat choice c predicate n sd i : picks choice → measurable c →
  cluster_bootstrap choice (values c predicate) n sd = Ok i → degenerate i = true →
  lower i = observed i ∧ upper i = observed i.
Proof.
  intros Hc Hm. unfold cluster_bootstrap. destruct (n <? 1)%Z; [done|].
  assert (keys (values c predicate) = keys c) as -> by (unfold keys, values; by rewrite map_map).
  change (mean_differences (values c predicate)) with (means_of c predicate).
  pose proof (degenerate_draws choice c predicate sd) as Hdraw. 
  destruct (sorted_strings (keys c)) as [|x names] eqn:Hnames; [by intros [= <-]|]. intros H.
  apply res_bind_ok in H as (lo & Hlo & H). apply res_bind_ok in H as (up & Hup & [= <-]). cbn [degenerate lower upper observed].
  destruct (degenerate_why _ _) as [why|] eqn:Hw; [|done]. intros _.
  assert (Hall : ∀ f, f ∈ sorted_floats (map (λ i, difference_of (means_of c predicate) (resample choice (x :: names) sd i)) (seq 0 (Z.to_nat n))) →
    f = difference_of (means_of c predicate) (x :: names)).
  { intros f Hf. unfold sorted_floats in Hf. rewrite merge_sort_Permutation in Hf. apply list_elem_of_fmap in Hf as (j & -> & _).
    by apply (Hdraw j (x :: names) why). }
  by rewrite (Hall lo (py_index_in _ _ _ Hlo)), (Hall up (py_index_in _ _ _ Hup)).
Qed.

(** ** Exchanging the arms *)

Definition swap (p : Pair) : Pair := (p.2, p.1).
Definition exchanged (c : clusters Pair) : clusters Pair := map (λ kv, (kv.1, map swap kv.2)) c.
Lemma pair_of_swap l1 l2 k : pair_of l2 l1 k = swap <$> pair_of l1 l2 k.
Proof. unfold pair_of. by destruct (last_at l1 (key_at k)), (last_at l2 (key_at k)). Qed.
Lemma omap_fmapped {A B C} (f : A → option B) (g : A → option C) (h : B → C) (l : list A) :
  (∀ x, g x = h <$> f x) → omap g l = map h (omap f l).
Proof. intros H. induction l as [|x l IH]; [done|]. cbn. rewrite H. destruct (f x); cbn; by rewrite IH. Qed.
Lemma map_res_swapped l named : (∀ p, p ∈ l → record_construction p.2 = record_construction p.1) →
  map_res with_construction l = Ok named →
  map_res with_construction (map swap l) = Ok (map (λ np : string * Pair, (np.1, swap np.2)) named).
Proof.
  rewrite !map_res_Forall2. intros H Hn. induction Hn as [|p np l named Hp Hl IH]; [constructor|].
  constructor; [|apply IH; intros q Hq; apply H; by right]. pose proof (H p ltac:(by left)) as E.
  unfold with_construction in *. apply res_bind_ok in Hp as (c & Hc & [= <-]). cbn [swap fst snd]. by rewrite E, Hc.
Qed.
Lemma pairs_where_swap f g predicate l : (∀ a b, f a b = g b a) → pairs_where f predicate (map swap l) = pairs_where g predicate l.
Proof.
  intros H. unfold pairs_where, how_many. rewrite filter_map_swap, length_map. f_equal. apply List.filter_ext. intros p. apply H.
Qed.
Lemma how_many_map {A B} (f : B → bool) (g : A → B) l : how_many f (map g l) = how_many (λ x, f (g x)) l.
Proof. unfold how_many. by rewrite filter_map_swap, length_map. Qed.
Lemma wins_exchanged predicate c : how_many (wins_first predicate) (exchanged c) = how_many (wins_second predicate) c ∧
  how_many (wins_second predicate) (exchanged c) = how_many (wins_first predicate) c ∧
  how_many (ties_both predicate) (exchanged c) = how_many (ties_both predicate) c.
Proof.
  unfold exchanged, wins_first, wins_second, ties_both. rewrite !how_many_map. cbn [snd].
  assert (H1 : ∀ l, only_first_in predicate (map swap l) = only_second_in predicate l) by (intros l; apply pairs_where_swap; by intros [] []).
  assert (H2 : ∀ l, only_second_in predicate (map swap l) = only_first_in predicate l) by (intros l; apply pairs_where_swap; by intros [] []).
  split_and!; apply how_many_ext; intros kv _; rewrite H1, H2; try done. apply Nat.eqb_sym.
Qed.
Lemma probability_sym a b : probability a b = probability b a.
Proof.
  unfold probability, binomial_two_sided. rewrite (Z.add_comm (Z.of_nat b) (Z.of_nat a)), (Z.min_comm (Z.of_nat b) (Z.of_nat a)), (proj2 (Z.ltb_ge (Z.of_nat a) 0) (Nat2Z.is_nonneg a)),
    (proj2 (Z.ltb_ge (Z.of_nat b) 0) (Nat2Z.is_nonneg b)). done.
Qed.
Lemma measurable_exchanged c : measurable c → measurable (exchanged c).
Proof.
  intros [Hs Hn]. unfold exchanged. split; [by rewrite members_mapped, length_map|].
  intros kv (kv' & -> & Hkv)%list_elem_of_fmap. cbn. intros E. apply (Hn kv' Hkv). by destruct kv'.2.
Qed.

(** A comparison does not depend on which arm is named first, where
    tasks of one name have one construction: the exchanged arms form the
    exchanged pairs, the discordant counts change places, and so do the sides
    of the sign test, whose probability stays the same. *)
Theorem comparison_exchanges l1 l2 c : numbered l1 → numbered l2 →
  (∀ a b, a ∈ l1 → b ∈ l2 → task_name a = task_name b → record_construction a = record_construction b) →
  paired l1 l2 = Ok c →
  paired l2 l1 = Ok (exchanged c) ∧
  ∀ predicate, let d := discordance c predicate in
    discordance (exchanged c) predicate = {| both := both d; only_first := only_second d; only_second := only_first d; neither := neither d |} ∧
    (measurable c → ∃ t u, sign_test (cluster_differences c predicate) = Ok t ∧ sign_test (cluster_differences (exchanged c) predicate) = Ok u ∧
       positive u = negative t ∧ negative u = positive t ∧ ties u = ties t ∧ p u = p t).
Proof.
  intros H1 H2 Hcons Hc. split.
  - destruct (paired_closed l1 l2 H1 H2) as (ks & Hks & E). rewrite E in Hc. apply res_bind_ok in Hc as (named & Hn & [= <-]).
    destruct (paired_closed l2 l1 H2 H1) as (js & Hjs & ->).
    rewrite (shared_keys_ext l2 l1 l1 l2 js ks Hjs Hks) by (intros k; rewrite pair_of_swap; apply fmap_is_Some).
    rewrite (omap_fmapped (pair_of l1 l2) _ swap) by (intros k; apply pair_of_swap).
    rewrite (map_res_swapped _ named); [cbn [mbind res_bind]; f_equal; apply grouped_mapped| |exact Hn].
    intros [a b] Hp. apply list_elem_of_omap in Hp as (k & _ & [Ha Hb]%pair_of_some). cbn [fst snd] in *. symmetry.
    pose proof (last_at_key _ _ _ H1 Ha) as Ka. pose proof (last_at_key _ _ _ H2 Hb) as Kb.
    apply last_at_elem in Ha as (Ha & _ & _). apply last_at_elem in Hb as (Hb & _ & _). apply Hcons; [done|done|].
    unfold key_of in *. congruence.
  - intros predicate d. split.
    + unfold discordance, exchanged. rewrite members_mapped, !(pairs_where_swap _ _ _ _ (λ a b, eq_refl)). unfold d, discordance.
      cbn [both only_first only_second neither]. f_equal; apply how_many_ext; intros [x y] _; cbn [fst snd]; by destruct (predicate x), (predicate y).
    + intros Hm. destruct (sign_test_closed c predicate Hm) as (t & Ht & T1 & T2 & T3 & _ & T4).
      destruct (sign_test_closed _ predicate (measurable_exchanged c Hm)) as (u & Hu & U1 & U2 & U3 & _ & U4).
      destruct (wins_exchanged predicate c) as (W1 & W2 & W3). exists t, u.
      split_and!; [done|done|congruence|congruence|congruence|]. rewrite U4, T4, W1, W2, probability_sym. by destruct c.
Qed.

(** ** Every comparison is returned *)

Lemma default_quantiles : quantile 25 DEFAULT_RESAMPLES = 50%Z ∧ quantile 975 DEFAULT_RESAMPLES = 1949%Z.
Proof. split; vm_compute; reflexivity. Qed.
Lemma py_index_ok {A} (l : list A) i : (0 <= i < Z.of_nat (length l))%Z → ∃ x, py_index l i = Ok x.
Proof.
  intros Hi. unfold py_index. replace (i <? 0)%Z with false by lia. replace (i <? 0)%Z with false by lia.
  destruct (lookup_lt_is_Some_2 l (Z.to_nat i)) as [x ->]; [lia|eauto].
Qed.
Lemma bootstrap_returned choice c sd : ∃ i, cluster_bootstrap choice c DEFAULT_RESAMPLES sd = Ok i.
Proof.
  unfold cluster_bootstrap. cbn [Z.ltb Z.compare]. destruct (sorted_strings (keys c)) as [|x names]; [eauto|].
  destruct default_quantiles as [-> ->]. set (draws := sorted_floats _).
  assert (Hlen : Z.of_nat (length draws) = 2000%Z).
  { unfold draws, sorted_floats. rewrite merge_sort_Permutation, length_map, length_seq. done. }
  destruct (py_index_ok draws 50) as [lo ->]; [lia|]. destruct (py_index_ok draws 1949) as [up ->]; [lia|]. cbn. eauto.
Qed.
Lemma sign_test_returned d : ∃ t, sign_test d = Ok t.
Proof.
  unfold sign_test. destruct d as [|x d]; [eauto|]. rewrite probability_ok. cbn. eauto.
Qed.
Lemma compared_returned choice c sd : ∃ x, compare_clusters choice c DEFAULT_RESAMPLES sd = Ok x ∧ x_pairs x = length (members c).
Proof.
  unfold compare_clusters. set (probability_of := match c with [] => Ok None | _ => _ end).
  assert (∃ q, probability_of = Ok q) as [q ->].
  { unfold probability_of. destruct c; [eauto|]. unfold mcnemar_exact. rewrite probability_ok. cbn. eauto. }
  cbn [mbind res_bind]. destruct (sign_test_returned (cluster_differences c is_actionable)) as [t ->]. cbn [mbind res_bind].
  destruct (bootstrap_returned choice (values c is_actionable) sd) as [i1 ->].
  destruct (bootstrap_returned choice (values c is_false_completion) sd) as [i2 ->].
  destruct (bootstrap_returned choice (values (by_task c) is_actionable) sd) as [i3 ->]. cbn [mbind res_bind]. eexists. split; [reflexivity|]. done.
Qed.
Lemma members_kept c : members (restricted c) = List.filter both_reached (members c).
Proof.
  unfold restricted, members. induction c as [|kv c IH]; [done|]. cbn. rewrite List.filter_app, <-IH.
  by destruct (List.filter both_reached kv.2).
Qed.
Lemma restricted_nil c : restricted c = [] ↔ List.filter both_reached (members c) = [].
Proof.
  rewrite <-members_kept. split; [by intros ->|]. unfold restricted, members. induction c as [|kv c IH]; [done|]. cbn.
  by destruct (List.filter both_reached kv.2).
Qed.

Lemma map_res_error {A B} (f : A → res B) l e : map_res f l = Err e → ∃ x, x ∈ l ∧ f x = Err e.
Proof.
  induction l as [|x l IH]; [done|]. cbn [map_res]. destruct (f x) as [y|e'] eqn:Ef; cbn [mbind res_bind].
  - destruct (map_res f l); [done|]. cbn. intros [= ->]. destruct (IH eq_refl) as (z & Hz & E). exists z. split; [by right|done].
  - intros [= ->]. exists x. split; [by left|done].
Qed.
(** Whether the pairing of two arms is a comparison is decided by the
    constructions of the pairs alone. *)
Lemma paired_or_refused l1 l2 : numbered l1 → numbered l2 →
  match paired l1 l2 with
  | Ok c => ∀ k p, pair_of l1 l2 k = Some p → is_ok (record_construction p.1) = true
  | Err e => ∃ k p, pair_of l1 l2 k = Some p ∧ record_construction p.1 = Err e
  end.
Proof.
  intros H1 H2. destruct (paired_closed l1 l2 H1 H2) as (ks & [_ Hks] & ->).
  destruct (map_res with_construction _) as [named|e] eqn:En; cbn [mbind res_bind].
  - intros k p Hp. apply map_res_Forall2 in En. assert (p ∈ omap (pair_of l1 l2) (sorted_keys ks)) as [i Hi]%list_elem_of_lookup.
    { apply list_elem_of_omap. exists k. split; [|done]. unfold sorted_keys. rewrite merge_sort_Permutation. apply Hks. by exists p. }
    destruct (Forall2_lookup_l _ _ _ _ _ En Hi) as (np & _ & E). unfold with_construction in E. by destruct (record_construction p.1).
  - apply map_res_error in En as (p & Hp & E). apply list_elem_of_omap in Hp as (k & _ & Hp). exists k, p. split; [done|].
    unfold with_construction in E. destruct (record_construction p.1); [done|]. by injection E as ->.
Qed.

(** Claim C34. When a comparison is returned.  Of records whose attempt numbers are
    integers, with the default number of resamples and whatever the generator
    draws, a comparison is returned exactly when every pair of attempts that both
    arms hold has a construction; otherwise the error is the one that
    [construction_of] raised for such a pair.  What is returned covers every pair,
    and its restricted part is there exactly when some pair has both controls
    reached, and covers exactly the pairs that do. *)
Theorem comparison_returned choice l1 l2 sd : numbered l1 → numbered l2 →
  match compare choice l1 l2 DEFAULT_RESAMPLES sd with
  | Ok x =>
      (∀ k p, pair_of l1 l2 k = Some p → is_ok (record_construction p.1) = true) ∧
      ∃ c, paired l1 l2 = Ok c ∧ x_pairs (whole x) = length (members c) ∧
        match narrowed x with
        | None => ∀ p, p ∈ members c → both_reached p = false
        | Some y => x_pairs y = how_many both_reached (members c) ∧ 0 < x_pairs y
        end
  | Err e => ∃ k p, pair_of l1 l2 k = Some p ∧ record_construction p.1 = Err e
  end.
Proof.
  intros H1 H2. pose proof (paired_or_refused l1 l2 H1 H2) as Hp. unfold compare.
  destruct (paired l1 l2) as [c|e]; cbn [mbind res_bind]; [|done].
  destruct (compared_returned choice c sd) as (x & Ex & Hx). pose proof (restricted_nil c) as Hn. pose proof (members_kept c) as Hk.
  destruct (restricted c) as [|kv kept] eqn:Er.
  - cbn [mbind res_bind]. rewrite Ex. cbn [mbind res_bind]. split; [done|]. exists c. split_and!; [done|exact Hx|]. cbn [narrowed]. intros p Hin.
    destruct (both_reached p) eqn:Hb; [|done]. assert (p ∈ List.filter both_reached (members c)) as Hf by by apply elem_of_kept.
    rewrite (proj1 Hn eq_refl) in Hf. by apply elem_of_nil in Hf.
  - destruct (compared_returned choice (kv :: kept) sd) as (y & Ey & Hy). rewrite Ey. cbn [fmap res_fmap mbind res_bind]. rewrite Ex. cbn [mbind res_bind].
    split; [done|]. exists c. split_and!; [done|exact Hx|]. cbn [narrowed]. rewrite Hy, Hk. split; [done|].
    destruct (List.filter both_reached (members c)); [by destruct Hn as [_ Hn]; specialize (Hn eq_refl)|cbn; lia].
Qed.

(** ** Witnesses *)

Definition is_numbered (r : record) : bool := match dget r "attempt" with VInt _ => true | _ => negb (is_scored r) end.
Lemma numbered_checked l : forallb is_numbered l = true → numbered l.
Proof.
  rewrite forallb_forall. intros H r Hr Hs. specialize (H r (proj1 (list_elem_of_In _ _) Hr)). unfold is_numbered in H. rewrite Hs in H.
  destruct (dget r "attempt"); try done. eauto.
Qed.
Lemma constructed_checked l : forallb (λ r, negb (is_scored r) || is_ok (record_construction r)) l = true →
  ∀ r, r ∈ l → is_scored r = true → is_ok (record_construction r) = true.
Proof. rewrite forallb_forall. intros H r Hr Hs. specialize (H r (proj1 (list_elem_of_In _ _) Hr)). by rewrite Hs in H. Qed.
Lemma distinct_checked l ks : map key_of (List.filter is_scored l) = map key_at ks → NoDup ks → attempts_distinct l.
Proof. intros H Hk. unfold attempts_distinct. rewrite H. by apply NoDup_fmap_2; [apply key_at_inj|]. Qed.
Definition example_clusters : clusters Pair := match paired first_arm second_arm with Ok c => c | Err _ => [] end.
Lemma example_paired : paired first_arm second_arm = Ok example_clusters.
Proof. vm_compute. reflexivity. Qed.
Example example_shape : map (λ kv, (kv.1, map (λ p : Pair, key_of p.1) kv.2)) example_clusters =
  [("c1", [("t1", VInt 1)]); ("c2", [("t2", VInt 1); ("t2", VInt 2)])].
Proof. vm_compute. reflexivity. Qed.
Lemma measurable_checked (c : clusters Pair) : (Z.of_nat (length (members c)) <? 2 ^ 53)%Z && forallb (λ kv, filled kv.2) c = true → measurable c.
Proof.
  intros [Hs%Z.ltb_lt H]%andb_true_iff. split; [done|]. rewrite forallb_forall in H. intros kv Hkv%list_elem_of_In E.
  specialize (H kv Hkv). by rewrite E in H.
Qed.
Lemma example_measurable : measurable example_clusters.
Proof. apply measurable_checked. vm_compute. reflexivity. Qed.

Lemma paired_exact_witness : ∃ c, paired first_arm second_arm = Ok c ∧ NoDup (map (λ p, key_of p.1) (members c)) ∧ length (members c) = 3.
Proof.
  destruct (paired_exact first_arm second_arm) as (c & Hc & _ & Hn & _);
    [apply numbered_checked; vm_compute; reflexivity..|apply constructed_checked; vm_compute; reflexivity|].
  exists c. split_and!; [done|done|]. rewrite example_paired in Hc. injection Hc as <-. vm_compute. reflexivity.
Defined.
Lemma restriction_is_pairing_witness :
  paired (List.filter control_reached first_arm) (List.filter control_reached second_arm) = Ok (restricted example_clusters) ∧
  keys (restricted example_clusters) = ["c1"; "c2"].
Proof.
  split; [|vm_compute; reflexivity]. apply restriction_is_pairing; [apply numbered_checked; vm_compute; reflexivity..| | |exact example_paired].
  - apply (distinct_checked _ [("t1", 1); ("t2", 1); ("t2", 2)]%Z); [vm_compute; reflexivity|apply (bool_decide_unpack _); vm_compute; exact I].
  - apply (distinct_checked _ [("t2", 2); ("t2", 1); ("t1", 1); ("t4", 1)]%Z); [vm_compute; reflexivity|apply (bool_decide_unpack _); vm_compute; exact I].
Defined.
Lemma sign_test_counts_wins_witness : ∃ t, sign_test (cluster_differences example_clusters is_actionable) = Ok t ∧ positive t = 2 ∧ ties t = 0.
Proof.
  destruct (sign_test_counts_wins example_clusters is_actionable example_measurable) as (t & Ht & Hp & Hn & Hs & _). exists t.
  assert (positive t = 2) as Hp2 by (rewrite Hp; vm_compute; reflexivity).
  assert (Hl : length example_clusters = 2) by (vm_compute; reflexivity). split_and!; [done|done|lia].
Defined.
Definition first_choice (s : Z) (k n : nat) : nat := k mod n.
Lemma degenerate_intervals_flat_witness : ∃ i, cluster_bootstrap first_choice (values (take 1 example_clusters) is_actionable) 20 0 = Ok i ∧
  degenerate i = true ∧ lower i = observed i ∧ observed i = Some (int_float 1).
Proof.
  destruct (cluster_bootstrap first_choice (values (take 1 example_clusters) is_actionable) 20 0) as [i|e] eqn:E; [|vm_compute in E; done].
  exists i. assert (degenerate i = true ∧ observed i = Some (int_float 1)) as [Hd Ho] by (vm_compute in E; injection E as <-; split; vm_compute; reflexivity).
  split_and!; [done|done| |done]. refine (proj1 (degenerate_intervals_flat first_choice (take 1 example_clusters) is_actionable 20 0 i _ _ E Hd)).
  - intros s k n Hn. unfold first_choice. apply Nat.mod_upper_bound. lia.
  - apply measurable_checked. vm_compute. reflexivity.
Defined.
Lemma comparison_exchanges_witness : paired second_arm first_arm = Ok (exchanged example_clusters) ∧
  only_second (discordance (exchanged example_clusters) is_actionable) = 2.
Proof.
  destruct (comparison_exchanges first_arm second_arm example_clusters) as [H1 H2];
    [apply numbered_checked; vm_compute; reflexivity..| |exact example_paired|].
  - assert (H : forallb (λ a, forallb (λ b, negb (String.eqb (task_name a) (task_name b)) ||
        match record_construction a, record_construction b with Ok c, Ok d => String.eqb c d | _, _ => false end) second_arm) first_arm = true)
      by (vm_compute; reflexivity).
    intros a b Ha%list_elem_of_In Hb%list_elem_of_In Hn. rewrite forallb_forall in H. specialize (H a Ha). rewrite forallb_forall in H. specialize (H b Hb).
    rewrite Hn, String.eqb_refl in H. destruct (record_construction a), (record_construction b); try done. by apply String.eqb_eq in H as ->.
  - split; [exact H1|]. destruct (H2 is_actionable) as [-> _]. vm_compute. reflexivity.
Defined.
(** A pair whose task record names no construction. *)
Definition unnamed_arm : list record := map (λ r, dset r "task" (VDict [("name", VStr "t1")])) (take 1 first_arm).
Lemma comparison_returned_witness :
  (∃ x, compare first_choice first_arm second_arm DEFAULT_RESAMPLES 0 = Ok x ∧ x_pairs (whole x) = 3) ∧
  ∃ p, pair_of unnamed_arm second_arm ("t1", 1%Z) = Some p ∧ is_ok (record_construction p.1) = false ∧
    is_ok (compare first_choice unnamed_arm second_arm DEFAULT_RESAMPLES 0) = false.
Proof.
  split.
  - pose proof (comparison_returned first_choice first_arm second_arm 0 ltac:(apply numbered_checked; vm_compute; reflexivity)
      ltac:(apply numbered_checked; vm_compute; reflexivity)) as H.
    destruct (compare first_choice first_arm second_arm DEFAULT_RESAMPLES 0) as [x|e].
    + destruct H as (_ & c & Hc & Hp & _). exists x. split; [done|]. rewrite example_paired in Hc. injection Hc as <-. rewrite Hp. vm_compute. reflexivity.
    + destruct H as (k & p & Hp & He). exfalso. pose proof (paired_or_refused first_arm second_arm ltac:(apply numbered_checked; vm_compute; reflexivity)
        ltac:(apply numbered_checked; vm_compute; reflexivity)) as Hr. rewrite example_paired in Hr. specialize (Hr k p Hp). by rewrite He in Hr.
  - assert (Hp : ∃ p, pair_of unnamed_arm second_arm ("t1", 1%Z) = Some p ∧ is_ok (record_construction p.1) = false).
    { assert (Hq : match pair_of unnamed_arm second_arm ("t1", 1%Z) with Some p => is_ok (record_construction p.1) | None => true end = false) by (vm_compute; reflexivity).
      destruct (pair_of unnamed_arm second_arm ("t1", 1%Z)) as [p|]; [by exists p|done]. }
    destruct Hp as (p & Hp & Hb). exists p. split; [done|]. split; [done|].
    pose proof (comparison_returned first_choice unnamed_arm second_arm 0 ltac:(apply numbered_checked; vm_compute; reflexivity)
      ltac:(apply numbered_checked; vm_compute; reflexivity)) as H.
    destruct (compare first_choice unnamed_arm second_arm DEFAULT_RESAMPLES 0) as [x|e]; [|done].
    destruct H as [H _]. specialize (H _ _ Hp). by rewrite Hb in H.
Defined.
