(* ===== verification/ReportText.v ===== *)
(** * The report as Markdown

    src/evals/cross_harness/report.py: the tables and sentences [markdown] writes
    over the document [Comparison.build] gives.  A cell holds text or the
    formatted form of a float; a float where none was measured is a dash. *)

From Stdlib Require Import Ascii.
From stdpp Require Import base list strings pretty sorting.
From Stdlib Require Import ZArith Lia SpecFloat.
From S2P Require Import Prelude PyValue PyText PyUnicode PyFloat PyFormat TaskProtocol Grouping Stats Report Mechanisms Comparison.

(** ** Cells *)

Definition DASH : string := "—".
Definition or_dash {A} (show : A → string) (v : option A) : string := match v with Some x => show x | None => DASH end.
(** [text or "—"]. *)
Definition nonblank (s : string) : string := match s with EmptyString => DASH | s => s end.
Definition table_row (cells : list string) : string := "| " +:+ join " | " cells +:+ " |".
Definition ticked (s : string) : string := "`" +:+ s +:+ "`".
(** An f-string's [None]. *)
Definition or_none (v : option string) : string := default "None" v.

Definition rate_cell (r : Rate) : string :=
  or_dash (λ f, fixed 2 f +:+ " (" +:+ nat_str (hits r) +:+ "/" +:+ nat_str (of_ r) +:+ ")") (ratio r).
Definition number_cell (digits : nat) (v : option spec_float) : string := or_dash (grouped_fixed digits) v.
(** [_number] of an integer, which formatting makes a float. *)
Definition integer_cell (v : option Z) : res string := match v with None => Ok DASH | Some n => grouped_int 0 n end.
Definition signed (v : option spec_float) : res string :=
  match v with Some f => Ok (signed_fixed 2 f) | None => Err (TypeError "unsupported format string passed to NoneType.__format__") end.
Definition interval_cell (v : Interval) : res string :=
  match observed v with
  | None => Ok DASH
  | Some f =>
      low ← signed (lower v); high ← signed (upper v);
      Ok (signed_fixed 2 f +:+ " [" +:+ low +:+ ", " +:+ high +:+ "]" +:+ (if degenerate v then " degenerate" else ""))
  end.
Definition tested_cell (untested : string) (probability : option spec_float) (is_tested : bool) : string :=
  match probability with None => DASH | Some f => if is_tested then fixed 4 f else untested end.
Definition mcnemar_cell (c : Compared) : string := tested_cell "— no discordant pair" (x_mcnemar c) (x_tested c).
Definition sign_cell (s : SignTest) : string := tested_cell "— no discordant construction" (p s) (tested s).
Definition cost_cell (digits : nat) (d : Distribution) : string :=
  or_dash (λ f, grouped_fixed digits f +:+ " (n=" +:+ nat_str (measured d) +:+ ")") (d_mean d).
Definition use_cell (u : Utilization) : res string :=
  match u_mean u with
  | None => Ok DASH
  | Some f =>
      most ← (match u_max u with Some m => Ok (fixed 2 m) | None => Err (TypeError "unsupported format string passed to NoneType.__format__") end);
      Ok (fixed 2 f +:+ " max " +:+ most +:+
          (if Nat.eqb (u_enforced u) 0 then " (measured over " +:+ nat_str (u_measured u) +:+ ", no ceiling)"
           else " (" +:+ nat_str (u_reached u) +:+ " of " +:+ nat_str (u_enforced u) +:+ " at the ceiling)"))
  end.
(** [text.replace("|", "\\|")]. *)
Definition escape_bar (c : ascii) : string := if (c =? "|")%char then "\|" else String c "".
Definition text_cell (v : value) : string := nonblank (concat_map_string escape_bar (join " " (split_words (py_str v)))).
Definition flag_cell (v : value) : string := match v with VBool b => if b then "yes" else "no" | _ => DASH end.
Definition optional_flag (b : option bool) : string := flag_cell (match b with Some b => VBool b | None => VNone end).
Definition counts_cell (l : list (string * nat)) : string :=
  nonblank (join ", " (map (λ kv : string * nat, kv.1 +:+ " ×" +:+ nat_str kv.2) l)).
Definition mean_cell (digits : nat) (m : Mean) : string :=
  or_dash (λ f, fixed digits f +:+ " (n=" +:+ nat_str (mm_measured m) +:+ ")") (mm_mean m).
Definition at_key {A} (d : list (string * A)) (k : string) : res A := match assoc d k with Some x => Ok x | None => Err (KeyError k) end.

(** ** The tables *)

Definition arm_text (a : value) : string := ticked (py_str a).
Definition class_row (named : string * Rates) : res string :=
  let '(name, e) := named in
  input ← at_key (by_key (r_cost e)) "input_tokens"; output ← at_key (by_key (r_cost e)) "output_tokens";
  cache ← at_key (by_key (r_cost e)) "cache_read_tokens"; calls ← at_key (by_key (r_cost e)) "model_calls";
  time ← at_key (by_key (r_cost e)) "seconds";
  stop ← at_key (by_key (block_cost (r_to_stop e))) "input_tokens"; unstopped ← at_key (by_key (block_cost (r_without_stop e))) "input_tokens";
  Ok (table_row [name; nat_str (r_attempts e); nat_str (r_scored e); rate_cell (r_actionable e); rate_cell (r_false_completion e);
    rate_cell (block_precision e); rate_cell (block_recall e); rate_cell (r_killed e); rate_cell (r_damage e);
    cost_cell 0 input; cost_cell 0 output; cost_cell 0 cache; cost_cell 1 calls; cost_cell 1 time; cost_cell 0 stop; cost_cell 0 unstopped;
    rate_cell (censored (r_censoring e))]).
Definition class_table (entry : value * ArmMetrics) : res (list string) :=
  rows ← map_res class_row (a_per_class entry.2);
  Ok ([""; "### " +:+ arm_text entry.1; "";
       "| class | attempts | scored | actionable | false completion | block precision | block recall | killed | damage | input tokens | output tokens | cache read | model calls | seconds | input tokens to stop | input tokens without a stop | censoring |";
       "|---|---:|---:|---|---|---|---|---|---|---:|---:|---:|---:|---:|---:|---:|---|"] ++ rows).
Definition classes_markdown (d : ReportDocument) : res (list string) :=
  tables ← map_res class_table (d_per_arm d);
  Ok ([""; "## Classes"; "";
       "Every rate of the arms table over one task class. `solvable` asks a harness to finish; every other autonomy class asks it to stop. Costs are means over the attempts that measured them, and input tokens are the primary measure: foe records no separate reasoning count while Codex reports its reasoning tokens inside the output count, so the two output totals count different things. The two stop columns are input tokens for that reason."]
      ++ concat tables ++
      [""; "Input tokens to stop are the attempts classified `correct-stop`; input tokens without a stop are the attempts on tasks that admit no completion which did not stop correctly, and the two are read together. Censoring is the share of the attempts on those tasks which a ceiling or a kill ended rather than a stop of the arm's own."]).

Definition ceiling_row (entry : value * ArmMetrics) : res string :=
  let c := a_ceilings entry.2 in
  let use key := u ← at_key (utilization c) key; use_cell u in
  calls ← use "model_calls"; input ← use "input_tokens"; output ← use "output_tokens"; time ← use "seconds";
  Ok (table_row [arm_text entry.1; nat_str (c_scored c); calls; input; output; time; rate_cell (c_at_ceiling c); nat_str (c_exhausted c); counts_cell (bound_by c)]).
Definition ceilings_markdown (d : ReportDocument) : res (list string) :=
  rows ← map_res ceiling_row (d_per_arm d);
  Ok ([""; "## Ceilings"; "";
       "| arm | scored | model calls | input tokens | output tokens | seconds | at a ceiling | exhausted | bound by |";
       "|---|---:|---|---|---|---|---|---:|---|"] ++ rows ++
      [""; "Each column is the attempt's total over the ceiling its own record carries. Codex takes token and wall-clock limits alone, so the model-call column is a bound for a foe arm and a measurement for a Codex arm, and a column no attempt was held to states its measurement and no count. An attempt is at a ceiling only on the keys its own harness enforces. `bound by` counts the limit each exhausted attempt's outcome names."]).

Definition mechanism_row (entry : value * ArmMetrics) : string :=
  let m := a_mechanisms entry.2 in
  table_row [arm_text entry.1; nat_str (mx_attempts m); nonblank (default "" (mx_source m)); rate_cell (mx_ran m); mean_cell 2 (mx_runs m);
    rate_cell (mx_cleared m); rate_cell (mx_block_called m); counts_cell (mx_block_codes m); mean_cell 2 (mx_compactions m); mean_cell 1 (mx_tool_calls m);
    rate_cell (agreeing (a_agreement entry.2)); or_dash (λ c, rate_cell (conforming c)) (a_conformance entry.2)].
Definition disagreement_line (arm : value) (g : Disagreement) : string :=
  "- " +:+ arm_text arm +:+ " " +:+ ticked (g_task g) +:+ " attempt " +:+ py_str (g_attempt g) +:+ ": the arm reported " +:+ text_cell (arm_outcome g)
  +:+ " and its logs carry " +:+ text_cell (logs_outcome g).
Definition mechanisms_markdown (d : ReportDocument) : list string :=
  let against := concat (map (λ entry : value * ArmMetrics, map (disagreement_line entry.1) (disagreements (a_agreement entry.2))) (d_per_arm d)) in
  [""; "## Mechanisms"; "";
   "| arm | scored | verifier from | verifier ran | firings | last firing cleared | block called | block codes | compactions | tool calls | self-report agrees | trace conformance |";
   "|---|---:|---|---|---|---|---|---|---|---|---|---|"] ++ map mechanism_row (d_per_arm d) ++
  [""; "A foe arm's verifier fires as the `check` tool its document declares and as the runtime's own invocation at the completion gate, and a Codex arm's is a shell command that runs the task's check suite, so the two firing counts come from two different sources and the `verifier from` column states which. A firing cleared when its result reported no finding, which an exit status does not state. The `block` tool is a foe tool; the code a Codex arm stated for a blocked run is in the blocked-code table. Trace conformance is the foe-only column `normalize_foe.py` writes, and an arm that records none is left empty. The two rightmost columns are taken over the same scored attempts the `scored` column counts."]
  ++ match against with [] => [] | _ => [""; "Attempts whose self-report and logs disagree:"; ""] ++ against end.

Definition blocked_row (b : BlockedCode) : string :=
  let accepted := match join ", " (b_correct_codes b) with "" => if b_task_accepts b then "any code" else "no stop" | s => s end in
  table_row [ticked (b_task b); or_none (b_class b); arm_text (b_arm b); py_str (b_attempt b); nonblank (default "" (b_code b));
    flag_cell (VBool (b_accepted b)); accepted; py_str (b_classification b);
    match b_findings b with [] => "none" | l => text_cell (VStr (join "; " l)) end].
Definition blocked_markdown (d : ReportDocument) : list string :=
  match concat (map (λ entry : value * ArmMetrics, a_blocked entry.2) (d_per_arm d)) with
  | [] => []
  | rows =>
      [""; "## Blocked codes"; "";
       "| task | class | arm | attempt | code | accepted | codes the task accepts | cell | findings against the stop |";
       "|---|---|---|---:|---|---|---|---|---|"] ++ map blocked_row rows ++
      [""; "A code is accepted when the task admits a stop and either names no code or names this one; a stop for any other reason is a wrong stop."; "";
       "The cell reads the status and the code alone. The last column is what the task's grader found against the same attempt, which includes, on the constructions that withhold a capability, whether the stop names the thing that is absent. An attempt can therefore hold the cell `correct-stop` and carry a finding that its stated reason is not the reason. The two are reported side by side rather than folded together, because the pre-registered rates rest on the cell. This column was added after the run began, on seeing one such attempt, and it is read as exploratory rather than as a declared measure."]
  end.

Definition fault_row (kind : string) (arm : value) (item : string * value * string) : string :=
  table_row [arm_text arm; ticked item.1.1; py_str item.1.2; kind; text_cell (VStr item.2)].
Definition fault_rows (d : ReportDocument) : list string :=
  concat (map (λ entry : value * ArmMetrics, map (fault_row "fault" entry.1) (a_faults entry.2)) (d_per_arm d))
  ++ concat (map (λ entry : value * ArmMetrics, map (fault_row "not applicable" entry.1) (a_not_applicable entry.2)) (d_per_arm d)).
Definition faults_markdown (d : ReportDocument) : list string :=
  match fault_rows d with
  | [] => []
  | rows => [""; "## Faults and attempts not applicable"; ""; "| arm | task | attempt | kind | reason |"; "|---|---|---:|---|---|"] ++ rows
  end.

Definition autonomy_row (w : AttemptRow) : res string :=
  let m := w_measures w in
  let total key := integer_cell (mjoin (assoc (y_totals m) key)) in
  input ← total "input_tokens"; output ← total "output_tokens"; calls ← total "model_calls";
  compacted ← integer_cell (m_compactions (y_mechanisms m));
  version ← integer_cell (y_scoring_version m);
  Ok (table_row [ticked (w_task w); or_none (y_class m); arm_text (w_arm w); py_str (w_attempt w); py_str (w_classification w);
    nonblank (default "" (y_status m)); py_str (py_or (y_code m) (VStr DASH)); input; output; calls; number_cell 1 (y_seconds m);
    number_cell 2 (y_use_max m); py_str (py_or (default VNone (y_bound_by m)) (VStr DASH)); nat_str (m_runs (y_mechanisms m));
    optional_flag (m_cleared (y_mechanisms m)); nonblank (join ", " (m_block_codes (y_mechanisms m))); compacted;
    flag_cell (y_agree m); flag_cell (y_conforms m); version; py_str (py_or (y_condition m) (VStr DASH)); flag_cell (y_reached m)]).
Definition autonomy_markdown (d : ReportDocument) : res (list string) :=
  match d_attempts d with
  | [] => Ok []
  | attempts =>
      rows ← map_res autonomy_row attempts;
      Ok ([""; "## Autonomy attempts"; "";
           "| task | class | arm | attempt | cell | reported | code | input tokens | output tokens | model calls | seconds | highest ceiling use | bound by | verifier firings | cleared | block codes | compactions | self-report agrees | trace conforms | scoring version | condition | reached |";
           "|---|---|---|---:|---|---|---|---:|---:|---:|---:|---:|---|---:|---|---|---:|---|---|---:|---|---|"] ++ rows)
  end.

(** ** Sentences *)

Definition detectable_sentence (v : Detectable) : string :=
  let head := "The sign test reaches a two-sided probability at or below " +:+ float_repr (level v) +:+ " only when at least "
    +:+ nat_str (min_discordant v) +:+ " constructions differ, all in one direction" in
  if negb (reachable v) then
    head +:+ "; the thinnest comparison pairs " +:+ Z_str (units v) +:+ " constructions, so it can call no difference significant."
  else
    head +:+ ", so over the " +:+ Z_str (units v) +:+ " constructions of the thinnest comparison the smallest difference this run could call significant is "
    +:+ or_dash (fixed 2) (difference v) +:+ ", the share of constructions that must each differ by one.".
Definition detectable_in_attempts_sentence (a : InAttempts) : string :=
  let v := in_attempts a in
  let head := "The task-level McNemar test reaches " +:+ float_repr (level v) +:+ " only with at least " +:+ nat_str (min_discordant v) +:+ " discordant pairs" in
  if negb (reachable v) then
    head +:+ "; the thinnest comparison forms " +:+ Z_str (units v) +:+ " paired attempts over " +:+ Z_str (over_tasks a) +:+ " tasks, so it can call no difference significant."
  else
    head +:+ ", so over the " +:+ Z_str (units v) +:+ " paired attempts of the thinnest comparison, which covers " +:+ Z_str (over_tasks a)
    +:+ " tasks, it could call a difference of " +:+ or_dash (fixed 2) (difference v)
    +:+ " significant if the tasks were independent, which related constructions are not.".
Definition non_inferiority_sentence (v : NonInferiority) : string :=
  "No non-inferiority result is stated. The solvable tasks form " +:+ nat_str (solvable_constructions v) +:+ " constructions, and the sign test needs at least "
  +:+ nat_str (needed v) +:+ " to call any difference significant, so a margin of " +:+ fixed 0 (float_mul (margin v) (int_float 100))
  +:+ " percentage points cannot be established from them.".

(** ** Comparisons *)

(** [_p]. *)
Definition probability_cell (f : option spec_float) : string := or_dash (fixed 6) f.
(** The comparisons of [restricted_markdown]; those of the archive name a scoring version. *)
Record Compared_row : Type := { row_first : string; row_second : string; row_scoring : option nat; row_pair : Comparison }.
Definition is_versioned (l : list Compared_row) : bool := existsb (λ c, match row_scoring c with Some _ => true | None => false end) l.
Definition restricted_row (versioned : bool) (c : Compared_row) : res string :=
  let sign (s : SignTest) := if versioned then probability_cell (p s) else sign_cell s in
  let pair := whole (row_pair c) in
  after ← (match narrowed (row_pair c) with
           | None => Ok ["0"; "0"; "0"; DASH; NO_RESTRICTED_PAIR]
           | Some n =>
               i ← interval_cell (x_actionable n);
               Ok [nat_str (x_pairs n); nat_str (length (x_tasks n)); nat_str (length (x_constructions n)); sign (x_sign n); i]
           end);
  all ← interval_cell (x_actionable pair);
  Ok (table_row ([row_first c; row_second c]
    ++ (if versioned then [match row_scoring c with Some v => nat_str v | None => "None" end] else [])
    ++ [nat_str (x_pairs pair); nat_str (length (x_constructions pair)); sign (x_sign pair); all] ++ after)).
Definition restricted_markdown (l : list Compared_row) : res (list string) :=
  let versioned := is_versioned l in
  rows ← map_res (restricted_row versioned) l;
  Ok ([""; "Restricted to the pairs in which both attempts' controls reached the conditions they test, from each attempt's condition; an arm that declares no controlled mechanism enters, and an attempt whose condition was not reached or whose wait entry is not established leaves with its partner. Paired attempts count pairs; each pair is one attempt of each arm.";
       "";
       (if versioned then "| first | second | scoring version |" else "| first | second |") +:+
       " paired attempts | constructions | sign-test p | actionable difference by construction | restricted paired attempts | restricted tasks | restricted constructions | restricted sign-test p | restricted actionable difference by construction |";
       (if versioned then "|---|---|---:|" else "|---|---|") +:+ "---:|---:|---:|---|---:|---:|---:|---:|---|"] ++ rows).

Definition construction_row (f : FormedPair) : res string :=
  let c := whole (f_comparison f) in
  actionable_ ← interval_cell (x_actionable c); completion ← interval_cell (x_false_completion c);
  Ok (table_row [ticked (f_first f); ticked (f_second f); f_isolates f; nat_str (length (x_constructions c)); nat_str (length (x_tasks c)); nat_str (x_pairs c);
    nat_str (positive (x_sign c)); nat_str (negative (x_sign c)); nat_str (ties (x_sign c)); sign_cell (x_sign c); actionable_; completion]).
Definition task_level_row (f : FormedPair) : res string :=
  let c := whole (f_comparison f) in
  by_task_ ← interval_cell (x_by_task c);
  Ok (table_row [ticked (f_first f); ticked (f_second f); nat_str (length (x_tasks c)); nat_str (x_pairs c); nat_str (both (x_counts c));
    nat_str (only_first (x_counts c)); nat_str (only_second (x_counts c)); nat_str (neither (x_counts c)); mcnemar_cell c; by_task_]).
Definition unformed_line (u : UnformedPair) : string :=
  "- " +:+ ticked (n_first u) +:+ " with " +:+ ticked (n_second u) +:+ " (" +:+ n_family u +:+ "): " +:+ n_reason u.
Definition paired_markdown (n sd : Z) (d : ReportDocument) : res (list string) :=
  body ← (match d_pairs d with
    | [] => Ok ["No declared pair of arms shares a scored attempt on one task."]
    | pairs =>
        rows ← map_res construction_row pairs;
        restricted_ ← restricted_markdown (map (λ f, {| row_first := ticked (f_first f); row_second := ticked (f_second f); row_scoring := None;
                                                       row_pair := f_comparison f |}) pairs);
        secondary ← map_res task_level_row pairs;
        Ok (["| first | second | isolates | constructions | tasks | pairs | first better | second better | tied | sign-test p | actionable difference by construction | false-completion difference |";
             "|---|---|---|---:|---:|---:|---:|---:|---:|---:|---|---|"] ++ rows ++
            [""; "Differences are first minus second, with 95 percent intervals from " +:+ Z_str n +:+ " cluster-bootstrap resamples over constructions (seed "
             +:+ Z_str sd +:+ "). A construction is better for one arm when its mean paired difference in the actionable rate favors that arm, and tied when the difference is zero; the sign test counts the constructions that differ. An interval marked degenerate rests on one construction or on a difference that every pair shares, so it states the width of the data and no sampling width."]
            ++ restricted_ ++
            [""; detectable_sentence (d_detectable d); ""; non_inferiority_sentence (d_non_inferiority d); "";
             "Secondary, task-level line. It treats every task as independent, which related constructions are not, so the headline rests on the construction table above.";
             ""; "| first | second | tasks | pairs | both | only first | only second | neither | McNemar p | actionable difference by task |";
             "|---|---|---:|---:|---:|---:|---:|---:|---:|---|"] ++ secondary ++
            [""; detectable_in_attempts_sentence (d_detectable_attempts d)])
    end);
  Ok ([""; "## Paired comparisons"; ""] ++ body ++
      match d_not_formed d with [] => [] | l => [""; "Declared pairs without a comparison:"; ""] ++ map unformed_line l end).

(** ** The report *)

Definition arm_row (entry : value * ArmMetrics) : res string :=
  let r := a_rates entry.2 in
  input ← at_key (by_key (block_cost (r_to_stop r))) "input_tokens";
  Ok (table_row [arm_text entry.1; nat_str (r_attempts r); nat_str (r_scored r); Z_str (r_infrastructure r); nat_str (r_not_applicable r);
    rate_cell (r_actionable r); rate_cell (r_false_completion r); rate_cell (block_precision r); rate_cell (block_recall r); rate_cell (r_killed r);
    rate_cell (r_damage r); number_cell 0 (d_mean input); number_cell 1 (d_mean (seconds (r_to_stop r)))]).
Definition task_arm_row (task_ : string) (class_ : value) (entry : value * TaskArm) : string :=
  let m := entry.2 in
  table_row [ticked task_; py_str class_; arm_text entry.1; nat_str (t_attempts m);
    nonblank (join ", " (map (λ kv : value * nat, py_str kv.1 +:+ " ×" +:+ nat_str kv.2) (t_cells m))); rate_cell (t_actionable m);
    number_cell 0 (t_tokens_mean m); number_cell 1 (t_seconds_mean m)].
Definition task_table (d : ReportDocument) : list string :=
  concat (map (λ entry : string * TaskReport, map (task_arm_row entry.1 (p_class entry.2)) (p_arms entry.2)) (d_per_task d)).
Definition markdown (n sd : Z) (d : ReportDocument) : res string :=
  arms ← map_res arm_row (d_per_arm d);
  classes ← classes_markdown d;
  held ← ceilings_markdown d;
  autonomy ← autonomy_markdown d;
  pairs ← paired_markdown n sd d;
  Ok (join nl (["## Arms"; "";
    "| arm | attempts | scored | faults | not applicable | actionable | false completion | block precision | block recall | killed | damage | input tokens to stop | seconds to stop |";
    "|---|---:|---:|---:|---:|---|---|---|---|---|---|---:|---:|"] ++ arms ++ classes ++ held ++ mechanisms_markdown d ++ blocked_markdown d
    ++ faults_markdown d ++
    [""; "## Tasks"; ""; "| task | class | arm | attempts | cells | actionable | mean tokens | mean seconds |"; "|---|---|---|---:|---|---|---:|---:|"]
    ++ task_table d ++ autonomy ++ pairs) +:+ nl).

Example shown_cells :
  (rate_cell (rate 2 3), rate_cell (rate 0 0), text_cell (VStr ("a | b" +:+ nl +:+ " c")), integer_cell (Some 1234567%Z), flag_cell (VBool false), flag_cell VNone)
  = ("0.67 (2/3)", DASH, "a \| b c", Ok "1,234,567", "no", DASH).
Proof. vm_compute. reflexivity. Qed.
