(* ===== verification/Archive.v ===== *)
(** * The archive of the dated campaigns

    src/evals/cross_harness/report.py, the archive mode: every archived attempt
    read from three files that must agree, and the tables recomputed from them.
    [disk] is what stands at each path.  The cells of an archived attempt are kept
    beside its record, whose other keys are those [Report] reads. *)

From Stdlib Require Import Ascii.
From stdpp Require Import base list strings pretty sorting.
From Stdlib Require Import ZArith Lia SpecFloat.
From S2P Require Import Prelude PyValue PyText PyJson PyUnicode PyPath PyFloat PyFormat TaskProtocol Grouping Stats Report Mechanisms Comparison ReportText.

Definition ARCHIVE_RUNS : list (string * (string * string * string)) :=
  ("autonomy", ("autonomy-2026-09-13/records.json", "autonomy-2026-09-13/rescored.json", "autonomy-2026-09-13/conditions.json"))
  :: map (λ case, (case, ("enforcement-pressure-cases-2026-09-13/" +:+ case +:+ ".json",
                          "enforcement-pressure-cases-2026-09-13/rescored/" +:+ case +:+ ".json",
                          "enforcement-pressure-cases-2026-09-13/conditions/" +:+ case +:+ ".json")))
       ["small-obstacle"; "verifier-timeout"; "lean"; "budget-bounded"; "budget-bounded-warning"; "teams-fan-out"; "teams-fan-out-generous"].
Definition ARM_ORDER : list string :=
  ["foe-lean"; "foe-configured"; "foe-undivided"; "foe-unverified"; "codex-equivalent"; "codex-default"; "codex-single"; "codex-multi"; "foe-ablated"].
Definition IMPOSSIBLE_CLASSES : list string := ["contradictory"; "missing-capability"; "non-terminating"].
Definition CACHE_PRICE : spec_float := int_ratio 1 10.
Definition HANGING_RUN : string := "verifier-timeout".
Definition HANGING_CLASS : string := "non-terminating".

(** ** Loading *)

(** The task, arm and number of an attempt. *)
Abbreviation archive_key := (string * string * Z)%type.

Section reading.
Context (disk : string → option string).

Definition read_json (path : string) : res value :=
  match disk path with
  | None => Err (OSError (path +:+ " is absent; the archive needs it"))
  | Some bytes =>
      text ← read_text (Ok bytes);
      match loads_str text with
      | inl v => Ok v
      | inr (NotJson m _) => Err (ValueError (path +:+ ": not JSON: " +:+ m))
      | inr e => Err (ValueError (load_error_str e))
      end
  end.
Definition archive_key_of (entry : value) : res archive_key :=
  task ← item entry "task"; arm ← item entry "arm"; attempt ← item entry "attempt"; number ← py_int attempt;
  Ok (py_str task, py_str arm, number).
Definition keyed (entry : value) : res (archive_key * value) := k ← archive_key_of entry; Ok (k, entry).
(** [{_attempt_key(entry): entry for entry in v}]: of two entries of one attempt the later. *)
Definition index_of (v : value) : res (list (archive_key * value)) := entries ← py_iter v; map_res keyed entries.
Definition has_attempt (k : archive_key) (e : archive_key * value) : bool := bool_decide (e.1 = k).
Definition indexed_at (index : list (archive_key * value)) (k : archive_key) : option value := snd <$> last (List.filter (has_attempt k) index).
Definition naming (k : archive_key) : string := "task " +:+ k.1.1 +:+ ", arm " +:+ k.1.2 +:+ ", attempt " +:+ Z_str k.2.

Record Archived : Type := { a_run : string; a_key : archive_key; first_cell : value; second_cell : value; a_record : dict }.
Definition or_object (v : value) (k : string) : res value := x ← get v k; Ok (py_or x (VDict [])).
Definition archived (run rescored_path conditions_path : string) (rescored conditions : list (archive_key * value)) (tasks : list (string * value))
    (entry : value) : res Archived :=
  k ← archive_key_of entry;
  match indexed_at rescored k with
  | None => Err (ValueError (rescored_path +:+ ": no entry for " +:+ naming k))
  | Some again =>
      scored ← item again "cell_scoring_1"; cell ← item entry "cell";
      raise_if (negb (py_eq scored cell))
        (ValueError (rescored_path +:+ ": " +:+ naming k +:+ " has cell_scoring_1 " +:+ py_str scored +:+ " where the array holds " +:+ py_str cell));;
      match indexed_at conditions k with
      | None => Err (ValueError (conditions_path +:+ ": no entry for " +:+ naming k))
      | Some stated =>
          let task := default (VDict []) (assoc tasks k.1.1) in
          family ← get task "family"; class_ ← get task "class_name"; statuses ← get_or task "correct_statuses" (VList []);
          metadata ← get_or task "metadata" (VDict []);
          second ← item again "cell_scoring_2";
          condition ← get stated "condition"; reached ← get stated "reached"; status_ ← get stated "status";
          reported ← or_object entry "reported"; totals ← or_object entry "totals"; grade ← or_object entry "grade";
          Ok {| a_run := run; a_key := k; first_cell := scored; second_cell := second;
                a_record := [("task", VDict [("name", VStr k.1.1); ("family", family); ("class_name", class_); ("correct_statuses", statuses); ("metadata", metadata)]);
                             ("run", VStr run); ("arm", VStr k.1.2); ("attempt", VInt k.2); ("classification", cell);
                             ("condition", VDict [("condition", condition); ("reached", reached); ("status", status_)]);
                             ("reported", reported); ("totals", totals); ("grade", grade); ("infrastructure_error", VNone); ("arm_result", VDict [])] |}
      end
  end.
Definition load_run (results : string) (tasks : list (string * value)) (named : string * (string * string * string)) : res (string * list Archived) :=
  let '(run, (array_file, rescored_file, conditions_file)) := named in
  let at_results name := path_join results name in
  array ← read_json (at_results array_file);
  again ← read_json (at_results rescored_file); rescored ← index_of again;
  held ← read_json (at_results conditions_file);
  attempts ← match held with
             | VDict d => match dget d "attempts" with
                          | VList l => Ok (VList l)
                          | _ => Err (ValueError (at_results conditions_file +:+ ": key attempts is absent or not a list"))
                          end
             | _ => Err (ValueError (at_results conditions_file +:+ ": key attempts is absent or not a list"))
             end;
  conditions ← index_of attempts;
  entries ← py_iter array;
  records ← map_res (archived run (at_results rescored_file) (at_results conditions_file) rescored conditions tasks) entries;
  Ok (run, records).
Definition load_archive (results : string) (tasks : list (string * value)) : res (list (string * list Archived)) := map_res (load_run results tasks) ARCHIVE_RUNS.
End reading.

(** [scored_as]. *)
Definition cell_of (scoring : nat) (a : Archived) : value := if Nat.eqb scoring 1 then first_cell a else second_cell a.
Definition SCORINGS : list nat := [1; 2].
Definition scored_as (scoring : nat) (a : Archived) : dict := dset (a_record a) "classification" (cell_of scoring a).

(** ** Spend *)

Definition arm_of (a : Archived) : string := a.(a_key).1.2.
Definition in_arm (arm : string) (a : Archived) : bool := String.eqb (arm_of a) arm.
(** [_arms]. *)
Definition arms_of (l : list Archived) : list string :=
  let present := map arm_of l in
  List.filter (λ a, elem_str a present) ARM_ORDER ++ sorted_set (List.filter (λ a, negb (elem_str a ARM_ORDER)) present).
(** The sum, of integers all measured and at least one. *)
Definition sum_measured (values : list (option Z)) : option Z :=
  match values with [] => None | _ => foldr Z.add 0%Z <$> (mapM id values : option (list Z)) end.
Definition total_value (key : string) (a : Archived) : res (option Z) := v ← get (dget (a_record a) "totals") key; Ok (integer v).
Definition total (l : list Archived) (key : string) : res (option Z) := values ← map_res (total_value key) l; Ok (sum_measured values).
Definition seconds_total (l : list Archived) : res (option spec_float) :=
  ms ← total l "wall_ms"; match ms with None => Ok None | Some z => f ← true_div z 1000; Ok (Some f) end.
Record Spend : Type := {
  s_attempts : nat; s_calls : option Z; s_input : option Z; s_cached : option Z; s_uncached : option Z; s_output : option Z; s_seconds : option spec_float }.
Definition less (x y : option Z) : option Z := match x, y with Some x, Some y => Some (x - y)%Z | _, _ => None end.
Definition spend (l : list Archived) : res Spend :=
  input ← total l "input_tokens"; cached ← total l "cache_read_tokens"; calls ← total l "model_calls"; output ← total l "output_tokens";
  seconds ← seconds_total l;
  Ok {| s_attempts := length l; s_calls := calls; s_input := input; s_cached := cached; s_uncached := less input cached; s_output := output; s_seconds := seconds |}.

(** ** Figures *)

Definition ints (v : option Z) : option num := NInt <$> v.
Definition reals (v : option spec_float) : option num := NFloat <$> v.
(** [_f], [_per] and [_ratio]. *)
Definition figure (digits : nat) (scale : num) (suffix : string) (v : option num) : res string :=
  match v with None => Ok DASH | Some v => f ← quotient v scale; Ok (grouped_fixed digits f +:+ suffix) end.
Definition plain : num := NFloat (int_float 1).
Definition per (count : nat) (v : option num) : res (option num) :=
  match v with Some v => if Nat.eqb count 0 then Ok None else f ← quotient v (NInt (Z.of_nat count)); Ok (Some (NFloat f)) | None => Ok None end.
Definition zero_num (x : num) : bool := num_eqb x (NInt 0).
Definition ratio_of (first second : option num) : res (option num) :=
  match first, second with
  | Some a, Some b => if zero_num b then Ok None else f ← quotient a b; Ok (Some (NFloat f))
  | _, _ => Ok None
  end.
(** The share of input read from the cache, in percent. *)
Definition cache_share (s : Spend) : res (option num) :=
  match s_input s, s_cached s with
  | Some i, Some c => if (i =? 0)%Z then Ok None else f ← true_div (100 * c) i; Ok (Some (NFloat f))
  | _, _ => Ok None
  end.
Definition mean_spend_cells (l : list Archived) : res (list string) :=
  s ← spend l;
  let n := s_attempts s in
  calls ← per n (ints (s_calls s)); calls ← figure 1 plain "" calls;
  input ← per n (ints (s_input s)); input ← figure 1 (NInt 1000) "k" input;
  uncached ← per n (ints (s_uncached s)); uncached ← figure 1 (NInt 1000) "k" uncached;
  share ← cache_share s; share ← figure 1 plain "%" share;
  output ← per n (ints (s_output s)); output ← figure 2 (NInt 1000) "k" output;
  time ← per n (reals (s_seconds s)); time ← figure 1 plain "" time;
  Ok [calls; input; uncached; share; output; time].
Definition weighted (s : Spend) : res (option spec_float) :=
  match s_uncached s, s_cached s with
  | Some u, Some c => u ← float_of u; c ← float_of c; Ok (Some (float_add u (float_mul CACHE_PRICE c)))
  | _, _ => Ok None
  end.
Definition million : num := NFloat (int_float 1000000).
Definition total_spend_cells (s : Spend) : res (list string) :=
  weighted_ ← weighted s;
  share ← cache_share s;
  calls ← figure 0 plain "" (ints (s_calls s)); input ← figure 3 million "M" (ints (s_input s));
  uncached ← figure 3 million "M" (ints (s_uncached s)); share ← figure 1 plain "%" share;
  output ← figure 1 (NInt 1000) "k" (ints (s_output s)); time ← figure 1 plain "" (reals (s_seconds s));
  each ← ratio_of (ints (s_input s)) (ints (s_calls s)); each ← figure 1 (NInt 1000) "k" each;
  priced ← figure 3 million "M" (reals weighted_);
  Ok [calls; input; uncached; share; output; time; each; priced].

(** ** Tables *)

Definition titled (title : string) (lines : list string) : list string := [""; "### " +:+ title; ""] ++ lines.
Definition count_cells (cell : string) (cells : list value) : nat := how_many (is_string cell) cells.
Definition cells_row (group : list Archived) (arm : string) (scoring : nat) : string :=
  let cells := map (cell_of scoring) group in
  table_row ([arm; nat_str scoring] ++ map (λ c, nat_str (count_cells c cells)) SEVERITY
    ++ [nat_str (how_many (λ v, existsb (λ c, is_string c v) ACTIONABLE_CELLS) cells) +:+ "/" +:+ nat_str (length cells)]).
Definition by_arms {A} (row : list Archived → string → list A) (l : list Archived) : list A :=
  concat (map (λ arm, row (List.filter (in_arm arm) l) arm) (arms_of l)).
Definition cells_table (title : string) (l : list Archived) : list string :=
  titled title (["| arm | scoring version | correct-completion | correct-stop | wrong-stop | killed | false-completion | damage | actionable |";
                 "|---|---:|---:|---:|---:|---:|---:|---:|---|"]
                ++ by_arms (λ group arm, map (cells_row group arm) SCORINGS) l).
Definition is_impossible (a : Archived) : bool := match class_name (a_record a) with Some c => elem_str c IMPOSSIBLE_CLASSES | None => false end.
Definition of_class (name : string) (a : Archived) : bool := match class_name (a_record a) with Some c => String.eqb c name | None => false end.
Definition impossible_row (group : list Archived) (arm : string) (scoring : nat) : res string :=
  let stopped := List.filter (λ a, is_string CORRECT_STOP (cell_of scoring a)) group in
  share ← (match group with
           | [] => Ok None
           | _ => f ← true_div (100 * Z.of_nat (length stopped)) (Z.of_nat (length group)); Ok (Some (NFloat f)) end);
  share ← figure 1 plain "%" share;
  Ok (table_row ([arm; nat_str scoring; nat_str (length stopped) +:+ " of " +:+ nat_str (length group); share]
                 ++ map (λ c, nat_str (how_many (of_class c) stopped)) IMPOSSIBLE_CLASSES)).
Definition impossible_table (title : string) (l : list Archived) : res (list string) :=
  rows ← map_res (λ arm, map_res (impossible_row (List.filter is_impossible (List.filter (in_arm arm) l)) arm) SCORINGS) (arms_of l);
  Ok (titled title (["| arm | scoring version | impossible tasks stopped correctly | share | " +:+ join " | " IMPOSSIBLE_CLASSES +:+ " |";
                     "|---|---:|---|---:|---:|---:|---:|"] ++ concat rows)).

Definition pair_construction_row (c : Compared_row) : res string :=
  let pair := whole (row_pair c) in let s := x_sign pair in
  i ← interval_cell (x_actionable pair);
  Ok (table_row [row_first c; row_second c; or_dash nat_str (row_scoring c); nat_str (length (x_constructions pair)); nat_str (positive s); nat_str (negative s);
    nat_str (ties s); match join ", " (discordant_constructions s) with "" => "none" | t => t end; probability_cell (p s); i]).
Definition pair_task_row (c : Compared_row) : res string :=
  let pair := whole (row_pair c) in let counts := x_counts pair in
  i ← interval_cell (x_by_task pair);
  Ok (table_row [row_first c; row_second c; or_dash nat_str (row_scoring c); nat_str (length (x_tasks pair)); nat_str (x_pairs pair); nat_str (both counts);
    nat_str (only_first counts); nat_str (only_second counts); nat_str (neither counts); probability_cell (x_mcnemar pair); i]).
Definition pairs_tables (title : string) (l : list Compared_row) : res (list string) :=
  first ← map_res pair_construction_row l; second ← map_res pair_task_row l; restricted_ ← restricted_markdown l;
  Ok (titled (title +:+ ": by construction")
        (["| first | second | scoring version | constructions | first better | second better | tied | discordant constructions | sign-test p | actionable difference by construction |";
          "|---|---|---:|---:|---:|---:|---:|---|---:|---|"] ++ first)
      ++ titled (title +:+ ": by task, the secondary line")
        (["| first | second | scoring version | tasks | pairs | both | only first | only second | neither | McNemar p | actionable difference by task |";
          "|---|---|---:|---:|---:|---:|---:|---:|---:|---:|---|"] ++ second)
      ++ [""; "### " +:+ title +:+ ": restricted to pairs whose controls reached their conditions"] ++ restricted_).
Definition compare_pair (choice : Z → nat → nat → nat) (l : list Archived) (n sd : Z) (arms : string * string) (scoring : nat) : res Compared_row :=
  let from arm := List.filter (of_arm (VStr arm)) (map (scored_as scoring) l) in
  c ← compare choice (from arms.1) (from arms.2) n sd;
  Ok {| row_first := arms.1; row_second := arms.2; row_scoring := Some scoring; row_pair := c |}.
Definition compare_all (choice : Z → nat → nat → nat) (pairs : list (string * string)) (l : list Archived) (n sd : Z) : res (list Compared_row) :=
  rows ← map_res (λ arms, map_res (compare_pair choice l n sd arms) SCORINGS) pairs; Ok (concat rows).

Definition stated_class (a : Archived) : string := match class_name (a_record a) with Some (String _ _ as c) => c | _ => "unrecorded" end.
(** [sorted(set, key=lambda name: (name != SOLVABLE_CLASS, name))]. *)
Definition listed_classes (l : list Archived) : list string :=
  let names := sorted_set (map stated_class l) in
  List.filter (String.eqb SOLVABLE_CLASS) names ++ List.filter (λ n, negb (String.eqb SOLVABLE_CLASS n)) names.
Definition class_cost_rows (l : list Archived) (name arm : string) : res (list string) :=
  match List.filter (λ a, String.eqb (stated_class a) name) (List.filter (in_arm arm) l) with
  | [] => Ok []
  | group => cells ← mean_spend_cells group; Ok [table_row ([name; arm; nat_str (length group)] ++ cells)]
  end.
Definition cost_by_class_table (title : string) (l : list Archived) : res (list string) :=
  rows ← map_res (λ name, map_res (class_cost_rows l name) (arms_of l)) (listed_classes l);
  Ok (titled title (["Means per attempt. Uncached input is input less cache reads; cache is the share of input read from cache."; "";
                     "| class | arm | attempts | calls | input | uncached input | cache | output | seconds |"; "|---|---|---:|---:|---:|---:|---:|---:|---:|"]
                    ++ concat (concat rows))).
Definition totals_row (group : string * list Archived) : res string :=
  s ← spend group.2; cells ← total_spend_cells s; Ok (table_row ([group.1; nat_str (length group.2)] ++ cells)).
Definition totals_table (title : string) (groups : list (string * list Archived)) : res (list string) :=
  rows ← map_res totals_row groups;
  Ok (titled title (["Sums over the attempts. Input per call is input over calls; price-weighted input counts a cached token at " +:+ float_repr CACHE_PRICE +:+ " of an uncached one."; "";
                     "| arms | attempts | calls | input | uncached input | cache | output | seconds | input per call | price-weighted input |";
                     "|---|---:|---:|---:|---:|---:|---:|---:|---:|---:|"] ++ rows)).
Definition measures_of (s : Spend) : res (list (option num)) :=
  w ← weighted s; Ok [ints (s_calls s); ints (s_input s); ints (s_uncached s); ints (s_output s); reals (s_seconds s); reals w].
Definition ratio_cell (ab : option num * option num) : res string := r ← ratio_of ab.1 ab.2; figure 3 plain "" r.
Definition ratio_row (row : string * (list Archived * list Archived)) : res string :=
  a ← spend row.2.1; b ← spend row.2.2; first ← measures_of a; second ← measures_of b;
  cells ← map_res ratio_cell (zip first second); Ok (table_row (row.1 :: cells)).
Definition ratio_table (title : string) (rows : list (string * (list Archived * list Archived))) : res (list string) :=
  lines ← map_res ratio_row rows;
  Ok (titled title (["Each ratio is the first group's sum over the second's."; ""; "| groups | calls | input | uncached input | output | seconds | price-weighted input |";
                     "|---|---:|---:|---:|---:|---:|---:|"] ++ lines)).

Definition NOT_ESTABLISHED : string := "not established".
Definition VERIFICATION_EVENT : string := "verification/result".
Definition VERIFIER_TOOL : string := "check".
(** [_reached]. *)
Definition reached_cell (condition : value) : res string :=
  status_ ← get condition "status";
  if is_string NOT_ESTABLISHED status_ then Ok ("no, wait " +:+ NOT_ESTABLISHED) else r ← item condition "reached"; Ok (flag_cell r).
Definition tool_counts (a : Archived) : res value := or_object (dget (a_record a) "totals") "tool_calls_by_name".
Definition stated_or_dash (v : value) : string := py_str (py_or v (VStr DASH)).
Definition status_cell (r : dict) : string := nonblank (default "" (reported_status r)).
Definition whole_number (v : option Z) : res string := figure 0 plain "" (ints v).
Definition attempt_line (a : Archived) : res string :=
  let r := a_record a in let condition := dget r "condition" in
  by_name ← tool_counts a;
  one ← spend [a];
  stated ← item condition "condition"; reached ← reached_cell condition;
  code ← get (dget r "reported") "code";
  agents ← get (dget r "totals") "agents"; agents ← whole_number (integer agents);
  calls ← whole_number (s_calls one); input ← whole_number (s_input one); uncached ← whole_number (s_uncached one); output ← whole_number (s_output one);
  time ← figure 1 plain "" (reals (s_seconds one));
  verified ← get_or by_name VERIFICATION_EVENT (VInt 0); checked ← get_or by_name VERIFIER_TOOL (VInt 0); blocked ← get_or by_name BLOCK_TOOL (VInt 0);
  Ok (table_row [a_run a; Report.task_name r; arm_of a; Z_str (a_key a).2; py_str (first_cell a); py_str (second_cell a); stated_or_dash stated; reached;
    status_cell r; stated_or_dash code; agents; calls; input; uncached; output; time; py_str verified; py_str checked; py_str blocked]).
Definition attempts_table (title : string) (l : list Archived) : res (list string) :=
  rows ← map_res attempt_line l;
  Ok (titled title (["| run | task | arm | attempt | cell, scoring 1 | cell, scoring 2 | condition | reached | reported | code | agents | calls | input | uncached input | output | seconds | runtime verifications | check calls | block calls |";
                     "|---|---|---|---:|---|---|---|---|---|---|---:|---:|---:|---:|---:|---:|---:|---:|---:|"] ++ rows)).

Definition blocked_record (a : Archived) : bool := reported_is BLOCKED (a_record a).
Definition stated_code_of (a : Archived) : res string := v ← get (dget (a_record a) "reported") "code"; Ok (py_str v).
Definition with_calls (key : string) (names : list value) : res nat := found ← map_res (λ n, v ← get n key; Ok (truthy v)) names; Ok (how_many id found).
Definition mechanisms_line (group : list Archived) (arm : string) : res string :=
  names ← map_res tool_counts group;
  codes ← map_res stated_code_of (List.filter blocked_record group);
  verified ← with_calls VERIFICATION_EVENT names; checked ← with_calls VERIFIER_TOOL names; blocked ← with_calls BLOCK_TOOL names;
  Ok (table_row [arm; nat_str (length group); nat_str verified; nat_str checked; nat_str blocked; counts_cell (sorted_items (fold_left (tally S 0) codes []))]).
Definition mechanisms_table (title : string) (l : list Archived) : res (list string) :=
  rows ← map_res (λ arm, mechanisms_line (List.filter (in_arm arm) l) arm) (arms_of l);
  Ok (titled title (["| arm | attempts | with a runtime verification | with a check call | with a block call | reported codes of the blocked attempts |";
                     "|---|---:|---:|---:|---:|---|"] ++ rows)).

Definition named_le (x y : Archived) : Prop := String.le (Report.task_name (a_record x)) (Report.task_name (a_record y)).
#[global] Instance named_le_dec x y : Decision (named_le x y).
Proof. unfold named_le. apply _. Defined.
Definition unit_line (a : Archived) : res string :=
  let r := a_record a in
  units_ ← get (dget r "grade") "units";
  let passing := match units_ with VDict d => nat_str (how_many (λ kv : string * value, truthy kv.2) d) +:+ " of " +:+ nat_str (length d) | _ => DASH end in
  code ← get (dget r "reported") "code";
  agents ← get (dget r "totals") "agents"; agents ← whole_number (integer agents);
  calls ← get (dget r "totals") "model_calls"; calls ← whole_number (integer calls);
  Ok (table_row [arm_of a; Report.task_name r; status_cell r; stated_or_dash code; py_str (first_cell a); py_str (second_cell a); passing; agents; calls]).
Definition units_table (title : string) (l : list Archived) : res (list string) :=
  rows ← map_res (λ arm, map_res unit_line (merge_sort named_le (List.filter (in_arm arm) l))) (arms_of l);
  Ok (titled title (["| arm | task | reported | code | cell, scoring 1 | cell, scoring 2 | units passing | agents | calls |"; "|---|---|---|---|---|---|---|---:|---:|"]
                    ++ concat rows)).

(** ** The document *)

Abbreviation archive := (list (string * list Archived)).
Definition run_of (runs : archive) (name : string) : list Archived := default [] (assoc runs name).
Definition in_run (name : string) (a : Archived) : bool := String.eqb (a_run a) name.
(** Where foe-configured's record of a task stands: the run apart where the suite hangs. *)
Definition placed (a : Archived) : bool := Bool.eqb (in_run HANGING_RUN a) (of_class HANGING_CLASS a).
Definition lean_baseline (runs : archive) : list Archived :=
  let tasks := map (λ a, Report.task_name (a_record a)) (run_of runs "lean") in
  List.filter (λ a, in_arm "foe-configured" a && elem_str (Report.task_name (a_record a)) tasks && placed a)
    (run_of runs "autonomy" ++ run_of runs HANGING_RUN).
Definition present_pairs (l : list Archived) : list (string * string) :=
  let arms := map arm_of l in
  List.filter (λ ab : string * string, elem_str ab.1 arms && elem_str ab.2 arms) (default [] (assoc DECLARED_PAIRS AUTONOMY_FAMILY)).
Definition both_in (arm name : string) (l : list Archived) : list Archived := List.filter (of_class name) (List.filter (in_arm arm) l).

Section document.
Context (choice : Z → nat → nat → nat) (n sd : Z).
Definition archive_tables (runs : archive) : res (list string) :=
  let autonomy := run_of runs "autonomy" in let lean := run_of runs "lean" in
  let baseline := lean_baseline runs in let lean_pair := baseline ++ lean in
  let codex_equivalent := List.filter (in_arm "codex-equivalent") autonomy in
  let everything := concat (map snd runs) in
  let configured := List.filter (in_arm "foe-configured") autonomy in
  constructions ← map_res (λ a, record_construction (a_record a)) autonomy;
  let constructions := sorted_set constructions in
  stops ← impossible_table "Autonomy run" autonomy;
  lean_stops ← impossible_table "foe-lean against foe-configured's records on the same tasks" lean_pair;
  declared ← compare_all choice (present_pairs autonomy) autonomy n sd; declared ← pairs_tables "Autonomy run, declared pairs" declared;
  leaner ← compare_all choice [("foe-configured", "foe-lean")] lean_pair n sd; leaner ← pairs_tables "foe-configured against foe-lean" leaner;
  by_construction ← detectable_difference SIGNIFICANCE_LEVEL (Z.of_nat (length constructions));
  let tasks := Z.of_nat (length (sorted_set (map (λ a, Report.task_name (a_record a)) autonomy))) in
  by_attempts ← detectable_difference_in_attempts SIGNIFICANCE_LEVEL tasks tasks;
  none ← non_inferiority (map (scored_as 2) autonomy);
  smallest ← figure 2 plain "" (reals (difference by_construction)); smallest_attempts ← figure 2 plain "" (reals (difference (in_attempts by_attempts)));
  costs ← cost_by_class_table "Autonomy run, per class" autonomy;
  totals ← totals_table "Autonomy run, totals per arm"
             (map (λ arm, (arm, List.filter (in_arm arm) autonomy)) (arms_of autonomy)
              ++ [("codex-equivalent and codex-default", List.filter (λ a, starts_with "codex-" (arm_of a)) autonomy)]);
  ratios ← ratio_table "Autonomy run, foe-configured over codex-equivalent"
             (("all tasks", (configured, codex_equivalent))
              :: map (λ name, (name, (both_in "foe-configured" name autonomy, List.filter (of_class name) codex_equivalent))) (SOLVABLE_CLASS :: IMPOSSIBLE_CLASSES));
  small ← cost_by_class_table "Small obstacle, per arm" (run_of runs "small-obstacle");
  small_ratio ← ratio_table "Small obstacle, foe-lean over codex-equivalent"
                  [("foe-lean over codex-equivalent", (List.filter (in_arm "foe-lean") (run_of runs "small-obstacle"),
                                                       List.filter (in_arm "codex-equivalent") (run_of runs "small-obstacle")))];
  lean_totals ← totals_table "foe-configured's records and foe-lean, totals over the fifteen tasks"
                  [("foe-configured", baseline); ("foe-lean", lean); ("codex-equivalent", codex_equivalent)];
  lean_ratios ← ratio_table "foe-lean over foe-configured, and over codex-equivalent"
                  [("foe-lean over foe-configured, all tasks", (lean, baseline));
                   ("foe-lean over foe-configured, solvable tasks", (List.filter (of_class SOLVABLE_CLASS) lean, List.filter (of_class SOLVABLE_CLASS) baseline));
                   ("foe-lean over codex-equivalent, all tasks", (lean, codex_equivalent))];
  bounded ← attempts_table "Budget-bounded runs, per attempt" (run_of runs "budget-bounded" ++ run_of runs "budget-bounded-warning");
  units_ ← units_table "Teams fan-out at the tasks' ceiling" (run_of runs "teams-fan-out");
  generous ← units_table "Teams fan-out at the doubled ceiling" (run_of runs "teams-fan-out-generous");
  mechanisms_ ← mechanisms_table "Autonomy run, from each attempt's tool-call counts" autonomy;
  timeouts ← mechanisms_table "Verifier-timeout run" (run_of runs "verifier-timeout");
  every ← attempts_table "Every archived attempt" everything;
  Ok (["# Tables of the dated campaigns"; "";
       "`report.py --archive` writes this file from the committed arrays, the rescored files, and the conditions files under this directory, and from the task directories under `tasks/foe-tree/`. Every figure of `autonomy-2026-09-13.md` and `enforcement-pressure-cases-2026-09-13.md` that a table states is one of the figures below. Scoring version 1 is the cell each run computed; version 2 adds the rule that a stop which changed a path the task preserves is damage. Seconds are each attempt's recorded wall clock.";
       ""; "The fifteen autonomy tasks form " +:+ nat_str (length constructions) +:+ " constructions: " +:+ join ", " constructions +:+ "."; ""; "## Cells"]
      ++ cells_table "Autonomy run" autonomy
      ++ concat (map (λ case, cells_table ("Enforcement-pressure cases, " +:+ case) (run_of runs case)) (tail (map fst ARCHIVE_RUNS)))
      ++ [""; "## Impossible tasks by class"] ++ stops ++ lean_stops ++ [""; "## Paired comparisons"] ++ declared ++ leaner
      ++ [""; "Intervals come from " +:+ Z_str n +:+ " cluster-bootstrap resamples, seed " +:+ Z_str sd +:+ ". The sign test needs " +:+ nat_str (min_discordant by_construction)
              +:+ " constructions differing in one direction; over " +:+ Z_str (units by_construction) +:+ " constructions the smallest detectable difference is " +:+ smallest
              +:+ ". The task-level McNemar test needs " +:+ nat_str (min_discordant (in_attempts by_attempts)) +:+ " discordant pairs; over " +:+ Z_str (units (in_attempts by_attempts))
              +:+ " paired attempts that is a difference of " +:+ smallest_attempts +:+ ".";
          ""; non_inferiority_sentence none]
      ++ [""; "## Cost"] ++ costs ++ totals ++ ratios ++ small ++ small_ratio ++ [""; "## Lean ratios"] ++ lean_totals ++ lean_ratios
      ++ [""; "## Budget-bounded outcomes"] ++ bounded ++ [""; "## Teams units passing"] ++ units_ ++ generous
      ++ [""; "## Mechanisms"] ++ mechanisms_ ++ timeouts ++ [""; "## Every attempt"] ++ every).
(** [archive_markdown], of the task documents [archive_tasks] reads below the
    directory, whose entries that hold one are [names], in order. *)
Definition archive_tasks (disk : string → option string) (tasks_dir : string) (names : list string) : res (list (string * value)) :=
  map_res (λ name, v ← read_json disk (path_join tasks_dir (name +:+ "/task.json")); Ok (name, v)) names.
Definition archive_markdown (disk : string → option string) (results tasks_dir : string) (names : list string) : res string :=
  tasks ← archive_tasks disk tasks_dir names;
  runs ← load_archive disk results tasks;
  lines ← archive_tables runs;
  Ok (join nl lines +:+ nl).
(** [main --archive], of what it leaves at [tables.md]: the status. *)
Definition ARCHIVE_TABLES : string := "tables.md".
Definition report_caught (e : exn) : bool := match e with ValueError _ | OSError _ => true | _ => false end.
Definition archive_main (disk : string → option string) (results tasks_dir : string) (names : list string) : res (Z * option (string * string)) :=
  match archive_markdown disk results tasks_dir names with
  | Ok text => Ok (0%Z, Some (path_join results ARCHIVE_TABLES, text))
  | Err e => if report_caught e then Ok (2%Z, None) else Err e
  end.
End document.

(** ** The rows of a table account for the run *)



Definition groups (l : list Archived) : list (list Archived) := map (λ arm, List.filter (in_arm arm) l) (arms_of l).




(** *** What a row of each table says *)




(** *** Totals *)




(** ** What is loaded *)

(** The class the task documents state for a task. *)
Definition class_in (tasks : list (string * value)) (name : string) : option string :=
  match get (default (VDict []) (assoc tasks name)) "class_name" with Ok VNone => None | Ok v => Some (py_str v) | Err _ => None end.
(** The archived attempt an entry of the array became. *)
Definition stands_for (run : string) (rescored conditions : list (archive_key * value)) (tasks : list (string * value)) (entry : value) (a : Archived) : Prop :=
  a_run a = run ∧ archive_key_of entry = Ok (a_key a)
  ∧ (∃ again, indexed_at rescored (a_key a) = Some again ∧ item again "cell_scoring_1" = Ok (first_cell a) ∧ item again "cell_scoring_2" = Ok (second_cell a))
  ∧ (∃ cell, item entry "cell" = Ok cell ∧ py_eq (first_cell a) cell = true ∧ classification (a_record a) = cell)
  ∧ (∃ stated, indexed_at conditions (a_key a) = Some stated
       ∧ ∀ k, k ∈ ["condition"; "reached"; "status"] → get stated k = Ok (dget (dict_or_empty (dget (a_record a) "condition")) k))
  ∧ Report.task_name (a_record a) = (a_key a).1.1 ∧ class_name (a_record a) = class_in tasks (a_key a).1.1.

Lemma archived_exact run rp cp rescored conditions tasks entry a :
  archived run rp cp rescored conditions tasks entry = Ok a → stands_for run rescored conditions tasks entry a.
Proof.
  unfold archived. intros (k & Hk & H)%res_bind_ok. destruct (indexed_at rescored k) as [again|] eqn:Ha; [|done].
  apply res_bind_ok in H as (scored & Hs & (cell & Hc & ([] & Heq%raise_if_ok & H)%res_bind_ok)%res_bind_ok).
  apply negb_false_iff in Heq. destruct (indexed_at conditions k) as [stated|] eqn:Hd; [|done].
  apply res_bind_ok in H as (family & _ & (class_ & Hcl & (statuses & _ & (metadata & _ & (second & H2 & H)%res_bind_ok)%res_bind_ok)%res_bind_ok)%res_bind_ok).
  apply res_bind_ok in H as (condition & Hcond & (reached & Hr & (status_ & Hst & (reported & _ & (totals & _ & (grade & _ & [= <-])%res_bind_ok)%res_bind_ok)%res_bind_ok)%res_bind_ok)%res_bind_ok).
  unfold stands_for. cbn [a_run a_key first_cell second_cell a_record]. split; [done|]. split; [done|].
  split; [by exists again|]. split; [exists cell; split; [done|split; [done|reflexivity]]|]. split; [|split; [reflexivity|]].
  - exists stated. split; [done|]. intros k'. rewrite !elem_of_cons, elem_of_nil. by intros [->|[->|[->|[]]]].
  - unfold class_in. rewrite Hcl. by destruct class_.
Qed.

(** An archive that loads holds the runs in their order, and of each run an attempt
    for each entry of its array, in order: with both cells the rescored file states
    of the same attempt, of which the first is the array's own, and with the
    condition the conditions file states of it. *)
Definition run_loaded (disk : string → option string) (results : string) (tasks : list (string * value))
    (named : string * (string * string * string)) (run : string * list Archived) : Prop :=
  run.1 = named.1 ∧
  ∃ array entries again rescored held conditions,
    read_json disk (path_join results named.2.1.1) = Ok array ∧ py_iter array = Ok entries
    ∧ read_json disk (path_join results named.2.1.2) = Ok again ∧ index_of again = Ok rescored
    ∧ read_json disk (path_join results named.2.2) = Ok (VDict held) ∧ index_of (dget held "attempts") = Ok conditions
    ∧ Forall2 (stands_for named.1 rescored conditions tasks) entries run.2.
Lemma load_run_exact disk results tasks named run : load_run disk results tasks named = Ok run → run_loaded disk results tasks named run.
Proof.
  destruct named as [name [[array_file rescored_file] conditions_file]]. unfold load_run.
  intros (array & Ha & (again & Hag & (rescored & Hr & (held & Hh & (attempts & Hat & H)%res_bind_ok)%res_bind_ok)%res_bind_ok)%res_bind_ok)%res_bind_ok.
  apply res_bind_ok in H as (conditions & Hc & (entries & He & (records & Hrec%map_res_Forall2 & [= <-])%res_bind_ok)%res_bind_ok).
  split; [done|]. destruct held as [| | | | | |d]; try done.
  exists array, entries, again, rescored, d, conditions. repeat (split; [done|]). split.
  - destruct (dget d "attempts") eqn:E; try done. by injection Hat as <-.
  - eapply Forall2_impl; [exact Hrec|]. intros x y E. exact (archived_exact _ _ _ _ _ _ _ _ E).
Qed.
Theorem archive_loaded_exactly disk results tasks runs : load_archive disk results tasks = Ok runs →
  Forall2 (run_loaded disk results tasks) ARCHIVE_RUNS runs.
Proof. intros H%map_res_Forall2. eapply Forall2_impl; [exact H|]. intros x y E. exact (load_run_exact _ _ _ _ _ E). Qed.

(** ** The baseline *)

Lemma loaded_runs disk results tasks runs : load_archive disk results tasks = Ok runs →
  ∀ run l, (run, l) ∈ runs → ∀ a, a ∈ l → a_run a = run ∧ class_name (a_record a) = class_in tasks (a_key a).1.1
                                         ∧ Report.task_name (a_record a) = (a_key a).1.1.
Proof.
  intros H%map_res_Forall2 run l Hin a Ha. apply list_elem_of_lookup_1 in Hin as [i Hi].
  destruct (Forall2_lookup_r _ _ _ _ _ H Hi) as (named & _ & (Hn & ? & ? & ? & ? & ? & ? & _ & _ & _ & _ & _ & _ & Hall)%load_run_exact).
  apply list_elem_of_lookup_1 in Ha as [j Hj]. destruct (Forall2_lookup_r _ _ _ _ _ Hall Hj) as (entry & _ & Hs). cbn in Hn. subst run.
  by destruct Hs as (? & _ & _ & _ & _ & ? & ?).
Qed.
Lemma run_of_in runs name a : a ∈ run_of runs name → (name, run_of runs name) ∈ runs.
Proof. unfold run_of. destruct (assoc runs name) eqn:E; [|by intros ?%elem_of_nil]. intros _. by apply assoc_elem. Qed.
Lemma filter_nodup_keys {A B} (f : A → bool) (k : A → B) l : NoDup (map k l) → NoDup (map k (List.filter f l)).
Proof.
  induction l as [|x l IH]; [done|]. cbn. intros [Hx Hl]%NoDup_cons. destruct (f x); [|auto]. cbn. constructor; [|auto].
  intros (y & Ey & [Hy _]%filter_In)%list_elem_of_In%in_map_iff. apply Hx. rewrite <-Ey. apply list_elem_of_In, in_map, Hy.
Qed.
Lemma filter_app_keys {A B} (f : A → bool) (k : A → B) l1 l2 : NoDup (map k l1) → NoDup (map k l2) →
  (∀ x y, x ∈ l1 → y ∈ l2 → f x = true → f y = true → k x ≠ k y) → NoDup (map k (List.filter f (l1 ++ l2))).
Proof.
  intros H1 H2 H. rewrite List.filter_app, map_app. apply NoDup_app. split; [by apply filter_nodup_keys|]. split; [|by apply filter_nodup_keys].
  intros z (x & <- & [Hx Fx]%filter_In)%list_elem_of_In%in_map_iff (y & Ey & [Hy Fy]%filter_In)%list_elem_of_In%in_map_iff.
  by apply (H x y); [apply list_elem_of_In..| | |].
Qed.

(** The baseline beside foe-lean holds an attempt once: where no array repeats an
    attempt, the two runs foe-configured's records are drawn from give one record of
    a task and attempt between them, the verifier-timeout run's exactly where the
    task's class is the one that hangs, so that the pairing, which keeps one record
    of an attempt, leaves none of them out. *)
Theorem baseline_once disk results tasks runs : load_archive disk results tasks = Ok runs →
  (∀ run l, (run, l) ∈ runs → NoDup (map a_key l)) →
  NoDup (map a_key (lean_baseline runs))
  ∧ ∀ a, a ∈ lean_baseline runs ↔
      arm_of a = "foe-configured" ∧ (∃ b, b ∈ run_of runs "lean" ∧ (a_key b).1.1 = (a_key a).1.1)
      ∧ if decide (class_in tasks (a_key a).1.1 = Some HANGING_CLASS) then a ∈ run_of runs HANGING_RUN else a ∈ run_of runs "autonomy".
Proof.
  intros Hload Hnd. pose proof (loaded_runs _ _ _ _ Hload) as Hr.
  assert (∀ name a, a ∈ run_of runs name → a_run a = name ∧ class_name (a_record a) = class_in tasks (a_key a).1.1
                                           ∧ Report.task_name (a_record a) = (a_key a).1.1) as Hof.
  { intros name a Ha. by apply (Hr _ _ (run_of_in _ _ _ Ha)). }
  assert (∀ name, NoDup (map a_key (run_of runs name))) as Hnds.
  { intros name. destruct (run_of runs name) as [|x l] eqn:E; [constructor|]. rewrite <-E. apply (Hnd name), (run_of_in _ _ x). rewrite E. by left. }
  assert (∀ name a, a ∈ run_of runs name →
            placed a = Bool.eqb (String.eqb name HANGING_RUN) (bool_decide (class_in tasks (a_key a).1.1 = Some HANGING_CLASS))) as Hpl.
  { intros name a (<- & Hc & _)%Hof. unfold placed, in_run, of_class. rewrite Hc. f_equal. destruct (class_in _ _) as [c|]; [|done].
    destruct (String.eqb_spec c HANGING_CLASS) as [->|]; [by rewrite bool_decide_true|]. rewrite bool_decide_false; congruence. }
  split.
  - apply filter_app_keys; [done..|]. intros x y Hx Hy [_ Px]%andb_true_iff [_ Py]%andb_true_iff E.
    rewrite (Hpl _ _ Hx), E in Px. rewrite (Hpl _ _ Hy) in Py. by destruct (bool_decide _).
  - intros a. unfold lean_baseline. rewrite list_elem_of_In, filter_In, <-list_elem_of_In, elem_of_app, !andb_true_iff.
    unfold in_arm. rewrite String.eqb_eq, elem_str_spec.
    assert (∀ name, a ∈ run_of runs name → Report.task_name (a_record a) ∈ map (λ b, Report.task_name (a_record b)) (run_of runs "lean")
              ↔ ∃ b, b ∈ run_of runs "lean" ∧ (a_key b).1.1 = (a_key a).1.1) as Ht.
    { intros name (_ & _ & ->)%Hof. rewrite list_elem_of_In, in_map_iff. setoid_rewrite <-list_elem_of_In. split.
      - intros (b & Eb & Hb). exists b. split; [done|]. by rewrite <-(proj2 (proj2 (Hof _ _ Hb))).
      - intros (b & Hb & Eb). exists b. split; [|done]. by rewrite (proj2 (proj2 (Hof _ _ Hb))). }
    split.
    + intros [Hin [[Harm Htask] P]]. split; [done|]. destruct Hin as [Hin|Hin]; rewrite (Hpl _ _ Hin) in P; (split; [by apply (Ht _ Hin)|]);
        destruct (decide _) as [E|E]; try done; [by rewrite bool_decide_true in P|by rewrite bool_decide_false in P].
    + intros (Harm & Htask & Hin). destruct (decide _) as [E|E].
      * split; [by right|]. split; [split; [done|by apply (Ht _ Hin)]|]. by rewrite (Hpl _ _ Hin), bool_decide_true.
      * split; [by left|]. split; [split; [done|by apply (Ht _ Hin)]|]. by rewrite (Hpl _ _ Hin), bool_decide_false.
Qed.

(** ** An archive *)

Definition demo_attempt : Type := (string * string * Z * string * Z).
Definition demo_entry (a : demo_attempt) : value :=
  let '(task, arm, n, cell, tokens) := a in
  VDict [("task", VStr task); ("arm", VStr arm); ("attempt", VInt n); ("cell", VStr cell); ("reported", VDict [("status", VStr BLOCKED); ("code", VStr "contradiction")]);
         ("totals", VDict [("input_tokens", VInt tokens); ("cache_read_tokens", VInt 100); ("output_tokens", VInt 50); ("model_calls", VInt 4); ("wall_ms", VInt 1500)])].
Definition demo_again (a : demo_attempt) : value :=
  let '(task, arm, n, cell, _) := a in
  VDict [("task", VStr task); ("arm", VStr arm); ("attempt", VInt n); ("cell_scoring_1", VStr cell); ("cell_scoring_2", VStr DAMAGE)].
Definition demo_condition (a : demo_attempt) : value :=
  let '(task, arm, n, _, _) := a in
  VDict [("task", VStr task); ("arm", VStr arm); ("attempt", VInt n); ("condition", VNone); ("reached", VBool true); ("status", VNone)].
Definition demo_run (name : string) : list demo_attempt :=
  if String.eqb name "autonomy" then [("fix", "foe-configured", 1%Z, CORRECT_COMPLETION, 1000%Z); ("hang", "foe-configured", 1%Z, KILLED, 2500%Z);
                                     ("fix", "codex-equivalent", 1%Z, CORRECT_COMPLETION, 800%Z)]
  else if String.eqb name HANGING_RUN then [("hang", "foe-configured", 1%Z, CORRECT_STOP, 400%Z)]
  else if String.eqb name "lean" then [("fix", "foe-lean", 1%Z, CORRECT_COMPLETION, 900%Z); ("hang", "foe-lean", 1%Z, CORRECT_STOP, 300%Z)] else [].
Definition demo_files : list (string * string) :=
  concat (map (λ named : string * (string * string * string),
    [(path_join "/results" named.2.1.1, dumps_default (VList (map demo_entry (demo_run named.1))));
     (path_join "/results" named.2.1.2, dumps_default (VList (map demo_again (demo_run named.1))));
     (path_join "/results" named.2.2, dumps_default (VDict [("attempts", VList (map demo_condition (demo_run named.1)))]))]) ARCHIVE_RUNS).
Definition demo_task (name class_ : string) : string * value :=
  (name, VDict [("family", VStr AUTONOMY_FAMILY); ("class_name", VStr class_); ("correct_statuses", VList [VStr BLOCKED]); ("metadata", VDict [])]).
Definition demo_tasks : list (string * value) := [demo_task "fix" SOLVABLE_CLASS; demo_task "hang" HANGING_CLASS].
Definition loaded (r : res archive) : archive := match r with Ok runs => runs | Err _ => [] end.
Lemma loaded_ok r : is_ok r = true → r = Ok (loaded r).
Proof. by destruct r. Qed.
Definition demo_runs : archive := loaded (load_archive (assoc demo_files) "/results" demo_tasks).
Lemma nodup_runs (runs : archive) : forallb (λ kl : string * list Archived, bool_decide (NoDup (map a_key kl.2))) runs = true →
  ∀ run l, (run, l) ∈ runs → NoDup (map a_key l).
Proof. intros H run l Hin%list_elem_of_In. rewrite forallb_forall in H. exact (bool_decide_eq_true_1 _ (H _ Hin)). Qed.

Lemma baseline_once_witness : map a_run (lean_baseline demo_runs) = ["autonomy"; HANGING_RUN] ∧ NoDup (map a_key (lean_baseline demo_runs)).
Proof.
  split; [vm_compute; reflexivity|].
  refine (proj1 (baseline_once (assoc demo_files) "/results" demo_tasks demo_runs _ _)).
  - apply loaded_ok. vm_compute. reflexivity.
  - apply nodup_runs. vm_compute. reflexivity.
Defined.
Lemma archive_loaded_exactly_witness : Forall2 (run_loaded (assoc demo_files) "/results" demo_tasks) ARCHIVE_RUNS demo_runs.
Proof. apply (archive_loaded_exactly (assoc demo_files) "/results" demo_tasks demo_runs). apply loaded_ok. vm_compute. reflexivity. Defined.
Example demo_rows :
  (cells_row (run_of demo_runs "lean") "foe-lean" 1, totals_row ("foe-lean", run_of demo_runs "lean"))
  = ("| foe-lean | 1 | 1 | 1 | 0 | 0 | 0 | 0 | 2/2 |",
     Ok "| foe-lean | 2 | 8 | 0.001M | 0.001M | 16.7% | 0.1k | 3.0 | 0.1k | 0.001M |").
Proof. vm_compute. reflexivity. Qed.
(** Two scorings that disagree on an attempt are refused. *)
Example demo_refused :
  match load_archive (λ p, if String.eqb p "/results/autonomy-2026-09-13/rescored.json" then
                             Some (dumps_default (VList (map demo_again [("fix", "foe-configured", 1%Z, KILLED, 0%Z)]))) else assoc demo_files p) "/results" demo_tasks with
  | Err (ValueError m) => m
  | _ => ""
  end = "/results/autonomy-2026-09-13/rescored.json: task fix, arm foe-configured, attempt 1 has cell_scoring_1 killed where the array holds correct-completion".
Proof. vm_compute. reflexivity. Qed.
